(* ===== verification/_CoqProject ===== *)
-Q . S2P
Prelude.v
Vec.v
Bpf.v
NetUtils.v
Frame.v
Csum.v
Tables.v
CubePorts.v
DaemonPorts.v
Wiring.v
WiringPath.v
WiringFacts.v
WiringInvariant.v
WiringRun.v
WiringCtl.v
WiringDeliver.v
WiringTheorems.v
Loader.v
LoaderRun.v
LoaderTheorems.v
SbDatapath.v
SbFdb.v
SbInvariant.v
SbRun.v
SbTheorems.v
NatDatapath.v
NatFacts.v
NatSessions.v
NatRules.v
NatLists.v
NatRuleFacts.v
NatListFacts.v
NatCube.v
NatInvariant.v
NatRefine.v
NatExample.v
NatTheorems.v
RtDatapath.v
RtControl.v
RtFacts.v
RtRun.v
RtTheorems.v
LbDatapath.v
LbService.v
LbArray.v
LbFacts.v
LbRun.v
LbTheorems.v
FwRule.v
FwFlags.v
FwRuleFacts.v
FwBits.v
FwMaps.v
FwMapsFacts.v
FwIpFacts.v
FwConntrack.v
FwDatapath.v
FwPipeline.v
FwModules.v
FwChain.v
FwUpdate.v
FwStages.v
FwInstall.v
FwUpdateChain.v
FwHorus.v
FwHorusFacts.v
FwRun.v
FwFirstMatch.v
FwCounters.v
FwConnFacts.v
FwStream.v
FwHorusRun.v
FwOps.v
FwBatch.v
FwFirewall.v
FwModes.v
FwExample.v
FwTheorems.v
FwLaws.v
FwFlaws.v
