(* ===== verification/Prelude.v ===== *)
(** * Polycube: a verification of its services and of the wiring between them

    Polycube runs network functions (cubes) as eBPF programs in the Linux kernel,
    with a C++ control plane per service in the daemon polycubed.  A service under
    src/src/services/ has a control plane (objects that keep what a user
    configures, with methods called by a REST layer generated from a YANG model)
    and a datapath (C programs that the control plane compiles, chains by tail
    calls and configures through tables).  What a user is told by the first must
    be what packets meet in the second; that is what this development proves, for
    five services (the firewall, the NAT, the simple bridge, the router and the load
    balancer with reverse proxy), with the library code they rest on, and for the
    part of the daemon that decides which program a packet meets next.

    ** Conventions

    A C++ method is a function in the monad [M S A] of this file: it takes a state
    and returns a result and a state, where a result is a value, an exception with
    its text, or [Undefined] for what the language leaves undefined (an index out
    of range, a null pointer, a shift by the width).  What was written before an
    exception stays written.  Machine integers are [Z] with their wrap-around
    written out ([u8], [u16], [u32], [u64]); addresses and ports in the datapath
    are the little-endian reading of big-endian fields, as the programs see them.
    A packet is its list of bytes.  Vectors are lists read and written by index
    (Vec.v), null pointers are [None].

    Code outside src/ is a class of this development with the laws its
    documentation states, and a concrete instance on which the witnesses evaluate:
    the kernel's hash, LRU, array, per-CPU and LPM tables ([BpfHash], [LruHash],
    [BpfArray], [LpmTrie], [BpfTrie] in Bpf.v: an LRU table may evict
    any other entry, an update of a full table fails), inet_ntoa and inet_pton
    ([Inet] in NetUtils.v), the kernel's checksum helper ([CsumDiff] in Csum.v).

    ** Shared files

    - Prelude.v (this file): results, exceptions, the monad, machine integers.
    - Vec.v: std::vector, the loops that shift a vector by one, and std::set of
      integers, which the daemon takes identifiers from.
    - Bpf.v: the kernel's tables; libs/polycube/src/table.cpp for what a
      failed call throws.
    - NetUtils.v: libs/polycube/src/utils.cpp, addresses and prefixes as text and
      as numbers, with sscanf, stol and strtol as the standard defines them.
    - Frame.v: reading and writing fields of a packet, the sum of its words.
    - Csum.v: polycubed/src/cube_xdp.cpp, the checksum functions every XDP program
      is compiled with.  Programs attached to TC call the kernel's helpers instead.
    - Tables.v: libpolycube, HashTable: a kernel's hash table gone through key by
      key by the control plane (class [BpfMap], the order of the keys is the
      kernel's).
    - CubePorts.v: libpolycube, cube.h: the ports of a service, kept in step with
      those of its cube in the daemon; what it asks of the daemon is the class
      [DaemonCube].
    - DaemonPorts.v: polycubed, id_generator.cpp and the ports of cube.cpp: an
      instance of [DaemonCube], with the proof of its laws.

    ** pcn-firewall

    Control plane: FwRule (ChainRule.cpp, defines.h, Utils.cpp: a rule and its
    text), FwMaps (Utils.cpp: the rules compiled to tables of bit vectors), FwModules
    (modules/: the thirteen program objects), FwChain (Chain.cpp, ChainStats.cpp:
    every operation on a chain, batches, statistics, [updateChain]), FwFirewall
    (Firewall.cpp, SessionTable.cpp).  Datapath: FwConntrack (the connection label
    and table programs), FwDatapath (the other programs, and [receive], the run of
    tail calls a packet makes; 32 calls of fuel are enough for any loaded chain, as
    the theorems on [receive] show by giving its result).
    Proofs: FwFlags and FwRuleFacts (text), FwBits, FwMapsFacts, FwIpFacts (the
    tables hold exactly the rules that accept a key), FwPipeline (the programs of a
    chain pick the first accepting rule), FwUpdate, FwStages, FwInstall,
    FwUpdateChain, FwRun ([updateChain] installs such programs from any state),
    FwHorus, FwHorusFacts, FwHorusRun (the exact-match table in front),
    FwFirstMatch, FwStream (packets and streams of packets), FwCounters, FwOps,
    FwBatch, FwModes (every operation keeps the rules enforced), FwConnFacts
    (the connection state machines), FwExample (a concrete chain).
    FwTheorems and FwLaws state the properties: a compiled chain gives every
    stream of packets the verdicts of an abstract first-match specification;
    insert, append, delete, overwrite, flush and batches refine operations on
    lists; statistics are collected once; refused requests change nothing; mode
    changes keep the rules; connections follow their state machines; text and
    rules round-trip.  FwFlaws shows on concrete chains where the code departs from
    its rules.

    ** pcn-nat

    NatDatapath: Nat_dp.c and its tables, one program for each direction.
    NatRules: the entries (RuleSnatEntry.cpp, RuleDnatEntry.cpp,
    RulePortForwardingEntry.cpp, IpAddr.h).  NatLists: the three lists of entries
    (RuleSnat.cpp, RuleDnat.cpp, RulePortForwarding.cpp), the same code three times
    in the source, written once here against the class [RuleEntry].  NatCube:
    RuleMasquerade.cpp, Rule.cpp, Nat.cpp, NattingTable.cpp.
    Proofs: NatFacts (a rewritten packet parses as the translated flow, with right
    checksums; the ports), NatSessions (one packet and sequences of packets),
    NatRuleFacts (text and keys; the class [RuleEntryLaws] that the three kinds
    satisfy), NatListFacts (the list operations, proved once against that class),
    NatInvariant (the kernel's longest prefix match on the cube's entries is the
    most specific rule; the invariant of all events), NatRefine (the reachable
    states, and the abstract NAT that the operations refine), NatExample.
    NatTheorems states the properties: operations refine the abstract NAT; in every
    reachable state tables and rules agree; outgoing and incoming packets are
    translated by the rule they should; sessions translate both ways; checksums
    stay right; answers are never misdelivered; ports are distinct.  The last part
    of the file shows where the code departs from what it means to do.

    ** pcn-simplebridge

    SbDatapath: Simplebridge_dp.c, and the abstract learning switch, which decides
    by the history of the packets, with the program as a refinement of it.
    SbFdb: the control plane (Fdb.cpp, FdbEntry.cpp, Ports.cpp, Simplebridge.cpp and
    their base classes).  SbInvariant and SbRun: what each call does to the filtering
    database, and the invariant of the life of a bridge, in which requests,
    packets, floods by the control plane and time come in any order, and a
    concrete bridge.  SbTheorems states the properties: a packet goes where the
    history says; no packet comes back to its port or goes to a port that is gone;
    what is listed is what the program uses; entries age, are forgotten and follow
    their ports.  The last part of the file shows what
    the sources do not announce.

    ** pcn-router

    RtDatapath: Router_dp.c, without a shadow namespace, compiled for TC or for XDP,
    and what a forwarded packet is.  RtControl: the control plane.  A port's address
    makes two routes, to itself and to its network; a route of a user goes to a next
    hop whose port is looked for among the local networks; the routing table of the
    program is the kernel's longest prefix match.  Packets whose next hop has no known
    hardware address wait in a buffer of five until an answer comes.  The packets
    are built with libtins, which is the class [Tins]; its functions are
    parameters, and a small instance serves the witnesses.  The MAC address of
    a port that is given none is drawn from an oracle, and what the device behind
    a port answers when it is given an address is the class [PeerDevice].  The mutex around the waiting
    packets is part of the state, because an exception leaves it held.
    Proofs: RtFacts (the entries that the control plane asks for, [wanted], and that
    each addition puts just those in the program), RtRun (the reachable states and
    their invariant, the routers that were only added to).  RtTheorems states the
    properties: the longest of the wanted prefixes is followed; forwarded packets are
    right; the program knows the ports of the control plane; ARP requests are
    answered, and an unknown next hop is resolved and its packet sent; the
    buffer is a queue that keeps the last five.  The last part of the file shows
    where the code departs from what it means to do; deleting routes is among these,
    which is why [wanted] speaks of routers that were only added to.

    ** pcn-loadbalancer-rp

    LbDatapath: Lbrp_dp.c, then what a translated packet holds.  LbService: the
    control plane of services and servers (Service.cpp, ServiceBackend.cpp, the
    services of Lbrp.cpp).  A service spreads its servers over thirty slots by
    their weights (the consistent array: weights times a float coefficient, an
    alignment, and a walk over one random order of slots per server) and writes the
    slots to the table of services.  The order of a std::unordered_map and what
    std::shuffle gives are the class [StdLib], jhash is the class [JHash]; floats
    are rounded as IEEE single precision does.
    Proofs: LbArray (rounding, shares, the walk fills the array), LbFacts (what
    each operation writes), LbRun (the invariant over requests, packets and changes
    of ports).  LbTheorems states the properties: the array is full and fair, the
    table leads to the servers that the control plane has, packets of clients go to
    one of them and stay with it, answers come from the virtual address; the last
    part of the file shows where the code departs from what it means to do.

    ** polycubed

    Wiring.v translates port.cpp, extiface.cpp, peer_iface.cpp, transparent_cube.cpp
    and the forwarding table of cube.cpp, for cubes in TC mode: ports of cubes,
    network devices, the transparent cubes attached to either, and the indices
    that one gives the other to say which program comes next.  WiringPath.v
    translates the wrappers around the programs (cube_tc.cpp,
    transparent_cube_tc.cpp, extiface_tc.cpp) which read those indices; the programs
    themselves and the slots of the patch panel are the class [PatchPanel].
    The switch over a cube's first seventeen ports is generated when a program is
    compiled, so the state keeps, for each loaded program, the switch that it was
    compiled with: update_forwarding_table writes the tables and then calls
    [reload_all], which compiles every program again and may throw. The class
    [Reloads], under which the theorems on reachable wirings stand, says that these
    compilations succeed; stale_switch shows what a failed one leaves behind.
    WiringCtl.v: set_peer of ports and of the controller.  Proofs: WiringFacts
    (what update_indexes writes), WiringInvariant (every port and
    device is linked as its chain and its peer say), WiringRun (the operations, the
    abstract configuration they refine, the reachable states), WiringDeliver
    (packets).  WiringTheorems states the properties: in every state reached by
    connecting, disconnecting, attaching and detaching in any order, a packet that
    leaves a port meets the transparent cubes of both ports in their order, then the
    peer, and is dropped where one of them drops it.  WiringDeliver ends with a
    concrete wiring, WiringTheorems with states where the code does not do this.
    Loader.v translates base_cube.cpp and patchpanel.cpp: adding, reloading and
    removing programs of cubes.  LoaderRun proves that an index leads
    to the first program of the one cube that holds it, whatever the order of the
    operations; [panel_of] makes such a state an instance of [PatchPanel], which
    closes the interface of the wiring.  LoaderTheorems states the properties.

    ** Bounds

    The room of a table is a hypothesis where an operation needs it (an entry of a
    NAT rule is added while its table has room).  A chain of the firewall is compiled
    rightly when its rules are [compilable]: at most 8253, with the actions ACCEPT and
    DROP, prefixes of whole octets, no port 0, and fewer than 1024 different prefixes
    for each side; FwFlaws shows what the code does with others.  Loops that follow the table's keys are given
    the number of keys as fuel, and proved to finish with it.  A theorem on
    answers allows 64510 packets between a flow's first packet and the answer,
    which is the length of the port range less one.

    The kernel bounds the number of tail calls a packet may make: [receive] and
    [transmit] take that bound, and the theorems on the path of packets ask for as
    many calls as the chains have programs, which is all they need.  Identifiers of
    ports are below 128 and program indices below 65536, as the daemon gives them
    out.  The buffer of waiting packets is right up to its ninth packet, after which
    the code reads outside of it.

    ** Not modelled

    The REST layer and the serializers, which are generated; the compilation of
    programs by bcc (a loaded program is modelled by what it does, its file
    descriptor by a number); network interfaces, namespaces and netlink; cubes in
    XDP mode and the shadow mode (the router's namespace and its netlink handlers
    included); packets lifted to the control plane, apart from those the simple
    bridge floods and those of the router; threads (the timestamp of connection tracking
    is an input of each packet); concurrent packets on several CPUs, apart from
    the per-CPU counters.  The other services, listed in the manifest, are not
    modelled. *)
From Stdlib Require Import ZArith Lia DecimalString.
From stdpp Require Import base gmap sets list strings numbers.
#[local] Open Scope Z_scope.
#[global] Set Warnings "-clear-no-such-hyp".

(** * Results of C++ code

    A C++ operation returns, throws, or does something whose behaviour the
    language leaves undefined (an out-of-range [vector] index, a null pointer).
    [RuntimeError], [InvalidArgument] and [OutOfRange] are thrown by value and
    are caught by [catch (std::exception &)]; [ThrownPointer] is the object of
    [throw new ...], which only [catch (...)] stops. *)
Inductive exn :=
  | RuntimeError (what : string)
  | InvalidArgument
  | OutOfRange
  | ThrownPointer (what : string).

Inductive res (A : Type) :=
  | Ok (a : A)
  | Throw (e : exn)
  | Undefined.
Arguments Ok {A} a.
Arguments Throw {A} e.
Arguments Undefined {A}.

(** [catch (std::runtime_error)] and [catch (std::exception &)]. *)
Definition is_runtime_error (e : exn) : bool :=
  match e with RuntimeError _ => true | _ => false end.
Definition is_std_exception (e : exn) : bool :=
  match e with ThrownPointer _ => false | _ => true end.

#[global] Instance exn_eq_dec : EqDecision exn.
Proof. solve_decision. Defined.
#[global] Instance res_eq_dec `{EqDecision A} : EqDecision (res A).
Proof. solve_decision. Defined.

Definition res_bind {A B} (m : res A) (f : A -> res B) : res B :=
  match m with Ok a => f a | Throw e => Throw e | Undefined => Undefined end.

(** A method of an object of type [S]: C++ exceptions do not undo the writes
    made before them, so the state is returned in every case. *)
Definition M (S A : Type) : Type := S -> res A * S.

Definition ret {S A} (a : A) : M S A := fun s => (Ok a, s).
Definition bind {S A B} (m : M S A) (f : A -> M S B) : M S B := fun s =>
  match m s with
  | (Ok a, s') => f a s'
  | (Throw e, s') => (Throw e, s')
  | (Undefined, s') => (Undefined, s')
  end.
Definition get {S} : M S S := fun s => (Ok s, s).
Definition put {S} (s : S) : M S unit := fun _ => (Ok tt, s).
Definition modify {S} (f : S -> S) : M S unit := fun s => (Ok tt, f s).
Definition throw {S A} (e : exn) : M S A := fun s => (Throw e, s).
Definition undefined {S A} : M S A := fun s => (Undefined, s).
Definition lift {S A} (r : res A) : M S A := fun s => (r, s).
(** [try { m } catch (T) { h }] for the exceptions that [p] selects. *)
Definition try_catch {S A} (p : exn -> bool) (m : M S A) (h : M S A) : M S A := fun s =>
  match m s with
  | (Throw e, s') => if p e then h s' else (Throw e, s')
  | r => r
  end.

Declare Scope cpp_scope.
Delimit Scope cpp_scope with cpp.
Notation "x <-- m ;; k" := (bind m (fun x => k))
  (at level 100, m at next level, right associativity) : cpp_scope.
Notation "m ;;; k" := (bind m (fun _ => k))
  (at level 100, k at level 200, right associativity) : cpp_scope.
Notation "x <~ r ;; k" := (res_bind r (fun x => k))
  (at level 100, r at next level, right associativity) : cpp_scope.

#[local] Open Scope cpp_scope.

(** [for (auto &x : l) body] *)
Fixpoint for_each {S A} (l : list A) (body : A -> M S unit) : M S unit :=
  match l with
  | [] => ret tt
  | x :: l' => bind (body x) (fun _ => for_each l' body)
  end.
Fixpoint for_each_res {A B} (l : list A) (body : B -> A -> res B) (b : B) : res B :=
  match l with
  | [] => Ok b
  | x :: l' => res_bind (body b x) (fun b' => for_each_res l' body b')
  end.

(** ** Reasoning about runs *)
Lemma res_bind_Ok {A B} (m : res A) (f : A -> res B) b :
  res_bind m f = Ok b -> exists a, m = Ok a /\ f a = Ok b.
Proof. destruct m; simpl; [eauto|done..]. Qed.

Lemma bind_Ok {S A B} (m : M S A) (k : A -> M S B) s b s' :
  bind m k s = (Ok b, s') -> exists a s1, m s = (Ok a, s1) /\ k a s1 = (Ok b, s').
Proof. unfold bind. destruct (m s) as [[a| |] s1]; [eauto|done..]. Qed.

Lemma bind_run {S A B} (m : M S A) (k : A -> M S B) s a s' : m s = (Ok a, s') -> bind m k s = k a s'.
Proof. unfold bind. by intros ->. Qed.

Lemma bind_cong {S A B} (m : M S A) (k k' : A -> M S B) s :
  (forall a s', k a s' = k' a s') -> bind m k s = bind m k' s.
Proof. intros Hk. unfold bind. destruct (m s) as [[a| |] s1]; [apply Hk|done..]. Qed.

Lemma for_each_app {S A} (l l' : list A) (body : A -> M S unit) s s' :
  for_each l body s = (Ok tt, s') -> for_each (l ++ l') body s = for_each l' body s'.
Proof.
  revert s. induction l as [|x l IH]; intros s; simpl; [by intros [= <-]|].
  unfold bind. destruct (body x s) as [[u| |] s1]; [apply IH|done..].
Qed.

(** ** std::vector: an index out of range is undefined, [at] throws *)
Definition vec_get {A} (l : list A) (i : Z) : res A :=
  match l !! Z.to_nat i with Some a => if 0 <=? i then Ok a else Undefined | None => Undefined end.
Definition vec_set {A} (l : list A) (i : Z) (a : A) : res (list A) :=
  if (0 <=? i) && (i <? Z.of_nat (length l)) then Ok (<[Z.to_nat i := a]> l) else Undefined.
Definition resize {A} (n : Z) (l : list (option A)) : list (option A) :=
  take (Z.to_nat n) l ++ replicate (Z.to_nat n - length l) None.
(** Dereferencing a pointer. *)
Definition deref {A} (o : option A) : res A := match o with Some a => Ok a | None => Undefined end.
Definition deref_all {A} (l : list (option A)) : res (list A) :=
  for_each_res l (fun acc o => a <~ deref o ;; Ok (acc ++ [a])) [].


(** A method that returns leaves the object in [P] when it was in [P]. *)
Definition keeps {S A} (P : S -> Prop) (m : M S A) : Prop :=
  forall s a s', m s = (Ok a, s') -> P s -> P s'.

Lemma keeps_bind {S A B} (P : S -> Prop) (m : M S A) (k : A -> M S B) :
  keeps P m -> (forall a, keeps P (k a)) -> keeps P (bind m k).
Proof. intros Hm Hk s b s' (a & s1 & H1 & H2)%bind_Ok HP. eapply Hk; [done|]. by eapply Hm. Qed.
Lemma keeps_modify {S} (P : S -> Prop) f : (forall s, P s -> P (f s)) -> keeps P (modify f).
Proof. intros Hf s a s' [= <- <-]. auto. Qed.
Lemma keeps_ret {S A} (P : S -> Prop) (a : A) : keeps P (ret a).
Proof. by intros s b s' [= <- <-]. Qed.
Lemma keeps_throw {S A} (P : S -> Prop) e : keeps P (throw (A := A) e).
Proof. by intros s b s'. Qed.
Lemma keeps_lift_bind {S A B} (P : S -> Prop) (r : res A) (k : A -> M S B) :
  (forall a, r = Ok a -> keeps P (k a)) -> keeps P (bind (lift r) k).
Proof.
  intros Hk s b s' (a & s1 & H1 & H2)%bind_Ok HP. unfold lift in H1. injection H1 as -> ->.
  by eapply Hk.
Qed.
Lemma keeps_get_bind {S B} (P : S -> Prop) (k : S -> M S B) :
  (forall s0, P s0 -> keeps P (k s0)) -> keeps P (bind get k).
Proof. intros Hk s b s' (a & s1 & [= <- <-] & H2)%bind_Ok HP. by eapply Hk. Qed.

(** A method leaves the object in [P] whatever it returns or throws. *)
Definition always {S A} (P : S -> Prop) (m : M S A) : Prop := forall s, P s -> P (m s).2.

Lemma always_bind {S A B} (P : S -> Prop) (m : M S A) (k : A -> M S B) :
  always P m -> (forall a, always P (k a)) -> always P (bind m k).
Proof. intros Hm Hk s Hs. unfold bind. specialize (Hm s Hs). destruct (m s) as [[a|e|] s']; simpl in *; [by apply Hk|done|done]. Qed.
Lemma always_get_bind {S B} (P : S -> Prop) (k : S -> M S B) : (forall s, P s -> P (k s s).2) -> always P (bind get k).
Proof. intros Hk s Hs. by apply Hk. Qed.
Lemma always_lift_bind {S A B} (P : S -> Prop) (r : res A) (k : A -> M S B) :
  (forall a, r = Ok a -> always P (k a)) -> always P (bind (lift r) k).
Proof. intros Hk s Hs. unfold bind, lift. destruct r as [a|e|]; simpl; [by apply Hk|done|done]. Qed.
Lemma always_id {S A} (P : S -> Prop) (m : M S A) : (forall s, (m s).2 = s) -> always P m.
Proof. intros Hm s Hs. by rewrite Hm. Qed.
Lemma always_modify {S} (P : S -> Prop) f : (forall s, P s -> P (f s)) -> always P (modify f).
Proof. intros Hf s. apply Hf. Qed.
Lemma always_try_catch {S A} (P : S -> Prop) p (m h : M S A) : always P m -> always P h -> always P (try_catch p m h).
Proof.
  intros Hm Hh s Hs. unfold try_catch. specialize (Hm s Hs). destruct (m s) as [[a|e|] s']; simpl in *; [done| |done].
  destruct (p e); [by apply Hh|done].
Qed.
Lemma always_for_each {S A} (P : S -> Prop) (l : list A) (body : A -> M S unit) :
  (forall x, x ∈ l -> always P (body x)) -> always P (for_each l body).
Proof.
  induction l as [|x l IH]; intros Hb; simpl; [by apply always_id|]. apply always_bind; [apply Hb; by left|].
  intros _. apply IH. intros y Hy. apply Hb. by right.
Qed.

(** A loop over a list: [P pre b] holds after the elements [pre]. *)
Lemma for_each_res_inv {A B} (l : list A) (body : B -> A -> res B) (P : list A -> B -> Prop) b :
  P [] b ->
  (forall pre x post b, l = pre ++ x :: post -> P pre b -> exists b', body b x = Ok b' /\ P (pre ++ [x]) b') ->
  exists b', for_each_res l body b = Ok b' /\ P l b'.
Proof.
  intros H0 Hs. assert (forall pre post b, l = pre ++ post -> P pre b ->
    exists b', for_each_res post body b = Ok b' /\ P l b') as Hg; [|by apply (Hg [])].
  intros pre post. revert pre. induction post as [|x post IH]; intros pre b' El HP.
  - exists b'. rewrite app_nil_r in El. by subst.
  - destruct (Hs _ _ _ _ El HP) as (b1 & Hb & HP1). simpl. rewrite Hb. simpl.
    apply (IH (pre ++ [x])); [by rewrite <- app_assoc|done].
Qed.

(** [try { ... } catch (std::runtime_error) { ... }]: [None] when the handler runs. *)
Definition try_runtime {A} (r : res A) : res (option A) :=
  match r with
  | Ok a => Ok (Some a)
  | Throw e => if is_runtime_error e then Ok None else Throw e
  | Undefined => Undefined
  end.

(** * Machine integers *)
Definition u8 (x : Z) : Z := x mod 2 ^ 8.
Definition u16 (x : Z) : Z := x mod 2 ^ 16.
Definition u32 (x : Z) : Z := x mod 2 ^ 32.
Definition u64 (x : Z) : Z := x mod 2 ^ 64.

(** [htons]/[ntohs] on a little-endian host. *)
Definition bswap16 (x : Z) : Z :=
  Z.lor (Z.shiftl (Z.land x 255) 8) (Z.land (Z.shiftr x 8) 255).

(** * Proof automation

    [crush] closes the propositional goals with equations that list membership
    and case analyses leave. *)
Ltac crush := repeat (simpl in *; subst; first
  [ done | congruence | lia
  | match goal with
    | H : _ /\ _ |- _ => destruct H
    | H : exists _, _ |- _ => destruct H
    | H : _ \/ _ |- _ => destruct H
    | H : Some _ = Some _ |- _ => injection H as H
    | H : (_, _) = (_, _) |- _ => injection H as H
    | |- _ /\ _ => split
    | |- _ <-> _ => split
    | |- _ -> _ => intro
    | |- forall _, _ => intro
    end
  | solve [eauto 4] ]).

(** Case analysis on the scrutinee of a [match] or [if]. *)
Ltac case_match_eqn :=
  match goal with
  | |- context [match ?x with _ => _ end] =>
      lazymatch x with context [match _ with _ => _ end] => fail | _ => destruct x eqn:? end
  end.

(** * Strings *)
(** [std::to_string] of an integer. *)
Definition to_string (z : Z) : string := NilZero.string_of_int (Z.to_int z).


(** * std::map

    A [std::map] is the list of its pairs in the order of its comparison
    [ltb]; two keys are the same when neither is below the other, which need
    not be equality ([HorusRule] leaves a field out of its [operator<]). *)
Module StdMap.

Definition equivb {K} (ltb : K -> K -> bool) (a b : K) : bool := negb (ltb a b) && negb (ltb b a).

(** What a comparison promises to the map: keys are equivalent exactly when
  they agree on the part [proj] it compares. *)
Class KeyOrder {K T} (ltb : K -> K -> bool) (proj : K -> T) :=
  equivb_proj : forall a b, equivb ltb a b = true <-> proj a = proj b.

Section operations.
Context {K V : Type} (ltb : K -> K -> bool).

Fixpoint find (k : K) (m : list (K * V)) : option V :=
  match m with
  | [] => None
  | (k', v) :: m' => if equivb ltb k k' then Some v else find k m'
  end.

(** The position before the first key that is not below [k]. *)
Fixpoint place (k : K) (v : V) (m : list (K * V)) : list (K * V) :=
  match m with
  | [] => [(k, v)]
  | (k', v') :: m' => if ltb k' k then (k', v') :: place k v m' else (k, v) :: (k', v') :: m'
  end.

(** [insert] leaves the map alone when the key is there. *)
Definition insert (k : K) (v : V) (m : list (K * V)) : list (K * V) :=
  match find k m with Some _ => m | None => place k v m end.

(** Writing through the iterator [find] returned. *)
Fixpoint update (k : K) (f : V -> V) (m : list (K * V)) : list (K * V) :=
  match m with
  | [] => []
  | (k', v) :: m' => if equivb ltb k k' then (k', f v) :: m' else (k', v) :: update k f m'
  end.

(** [for (auto &x : m)] writing to [x.second]. *)
Fixpoint for_each_entry (f : K -> V -> res V) (m : list (K * V)) : res (list (K * V)) :=
  match m with
  | [] => Ok []
  | (k, v) :: m' => v' <~ f k v ;; m'' <~ for_each_entry f m' ;; Ok ((k, v') :: m'')
  end.
End operations.

Section lemmas.
Context {K V T : Type} (ltb : K -> K -> bool) (proj : K -> T) `{!KeyOrder ltb proj}.
Implicit Types (k : K) (v : V) (m : list (K * V)).

Lemma equivb_spec a b : Bool.reflect (proj a = proj b) (equivb ltb a b).
Proof using KeyOrder0. apply Bool.iff_reflect. symmetry. apply equivb_proj. Qed.

Ltac cases_equivb :=
  repeat match goal with
  | |- context [equivb ltb ?a ?b] => destruct (equivb_spec a b)
  | H : context [equivb ltb ?a ?b] |- _ => destruct (equivb_spec a b)
  end; try congruence.

Lemma find_proj k k' m : proj k = proj k' -> find ltb k m = find ltb k' m.
Proof using KeyOrder0.
  intros E. induction m as [|[j w] m IH]; simpl; [done|].
  rewrite IH. by cases_equivb.
Qed.

Lemma find_place k k' v m :
  find ltb k' m = None ->
  find ltb k (place ltb k' v m) = if equivb ltb k k' then Some v else find ltb k m.
Proof using KeyOrder0.
  induction m as [|[j w] m IH]; intros Hn; simpl in *; [done|].
  destruct (ltb j k'); simpl; cases_equivb; rewrite IH by done; by cases_equivb.
Qed.

Lemma find_insert k k' v m :
  find ltb k (insert ltb k' v m) =
  if equivb ltb k k' then Some (default v (find ltb k m)) else find ltb k m.
Proof using KeyOrder0.
  unfold insert. destruct (find ltb k' m) eqn:E.
  - destruct (equivb_spec k k'); [|done]. by rewrite (find_proj k k'), E.
  - rewrite find_place by done. destruct (equivb_spec k k'); [|done].
    by rewrite (find_proj k k'), E.
Qed.

Lemma find_update k k' f m :
  find ltb k (update ltb k' f m) =
  if equivb ltb k k' then f <$> find ltb k m else find ltb k m.
Proof using KeyOrder0.
  induction m as [|[j w] m IH]; simpl; [by destruct (equivb ltb k k')|].
  destruct (equivb ltb k' j) eqn:Ej; simpl; [by cases_equivb|].
  rewrite IH. by cases_equivb.
Qed.

Lemma find_Some_In k v m :
  find ltb k m = Some v -> exists k', proj k = proj k' /\ In (k', v) m.
Proof using KeyOrder0.
  induction m as [|[j w] m IH]; simpl; [done|].
  destruct (equivb_spec k j); [intros [= ->]; eauto|].
  intros H. destruct (IH H) as (k' & ? & ?). eauto.
Qed.

Lemma find_In_is_Some k v m : In (k, v) m -> is_Some (find ltb k m).
Proof using KeyOrder0.
  induction m as [|[j w] m IH]; simpl; [done|].
  intros [[= -> ->]|H]; cases_equivb; eauto.
Qed.
End lemmas.

(** What a loop over the entries leaves. *)
Lemma for_each_entry_ok {K V} (f : K -> V -> res V) (m : list (K * V)) :
  (forall k v, (k, v) ∈ m -> exists v', f k v = Ok v') ->
  exists m', for_each_entry f m = Ok m' /\ Forall2 (fun p q => p.1 = q.1 /\ f p.1 p.2 = Ok q.2) m m'.
Proof.
  induction m as [|[k v] m IH]; intros Hf; simpl; [by exists []|].
  destruct (Hf k v) as [v' Hv]; [by left|]. rewrite Hv. simpl.
  destruct IH as (m' & -> & Hm); [intros j w Hj; apply (Hf j); by right|].
  exists ((k, v') :: m'). split; [done|]. by constructor.
Qed.

Lemma find_Forall2 {K V} (ltb : K -> K -> bool) (R : V -> V -> Prop) (m m' : list (K * V)) k :
  Forall2 (fun p q => p.1 = q.1 /\ R p.2 q.2) m m' ->
  match find ltb k m, find ltb k m' with
  | Some v, Some v' => R v v'
  | None, None => True
  | _, _ => False
  end.
Proof.
  induction 1 as [|[j v] [j' v'] m m' [Hk Hr] _ IH]; simpl in *; [done|]. subst j'.
  by destruct (equivb ltb k j).
Qed.

Lemma find_In {K V} (ltb : K -> K -> bool) k (v : V) m : find ltb k m = Some v -> exists j, (j, v) ∈ m.
Proof.
  induction m as [|[j w] m IH]; simpl; [done|].
  destruct (equivb ltb k j); [intros [= ->]; exists j; by left|].
  intros (j' & Hj)%IH. exists j'. by right.
Qed.

Lemma update_keys {K V} (ltb : K -> K -> bool) k f (m : list (K * V)) : (update ltb k f m).*1 = m.*1.
Proof. induction m as [|[j w] m IH]; simpl; [done|]. destruct (equivb ltb k j); simpl; by f_equal. Qed.

Lemma In_place {K V} (ltb : K -> K -> bool) p k (v : V) m :
  In p (place ltb k v m) <-> p = (k, v) \/ In p m.
Proof.
  induction m as [|[j w] m IH]; simpl; [naive_solver|].
  destruct (ltb j k); simpl; [rewrite IH|]; naive_solver.
Qed.

Lemma In_insert {K V} (ltb : K -> K -> bool) p k (v : V) m :
  In p (insert ltb k v m) -> p = (k, v) \/ In p m.
Proof. unfold insert. destruct (find ltb k m); [auto|]. by rewrite In_place. Qed.
Section keys.
Context {K V T : Type} (ltb : K -> K -> bool) (proj : K -> T) `{!KeyOrder ltb proj}.
Implicit Types (k : K) (v : V) (m : list (K * V)).

(** The keys of a map, as far as the comparison sees them. *)
Definition keys m : list T := proj <$> m.*1.

Lemma elem_of_keys x m : x ∈ keys m <-> exists k v, (k, v) ∈ m /\ proj k = x.
Proof using Type.
  unfold keys. rewrite list_elem_of_fmap. split.
  - intros (k & -> & ([k' v] & -> & Hm)%list_elem_of_fmap). eauto.
  - intros (k & v & Hm & <-). exists k. split; [done|]. apply list_elem_of_fmap. by exists (k, v).
Qed.

Lemma find_None_keys k m : find ltb k m = None <-> proj k ∉ keys m.
Proof using KeyOrder0.
  induction m as [|[j w] m IH]; simpl.
  - split; [intros _; apply not_elem_of_nil|done].
  - destruct (equivb_spec ltb proj k j) as [E|E].
    + split; [done|]. intros Hn. exfalso. apply Hn. rewrite E. by left.
    + rewrite IH. unfold keys. simpl. rewrite not_elem_of_cons. tauto.
Qed.

Lemma keys_place k v m : keys (place ltb k v m) ≡ₚ proj k :: keys m.
Proof using Type.
  unfold keys. induction m as [|[j w] m IH]; simpl; [done|].
  destruct (ltb j k); simpl; [|done]. rewrite IH. by rewrite Permutation_swap.
Qed.

Lemma NoDup_keys_insert k v m : NoDup (keys m) -> NoDup (keys (insert ltb k v m)).
Proof using KeyOrder0.
  intros Hm. unfold insert. destruct (find ltb k m) eqn:E; [done|].
  rewrite keys_place. apply list.NoDup_cons. by rewrite <- find_None_keys.
Qed.

Lemma find_NoDup k v m : NoDup (keys m) -> (k, v) ∈ m -> find ltb k m = Some v.
Proof using KeyOrder0.
  induction m as [|[j w] m IH]; simpl; [intros _ []%elem_of_nil|].
  unfold keys. simpl. intros [Hj Hm]%list.NoDup_cons [[= -> ->]|Hk]%elem_of_cons.
  - by destruct (equivb_spec ltb proj j j).
  - destruct (equivb_spec ltb proj k j) as [E|E]; [|by apply IH].
    exfalso. apply Hj. rewrite <- E. apply elem_of_keys. eauto.
Qed.

Lemma keys_Forall2 (f : K -> V -> V -> Prop) m m' :
  Forall2 (fun p q => p.1 = q.1 /\ f p.1 p.2 q.2) m m' -> keys m' = keys m.
Proof using Type. unfold keys. induction 1 as [|p q m m' [E _] _ IH]; simpl; [done|]. f_equal; [by rewrite E|done]. Qed.
End keys.
End StdMap.

#[export] Instance Z_key_order : StdMap.KeyOrder Z.ltb (fun k => k).
Proof. intros a b. unfold StdMap.equivb. rewrite andb_true_iff, !negb_true_iff. lia. Qed.

(** A property of every number below a bound, decided by evaluation. *)
Lemma forallb_below (p : Z -> bool) (n : nat) :
  forallb p (seqZ 0 (Z.of_nat n)) = true -> forall i, 0 <= i < Z.of_nat n -> p i = true.
Proof. rewrite forallb_forall. intros H i Hi. apply H, list_elem_of_In, elem_of_seqZ. lia. Qed.

(** * Bits *)
Create HintDb cpp.

Lemma testbit_high a n i : 0 <= a < 2 ^ n -> n <= i -> Z.testbit a i = false.
Proof.
  intros Ha Hi. destruct (Z.eq_dec a 0) as [->|Hz]; [apply Z.testbit_0_l|].
  apply Z.bits_above_log2; [lia|]. apply Z.log2_lt_pow2; [lia|].
  apply Z.lt_le_trans with (2 ^ n); [lia|]. apply Z.pow_le_mono_r; lia.
Qed.

Lemma lor_shiftl_add a b n : 0 <= n -> 0 <= a < 2 ^ n -> Z.lor a (Z.shiftl b n) = a + b * 2 ^ n.
Proof.
  intros Hn Ha. rewrite <- Z.shiftl_mul_pow2 by done.
  assert (Z.land a (Z.shiftl b n) = 0) as Hl.
  { apply Z.bits_inj'. intros i Hi. rewrite Z.land_spec, Z.testbit_0_l.
    destruct (Z.ltb_spec i n).
    - rewrite Z.shiftl_spec_low by lia. apply andb_false_r.
    - by rewrite (testbit_high a n) by lia. }
  rewrite <- Z.lxor_lor by done. symmetry. by apply Z.add_nocarry_lxor.
Qed.

Lemma land_ones_mod a n : 0 <= n -> Z.land a (2 ^ n - 1) = a mod 2 ^ n.
Proof. intros Hn. rewrite <- Z.land_ones by done. f_equal. rewrite Z.ones_equiv. lia. Qed.

Lemma u8_bounds x : 0 <= u8 x < 256.
Proof. apply Z.mod_pos_bound. lia. Qed.

(** * Strings: searching *)
#[global] Arguments String.append !_ _ : simpl nomatch.

Lemma string_app_nil_r (s : string) : (s +:+ "")%string = s.
Proof. induction s as [|c s IH]; [done|]. simpl. by rewrite IH. Qed.
Lemma string_app_assoc (a b c : string) : ((a +:+ b) +:+ c = a +:+ (b +:+ c))%string.
Proof. induction a as [|x a IH]; [done|]. simpl. by rewrite IH. Qed.

(** [s.find(pat)] *)
Definition str_find (pat s : string) : option nat := String.index 0 pat s.
(** [s.substr(pos)] *)
Definition substr_from (pos : nat) (s : string) : string := String.substring pos (String.length s - pos) s.
(** [s.erase(pos, n)] *)
Definition str_erase (pos n : nat) (s : string) : string :=
  (String.substring 0 pos s +:+ substr_from (pos + n) s)%string.

Fixpoint str_forallb (p : Ascii.ascii -> bool) (s : string) : bool :=
  match s with String.EmptyString => true | String.String c s' => p c && str_forallb p s' end.

Lemma str_forallb_app p a b : str_forallb p (a +:+ b)%string = str_forallb p a && str_forallb p b.
Proof. induction a as [|c a IH]; simpl; [done|]. by rewrite IH, andb_assoc. Qed.

Lemma length_string_app (a b : string) : String.length (a +:+ b)%string = (String.length a + String.length b)%nat.
Proof. induction a as [|c a IH]; simpl; [done|]. by rewrite IH. Qed.

Lemma substring_0_app (a b : string) : String.substring 0 (String.length a) (a +:+ b)%string = a.
Proof. induction a as [|c a IH]; simpl; [by destruct b|]. by rewrite IH. Qed.

Lemma substring_all (a : string) : String.substring 0 (String.length a) a = a.
Proof. rewrite <- (string_app_nil_r a) at 2. apply substring_0_app. Qed.

Lemma substr_from_app (a b : string) : substr_from (String.length a) (a +:+ b)%string = b.
Proof.
  unfold substr_from. rewrite length_string_app, Nat.add_comm, Nat.add_sub.
  induction a as [|c a IH]; simpl; [apply substring_all|done].
Qed.

Lemma str_find_char_app c (a b : string) :
  str_forallb (fun c' => negb (Ascii.eqb c' c)) a = true ->
  str_find (String.String c "") (a +:+ String.String c b)%string = Some (String.length a).
Proof.
  unfold str_find. induction a as [|c' a IH]; simpl.
  - intros _. destruct (Ascii.ascii_dec c c); [|done]. by destruct b.
  - intros [Hc Ha]%andb_true_iff. rewrite negb_true_iff, Ascii.eqb_neq in Hc.
    destruct (Ascii.ascii_dec c c'); [congruence|]. by rewrite IH.
Qed.

Lemma str_find_char_None c (a : string) :
  str_forallb (fun c' => negb (Ascii.eqb c' c)) a = true -> str_find (String.String c "") a = None.
Proof.
  unfold str_find. induction a as [|c' a IH]; simpl; [done|].
  intros [Hc Ha]%andb_true_iff. rewrite negb_true_iff, Ascii.eqb_neq in Hc.
  destruct (Ascii.ascii_dec c c'); [congruence|]. by rewrite IH.
Qed.
