(* ===== verification/Vec.v ===== *)
(** Vectors of pointers: what their accesses return within bounds, and the loops
    that move all elements one place on or back, with their numbers renewed; and
    std::set of integers as a strictly increasing list, whose head is [*begin()]. *)
From Stdlib Require Import ZArith Lia.
From stdpp Require Import base list numbers.
From S2P Require Import Prelude.
#[local] Open Scope Z_scope.
#[local] Open Scope cpp_scope.

Lemma length_resize {A} n (l : list (option A)) : length (resize n l) = Z.to_nat n.
Proof. unfold resize. rewrite length_app, length_take, length_replicate. lia. Qed.

Lemma vec_set_ok {A} (l : list A) i a : (i < length l)%nat -> vec_set l (Z.of_nat i) a = Ok (<[i := a]> l).
Proof.
  intros Hi. unfold vec_set. rewrite Nat2Z.id.
  rewrite (proj2 (Z.leb_le _ _)), (proj2 (Z.ltb_lt _ _)) by lia. done.
Qed.
Lemma vec_get_ok {A} (l : list A) i a : l !! i = Some a -> vec_get l (Z.of_nat i) = Ok a.
Proof. intros Hi. unfold vec_get. rewrite Nat2Z.id, Hi. by rewrite (proj2 (Z.leb_le _ _)) by lia. Qed.

Lemma deref_all_fmap {A} (l : list A) : deref_all (Some <$> l) = Ok l.
Proof.
  unfold deref_all. assert (forall acc, for_each_res (Some <$> l) (fun acc o => a <~ deref o ;; Ok (acc ++ [a])) acc
    = Ok (acc ++ l)) as Hg; [|apply Hg].
  induction l as [|a l IH]; intros acc; simpl; [by rewrite app_nil_r|]. rewrite IH. by rewrite <- app_assoc.
Qed.

(** * Shifting a vector of pointers *)
Section shift.
Context {A : Type} (f : Z -> A -> A).

(** [v[i] = v[i + 1]; v[i]->id = i;] for [i] from [id] on. *)
Definition pull (l : list (option A)) (i : Z) : res (list (option A)) :=
  o <~ vec_get l (i + 1) ;; a <~ deref o ;; vec_set l i (Some (f i a)).
(** [v[i + 1] = v[i]; if (v[i + 1]) v[i + 1]->id = i + 1;] for [i] down to [id]. *)
Definition push (l : list (option A)) (i : Z) : res (list (option A)) :=
  o <~ vec_get l i ;; vec_set l (i + 1) (f (i + 1) <$> o).

Definition deleted (i : nat) (l : list A) : list A :=
  take i l ++ imap (fun k => f (Z.of_nat (i + k))) (drop (S i) l).
Definition inserted (i : nat) (a : A) (l : list A) : list A :=
  take i l ++ a :: imap (fun k => f (Z.of_nat (S i + k))) (drop i l).

Lemma lookup_deleted i l j :
  (i < length l)%nat ->
  deleted i l !! j = if decide (j < i)%nat then l !! j else f (Z.of_nat j) <$> l !! S j.
Proof.
  intros Hi. unfold deleted. destruct (decide (j < i)%nat).
  - rewrite lookup_app_l by (rewrite length_take; lia). by apply lookup_take_lt.
  - rewrite lookup_app_r by (rewrite length_take; lia). rewrite length_take, Nat.min_l by lia.
    rewrite list_lookup_imap, lookup_drop. replace (S i + (j - i))%nat with (S j) by lia.
    by replace (i + (j - i))%nat with j by lia.
Qed.
Lemma lookup_inserted i a l j :
  (i <= length l)%nat ->
  inserted i a l !! j =
  if decide (j < i)%nat then l !! j else if decide (j = i) then Some a else f (Z.of_nat j) <$> l !! pred j.
Proof.
  intros Hi. unfold inserted. destruct (decide (j < i)%nat).
  - rewrite lookup_app_l by (rewrite length_take; lia). by apply lookup_take_lt.
  - rewrite lookup_app_r by (rewrite length_take; lia). rewrite length_take, Nat.min_l by lia.
    destruct (decide (j = i)) as [->|]; [by rewrite Nat.sub_diag|].
    change (a :: ?t) with ([a] ++ t). rewrite lookup_app_r by (simpl; lia). cbn [length].
    rewrite list_lookup_imap, lookup_drop. replace (i + (j - i - 1))%nat with (pred j) by lia.
    by replace (S i + (j - i - 1))%nat with j by lia.
Qed.
Lemma length_deleted i l : (i < length l)%nat -> length (deleted i l) = pred (length l).
Proof. intros Hi. unfold deleted. rewrite length_app, length_imap, length_take, length_drop. lia. Qed.
Lemma length_inserted i a l : (i <= length l)%nat -> length (inserted i a l) = S (length l).
Proof. intros Hi. unfold inserted. rewrite length_app. cbn. rewrite length_imap, length_take, length_drop. lia. Qed.

Lemma pull_all i l :
  (i < length l)%nat ->
  exists l', for_each_res (seqZ (Z.of_nat i) (Z.of_nat (length l) - 1 - Z.of_nat i)) pull (Some <$> l) = Ok l' /\
    resize (Z.of_nat (length l) - 1) l' = Some <$> deleted i l.
Proof.
  intros Hi.
  destruct (for_each_res_inv (seqZ (Z.of_nat i) (Z.of_nat (length l) - 1 - Z.of_nat i)) pull
    (fun pre l' => length l' = length l /\ forall j, l' !! j =
       if decide (i <= j < i + length pre)%nat then (fun a => Some (f (Z.of_nat j) a)) <$> l !! S j else Some <$> l !! j)
    (Some <$> l)) as (l' & Hl' & Hlen & Hlk).
  - split; [by rewrite length_fmap|]. intros j. rewrite decide_False by (simpl; lia). apply list_lookup_fmap.
  - intros pre x post l1 E [Hlen Hlk].
    assert (x = Z.of_nat (i + length pre) /\ (i + length pre < length l - 1)%nat) as [-> Hb].
    { assert (seqZ (Z.of_nat i) (Z.of_nat (length l) - 1 - Z.of_nat i) !! length pre = Some x) as Hx
        by (rewrite E; by apply list_lookup_middle).
      apply lookup_seqZ in Hx. lia. }
    set (k := (i + length pre)%nat) in *. unfold pull. replace (Z.of_nat k + 1) with (Z.of_nat (S k)) by lia.
    destruct (lookup_lt_is_Some_2 l (S k)) as [a Ha]; [lia|].
    rewrite (vec_get_ok l1 (S k) (Some a)).
    2:{ rewrite Hlk, decide_False by lia. by rewrite Ha. }
    cbn [res_bind deref]. rewrite vec_set_ok by lia. eexists. split; [done|].
    split; [by rewrite length_insert|]. intros j. rewrite length_app. cbn [length].
    destruct (decide (j = k)) as [->|Hn].
    + rewrite list_lookup_insert_eq by lia. rewrite decide_True by lia. by rewrite Ha.
    + rewrite list_lookup_insert_ne by done. rewrite Hlk. by repeat case_decide; try lia.
  - exists l'. split; [done|]. apply list_eq. intros j. unfold resize.
    rewrite Hlen. replace (Z.to_nat (Z.of_nat (length l) - 1)) with (pred (length l)) by lia.
    replace (pred (length l) - length l)%nat with 0%nat by lia. cbn [replicate]. rewrite app_nil_r.
    rewrite list_lookup_fmap, lookup_deleted by done. rewrite length_seqZ in Hlk.
    destruct (decide (j < pred (length l))%nat) as [Hj|Hj].
    + rewrite lookup_take_lt by done. rewrite Hlk. repeat case_decide; try lia; by destruct (l !! j), (l !! S j).
    + rewrite lookup_take_ge by lia. rewrite decide_False by lia. rewrite (lookup_ge_None_2 l (S j)) by lia. done.
Qed.

Lemma push_all i l a :
  (i <= length l)%nat ->
  (l' <~ for_each_res (reverse (seqZ (Z.of_nat i) (Z.of_nat (length l) - Z.of_nat i))) push (resize (Z.of_nat (length l) + 1) (Some <$> l)) ;;
   vec_set l' (Z.of_nat i) (Some a)) = Ok (Some <$> inserted i a l).
Proof.
  intros Hi.
  assert (resize (Z.of_nat (length l) + 1) (Some <$> l) = (Some <$> l) ++ [None]) as ->.
  { unfold resize. rewrite length_fmap. replace (Z.to_nat (Z.of_nat (length l) + 1)) with (S (length l)) by lia.
    rewrite take_ge by (rewrite length_fmap; lia). by replace (S (length l) - length l)%nat with 1%nat by lia. }
  destruct (for_each_res_inv (reverse (seqZ (Z.of_nat i) (Z.of_nat (length l) - Z.of_nat i))) push
    (fun pre l' => length l' = S (length l) /\ forall j, (j <= length l)%nat -> l' !! j =
       if decide (length l - length pre < j)%nat then (fun a => Some (f (Z.of_nat j) a)) <$> l !! pred j
       else ((Some <$> l) ++ [None]) !! j)
    ((Some <$> l) ++ [None])) as (l' & Hl' & Hlen & Hlk).
  - split; [rewrite length_app, length_fmap; cbn; lia|]. intros j Hj. by rewrite decide_False by (simpl; lia).
  - intros pre x post l1 E [Hlen Hlk].
    assert (x = Z.of_nat (length l - 1 - length pre) /\ (i + length pre < length l)%nat) as [-> Hb].
    { assert (reverse (seqZ (Z.of_nat i) (Z.of_nat (length l) - Z.of_nat i)) !! length pre = Some x) as Hx
        by (rewrite E; by apply list_lookup_middle).
      apply lookup_lt_Some in Hx as Hxl. rewrite length_reverse, length_seqZ in Hxl.
      rewrite reverse_lookup in Hx by (rewrite length_seqZ; lia). rewrite length_seqZ in Hx.
      apply lookup_seqZ in Hx. lia. }
    set (k := (length l - 1 - length pre)%nat) in *. unfold push. replace (Z.of_nat k + 1) with (Z.of_nat (S k)) by lia.
    destruct (lookup_lt_is_Some_2 l k) as [b Hbk]; [lia|].
    rewrite (vec_get_ok l1 k (Some b)).
    2:{ rewrite Hlk by lia. rewrite decide_False by lia. rewrite lookup_app_l by (rewrite length_fmap; lia).
        by rewrite list_lookup_fmap, Hbk. }
    cbn [res_bind]. rewrite vec_set_ok by lia. eexists. split; [done|].
    split; [by rewrite length_insert|]. intros j Hj. rewrite length_app. cbn [length].
    destruct (decide (j = S k)) as [->|Hn].
    + rewrite list_lookup_insert_eq by lia. rewrite decide_True by lia. cbn [pred]. by rewrite Hbk.
    + rewrite list_lookup_insert_ne by done. rewrite Hlk by lia. by repeat case_decide; try lia.
  - rewrite Hl'. cbn [res_bind]. rewrite vec_set_ok by lia. f_equal. apply list_eq. intros j.
    rewrite list_lookup_fmap, lookup_inserted by done. rewrite length_reverse, length_seqZ in Hlk.
    destruct (decide (j = i)) as [->|Hn].
    + rewrite list_lookup_insert_eq by lia. rewrite decide_False by lia. by rewrite ?decide_True by done.
    + rewrite list_lookup_insert_ne by done. destruct (decide (j <= length l)%nat) as [Hj|Hj].
      * rewrite Hlk by done. destruct (decide (j < i)%nat).
        -- rewrite decide_False by lia. rewrite lookup_app_l by (rewrite length_fmap; lia). by rewrite list_lookup_fmap.
        -- rewrite decide_True by lia. by destruct (l !! pred j).
      * rewrite (lookup_ge_None_2 l') by lia. rewrite decide_False by lia. by rewrite (lookup_ge_None_2 l (pred j)) by lia.
Qed.
End shift.

Fixpoint set_insert (x : Z) (l : list Z) : list Z :=
  match l with
  | [] => [x]
  | y :: l' => if x <? y then x :: l else if x =? y then l else y :: set_insert x l'
  end.
Definition set_erase (x : Z) (l : list Z) : list Z := filter (fun y => y <> x) l.
(** [for (i = from; i < from + n; i++) insert(i)] *)
Definition set_range (from : Z) (n : nat) : list Z := (fun i => from + Z.of_nat i) <$> seq 0 n.

Fixpoint increasing (l : list Z) : Prop :=
  match l with
  | [] => True
  | x :: l => Forall (fun y => x < y) l /\ increasing l
  end.

Lemma elem_of_insert x y l : y ∈ set_insert x l <-> y = x \/ y ∈ l.
Proof.
  induction l as [|z l IH]; simpl; [by rewrite elem_of_cons, elem_of_nil|]. destruct (Z.ltb_spec x z); [by rewrite elem_of_cons|].
  destruct (Z.eqb_spec x z) as [->|]; [rewrite elem_of_cons; tauto|]. rewrite !elem_of_cons, IH. tauto.
Qed.
Lemma elem_of_erase x y l : y ∈ set_erase x l <-> y <> x /\ y ∈ l.
Proof. unfold set_erase. by rewrite list_elem_of_filter. Qed.
Lemma increasing_insert x l : increasing l -> increasing (set_insert x l).
Proof.
  induction l as [|y l IH]; simpl; [done|]. intros [Hy Hl]. destruct (Z.ltb_spec x y).
  - split; [|done]. constructor; [done|]. eapply list.Forall_impl; [exact Hy|]. simpl. lia.
  - destruct (Z.eqb_spec x y) as [->|]; [done|]. split; [|by apply IH]. apply list.Forall_forall. intros z [->|Hz]%elem_of_insert; [lia|].
    by apply (proj1 (list.Forall_forall _ _) Hy).
Qed.
Lemma increasing_erase x l : increasing l -> increasing (set_erase x l).
Proof.
  unfold set_erase. induction l as [|y l IH]; [done|]. intros [Hy Hl]. rewrite filter_cons. case_decide; [|by apply IH].
  split; [|by apply IH]. apply list.Forall_forall. intros z [_ Hz]%list_elem_of_filter. by apply (proj1 (list.Forall_forall _ _) Hy).
Qed.
Lemma increasing_NoDup l : increasing l -> NoDup l.
Proof.
  induction l as [|x l IH]; [intros _; constructor|]. intros [Hx Hl]. apply list.NoDup_cons. split; [|by apply IH].
  intros Hin. apply (proj1 (list.Forall_forall _ _) Hx) in Hin. lia.
Qed.
(** [*begin()] is the least element. *)
Lemma increasing_head x l y : increasing (x :: l) -> y ∈ x :: l -> x <= y.
Proof. intros [Hx _] [->|Hy]%elem_of_cons; [lia|]. apply (proj1 (list.Forall_forall _ _) Hx) in Hy. lia. Qed.
Lemma erase_head x l : increasing (x :: l) -> set_erase x (x :: l) = l.
Proof.
  intros [Hx Hl]. unfold set_erase. rewrite filter_cons_False by tauto. clear Hl. induction Hx as [|y l Hy _ IH]; [done|].
  rewrite filter_cons_True by lia. by rewrite IH.
Qed.
Lemma elem_of_range from n x : x ∈ set_range from n <-> from <= x < from + Z.of_nat n.
Proof.
  unfold set_range. rewrite list_elem_of_fmap. split.
  - intros (i & -> & Hi%elem_of_seq). lia.
  - intros Hx. exists (Z.to_nat (x - from)). split; [lia|]. apply elem_of_seq. lia.
Qed.
Lemma increasing_range from n : increasing (set_range from n).
Proof.
  unfold set_range. generalize 0%nat. induction n as [|n IH]; intros k; simpl; [done|]. split; [|apply IH].
  apply list.Forall_forall. intros y (i & -> & Hi%elem_of_seq)%list_elem_of_fmap. lia.
Qed.
Lemma length_insert_new x l : x ∉ l -> length (set_insert x l) = S (length l).
Proof.
  induction l as [|y l IH]; simpl; [done|]. rewrite not_elem_of_cons. intros [Hy Hl]. destruct (_ <? _); [done|].
  destruct (Z.eqb_spec x y); [done|]. simpl. by rewrite IH.
Qed.
