(* ===== verification/Bpf.v ===== *)
(** Interfaces of the kernel's eBPF tables (hash, array, LPM trie), which the
    services only call: each is a class with the laws that the kernel documents,
    and a concrete instance against which the witnesses evaluate. *)
From Stdlib Require Import ZArith Lia.
From stdpp Require Import base gmap sets list strings numbers.
From S2P Require Import Prelude.
#[local] Open Scope Z_scope.

(** libs/polycube/src/table.cpp: a failed system call is thrown with the text of
    its [errno]. *)
Definition table_error (op errno : string) : exn := RuntimeError ("Table " +:+ op +:+ " error: " +:+ errno).
Definition E2BIG : string := "Argument list too long".
Definition ENOSPC : string := "No space left on device".
Definition ENOENT : string := "No such file or directory".

(** * BPF_MAP_TYPE_HASH

    [h_free] counts the entries that can still be allocated: an update of a new
    key in a full table fails. *)
Class BpfHash (K V T : Type) `{EqDecision K} := {
  h_new : Z -> T;
  h_lookup : T -> K -> option V;
  h_update : T -> K -> V -> option T;
  h_free : T -> Z;
  h_lookup_new n k : h_lookup (h_new n) k = None;
  h_free_new n : h_free (h_new n) = n;
  h_update_ok t k v :
    0 < h_free t \/ is_Some (h_lookup t k) ->
    exists t', h_update t k v = Some t' /\ h_free t - 1 <= h_free t' /\
      forall k', h_lookup t' k' = if decide (k = k') then Some v else h_lookup t k';
}.

(** [for (auto ele : m) table.set(ele.first, ele.second)]; [set] throws when the
    kernel refuses the update. *)
Fixpoint h_updates {K V T} `{BpfHash K V T} (t : T) (m : list (K * V)) : res T :=
  match m with
  | [] => Ok t
  | (k, v) :: m' =>
      match h_update t k v with
      | Some t' => h_updates t' m'
      | None => Throw (table_error "set" E2BIG)
      end
  end.

Section hash_lemmas.
Context {K V T : Type} `{BpfHash K V T}.

Lemma h_updates_ok (m : list (K * V)) t :
  NoDup m.*1 -> Z.of_nat (length m) <= h_free t ->
  exists t', h_updates t m = Ok t' /\
    (forall k v, (k, v) ∈ m -> h_lookup t' k = Some v) /\
    (forall k, k ∉ m.*1 -> h_lookup t' k = h_lookup t k).
Proof.
  revert t. induction m as [|[k v] m IH]; intros t Hd Hl; simpl in *.
  { exists t. split; [done|]. split; [|done]. intros k v Hin. by apply elem_of_nil in Hin. }
  apply list.NoDup_cons in Hd as [Hk Hd].
  destruct (h_update_ok t k v) as (t' & -> & Hf & Hlk); [left; lia|].
  destruct (IH t' Hd) as (t'' & -> & Hin & Hout); [lia|].
  exists t''. split; [done|]. split.
  - intros k' v' [[= -> ->]|?]%elem_of_cons; [|auto].
    rewrite (Hout _ Hk), Hlk. by rewrite decide_True.
  - intros k' [Hne Hk']%not_elem_of_cons. rewrite (Hout _ Hk'), Hlk.
    by rewrite decide_False.
Qed.
End hash_lemmas.

(** Updates of a table that is large enough succeed, whatever the keys. *)
Lemma h_updates_total {K V T} `{BpfHash K V T} (m : list (K * V)) t :
  Z.of_nat (length m) <= h_free t -> exists t', h_updates t m = Ok t'.
Proof.
  revert t. induction m as [|[k v] m IH]; intros t Hl; simpl in *; [eauto|].
  destruct (h_update_ok t k v) as (t' & -> & Hf & _); [left; lia|]. apply IH. lia.
Qed.

#[export] Program Instance gmap_hash {K V} `{Countable K} : BpfHash K V (Z * gmap K V) := {|
    h_new n := (n, ∅);
    h_lookup t k := t.2 !! k;
    h_update t k v :=
      if decide (is_Some (t.2 !! k) \/ Z.of_nat (size t.2) < t.1)
      then Some (t.1, <[k := v]> t.2) else None;
    h_free t := t.1 - Z.of_nat (size t.2);
  |}.
Next Obligation. intros. apply lookup_empty. Qed.
Next Obligation. intros. simpl. rewrite map_size_empty. lia. Qed.
Next Obligation.
  intros K V ?? [n t] k v Hc; simpl in *.
  destruct (decide _) as [Hd|Hd]; [|destruct Hc; [lia|tauto]].
  eexists. split; [done|]. simpl. split.
  - rewrite map_size_insert. destruct (t !! k); simpl; lia.
  - intros k'. apply lookup_insert.
Qed.

(** * BPF_MAP_TYPE_LPM_TRIE over IPv4

    Keys hold the address as it is in memory, in network byte order; [be32] is
    the number a big-endian reader sees, so a prefix is its leading bits. *)
Definition be32 (x : Z) : Z :=
  (x mod 256) * 2 ^ 24 + ((x / 2 ^ 8) mod 256) * 2 ^ 16
  + ((x / 2 ^ 16) mod 256) * 2 ^ 8 + (x / 2 ^ 24) mod 256.

Definition prefix_match (len ip p : Z) : bool :=
  be32 ip / 2 ^ (32 - len) =? be32 p / 2 ^ (32 - len).

Record lpm_entry (V : Type) := LpmEntry { le_len : Z; le_ip : Z; le_val : V }.
Arguments LpmEntry {V} _ _ _.
Arguments le_len {V} _.
Arguments le_ip {V} _.
Arguments le_val {V} _.

Class LpmTrie (V T : Type) := {
  l_new : Z -> T;
  l_entries : T -> list (lpm_entry V);
  l_free : T -> Z;
  l_lookup : T -> Z -> option V;
  l_update : T -> Z -> Z -> V -> option T;
  l_entries_new n : l_entries (l_new n) = [];
  l_free_new n : l_free (l_new n) = n;
  l_update_ok t len ip v :
    0 < l_free t ->
    exists t', l_update t len ip v = Some t' /\ l_free t - 1 <= l_free t' /\
      forall e, e ∈ l_entries t' <->
        e = LpmEntry len ip v \/
        (e ∈ l_entries t /\ ~ (le_len e = len /\ prefix_match len (le_ip e) ip = true));
  l_lookup_None t p :
    l_lookup t p = None -> forall e, e ∈ l_entries t -> prefix_match (le_len e) (le_ip e) p = false;
  l_lookup_Some t p v :
    l_lookup t p = Some v ->
    exists e, e ∈ l_entries t /\ le_val e = v /\ prefix_match (le_len e) (le_ip e) p = true /\
      forall e', e' ∈ l_entries t -> prefix_match (le_len e') (le_ip e') p = true -> le_len e' <= le_len e;
}.

(** [for (auto ele : m) table.set(&key, value)] *)
Fixpoint l_updates {V T} `{LpmTrie V T} (t : T) (m : list (lpm_entry V)) : res T :=
  match m with
  | [] => Ok t
  | e :: m' =>
      match l_update t (le_len e) (le_ip e) (le_val e) with
      | Some t' => l_updates t' m'
      | None => Throw (table_error "set" ENOSPC)
      end
  end.

Lemma prefix_match_trans len a b c :
  prefix_match len a b = true -> prefix_match len b c = true -> prefix_match len a c = true.
Proof. unfold prefix_match. lia. Qed.
Lemma prefix_match_sym len a b : prefix_match len a b = prefix_match len b a.
Proof. unfold prefix_match. apply Z.eqb_sym. Qed.
Lemma prefix_match_refl len a : prefix_match len a a = true.
Proof. unfold prefix_match. apply Z.eqb_refl. Qed.

Lemma prefix_match_shorter n len a b :
  0 <= n <= len -> len <= 32 -> prefix_match len a b = true -> prefix_match n a b = true.
Proof.
  unfold prefix_match. rewrite !Z.eqb_eq. intros Hn Hl E.
  assert (forall x, x / 2 ^ (32 - n) = (x / 2 ^ (32 - len)) / 2 ^ (len - n)) as Hd.
  { intros x. rewrite Z.div_div by (try apply Z.pow_nonzero; try apply Z.pow_pos_nonneg; lia).
    rewrite <- Z.pow_add_r by lia. do 2 f_equal. lia. }
  by rewrite !Hd, E.
Qed.

(** The entries after a sequence of updates: each comes from the sequence, and
    each prefix of the sequence is there, possibly with the value of a later
    element that has the same prefix. *)
Lemma l_updates_ok {V T} `{LpmTrie V T} (m : list (lpm_entry V)) t :
  Z.of_nat (length m) <= l_free t ->
  exists t', l_updates t m = Ok t' /\
    (forall e, e ∈ l_entries t' -> e ∈ m \/ e ∈ l_entries t) /\
    (forall e, e ∈ m \/ e ∈ l_entries t ->
       exists e', e' ∈ l_entries t' /\ le_len e' = le_len e /\ prefix_match (le_len e) (le_ip e') (le_ip e) = true).
Proof.
  revert t. induction m as [|x m IH]; intros t Hl; simpl in *.
  { exists t. split; [done|]. split; [auto|]. intros e [He|He]; [by apply elem_of_nil in He|].
    exists e. split; [done|]. split; [done|apply prefix_match_refl]. }
  destruct (l_update_ok t (le_len x) (le_ip x) (le_val x)) as (t' & -> & Hf & He); [lia|].
  destruct (IH t') as (t'' & -> & Hin & Hex); [lia|].
  exists t''. split; [done|]. split.
  - intros e Hx. destruct (Hin e Hx) as [|H']; [set_solver|]. apply He in H' as [->|[? _]]; [|auto].
    left. destruct x. by left.
  - assert (exists e', e' ∈ l_entries t'' /\ le_len e' = le_len x /\
              prefix_match (le_len x) (le_ip e') (le_ip x) = true) as Hx.
    { apply (Hex (LpmEntry (le_len x) (le_ip x) (le_val x))). right. apply He. by left. }
    intros e [[->|]%elem_of_cons|Ht]; [done|auto|].
    destruct (decide (le_len e = le_len x /\ prefix_match (le_len x) (le_ip e) (le_ip x) = true)) as [[El Ep]|Hn].
    + destruct Hx as (e' & ? & ? & Hp). exists e'. split; [done|]. split; [congruence|].
      rewrite El. eapply prefix_match_trans; [done|]. by rewrite prefix_match_sym.
    + apply Hex. right. apply He. by right.
Qed.

(** The reference trie: the list of entries, searched for a longest match. *)
Definition same_prefix {V} (len ip : Z) (e : lpm_entry V) : bool :=
  (le_len e =? len) && prefix_match len (le_ip e) ip.
Definition list_lpm (V : Type) : Type := Z * list (lpm_entry V).
Fixpoint longest {V} (p : Z) (l : list (lpm_entry V)) : option (lpm_entry V) :=
  match l with
  | [] => None
  | e :: l' =>
      if prefix_match (le_len e) (le_ip e) p then
        match longest p l' with
        | Some e' => if le_len e <=? le_len e' then Some e' else Some e
        | None => Some e
        end
      else longest p l'
  end.

Lemma longest_spec {V} p (l : list (lpm_entry V)) :
  match longest p l with
  | None => forall e, e ∈ l -> prefix_match (le_len e) (le_ip e) p = false
  | Some e => e ∈ l /\ prefix_match (le_len e) (le_ip e) p = true /\
      forall e', e' ∈ l -> prefix_match (le_len e') (le_ip e') p = true -> le_len e' <= le_len e
  end.
Proof.
  induction l as [|e l IH]; simpl; [set_solver|].
  destruct (prefix_match _ _ _) eqn:E.
  - destruct (longest p l) as [e'|]; [destruct IH as (Hin & Hm & Hmax); destruct (Z.leb_spec (le_len e) (le_len e'))|].
    + split; [set_solver|]. split; [done|]. intros x [->|]%elem_of_cons; [done|auto].
    + split; [set_solver|]. split; [done|]. intros x [->|Hx]%elem_of_cons Hxm; [lia|].
      specialize (Hmax _ Hx Hxm). lia.
    + split; [set_solver|]. split; [done|]. intros x [->|Hx]%elem_of_cons Hxm; [lia|].
      rewrite IH in Hxm by done. done.
  - destruct (longest p l) as [e'|].
    + destruct IH as (? & ? & Hmax). split; [set_solver|]. split; [done|].
      intros x [->|]%elem_of_cons Hxm; [congruence|eauto].
    + intros x [->|]%elem_of_cons; [done|eauto].
Qed.

#[export] Program Instance list_lpm_trie {V} : LpmTrie V (list_lpm V) := {|
    l_new n := (n, []);
    l_entries t := t.2;
    l_free t := t.1 - Z.of_nat (length t.2);
    l_lookup t p := le_val <$> longest p t.2;
    l_update t len ip v :=
      let kept := filter (fun e => same_prefix len ip e = false) t.2 in
      if Z.of_nat (length kept) <? t.1 then Some (t.1, LpmEntry len ip v :: kept) else None;
  |}.
Next Obligation. done. Qed.
Next Obligation. intros. simpl. lia. Qed.
Next Obligation.
  intros V [n l] len ip v Hf; simpl in *.
  assert (length (filter (fun e => same_prefix len ip e = false) l) <= length l)%nat as Hlen
    by apply length_filter.
  destruct (Z.ltb_spec (Z.of_nat (length (filter (fun e => same_prefix len ip e = false) l))) n); [|lia].
  eexists. split; [done|]. simpl. split; [lia|].
  intros e. rewrite elem_of_cons, list_elem_of_filter. unfold same_prefix.
  destruct (Z.eqb_spec (le_len e) len), (prefix_match len (le_ip e) ip); naive_solver.
Qed.
Next Obligation.
  intros V [n l] p; simpl. pose proof (longest_spec p l) as H.
  destruct (longest p l); [done|auto].
Qed.
Next Obligation.
  intros V [n l] p v; simpl. pose proof (longest_spec p l) as H.
  destruct (longest p l) as [e|]; [|done]. intros [= <-]. exists e. naive_solver.
Qed.

(** * BPF_MAP_TYPE_ARRAY: all [n] entries exist from the start. *)
Class BpfArray (V T : Type) := {
  a_new : Z -> V -> T;
  a_size : T -> Z;
  a_lookup : T -> Z -> option V;
  a_update : T -> Z -> V -> option T;
  a_size_new n v : a_size (a_new n v) = n;
  a_lookup_new n v i : 0 <= i < n -> a_lookup (a_new n v) i = Some v;
  a_lookup_in t i : 0 <= i < a_size t -> is_Some (a_lookup t i);
  a_lookup_out t i : ~ (0 <= i < a_size t) -> a_lookup t i = None;
  a_update_ok t i v :
    0 <= i < a_size t ->
    exists t', a_update t i v = Some t' /\ a_size t' = a_size t /\
      forall j, a_lookup t' j = if decide (i = j) then Some v else a_lookup t j;
}.

Record sparse_array (V : Type) := SparseArray { sa_size : Z; sa_init : V; sa_set : gmap Z V }.
Arguments SparseArray {V} _ _ _.
Arguments sa_size {V} _.
Arguments sa_init {V} _.
Arguments sa_set {V} _.

#[export] Program Instance sparse_bpf_array {V} : BpfArray V (sparse_array V) := {|
    a_new n v := SparseArray n v ∅;
    a_size := sa_size;
    a_lookup t i := if decide (0 <= i < sa_size t) then Some (default (sa_init t) (sa_set t !! i)) else None;
    a_update t i v :=
      if decide (0 <= i < sa_size t) then Some (SparseArray (sa_size t) (sa_init t) (<[i := v]> (sa_set t)))
      else None;
  |}.
Next Obligation. done. Qed.
Next Obligation. intros V n v i Hi. cbv beta. cbn [sa_size sa_init sa_set]. case_decide; [by rewrite lookup_empty|done]. Qed.
Next Obligation. intros V t i Hi. cbv beta. case_decide; [by eexists|done]. Qed.
Next Obligation. intros V t i Hi. cbv beta in *. by case_decide. Qed.
Next Obligation.
  intros V t i v Hi. cbv beta in *. case_decide; [|done]. eexists. split; [done|]. split; [done|].
  intros j. cbv beta. cbn [sa_size sa_init sa_set]. destruct (decide (i = j)) as [->|Hn].
  - case_decide; [by rewrite lookup_insert_eq|done].
  - by rewrite lookup_insert_ne.
Qed.

(** [table.set(i, v)] for [(i, v)] in order. *)
Fixpoint a_updates {V T} `{BpfArray V T} (t : T) (m : list (Z * V)) : res T :=
  match m with
  | [] => Ok t
  | (i, v) :: m' =>
      match a_update t i v with
      | Some t' => a_updates t' m'
      | None => Throw (table_error "set" E2BIG)
      end
  end.

Lemma a_updates_ok {V T} `{BpfArray V T} (m : list (Z * V)) t :
  NoDup m.*1 -> (forall i, i ∈ m.*1 -> 0 <= i < a_size t) ->
  exists t', a_updates t m = Ok t' /\ a_size t' = a_size t /\
    (forall i v, (i, v) ∈ m -> a_lookup t' i = Some v) /\
    (forall i, i ∉ m.*1 -> a_lookup t' i = a_lookup t i).
Proof.
  revert t. induction m as [|[i v] m IH]; intros t Hd Hl; simpl in *.
  { exists t. split; [done|]. split; [done|]. split; [|done]. intros i v Hin. by apply elem_of_nil in Hin. }
  apply list.NoDup_cons in Hd as [Hk Hd].
  destruct (a_update_ok t i v) as (t' & -> & Hs & Hlk); [set_solver|].
  destruct (IH t' Hd) as (t'' & -> & Hs' & Hin & Hout); [rewrite Hs; set_solver|].
  exists t''. split; [done|]. split; [congruence|]. split.
  - intros i' v' [[= -> ->]|?]%elem_of_cons; [|auto].
    rewrite (Hout _ Hk), Hlk. by rewrite decide_True.
  - intros i' [Hne Hk']%not_elem_of_cons. rewrite (Hout _ Hk'), Hlk. by rewrite decide_False.
Qed.

(** * BPF_MAP_TYPE_LRU_HASH

    An update always succeeds, and may evict entries of other keys; writing
    through the pointer a lookup returned touches that entry only. *)
Class LruHash (K V T : Type) `{EqDecision K} := {
  lru_lookup : T -> K -> option V;
  lru_update : T -> K -> V -> T;
  lru_insert : T -> K -> V -> T;
  lru_write : T -> K -> V -> T;
  lru_delete : T -> K -> T;
  lru_update_eq t k v : lru_lookup (lru_update t k v) k = Some v;
  lru_update_ne t k v k' :
    k <> k' -> lru_lookup (lru_update t k v) k' = lru_lookup t k' \/ lru_lookup (lru_update t k v) k' = None;
  lru_insert_eq t k v :
    lru_lookup (lru_insert t k v) k = Some (match lru_lookup t k with Some v' => v' | None => v end);
  lru_insert_ne t k v k' :
    k <> k' -> lru_lookup (lru_insert t k v) k' = lru_lookup t k' \/ lru_lookup (lru_insert t k v) k' = None;
  lru_write_spec t k v k' :
    is_Some (lru_lookup t k) -> lru_lookup (lru_write t k v) k' = if decide (k = k') then Some v else lru_lookup t k';
  lru_delete_spec t k k' : lru_lookup (lru_delete t k) k' = if decide (k = k') then None else lru_lookup t k';
}.

#[export] Program Instance gmap_lru {K V} `{Countable K} : LruHash K V (gmap K V) := {|
    lru_lookup t k := t !! k;
    lru_update t k v := <[k := v]> t;
    lru_insert t k v := match t !! k with Some _ => t | None => <[k := v]> t end;
    lru_write t k v := <[k := v]> t;
    lru_delete t k := delete k t;
  |}.
Next Obligation. intros. cbv beta. apply lookup_insert_eq. Qed.
Next Obligation. intros. cbv beta. left. by apply lookup_insert_ne. Qed.
Next Obligation. intros K V ?? t k v. cbv beta. destruct (t !! k) eqn:E; [done|apply lookup_insert_eq]. Qed.
Next Obligation. intros K V ?? t k v k' Hn. cbv beta. left. destruct (t !! k); [done|by apply lookup_insert_ne]. Qed.
Next Obligation. intros. cbv beta. apply lookup_insert. Qed.
Next Obligation. intros. cbv beta. apply lookup_delete. Qed.

(** Going through the keys, as [HashTable::remove_all] does: the first key, if any. *)
Class LruKeys (K V T : Type) `{LruHash K V T} := {
  lru_first : T -> option K;
  lru_size : T -> nat;
  lru_first_None t : lru_first t = None <-> forall k, lru_lookup t k = None;
  lru_first_Some t k : lru_first t = Some k -> is_Some (lru_lookup t k);
  lru_size_delete t k : is_Some (lru_lookup t k) -> S (lru_size (lru_delete t k)) = lru_size t;
}.

#[export] Program Instance gmap_lru_keys {K V} `{Countable K} : LruKeys K V (gmap K V) := {|
    lru_first t := fst <$> head (map_to_list t);
    lru_size t := size t;
  |}.
Next Obligation.
  intros K V ?? t. cbv beta. destruct (map_to_list t) as [|[k v] l] eqn:E; simpl.
  - apply map_to_list_empty_iff in E as ->. split; [|done]. intros _ k. apply lookup_empty.
  - split; [done|]. intros Hn. specialize (Hn k).
    assert (t !! k = Some v) as Hk by (apply elem_of_map_to_list; rewrite E; by left). simpl in Hn. congruence.
Qed.
Next Obligation.
  intros K V ?? t k. cbv beta. destruct (map_to_list t) as [|[k' v] l] eqn:E; simpl; [done|]. intros [= <-].
  exists v. apply elem_of_map_to_list. rewrite E. by left.
Qed.
Next Obligation.
  intros K V ?? t k [v Hv]. cbv beta in *. simpl in *. rewrite map_size_delete_Some by done.
  assert (size t <> 0)%nat; [|lia]. intros E%map_size_empty_inv. subst. by rewrite lookup_empty in Hv.
Qed.

(** [while (!first(&k)) remove(k);] *)
Fixpoint remove_all_fuel {K V T} `{LruKeys K V T} (fuel : nat) (t : T) : option T :=
  match lru_first t with
  | None => Some t
  | Some k => match fuel with O => None | S fuel => remove_all_fuel fuel (lru_delete t k) end
  end.
Lemma remove_all_empty {K V T} `{LruKeys K V T} t :
  exists t', remove_all_fuel (lru_size t) t = Some t' /\ forall k, lru_lookup t' k = None.
Proof.
  remember (lru_size t) as n eqn:E. revert t E. induction n as [|n IH]; intros t E; simpl; destruct (lru_first t) as [k|] eqn:Ef.
  - apply lru_first_Some, lru_size_delete in Ef. lia.
  - exists t. split; [done|]. by apply lru_first_None.
  - apply IH. apply lru_first_Some, lru_size_delete in Ef. lia.
  - exists t. split; [done|]. by apply lru_first_None.
Qed.

(** * Per-CPU counter arrays: each element has one value per CPU. *)
Definition pc_add {T} `{BpfArray (list Z) T} (t : T) (cpu : nat) (i delta : Z) : T :=
  match a_lookup t i with
  | Some vs =>
      match a_update t i (alter (fun x => u64 (x + delta)) cpu vs) with Some t' => t' | None => t end
  | None => t
  end.

Lemma pc_add_size {T} `{BpfArray (list Z) T} (t : T) cpu i delta : a_size (pc_add t cpu i delta) = a_size t.
Proof.
  unfold pc_add. destruct (a_lookup t i) as [vs|] eqn:E; [|done].
  destruct (decide (0 <= i < a_size t)) as [Hi|Hi]; [|by rewrite a_lookup_out in E].
  by destruct (a_update_ok t i (alter (fun x => u64 (x + delta)) cpu vs) Hi) as (t' & -> & ? & _).
Qed.

(** [auto values = table.get(i); std::accumulate(...)]: [get] throws out of range. *)
Definition pc_sum {T} `{BpfArray (list Z) T} (t : T) (i : Z) : res Z :=
  match a_lookup t i with
  | Some vs => Ok (foldl (fun acc x => u64 (acc + x)) 0 vs)
  | None => Throw (table_error "get" ENOENT)
  end.

(** [table.set(i, 0)]: the value on every CPU. *)
Definition pc_reset {T} `{BpfArray (list Z) T} (t : T) (i : Z) : res T :=
  match a_lookup t i with
  | Some vs =>
      match a_update t i (map (fun _ => 0) vs) with
      | Some t' => Ok t'
      | None => Throw (table_error "set" E2BIG)
      end
  | None => Throw (table_error "set" E2BIG)
  end.

Lemma pc_sum_ok {T} `{BpfArray (list Z) T} (t : T) i : 0 <= i < a_size t -> exists v, pc_sum t i = Ok v.
Proof. intros Hi. unfold pc_sum. destruct (a_lookup_in t i Hi) as [vs ->]. eauto. Qed.
Lemma pc_reset_ok {T} `{BpfArray (list Z) T} (t : T) i :
  0 <= i < a_size t -> exists t', pc_reset t i = Ok t' /\ a_size t' = a_size t /\ pc_sum t' i = Ok 0 /\
    forall j, j <> i -> pc_sum t' j = pc_sum t j.
Proof.
  intros Hi. unfold pc_reset. destruct (a_lookup_in t i Hi) as [vs ->].
  destruct (a_update_ok t i (map (fun _ => 0) vs) Hi) as (t' & -> & Hs & Hl). exists t'.
  split; [done|]. split; [done|]. unfold pc_sum. split.
  - rewrite Hl, decide_True by done. f_equal. clear. by induction vs as [|v vs IH].
  - intros j Hj. by rewrite Hl, decide_False.
Qed.

(** * The tables a service uses, as one interface. *)
Class Tables (CK CV : Type) `{EqDecision CK} := {
  hashT : Type;  (** hash of bit vectors *)
  trieT : Type;  (** longest-prefix trie of bit vectors *)
  rowsT : Type;  (** array of bit vectors, or per-CPU array *)
  intsT : Type;  (** array of integers *)
  keysT : Type;  (** hash on byte strings *)
  connT : Type;  (** the connection table *)
  #[global] hash_ops :: BpfHash Z (list Z) hashT;
  #[global] trie_ops :: LpmTrie (list Z) trieT;
  #[global] rows_ops :: BpfArray (list Z) rowsT;
  #[global] ints_ops :: BpfArray Z intsT;
  #[global] keys_ops :: BpfHash (list Z) (Z * Z) keysT;
  #[global] conn_ops :: LruHash CK CV connT;
}.

#[export] Instance concrete_tables {CK CV} `{Countable CK} : Tables CK CV := {|
    hashT := Z * gmap Z (list Z);
    trieT := list_lpm (list Z);
    rowsT := sparse_array (list Z);
    intsT := sparse_array Z;
    keysT := Z * gmap (list Z) (Z * Z);
    connT := gmap CK CV;
  |}.

(** A key is its bytes as they are in memory; a prefix is its leading bits, most
    significant bit of each byte first. *)
Definition byte_bits (b : Z) : list bool := map (fun i => Z.testbit b (7 - i)) (seqZ 0 8).
Definition key_bits (key : list Z) : list bool := concat (map byte_bits key).
Definition trie_match (len : Z) (a b : list Z) : bool :=
  bool_decide (take (Z.to_nat len) (key_bits a) = take (Z.to_nat len) (key_bits b)).

Record trie_entry (V : Type) := TrieEntry { te_len : Z; te_key : list Z; te_val : V }.
Arguments TrieEntry {V} _ _ _.
Arguments te_len {V} _.
Arguments te_key {V} _.
Arguments te_val {V} _.

(** The entry that a key of length [plen] selects. *)
Definition selects {V} (plen : Z) (p : list Z) (e : trie_entry V) : bool :=
  (te_len e <=? plen) && trie_match (te_len e) (te_key e) p.
Definition same_node {V} (len : Z) (key : list Z) (e : trie_entry V) : bool :=
  (te_len e =? len) && trie_match len (te_key e) key.

(** The longest selected entry of [l], none when nothing is selected. *)
Definition longest_match {V} (l : list (trie_entry V)) (plen : Z) (p : list Z) (v : option V) : Prop :=
  match v with
  | None => forall e, e ∈ l -> selects plen p e = false
  | Some v => exists e, e ∈ l /\ te_val e = v /\ selects plen p e = true /\
      forall e', e' ∈ l -> selects plen p e' = true -> te_len e' <= te_len e
  end.

Class BpfTrie (V T : Type) := {
  t_new : Z -> T;
  t_entries : T -> list (trie_entry V);
  t_free : T -> Z;
  t_lookup : T -> Z -> list Z -> option V;
  t_update : T -> Z -> list Z -> V -> option T;
  t_delete : T -> Z -> list Z -> option T;
  t_entries_new n : t_entries (t_new n) = [];
  t_free_new n : t_free (t_new n) = n;
  t_unique t e e' :
    e ∈ t_entries t -> e' ∈ t_entries t -> te_len e = te_len e' ->
    trie_match (te_len e) (te_key e) (te_key e') = true -> e = e';
  t_update_ok t len key v :
    0 < t_free t ->
    exists t', t_update t len key v = Some t' /\ t_free t - 1 <= t_free t' /\
      forall e, e ∈ t_entries t' <->
        e = TrieEntry len key v \/ (e ∈ t_entries t /\ same_node len key e = false);
  t_delete_ok t len key :
    match t_delete t len key with
    | Some t' => (exists e, e ∈ t_entries t /\ same_node len key e = true) /\ t_free t + 1 <= t_free t' /\
        forall e, e ∈ t_entries t' <-> e ∈ t_entries t /\ same_node len key e = false
    | None => forall e, e ∈ t_entries t -> same_node len key e = false
    end;
  t_lookup_spec t plen p : longest_match (t_entries t) plen p (t_lookup t plen p);
}.

Lemma trie_match_refl len a : trie_match len a a = true.
Proof. by apply bool_decide_eq_true. Qed.
Lemma trie_match_sym len a b : trie_match len a b = trie_match len b a.
Proof. apply bool_decide_ext. done. Qed.
Lemma trie_match_trans len a b c : trie_match len a b = true -> trie_match len b c = true -> trie_match len a c = true.
Proof. unfold trie_match. rewrite !bool_decide_eq_true. congruence. Qed.
Lemma trie_match_cong len a b c : trie_match len a b = true -> trie_match len a c = trie_match len b c.
Proof. unfold trie_match. rewrite bool_decide_eq_true. by intros ->. Qed.

(** A lookup depends on the entries only as a set. *)
Lemma longest_match_ext {V} (l l' : list (trie_entry V)) plen p v :
  (forall e, e ∈ l <-> e ∈ l') -> longest_match l plen p v -> longest_match l' plen p v.
Proof.
  intros He. destruct v as [v|]; simpl; [|by intros Hn e Hin%He; apply Hn].
  intros (e & Hin & Hv & Hs & Hmax). exists e. split; [by apply He|]. do 2 (split; [done|]). by intros e' Hin'%He; apply Hmax.
Qed.

Section delete.
Context {V T : Type} `{BpfTrie V T}.

Lemma t_delete_Some t e :
  e ∈ t_entries t ->
  exists t', t_delete t (te_len e) (te_key e) = Some t' /\ t_free t + 1 <= t_free t' /\
    forall e', e' ∈ t_entries t' <-> e' ∈ t_entries t /\ e' <> e.
Proof.
  intros Hin. pose proof (t_delete_ok t (te_len e) (te_key e)) as Hd. destruct (t_delete _ _ _) as [t'|].
  - destruct Hd as (_ & Hf & He). exists t'. do 2 (split; [done|]). intros e'. rewrite He. split; intros [Hi Hn]; (split; [done|]).
    + intros ->. unfold same_node in Hn. by rewrite Z.eqb_refl, trie_match_refl in Hn.
    + unfold same_node. destruct (Z.eqb_spec (te_len e') (te_len e)) as [El|]; [|done]. simpl.
      destruct (trie_match _ _ _) eqn:Em; [|done]. destruct Hn. apply (t_unique t); try done. by rewrite El.
  - specialize (Hd e Hin). unfold same_node in Hd. by rewrite Z.eqb_refl, trie_match_refl in Hd.
Qed.
End delete.

(** ** The reference trie: a list of entries with one per prefix *)
Fixpoint longest_bytes {V} (plen : Z) (p : list Z) (l : list (trie_entry V)) : option (trie_entry V) :=
  match l with
  | [] => None
  | e :: l' =>
      if selects plen p e then
        match longest_bytes plen p l' with
        | Some e' => if te_len e <=? te_len e' then Some e' else Some e
        | None => Some e
        end
      else longest_bytes plen p l'
  end.

Lemma trie_longest_spec {V} plen p (l : list (trie_entry V)) : longest_match l plen p (te_val <$> longest_bytes plen p l).
Proof.
  assert (match longest_bytes plen p l with
          | None => forall e, e ∈ l -> selects plen p e = false
          | Some e => e ∈ l /\ selects plen p e = true /\ forall e', e' ∈ l -> selects plen p e' = true -> te_len e' <= te_len e
          end) as H.
  { induction l as [|e l IH]; simpl; [by intros e He%elem_of_nil|]. destruct (selects plen p e) eqn:E.
    - destruct (longest_bytes plen p l) as [e'|].
      + destruct IH as (Hin & Hs & Hmax). destruct (Z.leb_spec (te_len e) (te_len e')).
        * split; [by right|]. split; [done|]. intros x [->|]%elem_of_cons; [done|auto].
        * split; [by left|]. split; [done|]. intros x [->|Hx]%elem_of_cons Hxs; [done|]. specialize (Hmax _ Hx Hxs). lia.
      + split; [by left|]. split; [done|]. intros x [->|Hx]%elem_of_cons Hxs; [done|]. by rewrite IH in Hxs.
    - destruct (longest_bytes plen p l) as [e'|].
      + destruct IH as (? & ? & Hmax). split; [by right|]. split; [done|]. intros x [->|]%elem_of_cons Hxs; [congruence|auto].
      + intros x [->|]%elem_of_cons; auto. }
  destruct (longest_bytes plen p l) as [e|]; [|done]. exists e. naive_solver.
Qed.

Definition one_per_prefix {V} (l : list (trie_entry V)) : Prop :=
  forall e e', e ∈ l -> e' ∈ l -> te_len e = te_len e' -> trie_match (te_len e) (te_key e) (te_key e') = true -> e = e'.
Record list_trie (V : Type) := ListTrie { lt_max : Z; lt_entries : list (trie_entry V); lt_unique : one_per_prefix lt_entries }.
Arguments ListTrie {V} _ _ _.
Arguments lt_max {V} _.
Arguments lt_entries {V} _.
Arguments lt_unique {V} _.

Definition without {V} (len : Z) (key : list Z) (l : list (trie_entry V)) : list (trie_entry V) :=
  filter (fun e => same_node len key e = false) l.

Lemma without_unique {V} len key (l : list (trie_entry V)) : one_per_prefix l -> one_per_prefix (without len key l).
Proof. intros Hu e e' [_ He]%list_elem_of_filter [_ He']%list_elem_of_filter. by apply Hu. Qed.
Lemma update_unique {V} len key (v : V) l : one_per_prefix l -> one_per_prefix (TrieEntry len key v :: without len key l).
Proof.
  intros Hu e e' [->|He]%elem_of_cons [->|He']%elem_of_cons; simpl; try done.
  - apply list_elem_of_filter in He' as [Hn _]. unfold same_node in Hn. intros E. rewrite <- E, Z.eqb_refl, trie_match_sym in Hn. simpl in Hn. congruence.
  - apply list_elem_of_filter in He as [Hn _]. unfold same_node in Hn. intros E. rewrite E, Z.eqb_refl in Hn. simpl in Hn. rewrite E. congruence.
  - by apply (without_unique len key l).
Qed.
Lemma nil_unique {V} : one_per_prefix (V := V) [].
Proof. by intros e e' He%elem_of_nil. Qed.

Lemma length_without {V} len key (l : list (trie_entry V)) e :
  e ∈ l -> same_node len key e = true -> (length (without len key l) + 1 <= length l)%nat.
Proof.
  induction l as [|x l IH]; [by intros ?%elem_of_nil|]. unfold without in *. intros [->|Hin]%elem_of_cons Hs; rewrite filter_cons.
  - rewrite decide_False by congruence. simpl. pose proof (length_filter (fun e => same_node len key e = false) l). lia.
  - specialize (IH Hin Hs). case_decide; simpl; lia.
Qed.

#[export] Program Instance list_bpf_trie {V} : BpfTrie V (list_trie V) := {|
    t_new n := ListTrie n [] nil_unique;
    t_entries := lt_entries;
    t_free t := lt_max t - Z.of_nat (length (lt_entries t));
    t_lookup t plen p := te_val <$> longest_bytes plen p (lt_entries t);
    t_update t len key v :=
      if Z.of_nat (length (without len key (lt_entries t))) <? lt_max t
      then Some (ListTrie (lt_max t) (TrieEntry len key v :: without len key (lt_entries t))
                          (update_unique len key v _ (lt_unique t)))
      else None;
    t_delete t len key :=
      if existsb (same_node len key) (lt_entries t)
      then Some (ListTrie (lt_max t) (without len key (lt_entries t)) (without_unique len key _ (lt_unique t)))
      else None;
  |}.
Next Obligation. done. Qed.
Next Obligation. intros. simpl. lia. Qed.
Next Obligation. intros V t e e'. apply lt_unique. Qed.
Next Obligation.
  intros V t len key v Hf. cbv beta in *.
  pose proof (length_filter (fun e => same_node len key e = false) (lt_entries t)) as Hlen.
  change (filter (fun e => same_node len key e = false) (lt_entries t)) with (without len key (lt_entries t)) in Hlen.
  destruct (Z.ltb_spec (Z.of_nat (length (without len key (lt_entries t)))) (lt_max t)); [|lia].
  eexists. split; [done|]. cbn [lt_entries lt_max length]. split; [lia|]. intros e. unfold without.
  rewrite elem_of_cons, list_elem_of_filter. tauto.
Qed.
Next Obligation.
  intros V t len key. cbv beta. destruct (existsb _ _) eqn:E.
  - apply existsb_exists in E as (e & Hin%list_elem_of_In & Hs). split; [by exists e|]. cbn [lt_entries lt_max].
    pose proof (length_without len key _ e Hin Hs). split; [lia|]. intros e'. unfold without. rewrite list_elem_of_filter. tauto.
  - intros e Hin. apply not_true_iff_false. intros Hs. apply not_true_iff_false in E. apply E, existsb_exists.
    exists e. split; [by apply list_elem_of_In|done].
Qed.
Next Obligation. intros V t plen p. apply trie_longest_spec. Qed.
