(* ===== verification/NetUtils.v ===== *)
(** src/src/libs/polycube/src/utils.cpp: addresses, prefixes and MACs as
    strings and as network-byte-order integers, and the [sscanf] conversions
    they are written with. *)
From Stdlib Require Import ZArith Lia Ascii String Btauto.
From stdpp Require Import base list strings numbers.
From S2P Require Import Prelude.
#[local] Open Scope Z_scope.
#[local] Open Scope cpp_scope.

(** * The scanf conversions of the C library

    [%hhu] and [%hhx] skip white space, take an optional sign, read the longest
    run of digits as an [unsigned long] (saturating at [ULONG_MAX]) and store it
    in an [unsigned char]. *)
Module Scanf.
Definition code (c : ascii) : Z := Z.of_nat (Ascii.nat_of_ascii c).

Definition is_space (c : ascii) : bool := (code c =? 32) || ((9 <=? code c) && (code c <=? 13)).

Definition dec_digit (c : ascii) : option Z :=
  if (48 <=? code c) && (code c <=? 57) then Some (code c - 48) else None.

Definition hex_digit (c : ascii) : option Z :=
  if (48 <=? code c) && (code c <=? 57) then Some (code c - 48)
  else if (97 <=? code c) && (code c <=? 102) then Some (code c - 87)
  else if (65 <=? code c) && (code c <=? 70) then Some (code c - 55)
  else None.

Fixpoint skip_spaces (s : string) : string :=
  match s with
  | String c s' => if is_space c then skip_spaces s' else s
  | "" => ""
  end.

(** The leading digits as a value, how many there are, and the rest. *)
Fixpoint digits (digit : ascii -> option Z) (base acc : Z) (n : nat) (s : string) : Z * nat * string :=
  match s with
  | String c s' =>
      match digit c with
      | Some d => digits digit base (acc * base + d) (S n) s'
      | None => (acc, n, s)
      end
  | "" => (acc, n, s)
  end.

Definition sign (s : string) : bool * string :=
  match s with
  | String "-" s' => (true, s')
  | String "+" s' => (false, s')
  | _ => (false, s)
  end.

Definition ULONG_MAX : Z := 2 ^ 64 - 1.

Definition scan_unsigned (digit : ascii -> option Z) (base : Z) (s : string) : option (Z * string) :=
  let '(neg, s) := sign (skip_spaces s) in
  let '(v, n, rest) := digits digit base 0 0 s in
  match n with
  | O => None
  | _ => Some (if ULONG_MAX <? v then ULONG_MAX else if neg : bool then u64 (- v) else v, rest)
  end.

Definition hhu (s : string) : option (Z * string) :=
  '(v, rest) ← scan_unsigned dec_digit 10 s; Some (u8 v, rest).

(** [%x] takes an optional [0x]. *)
Definition strip_0x (s : string) : string :=
  match s with
  | String c0 (String c1 r) =>
      if Ascii.eqb c0 "0" && (Ascii.eqb c1 "x" || Ascii.eqb c1 "X") then r else s
  | _ => s
  end.

Definition hhx (s : string) : option (Z * string) :=
  let '(neg, s1) := sign (skip_spaces s) in
  let '(v, n, rest) := digits hex_digit 16 0 0 (strip_0x s1) in
  match n with
  | O => None
  | _ => Some (u8 (if ULONG_MAX <? v then ULONG_MAX else if neg : bool then u64 (- v) else v), rest)
  end.

(** An ordinary character of the format matches itself. *)
Definition lit (c : ascii) (s : string) : option string :=
  match s with
  | String c' s' => if decide (c = c') then Some s' else None
  | "" => None
  end.

(** [sscanf(s, "f1<c>f2<c>...", ...)] for [n] conversions separated by [sep]:
    the values stored and what is left of [s]. *)
Fixpoint scan_sep (conv : string -> option (Z * string)) (sep : ascii) (n : nat) (s : string)
    : option (list Z * string) :=
  match n with
  | O => Some ([], s)
  | S O => '(v, s') ← conv s; Some ([v], s')
  | S n' => '(v, s') ← conv s; s'' ← lit sep s'; '(vs, r) ← scan_sep conv sep n' s''; Some (v :: vs, r)
  end.
End Scanf.

(** * Definitions of utils.cpp *)
Definition SLASH : string := "/".

(** The C library's address conversions, which utils.cpp calls: [inet_ntoa]
    prints the dotted-decimal form of an address in network byte order, and
    [inet_pton(AF_INET, ...)] reads that form back. *)
Definition byte_of (x i : Z) : Z := Z.land (Z.shiftr x (8 * i)) 255.
Definition dotted (x : Z) : string :=
  (to_string (byte_of x 0) +:+ String "." (to_string (byte_of x 1) +:+ String "."
    (to_string (byte_of x 2) +:+ String "." (to_string (byte_of x 3)))))%string.

Class Inet := {
  inet_ntoa : Z -> string;
  inet_pton : string -> option Z;
  inet_ntoa_spec x : 0 <= x < 2 ^ 32 -> inet_ntoa x = dotted x;
  inet_pton_spec x : 0 <= x < 2 ^ 32 -> inet_pton (dotted x) = Some x;
}.

Definition get_ip_from_string (ipv_net : string) : string :=
  match str_find SLASH ipv_net with
  | None => ipv_net
  | Some pos => String.substring 0 pos ipv_net
  end.

Definition get_netmask_from_string (ipv : string) : string :=
  match str_find SLASH ipv with
  | None => ""
  | Some pos => substr_from (pos + 1) ipv
  end.

Definition ip_string_to_nbo_uint (ip : string) : res Z :=
  let IP_address := get_ip_from_string ip in
  match Scanf.scan_sep Scanf.hhu "." 4 IP_address with
  | Some ([a0; a1; a2; a3], "") =>
      Ok (Z.lor (Z.lor (Z.lor (Z.shiftl a3 24) (Z.shiftl a2 16)) (Z.shiftl a1 8)) a0)
  | _ => Throw (RuntimeError ("Not an ipv4 address " +:+ ip))
  end.

Definition nbo_uint_to_ip_string `{Inet} (ip : Z) : string := inet_ntoa ip.

Definition mac_string_to_nbo_uint (mac : string) : res Z :=
  match Scanf.scan_sep Scanf.hhx ":" 6 mac with
  | Some ([a0; a1; a2; a3; a4; a5], "") =>
      Ok (Z.lor (Z.lor (Z.lor (Z.lor (Z.lor (Z.shiftl a5 40) (Z.shiftl a4 32)) (Z.shiftl a3 24))
                              (Z.shiftl a2 16)) (Z.shiftl a1 8)) a0)
  | _ => Throw (RuntimeError ("invalid mac address format " +:+ mac))
  end.

(** [sprintf("%02x", b)] of a byte. *)
Definition hex_char (d : Z) : ascii :=
  Ascii.ascii_of_nat (Z.to_nat (if d <? 10 then 48 + d else 87 + d)).
Definition hex02 (b : Z) : string := String (hex_char (b / 16)) (String (hex_char (b mod 16)) "").

Definition nbo_uint_to_mac_string (mac : Z) : string :=
  let a i := byte_of mac i in
  (hex02 (a 0) +:+ String ":" (hex02 (a 1) +:+ String ":" (hex02 (a 2) +:+ String ":"
    (hex02 (a 3) +:+ String ":" (hex02 (a 4) +:+ String ":" (hex02 (a 5)))))))%string.

(** The loop of [get_netmask_length]: [n &= n - 1] clears one set bit of the
    32-bit [int] at a time. *)
Fixpoint count_bits (fuel : nat) (counter n : Z) : option Z :=
  if n =? 0 then Some counter else
  match fuel with
  | O => None
  | S fuel => count_bits fuel (counter + 1) (Z.land n (u32 (n - 1)))
  end.

Definition get_netmask_length `{Inet} (netmask_string : string) : res Z :=
  match inet_pton netmask_string with
  | Some buf => match count_bits 33 0 buf with Some counter => Ok counter | None => Undefined end
  | None => Throw (RuntimeError "IP Address is not in a valid format")
  end.

(** [ntohl] on a little-endian host. *)
Definition bswap32 (x : Z) : Z :=
  Z.lor (Z.lor (Z.lor (Z.shiftl (byte_of x 0) 24) (Z.shiftl (byte_of x 1) 16))
               (Z.shiftl (byte_of x 2) 8)) (byte_of x 3).

(** A shift of the 32-bit mask by 32 or more is undefined. *)
Definition get_netmask_from_prefixlength `{Inet} (prefixlength : Z) : res string :=
  if prefixlength =? 0 then Ok "0.0.0.0"%string
  else if (32 - prefixlength <? 0) || (32 <=? 32 - prefixlength) then Undefined
  else Ok (inet_ntoa (bswap32 (u32 (Z.shiftl 0xFFFFFFFF (32 - prefixlength))))).

(** [std::stol], which [IpAddr::fromString] applies to the prefix length. *)
Definition stol (s : string) : res Z :=
  let '(neg, s1) := Scanf.sign (Scanf.skip_spaces s) in
  let '(v, n, _) := Scanf.digits Scanf.dec_digit 10 0 0 s1 in
  match n with
  | O => Throw InvalidArgument
  | _ => let w := if neg : bool then - v else v in
         if (w <? - 2 ^ 63) || (2 ^ 63 <=? w) then Throw OutOfRange else Ok w
  end.

(** * Lemmas on the conversions *)
Section digits.
Context (digit : ascii -> option Z) (base : Z).

Definition is_digit (c : ascii) : bool := bool_decide (is_Some (digit c)).
Definition no_digit_head (s : string) : bool :=
  match s with String c _ => negb (is_digit c) | "" => true end.
Fixpoint digits_value (acc : Z) (s : string) : Z :=
  match s with
  | String c s' => digits_value (acc * base + default 0 (digit c)) s'
  | "" => acc
  end.

Lemma digits_app acc n s r :
  str_forallb is_digit s = true -> no_digit_head r = true ->
  Scanf.digits digit base acc n (s +:+ r)%string =
  (digits_value acc s, (n + String.length s)%nat, r).
Proof.
  revert acc n. induction s as [|c s IH]; intros acc n Hs Hr; simpl in *.
  - rewrite Nat.add_0_r. destruct r as [|c r]; [done|].
    simpl in Hr. unfold is_digit in Hr. simpl. by destruct (digit c).
  - apply andb_true_iff in Hs as [Hc Hs]. unfold is_digit in Hc.
    destruct (digit c) as [d|] eqn:E; [|done]. simpl. rewrite (IH _ _ Hs Hr).
    f_equal. f_equal. lia.
Qed.
End digits.

(** What [scan_unsigned] needs of a printed number: digits only, no sign. *)
Definition prints_as (digit : ascii -> option Z) (base : Z) (s : string) (v : Z) : bool :=
  match s with
  | "" => false
  | String c _ => negb (Scanf.is_space c) && negb (Ascii.eqb c "-") && negb (Ascii.eqb c "+")
  end && str_forallb (is_digit digit) s && (digits_value digit base 0 s =? v).

Lemma scan_sign_prints digit base s v r :
  prints_as digit base s v = true -> Scanf.sign (Scanf.skip_spaces (s +:+ r)%string) = (false, (s +:+ r)%string).
Proof.
  unfold prints_as. destruct s as [|c s]; [done|]. intros H. simpl.
  apply andb_true_iff in H as [[[[Hsp Hm]%andb_true_iff Hp]%andb_true_iff _]%andb_true_iff _].
  rewrite negb_true_iff in Hsp. rewrite Hsp.
  rewrite negb_true_iff, Ascii.eqb_neq in Hm, Hp.
  destruct c as [[] [] [] [] [] [] [] []]; try done; by exfalso.
Qed.

Lemma scan_digits_prints digit base s v r :
  prints_as digit base s v = true -> no_digit_head digit r = true ->
  exists n, Scanf.digits digit base 0 0 (s +:+ r)%string = (v, S n, r).
Proof.
  unfold prints_as. destruct s as [|c s]; [done|]. intros H Hr.
  apply andb_true_iff in H as [[_ Hs]%andb_true_iff Hv].
  rewrite digits_app by done. exists (String.length s). simpl String.length.
  by apply Z.eqb_eq in Hv as ->.
Qed.

Lemma scan_unsigned_prints digit base s v r :
  prints_as digit base s v = true -> no_digit_head digit r = true -> 0 <= v < 2 ^ 64 ->
  Scanf.scan_unsigned digit base (s +:+ r)%string = Some (v, r).
Proof.
  intros H Hr Hv. unfold Scanf.scan_unsigned.
  rewrite (scan_sign_prints digit base s v) by done.
  destruct (scan_digits_prints digit base s v r H Hr) as [n ->].
  destruct (Z.ltb_spec Scanf.ULONG_MAX v); [unfold Scanf.ULONG_MAX in *; lia|done].
Qed.

Lemma to_string_byte_prints b : 0 <= b < 256 -> prints_as Scanf.dec_digit 10 (to_string b) b = true.
Proof. apply (forallb_below (fun b => prints_as Scanf.dec_digit 10 (to_string b) b) 256). by vm_compute. Qed.

Lemma to_string_byte_no_slash b :
  0 <= b < 256 -> str_forallb (fun c => negb (Ascii.eqb c "/")) (to_string b) = true.
Proof.
  apply (forallb_below (fun b => str_forallb (fun c => negb (Ascii.eqb c "/")) (to_string b)) 256).
  by vm_compute.
Qed.

Lemma hhu_byte b r :
  0 <= b < 256 -> no_digit_head Scanf.dec_digit r = true ->
  Scanf.hhu (to_string b +:+ r)%string = Some (b, r).
Proof.
  intros Hb Hr. unfold Scanf.hhu.
  rewrite (scan_unsigned_prints _ _ _ b) by (auto using to_string_byte_prints; lia).
  simpl. unfold u8. rewrite Z.mod_small by lia. done.
Qed.

Lemma byte_of_bounds x i : 0 <= byte_of x i < 256.
Proof.
  unfold byte_of. change 255 with (2 ^ 8 - 1). rewrite land_ones_mod by lia.
  apply Z.mod_pos_bound. lia.
Qed.
#[export] Hint Resolve byte_of_bounds : cpp.

Lemma scan_sep_step conv sep n s v s' :
  conv s = Some (v, String sep s') ->
  Scanf.scan_sep conv sep (S (S n)) s = ('(vs, r) ← Scanf.scan_sep conv sep (S n) s'; Some (v :: vs, r)).
Proof. intros H. simpl. rewrite H. simpl. by rewrite decide_True. Qed.

Lemma scan_sep_last conv sep s v r :
  conv s = Some (v, r) -> Scanf.scan_sep conv sep 1 s = Some ([v], r).
Proof. intros H. simpl. by rewrite H. Qed.

Lemma scan_quad b0 b1 b2 b3 :
  0 <= b0 < 256 -> 0 <= b1 < 256 -> 0 <= b2 < 256 -> 0 <= b3 < 256 ->
  Scanf.scan_sep Scanf.hhu "." 4
    (to_string b0 +:+ String "." (to_string b1 +:+ String "." (to_string b2 +:+ String "." (to_string b3))))%string
  = Some ([b0; b1; b2; b3], "").
Proof.
  intros H0 H1 H2 H3.
  rewrite (scan_sep_step _ _ _ _ _ _ (hhu_byte b0 (String "." _) H0 eq_refl)).
  rewrite (scan_sep_step _ _ _ _ _ _ (hhu_byte b1 (String "." _) H1 eq_refl)).
  rewrite (scan_sep_step _ _ _ _ _ _ (hhu_byte b2 (String "." _) H2 eq_refl)).
  rewrite (scan_sep_last _ _ _ b3 ""); [done|].
  rewrite <- (string_app_nil_r (to_string b3)). by apply hhu_byte.
Qed.

Lemma dotted_no_slash x : str_forallb (fun c => negb (Ascii.eqb c "/")) (dotted x) = true.
Proof.
  unfold dotted. repeat (rewrite str_forallb_app; cbn [str_forallb]).
  rewrite !to_string_byte_no_slash by auto with cpp. done.
Qed.

Lemma byte_of_div x i : 0 <= i -> byte_of x i = (x / 2 ^ (8 * i)) mod 256.
Proof.
  intros Hi. unfold byte_of. change 255 with (2 ^ 8 - 1). rewrite land_ones_mod by lia.
  rewrite Z.shiftr_div_pow2 by lia. done.
Qed.

(** The four shifted bytes of utils.cpp add up. *)
Lemma lor_bytes4 a0 a1 a2 a3 :
  0 <= a0 < 256 -> 0 <= a1 < 256 -> 0 <= a2 < 256 -> 0 <= a3 < 256 ->
  Z.lor (Z.lor (Z.lor (Z.shiftl a3 24) (Z.shiftl a2 16)) (Z.shiftl a1 8)) a0
  = a0 + a1 * 2 ^ 8 + a2 * 2 ^ 16 + a3 * 2 ^ 24.
Proof.
  intros H0 H1 H2 H3.
  transitivity (Z.lor (Z.lor (Z.lor a0 (Z.shiftl a1 8)) (Z.shiftl a2 16)) (Z.shiftl a3 24)).
  { apply Z.bits_inj'. intros i _. rewrite !Z.lor_spec. btauto. }
  rewrite (lor_shiftl_add a0 a1 8), (lor_shiftl_add _ a2 16), (lor_shiftl_add _ a3 24) by lia.
  done.
Qed.

Ltac div_mod := Z.div_mod_to_equations; lia.

Lemma bytes4_sum x :
  0 <= x < 2 ^ 32 ->
  byte_of x 0 + byte_of x 1 * 2 ^ 8 + byte_of x 2 * 2 ^ 16 + byte_of x 3 * 2 ^ 24 = x.
Proof. intros Hx. rewrite !byte_of_div by lia. simpl (2 ^ (8 * _)). div_mod. Qed.

Lemma ip_string_to_nbo_uint_dotted x :
  0 <= x < 2 ^ 32 -> ip_string_to_nbo_uint (dotted x) = Ok x.
Proof.
  intros Hx. unfold ip_string_to_nbo_uint, get_ip_from_string, SLASH.
  rewrite str_find_char_None by apply dotted_no_slash.
  unfold dotted. rewrite scan_quad by auto with cpp.
  rewrite lor_bytes4, bytes4_sum by auto with cpp. done.
Qed.

(** Reading an address stops at the prefix length. *)
Lemma ip_string_to_nbo_uint_prefix x nm :
  0 <= x < 2 ^ 32 -> ip_string_to_nbo_uint (dotted x +:+ String "/" nm)%string = Ok x.
Proof.
  intros Hx. unfold ip_string_to_nbo_uint, get_ip_from_string, SLASH.
  rewrite str_find_char_app, substring_0_app by apply dotted_no_slash.
  unfold dotted. rewrite scan_quad by auto with cpp.
  rewrite lor_bytes4, bytes4_sum by auto with cpp. done.
Qed.

Lemma stol_to_string n : 0 <= n <= 32 -> stol (to_string n) = Ok n.
Proof.
  intros Hn.
  pose proof (forallb_below (fun n => bool_decide (stol (to_string n) = Ok n)) 33 ltac:(by vm_compute) n
    ltac:(lia)) as H.
  by apply bool_decide_eq_true in H.
Qed.

(** An address with a prefix length, and its two halves. *)
Lemma prefix_string x n :
  exists pos, str_find SLASH (dotted x +:+ "/" +:+ to_string n)%string = Some pos /\
    substr_from (pos + 1) (dotted x +:+ "/" +:+ to_string n)%string = to_string n /\
    String.substring 0 pos (dotted x +:+ "/" +:+ to_string n)%string = dotted x.
Proof.
  exists (String.length (dotted x)). change ("/" +:+ to_string n)%string with (String "/" (to_string n)). unfold SLASH.
  split; [apply str_find_char_app, dotted_no_slash|]. split; [|apply substring_0_app].
  change (String "/" (to_string n)) with ("/" +:+ to_string n)%string.
  rewrite <- string_app_assoc, <- (length_string_app _ "/"). apply substr_from_app.
Qed.

(** What is read is an address. *)
Lemma lor_lt_pow2 a b n : 0 <= n -> 0 <= a < 2 ^ n -> 0 <= b < 2 ^ n -> 0 <= Z.lor a b < 2 ^ n.
Proof.
  intros Hn Ha Hb. assert (Z.lor a b = Z.lor a b mod 2 ^ n) as ->.
  { apply Z.bits_inj'. intros i Hi. rewrite Z.testbit_mod_pow2, Z.lor_spec by lia.
    destruct (Z.ltb_spec i n); [done|]. by rewrite !(testbit_high _ n) by lia. }
  apply Z.mod_pos_bound. lia.
Qed.
Lemma land_lt_pow2 a b n : 0 <= n -> 0 <= a < 2 ^ n -> 0 <= b -> 0 <= Z.land a b < 2 ^ n.
Proof.
  intros Hn Ha Hb. assert (Z.land a b = Z.land a b mod 2 ^ n) as ->.
  { apply Z.bits_inj'. intros i Hi. rewrite Z.testbit_mod_pow2, Z.land_spec by lia.
    destruct (Z.ltb_spec i n); [done|]. by rewrite (testbit_high a n) by lia. }
  apply Z.mod_pos_bound. lia.
Qed.
Lemma shiftl_byte_lt a k : 0 <= k <= 24 -> 0 <= a < 256 -> 0 <= Z.shiftl a k < 2 ^ 32.
Proof.
  intros Hk Ha. rewrite Z.shiftl_mul_pow2 by lia.
  assert (0 < 2 ^ k <= 2 ^ 24) by (split; [apply Z.pow_pos_nonneg; lia|apply Z.pow_le_mono_r; lia]).
  nia.
Qed.
Lemma hhu_bounds s v r : Scanf.hhu s = Some (v, r) -> 0 <= v < 256.
Proof.
  unfold Scanf.hhu. destruct (Scanf.scan_unsigned _ _ _) as [[w s']|]; simpl; [|done].
  intros [= <- <-]. apply u8_bounds.
Qed.

Lemma scan_sep_SS conv sep n s :
  Scanf.scan_sep conv sep (S (S n)) s =
  ('(v, s') ← conv s; s'' ← Scanf.lit sep s'; '(vs, r) ← Scanf.scan_sep conv sep (S n) s''; Some (v :: vs, r)).
Proof. reflexivity. Qed.

Lemma scan_sep_bounds conv sep n s vs r :
  (forall s v r, conv s = Some (v, r) -> 0 <= v < 256) ->
  Scanf.scan_sep conv sep n s = Some (vs, r) -> Forall (fun v => 0 <= v < 256) vs.
Proof.
  intros Hc. revert s vs. induction n as [|n IH]; intros s vs.
  { intros [= <- <-]. constructor. }
  destruct n as [|n]; [cbn [Scanf.scan_sep]|rewrite scan_sep_SS; remember (S n) as m].
  - destruct (conv s) as [[v s']|] eqn:Hv; [|done]. apply Hc in Hv.
    simpl. intros [= <- <-]. auto.
  - destruct (conv s) as [[v s']|] eqn:Hv; [|done]. apply Hc in Hv.
    simpl.
    destruct (Scanf.lit sep s') as [s2|]; simpl; [|done].
    destruct (Scanf.scan_sep conv sep m s2) as [[vs' r']|] eqn:E; simpl; [|done].
    intros [= <- <-]. constructor; [done|]. by eapply IH.
Qed.

Lemma ip_string_to_nbo_uint_bounds s x : ip_string_to_nbo_uint s = Ok x -> 0 <= x < 2 ^ 32.
Proof.
  unfold ip_string_to_nbo_uint. destruct (Scanf.scan_sep _ _ _ _) as [[vs r]|] eqn:E; [|done].
  apply scan_sep_bounds in E; [|exact hhu_bounds].
  destruct vs as [|a0 [|a1 [|a2 [|a3 [|]]]]]; try done. destruct r; [|done].
  intros [= <-]. decompose_Forall_hyps.
  assert (forall k a, 0 <= k <= 24 -> 0 <= a < 256 -> 0 <= Z.shiftl a k < 2 ^ 32) as Hs
    by (intros; by apply shiftl_byte_lt).
  repeat (apply lor_lt_pow2; [lia|..]); try (apply Hs; lia). lia.
Qed.

(** Every address the text form of which exists: the reference conversions. *)
Definition pton (s : string) : option Z :=
  match ip_string_to_nbo_uint s with
  | Ok x => if decide (dotted x = s) then Some x else None
  | _ => None
  end.

Lemma pton_dotted x : 0 <= x < 2 ^ 32 -> pton (dotted x) = Some x.
Proof.
  intros Hx. unfold pton. rewrite ip_string_to_nbo_uint_dotted by done. by rewrite decide_True.
Qed.

#[export] Instance posix_inet : Inet := {|
    inet_ntoa := dotted;
    inet_pton := pton;
    inet_ntoa_spec x _ := eq_refl;
    inet_pton_spec := pton_dotted;
  |}.

(** ** MAC addresses *)
Lemma hex02_prints b :
  0 <= b < 256 ->
  prints_as Scanf.hex_digit 16 (hex02 b) b && negb (Ascii.eqb (hex_char (b mod 16)) "x")
  && negb (Ascii.eqb (hex_char (b mod 16)) "X") = true.
Proof.
  apply (forallb_below (fun b => prints_as Scanf.hex_digit 16 (hex02 b) b
    && negb (Ascii.eqb (hex_char (b mod 16)) "x") && negb (Ascii.eqb (hex_char (b mod 16)) "X")) 256).
  by vm_compute.
Qed.

Lemma hhx_byte b r :
  0 <= b < 256 -> no_digit_head Scanf.hex_digit r = true ->
  Scanf.hhx (hex02 b +:+ r)%string = Some (b, r).
Proof.
  intros Hb Hr.
  apply hex02_prints in Hb as Hp.
  rewrite !andb_true_iff, !negb_true_iff in Hp. destruct Hp as [[Hp Hx] HX].
  unfold Scanf.hhx. rewrite (scan_sign_prints Scanf.hex_digit 16 (hex02 b) b) by done.
  assert (Scanf.strip_0x (hex02 b +:+ r)%string = (hex02 b +:+ r)%string) as ->.
  { unfold hex02. simpl. by rewrite Hx, HX, andb_false_r. }
  destruct (scan_digits_prints Scanf.hex_digit 16 (hex02 b) b r Hp Hr) as [n ->].
  destruct (Z.ltb_spec Scanf.ULONG_MAX b); [unfold Scanf.ULONG_MAX in *; lia|].
  unfold u8. by rewrite Z.mod_small by lia.
Qed.

Lemma lor_bytes6 a0 a1 a2 a3 a4 a5 :
  0 <= a0 < 256 -> 0 <= a1 < 256 -> 0 <= a2 < 256 -> 0 <= a3 < 256 -> 0 <= a4 < 256 -> 0 <= a5 < 256 ->
  Z.lor (Z.lor (Z.lor (Z.lor (Z.lor (Z.shiftl a5 40) (Z.shiftl a4 32)) (Z.shiftl a3 24))
                              (Z.shiftl a2 16)) (Z.shiftl a1 8)) a0
  = a0 + a1 * 2 ^ 8 + a2 * 2 ^ 16 + a3 * 2 ^ 24 + a4 * 2 ^ 32 + a5 * 2 ^ 40.
Proof.
  intros H0 H1 H2 H3 H4 H5.
  transitivity (Z.lor (Z.lor (Z.lor (Z.lor (Z.lor a0 (Z.shiftl a1 8)) (Z.shiftl a2 16)) (Z.shiftl a3 24))
    (Z.shiftl a4 32)) (Z.shiftl a5 40)).
  { apply Z.bits_inj'. intros i _. rewrite !Z.lor_spec. btauto. }
  rewrite (lor_shiftl_add a0 a1 8), (lor_shiftl_add _ a2 16), (lor_shiftl_add _ a3 24),
    (lor_shiftl_add _ a4 32), (lor_shiftl_add _ a5 40) by lia.
  done.
Qed.

Lemma bytes6_sum x :
  0 <= x < 2 ^ 48 ->
  byte_of x 0 + byte_of x 1 * 2 ^ 8 + byte_of x 2 * 2 ^ 16 + byte_of x 3 * 2 ^ 24
  + byte_of x 4 * 2 ^ 32 + byte_of x 5 * 2 ^ 40 = x.
Proof. intros Hx. rewrite !byte_of_div by lia. simpl (2 ^ (8 * _)). div_mod. Qed.

Lemma hhx_bounds s v r : Scanf.hhx s = Some (v, r) -> 0 <= v < 256.
Proof.
  unfold Scanf.hhx. destruct (Scanf.sign _) as [neg s1]. destruct (Scanf.digits _ _ _ _ _) as [[w n] s'].
  destruct n; [done|]. intros [= <- <-]. apply u8_bounds.
Qed.
Lemma mac_string_to_nbo_uint_bounds s x : mac_string_to_nbo_uint s = Ok x -> 0 <= x < 2 ^ 48.
Proof.
  unfold mac_string_to_nbo_uint. destruct (Scanf.scan_sep _ _ _ _) as [[vs r]|] eqn:E; [|done].
  apply scan_sep_bounds in E; [|exact hhx_bounds].
  destruct vs as [|a0 [|a1 [|a2 [|a3 [|a4 [|a5 [|]]]]]]]; try done. destruct r; [|done].
  intros [= <-]. decompose_Forall_hyps. rewrite lor_bytes6 by done. lia.
Qed.
(** The conversion that does not parse throws. *)
Lemma mac_string_to_nbo_uint_throws s :
  (exists x, mac_string_to_nbo_uint s = Ok x) \/ mac_string_to_nbo_uint s = Throw (RuntimeError ("invalid mac address format " +:+ s)).
Proof. unfold mac_string_to_nbo_uint. repeat case_match; eauto. Qed.

(** ** Prefix lengths *)
Lemma prefix_mask_bits n :
  0 < n <= 32 ->
  exists m, bswap32 (u32 (Z.shiftl 0xFFFFFFFF (32 - n))) = m /\ 0 <= m < 2 ^ 32 /\ count_bits 33 0 m = Some n.
Proof.
  intros Hn. eexists. split; [done|].
  pose proof (forallb_below (fun i => let m := bswap32 (u32 (Z.shiftl 0xFFFFFFFF (32 - i))) in
    (i =? 0) || ((0 <=? m) && (m <? 2 ^ 32) && bool_decide (count_bits 33 0 m = Some i))) 33
    ltac:(by vm_compute) n ltac:(lia)) as H.
  apply orb_true_iff in H as [H|H]; [lia|].
  rewrite !andb_true_iff, bool_decide_eq_true in H. destruct H as [? Hc]. split; [lia|done].
Qed.

(** * Properties *)
Section properties.
Context `{Inet}.

(** Every IPv4 address survives the way through its text form. *)
Theorem ip_string_roundtrip x :
  0 <= x < 2 ^ 32 -> ip_string_to_nbo_uint (nbo_uint_to_ip_string x) = Ok x.
Proof.
  intros Hx. unfold nbo_uint_to_ip_string. rewrite inet_ntoa_spec by done.
  by apply ip_string_to_nbo_uint_dotted.
Qed.

(** Every MAC address survives the way through its text form. *)
Theorem mac_string_roundtrip x :
  0 <= x < 2 ^ 48 -> mac_string_to_nbo_uint (nbo_uint_to_mac_string x) = Ok x.
Proof.
  intros Hx. unfold mac_string_to_nbo_uint, nbo_uint_to_mac_string.
  do 5 rewrite (scan_sep_step _ _ _ _ _ _ (hhx_byte _ (String ":" _) (byte_of_bounds _ _) eq_refl)).
  rewrite (scan_sep_last _ _ _ (byte_of x 5) "").
  - simpl. rewrite lor_bytes6, bytes6_sum by auto with cpp. done.
  - rewrite <- (string_app_nil_r (hex02 _)). apply hhx_byte; auto with cpp.
Qed.

(** Every prefix length has a netmask, and the netmask's length is the prefix
    length again, 0 and 32 included. *)
Theorem netmask_length_roundtrip n :
  0 <= n <= 32 ->
  exists s, get_netmask_from_prefixlength n = Ok s /\ get_netmask_length s = Ok n.
Proof.
  intros Hn. unfold get_netmask_from_prefixlength, get_netmask_length.
  destruct (Z.eqb_spec n 0) as [->|Hz].
  - eexists. split; [done|]. change "0.0.0.0"%string with (dotted 0).
    rewrite inet_pton_spec by lia. done.
  - destruct (prefix_mask_bits n) as (m & -> & Hm & Hc); [lia|].
    destruct (Z.ltb_spec (32 - n) 0); [lia|]. destruct (Z.leb_spec 32 (32 - n)); [lia|].
    eexists. split; [done|]. rewrite inet_ntoa_spec, inet_pton_spec by done. by rewrite Hc.
Qed.
End properties.

Lemma ip_string_roundtrip_witness : ip_string_to_nbo_uint (nbo_uint_to_ip_string 16777226) = Ok 16777226.
Proof. exact (ip_string_roundtrip 16777226 ltac:(lia)). Defined.
Lemma mac_string_roundtrip_witness : mac_string_to_nbo_uint (nbo_uint_to_mac_string 1108152157446) = Ok 1108152157446.
Proof. exact (mac_string_roundtrip 1108152157446 ltac:(lia)). Defined.
Lemma netmask_length_roundtrip_witness :
  exists s, get_netmask_from_prefixlength 20 = Ok s /\ get_netmask_length s = Ok 20.
Proof. exact (netmask_length_roundtrip 20 ltac:(lia)). Defined.
