(* ===== verification/Frame.v ===== *)
(** The bytes of a packet: the little-endian reads and writes that the datapath
    programs make through pointers, and the bounds test they make first. *)
From Stdlib Require Import ZArith Lia.
From stdpp Require Import base list numbers.
From S2P Require Import Prelude.
From S2P Require Import NetUtils.
#[local] Open Scope Z_scope.

Definition rd8 (frame : list Z) (off : nat) : Z := default 0 (frame !! off).
Definition rd16 (frame : list Z) (off : nat) : Z := rd8 frame off + rd8 frame (off + 1) * 2 ^ 8.
Definition rd32 (frame : list Z) (off : nat) : Z := rd16 frame off + rd16 frame (off + 2) * 2 ^ 16.
(** A MAC address: the little-endian reading of its six bytes ([__be64 : 48]). *)
Definition rd48 (frame : list Z) (off : nat) : Z := rd32 frame off + rd16 frame (off + 4) * 2 ^ 32.
Definition wr16 (frame : list Z) (off : nat) (x : Z) : list Z :=
  <[(off + 1)%nat := byte_of x 1]> (<[off := byte_of x 0]> frame).
(** [data + n > data_end] *)
Definition beyond (frame : list Z) (n : nat) : bool := (length frame <? n)%nat.

Definition is_byte (b : Z) : Prop := 0 <= b < 256.

Lemma rd8_range frame off : Forall is_byte frame -> 0 <= rd8 frame off < 2 ^ 8.
Proof.
  intros Hf. unfold rd8. destruct (frame !! off) as [b|] eqn:E; simpl; [|lia].
  apply (Forall_lookup_1 _ _ _ _ Hf) in E. unfold is_byte in E. lia.
Qed.
Lemma rd16_range frame off : Forall is_byte frame -> 0 <= rd16 frame off < 2 ^ 16.
Proof. intros Hf. unfold rd16. pose proof (rd8_range frame off Hf). pose proof (rd8_range frame (off + 1) Hf). lia. Qed.
Lemma rd32_range frame off : Forall is_byte frame -> 0 <= rd32 frame off < 2 ^ 32.
Proof. intros Hf. unfold rd32. pose proof (rd16_range frame off Hf). pose proof (rd16_range frame (off + 2) Hf). lia. Qed.

Lemma rd48_range f off : Forall is_byte f -> 0 <= rd48 f off < 2 ^ 48.
Proof. intros Hf. unfold rd48. pose proof (rd32_range f off Hf). pose proof (rd16_range f (off + 4) Hf). lia. Qed.

(** * Writes *)
Definition wr32 (frame : list Z) (off : nat) (x : Z) : list Z :=
  wr16 (wr16 frame off (x mod 2 ^ 16)) (off + 2) (x / 2 ^ 16).

Definition wr8 (frame : list Z) (off : nat) (x : Z) : list Z := <[off := u8 x]> frame.
Definition wr48 (frame : list Z) (off : nat) (x : Z) : list Z :=
  wr16 (wr32 frame off (x mod 2 ^ 32)) (off + 4) (x / 2 ^ 32).

Lemma byte_of_0 x : byte_of x 0 = x mod 256.
Proof. rewrite byte_of_div by lia. by rewrite Z.div_1_r. Qed.
Lemma byte_of_1 x : byte_of x 1 = x / 256 mod 256.
Proof. by rewrite byte_of_div by lia. Qed.
Lemma bytes2_sum x : 0 <= x < 2 ^ 16 -> byte_of x 0 + byte_of x 1 * 2 ^ 8 = x.
Proof. intros Hx. rewrite byte_of_0, byte_of_1. Z.div_mod_to_equations. lia. Qed.

Lemma length_wr16 f off x : length (wr16 f off x) = length f.
Proof. unfold wr16. by rewrite !length_insert. Qed.
Lemma length_wr32 f off x : length (wr32 f off x) = length f.
Proof. unfold wr32. by rewrite !length_wr16. Qed.
Lemma beyond_wr16 f off x n : beyond (wr16 f off x) n = beyond f n.
Proof. unfold beyond. by rewrite length_wr16. Qed.
Lemma beyond_wr32 f off x n : beyond (wr32 f off x) n = beyond f n.
Proof. unfold beyond. by rewrite length_wr32. Qed.

Lemma wr16_bytes f off x : Forall is_byte f -> Forall is_byte (wr16 f off x).
Proof. intros Hf. unfold wr16. apply Forall_insert; [by apply Forall_insert; [|apply byte_of_bounds]|apply byte_of_bounds]. Qed.
Lemma wr32_bytes f off x : Forall is_byte f -> Forall is_byte (wr32 f off x).
Proof. intros Hf. unfold wr32. by do 2 apply wr16_bytes. Qed.
#[export] Hint Resolve wr16_bytes wr32_bytes : cpp.

Lemma rd8_wr16 f off x j :
  (off + 1 < length f)%nat ->
  rd8 (wr16 f off x) j = if decide (j = off) then byte_of x 0 else if decide (j = off + 1)%nat then byte_of x 1 else rd8 f j.
Proof.
  intros Hl. unfold rd8, wr16. destruct (decide (j = (off + 1)%nat)) as [->|Hn].
  - rewrite decide_False by lia. rewrite list_lookup_insert_eq; [done|]. rewrite length_insert. lia.
  - rewrite list_lookup_insert_ne by lia. case_decide; [subst|by rewrite list_lookup_insert_ne by lia].
    by rewrite list_lookup_insert_eq by lia.
Qed.

Lemma rd16_wr16_eq f off x : (off + 1 < length f)%nat -> 0 <= x < 2 ^ 16 -> rd16 (wr16 f off x) off = x.
Proof.
  intros Hl Hx. unfold rd16. rewrite !rd8_wr16 by done. rewrite decide_True by done.
  rewrite decide_False, decide_True by lia. by apply bytes2_sum.
Qed.
Lemma rd8_wr16_ne f off x j : (j < off \/ off + 2 <= j)%nat -> rd8 (wr16 f off x) j = rd8 f j.
Proof. intros Hj. unfold rd8, wr16. by rewrite !list_lookup_insert_ne by lia. Qed.
Lemma rd16_wr16_ne f off x j : (j + 2 <= off \/ off + 2 <= j)%nat -> rd16 (wr16 f off x) j = rd16 f j.
Proof. intros Hj. unfold rd16. by rewrite !rd8_wr16_ne by lia. Qed.
Lemma rd32_wr16_ne f off x j : (j + 4 <= off \/ off + 2 <= j)%nat -> rd32 (wr16 f off x) j = rd32 f j.
Proof. intros Hj. unfold rd32. by rewrite !rd16_wr16_ne by lia. Qed.

Lemma rd8_wr32_ne f off x j : (j < off \/ off + 4 <= j)%nat -> rd8 (wr32 f off x) j = rd8 f j.
Proof. intros Hj. unfold wr32. by rewrite !rd8_wr16_ne by lia. Qed.
Lemma rd16_wr32_ne f off x j : (j + 2 <= off \/ off + 4 <= j)%nat -> rd16 (wr32 f off x) j = rd16 f j.
Proof. intros Hj. unfold wr32. by rewrite !rd16_wr16_ne by lia. Qed.
Lemma rd32_wr32_ne f off x j : (j + 4 <= off \/ off + 4 <= j)%nat -> rd32 (wr32 f off x) j = rd32 f j.
Proof. intros Hj. unfold wr32. by rewrite !rd32_wr16_ne by lia. Qed.
Lemma rd32_wr32_eq f off x : (off + 3 < length f)%nat -> 0 <= x < 2 ^ 32 -> rd32 (wr32 f off x) off = x.
Proof.
  intros Hl Hx. unfold rd32, wr32. rewrite (rd16_wr16_ne _ (off + 2)) by lia.
  rewrite !rd16_wr16_eq; try rewrite length_wr16; try (Z.div_mod_to_equations; lia).
Qed.

(** Reading past, or exactly, what was written; the offsets are numbers. *)
Ltac frame_simpl :=
  repeat first
    [ rewrite length_wr16 | rewrite length_wr32 | rewrite beyond_wr16 | rewrite beyond_wr32
    | rewrite rd16_wr16_eq by (rewrite ?length_wr16, ?length_wr32; lia)
    | rewrite rd32_wr32_eq by (rewrite ?length_wr16, ?length_wr32; lia)
    | rewrite rd8_wr16_ne by lia | rewrite rd16_wr16_ne by lia | rewrite rd32_wr16_ne by lia
    | rewrite rd8_wr32_ne by lia | rewrite rd16_wr32_ne by lia | rewrite rd32_wr32_ne by lia ].

(** * The sum of the 16-bit words from an offset; a missing last byte counts 0 *)
Fixpoint sum16 (f : list Z) (off n : nat) : Z :=
  match n with O => 0 | S n => rd16 f off + sum16 f (off + 2) n end.

Lemma sum16_out f o x off n : (o + 2 <= off \/ off + 2 * n <= o)%nat -> sum16 (wr16 f o x) off n = sum16 f off n.
Proof.
  revert off. induction n as [|n IH]; intros off Ho; [done|]. simpl. rewrite rd16_wr16_ne by lia. by rewrite IH by lia.
Qed.
Lemma sum16_in f o x off n i :
  o = (off + 2 * i)%nat -> (i < n)%nat -> (o + 1 < length f)%nat -> 0 <= x < 2 ^ 16 ->
  sum16 (wr16 f o x) off n = sum16 f off n - rd16 f o + x.
Proof.
  revert off i. induction n as [|n IH]; intros off i -> Hi Hl Hx; [lia|]. cbn [sum16]. destruct i as [|i].
  - rewrite Nat.mul_0_r, Nat.add_0_r in *. rewrite rd16_wr16_eq by done. rewrite sum16_out by lia. lia.
  - rewrite rd16_wr16_ne by lia. rewrite (IH (off + 2)%nat i) by lia. lia.
Qed.
Lemma sum16_out32 f o x off n : (o + 4 <= off \/ off + 2 * n <= o)%nat -> sum16 (wr32 f o x) off n = sum16 f off n.
Proof. intros Ho. unfold wr32. by rewrite !sum16_out by lia. Qed.
(** Both halves of a 32-bit field weigh as one 16-bit word modulo 65535. *)
Lemma sum16_in32 f o x off n i :
  o = (off + 2 * i)%nat -> (i + 1 < n)%nat -> (o + 3 < length f)%nat -> 0 <= x < 2 ^ 32 ->
  exists q, sum16 (wr32 f o x) off n = sum16 f off n - rd32 f o + x + 65535 * q.
Proof.
  intros Ho Hi Hl Hx. unfold wr32.
  rewrite (sum16_in _ _ _ off n (i + 1)) by (rewrite ?length_wr16; try (Z.div_mod_to_equations; lia)).
  rewrite (sum16_in _ _ _ off n i) by (try (Z.div_mod_to_equations; lia)).
  rewrite rd16_wr16_ne by lia. unfold rd32. exists (rd16 f (o + 2) - x / 2 ^ 16).
  pose proof (Z.div_mod x (2 ^ 16) ltac:(lia)). lia.
Qed.

(** ** Fields of one and of six bytes *)
Lemma u8_range x : 0 <= u8 x < 2 ^ 8.
Proof. by apply Z.mod_pos_bound. Qed.
Lemma length_wr8 f off x : length (wr8 f off x) = length f.
Proof. apply length_insert. Qed.
Lemma wr8_bytes f off x : Forall is_byte f -> Forall is_byte (wr8 f off x).
Proof. intros Hf. apply Forall_insert; [done|apply u8_range]. Qed.
(** A byte at an even offset is written with the one after it. *)
Lemma wr8_wr16 f off x : Forall is_byte f -> wr8 f off x = wr16 f off (u8 x + rd8 f (off + 1) * 2 ^ 8).
Proof.
  intros Hf. unfold wr8, wr16. pose proof (rd8_range f (off + 1) Hf). pose proof (u8_range x). set (y := u8 x + _).
  assert (byte_of y 0 = u8 x /\ byte_of y 1 = rd8 f (off + 1)) as [-> ->].
  { subst y. rewrite byte_of_0, byte_of_1. split; Z.div_mod_to_equations; lia. }
  destruct (decide (off + 1 < length f)%nat) as [Hl|Hl].
  - symmetry. apply list_insert_id. rewrite list_lookup_insert_ne by lia. unfold rd8. by destruct (lookup_lt_is_Some_2 f (off + 1) Hl) as [b ->].
  - by rewrite (list_insert_ge _ (off + 1)) by (rewrite length_insert; lia).
Qed.
Lemma length_wr48 f off x : length (wr48 f off x) = length f.
Proof. unfold wr48. by rewrite length_wr16, length_wr32. Qed.
Lemma wr48_bytes f off x : Forall is_byte f -> Forall is_byte (wr48 f off x).
Proof. intros Hf. by apply wr16_bytes, wr32_bytes. Qed.
#[export] Hint Resolve wr8_bytes wr48_bytes : cpp.
Lemma rd8_wr48_ne f off x j : (j < off \/ off + 6 <= j)%nat -> rd8 (wr48 f off x) j = rd8 f j.
Proof. intros Hj. unfold wr48. by rewrite rd8_wr16_ne, rd8_wr32_ne by lia. Qed.
Lemma rd16_wr48_ne f off x j : (j + 2 <= off \/ off + 6 <= j)%nat -> rd16 (wr48 f off x) j = rd16 f j.
Proof. intros Hj. unfold rd16. by rewrite !rd8_wr48_ne by lia. Qed.
Lemma rd32_wr48_ne f off x j : (j + 4 <= off \/ off + 6 <= j)%nat -> rd32 (wr48 f off x) j = rd32 f j.
Proof. intros Hj. unfold rd32. by rewrite !rd16_wr48_ne by lia. Qed.
Lemma rd48_wr48_ne f off x j : (j + 6 <= off \/ off + 6 <= j)%nat -> rd48 (wr48 f off x) j = rd48 f j.
Proof. intros Hj. unfold rd48. by rewrite rd32_wr48_ne, rd16_wr48_ne by lia. Qed.
Lemma rd48_wr16_ne f off x j : (j + 6 <= off \/ off + 2 <= j)%nat -> rd48 (wr16 f off x) j = rd48 f j.
Proof. intros Hj. unfold rd48. by rewrite rd32_wr16_ne, rd16_wr16_ne by lia. Qed.
Lemma rd48_wr32_ne f off x j : (j + 6 <= off \/ off + 4 <= j)%nat -> rd48 (wr32 f off x) j = rd48 f j.
Proof. intros Hj. unfold rd48. by rewrite rd32_wr32_ne, rd16_wr32_ne by lia. Qed.
Lemma rd48_wr48_eq f off x : (off + 5 < length f)%nat -> 0 <= x < 2 ^ 48 -> rd48 (wr48 f off x) off = x.
Proof.
  intros Hl Hx. unfold rd48, wr48. rewrite rd32_wr16_ne by lia.
  rewrite rd32_wr32_eq by (try lia; by apply Z.mod_pos_bound). rewrite rd16_wr16_eq by (rewrite ?length_wr32; Z.div_mod_to_equations; lia).
  Z.div_mod_to_equations; lia.
Qed.
Lemma sum16_out48 f o x off n : (o + 6 <= off \/ off + 2 * n <= o)%nat -> sum16 (wr48 f o x) off n = sum16 f off n.
Proof. intros Ho. unfold wr48. by rewrite sum16_out, sum16_out32 by lia. Qed.

(** * Byte order *)
Lemma bswap16_eq x : bswap16 x = x mod 256 * 256 + x / 256 mod 256.
Proof.
  unfold bswap16. change 255 with (2 ^ 8 - 1). rewrite !land_ones_mod, Z.shiftr_div_pow2, Z.lor_comm by lia.
  rewrite lor_shiftl_add by (try apply Z.mod_pos_bound; lia). change (2 ^ 8) with 256. lia.
Qed.
Lemma bswap16_range x : 0 <= bswap16 x < 2 ^ 16.
Proof.
  rewrite bswap16_eq. pose proof (Z.mod_pos_bound x 256 ltac:(lia)). pose proof (Z.mod_pos_bound (x / 256) 256 ltac:(lia)). lia.
Qed.
Lemma bswap16_involutive x : 0 <= x < 2 ^ 16 -> bswap16 (bswap16 x) = x.
Proof.
  intros Hx. rewrite !bswap16_eq. rewrite (Z.mod_small (x / 256)) by (Z.div_mod_to_equations; lia).
  assert ((x mod 256 * 256 + x / 256) / 256 = x mod 256) as -> by (Z.div_mod_to_equations; lia).
  assert ((x mod 256 * 256 + x / 256) mod 256 = x / 256) as -> by (Z.div_mod_to_equations; lia).
  rewrite Z.mod_mod by lia. pose proof (Z.div_mod x 256 ltac:(lia)). lia.
Qed.
