(* ===== verification/Csum.v ===== *)
(** polycubed/src/cube_xdp.cpp, the checksum functions every XDP program is
    compiled with: one's-complement arithmetic on 32-bit and 16-bit words, and the
    incremental update of a checksum in a packet.

    A header is intact when the one's-complement sum of its words, the checksum
    among them, is all ones, that is, a multiple of 65535. *)
From Stdlib Require Import ZArith Lia.
From stdpp Require Import base list numbers.
From S2P Require Import Prelude.
From S2P Require Import NetUtils.
From S2P Require Import Frame.
#[local] Open Scope Z_scope.

(** * One's-complement arithmetic *)
Definition pcn_csum_fold (csum : Z) : Z :=
  let sum := u32 csum in
  let sum := u32 (Z.land sum 0xffff + Z.shiftr sum 16) in
  let sum := u32 (Z.land sum 0xffff + Z.shiftr sum 16) in
  u16 (Z.lnot sum).

Definition pcn_csum_add (csum addend : Z) : Z :=
  let res := u32 (csum + addend) in u32 (res + Z.b2z (res <? addend)).

Definition pcn_csum16_add (csum addend : Z) : Z :=
  let res := u16 (csum + addend) in u16 (res + Z.b2z (res <? addend)).

(** [*sum = pcn_csum_fold(pcn_csum_add(diff, ~pcn_csum_unfold( *sum)))] *)
Definition pcn_csum_replace_by_diff (sum diff : Z) : Z :=
  pcn_csum_fold (pcn_csum_add diff (u32 (Z.lnot sum))).

(** * The update of a checksum in a packet: the code returned, and the packet *)
Definition EFAULT : Z := 14.
Definition EINVAL : Z := 22.
Definition BPF_F_HDR_FIELD_MASK : Z := 0xf.
Definition BPF_F_PSEUDO_HDR : Z := 0x10.
Definition BPF_F_MARK_MANGLED_0 : Z := 0x20.
Definition BPF_F_MARK_ENFORCE : Z := 0x40.
Definition CSUM_MANGLED_0 : Z := 0xffff.
Definition unlikely (flags allowed : Z) : bool := negb (Z.land flags (u32 (Z.lnot allowed)) =? 0).
Definition bad_offset (csum_offset : Z) : bool := (0xffff <? csum_offset) || negb (Z.land csum_offset 1 =? 0).

(** The switch on the size of the field that changed. *)
Definition csum_replace (size sum old_value new_value : Z) : option Z :=
  if size =? 0 then Some (pcn_csum_replace_by_diff sum new_value)
  else if size =? 2 then
    Some (u16 (Z.lnot (pcn_csum16_add (pcn_csum16_add (u16 (Z.lnot sum)) (u16 (Z.lnot old_value))) (u16 new_value))))
  else if size =? 4 then Some (pcn_csum_replace_by_diff sum (pcn_csum_add new_value (u32 (Z.lnot old_value))))
  else None.

Definition pcn_l3_csum_replace (frame : list Z) (csum_offset old_value new_value flags : Z) : Z * list Z :=
  if unlikely flags BPF_F_HDR_FIELD_MASK then (- EINVAL, frame)
  else if bad_offset csum_offset then (- EFAULT, frame)
  else
    let ptr := Z.to_nat csum_offset in
    if beyond frame (ptr + 2) then (- EINVAL, frame) else
    match csum_replace (Z.land flags BPF_F_HDR_FIELD_MASK) (rd16 frame ptr) old_value new_value with
    | Some sum => (0, wr16 frame ptr sum)
    | None => (- EINVAL, frame)
    end.

Definition pcn_l4_csum_replace (frame : list Z) (csum_offset old_value new_value flags : Z) : Z * list Z :=
  let is_mmzero := negb (Z.land flags BPF_F_MARK_MANGLED_0 =? 0) in
  let do_mforce := negb (Z.land flags BPF_F_MARK_ENFORCE =? 0) in
  if unlikely flags (Z.lor (Z.lor BPF_F_MARK_MANGLED_0 BPF_F_MARK_ENFORCE)
                           (Z.lor BPF_F_PSEUDO_HDR BPF_F_HDR_FIELD_MASK)) then (- EINVAL, frame)
  else if bad_offset csum_offset then (- EFAULT, frame)
  else
    let ptr := Z.to_nat csum_offset in
    if beyond frame (ptr + 2) then (- EINVAL, frame)
    else if is_mmzero && negb do_mforce && (rd16 frame ptr =? 0) then (0, frame) else
    match csum_replace (Z.land flags BPF_F_HDR_FIELD_MASK) (rd16 frame ptr) old_value new_value with
    | Some sum => (0, wr16 frame ptr (if is_mmzero && (sum =? 0) then CSUM_MANGLED_0 else sum))
    | None => (- EINVAL, frame)
    end.

(** ** The difference between two 4-byte fields *)
(** What is compiled for kernels before 4.16. *)
Definition csum_diff_4 (from to seed : Z) : Z :=
  let result := u32 (pcn_csum_add to (u32 (Z.lnot from)) + seed) in
  u32 (result + Z.b2z (result <? seed)).

(** The kernel's helper, which later kernels call instead. *)
Class CsumDiff := {
  bpf_csum_diff : Z -> Z -> Z -> Z;
  bpf_csum_diff_range from to seed : 0 <= bpf_csum_diff from to seed < 2 ^ 32;
  bpf_csum_diff_mod from to seed :
    0 <= from < 2 ^ 32 -> 0 <= to < 2 ^ 32 -> 0 <= seed < 2 ^ 32 ->
    bpf_csum_diff from to seed mod 65535 = (seed + to - from) mod 65535;
}.

Definition pcn_csum_diff `{CsumDiff} (recent : bool) (from from_size to to_size seed : Z) : Z :=
  if recent then bpf_csum_diff from to seed
  else if negb (from_size =? 4) || negb (to_size =? 4) then u32 (- EINVAL)
  else csum_diff_4 from to seed.

(** * Lemmas *)
Lemma u32_range x : 0 <= u32 x < 2 ^ 32.
Proof. by apply Z.mod_pos_bound. Qed.
Lemma u16_range x : 0 <= u16 x < 2 ^ 16.
Proof. by apply Z.mod_pos_bound. Qed.
Lemma u32_lnot x : 0 <= x < 2 ^ 32 -> u32 (Z.lnot x) = 2 ^ 32 - 1 - x.
Proof. intros Hx. unfold u32, Z.lnot. rewrite <- Z.sub_1_r. Z.div_mod_to_equations. lia. Qed.
Lemma u16_lnot x : 0 <= x < 2 ^ 16 -> u16 (Z.lnot x) = 2 ^ 16 - 1 - x.
Proof. intros Hx. unfold u16, Z.lnot. rewrite <- Z.sub_1_r. Z.div_mod_to_equations. lia. Qed.

(** Equality modulo 65535, as an equation that [lia] can use. *)
Lemma congruent a b : a mod 65535 = b mod 65535 <-> exists q, a = b + 65535 * q.
Proof.
  split.
  - intros E. exists (a / 65535 - b / 65535). pose proof (Z.div_mod a 65535). pose proof (Z.div_mod b 65535). lia.
  - intros [q ->]. rewrite Z.mul_comm. apply Z_mod_plus_full.
Qed.

Lemma fold_step x : 0 <= x < 2 ^ 32 ->
  exists q, u32 (Z.land x 0xffff + Z.shiftr x 16) = x - 65535 * q /\ 0 <= x - 65535 * q <= 0x1fffe /\
    (x <= 0x1fffe -> x - 65535 * q < 2 ^ 16).
Proof.
  intros Hx. exists (x / 2 ^ 16). change 0xffff with (2 ^ 16 - 1). rewrite land_ones_mod, Z.shiftr_div_pow2 by lia.
  unfold u32. rewrite Z.mod_small; Z.div_mod_to_equations; lia.
Qed.

Lemma fold_spec c : 0 <= c < 2 ^ 32 ->
  0 <= pcn_csum_fold c < 2 ^ 16 /\ exists q, pcn_csum_fold c = - c + 65535 * q.
Proof.
  intros Hc. unfold pcn_csum_fold. split; [apply u16_range|]. cbv zeta.
  assert (u32 c = c) as -> by by apply Z.mod_small.
  destruct (fold_step c Hc) as (q1 & -> & H1 & _).
  destruct (fold_step (c - 65535 * q1)) as (q2 & -> & H2 & H3); [lia|].
  rewrite u16_lnot by lia. exists (1 + q1 + q2). lia.
Qed.

Lemma csum_add_spec a b : 0 <= a < 2 ^ 32 -> 0 <= b < 2 ^ 32 ->
  0 <= pcn_csum_add a b < 2 ^ 32 /\ exists q, pcn_csum_add a b = a + b + 65535 * q.
Proof.
  intros Ha Hb. unfold pcn_csum_add. split; [apply u32_range|]. unfold u32.
  destruct (Z.ltb_spec (a + b) (2 ^ 32)) as [Hl|Hl].
  - rewrite (Z.mod_small (a + b)) by lia. destruct (Z.ltb_spec (a + b) b); [lia|]. simpl Z.b2z.
    rewrite Z.mod_small by lia. exists 0. lia.
  - assert ((a + b) mod 2 ^ 32 = a + b - 2 ^ 32) as -> by (Z.div_mod_to_equations; lia).
    destruct (Z.ltb_spec (a + b - 2 ^ 32) b); [|lia]. simpl Z.b2z. rewrite Z.mod_small by lia. exists (-65537). lia.
Qed.

Lemma csum_diff_4_spec from to seed :
  0 <= from < 2 ^ 32 -> 0 <= to < 2 ^ 32 -> 0 <= seed < 2 ^ 32 ->
  0 <= csum_diff_4 from to seed < 2 ^ 32 /\ exists q, csum_diff_4 from to seed = seed + to - from + 65535 * q.
Proof.
  intros Hf Ht Hs.
  change (csum_diff_4 from to seed) with (pcn_csum_add (pcn_csum_add to (u32 (Z.lnot from))) seed).
  rewrite u32_lnot by done. destruct (csum_add_spec to (2 ^ 32 - 1 - from)) as (H1 & q1 & E1); [lia..|].
  destruct (csum_add_spec (pcn_csum_add to (2 ^ 32 - 1 - from)) seed) as (H2 & q2 & E2); [lia..|].
  split; [done|]. exists (65537 + q1 + q2). lia.
Qed.

#[export] Program Instance early_csum_diff : CsumDiff := {|
    bpf_csum_diff from to seed := csum_diff_4 from to seed;
  |}.
Next Obligation. intros. apply u32_range. Qed.
Next Obligation. intros. apply congruent. by apply csum_diff_4_spec. Qed.

Section lemmas.
Context `{CsumDiff}.

Lemma pcn_csum_diff_spec recent from to seed :
  0 <= from < 2 ^ 32 -> 0 <= to < 2 ^ 32 -> 0 <= seed < 2 ^ 32 ->
  0 <= pcn_csum_diff recent from 4 to 4 seed < 2 ^ 32 /\
  exists q, pcn_csum_diff recent from 4 to 4 seed = seed + to - from + 65535 * q.
Proof.
  intros Hf Ht Hs. unfold pcn_csum_diff. simpl. destruct recent; [|by apply csum_diff_4_spec].
  split; [apply bpf_csum_diff_range|]. apply congruent. by apply bpf_csum_diff_mod.
Qed.
End lemmas.

(** The new checksum makes up for the difference. *)
Lemma replace_by_diff_spec sum diff : 0 <= sum < 2 ^ 16 -> 0 <= diff < 2 ^ 32 ->
  0 <= pcn_csum_replace_by_diff sum diff < 2 ^ 16 /\
  exists q, pcn_csum_replace_by_diff sum diff = sum - diff + 65535 * q.
Proof.
  intros Hs Hd. unfold pcn_csum_replace_by_diff. rewrite u32_lnot by lia.
  destruct (csum_add_spec diff (2 ^ 32 - 1 - sum)) as (H1 & q1 & E1); [lia..|].
  destruct (fold_spec _ H1) as (H2 & q2 & E2). split; [done|]. rewrite E2, E1. exists (q2 - q1 - 65537). lia.
Qed.

(** The calls the services make: a difference, at an even offset in the packet. *)
Definition replaced (frame : list Z) (off : nat) (diff : Z) : list Z :=
  wr16 frame off (pcn_csum_replace_by_diff (rd16 frame off) diff).

Lemma l3_replace_run frame off diff :
  (off + 2 <= length frame)%nat -> bad_offset (Z.of_nat off) = false ->
  pcn_l3_csum_replace frame (Z.of_nat off) 0 diff 0 = (0, replaced frame off diff).
Proof.
  intros Hl Ho. unfold pcn_l3_csum_replace. rewrite Ho, Nat2Z.id. unfold beyond.
  destruct (Nat.ltb_spec (length frame) (off + 2)); [lia|]. done.
Qed.
Lemma l4_replace_run frame off diff flags :
  (off + 2 <= length frame)%nat -> bad_offset (Z.of_nat off) = false -> flags = 0 \/ flags = BPF_F_PSEUDO_HDR ->
  pcn_l4_csum_replace frame (Z.of_nat off) 0 diff flags = (0, replaced frame off diff).
Proof.
  intros Hl Ho Hf. unfold pcn_l4_csum_replace. rewrite Ho, Nat2Z.id. unfold beyond.
  destruct (Nat.ltb_spec (length frame) (off + 2)); [lia|]. by destruct Hf as [-> | ->].
Qed.

Lemma length_replaced f off diff : length (replaced f off diff) = length f.
Proof. apply length_wr16. Qed.
Lemma replaced_bytes f off diff : Forall is_byte f -> Forall is_byte (replaced f off diff).
Proof. apply wr16_bytes. Qed.

(** What an update does to a sum that covers the checksum. *)
Lemma sum16_replaced f o diff off n i :
  Forall is_byte f -> 0 <= diff < 2 ^ 32 -> o = (off + 2 * i)%nat -> (i < n)%nat -> (o + 1 < length f)%nat ->
  exists q, sum16 (replaced f o diff) off n = sum16 f off n - diff + 65535 * q.
Proof.
  intros Hb Hd Ho Hi Hl. unfold replaced.
  destruct (replace_by_diff_spec (rd16 f o) diff (rd16_range f o Hb) Hd) as (Hr & q & E).
  rewrite (sum16_in _ _ _ off n i) by done. exists q. lia.
Qed.

(** * The checksums of a packet without IP options *)
Definition IPPROTO_ICMP : Z := 1.
Definition IPPROTO_TCP : Z := 6.
Definition IPPROTO_UDP : Z := 17.
(** The least length of the L4 header of a protocol. *)
Definition l4_min (proto : Z) : nat := if proto =? IPPROTO_TCP then 20 else 8.

(** The bytes after the IP header that the total length of the packet counts. *)
Definition l4_length (f : list Z) : nat := Z.to_nat (bswap16 (rd16 f 16)) - 20.
Definition l4_sum (f : list Z) : Z := sum16 (take (34 + l4_length f) f) 34 ((l4_length f + 1) / 2).
Definition pseudo_sum (f : list Z) : Z :=
  sum16 f 26 4 + rd8 f 23 * 256 + bswap16 (Z.of_nat (l4_length f)).

(** Both checksums of a packet are right. *)
Record intact (f : list Z) : Prop := {
  in_ip : sum16 f 14 10 mod 65535 = 0;
  in_length : (l4_min (rd8 f 23) <= l4_length f)%nat /\ (34 + l4_length f <= length f)%nat;
  in_l4 : (l4_sum f + if rd8 f 23 =? IPPROTO_ICMP then 0 else pseudo_sum f) mod 65535 = 0;
}.

Lemma take_wr16 n f o x : take n (wr16 f o x) = wr16 (take n f) o x.
Proof.
  assert (forall (g : list Z) (i : nat) (b : Z), take n (<[i:=b]> g) = <[i:=b]> (take n g)) as Ht.
  { intros g i b. destruct (decide (i < n)%nat); [by rewrite take_insert_lt|].
    rewrite take_insert_ge by lia. by rewrite list_insert_ge by (rewrite length_take; lia). }
  unfold wr16. by rewrite !Ht.
Qed.
Lemma take_wr32 n f o x : take n (wr32 f o x) = wr32 (take n f) o x.
Proof. unfold wr32. by rewrite !take_wr16. Qed.
Lemma rd16_take n f o : (o + 2 <= n)%nat -> rd16 (take n f) o = rd16 f o.
Proof. intros Ho. unfold rd16, rd8. by rewrite !lookup_take_lt by lia. Qed.
Lemma take_replaced n f o d : (o + 2 <= n)%nat -> take n (replaced f o d) = replaced (take n f) o d.
Proof. intros Ho. unfold replaced. by rewrite take_wr16, rd16_take. Qed.

(** What is to be shown of a sum, once the differences are known. *)
Lemma still_zero a b : a mod 65535 = 0 -> (exists q, b = a + 65535 * q) -> b mod 65535 = 0.
Proof. intros Ha [q ->]. rewrite Z.mul_comm, Z_mod_plus_full. done. Qed.
