(* ===== verification/Tables.v ===== *)
(** libpolycube, HashTable (include/polycube/services/table.h, src/table.cpp): a
    BPF_MAP_TYPE_HASH seen from the control plane, which goes through it key by key
    with the kernel's first and next, and from a program. *)
From Stdlib Require Import ZArith Lia.
From stdpp Require Import base gmap sets list strings numbers.
From S2P Require Import Prelude.
From S2P Require Import Bpf.
#[local] Open Scope Z_scope.
#[local] Open Scope cpp_scope.

(** * The kernel's hash table

    [m_entries] lists the entries in the order in which the kernel goes through
    them; an update fails when there is no room for a new key. *)
Class BpfMap (K V T : Type) `{EqDecision K} := {
  m_new : Z -> T;
  m_entries : T -> list (K * V);
  m_free : T -> Z;
  m_lookup : T -> K -> option V;
  m_update : T -> K -> V -> option T;
  m_delete : T -> K -> option T;
  m_entries_new n : m_entries (m_new n) = [];
  m_free_new n : m_free (m_new n) = n;
  m_keys_unique t : NoDup (m_entries t).*1;
  m_lookup_spec t k v : m_lookup t k = Some v <-> (k, v) ∈ m_entries t;
  m_update_spec t k v :
    match m_update t k v with
    | Some t' => (0 < m_free t \/ is_Some (m_lookup t k)) /\
        m_free t' = m_free t - (if decide (is_Some (m_lookup t k)) then 0 else 1) /\
        forall k', m_lookup t' k' = if decide (k = k') then Some v else m_lookup t k'
    | None => m_lookup t k = None /\ m_free t <= 0
    end;
  m_delete_spec t k :
    match m_delete t k with
    | Some t' => is_Some (m_lookup t k) /\ m_free t' = m_free t + 1 /\
        forall k', m_lookup t' k' = if decide (k = k') then None else m_lookup t k'
    | None => m_lookup t k = None
    end;
}.

#[export] Program Instance gmap_map {K V} `{Countable K} : BpfMap K V (Z * gmap K V) := {|
    m_new n := (n, ∅);
    m_entries t := map_to_list t.2;
    m_free t := t.1 - Z.of_nat (size t.2);
    m_lookup t k := t.2 !! k;
    m_update t k v :=
      if decide (is_Some (t.2 !! k) \/ Z.of_nat (size t.2) < t.1) then Some (t.1, <[k := v]> t.2) else None;
    m_delete t k := if decide (is_Some (t.2 !! k)) then Some (t.1, delete k t.2) else None;
  |}.
Next Obligation. intros. apply map_to_list_empty. Qed.
Next Obligation. intros. cbn. rewrite map_size_empty. lia. Qed.
Next Obligation. intros. apply NoDup_fst_map_to_list. Qed.
Next Obligation. intros. cbn. by rewrite elem_of_map_to_list. Qed.
Next Obligation.
  intros K V ?? [n t] k v. cbn. destruct (decide _) as [Hd|Hd]; cbn.
  - split; [destruct Hd; [by right|left; lia]|]. split; [|intros k'; apply lookup_insert].
    rewrite map_size_insert. destruct (t !! k); cbn; case_decide as E; try lia; [by destruct E|]. by destruct E.
  - split; [apply eq_None_not_Some; tauto|lia].
Qed.
Next Obligation.
  intros K V ?? [n t] k. cbn. destruct (decide _) as [Hd|Hd]; cbn; [|by apply eq_None_not_Some].
  split; [done|]. split; [|intros k'; apply lookup_delete]. rewrite map_size_delete. destruct Hd as [v Hv]. rewrite Hv.
  assert (size t <> 0%nat); [|lia]. intros Hz%map_size_empty_inv. by rewrite Hz, lookup_empty in Hv.
Qed.

Section tables.
Context {K V T : Type} `{BpfMap K V T}.

(** bpf_map_get_next_key without a key, and with one: the key that comes after it,
    the first one when it is not in the table. *)
Definition m_first (t : T) : option K := fst <$> head (m_entries t).
Fixpoint key_after (l : list (K * V)) (k : K) : option K :=
  match l with
  | [] => None
  | (k', _) :: l => if decide (k' = k) then fst <$> head l else key_after l k
  end.
Definition m_next (t : T) (k : K) : option K :=
  if decide (k ∈ (m_entries t).*1) then key_after (m_entries t) k else m_first t.

(** ** A program's accesses: an update that fails changes nothing. *)
Definition bpf_update (t : T) (k : K) (v : V) : T := default t (m_update t k v).
Definition bpf_delete (t : T) (k : K) : T := default t (m_delete t k).

Lemma bpf_delete_lookup t k k' : m_lookup (bpf_delete t k) k' = if decide (k = k') then None else m_lookup t k'.
Proof.
  unfold bpf_delete. pose proof (m_delete_spec t k) as Hd. destruct (m_delete t k) as [t'|]; simpl; [apply Hd|].
  by case_decide as E; [subst|].
Qed.
Lemma bpf_update_lookup t k v k' :
  0 < m_free t \/ is_Some (m_lookup t k) ->
  m_lookup (bpf_update t k v) k' = if decide (k = k') then Some v else m_lookup t k'.
Proof.
  intros Hf. unfold bpf_update. pose proof (m_update_spec t k v) as Hu. destruct (m_update t k v) as [t'|]; simpl; [apply Hu|].
  destruct Hu as [E ?]. rewrite E in Hf. destruct Hf as [|[? [=]]]; lia.
Qed.
Lemma bpf_update_full t k v : m_lookup t k = None -> m_free t <= 0 -> bpf_update t k v = t.
Proof.
  intros Hl Hf. unfold bpf_update. pose proof (m_update_spec t k v) as Hu. destruct (m_update t k v) as [t'|]; [|done].
  destruct Hu as [[?|[? ?]] _]; [lia|congruence].
Qed.

(** ** HashTable: what a failed system call throws *)
Definition table_get (t : T) (k : K) : res V :=
  match m_lookup t k with Some v => Ok v | None => Throw (table_error "get" ENOENT) end.
Definition table_set (t : T) (k : K) (v : V) : res T :=
  match m_update t k v with Some t => Ok t | None => Throw (table_error "set" E2BIG) end.
Definition table_remove (t : T) (k : K) : res T :=
  match m_delete t k with Some t => Ok t | None => Throw (table_error "remove" ENOENT) end.

(** [do ret.emplace_back(key, get(key)); while (!next(&key, &key));] *)
Fixpoint get_all_from (fuel : nat) (t : T) (k : K) (ret : list (K * V)) : option (res (list (K * V))) :=
  match table_get t k with
  | Ok v =>
      match m_next t k with
      | None => Some (Ok (ret ++ [(k, v)]))
      | Some k' => match fuel with O => None | S fuel => get_all_from fuel t k' (ret ++ [(k, v)]) end
      end
  | Throw e => Some (Throw e)
  | Undefined => Some Undefined
  end.
Definition get_all (t : T) : option (res (list (K * V))) :=
  match m_first t with None => Some (Ok []) | Some k => get_all_from (length (m_entries t)) t k [] end.

(** [while (!first(&k)) remove(k);] *)
Fixpoint remove_all_from (fuel : nat) (t : T) : option (res T) :=
  match m_first t with
  | None => Some (Ok t)
  | Some k =>
      match table_remove t k with
      | Ok t => match fuel with O => None | S fuel => remove_all_from fuel t end
      | Throw e => Some (Throw e)
      | Undefined => Some Undefined
      end
  end.
Definition remove_all (t : T) : option (res T) := remove_all_from (length (m_entries t)) t.

(** ** Lemmas *)
Lemma key_after_app l k v l' :
  NoDup (l ++ (k, v) :: l').*1 -> key_after (l ++ (k, v) :: l') k = fst <$> head l'.
Proof.
  induction l as [|[k0 v0] l IH]; intros Hd; csimpl in *; [by rewrite decide_True|].
  apply list.NoDup_cons in Hd as [Hk Hd]. rewrite decide_False; [by apply IH|]. intros ->. apply Hk.
  rewrite fmap_app, elem_of_app. right. by left.
Qed.
Lemma m_next_at t l k v l' : m_entries t = l ++ (k, v) :: l' -> m_next t k = fst <$> head l'.
Proof.
  intros E. pose proof (m_keys_unique t) as Hd. unfold m_next. rewrite E in *. rewrite decide_True; [by apply key_after_app|].
  rewrite fmap_app, elem_of_app. right. by left.
Qed.
Lemma table_get_ok t k v : (k, v) ∈ m_entries t -> table_get t k = Ok v.
Proof. unfold table_get. by intros ->%m_lookup_spec. Qed.

Lemma get_all_from_run t l' : forall l k v fuel,
  m_entries t = l ++ (k, v) :: l' -> (length l' <= fuel)%nat -> get_all_from fuel t k l = Some (Ok (m_entries t)).
Proof.
  induction l' as [|[k' v'] l' IH]; intros l k v fuel E Hf; destruct fuel as [|fuel]; simpl in Hf; try lia; cbn [get_all_from];
    rewrite (table_get_ok t k v) by (rewrite E, elem_of_app; right; by left); rewrite (m_next_at t _ _ _ _ E); cbn [head fmap option_fmap option_map fst].
  - by rewrite E.
  - by rewrite E.
  - apply (IH _ k' v'); [by rewrite E, <- app_assoc|lia].
Qed.
(** Going through the table gives every entry once, in the kernel's order. *)
Lemma get_all_run t : get_all t = Some (Ok (m_entries t)).
Proof.
  unfold get_all, m_first. destruct (m_entries t) as [|[k v] l] eqn:E; [done|]. cbn [head fmap option_fmap option_map fst].
  rewrite <- E at 2. apply (get_all_from_run t l [] k v); [done|]. simpl. lia.
Qed.

Lemma m_entries_lookup t : m_entries t = [] <-> forall k, m_lookup t k = None.
Proof.
  split.
  - intros E k. destruct (m_lookup t k) as [v|] eqn:El; [|done]. apply m_lookup_spec in El. rewrite E in El. by apply elem_of_nil in El.
  - intros Hl. destruct (m_entries t) as [|[k v] l] eqn:E; [done|]. specialize (Hl k).
    rewrite (proj2 (m_lookup_spec t k v)) in Hl; [done|]. rewrite E. by left.
Qed.
Lemma elem_of_fsts {A B} (l : list (A * B)) a : a ∈ l.*1 <-> exists b, (a, b) ∈ l.
Proof.
  rewrite list_elem_of_fmap. split; [intros ([a' b] & -> & ?); by exists b|intros [b Hb]; by exists (a, b)].
Qed.
Lemma m_keys_lookup t k : k ∈ (m_entries t).*1 <-> is_Some (m_lookup t k).
Proof. rewrite elem_of_fsts. unfold is_Some. by setoid_rewrite m_lookup_spec. Qed.

(** A deletion takes one entry away. *)
Lemma m_delete_length t t' k : m_delete t k = Some t' -> length (m_entries t) = S (length (m_entries t')).
Proof.
  intros Hdel. pose proof (m_delete_spec t k) as Hd. rewrite Hdel in Hd. destruct Hd as (Hk & _ & Hl).
  assert ((m_entries t).*1 ≡ₚ k :: (m_entries t').*1) as Hp; [|by apply Permutation_length in Hp; rewrite !length_fmap in Hp; simpl in Hp; rewrite length_fmap in Hp].
  apply NoDup_Permutation; [apply m_keys_unique| |].
  - apply list.NoDup_cons. split; [|apply m_keys_unique]. rewrite m_keys_lookup, Hl, decide_True by done. by intros [? ?].
  - intros x. rewrite elem_of_cons, !m_keys_lookup, Hl. case_decide as E; [subst; tauto|]. split; [by right|by intros [->|]].
Qed.
(** An update adds an entry for a key that has none. *)
Lemma length_updated t t' k v :
  m_update t k v = Some t' -> length (m_entries t') = (length (m_entries t) + (if decide (is_Some (m_lookup t k)) then 0 else 1))%nat.
Proof.
  intros Hup. pose proof (m_update_spec t k v) as Hu. rewrite Hup in Hu. destruct Hu as (_ & _ & Hl).
  assert ((m_entries t').*1 ≡ₚ (if decide (is_Some (m_lookup t k)) then (m_entries t).*1 else k :: (m_entries t).*1)) as Hp.
  - apply NoDup_Permutation; [apply m_keys_unique| |].
    + case_decide as Hd; [apply m_keys_unique|]. apply list.NoDup_cons. split; [by rewrite m_keys_lookup|apply m_keys_unique].
    + intros x. case_decide as Hd; [|rewrite elem_of_cons]; rewrite !m_keys_lookup, Hl; case_decide as E; subst; naive_solver.
  - apply Permutation_length in Hp. case_decide; simpl in Hp; rewrite !length_fmap in Hp; lia.
Qed.

(** ** The room for entries, taken and free *)
Definition capacity (t : T) : Z := m_free t + Z.of_nat (length (m_entries t)).
Lemma capacity_new n : capacity (m_new n) = n.
Proof. unfold capacity. rewrite m_free_new, m_entries_new. simpl. lia. Qed.
Lemma capacity_update t t' k v : m_update t k v = Some t' -> capacity t' = capacity t.
Proof.
  intros Hup. unfold capacity. rewrite (length_updated t t' k v Hup). pose proof (m_update_spec t k v) as Hu. rewrite Hup in Hu.
  destruct Hu as (_ & -> & _). case_decide; lia.
Qed.
Lemma capacity_delete t t' k : m_delete t k = Some t' -> capacity t' = capacity t.
Proof.
  intros Hdel. unfold capacity. rewrite (m_delete_length t t' k Hdel). pose proof (m_delete_spec t k) as Hd. rewrite Hdel in Hd.
  destruct Hd as (_ & -> & _). lia.
Qed.
Lemma capacity_bpf_update t k v : capacity (bpf_update t k v) = capacity t.
Proof. unfold bpf_update. destruct (m_update t k v) eqn:E; [by eapply capacity_update|done]. Qed.
Lemma capacity_bpf_delete t k : capacity (bpf_delete t k) = capacity t.
Proof. unfold bpf_delete. destruct (m_delete t k) eqn:E; [by eapply capacity_delete|done]. Qed.
(** A table whose keys are all among fewer than it has room for takes another. *)
Lemma m_free_among `{!Countable K} (X : gset K) t :
  (forall k, is_Some (m_lookup t k) -> k ∈ X) -> Z.of_nat (size X) < capacity t -> 0 < m_free t.
Proof.
  intros HX Hs. unfold capacity in Hs. assert (length (m_entries t) <= size X)%nat; [|lia].
  rewrite <- (length_fmap fst), <- (size_list_to_set (C := gset K)) by apply m_keys_unique. apply subseteq_size. intros k.
  rewrite elem_of_list_to_set, m_keys_lookup. apply HX.
Qed.

(** Emptying the table ends, with no entry left. *)
Lemma remove_all_run t : exists t', remove_all t = Some (Ok t') /\ m_entries t' = [] /\ m_free t' = m_free t + Z.of_nat (length (m_entries t)).
Proof.
  unfold remove_all. remember (length (m_entries t)) as n eqn:En. revert t En. induction n as [|n IH]; intros t En; cbn [remove_all_from]; unfold m_first.
  - destruct (m_entries t) eqn:E; [|done]. exists t. split; [done|]. split; [done|lia].
  - destruct (m_entries t) as [|[k v] l] eqn:E; [done|]. cbn [head fmap option_fmap option_map fst].
    unfold table_remove. pose proof (m_delete_spec t k) as Hd. destruct (m_delete t k) as [t'|] eqn:Hdel.
    + destruct Hd as (_ & Hf & _). pose proof (m_delete_length t t' k Hdel) as Hlen. rewrite E in Hlen. simpl in *.
      destruct (IH t') as (t'' & -> & He & Hf''); [lia|]. exists t''. split; [done|]. split; [done|lia].
    + rewrite (proj2 (m_lookup_spec t k v)) in Hd; [done|]. rewrite E. by left.
Qed.
End tables.
