(* ===== verification/CubePorts.v ===== *)
(** libpolycube, the ports of a cube (include/polycube/services/cube.h): a service
    keeps its ports by name and by identifier, in step with the ports of the cube
    in the daemon, which gives out the identifiers. *)
From Stdlib Require Import ZArith Lia Ascii String.
From stdpp Require Import base gmap sets list strings numbers sorting.
From S2P Require Import Prelude.
#[local] Open Scope Z_scope.
#[local] Open Scope cpp_scope.

(** [try { m } catch (T &e) { h(e) }] *)
Definition try_catch_exn {S A} (p : exn -> bool) (m : M S A) (h : exn -> M S A) : M S A := fun s =>
  match m s with
  | (Throw e, s') => if p e then h e s' else (Throw e, s')
  | r => r
  end.
(** A method of an object that is part of another one. *)
Definition zoom {S T A} (proj : S -> T) (with_ : T -> S -> S) (m : M T A) : M S A := fun s =>
  let '(r, t) := m (proj s) in (r, with_ t s).

(** * What the daemon's cube promises to the service

    An identifier that is given out is not in use; a failed call leaves the ports
    as they were; a port that exists can be removed. *)
Class DaemonCube (D : Type) := {
  d_conf : Type;   (** what [conf.getBase()] returns *)
  d_ports : D -> gmap string Z;
  d_add_port : string -> d_conf -> M D Z;
  d_remove_port : string -> M D unit;
  d_set_conf : d_conf -> string -> M D unit;
  d_reload : string -> M D unit;
  d_ok : D -> Prop;   (** the invariant of the daemon's cube *)
  d_add_spec name conf d : d_ok d ->
    let '(r, d') := d_add_port name conf d in
    d_ok d' /\
    match r with
    | Ok id => 0 <= id < 2 ^ 16 /\ (forall n, d_ports d !! n <> Some id) /\ d_ports d' = <[name := id]> (d_ports d)
    | _ => d_ports d' = d_ports d
    end;
  d_remove_spec name d : d_ok d -> is_Some (d_ports d !! name) ->
    exists d', d_remove_port name d = (Ok tt, d') /\ d_ok d' /\ d_ports d' = delete name (d_ports d);
  d_set_conf_spec conf name d : d_ok d -> d_ok (d_set_conf conf name d).2 /\ d_ports (d_set_conf conf name d).2 = d_ports d;
  d_reload_spec code d : d_ok d -> d_ok (d_reload code d).2 /\ d_ports (d_reload code d).2 = d_ports d;
}.

(** What a port offers to its cube. *)
Class PortType (P : Type) := { name : P -> string; index : P -> Z }.

Section ports.
Context {P D : Type} `{PortType P} `{DaemonCube D}.

Record cube_ports := CubePorts {
  ports_by_name_ : gmap string P;
  ports_by_id_ : gmap Z P;
  daemon : D;
}.
Definition set_daemon (d : D) (s : cube_ports) : cube_ports := CubePorts (ports_by_name_ s) (ports_by_id_ s) d.
Definition on_daemon {A} (m : M D A) : M cube_ports A := zoom daemon set_daemon m.
(** [emplace] does not replace. *)
Definition emplace {K V} `{Countable K} (k : K) (v : V) (m : gmap K V) : gmap K V :=
  match m !! k with Some _ => m | None => <[k := v]> m end.

(** [make] is the port's constructor, given its identifier. *)
Definition add_port (port_name : string) (conf : d_conf) (make : Z -> res P) : M cube_ports P :=
  s <-- get ;;
  match ports_by_name_ s !! port_name with
  | Some _ => throw (RuntimeError ("Port " +:+ port_name +:+ " already exists"))
  | None =>
      id <-- on_daemon (d_add_port port_name conf) ;;
      try_catch_exn is_std_exception
        (port <-- lift (make id) ;;
         modify (fun s => CubePorts (emplace port_name port (ports_by_name_ s))
                                    (emplace (index port) port (ports_by_id_ s)) (daemon s)) ;;;
         on_daemon (d_set_conf conf (name port)) ;;;
         ret port)
        (fun e => on_daemon (d_remove_port port_name) ;;; throw e)
  end.

Definition remove_port (port_name : string) : M cube_ports unit :=
  s <-- get ;;
  match ports_by_name_ s !! port_name with
  | None => throw (RuntimeError ("Port " +:+ port_name +:+ " does not exist"))
  | Some port =>
      on_daemon (d_remove_port port_name) ;;;
      modify (fun s => CubePorts (delete port_name (ports_by_name_ s)) (delete (index port) (ports_by_id_ s)) (daemon s))
  end.

Definition get_port_by_name (port_name : string) (s : cube_ports) : res P :=
  match ports_by_name_ s !! port_name with
  | Some port => Ok port
  | None => Throw (RuntimeError ("Port " +:+ port_name +:+ " does not exist"))
  end.
Definition get_port_by_id (i : Z) (s : cube_ports) : res P :=
  match ports_by_id_ s !! i with
  | Some port => Ok port
  | None => Throw (RuntimeError ("Port id " +:+ to_string i +:+ " does not exist"))
  end.

(** The order of a [std::map]: by name. *)
Definition name_le (a b : string * P) : Prop := String.leb a.1 b.1 = true.
#[local] Instance name_le_dec : RelDecision name_le.
Proof. intros a b. unfold name_le. apply _. Defined.
Definition get_ports (s : cube_ports) : list P := (merge_sort name_le (map_to_list (ports_by_name_ s))).*2.

(** ** The three views of the ports agree *)
Record ports_ok (s : cube_ports) : Prop := {
  po_name : forall n p, ports_by_name_ s !! n = Some p -> name p = n;
  po_id : forall i p, ports_by_id_ s !! i = Some p <-> ports_by_name_ s !! name p = Some p /\ index p = i;
  po_daemon : d_ports (daemon s) = index <$> ports_by_name_ s;
  po_ok : d_ok (daemon s);
}.

Lemma elem_of_get_ports s p : ports_ok s -> p ∈ get_ports s <-> ports_by_name_ s !! name p = Some p.
Proof.
  intros [Hn _ _ _]. unfold get_ports. rewrite list_elem_of_fmap. setoid_rewrite (merge_sort_Permutation name_le).
  split; [intros ([n p'] & -> & Hp%elem_of_map_to_list); simpl; by rewrite (Hn _ _ Hp)|].
  intros Hp. exists (name p, p). split; [done|]. by apply elem_of_map_to_list.
Qed.

Lemma NoDup_get_ports s : ports_ok s -> NoDup (name <$> get_ports s).
Proof.
  intros [Hn _ _ _]. unfold get_ports. rewrite (merge_sort_Permutation name_le).
  assert (name <$> (map_to_list (ports_by_name_ s)).*2 = (map_to_list (ports_by_name_ s)).*1) as ->; [|apply NoDup_fst_map_to_list].
  rewrite <- list_fmap_compose. apply list_fmap_ext. intros i [n p] Hl%list_elem_of_lookup_2. apply elem_of_map_to_list in Hl. by apply Hn.
Qed.

Lemma index_inj s p q :
  ports_ok s -> ports_by_name_ s !! name p = Some p -> ports_by_name_ s !! name q = Some q -> index p = index q -> p = q.
Proof.
  intros Hok Hp Hq E. assert (ports_by_id_ s !! index p = Some p) as H1 by by apply (po_id s Hok).
  assert (ports_by_id_ s !! index p = Some q) as H2 by by apply (po_id s Hok). congruence.
Qed.

Lemma remove_port_run port_name s :
  ports_ok s ->
  match ports_by_name_ s !! port_name with
  | None => remove_port port_name s = (Throw (RuntimeError ("Port " +:+ port_name +:+ " does not exist")), s)
  | Some port => exists d, let s' := CubePorts (delete port_name (ports_by_name_ s)) (delete (index port) (ports_by_id_ s)) d in
      remove_port port_name s = (Ok tt, s') /\ ports_ok s'
  end.
Proof.
  intros Hok. pose proof Hok as [Hn Hi Hd Hdok]. unfold remove_port, bind, get, throw. destruct (ports_by_name_ s !! port_name) as [port|] eqn:Ep; [|done].
  destruct (d_remove_spec port_name (daemon s) Hdok) as (d & Er & Hdok' & Hr); [rewrite Hd, lookup_fmap, Ep; by eexists|].
  exists d. cbv zeta. unfold on_daemon, zoom. rewrite Er. split; [done|].
  split; cbn [ports_by_name_ ports_by_id_ daemon].
  - intros n p [_ Hp]%lookup_delete_Some. by apply Hn.
  - intros i p. rewrite lookup_delete_Some, lookup_delete_Some, Hi. pose proof (Hn _ _ Ep) as <-. split.
    + intros (Hne & Hp & <-). split; [|done]. split; [|done]. intros E. apply Hne. rewrite <- E in Hp. congruence.
    + intros [[Hne Hp] <-]. split; [|done]. intros E. apply Hne. f_equal. by apply (index_inj s).
  - by rewrite Hr, Hd, fmap_delete.
  - done.
Qed.

(** A port that is added is there, under an identifier that no other port has; a
    port that is refused leaves no trace. *)
Lemma add_port_run port_name conf make s :
  ports_ok s -> (forall i, exists p, make i = Ok p /\ name p = port_name /\ index p = i) ->
  (forall n d, exists d', d_set_conf conf n d = (Ok tt, d')) ->
  match add_port port_name conf make s with
  | (Ok p, s') => ports_ok s' /\ ports_by_name_ s !! port_name = None /\ 0 <= index p < 2 ^ 16 /\ name p = port_name /\
      ports_by_name_ s' = <[port_name := p]> (ports_by_name_ s) /\
      (forall q, ports_by_name_ s !! name q = Some q -> index q <> index p)
  | (_, s') => ports_ok s' /\ ports_by_name_ s' = ports_by_name_ s /\ ports_by_id_ s' = ports_by_id_ s
  end.
Proof.
  intros Hok Hmake Hconf. pose proof Hok as [Hn Hi Hd Hdok]. unfold add_port, bind, get, throw.
  destruct (ports_by_name_ s !! port_name) as [port|] eqn:Ep; [done|]. unfold on_daemon, zoom.
  pose proof (d_add_spec port_name conf (daemon s) Hdok) as Ha. destruct (d_add_port port_name conf (daemon s)) as [[id| |] d]; destruct Ha as [Hdok1 Ha]; cycle 1;
    [split; [split; simpl; [done|done|congruence|done]|done]..|].
  destruct Ha as (Hid & Hfree & Hd'). unfold try_catch_exn, lift, modify.
  destruct (Hmake id) as (p & Em & Hpn & Hpi). rewrite Em. cbn [daemon set_daemon ports_by_name_ ports_by_id_].
  destruct (d_set_conf_spec conf (name p) d Hdok1) as [Hdok2 Hc]. destruct (Hconf (name p) d) as [d' Ec]. rewrite Ec in Hc, Hdok2 |- *. cbn [snd] in Hc, Hdok2.
  cbn. unfold emplace. rewrite Ep.
  assert (forall q, ports_by_name_ s !! name q = Some q -> index q <> id) as Hne.
  { intros q Hq E. apply (Hfree (name q)). by rewrite Hd, lookup_fmap, Hq, <- E. }
  assert (ports_by_id_ s !! index p = None) as Ei.
  { destruct (ports_by_id_ s !! index p) as [q|] eqn:Eq; [|done]. apply Hi in Eq as [Hq Eq]. exfalso. apply (Hne q Hq). congruence. }
  rewrite Ei. split; [|split; [done|]; split; [by rewrite Hpi|]; split; [done|]; split; [done|]; intros q Hq; rewrite Hpi; by apply Hne].
  unfold set_daemon. cbn. split; cbn [ports_by_name_ ports_by_id_ daemon].
  - intros n q. rewrite lookup_insert_Some. intros [[<- <-]|[_ Hq]]; [done|by apply Hn].
  - intros i q. rewrite !lookup_insert_Some. split.
    + intros [[<- <-]|[Hni [Hq <-]%Hi]]; [split; [left|]; done|]. split; [|done]. right. split; [|done].
      intros E. rewrite <- E in Hq. by rewrite Ep in Hq.
    + intros [[[En <-]|[Hnn Hq]] <-]; [by left|]. right. split; [|by apply Hi]. rewrite Hpi. by apply not_eq_sym, Hne.
  - by rewrite Hc, Hd', Hd, fmap_insert, Hpi.
  - done.
Qed.
End ports.
Arguments cube_ports P D : clear implicits.
