(* ===== verification/DaemonPorts.v ===== *)
(** polycubed, identifiers and the ports of a cube (id_generator.cpp, cube.cpp): the
    daemon's side of a service's ports, for a cube without the shadow mode, and the
    proof that it keeps what it promises to the services. *)
From Stdlib Require Import ZArith Lia Ascii String.
From stdpp Require Import base gmap list strings numbers.
From S2P Require Import Prelude.
From S2P Require Import Vec.
From S2P Require Import CubePorts.
#[local] Open Scope Z_scope.
#[local] Open Scope cpp_scope.

(** * IDGenerator *)
Definition IDGenerator (size : Z) : list Z := set_range 0 (Z.to_nat size).
Definition acquire : M (list Z) Z :=
  elements_ <-- get ;;
  match elements_ with
  | [] => throw (RuntimeError "No free elements in IDGenerator")
  | v :: _ => modify (set_erase v) ;;; ret v
  end.
Definition release (v : Z) : M (list Z) unit := modify (set_insert v).

(** * The ports of a cube *)
Definition _POLYCUBE_MAX_PORTS : Z := 128.

Section cube.
(** What setting a port's peer, attaching what its configuration names, and loading a
    program do to the rest of the daemon. *)
Context {E : Type} (set_peer : string -> string -> M E unit) (attach : string -> string -> M E unit) (load : string -> M E unit).

Record port_conf := PortConf { c_peer : option string; c_tcubes : list string }.
Record dcube := DCube {
  free_ports_ : list Z;
  cube_ports_by_name_ : gmap string Z;
  ports_by_index_ : gmap Z string;
  rest : E;
}.
Definition set_rest (e : E) (s : dcube) : dcube := DCube (free_ports_ s) (cube_ports_by_name_ s) (ports_by_index_ s) e.
Definition set_free (l : list Z) (s : dcube) : dcube := DCube l (cube_ports_by_name_ s) (ports_by_index_ s) (rest s).
Definition set_maps (n : gmap string Z) (i : gmap Z string) (s : dcube) : dcube := DCube (free_ports_ s) n i (rest s).
Definition on_rest {A} (m : M E A) : M dcube A := zoom rest set_rest m.

Definition new_cube (e : E) : dcube := DCube (set_range 0 (Z.to_nat _POLYCUBE_MAX_PORTS)) ∅ ∅ e.

Definition allocate_port_id : M dcube Z :=
  s <-- get ;;
  match free_ports_ s with
  | [] => throw (RuntimeError "No free ports")
  | p :: _ => modify (fun s => set_free (set_erase p (free_ports_ s)) s) ;;; ret p
  end.
Definition release_port_id (id : Z) : M dcube unit := modify (fun s => set_free (set_insert id (free_ports_ s)) s).

(** [catch (...) { h; throw; }] *)
Definition cleanup {S A} (m : M S A) (h : M S unit) : M S A := fun s =>
  match m s with
  | (Throw e, s') => match h s' with (Ok _, s'') => (Throw e, s'') | (Throw e', s'') => (Throw e', s'') | (Undefined, s'') => (Undefined, s'') end
  | r => r
  end.

(** [if (conf.count("peer")) set_peer(conf.at("peer"))] *)
Definition conf_peer (name : string) (conf : port_conf) : M dcube unit :=
  match c_peer conf with Some p => on_rest (set_peer name p) | None => ret tt end.

Definition cube_add_port (name : string) (conf : port_conf) : M dcube Z :=
  s <-- get ;;
  match cube_ports_by_name_ s !! name with
  | Some _ => throw (RuntimeError ("Port " +:+ name +:+ " already exists"))
  | None =>
      id <-- allocate_port_id ;;
      modify (fun s => set_maps (emplace name id (cube_ports_by_name_ s)) (emplace id name (ports_by_index_ s)) s) ;;;
      cleanup (conf_peer name conf)
        (modify (fun s => set_maps (delete name (cube_ports_by_name_ s)) (delete id (ports_by_index_ s)) s)) ;;;
      ret id
  end.

Definition cube_remove_port (name : string) : M dcube unit :=
  s <-- get ;;
  match cube_ports_by_name_ s !! name with
  | None => throw (RuntimeError ("Port " +:+ name +:+ " does not exist"))
  | Some index =>
      on_rest (set_peer name "") ;;;
      modify (fun s => set_maps (delete name (cube_ports_by_name_ s)) (delete index (ports_by_index_ s)) s) ;;;
      release_port_id index
  end.

(** Port::set_conf *)
Definition port_set_conf (conf : port_conf) (name : string) : M dcube unit :=
  conf_peer name conf ;;;
  on_rest (for_each (c_tcubes conf) (fun t => attach t name)).

(** ** The identifiers in use and the free ones *)
Record cube_ids (s : dcube) : Prop := {
  ci_free : increasing (free_ports_ s);
  ci_range : forall i, i ∈ free_ports_ s -> 0 <= i < _POLYCUBE_MAX_PORTS;
  ci_used : forall n i, cube_ports_by_name_ s !! n = Some i -> 0 <= i < _POLYCUBE_MAX_PORTS /\ i ∉ free_ports_ s;
  ci_index : forall n i, cube_ports_by_name_ s !! n = Some i <-> ports_by_index_ s !! i = Some n;
}.

Lemma new_cube_ids e : cube_ids (new_cube e).
Proof.
  split; [apply increasing_range|intros i Hi; apply elem_of_range in Hi; unfold _POLYCUBE_MAX_PORTS in *; lia|done|].
  intros n i. simpl. rewrite !lookup_empty. done.
Qed.

Lemma on_rest_ids {A} (m : M E A) s : cube_ids s -> cube_ids (on_rest m s).2 /\ cube_ports_by_name_ (on_rest m s).2 = cube_ports_by_name_ s.
Proof. intros [Hf Hr Hu Hi]. unfold on_rest, zoom. destruct (m (rest s)) as [r e]. split; [by split|done]. Qed.

Lemma taken_ids name id l s :
  cube_ids s -> free_ports_ s = id :: l -> cube_ports_by_name_ s !! name = None ->
  ports_by_index_ s !! id = None /\ (forall n, cube_ports_by_name_ s !! n <> Some id) /\
  cube_ids (DCube l (<[name := id]> (cube_ports_by_name_ s)) (<[id := name]> (ports_by_index_ s)) (rest s)).
Proof.
  intros [Hf Hr Hu Hi] Efree Hn. rewrite Efree in *.
  assert (forall n, cube_ports_by_name_ s !! n <> Some id) as Hid.
  { intros n [_ Hx]%Hu. apply Hx. by left. }
  assert (ports_by_index_ s !! id = None) as Hni.
  { destruct (ports_by_index_ s !! id) as [n|] eqn:E'; [|done]. apply Hi in E'. by apply Hid in E'. }
  split; [done|]. split; [done|]. pose proof (increasing_NoDup _ Hf) as Hd. apply list.NoDup_cons in Hd as [Hnl _].
  split; cbn [free_ports_ cube_ports_by_name_ ports_by_index_].
  - apply Hf.
  - intros i Hl. apply Hr. by right.
  - intros n i. rewrite lookup_insert_Some. intros [[<- <-]|[_ [Hx Hy]%Hu]]; [split; [apply Hr; by left|done]|].
    split; [done|]. intros Hl. apply Hy. by right.
  - intros n i. rewrite !lookup_insert_Some, Hi. destruct (decide (name = n)) as [<-|Hne].
    + split; [intros [[_ ->]|[? _]]; [by left|done]|]. intros [[-> _]|[_ Hx]]; [by left|]. apply Hi in Hx. congruence.
    + split; [intros [[? _]|[_ Hx]]; [done|right; split; [|done]]|intros [[_ ?]|[_ Hx]]; [done|by right]].
      intros ->. congruence.
Qed.
Lemma released_ids name id s :
  cube_ids s -> cube_ports_by_name_ s !! name = Some id ->
  cube_ids (DCube (set_insert id (free_ports_ s)) (delete name (cube_ports_by_name_ s)) (delete id (ports_by_index_ s)) (rest s)).
Proof.
  intros [Hf Hr Hu Hi] Hn. pose proof (Hu _ _ Hn) as [Hid Hnf]. split; cbn [free_ports_ cube_ports_by_name_ ports_by_index_].
  - by apply increasing_insert.
  - intros i [->|Hx]%elem_of_insert; [done|by apply Hr].
  - intros n i [Hne Hx]%lookup_delete_Some. pose proof (Hu _ _ Hx) as [? ?]. split; [done|]. rewrite elem_of_insert. intros [->|?]; [|done].
    apply Hne. apply Hi in Hx, Hn. congruence.
  - intros n i. rewrite !lookup_delete_Some, Hi. split; intros [Hne Hx]; (split; [|done]).
    + intros ->. apply Hi in Hn. congruence.
    + intros ->. apply Hi in Hx. congruence.
Qed.
(** The daemon forgets the port but keeps its identifier when setting the peer fails. *)
Lemma leaked_ids name id s :
  cube_ids s -> cube_ports_by_name_ s !! name = Some id ->
  cube_ids (DCube (free_ports_ s) (delete name (cube_ports_by_name_ s)) (delete id (ports_by_index_ s)) (rest s)).
Proof.
  intros Hs Hn. destruct (released_ids name id s Hs Hn) as [_ _ Hu Hi]. pose proof Hs as [Hf Hr _ _]. split; try done.
  intros n i Hx. apply Hu in Hx as [Hx Hy]. split; [done|]. intros Hz. apply Hy, elem_of_insert. by right.
Qed.

Lemma cube_add_port_run name conf s :
  (forall n p e, (set_peer n p e).1 <> Undefined) -> cube_ids s ->
  let '(r, s') := cube_add_port name conf s in
  cube_ids s' /\
  match r with
  | Ok id => (0 <= id < _POLYCUBE_MAX_PORTS /\ forall i, i ∈ free_ports_ s -> id <= i) /\ (forall n, cube_ports_by_name_ s !! n <> Some id) /\
      cube_ports_by_name_ s' = <[name := id]> (cube_ports_by_name_ s)
  | _ => cube_ports_by_name_ s' = cube_ports_by_name_ s
  end.
Proof.
  intros Hdef Hs. unfold cube_add_port, bind, get, throw. destruct (cube_ports_by_name_ s !! name) as [i|] eqn:En; [done|].
  unfold allocate_port_id, bind, get, throw, modify, ret. destruct (free_ports_ s) as [|id l] eqn:Efree; [done|].
  destruct (taken_ids name id l s Hs Efree En) as (Hni & Hid & Hs1). pose proof Hs as [Hf Hr _ _]. rewrite Efree in *.
  unfold set_maps, set_free. cbn [free_ports_ cube_ports_by_name_ ports_by_index_ rest].
  rewrite ?Efree, (erase_head _ _ Hf). unfold emplace. rewrite En, Hni.
  set (s1 := DCube l _ _ _) in *. unfold cleanup, conf_peer.
  assert ((0 <= id < _POLYCUBE_MAX_PORTS /\ (forall i, i ∈ id :: l -> id <= i)) /\ (forall n, cube_ports_by_name_ s !! n <> Some id) /\
    cube_ports_by_name_ s1 = <[name := id]> (cube_ports_by_name_ s)) as Hok.
  { split; [|done]. split; [apply Hr; by left|]. intros i. by apply increasing_head. }
  destruct (c_peer conf) as [p|]; [|done]. destruct (on_rest_ids (set_peer name p) s1 Hs1) as [Hs2 Hn2].
  unfold on_rest, zoom in *. specialize (Hdef name p (rest s1)). destruct (set_peer name p (rest s1)) as [[[]|e|] e']; cbn [fst snd] in *; [done| |done].
  split.
  - apply (leaked_ids name id (set_rest e' s1)); [done|]. simpl. apply lookup_insert_eq.
  - simpl. by apply delete_insert_id.
Qed.
Lemma cube_remove_port_run name s :
  (forall n e, exists e', set_peer n "" e = (Ok tt, e')) -> cube_ids s -> is_Some (cube_ports_by_name_ s !! name) ->
  exists s', cube_remove_port name s = (Ok tt, s') /\ cube_ids s' /\ cube_ports_by_name_ s' = delete name (cube_ports_by_name_ s).
Proof.
  intros Hdown Hs [id Hn]. unfold cube_remove_port, bind, get. rewrite Hn. destruct (Hdown name (rest s)) as [e He].
  unfold on_rest, zoom. rewrite He. unfold modify, release_port_id, set_maps. eexists. split; [done|]. split; [|done].
  exact (released_ids name id (set_rest e s) (proj1 (on_rest_ids (fun _ => (Ok tt, e)) s Hs)) Hn).
Qed.
Lemma port_set_conf_ids conf name s : cube_ids s -> cube_ids (port_set_conf conf name s).2 /\ cube_ports_by_name_ (port_set_conf conf name s).2 = cube_ports_by_name_ s.
Proof.
  intros Hs. unfold port_set_conf, bind.
  assert (cube_ids (conf_peer name conf s).2 /\ cube_ports_by_name_ (conf_peer name conf s).2 = cube_ports_by_name_ s) as [Hs1 Hn1].
  { unfold conf_peer. destruct (c_peer conf); [by apply on_rest_ids|done]. }
  destruct (conf_peer name conf s) as [[a|e|] s1]; cbn [snd] in *; [|done|done].
  pose proof (on_rest_ids (for_each (c_tcubes conf) (fun t => attach t name)) s1 Hs1) as [Hs2 Hn2]. split; [done|]. by rewrite Hn2.
Qed.

(** ** What the services rely on: a peer can always be taken away *)
Context (set_peer_defined : forall n p e, (set_peer n p e).1 <> Undefined).
Context (set_peer_down : forall n e, exists e', set_peer n "" e = (Ok tt, e')).

#[export] Program Instance daemon_cube : DaemonCube dcube := {|
  d_conf := port_conf;
  d_ports := cube_ports_by_name_;
  d_add_port := cube_add_port;
  d_remove_port := cube_remove_port;
  d_set_conf := port_set_conf;
  d_reload code := on_rest (load code);
  d_ok := cube_ids;
|}.
Next Obligation.
  intros name conf d Hd. pose proof (cube_add_port_run name conf d set_peer_defined Hd) as Hr. destruct (cube_add_port name conf d) as [[id|e|] d'];
    destruct Hr as [Hok Hr]; (split; [done|]); [|done|done]. destruct Hr as ([Hid _] & Hn & Hm). unfold _POLYCUBE_MAX_PORTS in *. repeat split; try done; lia.
Qed.
Next Obligation. intros name d Hd Hn. by apply cube_remove_port_run. Qed.
Next Obligation. intros conf name d Hd. by apply port_set_conf_ids. Qed.
Next Obligation. intros code d Hd. by apply on_rest_ids. Qed.
End cube.
