(* ===== verification/Wiring.v ===== *)
(** polycubed, the wiring of service chains (port.cpp, extiface.cpp, peer_iface.cpp,
    transparent_cube.cpp, and Cube::update_forwarding_table of cube.cpp), for cubes in
    TC mode: which program runs after which, when ports are connected to each other
    or to network devices and transparent cubes are attached to them. *)
From Stdlib Require Import ZArith Lia Ascii String.
From stdpp Require Import base gmap list strings numbers sorting.
From S2P Require Import Prelude.
#[local] Open Scope Z_scope.
#[local] Open Scope cpp_scope.

Inductive ProgramType := INGRESS | EGRESS.
#[export] Instance ProgramType_eq_dec : EqDecision ProgramType.
Proof. solve_decision. Defined.

(** A port is known by its cube and its identifier there, a network device by a
    number; [PeerIface] is what they have in common. *)
Inductive PeerIface := APort (p : Z * Z) | AnIface (i : Z).
#[export] Instance PeerIface_eq_dec : EqDecision PeerIface.
Proof. solve_decision. Defined.

(** TransparentCube, Port, ExtIface and Cube: the fields that the wiring writes.  A
    change of a field that a program is compiled with reloads the program. *)
Record TransparentCube := TCube { ingress_next_ : Z; egress_next_ : Z; egress_next_is_netdev_ : bool }.
Record WPort := WPort_ { port_index_ : Z; peer_port_ : option PeerIface; p_cubes_ : list Z }.
Record ExtIface := Iface {
  peer_ : option PeerIface;
  if_ingress_next_ : Z;
  ingress_port_ : Z;
  if_egress_next_ : Z;
  egress_port_ : Z;
  ingress_program_ : option (Z * Z);   (** NEXT_PROGRAM and NEXT_PORT of the loaded program *)
  egress_program_ : option (Z * Z);
  i_cubes_ : list Z;
}.
Record WCube := WCube_ {
  forward_chain_ : gmap Z (Z * bool);
  _POLYCUBE_peers : gmap Z (Z * bool);
  egress_next : gmap Z Z;
  switch_ : ProgramType * Z -> list (Z * (Z * bool));   (** the switch that each loaded program was compiled with *)
}.
Record world := World {
  tcubes : Z -> TransparentCube;
  ports : Z * Z -> WPort;
  ifaces : Z -> ExtIface;
  cubes : Z -> WCube;
}.
Definition fresh_iface : ExtIface := Iface None 0xffff 0 0xffff 0 None None [].

Definition upd {K V} `{EqDecision K} (k : K) (v : V) (f : K -> V) : K -> V := fun x => if decide (x = k) then v else f x.
Definition set_tcube (t : Z) (v : TransparentCube) (w : world) : world := World (upd t v (tcubes w)) (ports w) (ifaces w) (cubes w).
Definition set_port (p : Z * Z) (v : WPort) (w : world) : world := World (tcubes w) (upd p v (ports w)) (ifaces w) (cubes w).
Definition set_iface (i : Z) (v : ExtIface) (w : world) : world := World (tcubes w) (ports w) (upd i v (ifaces w)) (cubes w).
Definition set_cube (c : Z) (v : WCube) (w : world) : world := World (tcubes w) (ports w) (ifaces w) (upd c v (cubes w)).

(** What does not change here: the patch panel's index of each program (0 when a cube
    has none in that direction), the number that the kernel gives a device, and the
    names of transparent cubes; which programs of a cube are loaded, in the order in
    which [reload_all] goes through them, and the exception, if any, with which one of
    them fails to compile or load with a given switch. *)
Class Programs := {
  cube_index : ProgramType -> Z -> Z;
  tcube_index : ProgramType -> Z -> Z;
  ifindex : Z -> Z;
  tcube_name : Z -> string;
  tcube_service : Z -> string;
  program_slots : Z -> list (ProgramType * Z);
  reload_error : Z -> ProgramType * Z -> list (Z * (Z * bool)) -> option exn;
}.
(** The programs compile and load again with any switch. *)
Class Reloads `{Programs} : Prop := reload_succeeds c k code : reload_error c k code = None.

Section wiring.
Context `{Programs}.

(** * TransparentCube *)
Definition next_of (type : ProgramType) (c : TransparentCube) : Z * bool :=
  match type with INGRESS => (ingress_next_ c, false) | EGRESS => (egress_next_ c, egress_next_is_netdev_ c) end.
Definition set_next (t next : Z) (type : ProgramType) (is_netdev : bool) : M world unit :=
  w <-- get ;;
  let c := tcubes w t in
  match type with
  | INGRESS =>
      if is_netdev then throw (RuntimeError "Ingress program of transparent cube can't be followed by a netdev")
      else if ingress_next_ c =? next then ret tt
      else modify (set_tcube t (TCube next (egress_next_ c) (egress_next_is_netdev_ c)))
  | EGRESS =>
      if (egress_next_ c =? next) && Bool.eqb (egress_next_is_netdev_ c) is_netdev then ret tt
      else modify (set_tcube t (TCube (ingress_next_ c) next is_netdev))
  end.

(** The loops of the [update_indexes] functions: each cube that has a program of the
    type is followed by the one before it in the list. *)
Fixpoint link (type : ProgramType) (cs : list Z) (next : Z) (is_netdev : bool) : M world (Z * bool) :=
  match cs with
  | [] => ret (next, is_netdev)
  | t :: cs =>
      if tcube_index type t =? 0 then link type cs next is_netdev
      else set_next t next type is_netdev ;;; link type cs (tcube_index type t) false
  end.

(** * Cube *)
(** The switch that [get_redirect_code] generates for the first ports. *)
Definition _MAX_OPTIMIZED_PORTS : nat := 17.
Definition by_port (a b : Z * (Z * bool)) : Prop := a.1 <= b.1.
#[local] Instance by_port_dec a b : Decision (by_port a b) := decide (a.1 <= b.1).
Definition get_redirect_code (s : WCube) : list (Z * (Z * bool)) :=
  take _MAX_OPTIMIZED_PORTS (merge_sort by_port (map_to_list (forward_chain_ s))).
(** [do_reload] for each program with the code that it has: it is compiled with the
    switch of that moment, and the old one stays when that fails. *)
Definition reload_all (c : Z) : M world unit := for_each (program_slots c) (fun k =>
  w <-- get ;;
  let s := cubes w c in
  let code := get_redirect_code s in
  match reload_error c k code with
  | Some e => throw e
  | None => modify (set_cube c (WCube_ (forward_chain_ s) (_POLYCUBE_peers s) (egress_next s) (upd k code (switch_ s))))
  end).
Definition update_forwarding_table (c port next : Z) (is_netdev : bool) : M world unit :=
  modify (fun w =>
    let s := cubes w c in
    set_cube c (if next =? 0 then WCube_ (delete port (forward_chain_ s)) (delete port (_POLYCUBE_peers s)) (egress_next s) (switch_ s)
                else WCube_ (<[port := (next, is_netdev)]> (forward_chain_ s)) (<[port := (next, is_netdev)]> (_POLYCUBE_peers s)) (egress_next s) (switch_ s)) w) ;;;
  reload_all c.
Definition set_egress_next (c port index : Z) : M world unit := modify (fun w =>
  let s := cubes w c in set_cube c (WCube_ (forward_chain_ s) (_POLYCUBE_peers s) (<[port := index]> (egress_next s)) (switch_ s)) w).

(** * What Port and ExtIface have in common *)
Definition get_index (x : PeerIface) (w : world) : Z :=
  match x with APort p => port_index_ (ports w p) | AnIface _ => 0xffff end.
Definition get_port_id (x : PeerIface) : Z :=
  match x with APort p => p.2 | AnIface i => u16 (ifindex i) end.
Definition get_peer_iface (x : PeerIface) (w : world) : option PeerIface :=
  match x with APort p => peer_port_ (ports w p) | AnIface i => peer_ (ifaces w i) end.
Definition cubes_ (x : PeerIface) (w : world) : list Z :=
  match x with APort p => p_cubes_ (ports w p) | AnIface i => i_cubes_ (ifaces w i) end.
Definition set_cubes_ (x : PeerIface) (l : list Z) (w : world) : world :=
  match x with
  | APort p => set_port p (WPort_ (port_index_ (ports w p)) (peer_port_ (ports w p)) l) w
  | AnIface i => let s := ifaces w i in
      set_iface i (Iface (peer_ s) (if_ingress_next_ s) (ingress_port_ s) (if_egress_next_ s) (egress_port_ s) (ingress_program_ s) (egress_program_ s) l) w
  end.

(** * Port *)
Definition update_parent_fwd_table (p : Z * Z) (next : Z) (is_netdev : bool) : M world unit :=
  w <-- get ;;
  let id := match peer_port_ (ports w p) with Some (APort q) => get_port_id (APort q) | _ => get_port_id (APort p) end in
  update_forwarding_table p.1 p.2 (Z.lor next (Z.shiftl id 16)) is_netdev.

Definition has_program (type : ProgramType) (t : Z) : bool := negb (tcube_index type t =? 0).

Definition Port_set_next_index (p : Z * Z) (index : Z) : M world unit :=
  if index =? 0 then ret tt
  else
    w <-- get ;;
    n <-- (if index =? 0xffff then
             match peer_port_ (ports w p) with Some x => ret (get_port_id x, true) | None => undefined end
           else ret (index, false)) ;;
    match find (has_program EGRESS) (rev (p_cubes_ (ports w p))) with
    | Some t => set_next t n.1 EGRESS n.2
    | None => update_parent_fwd_table p n.1 n.2
    end.

(** * ExtIface *)
(** [load_ingress], [load_egress] *)
Definition loaded (next port : Z) : option (Z * Z) := if next =? 0xffff then None else Some (next, port).
Definition iface_set_next (i next : Z) (type : ProgramType) : M world unit :=
  w <-- get ;;
  let s := ifaces w i in
  let port_id := match peer_ s with Some x => get_port_id x | None => 0 end in
  match type with
  | INGRESS =>
      if (next =? if_ingress_next_ s) && (port_id =? ingress_port_ s) then ret tt
      else modify (set_iface i (Iface (peer_ s) next port_id (if_egress_next_ s) (egress_port_ s) (loaded next port_id) (egress_program_ s) (i_cubes_ s)))
  | EGRESS =>
      if (next =? if_egress_next_ s) && (port_id =? egress_port_ s) then ret tt
      else modify (set_iface i (Iface (peer_ s) (if_ingress_next_ s) (ingress_port_ s) next port_id (ingress_program_ s) (loaded next port_id) (i_cubes_ s)))
  end.
(** The loop counts upwards from the last cube: it looks at that one only, and past
    the end of the vector after it. *)
Definition iface_set_next_index (i index : Z) : M world unit :=
  w <-- get ;;
  match last (i_cubes_ (ifaces w i)) with
  | Some t => if has_program INGRESS t then set_next t index INGRESS false else undefined
  | None => iface_set_next i index INGRESS
  end.
Definition iface_update_indexes (i : Z) : M world unit :=
  w <-- get ;;
  let s := ifaces w i in
  n <-- link INGRESS (rev (i_cubes_ s)) (match peer_ s with Some x => get_index x w | None => 0xffff end) false ;;
  iface_set_next i n.1 INGRESS ;;;
  n <-- link EGRESS (i_cubes_ s) 0xffff false ;;
  match peer_ s with
  | Some (APort q) =>
      if cube_index EGRESS q.1 =? 0 then iface_set_next i n.1 EGRESS
      else set_egress_next q.1 q.2 n.1 ;;; iface_set_next i (cube_index EGRESS q.1) EGRESS
  | _ => iface_set_next i n.1 EGRESS
  end.

Definition set_next_index (x : PeerIface) (index : Z) : M world unit :=
  match x with APort p => Port_set_next_index p index | AnIface i => iface_set_next_index i index end.

Definition Port_update_indexes (p : Z * Z) : M world unit :=
  w <-- get ;;
  n <-- link INGRESS (p_cubes_ (ports w p)) (cube_index INGRESS p.1) false ;;
  modify (fun w => set_port p (WPort_ n.1 (peer_port_ (ports w p)) (p_cubes_ (ports w p))) w) ;;;
  match peer_port_ (ports w p) with Some x => set_next_index x n.1 | None => ret tt end ;;;
  w <-- get ;;
  let next := match peer_port_ (ports w p) with Some x => get_index x w | None => 0 end in
  let start := if next =? 0xffff then (match peer_port_ (ports w p) with Some x => get_port_id x | None => 0 end, true) else (next, false) in
  n <-- link EGRESS (rev (p_cubes_ (ports w p))) start.1 start.2 ;;
  update_parent_fwd_table p n.1 n.2.

Definition update_indexes (x : PeerIface) : M world unit :=
  match x with APort p => Port_update_indexes p | AnIface i => iface_update_indexes i end.
Definition with_peer (x : PeerIface) (peer : option PeerIface) (w : world) : world :=
  match x with
  | APort p => set_port p (WPort_ (port_index_ (ports w p)) peer (p_cubes_ (ports w p))) w
  | AnIface i => let s := ifaces w i in
      set_iface i (Iface peer (if_ingress_next_ s) (ingress_port_ s) (if_egress_next_ s) (egress_port_ s) (ingress_program_ s) (egress_program_ s) (i_cubes_ s)) w
  end.
Definition set_peer_iface (x : PeerIface) (peer : option PeerIface) : M world unit := modify (with_peer x peer) ;;; update_indexes x.
Definition connect (x y : PeerIface) : M world unit := set_peer_iface x (Some y) ;;; set_peer_iface y (Some x).
Definition unconnect (x y : PeerIface) : M world unit := set_peer_iface x None ;;; set_peer_iface y None.

(** * PeerIface: attaching transparent cubes *)
Inductive CubePositionComparison := BEFORE | AFTER | EQUAL | UNKOWN.
Definition position_of (service : string) : option Z :=
  if String.eqb service "nat" then Some 0 else if String.eqb service "ddosmitigator" then Some 1 else None.
Definition compare_position (cube1 cube2 : string) : CubePositionComparison :=
  match position_of cube1, position_of cube2 with
  | Some pos1, Some pos2 => if pos1 <? pos2 then BEFORE else if pos2 <? pos1 then AFTER else UNKOWN
  | _, _ => UNKOWN
  end.
(** The first loop: the index, and whether the last comparison was unknown. *)
Fixpoint auto_below (service : string) (cs : list Z) (i index : Z) : Z * bool :=
  match cs with
  | [] => (index, false)
  | t :: cs =>
      match compare_position service (tcube_service t) with
      | AFTER => auto_below service cs (i + 1) (i + 1)
      | BEFORE | EQUAL => auto_below service cs (i + 1) index
      | UNKOWN => (index, true)
      end
  end.
(** The second loop, from the end: [cs] is reversed, [i] the index of its head. *)
Fixpoint auto_above (service : string) (cs : list Z) (i index : Z) : res Z :=
  match cs with
  | [] => Ok index
  | t :: cs =>
      match compare_position service (tcube_service t) with
      | BEFORE => auto_above service cs (i - 1) i
      | AFTER | EQUAL => auto_above service cs (i - 1) index
      | UNKOWN => Throw (RuntimeError "Impossible to determine auto position")
      end
  end.
Fixpoint index_of (name : string) (cs : list Z) : Z :=
  match cs with
  | [] => 0
  | t :: cs => if String.eqb (tcube_name t) name then 0 else 1 + index_of name cs
  end.
(** Where [add_cube] inserts; [other_index] is not set when there is no [other]. *)
Definition add_position (t : Z) (position other : string) (cs : list Z) : res Z :=
  let size := Z.of_nat (length cs) in
  let other_index := if String.eqb other "" then None else Some (index_of other cs) in
  if negb (String.eqb other "") && (0 =? size) then Throw (RuntimeError "Cube doesn't exist")
  else if String.eqb position "auto" then
    let '(index, unknown) := auto_below (tcube_service t) cs 0 0 in
    if unknown then auto_above (tcube_service t) (rev cs) (size - 1) index else Ok index
  else if String.eqb position "first" then Ok 0
  else if String.eqb position "last" then Ok size
  else if String.eqb position "before" then deref other_index
  else if String.eqb position "after" then o <~ deref other_index ;; Ok (o + 1)
  else Ok 0.
(** [insert] past the end of the vector is undefined. *)
Definition add_cube (x : PeerIface) (t : Z) (position other : string) : M world Z :=
  w <-- get ;;
  index <-- lift (add_position t position other (cubes_ x w)) ;;
  if Z.of_nat (length (cubes_ x w)) <? index then undefined
  else
    modify (set_cubes_ x (take (Z.to_nat index) (cubes_ x w) ++ t :: drop (Z.to_nat index) (cubes_ x w))) ;;;
    update_indexes x ;;;
    ret index.
Fixpoint erase_named (name : string) (cs : list Z) : option (list Z) :=
  match cs with
  | [] => None
  | t :: cs => if String.eqb (tcube_name t) name then Some cs else cons t <$> erase_named name cs
  end.
Definition remove_cube (x : PeerIface) (cube_name : string) : M world unit :=
  w <-- get ;;
  match erase_named cube_name (cubes_ x w) with
  | None => throw (RuntimeError "Cube doesn't exist")
  | Some l => modify (set_cubes_ x l) ;;; update_indexes x
  end.
End wiring.
