(* ===== verification/WiringPath.v ===== *)
(** polycubed, the path of a packet through a service chain: the wrappers around the
    programs of cubes and transparent cubes in TC mode (cube_tc.cpp,
    transparent_cube_tc.cpp, extiface_tc.cpp), which read what the wiring wrote. *)
From Stdlib Require Import ZArith Lia Ascii String.
From stdpp Require Import base gmap list strings numbers sorting.
From S2P Require Import Prelude.
From S2P Require Import Wiring.
#[local] Open Scope Z_scope.

(** A program in the patch panel, and what becomes of a packet: a standard cube gets
    it on a port, it is sent out of the device with a number, the kernel goes on with
    it, or it is dropped. *)
Inductive program := CubeProgram (type : ProgramType) (c : Z) | TCubeProgram (type : ProgramType) (t : Z).
Inductive outcome := Received (c in_port : Z) | Redirected (index : Z) | ToStack | Shot.
#[export] Instance program_eq_dec : EqDecision program.
Proof. solve_decision. Defined.
#[export] Instance outcome_eq_dec : EqDecision outcome.
Proof. solve_decision. Defined.

(** What the patch panel promises of its map: it holds each program at the program's
    index, and nothing at 0; [cube_id] is the number a cube is compiled with. *)
Class PatchPanel `{Programs} := {
  nodes : Z -> option program;
  cube_id : Z -> Z;
  nodes_zero : nodes 0 = None;
  nodes_cube type c : cube_index type c <> 0 -> nodes (cube_index type c) = Some (CubeProgram type c);
  nodes_tcube type t : tcube_index type t <> 0 -> nodes (tcube_index type t) = Some (TCubeProgram type t);
  cube_index_bounds type c : 0 <= cube_index type c < 0xffff;
  tcube_index_bounds type t : 0 <= tcube_index type t < 0xffff;
}.

Section path.
Context `{PatchPanel} (pass : program -> bool) (w : world).

(** The programs that see the packet, in order, and its fate.  [calls] is the number
    of tail calls the kernel still allows: after it a call fails, and the instruction
    after the call drops the packet.  [pass] says which programs return RX_OK. *)
Fixpoint call (calls : nat) (index cb : Z) : list program * outcome :=
  match calls, nodes index with
  | O, _ | _, None => ([], Shot)
  | S calls, Some (CubeProgram INGRESS c) => ([], Received c (Z.shiftr cb 16))
  | S calls, Some (CubeProgram EGRESS c as p) =>
      let r :=
        if pass p then
          let next := default 0 (egress_next (cubes w c) !! Z.shiftr cb 16) in
          if next =? 0 then ([], Shot) else if next =? 0xffff then ([], ToStack)
          else call calls next (Z.lor (Z.shiftl (Z.shiftr cb 16) 16) (cube_id c))
        else ([], Shot) in
      (p :: r.1, r.2)
  | S calls, Some (TCubeProgram type t as p) =>
      let r :=
        if pass p then
          let '(next, is_netdev) := next_of type (tcubes w t) in
          if is_netdev : bool then ([], Redirected next) else if next =? 0xffff then ([], ToStack) else call calls next cb
        else ([], Shot) in
      (p :: r.1, r.2)
  end.

Definition redirect_to (calls : nat) (val : Z * bool) : list program * outcome :=
  if val.2 then ([], Redirected (Z.land val.1 0xffff)) else call calls (Z.land val.1 0xffff) val.1.
(** [forward] in the program that is loaded in a slot of the cube, with the switch that
    this program was compiled with.  A case whose call fails falls through to the
    table. *)
Definition call_works (calls : nat) (index : Z) : bool := negb (calls =? 0)%nat && bool_decide (is_Some (nodes index)).
Definition forward (calls : nat) (c slot out_port : Z) : list program * outcome :=
  let fall_back :=
    match _POLYCUBE_peers (cubes w c) !! out_port with
    | Some peer_info => redirect_to calls peer_info
    | None => ([], Shot)
    end in
  match List.find (fun case => case.1 =? out_port) (switch_ (cubes w c) (INGRESS, slot)) with
  | Some (_, val) => if val.2 || call_works calls (Z.land val.1 0xffff) then redirect_to calls val else fall_back
  | None => fall_back
  end.

(** A device's own programs, for packets that come from it and that leave through it. *)
Definition handler (calls : nat) (p : option (Z * Z)) : list program * outcome :=
  match p with Some (NEXT_PROGRAM, NEXT_PORT) => call calls NEXT_PROGRAM (Z.shiftl NEXT_PORT 16) | None => ([], ToStack) end.
Definition receive (calls : nat) (i : Z) : list program * outcome := handler calls (ingress_program_ (ifaces w i)).
Definition transmit (calls : nat) (i : Z) : list program * outcome := handler calls (egress_program_ (ifaces w i)).
End path.

(** The reference: a packet goes through the programs of a list until one drops it. *)
Fixpoint through (pass : program -> bool) (l : list program) (rest : list program * outcome) : list program * outcome :=
  match l with
  | [] => rest
  | p :: l => let r := if pass p then through pass l rest else ([], Shot) in (p :: r.1, r.2)
  end.
