(* ===== verification/WiringFacts.v ===== *)
(** polycubed, facts on the wiring: what [link], [set_next_index] and [update_indexes]
    write, and what they leave alone. *)
From Stdlib Require Import ZArith Lia Ascii String.
From stdpp Require Import base gmap list strings numbers sorting.
From S2P Require Import Prelude.
From S2P Require Import Wiring.
From S2P Require Import WiringPath.
#[local] Open Scope Z_scope.

Section facts.
Context `{PatchPanel} {RL : Reloads}.
Implicit Types (w : world) (x y z : PeerIface) (p q : Z * Z) (cs : list Z) (s : Z * bool).
#[local] Abbreviation table := (Z -> TransparentCube).

(** * Chains *)
(** Each cube of [cs] that has a program is followed by the one before it, the first
    by [s]; [final] is where a packet enters. *)
Fixpoint chain (type : ProgramType) (cs : list Z) (s : Z * bool) (f : table) : Prop :=
  match cs with
  | [] => True
  | t :: cs =>
      if has_program type t then next_of type (f t) = s /\ chain type cs (tcube_index type t, false) f
      else chain type cs s f
  end.
Fixpoint final (type : ProgramType) (cs : list Z) (s : Z * bool) : Z * bool :=
  match cs with
  | [] => s
  | t :: cs => final type cs (if has_program type t then (tcube_index type t, false) else s)
  end.
Definition other (type : ProgramType) : ProgramType := match type with INGRESS => EGRESS | EGRESS => INGRESS end.
Definition set_tcubes (f : table) (w : world) : world := World f (ports w) (ifaces w) (cubes w).
Lemma set_tcubes_id w : set_tcubes (tcubes w) w = w.
Proof. by destruct w. Qed.

Lemma chain_ext type cs s (f g : table) : (forall t, t ∈ cs -> next_of type (f t) = next_of type (g t)) -> chain type cs s f -> chain type cs s g.
Proof.
  revert s. induction cs as [|t cs IH]; intros s Hfg; simpl; [done|].
  assert (next_of type (f t) = next_of type (g t)) as Ht by (apply Hfg; by left).
  assert (forall t', t' ∈ cs -> next_of type (f t') = next_of type (g t')) as Hcs by (intros; apply Hfg; by right).
  destruct (has_program type t); [intros [<- Hc]; split; [done|]|]; by apply IH.
Qed.
(** The head of a chain is the first cube with a program. *)
Lemma chain_head type cs s s' t (f g : table) :
  NoDup cs -> List.find (has_program type) cs = Some t -> next_of type (g t) = s' ->
  (forall t', t' <> t -> next_of type (g t') = next_of type (f t')) -> chain type cs s f -> chain type cs s' g.
Proof.
  intros Hnd Hf Hg Hgf. induction cs as [|t0 cs IH]; simpl in *; [done|]. apply list.NoDup_cons in Hnd as [Hn Hnd].
  destruct (has_program type t0); [|by apply IH]. injection Hf as ->. intros [_ Hc]. split; [done|].
  eapply chain_ext; [|done]. intros t' Ht'. symmetry. apply Hgf. by intros ->.
Qed.
Lemma chain_no_head type cs s s' (f : table) : List.find (has_program type) cs = None -> chain type cs s f -> chain type cs s' f.
Proof. induction cs as [|t cs IH]; simpl; [done|]. by destruct (has_program type t). Qed.
Lemma final_head type cs s s' t : List.find (has_program type) cs = Some t -> final type cs s = final type cs s'.
Proof. revert s s'. induction cs as [|t0 cs IH]; intros s s'; simpl; [done|]. destruct (has_program type t0); [done|by apply IH]. Qed.
Lemma final_no_head type cs s : List.find (has_program type) cs = None -> final type cs s = s.
Proof. induction cs as [|t cs IH]; simpl; [done|]. by destruct (has_program type t). Qed.
Lemma final_cases type cs s : final type cs s = s \/ exists t, t ∈ cs /\ has_program type t = true /\ final type cs s = (tcube_index type t, false).
Proof.
  revert s. induction cs as [|t cs IH]; intros s; simpl; [by left|]. destruct (has_program type t) eqn:Et.
  - right. destruct (IH (tcube_index type t, false)) as [->|(t' & ? & ? & ?)]; [exists t|exists t']; set_solver.
  - destruct (IH s) as [->|(t' & ? & ? & ?)]; [by left|]. right. exists t'. set_solver.
Qed.

(** A change of the [next] fields in one direction, of some cubes. *)
Definition next_changed (type : ProgramType) (cs : list Z) (f g : table) : Prop :=
  (forall t, t ∉ cs -> g t = f t) /\ (forall t, next_of (other type) (g t) = next_of (other type) (f t)).
Lemma next_changed_refl type cs f : next_changed type cs f f.
Proof. done. Qed.
Lemma next_changed_chain type cs cs' s f g : next_changed type cs f g -> chain (other type) cs' s f -> chain (other type) cs' s g.
Proof. intros [_ Hg]. apply chain_ext. auto. Qed.
Lemma next_changed_outside type cs type' cs' s f g :
  next_changed type cs f g -> (forall t, t ∈ cs -> t ∈ cs' -> False) -> chain type' cs' s f -> chain type' cs' s g.
Proof. intros [Hg _] Hd. apply chain_ext. intros t Ht. by rewrite Hg by naive_solver. Qed.

Lemma set_next_run t s type w : (type = INGRESS -> s.2 = false) -> exists g,
  set_next t s.1 type s.2 w = (Ok tt, set_tcubes g w) /\ next_changed type [t] (tcubes w) g /\ next_of type (g t) = s.
Proof.
  intros Hs. destruct s as [n nd]. unfold set_next, bind, get. simpl in *. destruct type; [rewrite Hs by done|]; simpl.
  - destruct (Z.eqb_spec (ingress_next_ (tcubes w t)) n) as [<-|].
    + exists (tcubes w). rewrite set_tcubes_id. done.
    + eexists. split; [reflexivity|]. unfold next_changed, upd. split; [split|]; intros; repeat case_decide; simplify_eq; set_solver.
  - destruct (_ && _) eqn:E.
    + apply andb_prop in E as [<-%Z.eqb_eq <-%Bool.eqb_prop]. exists (tcubes w). rewrite set_tcubes_id. done.
    + eexists. split; [reflexivity|]. unfold next_changed, upd. split; [split|]; intros; repeat case_decide; simplify_eq; set_solver.
Qed.
Lemma link_run type cs s w : NoDup cs -> (type = INGRESS -> s.2 = false) -> exists g,
  link type cs s.1 s.2 w = (Ok (final type cs s), set_tcubes g w) /\ next_changed type cs (tcubes w) g /\ chain type cs s g.
Proof.
  revert s w. induction cs as [|t cs IH]; intros s w Hnd Hs; simpl.
  - exists (tcubes w). rewrite set_tcubes_id. by destruct s.
  - apply list.NoDup_cons in Hnd as [Hn Hnd]. unfold has_program. destruct (Z.eqb_spec (tcube_index type t) 0) as [|]; simpl.
    + destruct (IH s w Hnd Hs) as (g & -> & [Hg1 Hg2] & Hc). exists g. repeat split; [|done..]. intros t' Ht'. apply Hg1. set_solver.
    + destruct (set_next_run t s type w Hs) as (g1 & H1 & [Hg1 Ho1] & Ht).
      destruct (IH (tcube_index type t, false) (set_tcubes g1 w) Hnd) as (g & H2 & [Hg Ho] & Hc); [done|]. simpl in H2.
      exists g. rewrite (bind_run _ _ _ _ _ H1), H2. split; [done|]. split; [split|split; [|done]].
      * intros t' Ht'. simpl in Hg. rewrite Hg, Hg1; set_solver.
      * intros t'. rewrite Ho. apply Ho1.
      * simpl in Hg. by rewrite Hg by done.
Qed.

(** * What belongs to a port or device, and what a method leaves alone *)
Definition fwd p w : option (Z * bool) := forward_chain_ (cubes w p.1) !! p.2.
Definition shape w w' : Prop := forall x, get_peer_iface x w' = get_peer_iface x w /\ cubes_ x w' = cubes_ x w.
Definition same_own z w w' : Prop :=
  (forall t, t ∈ cubes_ z w -> tcubes w' t = tcubes w t) /\
  match z with
  | APort p => ports w' p = ports w p /\ fwd p w' = fwd p w /\ egress_next (cubes w' p.1) !! p.2 = egress_next (cubes w p.1) !! p.2
  | AnIface i => ifaces w' i = ifaces w i
  end.
Definition frame (X : list PeerIface) w w' : Prop := shape w w' /\ forall z, z ∉ X -> same_own z w w'.
Definition distinct w : Prop :=
  (forall x, NoDup (cubes_ x w)) /\ (forall x y t, t ∈ cubes_ x w -> t ∈ cubes_ y w -> x = y).

Lemma frame_refl X w : frame X w w.
Proof. split; [done|]. intros [p|i] _; done. Qed.
Lemma frame_trans X w w' w'' : frame X w w' -> frame X w' w'' -> frame X w w''.
Proof.
  intros [S1 F1] [S2 F2]. split.
  - intros x. destruct (S1 x) as [<- <-]. apply S2.
  - intros z Hz. destruct (F1 z Hz) as [T1 R1], (F2 z Hz) as [T2 R2]. split.
    + intros t Ht. rewrite T2; [by apply T1|]. by rewrite (proj2 (S1 z)).
    + destruct z; [|congruence]. destruct R1 as (? & ? & ?), R2 as (? & ? & ?). repeat split; congruence.
Qed.
Lemma frame_mono X Y w w' : (forall z, z ∈ X -> z ∈ Y) -> frame X w w' -> frame Y w w'.
Proof. intros Hs [S F]. split; [done|]. intros z Hz. apply F. auto. Qed.
Lemma distinct_frame X w w' : frame X w w' -> distinct w -> distinct w'.
Proof.
  intros [S _] [Hn Hd]. split; [intros x; rewrite (proj2 (S x)); apply Hn|].
  intros x y t. rewrite (proj2 (S x)), (proj2 (S y)). apply Hd.
Qed.

Lemma frame_tcubes x type cs w g :
  distinct w -> next_changed type cs (tcubes w) g -> (forall t, t ∈ cs -> t ∈ cubes_ x w) -> frame [x] w (set_tcubes g w).
Proof.
  intros [_ Hd] [Hg _] Hcs. split; [by intros []|]. intros z Hz. split; [|by destruct z].
  intros t Ht. apply Hg. intros Hin%Hcs. apply Hz. rewrite (Hd z x t); set_solver.
Qed.

(** ** The primitive writes *)
Definition same_egress w w' : Prop := forall c, egress_next (cubes w' c) = egress_next (cubes w c).
Definition out_id p w : Z := match peer_port_ (ports w p) with Some (APort q) => q.2 | _ => p.2 end.
Definition entry_of (s : Z * bool) (id : Z) : option (Z * bool) :=
  let v := Z.lor s.1 (Z.shiftl id 16) in if v =? 0 then None else Some (v, s.2).
(** What a reload of a cube's programs changes, when they compile. *)
Record reloaded c w w' : Prop := {
  rl_tcubes : tcubes w' = tcubes w;
  rl_ports : ports w' = ports w;
  rl_ifaces : ifaces w' = ifaces w;
  rl_chain d : forward_chain_ (cubes w' d) = forward_chain_ (cubes w d);
  rl_peers d : _POLYCUBE_peers (cubes w' d) = _POLYCUBE_peers (cubes w d);
  rl_egress d : egress_next (cubes w' d) = egress_next (cubes w d);
  rl_switch d k : switch_ (cubes w' d) k = if decide (d = c /\ k ∈ program_slots c) then get_redirect_code (cubes w c) else switch_ (cubes w d) k;
}.
Lemma get_redirect_code_chain (a b : WCube) : forward_chain_ a = forward_chain_ b -> get_redirect_code a = get_redirect_code b.
Proof. unfold get_redirect_code. by intros ->. Qed.
Lemma reload_all_run c w : exists w', reload_all c w = (Ok tt, w') /\ reloaded c w w'.
Proof.
  unfold reload_all. assert (forall l w0, exists w', for_each l (fun k => bind get (fun w =>
      match reload_error c k (get_redirect_code (cubes w c)) with
      | Some e => throw e
      | None => modify (set_cube c (WCube_ (forward_chain_ (cubes w c)) (_POLYCUBE_peers (cubes w c)) (egress_next (cubes w c))
                 (upd k (get_redirect_code (cubes w c)) (switch_ (cubes w c))))) end)) w0 = (Ok tt, w') /\
    tcubes w' = tcubes w0 /\ ports w' = ports w0 /\ ifaces w' = ifaces w0 /\
    (forall d, forward_chain_ (cubes w' d) = forward_chain_ (cubes w0 d) /\ _POLYCUBE_peers (cubes w' d) = _POLYCUBE_peers (cubes w0 d) /\
       egress_next (cubes w' d) = egress_next (cubes w0 d)) /\
    (forall d k, switch_ (cubes w' d) k = if decide (d = c /\ k ∈ l) then get_redirect_code (cubes w0 c) else switch_ (cubes w0 d) k)) as Hgen.
  { induction l as [|k0 l IH]; intros w0.
    - exists w0. do 5 (split; [done|]). intros d k. rewrite decide_False by (intros [_ []%elem_of_nil]). done.
    - cbn [for_each]. unfold bind at 1 2, get. rewrite reload_succeeds. cbn [modify].
      match goal with |- exists w', for_each l _ ?w1 = _ /\ _ => destruct (IH w1) as (w' & Hr & Ht & Hp & Hi & Hf & Hs) end.
      exists w'. split; [exact Hr|]. do 3 (split; [done|]). split.
      + intros d. destruct (Hf d) as (-> & -> & ->). cbn. unfold upd. by case_decide; subst.
      + intros d k. rewrite Hs. cbn -[get_redirect_code]. unfold upd. rewrite (decide_True (P := c = c)) by done. cbn -[get_redirect_code].
        match goal with |- context [get_redirect_code (WCube_ ?a ?b ?e ?f)] => rewrite (get_redirect_code_chain (WCube_ a b e f) (cubes w0 c) eq_refl) end.
        destruct (decide (d = c)) as [->|Hd]; [|by rewrite !decide_False by (by intros [? _])]. cbn -[get_redirect_code].
        destruct (decide (k ∈ l)) as [Hk|Hk].
        * rewrite !decide_True by (split; [done|]; try done; by right). done.
        * rewrite (decide_False (P := _ /\ k ∈ l)) by (by intros [_ ?]). destruct (decide (k = k0)) as [->|Hk0].
          -- rewrite decide_True by (split; [done|by left]). done.
          -- rewrite decide_False; [done|]. intros [_ [->|Hin]%elem_of_cons]; done. }
  destruct (Hgen (program_slots c) w) as (w' & Hr & Ht & Hp & Hi & Hf & Hs). exists w'. split; [exact Hr|]. by split; [| | |intros d; apply Hf..|].
Qed.
Lemma update_forwarding_table_run c port next nd w :
  exists w', update_forwarding_table c port next nd w = (Ok tt, w') /\
    tcubes w' = tcubes w /\ ports w' = ports w /\ ifaces w' = ifaces w /\
    (forall d, forward_chain_ (cubes w' d) = if decide (d = c) then (if next =? 0 then delete port else <[port := (next, nd)]>) (forward_chain_ (cubes w c)) else forward_chain_ (cubes w d)) /\
    (forall d, _POLYCUBE_peers (cubes w' d) = if decide (d = c) then (if next =? 0 then delete port else <[port := (next, nd)]>) (_POLYCUBE_peers (cubes w c)) else _POLYCUBE_peers (cubes w d)) /\
    (forall d, egress_next (cubes w' d) = egress_next (cubes w d)) /\
    (forall d k, switch_ (cubes w' d) k = if decide (d = c /\ k ∈ program_slots c) then get_redirect_code (cubes w' c) else switch_ (cubes w d) k).
Proof.
  unfold update_forwarding_table. unfold bind at 1, modify.
  match goal with |- exists w', reload_all c ?w1 = _ /\ _ => destruct (reload_all_run c w1) as (w' & Hr & R) end.
  exists w'. split; [exact Hr|]. split; [apply R|]. split; [apply R|]. split; [apply R|].
  split; [|split; [|split]]; intros d; [rewrite (rl_chain _ _ _ R)|rewrite (rl_peers _ _ _ R)|rewrite (rl_egress _ _ _ R)|intros k; rewrite (rl_switch _ _ _ R)].
  - cbn. unfold upd. case_decide; [|done]. by destruct (next =? 0).
  - cbn. unfold upd. case_decide; [|done]. by destruct (next =? 0).
  - cbn. unfold upd. case_decide as E; [|done]. subst. by destruct (next =? 0).
  - rewrite (get_redirect_code_chain (cubes w' c) _ (rl_chain _ _ _ R c)). case_decide; [done|]. cbn. unfold upd. case_decide as E; [|done]. subst. by destruct (next =? 0).
Qed.
Lemma update_parent_run p s w : exists w',
  update_parent_fwd_table p s.1 s.2 w = (Ok tt, w') /\ fwd p w' = entry_of s (out_id p w) /\ frame [APort p] w w' /\
  tcubes w' = tcubes w /\ ports w' = ports w /\ ifaces w' = ifaces w /\ same_egress w w'.
Proof.
  unfold update_parent_fwd_table, bind, get.
  replace (match peer_port_ (ports w p) with Some (APort q) => get_port_id (APort q) | _ => get_port_id (APort p) end)
    with (out_id p w) by (unfold out_id; destruct (peer_port_ _) as [[]|]; done).
  destruct (update_forwarding_table_run p.1 p.2 (Z.lor s.1 (Z.shiftl (out_id p w) 16)) s.2 w) as (w' & Hr & Ht & Hp & Hi & Hf & _ & He & _).
  exists w'. split; [exact Hr|]. split; [|split; [|by repeat (split; [done|])]].
  - unfold fwd, entry_of. rewrite Hf, decide_True by done.
    destruct (_ =? 0); [apply lookup_delete_eq|apply lookup_insert_eq].
  - split; [intros [q|i]; simpl; by rewrite ?Hp, ?Hi|]. intros z Hz. split; [intros t _; by rewrite Ht|]. destruct z as [q|i]; [|by rewrite Hi].
    split; [by rewrite Hp|]. unfold fwd. rewrite Hf, He. split; [|done]. destruct (decide (q.1 = p.1)) as [E|]; [rewrite E|done].
    assert (p.2 <> q.2) as Hpq. { intros E2. apply Hz. replace q with p; [by left|]. destruct p, q; simpl in *; congruence. }
    destruct (_ =? 0); [by rewrite lookup_delete_ne|by rewrite lookup_insert_ne].
Qed.
Lemma set_egress_next_run p n w : exists w',
  set_egress_next p.1 p.2 n w = (Ok tt, w') /\ egress_next (cubes w' p.1) !! p.2 = Some n /\ (forall q, fwd q w' = fwd q w) /\
  frame [APort p] w w' /\ tcubes w' = tcubes w /\ ports w' = ports w /\ ifaces w' = ifaces w.
Proof.
  eexists. split; [reflexivity|]. split; [|split; [|split; [|done]]].
  - cbn -[upd]. unfold upd. rewrite decide_True by done. apply lookup_insert_eq.
  - intros q. unfold fwd. cbn -[upd]. unfold upd. by destruct (decide (q.1 = p.1)) as [->|].
  - split; [by intros []|]. intros z Hz. split; [done|]. destruct z as [q|i]; [|done]. split; [done|]. unfold fwd. cbn -[upd]. unfold upd.
    destruct (decide (q.1 = p.1)) as [E|]; [rewrite E|done]. split; [done|]. cbn. apply lookup_insert_ne.
    intros E2. apply Hz. replace q with p; [by left|]. destruct p, q; simpl in *; congruence.
Qed.

Definition peer_id (i : Z) w : Z := match peer_ (ifaces w i) with Some y => get_port_id y | None => 0 end.
Lemma frame_iface i (s' : ExtIface) w :
  peer_ s' = peer_ (ifaces w i) -> i_cubes_ s' = i_cubes_ (ifaces w i) -> frame [AnIface i] w (set_iface i s' w).
Proof.
  intros Hp Hc. split.
  - intros [p|j]; simpl; [done|]. unfold upd. by destruct (decide (j = i)) as [->|].
  - intros z Hz. split; [done|]. destruct z as [p|j]; [done|]. simpl. unfold upd. rewrite decide_False; [done|set_solver].
Qed.
Lemma iface_set_next_run i n type w : exists w', let s := ifaces w i in let s' := ifaces w' i in
  iface_set_next i n type w = (Ok tt, w') /\ frame [AnIface i] w w' /\ tcubes w' = tcubes w /\ ports w' = ports w /\ cubes w' = cubes w /\
  peer_ s' = peer_ s /\ i_cubes_ s' = i_cubes_ s /\
  match type with
  | INGRESS => if_ingress_next_ s' = n /\ ingress_port_ s' = peer_id i w /\
  if_egress_next_ s' = if_egress_next_ s /\ egress_port_ s' = egress_port_ s
  | EGRESS => if_egress_next_ s' = n /\ egress_port_ s' = peer_id i w /\
  if_ingress_next_ s' = if_ingress_next_ s /\ ingress_port_ s' = ingress_port_ s
  end.
Proof.
  unfold iface_set_next, bind, get. fold (peer_id i w). cbv zeta. destruct type.
  - destruct (_ && _) eqn:E.
    + apply andb_prop in E as [->%Z.eqb_eq ->%Z.eqb_eq]. exists w. split; [done|]. by split; [apply frame_refl|].
    + eexists. split; [reflexivity|]. split; [by apply frame_iface|]. simpl. unfold upd. by rewrite decide_True.
  - destruct (_ && _) eqn:E.
    + apply andb_prop in E as [->%Z.eqb_eq ->%Z.eqb_eq]. exists w. split; [done|]. by split; [apply frame_refl|].
    + eexists. split; [reflexivity|]. split; [by apply frame_iface|]. simpl. unfold upd. by rewrite decide_True.
Qed.

(** * What it means that a port or device is linked *)
(** The chain towards the peer ends in [s]; the other chain ends in the port's own
    cube, or leaves through the device. *)
Definition toward_type x : ProgramType := match x with APort _ => EGRESS | AnIface _ => INGRESS end.
Definition toward (s : Z * bool) x w : Prop :=
  chain (toward_type x) (rev (cubes_ x w)) s (tcubes w) /\
  let n := final (toward_type x) (rev (cubes_ x w)) s in
  match x with
  | APort p => fwd p w = entry_of n (out_id p w)
  | AnIface i => if_ingress_next_ (ifaces w i) = n.1 /\ ingress_port_ (ifaces w i) = peer_id i w
  end.
Definition away x w : Prop :=
  let s := match x with APort p => (cube_index INGRESS p.1, false) | AnIface _ => (0xffff, false) end in
  chain (other (toward_type x)) (cubes_ x w) s (tcubes w) /\
  let n := (final (other (toward_type x)) (cubes_ x w) s).1 in
  match x with
  | APort p => port_index_ (ports w p) = n
  | AnIface i =>
      egress_port_ (ifaces w i) = peer_id i w /\
  match peer_ (ifaces w i) with
      | Some (APort q) =>
          if cube_index EGRESS q.1 =? 0 then if_egress_next_ (ifaces w i) = n
          else egress_next (cubes w q.1) !! q.2 = Some n /\ if_egress_next_ (ifaces w i) = cube_index EGRESS q.1
      | _ => if_egress_next_ (ifaces w i) = n
      end
  end.
(** Where the chain towards the peer should end. *)
Definition start x w : Z * bool :=
  match x with
  | APort p =>
      match peer_port_ (ports w p) with
      | Some y => if get_index y w =? 0xffff then (get_port_id y, true) else (get_index y w, false)
      | None => (0, false)
      end
  | AnIface i => (match peer_ (ifaces w i) with Some y => get_index y w | None => 0xffff end, false)
  end.
Definition linked x w : Prop := away x w /\ toward (start x w) x w.

(** ** [linked] depends on what the port or device and its peer own *)
Definition same_links z w w' : Prop :=
  (forall t, t ∈ cubes_ z w -> tcubes w' t = tcubes w t) /\
  match z with APort p => ports w' p = ports w p /\ fwd p w' = fwd p w | AnIface i => ifaces w' i = ifaces w i end.
Lemma same_own_links z w w' : same_own z w w' -> same_links z w w'.
Proof. intros [Ht Hr]. split; [done|]. destruct z; [|done]. tauto. Qed.
Lemma elem_of_rev {A} (l : list A) a : a ∈ rev l <-> a ∈ l.
Proof. rewrite !list_elem_of_In. symmetry. apply in_rev. Qed.
Lemma same_links_cubes z w w' : same_links z w w' -> cubes_ z w' = cubes_ z w.
Proof. intros [_ Hr]. destruct z; simpl in *; [by rewrite (proj1 Hr)|by rewrite Hr]. Qed.
Lemma toward_own s z w w' : same_links z w w' -> toward s z w -> toward s z w'.
Proof.
  intros Hs [Hc Hr]. unfold toward. rewrite (same_links_cubes _ _ _ Hs). destruct Hs as [Ht Hz]. split.
  - eapply chain_ext; [|exact Hc]. intros t Hin. rewrite elem_of_rev in Hin. by rewrite Ht.
  - destruct z as [p|i]; [|unfold peer_id; by rewrite Hz]. destruct Hz as [Hp ->]. unfold out_id. by rewrite Hp.
Qed.
Lemma away_own z w w' :
  same_links z w w' -> (forall i q, z = AnIface i -> peer_ (ifaces w i) = Some (APort q) -> egress_next (cubes w' q.1) !! q.2 = egress_next (cubes w q.1) !! q.2) ->
  away z w -> away z w'.
Proof.
  intros Hs He [Hc Hr]. unfold away. rewrite (same_links_cubes _ _ _ Hs). destruct Hs as [Ht Hz]. split.
  - eapply chain_ext; [|exact Hc]. intros t Hin. by rewrite Ht.
  - destruct z as [p|i]; [by rewrite (proj1 Hz)|]. unfold peer_id. rewrite Hz. destruct Hr as [Hpid Hr]. split; [done|].
    destruct (peer_ (ifaces w i)) as [[q|j]|] eqn:E; [|done..]. by rewrite (He i q).
Qed.
Lemma start_own z w w' :
  same_links z w w' -> (forall q, get_peer_iface z w = Some (APort q) -> port_index_ (ports w' q) = port_index_ (ports w q)) -> start z w' = start z w.
Proof.
  intros [_ Hz] Hq. destruct z as [p|i]; simpl in *; [rewrite (proj1 Hz)|rewrite Hz].
  - destruct (peer_port_ (ports w p)) as [[q|j]|] eqn:E; [|done..]. simpl. by rewrite Hq.
  - destruct (peer_ (ifaces w i)) as [[q|j]|] eqn:E; [|done..]. simpl. by rewrite Hq.
Qed.
Definition outside (X : list PeerIface) w w' : Prop := forall z, z ∉ X -> same_own z w w'.
Lemma outside_trans X w w' w'' : outside X w w' -> outside X w' w'' -> outside X w w''.
Proof.
  intros F1 F2 z Hz. destruct (F1 z Hz) as [T1 R1], (F2 z Hz) as [T2 R2]. split.
  - intros t Ht. rewrite T2; [by apply T1|]. by rewrite (same_links_cubes z w w' (same_own_links _ _ _ (F1 z Hz))).
  - destruct z; [|congruence]. destruct R1 as (? & ? & ?), R2 as (? & ? & ?). repeat split; congruence.
Qed.
Lemma outside_mono X Y w w' : (forall z, z ∈ X -> z ∈ Y) -> outside X w w' -> outside Y w w'.
Proof. intros Hs F z Hz. apply F. auto. Qed.
Lemma linked_outside X z w w' :
  outside X w w' -> z ∉ X -> (forall y, get_peer_iface z w = Some y -> y ∉ X) -> linked z w -> linked z w'.
Proof.
  intros F Hz Hy [Ha Ht]. pose proof (same_own_links _ _ _ (F z Hz)) as Hs.
  split; [|rewrite (start_own z w w'); [by eapply toward_own|done|]].
  - eapply away_own; [done| |done]. intros i q -> Hq. by destruct (F (APort q) (Hy _ Hq)) as [_ (_ & _ & ->)].
  - intros q Hq. by destruct (F (APort q) (Hy _ Hq)) as [_ (-> & _)].
Qed.

(** * [set_next_index] *)
Definition ready x w : Prop :=
  match x with APort _ => True | AnIface i => forall t, t ∈ i_cubes_ (ifaces w i) -> has_program INGRESS t = true end.
Lemma rev_last {A} (l : list A) a : last l = Some a -> exists l', rev l = a :: l'.
Proof. intros [l' ->]%last_Some. rewrite rev_app_distr. simpl. eauto. Qed.
Lemma NoDup_rev_Z (l : list Z) : NoDup l -> NoDup (rev l).
Proof. rewrite !NoDup_ListNoDup. apply NoDup_rev. Qed.

(** The head of the chain towards the peer gets a new end. *)
Lemma toward_head s' x t w : distinct w ->
  List.find (has_program (toward_type x)) (rev (cubes_ x w)) = Some t -> (toward_type x = INGRESS -> s'.2 = false) -> exists w',
  set_next t s'.1 (toward_type x) s'.2 w = (Ok tt, w') /\ frame [x] w w' /\ ports w' = ports w /\ same_egress w w' /\
  (away x w -> away x w') /\ (forall s, toward s x w -> toward s' x w').
Proof.
  intros Hd Hf Hs. destruct (set_next_run t s' (toward_type x) w Hs) as (g & -> & Hg & Ht). eexists. split; [reflexivity|].
  pose proof Hf as [Hin Hp]%List.find_some. rewrite <- list_elem_of_In, elem_of_rev in Hin.
  assert (cubes_ x (set_tcubes g w) = cubes_ x w) as Ec by by destruct x.
  split; [|split; [done|split; [done|split]]].
  - eapply frame_tcubes; [done..|]. set_solver.
  - intros [Ha1 Ha2]. split; [|by destruct x]. rewrite Ec. by eapply next_changed_chain.
  - intros s [Hc Hr]. split; rewrite Ec.
    + eapply chain_head; [apply NoDup_rev_Z, Hd|done..| |exact Hc]. intros t' Ht'. simpl. f_equal. apply Hg. set_solver.
    + rewrite (final_head _ _ s' s t) by done. by destruct x.
Qed.
Lemma set_next_index_run x n w : distinct w -> ready x w -> n <> 0 -> n <> 0xffff -> exists w',
  set_next_index x n w = (Ok tt, w') /\ frame [x] w w' /\ ports w' = ports w /\ same_egress w w' /\
  (away x w -> away x w') /\ (forall s, toward s x w -> toward (n, false) x w').
Proof.
  intros Hd Hr Hn Hf. destruct x as [p|i]; simpl.
  - unfold Port_set_next_index. rewrite (proj2 (Z.eqb_neq n 0)), (proj2 (Z.eqb_neq n 0xffff)) by done.
    unfold bind, get, ret. cbn [fst snd]. destruct (List.find (has_program EGRESS) (rev (p_cubes_ (ports w p)))) as [t|] eqn:E.
    + destruct (toward_head (n, false) (APort p) t w Hd E) as (w' & Hrun & Hrest); [done|]. by exists w'.
    + destruct (update_parent_run p (n, false) w) as (w' & Hrun & Hw & Hfr & Ht & Hp & Hi & He). simpl in Hrun. exists w'. split; [done|].
      split; [done|]. split; [done|]. split; [done|]. unfold away, toward, out_id. simpl. rewrite Ht, Hp. split; [done|].
      intros s [Hc _]. split; [by eapply chain_no_head|]. rewrite final_no_head by done. exact Hw.
  - unfold iface_set_next_index, bind, get. destruct (last (i_cubes_ (ifaces w i))) as [t|] eqn:E.
    + destruct (rev_last _ _ E) as [l Hl]. assert (has_program INGRESS t = true) as Hp.
      { apply Hr, elem_of_rev. rewrite Hl. by left. }
      rewrite Hp. assert (List.find (has_program INGRESS) (rev (i_cubes_ (ifaces w i))) = Some t) as Ef by (by rewrite Hl; simpl; rewrite Hp).
      destruct (toward_head (n, false) (AnIface i) t w Hd Ef) as (w' & Hrun & Hrest); [done|]. by exists w'.
    + destruct (iface_set_next_run i n INGRESS w) as (w' & Hrun & Hfr & Ht & Hp & Hc & Hpe & Hcu & Hne & Hpo & He & Hep). exists w'.
      split; [done|]. split; [done|]. split; [done|]. split; [intros c; by rewrite Hc|]. apply last_None in E. unfold away, toward, peer_id. simpl. rewrite Ht, Hc, Hpe, Hcu, He, Hep, E. simpl.
      split; [done|]. intros s _. done.
Qed.
End facts.

Section update.
Context `{PatchPanel} {RL : Reloads}.
Implicit Types (w : world) (x y z : PeerIface) (p q : Z * Z) (cs : list Z) (s : Z * bool).

Definition peers x w : list PeerIface := match get_peer_iface x w with Some y => [y] | None => [] end.

(** A port belongs to a cube with a program for incoming packets. *)
Definition live x : Prop := match x with APort p => cube_index INGRESS p.1 <> 0 | AnIface _ => True end.
Lemma final_ingress p cs : live (APort p) -> let n := (final INGRESS cs (cube_index INGRESS p.1, false)).1 in n <> 0 /\ n <> 0xffff.
Proof.
  intros Hp n. unfold n. simpl in Hp. destruct (final_cases INGRESS cs (cube_index INGRESS p.1, false)) as [->|(t & _ & Ht & ->)]; simpl.
  - pose proof (cube_index_bounds INGRESS p.1). lia.
  - unfold has_program in Ht. pose proof (tcube_index_bounds INGRESS t). destruct (Z.eqb_spec (tcube_index INGRESS t) 0); [done|lia].
Qed.
Lemma same_links_tcubes x z type cs w g :
  distinct w -> next_changed type cs (tcubes w) g -> (forall t, t ∈ cs -> t ∈ cubes_ x w) -> z <> x -> same_links z w (set_tcubes g w).
Proof. intros Hd Hg Hcs Hz. apply same_own_links. eapply frame_tcubes; [done..|set_solver]. Qed.
Lemma away_tcubes z w g : next_changed (toward_type z) (rev (cubes_ z w)) (tcubes w) g -> away z w -> away z (set_tcubes g w).
Proof.
  intros Hg [Hc Hr]. unfold away. assert (cubes_ z (set_tcubes g w) = cubes_ z w) as -> by by destruct z.
  split; [by eapply next_changed_chain|by destruct z].
Qed.

(** The first half for a port: the chain into the cube. *)
Lemma port_in_run p w : distinct w -> exists w',
  let n := (final INGRESS (p_cubes_ (ports w p)) (cube_index INGRESS p.1, false)) in
  (forall (k : Z * bool -> M world unit), bind (link INGRESS (p_cubes_ (ports w p)) (cube_index INGRESS p.1) false)
     (fun n => bind (modify (fun w => set_port p (WPort_ n.1 (peer_port_ (ports w p)) (p_cubes_ (ports w p))) w)) (fun _ => k n)) w = k n w') /\
  frame [APort p] w w' /\ same_egress w w' /\ away (APort p) w' /\ port_index_ (ports w' p) = n.1.
Proof.
  intros Hd. destruct (link_run INGRESS (p_cubes_ (ports w p)) (cube_index INGRESS p.1, false) w) as (g & Hl & Hg & Hc); [apply (proj1 Hd (APort p))|done|].
  eexists. split; [intros k; rewrite (bind_run _ _ _ _ _ Hl); reflexivity|]. split; [|split; [done|]].
  - eapply (frame_trans _ _ (set_tcubes g w)); [by eapply frame_tcubes|]. split.
    + intros [q|i]; simpl; [|done]. unfold upd. by destruct (decide (q = p)) as [->|].
    + intros z Hz. split; [done|]. destruct z as [q|i]; [|done]. simpl. unfold upd. rewrite decide_False; [done|set_solver].
  - simpl. unfold away, upd. simpl. unfold upd. rewrite decide_True by done. done.
Qed.
(** The second half: the chain towards the peer. *)
Lemma port_out_run p w : distinct w -> exists w',
  (let next := match peer_port_ (ports w p) with Some x => get_index x w | None => 0 end in
   let start := if next =? 0xffff then (match peer_port_ (ports w p) with Some x => get_port_id x | None => 0 end, true) else (next, false) in
   bind (link EGRESS (rev (p_cubes_ (ports w p))) start.1 start.2) (fun n => update_parent_fwd_table p n.1 n.2)) w = (Ok tt, w') /\
  frame [APort p] w w' /\ same_egress w w' /\ ports w' = ports w /\
  (away (APort p) w -> away (APort p) w') /\ toward (start (APort p) w) (APort p) w'.
Proof.
  intros Hd. cbv zeta.
  replace (if _ =? 0xffff then _ else _) with (start (APort p) w).
  2: { simpl. destruct (peer_port_ (ports w p)); [by destruct (_ =? _)|done]. }
  set (st := start (APort p) w).
  destruct (link_run EGRESS (rev (p_cubes_ (ports w p))) st w) as (g & Hl & Hg & Hc); [apply NoDup_rev_Z, (proj1 Hd (APort p))|done|].
  destruct (update_parent_run p (final EGRESS (rev (p_cubes_ (ports w p))) st) (set_tcubes g w)) as (w' & Hu & Hf & Hfr & Ht & Hp & Hi & He).
  exists w'. rewrite (bind_run _ _ _ _ _ Hl), Hu. split; [done|]. split; [|split; [done|split; [done|split]]].
  - eapply frame_trans; [|exact Hfr]. eapply frame_tcubes; [done..|]. intros t. by rewrite elem_of_rev.
  - intros [Ha Hi']. unfold away. simpl in *. rewrite Hp, Ht. split; [|done]. by apply (next_changed_chain _ _ _ _ _ _ Hg).
  - unfold toward. simpl. rewrite Hp, Ht. split; [done|]. rewrite Hf. unfold out_id. simpl. by rewrite Hp.
Qed.

Lemma start_ports p w w' : ports w' = ports w -> start (APort p) w' = start (APort p) w.
Proof. intros E. simpl. rewrite E. destruct (peer_port_ (ports w p)) as [[q|j]|]; [|done..]. simpl. by rewrite E. Qed.
Lemma Port_update_run p w :
  distinct w -> live (APort p) -> (forall y, get_peer_iface (APort p) w = Some y -> y <> APort p /\ ready y w) -> exists w',
  Port_update_indexes p w = (Ok tt, w') /\ frame (APort p :: peers (APort p) w) w w' /\ same_egress w w' /\ linked (APort p) w' /\
  forall y, get_peer_iface (APort p) w = Some y ->
    (away y w -> away y w') /\ (forall s, toward s y w -> toward (port_index_ (ports w' p), false) y w').
Proof.
  intros Hd Hv Hy. destruct (port_in_run p w Hd) as (w1 & H1 & F1 & E1 & A1 & N1). cbv zeta in *.
  set (n := final INGRESS (p_cubes_ (ports w p)) (cube_index INGRESS p.1, false)) in *.
  pose proof (distinct_frame _ _ _ F1 Hd) as Hd1. destruct (final_ingress p (p_cubes_ (ports w p)) Hv) as [Hn0 Hnf]. fold n in Hn0, Hnf.
  unfold Port_update_indexes. unfold bind at 1. unfold get at 1. rewrite H1.
  assert (exists w2, (match peer_port_ (ports w p) with Some x => set_next_index x n.1 | None => ret tt end : M world unit) w1 = (Ok tt, w2) /\
    frame (peers (APort p) w) w1 w2 /\ same_egress w1 w2 /\ ports w2 = ports w1 /\ away (APort p) w2 /\
    forall y, get_peer_iface (APort p) w = Some y -> (away y w1 -> away y w2) /\ (forall s, toward s y w1 -> toward (n.1, false) y w2))
    as (w2 & H2 & F2 & E2 & P2 & A2 & Y2).
  { unfold peers. simpl in *. destruct (peer_port_ (ports w p)) as [y|] eqn:Ey; simpl.
    - destruct (Hy y eq_refl) as [Hne Hr]. assert (ready y w1) as Hr1.
      { destruct y as [q|i]; [done|]. simpl. destruct (F1) as [S1 _]. destruct (S1 (AnIface i)) as [_ Sc]. simpl in Sc. by rewrite Sc. }
      destruct (set_next_index_run y n.1 w1 Hd1 Hr1 Hn0 Hnf) as (w2 & H2 & F2 & P2 & E2 & Ha & Ht). exists w2.
      do 4 (split; [done|]). split; [|by intros ? [= <-]].
      apply (away_own _ w1); [|done|exact A1]. apply same_own_links, F2. set_solver.
    - exists w1. split; [done|]. split; [apply frame_refl|]. done. }
  rewrite (bind_run _ _ _ _ _ H2). unfold bind at 1. unfold get at 1.
  destruct (port_out_run p w2 (distinct_frame _ _ _ F2 Hd1)) as (w3 & H3 & F3 & E3 & P3 & A3 & T3).
  exists w3. split; [exact H3|]. split; [|split; [|split; [split|]]].
  - eapply frame_trans; [|eapply frame_trans].
    + eapply frame_mono; [|exact F1]. set_solver.
    + eapply frame_mono; [|exact F2]. set_solver.
    + eapply frame_mono; [|exact F3]. set_solver.
  - intros c. by rewrite E3, E2, E1.
  - by apply A3.
  - by rewrite (start_ports p w2 w3).
  - intros y Ey. destruct (Y2 y Ey) as [Ya Yt]. rewrite P3, P2, N1.
    assert (y <> APort p) as Hne by by apply Hy.
    pose proof (same_own_links _ _ _ (proj2 F1 y ltac:(set_solver))) as L1. pose proof (same_own_links _ _ _ (proj2 F3 y ltac:(set_solver))) as L3.
    split.
    + intros Ha. apply (away_own _ w2); [exact L3|by intros; rewrite E3|]. apply Ya. apply (away_own _ w); [exact L1|by intros; rewrite E1|done].
    + intros s Ht. eapply toward_own; [exact L3|]. eapply Yt. eapply toward_own; [exact L1|done].
Qed.

(** A device: the chain towards its peer, then the one that leaves through it. *)
Lemma iface_in_run i w : distinct w -> exists w',
  (forall k : M world unit, bind (link INGRESS (rev (i_cubes_ (ifaces w i))) (match peer_ (ifaces w i) with Some x => get_index x w | None => 0xffff end) false)
     (fun n => bind (iface_set_next i n.1 INGRESS) (fun _ => k)) w = k w') /\
  frame [AnIface i] w w' /\ ports w' = ports w /\ cubes w' = cubes w /\ toward (start (AnIface i) w) (AnIface i) w'.
Proof.
  intros Hd. set (st := start (AnIface i) w). change (match peer_ (ifaces w i) with Some _ => _ | None => _ end) with st.1. change false with st.2.
  destruct (link_run INGRESS (rev (i_cubes_ (ifaces w i))) st w) as (g & Hl & Hg & Hc); [apply NoDup_rev_Z, (proj1 Hd (AnIface i))|done|].
  destruct (iface_set_next_run i (final INGRESS (rev (i_cubes_ (ifaces w i))) st).1 INGRESS (set_tcubes g w))
    as (w' & Hrun & Hfr & Ht & Hp & Hcu & Hpe & Hcs & Hn & Hpo & _). simpl in *.
  exists w'. split; [intros k; by rewrite (bind_run _ _ _ _ _ Hl), (bind_run _ _ _ _ _ Hrun)|].
  split; [|split; [done|split; [done|]]].
  - eapply frame_trans; [|exact Hfr]. eapply frame_tcubes; [done..|]. intros t. by rewrite elem_of_rev.
  - unfold toward. simpl. rewrite Hcs, Ht. split; [done|]. split; [done|]. rewrite Hpo. unfold peer_id. simpl. by rewrite Hpe.
Qed.
Lemma iface_out_run i w : distinct w -> exists w',
  bind (link EGRESS (i_cubes_ (ifaces w i)) 0xffff false) (fun n =>
    match peer_ (ifaces w i) with
    | Some (APort q) =>
        if cube_index EGRESS q.1 =? 0 then iface_set_next i n.1 EGRESS
        else bind (set_egress_next q.1 q.2 n.1) (fun _ => iface_set_next i (cube_index EGRESS q.1) EGRESS)
    | _ => iface_set_next i n.1 EGRESS
    end) w = (Ok tt, w') /\
  frame (AnIface i :: peers (AnIface i) w) w w' /\ ports w' = ports w /\ (forall q, fwd q w' = fwd q w) /\
  (forall t, t ∉ i_cubes_ (ifaces w i) -> tcubes w' t = tcubes w t) /\
  away (AnIface i) w' /\ (forall s, toward s (AnIface i) w -> toward s (AnIface i) w').
Proof.
  intros Hd. set (cs := i_cubes_ (ifaces w i)). set (s0 := (0xffff, false) : Z * bool).
  destruct (link_run EGRESS cs s0 w) as (g & Hl & Hg & Hc); [apply (proj1 Hd (AnIface i))|done|].
  set (n := (final EGRESS cs s0).1). set (w1 := set_tcubes g w) in *.
  assert (frame [AnIface i] w w1) as F1 by by eapply frame_tcubes.
  assert (exists w2 m, (match peer_ (ifaces w i) with
     | Some (APort q) => if cube_index EGRESS q.1 =? 0 then ret n
         else bind (set_egress_next q.1 q.2 n) (fun _ => ret (cube_index EGRESS q.1))
     | _ => ret n end) w1 = (Ok m, w2) /\
    frame (peers (AnIface i) w) w1 w2 /\ tcubes w2 = g /\ ports w2 = ports w /\ ifaces w2 = ifaces w /\ (forall q, fwd q w2 = fwd q w) /\
    match peer_ (ifaces w i) with
    | Some (APort q) => if cube_index EGRESS q.1 =? 0 then m = n
        else egress_next (cubes w2 q.1) !! q.2 = Some n /\ m = cube_index EGRESS q.1
    | _ => m = n end) as (w2 & m & H2 & F2 & T2 & P2 & I2 & W2 & R2).
  { unfold peers. simpl. destruct (peer_ (ifaces w i)) as [[q|j]|]; [destruct (_ =? 0)| |]; try (exists w1, n; repeat (split; [done|]); split; [apply frame_refl|done]).
    destruct (set_egress_next_run q n w1) as (w2 & H2 & He & Hf & Hfr & Ht & Hp & Hi). exists w2, (cube_index EGRESS q.1).
    rewrite (bind_run _ _ _ _ _ H2). by repeat (split; [done|]). }
  destruct (iface_set_next_run i m EGRESS w2) as (w3 & Hrun & Hfr & Ht & Hp & Hcu & Hpe & Hcs & Hn & Hpo & Hn' & Hpo').
  exists w3. split; [|split; [|split; [|split; [|split; [|split]]]]].
  - change (i_cubes_ (ifaces w i)) with cs. rewrite (bind_run _ _ _ _ _ Hl). fold n.
    clear - H2 Hrun. destruct (peer_ (ifaces w i)) as [[q|j]|]; [destruct (_ =? 0)| |]; injection H2 as <- <-; exact Hrun.
  - eapply frame_trans; [eapply frame_mono; [|exact F1]; set_solver|]. eapply frame_trans; [eapply frame_mono; [|exact F2]; set_solver|].
    eapply frame_mono; [|exact Hfr]. set_solver.
  - by rewrite Hp, P2.
  - intros q. unfold fwd. rewrite Hcu. apply W2.
  - intros t Hin. rewrite Ht, T2. by apply Hg.
  - unfold away. simpl. rewrite Ht, T2, Hcs, I2. split; [exact Hc|]. unfold peer_id in *. rewrite Hpe, I2 in *. split; [done|]. fold cs s0 n.
    rewrite Hcu, Hn. exact R2.
  - intros s [Hch [H1 H3]]. unfold toward. simpl in *. rewrite Ht, T2, Hcs, Hn', Hpo', I2. split; [|split; [done|]].
    + by apply (next_changed_chain _ _ _ _ _ _ Hg).
    + unfold peer_id in *. by rewrite Hpe, I2.
Qed.
Lemma iface_update_run i w :
  distinct w -> exists w',
  iface_update_indexes i w = (Ok tt, w') /\ frame (AnIface i :: peers (AnIface i) w) w w' /\ linked (AnIface i) w' /\ ports w' = ports w /\
  forall q, get_peer_iface (AnIface i) w = Some (APort q) ->
    (away (APort q) w -> away (APort q) w') /\ (forall s, toward s (APort q) w -> toward s (APort q) w').
Proof.
  intros Hd. destruct (iface_in_run i w Hd) as (w1 & H1 & F1 & P1 & C1 & T1).
  destruct (F1) as [S1 _]. destruct (S1 (AnIface i)) as [Sp Sc]. simpl in Sp, Sc.
  destruct (iface_out_run i w1 (distinct_frame _ _ _ F1 Hd)) as (w2 & H2 & F2 & P2 & W2 & G2 & A2 & T2). rewrite Sp, Sc in H2.
  exists w2. unfold iface_update_indexes. unfold bind at 1. unfold get at 1. rewrite H1. split; [exact H2|].
  split; [|split; [split; [done|]|split; [by rewrite P2, P1|]]].
  - eapply frame_trans; [eapply frame_mono; [|exact F1]; set_solver|]. unfold peers in *. simpl in *. by rewrite Sp in F2.
  - replace (start (AnIface i) w2) with (start (AnIface i) w); [by apply T2|]. simpl. pose proof (proj1 (proj1 F2 (AnIface i))) as Sp2. simpl in Sp2.
    rewrite Sp2, Sp. destruct (peer_ (ifaces w i)) as [[q|j]|]; [|done..]. simpl. by rewrite P2, P1.
  - intros q Hq. assert (same_links (APort q) w w2) as Hs.
    { split; [|split; [by rewrite P2, P1|by rewrite W2; unfold fwd; rewrite C1]]. intros t Ht.
      assert (t ∉ i_cubes_ (ifaces w i)) as Hn by (intros Hin; by pose proof (proj2 Hd (APort q) (AnIface i) t Ht Hin)).
      rewrite G2 by by rewrite Sc. by apply (proj1 (proj2 F1 (APort q) ltac:(set_solver))). }
    split; [by apply (away_own _ w)|]. intros s. by apply (toward_own s _ w).
Qed.

Definition ok_peer x w : Prop := forall y, get_peer_iface x w = Some y ->
  y <> x /\ match x with APort _ => ready y w | AnIface _ => exists q, y = APort q end.
(** What the peer of [x] has when [x] is linked: only the end of its chain towards [x] may be wrong. *)
Definition half_linked y x w : Prop := away y w /\ exists s, toward s y w /\ match x with APort _ => True | AnIface _ => s = start y w end.
Lemma linked_half y x w : linked y w -> half_linked y x w.
Proof. intros [Ha Ht]. split; [done|]. exists (start y w). by destruct x. Qed.

Lemma update_indexes_run x w : distinct w -> live x -> ok_peer x w -> exists w',
  update_indexes x w = (Ok tt, w') /\ frame (x :: peers x w) w w' /\ linked x w' /\
  forall y, get_peer_iface x w = Some y -> get_peer_iface y w = Some x -> half_linked y x w -> linked y w'.
Proof.
  intros Hd Hv Hok. destruct x as [p|i].
  - destruct (Port_update_run p w Hd Hv Hok) as (w' & Hrun & Hfr & He & Hl & Hy). exists w'. do 3 (split; [done|]).
    intros y Ey Eb [Ha (s & Ht & _)]. destruct (Hy y Ey) as [Hya Hyt]. split; [by apply Hya|].
    replace (start y w') with (port_index_ (ports w' p), false); [by apply (Hyt s)|].
    pose proof (proj1 (proj1 Hfr y)) as Sp. rewrite Eb in Sp. destruct Hl as [[_ Hi] _].
    assert (port_index_ (ports w' p) <> 0xffff) by (rewrite Hi; by apply final_ingress).
    destruct y as [q|j]; simpl in *; rewrite Sp; simpl; [|done]. by rewrite (proj2 (Z.eqb_neq _ _)).
  - destruct (iface_update_run i w Hd) as (w' & Hrun & Hfr & Hl & Hp & Hy). exists w'. do 3 (split; [done|]).
    intros y Ey Eb [Ha (s & Ht & ->)]. destruct (Hok y Ey) as [_ [q ->]]. destruct (Hy q Ey) as [Hya Hyt]. split; [by apply Hya|].
    rewrite (start_ports q w w') by done. by apply Hyt.
Qed.
End update.
