(* ===== verification/WiringInvariant.v ===== *)
(** polycubed, the invariant of the wiring: what connecting, disconnecting, attaching
    and detaching keep, whatever their order. *)
From Stdlib Require Import ZArith Lia Ascii String.
From stdpp Require Import base gmap list strings numbers sorting.
From S2P Require Import Prelude.
From S2P Require Import Wiring.
From S2P Require Import WiringPath.
From S2P Require Import WiringFacts.
#[local] Open Scope Z_scope.
#[local] Open Scope cpp_scope.

Section invariant.
Context `{PatchPanel} {RL : Reloads}.
Implicit Types (w : world) (x y z : PeerIface) (p q : Z * Z) (cs : list Z).

(** What is to be generated and the table say the same, every loaded program of a cube
    has the switch of now, and the loaded programs of devices are the ones of the last
    [next] and [port]. *)
Definition cube_sane (c : Z) (a : WCube) : Prop :=
  forward_chain_ a = _POLYCUBE_peers a /\
  forall k, switch_ a k = if decide (k ∈ program_slots c) then get_redirect_code a else [].
Definition sane w : Prop :=
  (forall c, cube_sane c (cubes w c)) /\
  (forall i, ingress_program_ (ifaces w i) = loaded (if_ingress_next_ (ifaces w i)) (ingress_port_ (ifaces w i)) /\
             egress_program_ (ifaces w i) = loaded (if_egress_next_ (ifaces w i)) (egress_port_ (ifaces w i))).

Lemma sane_upd_iface i (s : ExtIface) w :
  sane w -> ingress_program_ s = loaded (if_ingress_next_ s) (ingress_port_ s) /\ egress_program_ s = loaded (if_egress_next_ s) (egress_port_ s) ->
  sane (set_iface i s w).
Proof. intros [Hc Hi] Hs. split; [done|]. intros j. simpl. unfold upd. by case_decide. Qed.
Lemma sane_upd_cube c (s : WCube) w : sane w -> cube_sane c s -> sane (set_cube c s w).
Proof. intros [Hc Hi] Hs. split; [|done]. intros d. simpl. unfold upd. case_decide; [by subst|done]. Qed.
Lemma sane_set_cubes_ x l w : sane w -> sane (set_cubes_ x l w).
Proof. intros Hs. destruct x as [p|i]; [done|]. apply sane_upd_iface; [done|]. apply (proj2 Hs). Qed.

Lemma always_get {S B} (P : S -> Prop) (k : S -> M S B) : (forall s, always P (k s)) -> always P (bind get k).
Proof. intros Hk s Hs. by apply Hk. Qed.
Ltac keeps_sane := repeat lazymatch goal with
  | |- forall _, _ => intro
  | |- always _ (bind get _) => apply always_get
  | |- always _ (bind _ _) => apply always_bind
  | |- always _ (match ?x with _ => _ end) => destruct x
  | |- always _ (ret _) => by apply always_id
  | |- always _ undefined => by apply always_id
  | |- always _ (modify _) => apply always_modify
  | |- always _ (let _ := _ in _) => cbv zeta
  | |- always _ _ => solve [auto with sane nocore]
  end.
Create HintDb sane.
Lemma set_next_sane t n type nd : always sane (set_next t n type nd).
Proof. intros w Hs. unfold set_next, bind, get. repeat case_match; simpl; done. Qed.
#[local] Hint Resolve set_next_sane : sane.
Lemma link_sane type cs n nd : always sane (link type cs n nd).
Proof. revert n nd. induction cs as [|t cs IH]; intros n nd; simpl; [by apply always_id|]. case_match; [done|]. apply always_bind; [apply set_next_sane|done]. Qed.
Lemma update_forwarding_table_sane c port n nd : always sane (update_forwarding_table c port n nd).
Proof.
  intros w [Hc Hi]. destruct (update_forwarding_table_run c port n nd w) as (w' & -> & _ & _ & Ei & Ec & Ep & _ & Es). cbn [snd]. split; [|by rewrite Ei].
  intros d. destruct (Hc d) as [Hd Hk]. split.
  - rewrite Ec, Ep. case_decide; [subst; by rewrite Hd|done].
  - intros k. rewrite Es, Hk. destruct (decide (d = c)) as [->|Hn].
    + destruct (decide (k ∈ program_slots c)); [by rewrite decide_True|by rewrite decide_False by (by intros [_ ?])].
    + rewrite decide_False by (by intros [? _]). case_decide; [|done]. apply get_redirect_code_chain. by rewrite Ec, decide_False.
Qed.
Lemma set_egress_next_sane c port n : always sane (set_egress_next c port n).
Proof. intros w Hs. simpl. apply sane_upd_cube; [done|]. destruct (proj1 Hs c) as [Hd Hk]. by split. Qed.
Lemma iface_set_next_sane i n type : always sane (iface_set_next i n type).
Proof. intros w Hs. unfold iface_set_next, bind, get. destruct type; case_match; simpl; try done; apply sane_upd_iface; simpl; try done; split; try done; apply (proj2 Hs). Qed.
#[local] Hint Resolve link_sane update_forwarding_table_sane set_egress_next_sane iface_set_next_sane : sane.
Lemma update_parent_sane p n nd : always sane (update_parent_fwd_table p n nd).
Proof. unfold update_parent_fwd_table. intros w Hs. by apply update_forwarding_table_sane. Qed.
#[local] Hint Resolve update_parent_sane : sane.
Lemma set_next_index_sane x n : always sane (set_next_index x n).
Proof. destruct x as [p|i]; simpl; unfold Port_set_next_index, iface_set_next_index; keeps_sane. Qed.
#[local] Hint Resolve set_next_index_sane : sane.
Lemma update_indexes_sane x : always sane (update_indexes x).
Proof.
  destruct x as [p|i]; simpl; unfold Port_update_indexes, iface_update_indexes; keeps_sane. done.
Qed.
#[local] Hint Resolve update_indexes_sane : sane.
Lemma set_peer_iface_sane x o : always sane (set_peer_iface x o).
Proof.
  unfold set_peer_iface. keeps_sane. destruct x; [done|]. apply sane_upd_iface; [done|]. apply (proj2 H1).
Qed.

(** * The invariant *)
Definition connected_ok w : Prop := forall x y, get_peer_iface x w = Some y ->
  get_peer_iface y w = Some x /\ y <> x /\ match x with APort _ => True | AnIface _ => exists q, y = APort q end.
(** A port that was never given a peer or a cube has nothing in its cube's tables. *)
Definition settled x w : Prop :=
  linked x w \/ match x with APort p => get_peer_iface x w = None /\ cubes_ x w = [] /\ fwd p w = None | AnIface _ => False end.
(** Identifiers of ports come from [id_generator], numbers of devices from the kernel. *)
Definition id_ok x : Prop := match x with APort p => 0 <= p.2 < 128 /\ cube_index INGRESS p.1 <> 0 | AnIface i => 0 < ifindex i < 0x10000 end.
Record wired w : Prop := Wired {
  wired_distinct : distinct w;
  wired_connected : connected_ok w;
  wired_settled x : settled x w;
  wired_ready x : ready x w;
  wired_ids x y : get_peer_iface x w = Some y -> id_ok x;
  wired_sane : sane w;
}.

Lemma settled_outside X z w w' :
  outside X w w' -> z ∉ X -> (forall y, get_peer_iface z w = Some y -> y ∉ X) -> settled z w -> settled z w'.
Proof.
  intros F Hz Hy [Hl|Hi]; [left; by eapply linked_outside|right]. destruct z as [p|i]; [|done]. destruct (F (APort p) Hz) as [_ (Hp & Hf & _)].
  simpl in *. by rewrite Hp, Hf.
Qed.
Lemma settled_linked x y w : settled x w -> get_peer_iface x w = Some y -> linked x w.
Proof. intros [Hl|Hi] Hp; [done|]. destruct x; [|done]. destruct Hi as [Hn _]. congruence. Qed.
Lemma ready_outside X z w w' : outside X w w' -> z ∉ X -> ready z w -> ready z w'.
Proof. intros F Hz. destruct z as [p|i]; [done|]. simpl. by rewrite (proj2 (F (AnIface i) Hz)). Qed.

Lemma elem_of_peers x y w : y ∈ peers x w <-> get_peer_iface x w = Some y.
Proof. unfold peers. destruct (get_peer_iface x w); set_solver. Qed.
Lemma update_sane x w w' : sane w -> update_indexes x w = (Ok tt, w') -> sane w'.
Proof. intros Hs Hr. pose proof (update_indexes_sane x w Hs) as Hw. by rewrite Hr in Hw. Qed.

(** The cubes of [x] alone change: the update after it restores the invariant. *)
Lemma id_live x : id_ok x -> live x.
Proof. destruct x; [by intros []|done]. Qed.
Lemma relink x w w0 :
  wired w -> live x -> outside [x] w w0 -> get_peer_iface x w0 = get_peer_iface x w -> (forall p, port_index_ (ports w0 p) = port_index_ (ports w p)) ->
  distinct w0 -> sane w0 -> ready x w0 -> same_egress w w0 ->
  exists w', update_indexes x w0 = (Ok tt, w') /\ wired w' /\ shape w0 w'.
Proof.
  intros Hw Hv Fo Hp Hpi Hd0 Hs0 Hr He.
  assert (forall z, get_peer_iface z w0 = get_peer_iface z w) as Hpeer.
  { intros z. destruct (decide (z = x)) as [->|Hz]; [done|]. destruct (Fo z ltac:(set_solver)) as [_ Hr0].
    destruct z; simpl in *; [by rewrite (proj1 Hr0)|by rewrite Hr0]. }
  assert (forall z, ready z w0) as Hready.
  { intros z. destruct (decide (z = x)) as [->|Hz]; [done|]. eapply ready_outside; [done|set_solver|apply Hw]. }
  destruct (update_indexes_run x w0 Hd0 Hv) as (w' & Hrun & Hfr & Hl & Hy).
  { intros y Ey. rewrite Hpeer in Ey. destruct (wired_connected _ Hw x y Ey) as (_ & Hne & Hk). split; [done|]. destruct x; [apply Hready|done]. }
  exists w'. split; [done|]. pose proof (proj1 Hfr) as S. split; [|done]. split.
  - by eapply distinct_frame.
  - intros z y. rewrite !(proj1 (S _)), !Hpeer. apply (wired_connected _ Hw).
  - intros z. destruct (decide (z = x)) as [->|Hzx]; [by left|]. destruct (decide (get_peer_iface x w = Some z)) as [Ez|Hzp].
    + left. destruct (wired_connected _ Hw x z Ez) as (Eb & _ & Hk). apply Hy; [by rewrite Hpeer..|]. apply linked_half.
      destruct (settled_linked z x w (wired_settled _ Hw z) Eb) as [Ha Ht].
      pose proof (same_own_links _ _ _ (Fo z ltac:(set_solver))) as Hs. split.
      * apply (away_own _ w); [done| |done]. intros. by rewrite He.
      * rewrite (start_own z w w0); [by apply (toward_own _ _ w)|done|]. intros; apply Hpi.
    + apply (settled_outside (x :: peers x w0) z w0); [exact (proj2 Hfr)|..].
      * rewrite elem_of_cons, elem_of_peers, Hpeer. tauto.
      * intros y. rewrite Hpeer, elem_of_cons, elem_of_peers, Hpeer. intros Ey [->|Exy].
        -- by destruct (wired_connected _ Hw z x Ey).
        -- destruct (wired_connected _ Hw z y Ey) as (Eyz & _). destruct (wired_connected _ Hw x y Exy) as (Eyx & _). congruence.
      * eapply settled_outside; [done|set_solver| |apply (wired_settled _ Hw)]. intros y Ey.
        rewrite list_elem_of_singleton. intros ->. by destruct (wired_connected _ Hw z x Ey).
  - intros z. pose proof (Hready z) as Hz. destruct z as [p|i]; [done|]. simpl in *. pose proof (proj2 (S (AnIface i))) as Hc. simpl in Hc. by rewrite Hc.
  - intros z y. rewrite (proj1 (S z)), Hpeer. apply (wired_ids _ Hw).
  - by eapply update_sane.
Qed.

(** ** Connecting and disconnecting *)
Lemma with_peer_facts x o w : let w0 := with_peer x o w in
  outside [x] w w0 /\ get_peer_iface x w0 = o /\ (forall z, cubes_ z w0 = cubes_ z w) /\ (forall p, port_index_ (ports w0 p) = port_index_ (ports w p)) /\
  (forall z, z <> x -> get_peer_iface z w0 = get_peer_iface z w) /\ (sane w -> sane w0) /\ (forall z, ready z w -> ready z w0).
Proof.
  destruct x as [p|i]; cbv zeta; simpl.
  - split; [|split; [|split; [|split; [|split; [|split]]]]]; simpl; unfold upd.
    + intros [q|i] Hz; simpl; [|done]. split; [done|]. simpl. unfold upd. rewrite decide_False; [done|set_solver].
    + by rewrite decide_True.
    + intros [q|i]; simpl; [|done]. unfold upd. by destruct (decide (q = p)) as [->|].
    + intros q. by destruct (decide (q = p)) as [->|].
    + intros [q|i] Hz; simpl; [|done]. unfold upd. rewrite decide_False; [done|congruence].
    + done.
    + by intros [].
  - split; [|split; [|split; [|split; [|split; [|split]]]]]; simpl; unfold upd.
    + intros [q|j] Hz; simpl; [done|]. split; [done|]. simpl. unfold upd. rewrite decide_False; [done|set_solver].
    + by rewrite decide_True.
    + intros [q|j]; simpl; [done|]. unfold upd. by destruct (decide (j = i)) as [->|].
    + done.
    + intros [q|j] Hz; simpl; [done|]. unfold upd. rewrite decide_False; [done|congruence].
    + intros Hs. apply sane_upd_iface; [done|]. apply (proj2 Hs).
    + intros [q|j]; simpl; [done|]. unfold upd. by destruct (decide (j = i)) as [->|].
Qed.
Lemma distinct_cubes w w0 : (forall z, cubes_ z w0 = cubes_ z w) -> distinct w -> distinct w0.
Proof. intros E [Hn Hd]. split; [intros x; rewrite E; apply Hn|]. intros x y t. rewrite !E. apply Hd. Qed.
Lemma ready_frame X z w w' : frame X w w' -> ready z w -> ready z w'.
Proof. intros [S _]. destruct z as [p|i]; [done|]. simpl. pose proof (proj2 (S (AnIface i))) as E. simpl in E. by rewrite E. Qed.

(** One side: everything but the connections themselves. *)
Lemma set_peer_run x o w :
  live x -> distinct w -> sane w -> (forall z, ready z w) ->
  (forall y, o = Some y -> y <> x /\ match x with APort _ => True | AnIface _ => exists q, y = APort q end) -> exists w',
  set_peer_iface x o w = (Ok tt, w') /\ outside (x :: option_list o) w w' /\ linked x w' /\ get_peer_iface x w' = o /\
  (forall z, z <> x -> get_peer_iface z w' = get_peer_iface z w) /\ (forall z, cubes_ z w' = cubes_ z w) /\
  distinct w' /\ sane w' /\ (forall z, ready z w') /\
  (forall y, o = Some y -> get_peer_iface y w = Some x -> linked y w -> linked y w').
Proof.
  intros Hv Hd Hs Hr Ho. destruct (with_peer_facts x o w) as (Fo & Hp & Hc & Hpi & Hpz & Hs0 & Hr0). cbv zeta in *. set (w0 := with_peer x o w) in *.
  destruct (update_indexes_run x w0) as (w' & Hrun & Hfr & Hl & Hy); [by eapply distinct_cubes|done| |].
  { intros y. rewrite Hp. intros Ey. destruct (Ho y Ey) as [Hne Hk]. split; [done|]. destruct x; [apply Hr0, Hr|done]. }
  pose proof (proj1 Hfr) as S. exists w'. split; [exact Hrun|].
  assert (x :: peers x w0 = x :: option_list o) as Ep by (unfold peers; rewrite Hp; by destruct o). rewrite Ep in Hfr.
  split; [|split; [done|]]. { eapply outside_trans; [eapply outside_mono; [|exact Fo]; set_solver|exact (proj2 Hfr)]. }
  split; [by rewrite (proj1 (S x))|]. split; [intros z Hz; by rewrite (proj1 (S z)), Hpz|]. split; [intros z; by rewrite (proj2 (S z)), Hc|].
  split; [by eapply distinct_frame, distinct_cubes|]. split; [eapply update_sane; [|done]; auto|]. split; [intros z; eapply ready_frame; [done|auto]|].
  intros y Ey Eb [Ha Ht]. destruct (Ho y Ey) as [Hne _]. apply Hy; [by rewrite Hp|by rewrite Hpz|].
  apply linked_half. pose proof (same_own_links _ _ _ (Fo y ltac:(set_solver))) as L. split.
  - apply (away_own _ w); [done| |done]. intros i q _ _. unfold w0. by destruct x.
  - rewrite (start_own y w w0); [by apply (toward_own _ _ w)|done|intros; apply Hpi].
Qed.

Lemma outside_peer x w w' : outside [x] w w' -> forall z, z <> x -> get_peer_iface z w' = get_peer_iface z w.
Proof. intros F z Hz. destruct (F z ltac:(set_solver)) as [_ Hr]. destruct z; simpl in *; [by rewrite (proj1 Hr)|by rewrite Hr]. Qed.

Lemma connect_wired x y w :
  wired w -> get_peer_iface x w = None -> get_peer_iface y w = None -> x <> y -> id_ok x -> id_ok y ->
  (match x, y with AnIface _, AnIface _ => False | _, _ => True end) -> exists w',
  connect x y w = (Ok tt, w') /\ wired w' /\ (forall z, cubes_ z w' = cubes_ z w) /\
  (forall z, get_peer_iface z w' = upd y (Some x) (upd x (Some y) (fun z => get_peer_iface z w)) z).
Proof.
  intros Hw Hx Hy Hne Ix Iy Hk.
  destruct (set_peer_run x (Some y) w (id_live _ Ix) (wired_distinct _ Hw) (wired_sane _ Hw) (wired_ready _ Hw)) as (w1 & H1 & O1 & L1 & P1 & Z1 & C1 & D1 & S1 & R1 & _).
  { intros ? [= <-]. split; [done|]. destruct x, y; eauto; done. }
  destruct (set_peer_run y (Some x) w1 (id_live _ Iy) D1 S1 R1) as (w2 & H2 & O2 & L2 & P2 & Z2 & C2 & D2 & S2 & R2 & Y2).
  { intros ? [= <-]. split; [done|]. destruct x, y; eauto; done. }
  exists w2. unfold connect. rewrite (bind_run _ _ _ _ _ H1). split; [done|]. simpl in O1, O2.
  assert (get_peer_iface x w2 = Some y) as Px by by rewrite Z2.
  assert (forall z, z <> x -> z <> y -> get_peer_iface z w2 = get_peer_iface z w) as Pz by (intros; by rewrite Z2, Z1).
  assert (forall z u, get_peer_iface z w = Some u -> z <> x /\ z <> y /\ u <> x /\ u <> y) as Hfar.
  { intros z u Ez. destruct (wired_connected _ Hw z u Ez) as (Eu & _). repeat split; intros ->; congruence. }
  split; [|split; [intros z; by rewrite C2, C1|intros z; unfold upd; destruct (decide (z = y)) as [->|]; [done|destruct (decide (z = x)) as [->|]; [done|by apply Pz]]]].
  split; [done| | |done| |done].
  - intros z u. destruct (decide (z = x)) as [->|Hzx]; [rewrite Px; intros [= <-]|destruct (decide (z = y)) as [->|Hzy]; [rewrite P2; intros [= <-]|]].
    + split; [done|]. split; [done|]. destruct x, y; eauto; done.
    + split; [done|]. split; [done|]. destruct x, y; eauto; done.
    + rewrite Pz by done. intros Ez. destruct (Hfar z u Ez) as (_ & _ & Hux & Huy). rewrite Pz by done. by apply (wired_connected _ Hw).
  - intros z. destruct (decide (z = y)) as [->|Hzy]; [by left|]. destruct (decide (z = x)) as [->|Hzx]; [left; by apply Y2|].
    apply (settled_outside [x; y] z w w2); [|set_solver| |apply (wired_settled _ Hw)].
    + eapply outside_trans; [exact O1|]. eapply outside_mono; [|exact O2]. set_solver.
    + intros u Ez. destruct (Hfar z u Ez). set_solver.
  - intros z u. destruct (decide (z = x)) as [->|Hzx]; [done|]. destruct (decide (z = y)) as [->|Hzy]; [done|]. rewrite Pz by done. apply (wired_ids _ Hw).
Qed.

Lemma unconnect_wired x y w : wired w -> get_peer_iface x w = Some y -> exists w',
  unconnect x y w = (Ok tt, w') /\ wired w' /\ (forall z, cubes_ z w' = cubes_ z w) /\
  (forall z, get_peer_iface z w' = upd y None (upd x None (fun z => get_peer_iface z w)) z).
Proof.
  intros Hw Hx. destruct (wired_connected _ Hw x y Hx) as (Hy & Hne & _).
  destruct (set_peer_run x None w (id_live _ (wired_ids _ Hw x y Hx)) (wired_distinct _ Hw) (wired_sane _ Hw) (wired_ready _ Hw)) as (w1 & H1 & O1 & L1 & P1 & Z1 & C1 & D1 & S1 & R1 & _); [done|].
  destruct (set_peer_run y None w1 (id_live _ (wired_ids _ Hw y x Hy)) D1 S1 R1) as (w2 & H2 & O2 & L2 & P2 & Z2 & C2 & D2 & S2 & R2 & _); [done|].
  exists w2. unfold unconnect. rewrite (bind_run _ _ _ _ _ H1). split; [done|]. simpl in O1, O2.
  assert (get_peer_iface x w2 = None) as Px by by rewrite Z2.
  assert (forall z, z <> x -> z <> y -> get_peer_iface z w2 = get_peer_iface z w) as Pz by (intros; by rewrite Z2, Z1).
  assert (forall z u, z <> x -> z <> y -> get_peer_iface z w = Some u -> u <> x /\ u <> y) as Hfar.
  { intros z u Hzx Hzy Ez. destruct (wired_connected _ Hw z u Ez) as (Eu & _). split; intros ->; congruence. }
  split; [|split; [intros z; by rewrite C2, C1|intros z; unfold upd; destruct (decide (z = y)) as [->|]; [done|destruct (decide (z = x)) as [->|]; [done|by apply Pz]]]].
  split; [done| | |done| |done].
  - intros z u. destruct (decide (z = x)) as [->|Hzx]; [by rewrite Px|]. destruct (decide (z = y)) as [->|Hzy]; [by rewrite P2|].
    rewrite Pz by done. intros Ez. destruct (Hfar z u Hzx Hzy Ez) as (Hux & Huy). rewrite Pz by done. by apply (wired_connected _ Hw).
  - intros z. destruct (decide (z = y)) as [->|Hzy]; [by left|]. destruct (decide (z = x)) as [->|Hzx].
    + left. apply (linked_outside [y] x w1 w2); [done|set_solver|by rewrite P1|done].
    + apply (settled_outside [x; y] z w w2); [|set_solver| |apply (wired_settled _ Hw)].
      * eapply outside_trans; eapply outside_mono; [|exact O1| |exact O2]; set_solver.
      * intros u Ez. destruct (Hfar z u Hzx Hzy Ez). set_solver.
  - intros z u. destruct (decide (z = x)) as [->|Hzx]; [by rewrite Px|]. destruct (decide (z = y)) as [->|Hzy]; [by rewrite P2|].
    rewrite Pz by done. apply (wired_ids _ Hw).
Qed.
End invariant.
