(* ===== verification/WiringRun.v ===== *)
(** polycubed, what the wiring does over time: attaching and detaching transparent
    cubes, the operations as steps, and the states they reach. *)
From Stdlib Require Import ZArith Lia Ascii String.
From stdpp Require Import base gmap list strings numbers sorting.
From S2P Require Import Prelude.
From S2P Require Import Wiring.
From S2P Require Import WiringPath.
From S2P Require Import WiringFacts.
From S2P Require Import WiringInvariant.
#[local] Open Scope Z_scope.
#[local] Open Scope cpp_scope.

Section run.
Context `{PatchPanel} {RL : Reloads}.
Implicit Types (w : world) (x y z : PeerIface) (p q : Z * Z) (cs : list Z).

(** * Where a cube is inserted *)
Lemma auto_below_bounds service cs i index : 0 <= index <= i -> 0 <= (auto_below service cs i index).1 <= i + Z.of_nat (length cs).
Proof.
  revert i index. induction cs as [|t cs IH]; intros i index Hi; simpl; [lia|]. destruct (compare_position _ _); simpl; [| | |lia].
  1, 3: specialize (IH (i + 1) index); lia.
  specialize (IH (i + 1) (i + 1)). lia.
Qed.
Lemma auto_above_bounds service cs i index n k :
  i + 1 = Z.of_nat (length cs) -> 0 <= index <= n -> i <= n -> auto_above service cs i index = Ok k -> 0 <= k <= n.
Proof.
  revert i index. induction cs as [|t cs IH]; intros i index Hi Hx Hn; simpl in *; [congruence|].
  destruct (compare_position _ _); [| | |done]; apply IH; lia.
Qed.
Lemma auto_above_defined service cs i index : auto_above service cs i index <> Undefined.
Proof. revert i index. induction cs as [|t cs IH]; intros i index; simpl; [done|]. by destruct (compare_position _ _). Qed.
Lemma index_of_bounds name cs : 0 <= index_of name cs <= Z.of_nat (length cs) /\ (name ∈ (tcube_name <$> cs) -> index_of name cs < Z.of_nat (length cs)).
Proof.
  induction cs as [|t cs [IH1 IH2]]; simpl; [split; [lia|set_solver]|]. destruct (String.eqb_spec (tcube_name t) name) as [|Hne]; split; try lia.
  intros Hin. apply elem_of_cons in Hin as [->|Hin]; [done|]. apply IH2 in Hin. lia.
Qed.
(** What the caller must ensure: the cube it names is there. *)
Definition other_ok (position other : string) cs : Prop :=
  if String.eqb other "" then position <> "before"%string /\ position <> "after"%string
  else other ∈ (tcube_name <$> cs).
Lemma add_position_bounds t position other cs : other_ok position other cs ->
  match add_position t position other cs with Ok k => 0 <= k <= Z.of_nat (length cs) | Throw _ => True | Undefined => False end.
Proof.
  unfold other_ok, add_position. intros Ho. destruct (index_of_bounds other cs) as [Hb Hlt].
  destruct (negb _ && _); [done|]. destruct (String.eqb position "auto").
  - pose proof (auto_below_bounds (tcube_service t) cs 0 0 ltac:(lia)) as Hbelow.
    destruct (auto_below _ _ _ _) as [index []]; simpl in *; [|lia].
    destruct (auto_above _ _ _ _) as [k| |] eqn:E; [|done|by eapply auto_above_defined].
    apply (auto_above_bounds _ _ _ _ (Z.of_nat (length cs)) k) in E; rewrite ?length_rev in *; lia.
  - destruct (String.eqb_spec position "first"); [lia|]. destruct (String.eqb_spec position "last"); [lia|].
    destruct (String.eqb_spec position "before"); [destruct (String.eqb other ""); simpl; [tauto|lia]|].
    destruct (String.eqb_spec position "after"); [destruct (String.eqb other ""); simpl; [tauto|apply Hlt in Ho; lia]|lia].
Qed.

(** * Attaching and detaching *)
Lemma set_cubes_facts x l w : let w0 := set_cubes_ x l w in
  outside [x] w w0 /\ get_peer_iface x w0 = get_peer_iface x w /\ (forall p, port_index_ (ports w0 p) = port_index_ (ports w p)) /\
  cubes_ x w0 = l /\ (forall z, z <> x -> cubes_ z w0 = cubes_ z w) /\ same_egress w w0.
Proof.
  destruct x as [p|i]; simpl; unfold upd; rewrite decide_True by done.
  - repeat split; try done; simpl; unfold upd.
    + destruct z as [q|i]; simpl in *; [rewrite decide_False; [done|set_solver]|done].
    + intros q. by destruct (decide (q = p)) as [->|].
    + intros [q|i] Hz; simpl; [unfold upd; rewrite decide_False; [done|congruence]|done].
  - repeat split; try done; simpl; unfold upd.
    + destruct z as [q|j]; simpl in *; [done|unfold upd; rewrite decide_False; [done|set_solver]].
    + intros [q|j] Hz; simpl; [done|unfold upd; rewrite decide_False; [done|congruence]].
Qed.
(** A list of cubes is replaced by one that has no cube of another list. *)
Lemma replace_cubes x l w :
  wired w -> live x -> NoDup l -> (forall t z, t ∈ l -> t ∈ cubes_ z w -> z = x) -> (forall i, x = AnIface i -> forall t, t ∈ l -> has_program INGRESS t = true) ->
  exists w', (modify (set_cubes_ x l) ;;; update_indexes x) w = (Ok tt, w') /\ wired w' /\
    (forall z, get_peer_iface z w' = get_peer_iface z w) /\ (forall z, cubes_ z w' = upd x l (fun z => cubes_ z w) z).
Proof.
  intros Hw Hv Hnd Hl Hr. destruct (set_cubes_facts x l w) as (Fo & Hp & Hpi & Hcx & Hcz & He). cbv zeta in *.
  destruct (relink x w (set_cubes_ x l w)) as (w' & Hrun & Hw' & Hsh); [done..| |apply sane_set_cubes_, Hw| |done|].
  3: { exists w'. split; [exact Hrun|]. split; [done|]. split; intros z.
       - rewrite (proj1 (Hsh z)). destruct (decide (z = x)) as [->|Hz]; [done|]. by apply (outside_peer x).
       - rewrite (proj2 (Hsh z)). unfold upd. destruct (decide (z = x)) as [->|Hz]; [done|by apply Hcz]. }
  - split.
    + intros z. destruct (decide (z = x)) as [->|Hz]; [by rewrite Hcx|]. rewrite Hcz by done. apply Hw.
    + intros y z t. destruct (decide (y = x)) as [->|Hy], (decide (z = x)) as [->|Hz]; rewrite ?Hcx, ?Hcz by done; [done|..].
      * intros H1 H2. symmetry. by apply (Hl t z).
      * intros H1 H2. by apply (Hl t y).
      * apply Hw.
  - destruct x as [p|i]; [done|]. intros t. change (i_cubes_ _) with (cubes_ (AnIface i) (set_cubes_ (AnIface i) l w)). rewrite Hcx. by apply (Hr i).
Qed.
Lemma add_cube_wired x t position other w :
  wired w -> live x -> (forall z, t ∉ cubes_ z w) -> other_ok position other (cubes_ x w) -> (forall i, x = AnIface i -> has_program INGRESS t = true) ->
  match add_position t position other (cubes_ x w) with
  | Ok k => exists w', add_cube x t position other w = (Ok k, w') /\ wired w' /\ (forall z, get_peer_iface z w' = get_peer_iface z w) /\
      (forall z, cubes_ z w' = upd x (take (Z.to_nat k) (cubes_ x w) ++ t :: drop (Z.to_nat k) (cubes_ x w)) (fun z => cubes_ z w) z)
  | Throw e => add_cube x t position other w = (Throw e, w)
  | Undefined => False
  end.
Proof.
  intros Hw Hv Ht Ho Hi. pose proof (add_position_bounds t _ _ _ Ho) as Hb.
  destruct (add_position t position other (cubes_ x w)) as [k|e|] eqn:E; [|unfold add_cube, bind, get, lift; by rewrite E|done].
  destruct (replace_cubes x (take (Z.to_nat k) (cubes_ x w) ++ t :: drop (Z.to_nat k) (cubes_ x w)) w Hw Hv) as (w' & Hrun & Hw').
  - pose proof (proj1 (wired_distinct _ Hw) x) as Hnd. rewrite <- (take_drop (Z.to_nat k) (cubes_ x w)) in Hnd.
    rewrite <- Permutation_middle. constructor; [|done]. rewrite take_drop. apply Ht.
  - intros u z. rewrite <- Permutation_middle, take_drop. intros [->|Hu]%elem_of_cons Hz; [by apply Ht in Hz|]. symmetry. by apply (proj2 (wired_distinct _ Hw) x z u).
  - intros i Ei u. rewrite <- Permutation_middle, take_drop. intros [->|Hu]%elem_of_cons; [by eapply Hi|]. subst x. by apply (wired_ready _ Hw (AnIface i)).
  - apply bind_Ok in Hrun as (u & s1 & H1 & H2). injection H1 as <- <-.
    exists w'. split; [|done]. unfold add_cube, bind, get, lift, modify. rewrite E, (proj2 (Z.ltb_ge _ _)) by lia. by rewrite H2.
Qed.
Lemma erase_named_sublist name cs l : erase_named name cs = Some l -> l `sublist_of` cs.
Proof.
  revert l. induction cs as [|t cs IH]; intros l; simpl; [done|]. destruct (String.eqb _ _); [intros [= <-]; by constructor|].
  destruct (erase_named name cs) as [l'|]; simpl; [|done]. intros [= <-]. constructor. by apply IH.
Qed.
Lemma remove_cube_wired x name w :
  wired w -> live x -> match erase_named name (cubes_ x w) with
  | Some l => exists w', remove_cube x name w = (Ok tt, w') /\ wired w' /\ (forall z, get_peer_iface z w' = get_peer_iface z w) /\
      (forall z, cubes_ z w' = upd x l (fun z => cubes_ z w) z)
  | None => remove_cube x name w = (Throw (RuntimeError "Cube doesn't exist"), w)
  end.
Proof.
  intros Hw Hv. destruct (erase_named name (cubes_ x w)) as [l|] eqn:E; [|by unfold remove_cube, bind, get; rewrite E]. apply erase_named_sublist in E as Hs.
  assert (remove_cube x name w = (modify (set_cubes_ x l) ;;; update_indexes x) w) as -> by (unfold remove_cube, bind, get; by rewrite E).
  assert (forall t, t ∈ l -> t ∈ cubes_ x w) as Hin by (intros t Ht; eapply elem_of_submseteq; [exact Ht|by apply sublist_submseteq]).
  apply replace_cubes; [done..| | |].
  - eapply sublist_NoDup; [|done]. apply Hw.
  - intros t z Ht Hz. symmetry. apply (proj2 (wired_distinct _ Hw) x z t); auto.
  - intros i -> t Ht. apply (wired_ready _ Hw (AnIface i)), Hin, Ht.
Qed.

(** * The operations of the daemon on the wiring *)
Inductive wire_op :=
  | OConnect (x y : PeerIface)
  | OUnconnect (x y : PeerIface)
  | OAttach (x : PeerIface) (t : Z) (position other : string)
  | ODetach (x : PeerIface) (name : string).
Definition run_wire (op : wire_op) : M world unit :=
  match op with
  | OConnect x y => connect x y
  | OUnconnect x y => unconnect x y
  | OAttach x t position other => add_cube x t position other ;;; ret tt
  | ODetach x name => remove_cube x name
  end.
(** What the callers of these functions must ensure: only free ports and devices are
    connected (one of them a port), a cube is attached once, and a cube attached to a
    device filters incoming packets. *)
Definition wire_allowed (op : wire_op) w : Prop :=
  match op with
  | OConnect x y => get_peer_iface x w = None /\ get_peer_iface y w = None /\ x <> y /\ id_ok x /\ id_ok y /\
      match x, y with AnIface _, AnIface _ => False | _, _ => True end
  | OUnconnect x y => get_peer_iface x w = Some y
  | OAttach x t position other => id_ok x /\ (forall z, t ∉ cubes_ z w) /\ other_ok position other (cubes_ x w) /\
      match x with AnIface _ => has_program INGRESS t = true | APort _ => True end
  | ODetach x _ => id_ok x
  end.
(** Nothing is connected or attached yet; [port_index_] is not set by any constructor. *)
Definition unwired w : Prop :=
  (forall p, peer_port_ (ports w p) = None /\ p_cubes_ (ports w p) = []) /\
  (forall i, ifaces w i = fresh_iface) /\
  (forall c, forward_chain_ (cubes w c) = ∅ /\ _POLYCUBE_peers (cubes w c) = ∅ /\ egress_next (cubes w c) = ∅ /\ forall k, switch_ (cubes w c) k = []).
Inductive wire_reachable : world -> Prop :=
  | reach_unwired w : unwired w -> wire_reachable w
  | reach_op op w : wire_reachable w -> wire_allowed op w -> wire_reachable (run_wire op w).2.

Lemma unwired_wired w : unwired w -> wired w.
Proof.
  intros (Hp & Hi & Hc). assert (forall x, cubes_ x w = []) as Hcs by (intros [p|i]; simpl; [apply Hp|by rewrite Hi]).
  split.
  - split; [intros x; rewrite Hcs; constructor|]. intros x y t. rewrite Hcs. set_solver.
  - intros [p|i] y; simpl; [rewrite (proj1 (Hp p))|rewrite Hi]; done.
  - intros [p|i]; [right; simpl; unfold fwd; by rewrite (proj1 (Hp p)), (proj2 (Hp p)), (proj1 (Hc _))|left]. split; unfold away, toward, peer_id; simpl; by rewrite !Hi.
  - intros [p|i]; [done|]. simpl. rewrite Hi. set_solver.
  - intros [p|i] y; simpl; [rewrite (proj1 (Hp p))|rewrite Hi]; done.
  - split; [|intros i; by rewrite Hi]. intros c. destruct (Hc c) as (E & E2 & _ & Hk). split; [congruence|]. intros k. rewrite Hk. unfold get_redirect_code. rewrite E, map_to_list_empty. by case_decide.
Qed.
(** ** What the operations mean: who is connected to whom, and what is attached where *)
Record config := Config { c_peer : PeerIface -> option PeerIface; c_cubes : PeerIface -> list Z }.
Definition configuration w : config := Config (fun z => get_peer_iface z w) (fun z => cubes_ z w).
Definition same_config (c c' : config) : Prop := forall z, c_peer c z = c_peer c' z /\ c_cubes c z = c_cubes c' z.
Definition spec_step (op : wire_op) (c : config) : res config :=
  match op with
  | OConnect x y => Ok (Config (upd y (Some x) (upd x (Some y) (c_peer c))) (c_cubes c))
  | OUnconnect x y => Ok (Config (upd y None (upd x None (c_peer c))) (c_cubes c))
  | OAttach x t position other =>
      k <~ add_position t position other (c_cubes c x) ;;
      Ok (Config (c_peer c) (upd x (take (Z.to_nat k) (c_cubes c x) ++ t :: drop (Z.to_nat k) (c_cubes c x)) (c_cubes c)))
  | ODetach x name =>
      match erase_named name (c_cubes c x) with
      | Some l => Ok (Config (c_peer c) (upd x l (c_cubes c)))
      | None => Throw (RuntimeError "Cube doesn't exist")
      end
  end.

(** Every operation returns or throws, and a throw changes nothing. *)
Lemma run_wire_ok op w : wired w -> wire_allowed op w ->
  wired (run_wire op w).2 /\
  match spec_step op (configuration w) with
  | Ok c => (run_wire op w).1 = Ok tt /\ same_config (configuration (run_wire op w).2) c
  | Throw e => run_wire op w = (Throw e, w)
  | Undefined => False
  end.
Proof.
  intros Hw Ha. destruct op as [x y|x y|x t position other|x name]; simpl in *.
  - destruct Ha as (Hx & Hy & Hne & Ix & Iy & Hk). destruct (connect_wired x y w Hw Hx Hy Hne Ix Iy Hk) as (w' & -> & Hw' & Hc & Hp). by (split; [done|split; [done|intros z; split; [apply Hp|apply Hc]]]).
  - destruct (unconnect_wired x y w Hw Ha) as (w' & -> & Hw' & Hc & Hp). by (split; [done|split; [done|intros z; split; [apply Hp|apply Hc]]]).
  - destruct Ha as (Hv%id_live & Ht & Ho & Hi). pose proof (add_cube_wired x t position other w Hw Hv Ht Ho) as Hadd.
    assert (forall i, x = AnIface i -> has_program INGRESS t = true) as Hi' by by intros i ->. specialize (Hadd Hi').
    unfold bind. destruct (add_position _ _ _ _) as [k|e|]; simpl; [destruct Hadd as (w' & -> & Hw' & Hp & Hc); by (split; [done|split; [done|intros z; split; [apply Hp|apply Hc]]])|by rewrite Hadd|done].
  - pose proof (remove_cube_wired x name w Hw (id_live _ Ha)) as Hrem.
    destruct (erase_named _ _); [destruct Hrem as (w' & -> & Hw' & Hp & Hc); by (split; [done|split; [done|intros z; split; [apply Hp|apply Hc]]])|by rewrite Hrem].
Qed.
Lemma wire_reachable_wired w : wire_reachable w -> wired w.
Proof. induction 1 as [w Hw|op w _ IH Ha]; [by apply unwired_wired|]. by apply run_wire_ok. Qed.
End run.
