(* ===== verification/WiringCtl.v ===== *)
(** polycubed, setting the peer of a port (Port::set_peer, and
    ServiceController::set_port_peer): two ports are connected when each names the
    other. *)
From Stdlib Require Import ZArith Lia Ascii String.
From stdpp Require Import base gmap list strings numbers sorting.
From S2P Require Import Prelude.
From S2P Require Import Wiring.
From S2P Require Import WiringPath.
From S2P Require Import WiringFacts.
From S2P Require Import WiringInvariant.
From S2P Require Import WiringRun.
#[local] Open Scope Z_scope.
#[local] Open Scope cpp_scope.

(** The name that each port has for its peer ([None] when it is empty; a name is
    taken for what it names), and the map of the controller. *)
Record controller := Controller {
  wiring : world;
  peer_name : gmap (Z * Z) PeerIface;
  ports_to_ports : gmap (Z * Z) (Z * Z);
}.
Definition on_wiring (m : M world unit) : M controller unit := fun s =>
  let '(r, w) := m (wiring s) in (r, Controller w (peer_name s) (ports_to_ports s)).

Section controller.
Context `{Programs}.

Definition set_port_peer (p : Z * Z) (peer : option PeerIface) : M controller unit :=
  s <-- get ;;
  match get_peer_iface (APort p) (wiring s) with
  | Some y => on_wiring (unconnect (APort p) y)
  | None => ret tt
  end ;;;
  s <-- get ;;
  match peer with
  | None => ret tt
  | Some (AnIface i) =>
      match get_peer_iface (AnIface i) (wiring s) with
      | Some _ => throw (RuntimeError "Iface already in use")
      | None => on_wiring (connect (APort p) (AnIface i))
      end
  | Some (APort q) =>
      (** [emplace] keeps an entry that is there *)
      modify (fun s => Controller (wiring s) (peer_name s)
        (match ports_to_ports s !! p with Some _ => ports_to_ports s | None => <[p := q]> (ports_to_ports s) end)) ;;;
      s <-- get ;;
      match ports_to_ports s !! q with
      | Some p' => if decide (p' = p) then on_wiring (connect (APort p) (APort q)) else ret tt
      | None => ret tt
      end
  end.
Definition set_peer (p : Z * Z) (peer : option PeerIface) : M controller unit :=
  s <-- get ;;
  if decide (peer_name s !! p = peer) then ret tt
  else
    set_port_peer p peer ;;;
    modify (fun s => Controller (wiring s) (match peer with Some y => <[p := y]> (peer_name s) | None => delete p (peer_name s) end) (ports_to_ports s)).
End controller.

Section facts.
Context `{PatchPanel} {RL : Reloads}.
Implicit Types (p q : Z * Z).

Lemma on_wiring_run (m : M world unit) s w : m (wiring s) = (Ok tt, w) -> on_wiring m s = (Ok tt, Controller w (peer_name s) (ports_to_ports s)).
Proof. intros E. unfold on_wiring. by rewrite E. Qed.

(** A port names another one that does not name it: nothing is connected. *)
Lemma name_first p q s :
  get_peer_iface (APort p) (wiring s) = None -> peer_name s !! p <> Some (APort q) -> ports_to_ports s !! p = None -> ports_to_ports s !! q = None -> p <> q ->
  set_peer p (Some (APort q)) s = (Ok tt, Controller (wiring s) (<[p := APort q]> (peer_name s)) (<[p := q]> (ports_to_ports s))).
Proof.
  intros Hp Hn Ep Eq Hne. unfold set_peer, set_port_peer, bind, get, ret, modify. rewrite decide_False by done. rewrite Hp. cbn [wiring peer_name ports_to_ports].
  rewrite Ep, lookup_insert_ne by done. rewrite Eq. done.
Qed.
(** When the other one names it back, they are connected. *)
Lemma name_back p q s :
  get_peer_iface (APort q) (wiring s) = None -> peer_name s !! q <> Some (APort p) -> ports_to_ports s !! q = None -> ports_to_ports s !! p = Some q -> p <> q ->
  (connect (APort q) (APort p) (wiring s)).1 = Ok tt ->
  set_peer q (Some (APort p)) s =
    (Ok tt, Controller (connect (APort q) (APort p) (wiring s)).2 (<[q := APort p]> (peer_name s)) (<[q := p]> (ports_to_ports s))).
Proof.
  intros Hq Hn Eq Ep Hne Hc. unfold set_peer, set_port_peer, bind, get, ret, modify. rewrite decide_False by done. rewrite Hq. cbn [wiring peer_name ports_to_ports].
  rewrite Eq, lookup_insert_ne by done. rewrite Ep, decide_True by done. unfold on_wiring. cbn [wiring peer_name ports_to_ports].
  destruct (connect _ _ _) as [r w]. simpl in *. by subst r.
Qed.
End facts.
