(* ===== verification/WiringDeliver.v ===== *)
(** polycubed, what the linked chains do to a packet; and a concrete wiring. *)
From Stdlib Require Import ZArith Lia Ascii String.
From stdpp Require Import base gmap list strings numbers sorting.
From S2P Require Import Prelude.
From S2P Require Import Wiring.
From S2P Require Import WiringPath.
From S2P Require Import WiringFacts.
From S2P Require Import WiringInvariant.
From S2P Require Import WiringRun.
#[local] Open Scope Z_scope.

Section deliver.
Context `{PatchPanel} {RL : Reloads} (pass : program -> bool).
Implicit Types (w : world) (x y z : PeerIface) (p q : Z * Z) (cs : list Z) (s : Z * bool).

(** The programs of a list of cubes, in its order. *)
Definition programs (type : ProgramType) cs : list program := TCubeProgram type <$> filter (fun t => has_program type t = true) cs.

Lemma through_app l l' rest : through pass (l ++ l') rest = through pass l (through pass l' rest).
Proof. induction l as [|a l IH]; simpl; [done|]. by rewrite IH. Qed.
Lemma programs_cons type t cs : programs type (t :: cs) = if has_program type t then TCubeProgram type t :: programs type cs else programs type cs.
Proof. unfold programs. rewrite filter_cons. by destruct (has_program type t). Qed.
Lemma programs_rev type cs : programs type (rev cs) = rev (programs type cs).
Proof.
  unfold programs. induction cs as [|t cs IH]; [done|]. simpl rev at 1.
  rewrite filter_app, fmap_app, IH, !filter_cons. case_decide; simpl; by rewrite ?filter_nil, ?app_nil_r.
Qed.

(** What a program does next. *)
Definition jump w (calls : nat) s (cb : Z) : list program * outcome :=
  if s.2 then ([], Redirected s.1) else if s.1 =? 0xffff then ([], ToStack) else call pass w calls s.1 cb.
Lemma call_jump w calls n cb : n <> 0xffff -> call pass w calls n cb = jump w calls (n, false) cb.
Proof. intros Hn. unfold jump. simpl. by rewrite (proj2 (Z.eqb_neq _ _)). Qed.

Lemma follow type cs s w calls cb : chain type cs s (tcubes w) ->
  jump w (calls + length (programs type cs)) (final type cs s) cb = through pass (rev (programs type cs)) (jump w calls s cb).
Proof.
  revert s calls. induction cs as [|t cs IH]; intros s calls; [simpl; by rewrite Nat.add_0_r|].
  rewrite programs_cons. simpl chain. simpl final. destruct (has_program type t) eqn:Et; [|apply IH].
  intros [Hs Hc]. simpl rev. simpl length. rewrite through_app.
  replace (calls + S (length (programs type cs)))%nat with (S calls + length (programs type cs))%nat by lia.
  rewrite (IH _ (S calls) Hc). f_equal. unfold has_program in Et. apply negb_true_iff, Z.eqb_neq in Et.
  pose proof (tcube_index_bounds type t). unfold jump at 1. simpl. rewrite (proj2 (Z.eqb_neq _ _)) by lia.
  rewrite nodes_tcube by done. rewrite Hs. unfold jump. destruct s as [n nd]; simpl. by destruct (pass _), nd.
Qed.
Lemma follow_calls type cs s w calls cb : chain type cs s (tcubes w) -> (length (programs type cs) <= calls)%nat ->
  jump w calls (final type cs s) cb = through pass (rev (programs type cs)) (jump w (calls - length (programs type cs)) s cb).
Proof. intros Hc Hl. rewrite <- follow by done. f_equal. lia. Qed.

(** ** The switch is an optimisation *)
Lemma find_In_first (port : Z) (l : list (Z * (Z * bool))) c : List.find (fun case => case.1 =? port) l = Some c -> c ∈ l /\ c.1 = port.
Proof. intros [Hin Hc]%List.find_some. split; [by apply list_elem_of_In|by apply Z.eqb_eq]. Qed.
Lemma forward_lookup w calls c slot port : sane w ->
  forward pass w calls c slot port = match _POLYCUBE_peers (cubes w c) !! port with Some val => redirect_to pass w calls val | None => ([], Shot) end.
Proof.
  intros [Hs _]. destruct (Hs c) as [Hc Hsw]. unfold forward. destruct (List.find _ _) as [[k val]|] eqn:E; [|done]. apply find_In_first in E as [Hin Hk].
  assert ((k, val) ∈ map_to_list (forward_chain_ (cubes w c))) as Hm.
  { rewrite Hsw in Hin. case_decide; [|by apply elem_of_nil in Hin]. unfold get_redirect_code in Hin. eapply elem_of_submseteq in Hin; [|apply sublist_submseteq, sublist_take]. by rewrite merge_sort_Permutation in Hin. }
  apply elem_of_map_to_list in Hm. simpl in Hk. subst k. rewrite Hc in Hm. rewrite Hm. by destruct (_ || _).
Qed.

Lemma word_low a b : 0 <= a < 0x10000 -> Z.land (Z.lor a (Z.shiftl b 16)) 0xffff = a.
Proof. intros Ha. rewrite lor_shiftl_add by lia. change 0xffff with (2 ^ 16 - 1). rewrite land_ones_mod by lia. rewrite Z.mod_add by lia. by apply Z.mod_small. Qed.
Lemma word_high a b : 0 <= a < 0x10000 -> Z.shiftr (Z.lor a (Z.shiftl b 16)) 16 = b.
Proof. intros Ha. rewrite lor_shiftl_add by lia. rewrite Z.shiftr_div_pow2 by lia. rewrite Z.div_add by lia. rewrite Z.div_small by lia. done. Qed.
Lemma shift_back b : Z.shiftr (Z.shiftl b 16) 16 = b.
Proof. rewrite Z.shiftr_shiftl_l by lia. apply Z.shiftl_0_r. Qed.

Lemma final_bounds type cs s : 0 <= s.1 < 0x10000 -> 0 <= (final type cs s).1 < 0x10000.
Proof.
  intros Hs. destruct (final_cases type cs s) as [->|(t & _ & _ & ->)]; [done|]. simpl. pose proof (tcube_index_bounds type t). lia.
Qed.
Lemma final_not_stack type cs s : s.1 <> 0xffff \/ s.2 = true -> (final type cs s).1 <> 0xffff \/ (final type cs s).2 = true.
Proof.
  intros Hs. destruct (final_cases type cs s) as [->|(t & _ & _ & ->)]; [done|]. simpl. pose proof (tcube_index_bounds type t). lia.
Qed.

(** ** From a port of a cube *)
Definition good_start s : Prop := 0 < s.1 < 0x10000 /\ (s.1 <> 0xffff \/ s.2 = true).
Lemma final_good type cs s : good_start s -> good_start (final type cs s).
Proof.
  intros Hs. destruct (final_cases type cs s) as [->|(t & _ & Ht & ->)]; [done|]. pose proof (tcube_index_bounds type t).
  unfold has_program in Ht. apply negb_true_iff, Z.eqb_neq in Ht. unfold good_start. simpl. lia.
Qed.
Lemma jump_good w calls s cb : good_start s -> s.2 = false -> jump w calls s cb = call pass w calls s.1 cb.
Proof. intros [_ [Hs|Hs]] Hn; [|congruence]. unfold jump. by rewrite Hn, (proj2 (Z.eqb_neq _ _)). Qed.
Lemma redirect_entry w calls s id : good_start s ->
  redirect_to pass w calls (Z.lor s.1 (Z.shiftl id 16), s.2) = jump w calls s (Z.lor s.1 (Z.shiftl id 16)).
Proof.
  intros Hg. pose proof Hg as [Hs _]. unfold redirect_to. cbn [fst snd]. rewrite word_low by lia. destruct s as [n nd]; destruct nd; [done|].
  by rewrite jump_good.
Qed.
Lemma entry_some s id : good_start s -> 0 <= id -> entry_of s id = Some (Z.lor s.1 (Z.shiftl id 16), s.2).
Proof.
  intros [Hs _] Hid. unfold entry_of. cbv zeta. rewrite (proj2 (Z.eqb_neq _ _)); [done|]. rewrite lor_shiftl_add by lia. nia.
Qed.
Lemma forward_linked p w calls slot : sane w -> linked (APort p) w -> good_start (start (APort p) w) -> 0 <= out_id p w ->
  let ps := programs EGRESS (p_cubes_ (ports w p)) in (length ps <= calls)%nat ->
  exists cb, Z.shiftr cb 16 = out_id p w /\
    forward pass w calls p.1 slot p.2 = through pass ps (jump w (calls - length ps) (start (APort p) w) cb).
Proof.
  intros Hs [_ [Hc Hf]] Hg Hid ps Hl. simpl in Hc, Hf. set (st := start (APort p) w) in *. set (n := final EGRESS (rev (p_cubes_ (ports w p))) st) in *.
  assert (good_start n) as Hgn by by apply final_good. exists (Z.lor n.1 (Z.shiftl (out_id p w) 16)). split; [apply word_high; destruct Hgn; lia|].
  rewrite forward_lookup by done. rewrite <- (proj1 (proj1 Hs _)). unfold fwd in Hf. rewrite Hf, entry_some by done. rewrite redirect_entry by done.
  unfold n. rewrite (follow_calls _ _ _ _ _ _ Hc); rewrite programs_rev, ?rev_involutive, ?length_rev; done.
Qed.

(** ** Into a port of a cube *)
Lemma final_flag type cs s : s.2 = false -> final type cs s = ((final type cs s).1, false).
Proof. intros Hs. destruct (final_cases type cs s) as [->|(t & _ & _ & ->)]; [by destruct s; simpl in *; subst|done]. Qed.
Lemma call_ingress w calls c cb : cube_index INGRESS c <> 0 -> (0 < calls)%nat -> call pass w calls (cube_index INGRESS c) cb = ([], Received c (Z.shiftr cb 16)).
Proof. intros Hc Hl. destruct calls; [lia|]. simpl. by rewrite (nodes_cube INGRESS c Hc). Qed.
Lemma enter_port q w calls cb : live (APort q) -> linked (APort q) w -> let ps := rev (programs INGRESS (p_cubes_ (ports w q))) in (length ps < calls)%nat ->
  call pass w calls (port_index_ (ports w q)) cb = through pass ps ([], Received q.1 (Z.shiftr cb 16)).
Proof.
  intros Hv [[Hc Hi] _] ps Hl. simpl in Hc, Hi. rewrite Hi, call_jump by by apply final_ingress. unfold ps in *. rewrite length_rev in Hl.
  rewrite <- final_flag by done. rewrite (follow_calls _ _ _ _ _ _ Hc) by lia. f_equal.
  rewrite <- call_jump by (pose proof (cube_index_bounds INGRESS q.1); lia). apply call_ingress; [done|lia].
Qed.
Lemma port_index_bounds p w : live (APort p) -> linked (APort p) w -> 0 < port_index_ (ports w p) < 0xffff.
Proof.
  intros Hv [[_ Hi] _]. simpl in Hi. rewrite Hi. pose proof (final_ingress p (p_cubes_ (ports w p)) Hv) as Hn. cbv zeta in Hn.
  destruct (final_cases INGRESS (p_cubes_ (ports w p)) (cube_index INGRESS p.1, false)) as [E|(t & _ & _ & E)]; rewrite E in *; simpl in *.
  - pose proof (cube_index_bounds INGRESS p.1). lia.
  - pose proof (tcube_index_bounds INGRESS t). lia.
Qed.

(** ** Through a device *)
Lemma handler_jump w calls n id : handler pass w calls (loaded n id) = jump w calls (n, false) (Z.shiftl id 16).
Proof. unfold handler, loaded, jump. simpl. by destruct (n =? 0xffff). Qed.
Lemma receive_linked i w calls : sane w -> linked (AnIface i) w ->
  (forall y, peer_ (ifaces w i) = Some y -> exists q, y = APort q /\ live y /\ linked y w) ->
  let ps := programs INGRESS (i_cubes_ (ifaces w i)) ++
    match peer_ (ifaces w i) with Some (APort q) => rev (programs INGRESS (p_cubes_ (ports w q))) | _ => [] end in
  (length ps < calls)%nat ->
  receive pass w calls i =
  through pass ps ([], match peer_ (ifaces w i) with Some (APort q) => Received q.1 q.2 | _ => ToStack end).
Proof.
  intros [_ Hs] [_ [Hc [Hn Hp]]] Hy ps Hl. simpl in Hc, Hn. unfold receive. rewrite (proj1 (Hs i)), Hn, Hp. unfold peer_id.
  set (st := start (AnIface i) w) in *. set (n := final INGRESS (rev (i_cubes_ (ifaces w i))) st) in *.
  assert (forall calls cb, (length (programs INGRESS (i_cubes_ (ifaces w i))) <= calls)%nat -> jump w calls (n.1, false) cb =
    through pass (programs INGRESS (i_cubes_ (ifaces w i))) (jump w (calls - length (programs INGRESS (i_cubes_ (ifaces w i)))) st cb)) as Hfollow.
  { intros calls' cb Hle. unfold n. rewrite <- final_flag by done. rewrite (follow_calls _ _ _ _ _ _ Hc); rewrite programs_rev, ?rev_involutive, ?length_rev; done. }
  unfold ps in Hl. rewrite length_app in Hl.
  rewrite handler_jump, Hfollow by lia. unfold ps. rewrite through_app. f_equal. unfold st. simpl.
  destruct (peer_ (ifaces w i)) as [y|] eqn:Ey; [|done]. destruct (Hy y eq_refl) as (q & -> & Hv & Hq). simpl.
  rewrite <- call_jump by (pose proof (port_index_bounds q w Hv Hq); lia). rewrite enter_port by (done || lia). by rewrite shift_back.
Qed.
Lemma call_egress w calls c cb n :
  cube_index EGRESS c <> 0 -> egress_next (cubes w c) !! Z.shiftr cb 16 = Some n -> n <> 0 ->
  call pass w (S calls) (cube_index EGRESS c) cb =
  through pass [CubeProgram EGRESS c] (jump w calls (n, false) (Z.lor (Z.shiftl (Z.shiftr cb 16) 16) (cube_id c))).
Proof.
  intros Hc Hn H0'. cbn [call]. rewrite nodes_cube by done. rewrite Hn. unfold jump. cbn [through from_option id fst snd].
  by rewrite (proj2 (Z.eqb_neq n 0)).
Qed.
Lemma transmit_linked i w calls : sane w -> linked (AnIface i) w ->
  let own := match peer_ (ifaces w i) with
             | Some (APort q) => if cube_index EGRESS q.1 =? 0 then [] else [CubeProgram EGRESS q.1]
             | _ => [] end in
  let ps := own ++ rev (programs EGRESS (i_cubes_ (ifaces w i))) in
  (length ps <= calls)%nat -> transmit pass w calls i = through pass ps ([], ToStack).
Proof.
  intros [_ Hs] [[Hc [Hp Hn]] _] own ps Hl. simpl in Hc, Hn. unfold transmit. rewrite (proj2 (Hs i)), Hp.
  set (cs := i_cubes_ (ifaces w i)) in *. set (s0 := (0xffff, false) : Z * bool) in *.
  assert (forall calls cb, (length (programs EGRESS cs) <= calls)%nat ->
    jump w calls ((final EGRESS cs s0).1, false) cb = through pass (rev (programs EGRESS cs)) ([], ToStack)) as Hf.
  { intros calls' cb Hle. rewrite <- final_flag by done. by rewrite (follow_calls _ _ _ _ _ _ Hc). }
  unfold ps in *. rewrite length_app, length_rev in Hl.
  assert (if_egress_next_ (ifaces w i) = (final EGRESS cs s0).1 /\ own = [] \/ exists q, peer_ (ifaces w i) = Some (APort q) /\
    cube_index EGRESS q.1 <> 0 /\ own = [CubeProgram EGRESS q.1] /\ if_egress_next_ (ifaces w i) = cube_index EGRESS q.1 /\
    egress_next (cubes w q.1) !! q.2 = Some (final EGRESS cs s0).1) as [[E Eo]|(q & Eq & Hq & Eo & E & En)].
  { unfold own. destruct (peer_ (ifaces w i)) as [[q|j]|]; [|by left..]. destruct (Z.eqb_spec (cube_index EGRESS q.1) 0); [by left|].
    right. exists q. tauto. }
  - rewrite E, Eo. simpl. rewrite handler_jump. apply Hf. rewrite Eo in Hl. simpl in Hl. lia.
  - rewrite E, Eo in *. simpl in Hl. rewrite handler_jump, <- call_jump by (pose proof (cube_index_bounds EGRESS q.1); lia).
    destruct calls as [|calls]; [lia|]. unfold peer_id. rewrite Eq. cbn [get_port_id].
    assert ((final EGRESS cs s0).1 <> 0) as Hnz.
    { destruct (final_cases EGRESS cs s0) as [->|(t & _ & Ht & ->)]; [done|]. unfold has_program in Ht. by apply negb_true_iff, Z.eqb_neq in Ht. }
    rewrite (call_egress w calls q.1 _ (final EGRESS cs s0).1) by (done || by rewrite shift_back). rewrite Hf by lia. by rewrite through_app.
Qed.

(** ** From a port without a peer *)
Lemma forward_disconnected p w calls slot : sane w -> settled (APort p) w -> get_peer_iface (APort p) w = None -> 0 <= p.2 ->
  let ps := programs EGRESS (p_cubes_ (ports w p)) in (length ps <= calls)%nat -> forward pass w calls p.1 slot p.2 = through pass ps ([], Shot).
Proof.
  intros Hs [[_ [Hc Hf]]|(_ & Ec & Ef)] Hpeer Hid ps Hl; simpl in *.
  2: { unfold ps. rewrite Ec. simpl. rewrite forward_lookup by done. rewrite <- (proj1 (proj1 Hs _)). unfold fwd in Ef. by rewrite Ef. }
  rewrite Hpeer in *. rewrite forward_lookup by done. rewrite <- (proj1 (proj1 Hs _)). unfold fwd in Hf. rewrite Hf. unfold out_id. rewrite Hpeer.
  set (n := final EGRESS (rev (p_cubes_ (ports w p))) (0, false)) in *. 
  assert (n.2 = false /\ 0 <= n.1 < 0xffff) as [Hn2 Hn1].
  { unfold n. destruct (final_cases EGRESS (rev (p_cubes_ (ports w p))) (0, false)) as [->|(t & _ & _ & ->)]; simpl; [lia|]. pose proof (tcube_index_bounds EGRESS t). done. }
  assert (forall cb, call pass w calls n.1 cb = through pass ps ([], Shot)) as Hcall.
  { intros cb. rewrite call_jump by lia. rewrite <- Hn2, <- surjective_pairing. unfold n. rewrite (follow_calls _ _ _ _ _ _ Hc); rewrite programs_rev, ?rev_involutive, ?length_rev; [|done].
    f_equal. unfold jump. simpl. destruct (calls - _)%nat; simpl; [done|]. by rewrite nodes_zero. }
  unfold entry_of. cbv zeta. destruct (Z.eqb_spec (Z.lor n.1 (Z.shiftl p.2 16)) 0) as [Ez|Hne].
  - rewrite <- (Hcall 0). rewrite lor_shiftl_add in Ez by lia. assert (n.1 = 0) as -> by nia. destruct calls; simpl; [done|]. by rewrite nodes_zero.
  - unfold redirect_to. simpl. rewrite Hn2, word_low by lia. apply Hcall.
Qed.
End deliver.

Section checked.
Context `{PatchPanel} {RL : Reloads}.
#[export] Instance id_ok_dec x : Decision (id_ok x).
Proof. destruct x; simpl; apply _. Defined.
#[export] Instance other_ok_dec position other cs : Decision (other_ok position other cs).
Proof. unfold other_ok. destruct (String.eqb other ""); apply _. Defined.
(** The conditions of [wire_allowed], with the cubes attached so far in a list. *)
Definition allowed_in (attached : list Z) (op : wire_op) (w : world) : bool :=
  match op with
  | OConnect x y => bool_decide (get_peer_iface x w = None /\ get_peer_iface y w = None /\ x <> y /\ id_ok x /\ id_ok y) &&
      (match x, y with AnIface _, AnIface _ => false | _, _ => true end)
  | OUnconnect x y => bool_decide (get_peer_iface x w = Some y)
  | OAttach x t position other => bool_decide (id_ok x /\ (t ∉ attached) /\ other_ok position other (cubes_ x w)) &&
      (match x with AnIface _ => has_program INGRESS t | APort _ => true end)
  | ODetach x _ => bool_decide (id_ok x)
  end.
Definition attaches (op : wire_op) : list Z := match op with OAttach _ t _ _ => [t] | _ => [] end.
Fixpoint play_wire (attached : list Z) (ops : list wire_op) (w : world) : option world :=
  match ops with
  | [] => Some w
  | op :: ops => if allowed_in attached op w then play_wire (attaches op ++ attached) ops (run_wire op w).2 else None
  end.

Lemma attached_run op w z u : wired w -> wire_allowed op w -> u ∈ cubes_ z (run_wire op w).2 -> u ∈ attaches op ++ cubes_ z w.
Proof.
  intros Hw Ha Hin. destruct (run_wire_ok op w Hw Ha) as [_ Hs]. destruct (spec_step op (configuration w)) as [c|e|] eqn:E; [|by rewrite Hs in Hin; set_solver|done].
  destruct Hs as [_ Hs]. destruct (Hs z) as [_ Hc]. change (cubes_ z (run_wire op w).2) with (c_cubes (configuration (run_wire op w).2) z) in Hin. rewrite Hc in Hin.
  destruct op as [x y|x y|x t position other|x name]; simpl in *.
  - by injection E as <-.
  - by injection E as <-.
  - apply res_bind_Ok in E as (k & _ & [= <-]). simpl in Hin. unfold upd in Hin. destruct (decide (z = x)) as [->|]; [|set_solver].
    rewrite <- Permutation_middle, take_drop in Hin. set_solver.
  - destruct (erase_named name (cubes_ x w)) as [l|] eqn:El; [|done]. injection E as <-. simpl in Hin. unfold upd in Hin.
    destruct (decide (z = x)) as [->|]; [|done]. eapply elem_of_submseteq; [done|]. by eapply sublist_submseteq, erase_named_sublist.
Qed.
Lemma play_wire_reachable attached ops w w' :
  wire_reachable w -> (forall z u, u ∈ cubes_ z w -> u ∈ attached) -> play_wire attached ops w = Some w' -> wire_reachable w'.
Proof.
  revert attached w. induction ops as [|op ops IH]; intros attached w Hr Hat; simpl; [by intros [= <-]|].
  destruct (allowed_in attached op w) eqn:E; [|done].
  assert (wire_allowed op w) as Ha.
  { destruct op as [x y|x y|x t position other|x name]; simpl in *.
    - apply andb_true_iff in E as [E%bool_decide_eq_true Hk]. destruct E as (? & ? & ? & ? & ?). do 5 (split; [done|]). by destruct x, y.
    - by apply bool_decide_eq_true in E.
    - apply andb_true_iff in E as [(Hi & Ht & Ho)%bool_decide_eq_true Hk]. split; [done|]. split; [intros z Hz; by apply Hat in Hz|]. split; [done|]. by destruct x.
    - by apply bool_decide_eq_true in E. }
  apply IH; [by constructor|]. intros z u Hu. apply attached_run in Hu; [|by apply wire_reachable_wired|done]. set_solver.
Qed.
End checked.

(** Cube 1 has a program in each direction, cube 2 one for incoming packets; the
    transparent cubes 10 and 12 filter both directions, 11 incoming packets only and
    13 outgoing packets only. *)
#[export] Instance demo_programs : Programs := {
  program_slots c := match c with 1 => [(INGRESS, 0); (EGRESS, 0)] | 2 => [(INGRESS, 0)] | _ => [] end;
  reload_error _ _ _ := None;
  cube_index type c := match type, c with INGRESS, 1 => 1 | EGRESS, 1 => 2 | INGRESS, 2 => 3 | _, _ => 0 end;
  tcube_index type t := match type, t with INGRESS, 10 => 4 | EGRESS, 10 => 5 | INGRESS, 11 => 6 | INGRESS, 12 => 7 | EGRESS, 12 => 8 | EGRESS, 13 => 9 | _, _ => 0 end;
  ifindex i := i;
  tcube_name t := match t with 10 => "n" | 11 => "d" | 12 => "f" | 13 => "m" | _ => "" end%string;
  tcube_service t := match t with 10 => "nat" | 11 => "ddosmitigator" | _ => "firewall" end%string;
}.
Definition demo_nodes (index : Z) : option program :=
  match index with
  | 1 => Some (CubeProgram INGRESS 1) | 2 => Some (CubeProgram EGRESS 1) | 3 => Some (CubeProgram INGRESS 2)
  | 4 => Some (TCubeProgram INGRESS 10) | 5 => Some (TCubeProgram EGRESS 10) | 6 => Some (TCubeProgram INGRESS 11)
  | 7 => Some (TCubeProgram INGRESS 12) | 8 => Some (TCubeProgram EGRESS 12) | 9 => Some (TCubeProgram EGRESS 13)
  | _ => None
  end.
#[export] Instance demo_reloads : Reloads.
Proof. done. Qed.
#[export] Instance demo_panel : PatchPanel.
Proof.
  refine {| nodes := demo_nodes; cube_id := id |}; simpl.
  - done.
  - intros type c. repeat case_match; done.
  - intros type t. repeat case_match; done.
  - intros type c. repeat case_match; lia.
  - intros type t. repeat case_match; lia.
Defined.

Definition world0 : world := World (fun _ => TCube 0 0 false) (fun _ => WPort_ 777 None []) (fun _ => fresh_iface) (fun _ => WCube_ ∅ ∅ ∅ (fun _ => [])).
Definition demo_ops : list wire_op := [
  OConnect (APort (1, 0)) (APort (2, 0));
  OAttach (APort (1, 0)) 12 "last" "";
  OAttach (APort (2, 0)) 10 "last" "";
  OAttach (APort (2, 0)) 11 "auto" "";
  OConnect (AnIface 5) (APort (1, 1));
  OAttach (APort (1, 1)) 13 "first" ""
]%string.
Definition demo_world : world := default world0 (play_wire [] demo_ops world0).
Lemma demo_reachable : wire_reachable demo_world.
Proof.
  apply (play_wire_reachable [] demo_ops world0).
  - constructor. split; [done|]. split; [done|]. done.
  - intros [p|i] u; simpl; set_solver.
  - unfold demo_world. assert (exists w, play_wire [] demo_ops world0 = Some w) as [w ->]; [|done].
    destruct (play_wire [] demo_ops world0) eqn:E; [eauto|]. exfalso. revert E. vm_compute. done.
Qed.
