(* ===== verification/WiringTheorems.v ===== *)
(** polycubed, the properties of the wiring of service chains, and concrete states in
    which the wiring does not do what it means to. *)
From Stdlib Require Import ZArith Lia Ascii String.
From stdpp Require Import base gmap list strings numbers sorting.
From S2P Require Import Prelude.
From S2P Require Import Wiring.
From S2P Require Import WiringPath.
From S2P Require Import WiringFacts.
From S2P Require Import WiringInvariant.
From S2P Require Import WiringRun.
From S2P Require Import WiringCtl.
From S2P Require Import WiringDeliver.
#[local] Open Scope Z_scope.

(** Tail calls that Linux allows a packet. *)
#[local] Abbreviation MAX_TAIL_CALL_CNT := 33%nat.

(** C20. Whatever was connected and attached before (as [wiring_does_what_it_says]
    allows it), and in which order, as long as the programs of the cubes compile and
    load when they are reloaded, a packet that any of the incoming programs of a cube
    sends out of a port connected to another port goes through the outgoing programs of
    the first port's transparent cubes, from the innermost to the outermost, then the
    incoming programs of the second port's, from the outermost to the innermost, and the
    other cube receives it on that port, unless one of them drops it. The path must fit
    the tail calls that the kernel allows. *)
Theorem packet_between_ports `{PatchPanel} {RL : Reloads} pass w p q slot calls :
  wire_reachable w -> get_peer_iface (APort p) w = Some (APort q) ->
  let path := programs EGRESS (cubes_ (APort p) w) ++ rev (programs INGRESS (cubes_ (APort q) w)) in
  (length path < calls)%nat ->
  forward pass w calls p.1 slot p.2 = through pass path ([], Received q.1 q.2).
Proof.
  intros Hw%wire_reachable_wired Hp path Hl. destruct (wired_connected _ Hw _ _ Hp) as (Hq & _).
  pose proof (settled_linked _ _ _ (wired_settled _ Hw _) Hp) as Lp. pose proof (settled_linked _ _ _ (wired_settled _ Hw _) Hq) as Lq.
  pose proof (wired_ids _ Hw _ _ Hp) as [Ip Vp]. pose proof (wired_ids _ Hw _ _ Hq) as [Iq Vq].
  pose proof (port_index_bounds q w Vq Lq) as Hb. unfold path in *. rewrite length_app in Hl. simpl in Hp, Hl.
  assert (start (APort p) w = (port_index_ (ports w q), false)) as Es by (simpl; rewrite Hp; simpl; by rewrite (proj2 (Z.eqb_neq _ _)) by lia).
  assert (out_id p w = q.2) as Eo by (unfold out_id; by rewrite Hp).
  destruct (forward_linked pass p w calls slot (wired_sane _ Hw) Lp) as (cb & Hcb & ->); [rewrite Es; split; simpl; lia|lia|lia|].
  rewrite Es, through_app, <- call_jump by lia. f_equal. rewrite enter_port by (done || lia). by rewrite Hcb, Eo.
Qed.
Lemma packet_between_ports_witness :
  forward (fun _ => true) demo_world MAX_TAIL_CALL_CNT 1 0 0 =
  ([TCubeProgram EGRESS 12; TCubeProgram INGRESS 11; TCubeProgram INGRESS 10], Received 2 0).
Proof.
  rewrite (packet_between_ports (fun _ => true) demo_world (1, 0) (2, 0) 0 MAX_TAIL_CALL_CNT demo_reachable); [|vm_compute; reflexivity|vm_compute; lia].
  vm_compute. reflexivity.
Defined.

(** C21. Whatever was connected and attached before (as [wiring_does_what_it_says]
    allows it), as long as the programs of the cubes compile and load when they are
    reloaded, a packet that comes from a device goes through the incoming programs of
    the transparent cubes of the device, in the order of its list, then through those of
    the port it is connected to, from the outermost to the innermost, and the port's
    cube receives it on that port, unless one of them drops it; without a connected port
    the kernel goes on with it. The path must fit the tail calls that the kernel allows.
    *)
Theorem packet_from_device `{PatchPanel} {RL : Reloads} pass w i calls :
  wire_reachable w ->
  let path := programs INGRESS (cubes_ (AnIface i) w) ++
    match get_peer_iface (AnIface i) w with Some y => rev (programs INGRESS (cubes_ y w)) | None => [] end in
  (length path < calls)%nat ->
  receive pass w calls i =
  through pass path ([], match get_peer_iface (AnIface i) w with Some (APort p) => Received p.1 p.2 | _ => ToStack end).
Proof.
  intros Hw%wire_reachable_wired path Hl.
  assert (linked (AnIface i) w) as Li by by destruct (wired_settled _ Hw (AnIface i)).
  assert (forall y, peer_ (ifaces w i) = Some y -> exists q, y = APort q /\ live y /\ linked y w) as Hy.
  { intros y Ey. destruct (wired_connected _ Hw (AnIface i) y Ey) as (Eb & _ & q & ->). exists (q). split; [done|].
    split; [apply id_live, (wired_ids _ Hw _ _ Eb)|]. by eapply settled_linked; [apply (wired_settled _ Hw)|]. }
  rewrite (receive_linked pass i w calls (wired_sane _ Hw) Li Hy); unfold path in *; simpl in *; destruct (peer_ (ifaces w i)) as [y|] eqn:Ey; try done;
    destruct (Hy y eq_refl) as (q & -> & _); done.
Qed.
Lemma packet_from_device_witness :
  receive (fun _ => true) demo_world MAX_TAIL_CALL_CNT 5 = ([], Received 1 1) /\ receive (fun _ => true) demo_world MAX_TAIL_CALL_CNT 6 = ([], ToStack).
Proof.
  split; [rewrite (packet_from_device (fun _ => true) demo_world 5 MAX_TAIL_CALL_CNT demo_reachable)
         |rewrite (packet_from_device (fun _ => true) demo_world 6 MAX_TAIL_CALL_CNT demo_reachable)]; vm_compute; first [reflexivity|lia].
Defined.

(** A packet that a cube sends out of a port connected to a device goes through
    the outgoing programs of the port's transparent cubes and out of that device;
    there it goes through the cube's own outgoing program, if it has one, and through
    the outgoing programs of the device's transparent cubes, the last of its list
    first, before it leaves. *)
Theorem packet_to_device `{PatchPanel} {RL : Reloads} pass w p i slot calls :
  wire_reachable w -> get_peer_iface (APort p) w = Some (AnIface i) ->
  let inner := programs EGRESS (cubes_ (APort p) w) in
  let outer := (if cube_index EGRESS p.1 =? 0 then [] else [CubeProgram EGRESS p.1]) ++ rev (programs EGRESS (cubes_ (AnIface i) w)) in
  (length inner <= calls)%nat -> (length outer <= calls)%nat ->
  forward pass w calls p.1 slot p.2 = through pass inner ([], Redirected (ifindex i)) /\
  transmit pass w calls i = through pass outer ([], ToStack).
Proof.
  intros Hw%wire_reachable_wired Hp inner outer Hl Ho. destruct (wired_connected _ Hw _ _ Hp) as (Hi & _).
  pose proof (settled_linked _ _ _ (wired_settled _ Hw _) Hp) as Lp. pose proof (settled_linked _ _ _ (wired_settled _ Hw _) Hi) as Li.
  pose proof (wired_ids _ Hw _ _ Hp) as [Ip Vp]. pose proof (wired_ids _ Hw _ _ Hi) as Ii. simpl in Ii, Hp, Hi.
  assert (start (APort p) w = (ifindex i, true)) as Es.
  { simpl. rewrite Hp. simpl. unfold u16. change (2 ^ 16) with 0x10000. by rewrite Z.mod_small by lia. }
  split.
  - destruct (forward_linked pass p w calls slot (wired_sane _ Hw) Lp) as (cb & _ & ->); [rewrite Es; split; simpl; auto; lia|unfold out_id; rewrite Hp; lia|done|].
    by rewrite Es.
  - pose proof (transmit_linked pass i w calls (wired_sane _ Hw) Li) as Ht. rewrite Hi in Ht. by apply Ht.
Qed.
Lemma packet_to_device_witness :
  forward (fun _ => true) demo_world MAX_TAIL_CALL_CNT 1 0 1 = ([TCubeProgram EGRESS 13], Redirected 5) /\
  transmit (fun _ => true) demo_world MAX_TAIL_CALL_CNT 5 = ([CubeProgram EGRESS 1], ToStack).
Proof.
  destruct (packet_to_device (fun _ => true) demo_world (1, 1) 5 0 MAX_TAIL_CALL_CNT demo_reachable) as [H1 H2]; [vm_compute; reflexivity|vm_compute; lia..|].
  cbn [fst snd] in H1. rewrite H1, H2. vm_compute. split; reflexivity.
Defined.

(** A packet that a cube sends out of a port without a peer is dropped, at the
    latest after the outgoing programs of the port's transparent cubes: also when the
    port was connected before. *)
Theorem packet_to_nowhere `{PatchPanel} {RL : Reloads} pass w p slot calls :
  wire_reachable w -> get_peer_iface (APort p) w = None -> 0 <= p.2 ->
  (length (programs EGRESS (cubes_ (APort p) w)) <= calls)%nat ->
  (forward pass w calls p.1 slot p.2).2 = Shot /\ Forall (fun a => a ∈ programs EGRESS (cubes_ (APort p) w)) (forward pass w calls p.1 slot p.2).1.
Proof.
  intros Hw%wire_reachable_wired Hp Hid Hl. rewrite (forward_disconnected pass p w calls slot (wired_sane _ Hw) (wired_settled _ Hw _) Hp Hid Hl).
  simpl. generalize (programs EGRESS (p_cubes_ (ports w p))). clear. intros l. induction l as [|a l [IH1 IH2]]; simpl; [done|].
  destruct (pass a); simpl; (split; [done|]); constructor; try set_solver. eapply list.Forall_impl; [exact IH2|]. set_solver.
Qed.
Definition demo_unplugged : world := (run_wire (OUnconnect (APort (1, 0)) (APort (2, 0))) demo_world).2.
Lemma packet_to_nowhere_witness : (forward (fun _ => true) demo_unplugged MAX_TAIL_CALL_CNT 1 0 0).2 = Shot.
Proof.
  apply (packet_to_nowhere (fun _ => true) demo_unplugged (1, 0) 0 MAX_TAIL_CALL_CNT); [|vm_compute; reflexivity|done|vm_compute; lia].
  apply reach_op; [exact demo_reachable|vm_compute; reflexivity].
Defined.


(** C23. In every state that connecting, disconnecting, attaching and detaching (as
    [wiring_does_what_it_says] allows them) lead to when every reload of a cube's
    programs succeeds, the switch that each loaded program of a cube was compiled with
    agrees with the cube's table of peers, so that forwarding from any of its incoming
    programs to any port is a lookup in that table. The reload after each change of the
    table is what keeps them together: when it fails the old switch stays, see
    [stale_switch]. *)
Theorem forward_is_lookup `{PatchPanel} {RL : Reloads} pass w c slot port calls :
  wire_reachable w ->
  forward pass w calls c slot port =
  match _POLYCUBE_peers (cubes w c) !! port with Some peer => redirect_to pass w calls peer | None => ([], Shot) end.
Proof. intros Hw%wire_reachable_wired. apply forward_lookup, (wired_sane _ Hw). Qed.
Lemma forward_is_lookup_witness : forward (fun _ => true) demo_world MAX_TAIL_CALL_CNT 2 0 7 = ([], Shot) /\
  (exists case, case ∈ switch_ (cubes demo_world 1) (INGRESS, 0) /\ case.1 = 0) /\
  forward (fun _ => true) demo_world MAX_TAIL_CALL_CNT 1 0 0 =
    match _POLYCUBE_peers (cubes demo_world 1) !! 0 with Some peer => redirect_to (fun _ => true) demo_world MAX_TAIL_CALL_CNT peer | None => ([], Shot) end.
Proof.
  split; [rewrite (forward_is_lookup (fun _ => true) demo_world 2 0 7 MAX_TAIL_CALL_CNT demo_reachable); vm_compute; reflexivity|].
  split; [eexists; split; [apply list_elem_of_In; vm_compute; left; reflexivity|reflexivity]|].
  exact (forward_is_lookup (fun _ => true) demo_world 1 0 0 MAX_TAIL_CALL_CNT demo_reachable).
Defined.

(** C24. Two free and different ports that were never connected or named before (no name
    is stored for either, and the controller has no entry for either) become connected
    exactly when each has been given the name of the other, whichever comes first, and
    not before, as long as the programs of the cubes compile and load when they are
    reloaded; the invariant of the wiring is kept. Ports that were named before may stay
    unconnected, see [never_again]. *)
Theorem ports_connect_when_both_name `{PatchPanel} {RL : Reloads} p q s :
  wire_reachable (wiring s) -> id_ok (APort p) -> id_ok (APort q) -> p <> q ->
  get_peer_iface (APort p) (wiring s) = None -> get_peer_iface (APort q) (wiring s) = None ->
  peer_name s !! p = None -> peer_name s !! q = None -> ports_to_ports s !! p = None -> ports_to_ports s !! q = None ->
  let s1 := (set_peer p (Some (APort q)) s).2 in
  let s2 := (set_peer q (Some (APort p)) s1).2 in
  wiring s1 = wiring s /\ (set_peer q (Some (APort p)) s1).1 = Ok tt /\ wire_reachable (wiring s2) /\
  get_peer_iface (APort p) (wiring s2) = Some (APort q) /\ get_peer_iface (APort q) (wiring s2) = Some (APort p).
Proof.
  intros Hr Ip Iq Hne Pp Pq Np Nq Ep Eq. rewrite name_first by (done || by rewrite Np). cbn [snd wiring].
  set (op := OConnect (APort q) (APort p)). assert (wire_allowed op (wiring s)) as Ha by (split; [done|]; split; [done|]; split; [congruence|]; split; [exact Iq|]; split; [exact Ip|done]).
  destruct (run_wire_ok op (wiring s) (wire_reachable_wired _ Hr) Ha) as [_ [Hok Hc]]. simpl in Hok, Hc.
  rewrite name_back; [|cbn [wiring peer_name ports_to_ports]; rewrite ?lookup_insert_eq, ?lookup_insert_ne, ?Nq; done..]. cbn [fst snd wiring].
  split; [done|]. split; [done|]. split; [by apply (reach_op op)|]. split.
  - etransitivity; [apply (Hc (APort p))|]. simpl. unfold upd. by rewrite decide_True.
  - etransitivity; [apply (Hc (APort q))|]. simpl. unfold upd. rewrite decide_False by congruence. by rewrite decide_True.
Qed.
Definition demo_controller : controller := Controller demo_world ∅ ∅.
Lemma ports_connect_when_both_name_witness :
  get_peer_iface (APort (1, 7)) (wiring (set_peer (2, 4) (Some (APort (1, 7))) (set_peer (1, 7) (Some (APort (2, 4))) demo_controller).2).2) = Some (APort (2, 4)).
Proof.
  assert (forall p, p ∈ [(1, 7); (2, 4)] -> id_ok (APort p)) as Hid.
  { intros p Hp. repeat (apply elem_of_cons in Hp as [->|Hp]; [split; [split; [discriminate|reflexivity]|discriminate]|]). by apply elem_of_nil in Hp. }
  assert (forall p, p ∈ [(1, 7); (2, 4)] -> get_peer_iface (APort p) (wiring demo_controller) = None) as Hfree.
  { intros p Hp. repeat (apply elem_of_cons in Hp as [->|Hp]; [vm_compute; reflexivity|]). by apply elem_of_nil in Hp. }
  assert (forall p, peer_name demo_controller !! p = None /\ ports_to_ports demo_controller !! p = None) as Hno by (intros p; split; apply lookup_empty).
  assert (wire_reachable (wiring demo_controller)) as Hr by exact demo_reachable.
  assert ((1, 7) <> (2, 4)) as Hne by discriminate.
  assert ((1, 7) ∈ [(1, 7); (2, 4)]) as In1 by left. assert ((2, 4) ∈ [(1, 7); (2, 4)]) as In2 by (right; left).
  pose proof (ports_connect_when_both_name (1, 7) (2, 4) demo_controller Hr (Hid _ In1) (Hid _ In2)
    Hne (Hfree _ In1) (Hfree _ In2) (proj1 (Hno (1, 7))) (proj1 (Hno (2, 4))) (proj2 (Hno (1, 7))) (proj2 (Hno (2, 4)))) as Hc.
  cbv zeta in Hc. destruct Hc as (_ & _ & _ & Hc & _). exact Hc.
Defined.

(** Cube 1 does not compile once its port 0, with no cubes attached, is free.
    Disconnecting that port throws
    half way: the table has forgotten the peer, but the loaded program still has the
    old switch and goes on sending to cube 2. *)
Definition demo_bare : world := (run_wire (ODetach (APort (1, 0)) "f") demo_world).2.
Section failing.
#[local] Instance failing_programs : Programs := {
  cube_index := @cube_index demo_programs; tcube_index := @tcube_index demo_programs; ifindex := ifindex;
  tcube_name := tcube_name; tcube_service := tcube_service; program_slots := program_slots;
  reload_error c k code := if (c =? 1) && negb (existsb (fun case => case.1 =? 0) code) then Some (RuntimeError "failed to init ebpf program") else None;
}.
#[local] Instance failing_panel : PatchPanel.
Proof.
  refine {| nodes := @nodes demo_programs demo_panel; cube_id := @cube_id demo_programs demo_panel |}.
  - exact (@nodes_zero demo_programs demo_panel).
  - exact (@nodes_cube demo_programs demo_panel).
  - exact (@nodes_tcube demo_programs demo_panel).
  - exact (@cube_index_bounds demo_programs demo_panel).
  - exact (@tcube_index_bounds demo_programs demo_panel).
Defined.
Definition half_unplugged : res unit * world := run_wire (OUnconnect (APort (1, 0)) (APort (2, 0))) demo_bare.
Lemma stale_switch :
  half_unplugged.1 = Throw (RuntimeError "failed to init ebpf program") /\
  get_peer_iface (APort (1, 0)) half_unplugged.2 = None /\ _POLYCUBE_peers (cubes half_unplugged.2 1) !! 0 = None /\
  (forward (fun _ => true) half_unplugged.2 MAX_TAIL_CALL_CNT 1 0 0).2 = Received 2 0.
Proof. split; [|split; [|split]]; vm_compute; reflexivity. Qed.
End failing.

(** A cube that filters only outgoing packets is attached to a device.  The next cube
    that is attached to the port the device is connected to makes
    [ExtIface::set_next_index] read past the end of its vector: the loop that starts
    at the last cube counts upwards. *)
Definition outgoing_on_device : world := (run_wire (OAttach (AnIface 5) 13 "last" "") (run_wire (ODetach (APort (1, 1)) "m") demo_world).2).2.
Lemma upward_loop : (run_wire (OAttach (APort (1, 1)) 14 "last" "") outgoing_on_device).1 = Undefined.
Proof. vm_compute. reflexivity. Qed.

(** The cube named as [other] is not there.  The check compares the wrong variable,
    and the new cube is inserted past the end of the vector. *)
Lemma missing_other : (run_wire (OAttach (APort (2, 0)) 13 "after" "x") demo_world).1 = Undefined /\
  (run_wire (OAttach (APort (1, 1)) 11 "before" "x") (run_wire (ODetach (APort (1, 1)) "m") demo_world).2).1 = Throw (RuntimeError "Cube doesn't exist").
Proof. split; vm_compute; reflexivity. Qed.

(** [ports_to_ports] keeps the first name for ever.  After (1,7) was connected to
    (2,4) and disconnected, (1,7) and (2,5) name each other and are not connected;
    and when (1,7) is connected to a device, (2,4) takes it over by naming it once
    more, while the device still has it as its peer. *)
Definition setup : list (Z * Z * option PeerIface) := [((1, 7), Some (APort (2, 4))); ((2, 4), Some (APort (1, 7))); ((1, 7), None)].
Definition set_peers (l : list (Z * Z * option PeerIface)) (s : controller) : controller := fold_left (fun s c => (set_peer c.1 c.2 s).2) l s.
Definition after_setup : controller := set_peers setup (Controller demo_world ∅ ∅).
Lemma never_again :
  let s := set_peers [((1, 7), Some (APort (2, 5))); ((2, 5), Some (APort (1, 7)))] after_setup in
  peer_name s !! (1, 7) = Some (APort (2, 5)) /\ peer_name s !! (2, 5) = Some (APort (1, 7)) /\
  get_peer_iface (APort (1, 7)) (wiring s) = None /\ get_peer_iface (APort (2, 5)) (wiring s) = None.
Proof. vm_compute. done. Qed.
Lemma taken_over :
  let s := set_peers [((1, 7), Some (AnIface 6)); ((2, 4), None); ((2, 4), Some (APort (1, 7)))] after_setup in
  get_peer_iface (APort (1, 7)) (wiring s) = Some (APort (2, 4)) /\ get_peer_iface (AnIface 6) (wiring s) = Some (APort (1, 7)).
Proof. vm_compute. done. Qed.
(** A port asks for a device in use: it is disconnected, and keeps the name of the
    peer it had, so naming that peer once more does nothing. *)
Lemma lost_peer :
  let s := set_peers [((1, 1), Some (AnIface 5)); ((2, 0), Some (AnIface 6)); ((2, 0), Some (AnIface 5)); ((2, 0), Some (AnIface 6))]
    (Controller world0 ∅ ∅) in
  peer_name s !! (2, 0) = Some (AnIface 6) /\ get_peer_iface (APort (2, 0)) (wiring s) = None.
Proof. vm_compute. done. Qed.
