(* ===== verification/Loader.v ===== *)
(** polycubed, the programs of cubes and the patch panel (base_cube.cpp,
    patchpanel.cpp): which program runs at which index. *)
From Stdlib Require Import ZArith Lia Ascii String.
From stdpp Require Import base gmap list strings numbers.
From S2P Require Import Prelude.
From S2P Require Import Vec.
From S2P Require Import Wiring.
#[local] Open Scope Z_scope.
#[local] Open Scope cpp_scope.

Inductive CubeType := TC | XDP.
#[export] Instance CubeType_eq_dec : EqDecision CubeType.
Proof. solve_decision. Defined.

Definition _POLYCUBE_MAX_NODES : Z := 1024.
Definition _POLYCUBE_MAX_BPF_PROGRAMS : nat := 64.

(** The two patch panels share the set of free indexes.  A program is known by the
    file descriptor that loading it gave. *)
Record panel := Panel {
  node_ids_ : list Z;
  nodes_ : CubeType -> gmap Z Z;
  nodes_present_ : CubeType -> gset Z;
}.
Definition new_panel : panel := Panel (set_range 1 (Z.to_nat (_POLYCUBE_MAX_NODES - 1))) (fun _ => ∅) (fun _ => ∅).

(** [programs.at(i)]: nothing, a program that was not loaded, or a loaded one. *)
Inductive slot := Empty | Unloaded | Loaded (fd : Z).
#[export] Instance slot_eq_dec : EqDecision slot.
Proof. solve_decision. Defined.
Definition is_empty (s : slot) : bool := match s with Empty => true | _ => false end.
(** [programs], [programs_code], [programs_table] and [first_program_index] of one direction. *)
Record slots := Slots { programs_ : list slot; code_ : list string; table_ : gmap Z Z; index_ : Z }.
Definition no_slots : slots := Slots (replicate _POLYCUBE_MAX_BPF_PROGRAMS Empty) (replicate _POLYCUBE_MAX_BPF_PROGRAMS ""%string) ∅ 0.
Record base_cube := BaseCube { type_ : CubeType; transparent : bool; ingress_ : slots; egress_ : slots }.
Record loader := Loader { panel_ : panel; base_cubes : gmap Z base_cube }.

(** * PatchPanel *)
Definition panel_add (t : CubeType) (fd : Z) : M panel Z := fun s =>
  match node_ids_ s with
  | p :: _ => (Ok p, Panel (set_erase p (node_ids_ s)) (upd t (<[p := fd]> (nodes_ s t)) (nodes_ s)) (upd t ({[p]} ∪ nodes_present_ s t) (nodes_present_ s)))
  | [] => (Undefined, s)
  end.
Definition panel_add_at (t : CubeType) (fd index : Z) : M panel unit := fun s =>
  if bool_decide (index ∈ nodes_present_ s t) then (Throw (RuntimeError "Index is busy"), s)
  else (Ok tt, Panel (set_erase index (node_ids_ s)) (upd t (<[index := fd]> (nodes_ s t)) (nodes_ s)) (upd t ({[index]} ∪ nodes_present_ s t) (nodes_present_ s))).
Definition panel_remove (t : CubeType) (index : Z) : M panel unit := fun s =>
  (Ok tt, Panel (set_insert index (node_ids_ s)) (upd t (delete index (nodes_ s t)) (nodes_ s)) (fun t' => nodes_present_ s t' ∖ {[index]})).
Definition panel_update (t : CubeType) (index fd : Z) : M panel unit := fun s =>
  if bool_decide (index ∈ nodes_present_ s t) then (Ok tt, Panel (node_ids_ s) (upd t (<[index := fd]> (nodes_ s t)) (nodes_ s)) (nodes_present_ s))
  else (Throw (RuntimeError "Index is not registered"), s).

(** * BaseCube: one direction of one cube.  [fd] is what compiling and loading gives. *)
Definition direction : Type := panel * slots.
Definition on_panel {A} (m : M panel A) : M direction A := fun s => let '(r, p) := m s.1 in (r, (p, s.2)).
Definition set_slot (i : Z) (v : slot) (s : slots) : slots := Slots (<[Z.to_nat i := v]> (programs_ s)) (code_ s) (table_ s) (index_ s).
Definition set_code (i : Z) (v : string) (s : slots) : slots := Slots (programs_ s) (<[Z.to_nat i := v]> (code_ s)) (table_ s) (index_ s).
Definition set_table (f : gmap Z Z -> gmap Z Z) (s : slots) : slots := Slots (programs_ s) (code_ s) (f (table_ s)) (index_ s).
Definition set_index (n : Z) (s : slots) : slots := Slots (programs_ s) (code_ s) (table_ s) n.
Definition on_slots (f : slots -> slots) : M direction unit := modify (fun s => (s.1, f s.2)).

Fixpoint first_empty (i : Z) (l : list slot) : option Z :=
  match l with [] => None | s :: l => if is_empty s then Some i else first_empty (i + 1) l end.
(** [index >= programs.size()] compares unsigned: -1 is the greatest number. *)
Definition slot_for (index : Z) (s : slots) : res Z :=
  if (index <? -1) || (Z.of_nat (length (programs_ s)) <=? u64 index) then Throw (RuntimeError "Invalid ebpf program index")
  else if negb (index =? -1) then
    match programs_ s !! Z.to_nat index with
    | Some Empty => Ok index
    | _ => Throw (RuntimeError "Program is not empty")
    end
  else match first_empty 0 (programs_ s) with Some i => Ok i | None => Throw (RuntimeError "Maximum number of programs reached") end.
Definition do_add_program (t : CubeType) (code : string) (index : Z) (fd : res Z) : M direction Z :=
  s <-- get ;;
  index <-- lift (slot_for index s.2) ;;
  on_slots (set_slot index Unloaded) ;;;
  fd <-- lift fd ;;
  on_slots (set_slot index (Loaded fd)) ;;;
  on_slots (set_table <[index := fd]>) ;;;
  (if index =? 0 then
     s <-- get ;;
     if index_ s.2 =? 0 then n <-- on_panel (panel_add t fd) ;; on_slots (set_index n)
     else on_panel (panel_update t (index_ s.2) fd)
   else ret tt) ;;;
  on_slots (set_code index code) ;;;
  ret index.

(** The slot, when there is a program in it (a negative [int] compares as a great
    number in [do_reload], which has no check of its own for it). *)
Definition filled (what : string) (index : Z) (s : slots) : res unit :=
  if (index <? 0) || (Z.of_nat (length (programs_ s)) <=? u64 index) then Throw (RuntimeError "Invalid ebpf program index")
  else match programs_ s !! Z.to_nat index with
       | Some Empty | None => Throw (RuntimeError what)
       | Some _ => Ok tt
       end.
Definition do_reload (t : CubeType) (code : string) (index : Z) (fd : res Z) : M direction unit :=
  s <-- get ;;
  lift (filled "ebpf does not exist" index s.2) ;;;
  fd <-- lift fd ;;
  on_slots (set_table <[index := fd]>) ;;;
  (if index =? 0 then on_panel (panel_update t (index_ s.2) fd) else ret tt) ;;;
  on_slots (set_slot index (Loaded fd)) ;;;
  on_slots (set_code index code).
Definition do_del_program (index : Z) : M direction unit :=
  s <-- get ;;
  lift (filled "ebpf program does not exist" index s.2) ;;;
  on_slots (set_table (delete index)) ;;;
  on_slots (set_slot index Empty) ;;;
  on_slots (set_code index "").
(** One of the two loops of [reload_all]: every program again, with its own code. *)
Definition reload_slot (t : CubeType) (fds : Z -> res Z) (i : nat) : M direction unit :=
  s <-- get ;;
  match programs_ s.2 !! i with
  | Some Empty | None => ret tt
  | Some _ => do_reload t (default ""%string (code_ s.2 !! i)) (Z.of_nat i) (fds (Z.of_nat i))
  end.
Definition reload_slots (t : CubeType) (fds : Z -> res Z) : M direction unit :=
  for_each (seq 0 _POLYCUBE_MAX_BPF_PROGRAMS) (reload_slot t fds).
(** [uninit], for one direction: the entry in the patch panel, and the programs. *)
Definition uninit_index (t : CubeType) : M direction unit :=
  s <-- get ;;
  if index_ s.2 =? 0 then ret tt else on_panel (panel_remove t (index_ s.2)).
Definition uninit_slot (i : nat) : M direction unit :=
  s <-- get ;;
  match programs_ s.2 !! i with Some Empty | None => ret tt | Some _ => do_del_program (Z.of_nat i) end.
Definition uninit_slots : M direction unit := for_each (seq 0 _POLYCUBE_MAX_BPF_PROGRAMS) uninit_slot.

(** * The daemon: one of its cubes, in one direction.  XDP cubes replace the methods
    for outgoing programs by their own: the operations are those of TC cubes. *)
Definition slots_of (type : ProgramType) (c : base_cube) : slots := match type with INGRESS => ingress_ c | EGRESS => egress_ c end.
Definition set_slots (type : ProgramType) (s : slots) (c : base_cube) : base_cube :=
  match type with
  | INGRESS => BaseCube (type_ c) (transparent c) s (egress_ c)
  | EGRESS => BaseCube (type_ c) (transparent c) (ingress_ c) s
  end.
Definition on_cube {A} (c : Z) (type : ProgramType) (m : CubeType -> M direction A) : M loader A := fun s =>
  match base_cubes s !! c with
  | None => (Undefined, s)
  | Some b =>
      let '(r, (p, sl)) := m (type_ b) (panel_ s, slots_of type b) in
      (r, Loader p (<[c := set_slots type sl b]> (base_cubes s)))
  end.
Definition get_program_index (c : Z) (type : ProgramType) (s : loader) : Z :=
  match base_cubes s !! c with Some b => index_ (slots_of type b) | None => 0 end.

Inductive load_op :=
  | LCreate (c : Z) (tr : bool)
  | LAdd (c : Z) (type : ProgramType) (code : string) (index : Z) (fd : res Z)
  | LReload (c : Z) (type : ProgramType) (code : string) (index : Z) (fd : res Z)
  | LReloadAll (c : Z) (fds : ProgramType -> Z -> res Z)
  | LDel (c : Z) (type : ProgramType) (index : Z)
  | LDestroy (c : Z).
Definition run_load (op : load_op) : M loader unit :=
  match op with
  | LCreate c tr => modify (fun s => Loader (panel_ s) (<[c := BaseCube TC tr no_slots no_slots]> (base_cubes s)))
  | LAdd c type code index fd => on_cube c type (fun t => do_add_program t code index fd) ;;; ret tt
  | LReload c type code index fd => on_cube c type (fun t => do_reload t code index fd)
  | LReloadAll c fds => on_cube c INGRESS (fun t => reload_slots t (fds INGRESS)) ;;; on_cube c EGRESS (fun t => reload_slots t (fds EGRESS))
  | LDel c type index => on_cube c type (fun _ => do_del_program index)
  | LDestroy c =>
      on_cube c INGRESS uninit_index ;;; on_cube c EGRESS uninit_index ;;;
      on_cube c INGRESS (fun _ => uninit_slots) ;;; on_cube c EGRESS (fun _ => uninit_slots) ;;;
      modify (fun s => Loader (panel_ s) (delete c (base_cubes s)))
  end.
