(* ===== verification/LoaderRun.v ===== *)
(** polycubed, the patch panel and the programs of all cubes: an index leads to the
    first program of the one cube that holds it, whatever the order of the
    operations, which is what the wiring of service chains relies on. *)
From Stdlib Require Import ZArith Lia Ascii String.
From stdpp Require Import base gmap list strings numbers.
From S2P Require Import Prelude.
From S2P Require Import Vec.
From S2P Require Import Wiring.
From S2P Require Import WiringPath.
From S2P Require Import Loader.
#[local] Open Scope Z_scope.
#[local] Open Scope cpp_scope.
Implicit Types (p : panel) (s : slots) (l : loader).

Record panel_ok p : Prop := PanelOk {
  ids_increasing : increasing (node_ids_ p);
  ids_bounds i : i ∈ node_ids_ p -> 1 <= i < _POLYCUBE_MAX_NODES;
  present_bounds t i : i ∈ nodes_present_ p t -> 1 <= i < _POLYCUBE_MAX_NODES /\ i ∉ node_ids_ p;
  present_once i : i ∈ nodes_present_ p TC -> i ∉ nodes_present_ p XDP;
  present_nodes t : dom (nodes_ p t) = nodes_present_ p t;
}.
(** One direction of a cube of type [t]: a loaded program is in the cube's table, and
    the first one is what the patch panel runs at the cube's index. *)
Record dir_ok (t : CubeType) p s : Prop := DirOk {
  dir_length : length (programs_ s) = _POLYCUBE_MAX_BPF_PROGRAMS;
  dir_table i fd : programs_ s !! i = Some (Loaded fd) -> table_ s !! Z.of_nat i = Some fd;
  dir_present : index_ s <> 0 -> index_ s ∈ nodes_present_ p t;
  dir_entry fd : programs_ s !! 0%nat = Some (Loaded fd) -> index_ s <> 0 /\ nodes_ p t !! index_ s = Some fd;
}.
(** What an operation on one direction does to the others: nothing. *)
Definition evolved (t : CubeType) p s p' s' : Prop :=
  panel_ok p' /\ dir_ok t p' s' /\
  (index_ s' = index_ s \/ index_ s = 0 /\ index_ s' ∈ node_ids_ p) /\
  (forall t' j, j ∈ nodes_present_ p t' -> j ∈ nodes_present_ p' t' /\ (j <> index_ s -> nodes_ p' t' !! j = nodes_ p t' !! j)).

Lemma new_panel_ok : panel_ok new_panel.
Proof.
  unfold new_panel. split; cbn [node_ids_ nodes_present_ nodes_].
  - apply increasing_range.
  - intros i. rewrite elem_of_range. unfold _POLYCUBE_MAX_NODES. lia.
  - by intros t i ?%not_elem_of_empty.
  - by intros i ?%not_elem_of_empty.
  - intros t. apply dom_empty_L.
Qed.
Lemma no_slots_ok t p : dir_ok t p no_slots.
Proof.
  split; [done| |done|done]. intros i fd. unfold no_slots, programs_. intros H%lookup_replicate. naive_solver.
Qed.

(** ** The patch panel *)
Lemma panel_add_ok t fd p i p' : panel_ok p -> panel_add t fd p = (Ok i, p') ->
  panel_ok p' /\ i ∈ node_ids_ p /\ i ∈ nodes_present_ p' t /\ nodes_ p' t !! i = Some fd /\
  (forall t' j, j ∈ nodes_present_ p t' -> j ∈ nodes_present_ p' t' /\ j <> i /\ nodes_ p' t' !! j = nodes_ p t' !! j).
Proof.
  intros Hp. unfold panel_add. destruct (node_ids_ p) as [|x ids] eqn:E; [done|]. intros [= <- <-]. simpl.
  assert (x ∈ node_ids_ p) as Hx by (rewrite E; by left). assert (forall t', x ∉ nodes_present_ p t') as Hn by (intros t' Hin; by apply (present_bounds _ Hp t' x)).
  split; [split; simpl|].
  - rewrite <- E. apply increasing_erase, Hp.
  - intros i Hi. apply (ids_bounds _ Hp). rewrite E. apply elem_of_erase in Hi. tauto.
  - intros t' i. unfold upd. intros Hi. assert (i = x \/ i ∈ nodes_present_ p t') as [->|Hi'] by (destruct (decide (t' = t)) as [->|]; set_solver).
    + split; [by apply (ids_bounds _ Hp)|]. rewrite elem_of_erase. tauto.
    + destruct (present_bounds _ Hp t' i Hi') as [? Hni]. split; [done|]. rewrite elem_of_erase, <- E. tauto.
  - intros i. unfold upd. pose proof (present_once _ Hp i). pose proof (Hn TC). pose proof (Hn XDP). destruct t; simpl; set_solver.
  - intros t'. unfold upd. destruct (decide (t' = t)) as [->|]; [|apply Hp]. rewrite dom_insert_L. by rewrite (present_nodes _ Hp).
  - split; [by rewrite <- E|]. unfold upd. rewrite decide_True by done. split; [set_solver|]. rewrite decide_True by done. split; [apply lookup_insert_eq|].
    intros t' j Hj. assert (j <> x) as Hjx by (intros ->; by apply (Hn t')). destruct (decide (t' = t)) as [->|]; [|done].
    split; [set_solver|]. split; [done|]. by rewrite lookup_insert_ne.
Qed.
Lemma panel_update_ok t i fd p : panel_ok p -> i ∈ nodes_present_ p t -> exists p', panel_update t i fd p = (Ok tt, p') /\
  panel_ok p' /\ nodes_present_ p' = nodes_present_ p /\ node_ids_ p' = node_ids_ p /\ nodes_ p' t !! i = Some fd /\
  (forall t' j, j ∈ nodes_present_ p t' -> j <> i -> nodes_ p' t' !! j = nodes_ p t' !! j).
Proof.
  intros Hp Hi. unfold panel_update. rewrite bool_decide_eq_true_2 by done. eexists. split; [reflexivity|]. simpl.
  split; [split; simpl; try apply Hp|].
  - intros t'. unfold upd. destruct (decide (t' = t)) as [->|]; [|apply Hp]. rewrite dom_insert_L, (present_nodes _ Hp). set_solver.
  - split; [done|]. split; [done|]. unfold upd. rewrite decide_True by done. split; [apply lookup_insert_eq|].
    intros t' j _ Hne. destruct (decide (t' = t)) as [->|]; [|done]. by rewrite lookup_insert_ne.
Qed.
Lemma panel_remove_ok t i p : panel_ok p -> i ∈ nodes_present_ p t -> exists p', panel_remove t i p = (Ok tt, p') /\ panel_ok p' /\
  (forall t' j, j <> i -> (j ∈ nodes_present_ p t' -> j ∈ nodes_present_ p' t') /\ nodes_ p' t' !! j = nodes_ p t' !! j).
Proof.
  intros Hp Hi. eexists. split; [reflexivity|]. destruct (present_bounds _ Hp t i Hi) as [Hb _].
  assert (forall t', t' <> t -> i ∉ nodes_present_ p t') as Ho.
  { intros t' Hne Hin. destruct t, t'; try done; [by apply (present_once _ Hp i)|by apply (present_once _ Hp i)]. }
  split; [split; simpl|].
  - apply increasing_insert, Hp.
  - intros j [->|Hj]%elem_of_insert; [done|by apply (ids_bounds _ Hp)].
  - intros t' j [Hj Hji]%elem_of_difference. destruct (present_bounds _ Hp t' j Hj) as [? Hn]. split; [done|]. rewrite elem_of_insert. set_solver.
  - intros j. pose proof (present_once _ Hp j). set_solver.
  - intros t'. unfold upd. destruct (decide (t' = t)) as [->|Hne]; [by rewrite dom_delete_L, (present_nodes _ Hp)|].
    rewrite (present_nodes _ Hp). pose proof (Ho t' Hne). set_solver.
  - intros t' j Hji. simpl. split; [set_solver|]. unfold upd. destruct (decide (t' = t)) as [->|]; [|done]. by rewrite lookup_delete_ne.
Qed.

(** ** One slot changes *)
Lemma slot_for_ok index s i : length (programs_ s) = _POLYCUBE_MAX_BPF_PROGRAMS -> slot_for index s = Ok i -> i = index /\ 0 <= i /\ programs_ s !! Z.to_nat i = Some Empty.
Proof.
  intros Hl. unfold slot_for. rewrite Hl. destruct (_ || _) eqn:E; [done|]. apply orb_false_iff in E as [E1%Z.ltb_ge E2%Z.leb_gt].
  destruct (Z.eqb_spec index (-1)) as [->|Hne]; simpl.
  - by vm_compute in E2.
  - destruct (programs_ s !! Z.to_nat index) as [[]|] eqn:E; try done. intros [= <-]. split; [done|]. split; [lia|done].
Qed.
Lemma dir_store t p p' s s' i f : dir_ok t p s -> (i < _POLYCUBE_MAX_BPF_PROGRAMS)%nat ->
  programs_ s' = <[i := Loaded f]> (programs_ s) -> table_ s' = <[Z.of_nat i := f]> (table_ s) ->
  (index_ s' <> 0 -> index_ s' ∈ nodes_present_ p' t) ->
  (if decide (i = 0%nat) then index_ s' <> 0 /\ nodes_ p' t !! index_ s' = Some f
   else index_ s' = index_ s /\ (index_ s <> 0 -> nodes_ p' t !! index_ s = nodes_ p t !! index_ s)) -> dir_ok t p' s'.
Proof.
  intros Hd Hi Ep Et Hpr He. split.
  - rewrite Ep, length_insert. apply Hd.
  - intros j g. rewrite Ep, Et. destruct (decide (j = i)) as [->|Hj].
    + rewrite list_lookup_insert_eq by (rewrite (dir_length _ _ _ Hd); lia). intros [= <-]. apply lookup_insert_eq.
    + rewrite list_lookup_insert_ne by done. rewrite lookup_insert_ne by lia. apply Hd.
  - done.
  - intros g. rewrite Ep. destruct (decide (i = 0%nat)) as [->|Hi0].
    + rewrite list_lookup_insert_eq by (rewrite (dir_length _ _ _ Hd); lia). intros [= <-]. done.
    + rewrite list_lookup_insert_ne by done. destruct He as [-> Hn]. intros Hg. destruct (dir_entry _ _ _ Hd g Hg) as [H0 <-]. auto.
Qed.
Lemma dir_vacate t p s s' i v : dir_ok t p s -> (forall f, v <> Loaded f) ->
  programs_ s' = <[i := v]> (programs_ s) -> (forall j, j <> i -> table_ s' !! Z.of_nat j = table_ s !! Z.of_nat j) -> index_ s' = index_ s -> dir_ok t p s'.
Proof.
  intros Hd Hv Ep Et Ei. split.
  - rewrite Ep, length_insert. apply Hd.
  - intros j g. rewrite Ep. intros Hj. apply list_lookup_insert_Some in Hj as [(-> & -> & _)|[Hne Hj]]; [by destruct (Hv g)|].
    rewrite Et by done. by apply Hd.
  - rewrite Ei. apply Hd.
  - intros g. rewrite Ep, Ei. intros Hj. apply list_lookup_insert_Some in Hj as [(_ & -> & _)|[Hne Hj]]; [by destruct (Hv g)|]. by apply Hd.
Qed.
Lemma evolved_refl t p s : panel_ok p -> dir_ok t p s -> evolved t p s p s.
Proof. intros Hp Hd. split; [done|]. split; [done|]. split; [by left|done]. Qed.
Lemma evolved_slots t p s s' : panel_ok p -> dir_ok t p s' -> index_ s' = index_ s -> evolved t p s p s'.
Proof. intros Hp Hd E. split; [done|]. split; [done|]. split; [by left|done]. Qed.

(** ** The operations on one direction *)
Lemma do_add_ok t code index fd p s : panel_ok p -> dir_ok t p s -> fd <> Undefined ->
  match do_add_program t code index fd (p, s) with
  | (Ok k, (p', s')) => evolved t p s p' s' /\ k = index /\ programs_ s !! Z.to_nat k = Some Empty /\
      exists f, fd = Ok f /\ programs_ s' = <[Z.to_nat k := Loaded f]> (programs_ s)
  | (Throw e, (p', s')) => evolved t p s p' s' /\ (slot_for index s = Throw e \/ fd = Throw e)
  | (Undefined, _) => node_ids_ p = []
  end.
Proof.
  intros Hp Hd Hfd. unfold do_add_program, on_slots, on_panel, modify, lift, ret. unfold bind, get. cbn [fst snd].
  destruct (slot_for index s) as [i|e|] eqn:E.
  2: { split; [by apply evolved_refl|by left]. }
  2: { exfalso. unfold slot_for in E. repeat case_match; done. }
  apply slot_for_ok in E as (-> & Hi & E); [|apply Hd]. pose proof (lookup_lt_Some _ _ _ E) as Hlt. rewrite (dir_length _ _ _ Hd) in Hlt.
  destruct fd as [f|e|]; [|split; [apply evolved_slots; [done| |done]|by right]|done].
  2: by apply (dir_vacate t p s _ (Z.to_nat index) Unloaded).
  destruct (Z.eqb_spec index 0) as [->|Hi0].
  - cbn [set_slot set_table index_ programs_ table_ fst snd]. destruct (Z.eqb_spec (index_ s) 0) as [Es|Es].
    + cbn [fst snd]. destruct (panel_add t f p) as [[n| |] p'] eqn:Ea; [|unfold panel_add in Ea; destruct (node_ids_ p); done|unfold panel_add in Ea; destruct (node_ids_ p); done].
      destruct (panel_add_ok t f p n p' Hp Ea) as (Hp' & Hn & Hpr & Hno & Hrest). cbn [fst snd]. split; [split; [done|]|split; [done|split; [done|]]].
      * split; [|split; [right; done|]].
        -- eapply (dir_store t p p' s _ 0 f); [done|unfold _POLYCUBE_MAX_BPF_PROGRAMS; lia| |done|done|]; [by cbn; rewrite list_insert_insert_eq|]. rewrite decide_True by done. split; [|done].
           cbn. pose proof (ids_bounds _ Hp n Hn). lia.
        -- intros t' j Hj. destruct (Hrest t' j Hj) as (? & ? & ?). done.
      * exists f. split; [done|]. cbn. by rewrite list_insert_insert_eq.
    + destruct (panel_update_ok t (index_ s) f p Hp (dir_present _ _ _ Hd Es)) as (p' & Eu & Hp' & Hpr & Hids & Hno & Hrest).
      cbn [fst snd set_table set_slot index_]. rewrite Eu. cbn [fst snd]. split; [split; [done|]|split; [done|split; [done|]]].
      * split; [|split; [by left|]].
        -- eapply (dir_store t p p' s _ 0 f); [done|lia| |done| |]; [by cbn; rewrite list_insert_insert_eq|rewrite Hpr; apply Hd|].
           rewrite decide_True by done. done.
        -- intros t' j Hj. rewrite Hpr. split; [done|]. by apply Hrest.
      * exists f. split; [done|]. cbn. by rewrite list_insert_insert_eq.
  - cbn [fst snd]. split; [|split; [done|split; [done|]]].
    + apply evolved_slots; [done| |done]. eapply (dir_store t p p s _ (Z.to_nat index) f); [done|done| | |apply Hd|].
      * cbn. by rewrite list_insert_insert_eq.
      * cbn. by rewrite Z2Nat.id.
      * rewrite decide_False by lia. done.
    + exists f. split; [done|]. cbn. by rewrite list_insert_insert_eq.
Qed.

(** An operation that leaves the index as it is. *)
Definition kept (t : CubeType) p s p' s' : Prop :=
  panel_ok p' /\ dir_ok t p' s' /\ index_ s' = index_ s /\
  (forall t' j, j ∈ nodes_present_ p t' -> j ∈ nodes_present_ p' t' /\ (j <> index_ s -> nodes_ p' t' !! j = nodes_ p t' !! j)).
Lemma kept_evolved t p s p' s' : kept t p s p' s' -> evolved t p s p' s'.
Proof. intros (? & ? & ? & ?). split; [done|]. split; [done|]. split; [by left|done]. Qed.
Lemma kept_slots t p s s' : panel_ok p -> dir_ok t p s' -> index_ s' = index_ s -> kept t p s p s'.
Proof. intros Hp Hd E. by split. Qed.
Lemma kept_trans t p s p1 s1 p2 s2 : kept t p s p1 s1 -> kept t p1 s1 p2 s2 -> kept t p s p2 s2.
Proof.
  intros (_ & _ & E1 & K1) (Hp & Hd & E2 & K2). split; [done|]. split; [done|]. split; [congruence|].
  intros t' j Hj. destruct (K1 t' j Hj) as [Hj1 N1], (K2 t' j Hj1) as [Hj2 N2]. split; [done|]. intros Hne. rewrite N2 by congruence. by apply N1.
Qed.
Lemma filled_ok what index s : filled what index s = Ok tt -> 0 <= index /\ exists v, programs_ s !! Z.to_nat index = Some v.
Proof.
  unfold filled. destruct (_ || _) eqn:E; [done|]. apply orb_false_iff in E as [E1%Z.ltb_ge _].
  destruct (programs_ s !! Z.to_nat index) as [v|]; [|done]. eauto.
Qed.
Lemma filled_defined what index s : filled what index s <> Undefined.
Proof. unfold filled. repeat case_match; done. Qed.
Lemma do_reload_ok t code index fd p s : panel_ok p -> dir_ok t p s -> fd <> Undefined ->
  match do_reload t code index fd (p, s) with
  | (Ok _, (p', s')) => kept t p s p' s' /\ exists f, fd = Ok f /\ programs_ s' = <[Z.to_nat index := Loaded f]> (programs_ s)
  | (Throw e, (p', s')) => kept t p s p' s'
  | (Undefined, _) => False
  end.
Proof.
  intros Hp Hd Hfd. unfold do_reload, on_slots, on_panel, modify, lift, ret. unfold bind, get. cbn [fst snd].
  destruct (filled _ index s) as [[]|e|] eqn:E; [|by apply kept_slots|by apply filled_defined in E].
  apply filled_ok in E as (Hi & v & E). pose proof (lookup_lt_Some _ _ _ E) as Hlt. rewrite (dir_length _ _ _ Hd) in Hlt.
  destruct fd as [f|e|]; [|by apply kept_slots|done].
  destruct (Z.eqb_spec index 0) as [->|Hi0].
  - cbn [fst snd set_table set_slot index_]. destruct (decide (index_ s ∈ nodes_present_ p t)) as [Hpr|Hpr].
    + destruct (panel_update_ok t (index_ s) f p Hp Hpr) as (p' & Eu & Hp' & Hpr' & Hids & Hno & Hrest). rewrite Eu. cbn [fst snd].
      split; [split; [done|]|by exists f].
      assert (index_ s <> 0) as Hnz by (destruct (present_bounds _ Hp t _ Hpr); lia).
      split; [|split; [done|intros t' j Hj; rewrite Hpr'; split; [done|by apply Hrest]]].
      apply (dir_store t p p' s _ 0 f); [done|done|done|done|by rewrite Hpr'|]. by rewrite decide_True.
    + unfold panel_update. rewrite bool_decide_eq_false_2 by done. apply kept_slots; [done| |done].
      assert (forall f, programs_ s !! 0%nat <> Some (Loaded f)) as Hno by (intros g Hg; apply (dir_entry _ _ _ Hd) in Hg as [Hnz _]; by apply (dir_present _ _ _ Hd) in Hnz).
      split; cbn; [apply Hd| |apply Hd|by intros g ?%Hno].
      intros j g Hj. destruct j as [|j]; [by apply Hno in Hj|]. rewrite lookup_insert_ne by lia. by apply Hd.
  - cbn [fst snd]. split; [|by exists f]. apply kept_slots; [done| |done].
    apply (dir_store t p p s _ (Z.to_nat index) f); [done|done|done|cbn; by rewrite Z2Nat.id|apply Hd|]. by rewrite decide_False by lia.
Qed.
Lemma do_del_ok t index p s : panel_ok p -> dir_ok t p s ->
  match do_del_program index (p, s) with
  | (Ok _, (p', s')) => p' = p /\ dir_ok t p s' /\ index_ s' = index_ s /\ programs_ s' = <[Z.to_nat index := Empty]> (programs_ s)
  | (Throw e, r) => r = (p, s)
  | (Undefined, _) => False
  end.
Proof.
  intros Hp Hd. unfold do_del_program, on_slots, modify, lift, ret. unfold bind, get. cbn [fst snd].
  destruct (filled _ index s) as [[]|e|] eqn:E; [|done|by apply filled_defined in E]. apply filled_ok in E as (Hi & v & E). cbn.
  split; [done|]. split; [|done]. apply (dir_vacate t p s _ (Z.to_nat index) Empty); [done|done|done| |done].
  intros j Hj. cbn. apply lookup_delete_ne. lia.
Qed.

(** ** [reload_all] and [uninit] *)
Lemma reload_slot_ok t fds i p s : panel_ok p -> dir_ok t p s -> (forall i, fds i <> Undefined) ->
  let r := reload_slot t fds i (p, s) in r.1 <> Undefined /\ kept t p s r.2.1 r.2.2.
Proof.
  intros Hp Hd Hfds. pose proof (do_reload_ok t (default ""%string (code_ s !! i)) (Z.of_nat i) (fds (Z.of_nat i)) p s Hp Hd (Hfds _)) as Hr.
  unfold reload_slot, bind, get. cbn [snd].
  destruct (programs_ s !! i) as [[]|]; try (split; [done|by apply kept_slots]);
    destruct (do_reload _ _ _ _ _) as [[u|e|] [p1 s1]]; try done; split; try done; apply Hr.
Qed.
Lemma reload_slots_ok t fds p s : panel_ok p -> dir_ok t p s -> (forall i, fds i <> Undefined) ->
  let r := reload_slots t fds (p, s) in r.1 <> Undefined /\ kept t p s r.2.1 r.2.2.
Proof.
  intros Hp Hd Hfds. unfold reload_slots. generalize (seq 0 _POLYCUBE_MAX_BPF_PROGRAMS). intros ns. revert p s Hp Hd.
  induction ns as [|i ns IH]; intros p s Hp Hd; [split; [done|by apply kept_slots]|]. cbn [for_each].
  destruct (reload_slot_ok t fds i p s Hp Hd Hfds) as [Hu Hk]. unfold bind. destruct (reload_slot t fds i (p, s)) as [[u|e|] [p1 s1]]; simpl in *; [|done..].
  destruct (IH p1 s1) as [Hu' Hk']; [apply Hk|apply Hk|]. split; [done|]. by eapply kept_trans.
Qed.
Lemma uninit_index_ok t p s : panel_ok p -> (index_ s <> 0 -> index_ s ∈ nodes_present_ p t) -> exists p', uninit_index t (p, s) = (Ok tt, (p', s)) /\ panel_ok p' /\
  (forall t' j, j <> index_ s \/ index_ s = 0 -> (j ∈ nodes_present_ p t' -> j ∈ nodes_present_ p' t') /\ nodes_ p' t' !! j = nodes_ p t' !! j).
Proof.
  intros Hp Hi. unfold uninit_index, on_panel. unfold bind, get. cbn [snd fst]. destruct (Z.eqb_spec (index_ s) 0) as [E|E].
  - by exists p.
  - destruct (panel_remove_ok t (index_ s) p Hp (Hi E)) as (p' & Er & Hp' & Hr). exists p'. cbn [fst snd]. rewrite Er. split; [done|]. split; [done|].
    intros t' j Hj. apply Hr. naive_solver.
Qed.
Lemma filled_nat what i s v : (i < _POLYCUBE_MAX_BPF_PROGRAMS)%nat -> length (programs_ s) = _POLYCUBE_MAX_BPF_PROGRAMS ->
  programs_ s !! i = Some v -> v <> Empty -> filled what (Z.of_nat i) s = Ok tt.
Proof.
  intros Hi Hl E Hv. unfold filled. rewrite Hl, Nat2Z.id, E. unfold _POLYCUBE_MAX_BPF_PROGRAMS in *. unfold u64.
  rewrite Z.mod_small by lia. rewrite (proj2 (Z.ltb_ge _ _)), (proj2 (Z.leb_gt _ _)) by lia. by destruct v.
Qed.
Lemma uninit_slots_ok p s : length (programs_ s) = _POLYCUBE_MAX_BPF_PROGRAMS -> exists s', uninit_slots (p, s) = (Ok tt, (p, s')).
Proof.
  intros Hl. unfold uninit_slots. assert (Forall (fun i => (i < _POLYCUBE_MAX_BPF_PROGRAMS)%nat) (seq 0 _POLYCUBE_MAX_BPF_PROGRAMS)) as Hns.
  { apply list.Forall_forall. intros i Hi%elem_of_seq. lia. }
  revert s Hl. induction Hns as [|i ns Hi _ IH]; intros s Hl; [by exists s|]. cbn [for_each]. unfold bind at 1. unfold uninit_slot at 1. unfold bind at 1. unfold get at 1. cbn [snd].
  destruct (programs_ s !! i) as [v|] eqn:E; [|by apply IH]. destruct (decide (v = Empty)) as [->|Hv]; [by apply IH|].
  assert (exists s1, do_del_program (Z.of_nat i) (p, s) = (Ok tt, (p, s1)) /\ length (programs_ s1) = _POLYCUBE_MAX_BPF_PROGRAMS) as (s1 & Hr & Hl1).
  { unfold do_del_program, on_slots, modify, lift. unfold bind, get. cbn [snd fst]. rewrite (filled_nat _ i s v) by done.
    eexists. split; [reflexivity|]. cbn. by rewrite length_insert. }
  destruct v; [done|rewrite Hr; by apply IH|rewrite Hr; by apply IH].
Qed.

Implicit Types (c : Z) (type : ProgramType) (b : base_cube).

Record loader_ok l : Prop := LoaderOk {
  loader_panel : panel_ok (panel_ l);
  loader_dir c b type : base_cubes l !! c = Some b -> dir_ok (type_ b) (panel_ l) (slots_of type b);
  loader_distinct c type c' type' : get_program_index c type l <> 0 ->
    get_program_index c type l = get_program_index c' type' l -> c = c' /\ type = type';
  loader_tc c b : base_cubes l !! c = Some b -> type_ b = TC;
}.
Definition no_cubes : loader := Loader new_panel ∅.
Lemma no_cubes_ok : loader_ok no_cubes.
Proof. split; [apply new_panel_ok|done..]. Qed.

Lemma slots_set type type' s b : slots_of type' (set_slots type s b) = if decide (type' = type) then s else slots_of type' b.
Proof. by destruct type, type'. Qed.
Lemma type_set type s b : type_ (set_slots type s b) = type_ b.
Proof. by destruct type. Qed.
Lemma index_present l c b type : loader_ok l -> base_cubes l !! c = Some b -> index_ (slots_of type b) <> 0 -> index_ (slots_of type b) ∈ nodes_present_ (panel_ l) (type_ b).
Proof. intros Hl Hb. by apply loader_dir with (type := type) in Hb as []. Qed.

(** One direction of one cube moves on. *)
Lemma loader_evolved l c b type p' s' : loader_ok l -> base_cubes l !! c = Some b ->
  evolved (type_ b) (panel_ l) (slots_of type b) p' s' -> loader_ok (Loader p' (<[c := set_slots type s' b]> (base_cubes l))).
Proof.
  intros Hl Hb (Hp' & Hd' & Hi & Hk).
  assert (forall c' b' type', base_cubes l !! c' = Some b' -> (c', type') <> (c, type) -> index_ (slots_of type' b') <> 0 ->
    index_ (slots_of type' b') <> index_ (slots_of type b) /\ index_ (slots_of type' b') <> index_ s') as Hother.
  { intros c' b' type' Hb' Hne Hnz. assert (index_ (slots_of type' b') <> index_ (slots_of type b)) as Hn.
    { intros E. destruct (loader_distinct _ Hl c' type' c type); [unfold get_program_index; by rewrite Hb'|unfold get_program_index; by rewrite Hb', Hb|congruence]. }
    split; [done|]. destruct Hi as [->|[_ Hin]]; [done|]. intros E.
    pose proof (index_present l c' b' type' Hl Hb' Hnz) as Hpr. apply (present_bounds _ (loader_panel _ Hl)) in Hpr as [_ Hpr]. by rewrite E in Hpr. }
  assert (forall c' b' type', base_cubes l !! c' = Some b' -> (c', type') <> (c, type) -> dir_ok (type_ b') p' (slots_of type' b')) as Hdir.
  { intros c' b' type' Hb' Hne. pose proof (loader_dir _ Hl c' b' type' Hb') as Hd. split; [apply Hd..| |].
    - intros Hnz. by apply Hk, Hd.
    - intros fd Hfd. destruct (dir_entry _ _ _ Hd fd Hfd) as [Hnz E]. split; [done|]. destruct (Hother c' b' type' Hb' Hne Hnz) as [Hn _].
      destruct (Hk (type_ b') _ (dir_present _ _ _ Hd Hnz)) as [_ ->]; [done|done]. }
  assert (forall c' type', get_program_index c' type' (Loader p' (<[c := set_slots type s' b]> (base_cubes l))) =
    if decide ((c', type') = (c, type)) then index_ s' else get_program_index c' type' l) as Hidx.
  { intros c' type'. unfold get_program_index. cbn [base_cubes]. destruct (decide (c' = c)) as [->|Hc].
    - rewrite lookup_insert_eq, slots_set, Hb. repeat case_decide; congruence.
    - rewrite lookup_insert_ne by done. rewrite decide_False by congruence. done. }
  split; [done| | |].
  - intros c' b' type'. cbn [base_cubes panel_]. destruct (decide (c' = c)) as [->|Hc].
    + rewrite lookup_insert_eq. intros [= <-]. rewrite type_set, slots_set. case_decide; [by subst|]. apply (Hdir c); [done|congruence].
    + rewrite lookup_insert_ne by done. intros Hb'. apply (Hdir c'); [done|congruence].
  - intros c1 t1 c2 t2. rewrite !Hidx. destruct (decide ((c1, t1) = (c, type))) as [E1|N1], (decide ((c2, t2) = (c, type))) as [E2|N2].
    + intros _ _. split; congruence.
    + intros Hnz E. exfalso. unfold get_program_index in E. destruct (base_cubes l !! c2) as [b2|] eqn:Hb2; [|congruence].
      destruct (Hother c2 b2 t2 Hb2 N2) as [_ Hn]; congruence.
    + intros Hnz E. exfalso. unfold get_program_index in E, Hnz. destruct (base_cubes l !! c1) as [b1|] eqn:Hb1; [|congruence].
      destruct (Hother c1 b1 t1 Hb1 N1) as [_ Hn]; congruence.
    + apply Hl.
  - intros c' b'. cbn [base_cubes]. destruct (decide (c' = c)) as [->|Hc].
    + rewrite lookup_insert_eq. intros [= <-]. rewrite type_set. by apply (loader_tc _ Hl c).
    + rewrite lookup_insert_ne by done. apply Hl.
Qed.
(** A cube without an entry in the patch panel comes or goes. *)
Lemma get_index_insert l c b c' type : get_program_index c' type (Loader (panel_ l) (<[c := b]> (base_cubes l))) = if decide (c' = c) then index_ (slots_of type b) else get_program_index c' type l.
Proof. unfold get_program_index. cbn [base_cubes]. destruct (decide (c' = c)) as [->|]; [by rewrite lookup_insert_eq|by rewrite lookup_insert_ne]. Qed.
Lemma loader_create l c tr : loader_ok l -> loader_ok (Loader (panel_ l) (<[c := BaseCube TC tr no_slots no_slots]> (base_cubes l))).
Proof.
  intros Hl. split; [apply Hl| | |].
  - intros c' b' type. cbn [base_cubes panel_]. destruct (decide (c' = c)) as [->|]; [rewrite lookup_insert_eq|rewrite lookup_insert_ne by done; apply Hl].
    intros [= <-]. destruct type; apply no_slots_ok.
  - intros c1 t1 c2 t2. rewrite !get_index_insert. destruct (decide (c1 = c)); [by destruct t1|]. destruct (decide (c2 = c)); [destruct t2; simpl; congruence|apply Hl].
  - intros c' b'. cbn [base_cubes]. destruct (decide (c' = c)) as [->|]; [rewrite lookup_insert_eq; by intros [= <-]|rewrite lookup_insert_ne by done; apply Hl].
Qed.
Lemma on_cube_run {A} c type (m : CubeType -> M direction A) l b : base_cubes l !! c = Some b ->
  on_cube c type m l = ((m (type_ b) (panel_ l, slots_of type b)).1,
    Loader (m (type_ b) (panel_ l, slots_of type b)).2.1 (<[c := set_slots type (m (type_ b) (panel_ l, slots_of type b)).2.2 b]> (base_cubes l))).
Proof. intros E. unfold on_cube. rewrite E. by destruct (m _ _) as [r [p s]]. Qed.
Lemma loader_destroy l c b : loader_ok l -> base_cubes l !! c = Some b ->
  (run_load (LDestroy c) l).1 = Ok tt /\ loader_ok (run_load (LDestroy c) l).2 /\ base_cubes (run_load (LDestroy c) l).2 = delete c (base_cubes l).
Proof.
  intros Hl Hb. set (t := type_ b). set (si := ingress_ b). set (se := egress_ b).
  assert (forall type, index_ (slots_of type b) <> 0 -> index_ (slots_of type b) ∈ nodes_present_ (panel_ l) t) as Hpr by (intros type; by apply (index_present l c b type)).
  destruct (uninit_index_ok t (panel_ l) si (loader_panel _ Hl) (Hpr INGRESS)) as (p1 & R1 & Hp1 & K1).
  destruct (uninit_index_ok t p1 se Hp1) as (p2 & R2 & Hp2 & K2).
  { intros Hnz. destruct (K1 t (index_ se)) as [Hk _]; [|apply Hk, (Hpr EGRESS Hnz)]. destruct (decide (index_ si = 0)); [by right|left]. intros E.
    destruct (loader_distinct _ Hl c EGRESS c INGRESS) as [_ ?]; [unfold get_program_index; by rewrite Hb|unfold get_program_index; by rewrite Hb|done]. }
  destruct (uninit_slots_ok p2 si) as [si' R3]; [apply (loader_dir _ Hl c b INGRESS Hb)|].
  destruct (uninit_slots_ok p2 se) as [se' R4]; [apply (loader_dir _ Hl c b EGRESS Hb)|].
  assert (run_load (LDestroy c) l = (Ok tt, Loader p2 (delete c (base_cubes l)))) as ->.
  { assert (set_slots INGRESS si b = b /\ set_slots EGRESS se b = b) as [Ei Ee] by by destruct b.
    unfold run_load. rewrite (bind_run _ _ l tt (Loader p1 (<[c := b]> (base_cubes l)))).
    2: { rewrite (on_cube_run _ _ _ _ b Hb). change (slots_of INGRESS b) with si. fold t. rewrite R1. cbn [fst snd]. by rewrite Ei. }
    rewrite (bind_run _ _ _ tt (Loader p2 (<[c := b]> (base_cubes l)))).
    2: { rewrite (on_cube_run _ _ _ _ b) by apply lookup_insert_eq. change (slots_of EGRESS b) with se. fold t. cbn [panel_ base_cubes]. rewrite R2. cbn [fst snd].
         by rewrite Ee, insert_insert_eq. }
    rewrite (bind_run _ _ _ tt (Loader p2 (<[c := set_slots INGRESS si' b]> (base_cubes l)))).
    2: { rewrite (on_cube_run _ _ _ _ b) by apply lookup_insert_eq. change (slots_of INGRESS b) with si. cbn [panel_ base_cubes]. rewrite R3. cbn [fst snd].
         by rewrite insert_insert_eq. }
    rewrite (bind_run _ _ _ tt (Loader p2 (<[c := set_slots EGRESS se' (set_slots INGRESS si' b)]> (base_cubes l)))).
    2: { rewrite (on_cube_run _ _ _ _ (set_slots INGRESS si' b)) by apply lookup_insert_eq. change (slots_of EGRESS (set_slots INGRESS si' b)) with se.
         cbn [panel_ base_cubes]. rewrite R4. cbn [fst snd]. by rewrite insert_insert_eq. }
    unfold modify. cbn [panel_ base_cubes]. by rewrite delete_insert_eq. }
  split; [done|]. split; [|done]. cbn [snd].
  assert (forall c' type', c' <> c -> get_program_index c' type' (Loader p2 (delete c (base_cubes l))) = get_program_index c' type' l) as Hidx.
  { intros c' type' Hc. unfold get_program_index. cbn [base_cubes]. by rewrite lookup_delete_ne. }
  assert (forall c' b' type', c' <> c -> base_cubes l !! c' = Some b' -> index_ (slots_of type' b') <> 0 -> forall type, index_ (slots_of type' b') <> index_ (slots_of type b)) as Hne.
  { intros c' b' type' Hc Hb' Hnz type E. destruct (loader_distinct _ Hl c' type' c type); [unfold get_program_index; by rewrite Hb'|unfold get_program_index; by rewrite Hb, Hb'|done]. }
  split; [done| | |].
  - intros c' b' type'. cbn [base_cubes panel_]. rewrite lookup_delete_Some. intros [Hc Hb'].
    pose proof (loader_dir _ Hl c' b' type' Hb') as Hd.
    assert (index_ (slots_of type' b') <> 0 -> (index_ (slots_of type' b') ∈ nodes_present_ p2 (type_ b')) /\
      nodes_ p2 (type_ b') !! index_ (slots_of type' b') = nodes_ (panel_ l) (type_ b') !! index_ (slots_of type' b')) as Hkeep.
    { intros Hnz. destruct (K1 (type_ b') (index_ (slots_of type' b'))) as [Hk1 N1]; [left; by apply (Hne c' b' type') with (type := INGRESS)|].
      destruct (K2 (type_ b') (index_ (slots_of type' b'))) as [Hk2 N2]; [left; by apply (Hne c' b' type') with (type := EGRESS)|].
      split; [by apply Hk2, Hk1, Hd|by rewrite N2, N1]. }
    split; [apply Hd..| |].
    + intros Hnz. by apply Hkeep.
    + intros fd Hfd. destruct (dir_entry _ _ _ Hd fd Hfd) as [Hnz E]. split; [done|]. by rewrite (proj2 (Hkeep Hnz)).
  - intros c1 t1 c2 t2. destruct (decide (c1 = c)) as [->|H1]; [by unfold get_program_index; cbn [base_cubes]; rewrite lookup_delete_eq|].
    destruct (decide (c2 = c)) as [->|H2]; [unfold get_program_index at 3; cbn [base_cubes]; rewrite lookup_delete_eq; congruence|].
    rewrite !Hidx by done. apply Hl.
  - intros c' b'. cbn [base_cubes]. rewrite lookup_delete_Some. intros [_ Hb']. by apply (loader_tc _ Hl c').
Qed.

(** * Every operation *)
Definition load_allowed (op : load_op) l : Prop :=
  match op with
  | LCreate c _ => base_cubes l !! c = None
  | LAdd c _ _ _ fd => is_Some (base_cubes l !! c) /\ fd <> Undefined /\ node_ids_ (panel_ l) <> []
  | LReload c _ _ _ fd => is_Some (base_cubes l !! c) /\ fd <> Undefined
  | LReloadAll c fds => is_Some (base_cubes l !! c) /\ forall type i, fds type i <> Undefined
  | LDel c _ _ | LDestroy c => is_Some (base_cubes l !! c)
  end.
Inductive load_reachable : loader -> Prop :=
  | reach_no_cubes : load_reachable no_cubes
  | reach_load op l : load_reachable l -> load_allowed op l -> load_reachable (run_load op l).2.

Lemma on_cube_ok {A} c type (m : CubeType -> M direction A) l b : loader_ok l -> base_cubes l !! c = Some b ->
  (let r := m (type_ b) (panel_ l, slots_of type b) in r.1 <> Undefined /\ evolved (type_ b) (panel_ l) (slots_of type b) r.2.1 r.2.2) ->
  (on_cube c type m l).1 <> Undefined /\ loader_ok (on_cube c type m l).2 /\ is_Some (base_cubes (on_cube c type m l).2 !! c).
Proof.
  intros Hl Hb [Hu He]. rewrite (on_cube_run _ _ _ _ b Hb). cbn [fst snd base_cubes]. split; [done|]. split; [by apply loader_evolved|].
  rewrite lookup_insert_eq. eauto.
Qed.
Lemma reload_all_ok c type fds l : loader_ok l -> is_Some (base_cubes l !! c) -> (forall i, fds i <> Undefined) ->
  let r := on_cube c type (fun t => reload_slots t fds) l in r.1 <> Undefined /\ loader_ok r.2 /\ is_Some (base_cubes r.2 !! c).
Proof.
  intros Hl [b Hb] Hf. apply (on_cube_ok _ _ _ _ b); [done..|].
  destruct (reload_slots_ok (type_ b) fds (panel_ l) (slots_of type b)) as [Hu Hk]; [apply Hl|by apply (loader_dir _ Hl c)|done|].
  split; [done|by apply kept_evolved].
Qed.
Lemma run_load_ok op l : loader_ok l -> load_allowed op l -> (run_load op l).1 <> Undefined /\ loader_ok (run_load op l).2.
Proof.
  intros Hl Ha. destruct op as [c tr|c type code index fd|c type code index fd|c fds|c type index|c]; cbn [load_allowed] in Ha.
  - split; [done|]. by apply loader_create.
  - destruct Ha as ([b Hb] & Hfd & Hids). cbn [run_load].
    destruct (on_cube_ok c type (fun t => do_add_program t code index fd) l b Hl Hb) as (Hu & Hok & _).
    { pose proof (do_add_ok (type_ b) code index fd (panel_ l) (slots_of type b) (loader_panel _ Hl) (loader_dir _ Hl c b type Hb) Hfd) as Hadd.
      destruct (do_add_program _ _ _ _ _) as [[k|e|] [p' s']]; [(split; [done|apply Hadd])|(split; [done|apply Hadd])|done]. }
    unfold bind. destruct (on_cube _ _ _ _) as [[k|e|] l']; done.
  - destruct Ha as ([b Hb] & Hfd). cbn [run_load].
    destruct (on_cube_ok c type (fun t => do_reload t code index fd) l b Hl Hb) as (Hu & Hok & _); [|done].
    pose proof (do_reload_ok (type_ b) code index fd (panel_ l) (slots_of type b) (loader_panel _ Hl) (loader_dir _ Hl c b type Hb) Hfd) as Hrel.
    destruct (do_reload _ _ _ _ _) as [[k|e|] [p' s']]; [| |done]; (split; [done|apply kept_evolved, Hrel]).
  - destruct Ha as (Hc & Hf). cbn [run_load]. destruct (reload_all_ok c INGRESS (fds INGRESS) l Hl Hc (Hf _)) as (Hu & Hok & Hc').
    unfold bind. destruct (on_cube _ INGRESS _ _) as [[k|e|] l']; cbn [fst snd] in *; [|done..].
    by destruct (reload_all_ok c EGRESS (fds EGRESS) l' Hok Hc' (Hf _)) as (? & ? & _).
  - destruct Ha as [b Hb]. cbn [run_load]. destruct (on_cube_ok c type (fun _ => do_del_program index) l b Hl Hb) as (Hu & Hok & _); [|done].
    pose proof (do_del_ok (type_ b) index (panel_ l) (slots_of type b) (loader_panel _ Hl) (loader_dir _ Hl c b type Hb)) as Hdel.
    destruct (do_del_program _ _) as [[k|e|] r]; [destruct r as [p' s']; destruct Hdel as (-> & Hd & Hi & _)|subst r|done]; (split; [done|]).
    + apply evolved_slots; [apply Hl|done|done].
    + apply evolved_refl; [apply Hl|by apply (loader_dir _ Hl c)].
  - destruct Ha as [b Hb]. destruct (loader_destroy l c b Hl Hb) as (Hr & Hok & _). by rewrite Hr.
Qed.
Lemma load_reachable_ok l : load_reachable l -> loader_ok l.
Proof. induction 1 as [|op l _ IH Ha]; [apply no_cubes_ok|]. by apply run_load_ok. Qed.

(** * The patch panel that the wiring uses *)
Definition index_in (tr : bool) l type c : Z :=
  match base_cubes l !! c with Some b => if Bool.eqb (transparent b) tr then index_ (slots_of type b) else 0 | None => 0 end.
Definition holders l : list (Z * ProgramType) := concat ((fun kv => [(kv.1, INGRESS); (kv.1, EGRESS)]) <$> map_to_list (base_cubes l)).
Definition node_at l (index : Z) : option program :=
  match List.find (fun h => (get_program_index h.1 h.2 l =? index) && negb (index =? 0)) (holders l) with
  | Some (c, type) =>
      match base_cubes l !! c with
      | Some b => Some (if transparent b then TCubeProgram type c else CubeProgram type c)
      | None => None
      end
  | None => None
  end.
Lemma elem_of_holders l c type : is_Some (base_cubes l !! c) -> (c, type) ∈ holders l.
Proof.
  intros [b Hb]. unfold holders. apply list_elem_of_In, in_concat. exists [(c, INGRESS); (c, EGRESS)]. split; [|destruct type; simpl; tauto]. apply list_elem_of_In.
  apply list_elem_of_fmap. exists (c, b). split; [done|]. by apply elem_of_map_to_list.
Qed.
Lemma node_at_index l c type b : loader_ok l -> base_cubes l !! c = Some b -> index_ (slots_of type b) <> 0 ->
  node_at l (index_ (slots_of type b)) = Some (if transparent b then TCubeProgram type c else CubeProgram type c).
Proof.
  intros Hl Hb Hnz. unfold node_at. assert (get_program_index c type l = index_ (slots_of type b)) as Hi by (unfold get_program_index; by rewrite Hb).
  destruct (List.find _ _) as [[c' type']|] eqn:E.
  - apply List.find_some in E as [_ [E _]%andb_prop]. apply Z.eqb_eq in E. simpl in E. destruct (loader_distinct _ Hl c type c' type') as [<- <-]; [congruence..|]. by rewrite Hb.
  - pose proof (elem_of_holders l c type (ex_intro _ b Hb)) as Hin. rewrite list_elem_of_In in Hin.
    eapply List.find_none in E; [|exact Hin]. simpl in E. rewrite Hi, Z.eqb_refl in E. simpl in E. by apply negb_false_iff, Z.eqb_eq in E.
Qed.

Section panel_of.
(** The programs that [reload_all] goes through: the slots that are not empty. *)
Definition loaded_slots (type : ProgramType) (b : base_cube) : list (ProgramType * Z) :=
  omap (fun '(i, s) => if is_empty s then None else Some (type, i)) (zip (seqZ 0 (Z.of_nat (length (programs_ (slots_of type b))))) (programs_ (slots_of type b))).
Context (ifnumber : Z -> Z) (name service : Z -> string).
#[local] Instance programs_of l : Programs := {
  cube_index := index_in false l;
  tcube_index := index_in true l;
  ifindex := ifnumber;
  tcube_name := name;
  tcube_service := service;
  program_slots c := match base_cubes l !! c with Some b => loaded_slots INGRESS b ++ loaded_slots EGRESS b | None => [] end;
  reload_error _ _ _ := None;
}.
Lemma index_in_bounds l tr type c : loader_ok l -> 0 <= index_in tr l type c < 0xffff.
Proof.
  intros Hl. unfold index_in. destruct (base_cubes l !! c) as [b|] eqn:Hb; [|lia]. case_match; [|lia].
  destruct (decide (index_ (slots_of type b) = 0)) as [->|Hnz]; [lia|]. pose proof (index_present l c b type Hl Hb Hnz) as Hpr.
  apply (present_bounds _ (loader_panel _ Hl)) in Hpr as [Hbd _]. unfold _POLYCUBE_MAX_NODES in Hbd. lia.
Qed.
Lemma node_at_in l tr type c : loader_ok l -> index_in tr l type c <> 0 ->
  node_at l (index_in tr l type c) = Some (if tr then TCubeProgram type c else CubeProgram type c).
Proof.
  intros Hl. unfold index_in. destruct (base_cubes l !! c) as [b|] eqn:Hb; [|done]. destruct (Bool.eqb (transparent b) tr) eqn:E; [|done].
  apply Bool.eqb_prop in E as <-. by apply node_at_index.
Qed.
Definition panel_of l (Hl : loader_ok l) : @PatchPanel (programs_of l).
Proof.
  refine {| nodes := node_at l; cube_id := id; |}.
  - unfold node_at. destruct (List.find _ _) as [[c type]|] eqn:E; [|done]. apply List.find_some in E as [_ [_ E]%andb_prop]. done.
  - intros type c. apply (node_at_in l false). done.
  - intros type t. apply (node_at_in l true). done.
  - intros type c. by apply index_in_bounds.
  - intros type t. by apply index_in_bounds.
Defined.
End panel_of.
