(* ===== verification/LoaderTheorems.v ===== *)
(** polycubed, the properties of the programs of cubes and of the patch panel. *)
From Stdlib Require Import ZArith Lia Ascii String.
From stdpp Require Import base gmap list strings numbers.
From S2P Require Import Prelude.
From S2P Require Import Vec.
From S2P Require Import Wiring.
From S2P Require Import WiringPath.
From S2P Require Import Loader.
From S2P Require Import LoaderRun.
#[local] Open Scope Z_scope.

(** Cube 1 with a program in each direction, and cube 2, transparent, with one for
    incoming packets, which was reloaded; cube 3 came and went. *)
Definition demo_loads : list load_op := [
  LCreate 1 false; LAdd 1 INGRESS "a" 0 (Ok 10); LAdd 1 EGRESS "b" 0 (Ok 11); LAdd 1 INGRESS "c" 1 (Ok 12);
  LCreate 3 false; LAdd 3 INGRESS "z" 0 (Ok 13);
  LCreate 2 true; LAdd 2 INGRESS "d" 0 (Ok 14); LDestroy 3; LReload 2 INGRESS "d2" 0 (Ok 15)]%string.
Fixpoint loads (ops : list load_op) (l : loader) : loader :=
  match ops with [] => l | op :: ops => loads ops (run_load op l).2 end.
Definition demo_loader : loader := loads demo_loads no_cubes.
Lemma demo_loader_reachable : load_reachable demo_loader.
Proof.
  unfold demo_loader, demo_loads, loads. repeat (apply reach_load; [|vm_compute; first [reflexivity|(repeat split); first [eexists; reflexivity|discriminate]]]). constructor.
Qed.

(** C25. In every state that creating, destroying, loading, reloading and unloading
    (failing to compile or load included) can lead to, a program being added only while
    the patch panel has a free index, the patch panel runs, at the index of a cube and
    direction whose first program is loaded, exactly that program, and no other cube and
    direction has that index. Where the first program was deleted the panel still runs
    it, see [removed_program_runs]. *)
Theorem index_leads_to_first_program l c b type fd :
  load_reachable l -> base_cubes l !! c = Some b -> programs_ (slots_of type b) !! 0%nat = Some (Loaded fd) ->
  let index := get_program_index c type l in
  1 <= index < _POLYCUBE_MAX_NODES /\ nodes_ (panel_ l) (type_ b) !! index = Some fd /\
  forall c' type', get_program_index c' type' l = index -> c' = c /\ type' = type.
Proof.
  intros Hl%load_reachable_ok Hb Hfd index. assert (index = index_ (slots_of type b)) as Ei by (unfold index, get_program_index; by rewrite Hb).
  pose proof (loader_dir _ Hl c b type Hb) as Hd. destruct (dir_entry _ _ _ Hd fd Hfd) as [Hnz Hno]. rewrite Ei.
  split; [apply (present_bounds _ (loader_panel _ Hl) (type_ b)), (dir_present _ _ _ Hd Hnz)|]. split; [done|].
  intros c' type' E. rewrite <- Ei in *. destruct (loader_distinct _ Hl c type c' type'); [done..|]. done.
Qed.
Lemma index_leads_to_first_program_witness : nodes_ (panel_ demo_loader) TC !! get_program_index 2 INGRESS demo_loader = Some 15.
Proof.
  assert (exists b, base_cubes demo_loader !! 2 = Some b /\ programs_ (slots_of INGRESS b) !! 0%nat = Some (Loaded 15) /\ type_ b = TC) as (b & Hb & Hp & Et)
    by (eexists; vm_compute; repeat split; reflexivity).
  destruct (index_leads_to_first_program demo_loader 2 b INGRESS 15 demo_loader_reachable Hb Hp) as (_ & Hn & _). by rewrite Et in Hn.
Defined.

(** Adding a program to a slot returns the slot's number, with the program loaded
    there and no other slot changed, exactly when the slot exists, is empty, and the
    program loads; otherwise it throws, and the programs in all other slots and all
    other cubes are as they were. *)
Theorem program_added l c b type code index fd :
  load_reachable l -> base_cubes l !! c = Some b -> fd <> Undefined -> node_ids_ (panel_ l) <> [] ->
  let s := slots_of type b in
  let r := on_cube c type (fun t => do_add_program t code index fd) l in
  (forall c', c' <> c -> base_cubes r.2 !! c' = base_cubes l !! c') /\
  match r.1 with
  | Ok k => k = index /\ programs_ s !! Z.to_nat k = Some Empty /\
      exists f b', fd = Ok f /\ base_cubes r.2 !! c = Some b' /\ programs_ (slots_of type b') = <[Z.to_nat k := Loaded f]> (programs_ s)
  | Throw e => slot_for index s = Throw e \/ fd = Throw e
  | Undefined => False
  end.
Proof.
  intros Hl%load_reachable_ok Hb Hfd Hids s r. unfold r. rewrite (on_cube_run _ _ _ _ b Hb). cbn [fst snd base_cubes].
  split; [intros c' Hc; by apply lookup_insert_ne|].
  pose proof (do_add_ok (type_ b) code index fd (panel_ l) s (loader_panel _ Hl) (loader_dir _ Hl c b type Hb) Hfd) as Hadd. fold s.
  destruct (do_add_program _ _ _ _ _) as [[k|e|] [p' s']]; cbn [fst snd]; [|apply Hadd|done].
  destruct Hadd as (_ & -> & Hs & f & -> & Hp). split; [done|]. split; [done|]. exists f, (set_slots type s' b). split; [done|].
  split; [apply lookup_insert_eq|]. rewrite slots_set. by rewrite decide_True.
Qed.
Lemma program_added_witness : (on_cube 1 INGRESS (fun t => do_add_program t "x" 1 (Ok 20)) demo_loader).1 = Throw (RuntimeError "Program is not empty").
Proof.
  assert (exists b, base_cubes demo_loader !! 1 = Some b /\ slot_for 1 (slots_of INGRESS b) = Throw (RuntimeError "Program is not empty")) as (b & Hb & Hs)
    by (eexists; vm_compute; split; reflexivity).
  assert (Ok 20 <> Undefined) as Hfd by discriminate. assert (node_ids_ (panel_ demo_loader) <> []) as Hids by (vm_compute; discriminate).
  destruct (program_added demo_loader 1 b INGRESS "x" 1 (Ok 20) demo_loader_reachable Hb Hfd Hids) as [_ Hr].
  destruct (on_cube 1 INGRESS _ demo_loader).1 as [k|e|].
  - destruct Hr as (-> & He & _). exfalso. unfold slot_for in Hs. rewrite He in Hs. revert Hs. by destruct (_ || _).
  - destruct Hr as [Hr|Hr]; [congruence|discriminate].
  - destruct Hr.
Defined.

(** * Where the code departs from what it means to do *)
(** -1 asks for the first free slot, and is always refused: it is compared unsigned. *)
Lemma any_slot_refused t code fd p s : length (programs_ s) = _POLYCUBE_MAX_BPF_PROGRAMS ->
  do_add_program t code (-1) fd (p, s) = (Throw (RuntimeError "Invalid ebpf program index"), (p, s)).
Proof. intros Hl. unfold do_add_program, slot_for, bind, get, lift. cbn [snd]. by rewrite Hl. Qed.
(** A program that does not load keeps its slot. *)
Lemma failed_load_keeps_slot :
  let l := loads [LCreate 1 false; LAdd 1 INGRESS "bad" 0 (Throw (RuntimeError "failed to load"))] no_cubes in
  (on_cube 1 INGRESS (fun t => do_add_program t "good" 0 (Ok 10)) l).1 = Throw (RuntimeError "Program is not empty").
Proof. vm_compute. reflexivity. Qed.
(** The first program is removed, and the patch panel still runs it. *)
Lemma removed_program_runs :
  let l := loads [LCreate 1 false; LAdd 1 INGRESS "a" 0 (Ok 10); LDel 1 INGRESS 0] no_cubes in
  (forall b, base_cubes l !! 1 = Some b -> programs_ (ingress_ b) !! 0%nat = Some Empty) /\
  nodes_ (panel_ l) TC !! get_program_index 1 INGRESS l = Some 10.
Proof. split; [|vm_compute; reflexivity]. intros b Hb. vm_compute in Hb. injection Hb as <-. reflexivity. Qed.
