(* ===== verification/SbDatapath.v ===== *)
(** pcn-simplebridge, the datapath: Simplebridge_dp.c.  A program learns on which
    port each address was seen and when, in a table of 1024 entries; the time is what
    the control plane last wrote to the timestamp table, in seconds.  After it, the
    abstract learning switch that it implements. *)
From Stdlib Require Import ZArith Lia Ascii String.
From stdpp Require Import base gmap sets list strings numbers.
From S2P Require Import Prelude.
From S2P Require Import Bpf.
From S2P Require Import NetUtils.
From S2P Require Import Frame.
From S2P Require Import Tables.
#[local] Open Scope Z_scope.

Definition eth_dst (frame : list Z) : Z := rd48 frame 0.
Definition eth_src (frame : list Z) : Z := rd48 frame 6.

Record fwd_entry := FwdEntry { fe_timestamp : Z; fe_port : Z }.
#[export] Instance fwd_entry_eq_dec : EqDecision fwd_entry.
Proof. solve_decision. Defined.

(** RX_DROP, pcn_pkt_redirect to a port, and pcn_pkt_controller followed by RX_DROP. *)
Inductive bridge_action := B_DROP | B_REDIRECT (port : Z) | B_CONTROLLER (reason : Z).
#[export] Instance bridge_action_eq_dec : EqDecision bridge_action.
Proof. solve_decision. Defined.
Definition REASON_FLOODING : Z := 1.

Class FwdMap := { fwdT : Type; #[global] fwd_ops :: BpfMap Z fwd_entry fwdT }.
#[export] Instance concrete_fwd_map : FwdMap := {| fwdT := Z * gmap Z fwd_entry |}.

Section datapath.
Context `{FwdMap}.

(** [defines] are the macros that the loaded program was compiled with. *)
Record sb_dp := SbDp { fwdtable : fwdT; timestamp : Z; defines : gmap string Z }.
Definition set_fwdtable (t : fwdT) (s : sb_dp) : sb_dp := SbDp t (timestamp s) (defines s).
Definition set_timestamp (t : Z) (s : sb_dp) : sb_dp := SbDp (fwdtable s) t (defines s).
Definition set_defines (d : gmap string Z) (s : sb_dp) : sb_dp := SbDp (fwdtable s) (timestamp s) d.

(** The program as it is first loaded; the kernel zeroes an array. *)
Definition sb_dp0 : sb_dp := SbDp (m_new 1024) 0 ∅.

(** [#ifndef FDB_TIMEOUT] [#define FDB_TIMEOUT 300] *)
Definition FDB_TIMEOUT (s : sb_dp) : Z := default 300 (defines s !! "FDB_TIMEOUT"%string).
(** The array has the entry that the program asks for. *)
Definition time_get_sec (s : sb_dp) : Z := timestamp s.

(** A new address is added, a known one is written in place. *)
Definition learn (src in_ifc now : Z) (t : fwdT) : fwdT :=
  match m_lookup t src with
  | None => bpf_update t src (FwdEntry now in_ifc)
  | Some _ => bpf_update t src (FwdEntry now in_ifc)
  end.

Definition handle_rx (frame : list Z) (in_port : Z) (s : sb_dp) : bridge_action * sb_dp :=
  if beyond frame 14 then (B_DROP, s)
  else
    let in_ifc := in_port in
    let now := time_get_sec s in
    let t := learn (eth_src frame) in_ifc now (fwdtable s) in
    let dst_mac := eth_dst frame in
    match m_lookup t dst_mac with
    | None => (B_CONTROLLER REASON_FLOODING, set_fwdtable t s)
    | Some entry =>
        (* now is a u32, the timestamp a u64 *)
        if FDB_TIMEOUT s <? u64 (now - fe_timestamp entry) then
          (B_CONTROLLER REASON_FLOODING, set_fwdtable (bpf_delete t dst_mac) s)
        else if fe_port entry =? in_ifc then (B_DROP, set_fwdtable t s)
        else (B_REDIRECT (fe_port entry), set_fwdtable t s)
    end.

(** ** Lemmas *)
Lemma learn_lookup src i now t mac :
  0 < m_free t \/ is_Some (m_lookup t src) ->
  m_lookup (learn src i now t) mac = if decide (src = mac) then Some (FwdEntry now i) else m_lookup t mac.
Proof. intros Hf. unfold learn. pose proof (bpf_update_lookup t src (FwdEntry now i) mac Hf) as <-. by destruct (m_lookup t src). Qed.
(** An entry was there before, or it is the one just learned. *)
Lemma learn_origin src i now t mac e :
  m_lookup (learn src i now t) mac = Some e -> m_lookup t mac = Some e \/ (mac = src /\ e = FwdEntry now i).
Proof.
  intros Hl. destruct (decide (0 < m_free t \/ is_Some (m_lookup t src))) as [Hf|Hf].
  - rewrite learn_lookup in Hl by done. case_decide; [right|by left]. by simplify_eq.
  - left. unfold learn in Hl. destruct (m_lookup t src) eqn:E; [by destruct Hf; right; eexists|].
    rewrite bpf_update_full in Hl; [done|done|]. destruct (decide (m_free t <= 0)); [done|]. destruct Hf. left. lia.
Qed.

(** What a packet can do to the table. *)
Lemma handle_rx_origin frame i s a s' mac e :
  handle_rx frame i s = (a, s') -> m_lookup (fwdtable s') mac = Some e ->
  m_lookup (fwdtable s) mac = Some e \/ (mac = eth_src frame /\ e = FwdEntry (timestamp s) i).
Proof.
  unfold handle_rx, time_get_sec. intros Hr Hl. destruct (beyond frame 14); [simplify_eq; by left|].
  set (t := learn _ _ _ _) in *.
  assert (m_lookup t mac = Some e) as Ht; [|by apply learn_origin in Ht].
  destruct (m_lookup t (eth_dst frame)) as [en|]; [|by simplify_eq].
  destruct (_ <? _); [|by destruct (_ =? _); simplify_eq]. simplify_eq. cbn [fwdtable set_fwdtable] in Hl.
  rewrite bpf_delete_lookup in Hl. by case_decide.
Qed.
Lemma handle_rx_rest frame i s a s' :
  handle_rx frame i s = (a, s') -> timestamp s' = timestamp s /\ defines s' = defines s.
Proof. unfold handle_rx. intros Hr. repeat case_match; by simplify_eq. Qed.

Lemma capacity_learn src i now t : capacity (learn src i now t) = capacity t.
Proof. unfold learn. destruct (m_lookup t src); apply capacity_bpf_update. Qed.
Lemma handle_rx_capacity frame i s a s' : handle_rx frame i s = (a, s') -> capacity (fwdtable s') = capacity (fwdtable s).
Proof.
  unfold handle_rx. intros Hr.
  repeat case_match; simplify_eq; cbn [fwdtable set_fwdtable]; rewrite ?capacity_bpf_delete; by rewrite ?capacity_learn.
Qed.
End datapath.

(** The control plane's tick, and a packet. *)
Inductive dp_event := Tick (now : Z) | Arrives (frame : list Z) (in_port : Z).

(** * The abstract switch: a history of sightings, the latest first *)
Record sighting := Sighting { seen_mac : Z; seen_on : Z; seen_at : Z }.
Fixpoint last_seen (mac : Z) (h : list sighting) : option sighting :=
  match h with
  | [] => None
  | x :: h => if seen_mac x =? mac then Some x else last_seen mac h
  end.
(** Where an address is at a time. *)
Definition whereabouts (mac now : Z) (h : list sighting) : option Z :=
  match last_seen mac h with
  | Some x => if now - seen_at x <=? 300 then Some (seen_on x) else None
  | None => None
  end.
Record switch := Switch { sw_now : Z; sw_history : list sighting }.
Definition switch_step (e : dp_event) (s : switch) : option bridge_action * switch :=
  match e with
  | Tick t => (None, Switch t (sw_history s))
  | Arrives frame i =>
      if beyond frame 14 then (Some B_DROP, s)
      else
        let h := Sighting (eth_src frame) i (sw_now s) :: sw_history s in
        (Some match whereabouts (eth_dst frame) (sw_now s) h with
              | None => B_CONTROLLER REASON_FLOODING
              | Some p => if p =? i then B_DROP else B_REDIRECT p
              end, Switch (sw_now s) h)
  end.

Section learn.
Context `{FwdMap}.

Definition dp_step (e : dp_event) (s : sb_dp) : option bridge_action * sb_dp :=
  match e with
  | Tick t => (None, set_timestamp t s)
  | Arrives frame i => let '(a, s) := handle_rx frame i s in (Some a, s)
  end.
Fixpoint run {S} (step : dp_event -> S -> option bridge_action * S) (es : list dp_event) (s : S) : list (option bridge_action) :=
  match es with
  | [] => []
  | e :: es => let '(a, s) := step e s in a :: run step es s
  end.

(** The ticks go forward and the seconds fit a u32. *)
Fixpoint ordered (now : Z) (es : list dp_event) : Prop :=
  match es with
  | [] => True
  | Tick t :: es => now <= t < 2 ^ 32 /\ ordered t es
  | Arrives _ _ :: es => ordered now es
  end.
(** The addresses that are learned. *)
Definition sources (es : list dp_event) : gset Z :=
  list_to_set (omap (fun e => match e with Arrives f _ => if beyond f 14 then None else Some (eth_src f) | Tick _ => None end) es).
Definition macs (h : list sighting) : gset Z := list_to_set (seen_mac <$> h).

(** * The simulation *)
Record knows (s : sb_dp) (w : switch) : Prop := {
  kn_now : timestamp s = sw_now w;
  kn_timeout : FDB_TIMEOUT s = 300;
  kn_past : Forall (fun x => 0 <= seen_at x <= sw_now w) (sw_history w);
  kn_range : 0 <= sw_now w < 2 ^ 32;
  kn_cap : capacity (fwdtable s) = 1024;
  kn_entry : forall mac e, m_lookup (fwdtable s) mac = Some e ->
      last_seen mac (sw_history w) = Some (Sighting mac (fe_port e) (fe_timestamp e));
  kn_none : forall mac, m_lookup (fwdtable s) mac = None -> whereabouts mac (sw_now w) (sw_history w) = None;
}.

Lemma last_seen_mac mac h x : last_seen mac h = Some x -> seen_mac x = mac /\ x ∈ h.
Proof.
  induction h as [|y h IH]; simpl; [done|]. destruct (seen_mac y =? mac) eqn:E.
  - apply Z.eqb_eq in E. intros [= <-]. split; [done|by left].
  - intros [? ?]%IH. split; [done|by right].
Qed.
Lemma last_seen_macs mac h : is_Some (last_seen mac h) -> mac ∈ macs h.
Proof.
  intros [x [<- Hx]%last_seen_mac]. unfold macs. rewrite elem_of_list_to_set, list_elem_of_fmap. by exists x.
Qed.
Lemma whereabouts_later mac now now' h : now <= now' -> whereabouts mac now h = None -> whereabouts mac now' h = None.
Proof.
  unfold whereabouts. intros Hn. destruct (last_seen mac h) as [x|]; [|done].
  destruct (now - seen_at x <=? 300) eqn:E; [done|]. intros _. destruct (now' - seen_at x <=? 300) eqn:E'; [lia|done].
Qed.


(** There is room for an address that is not in the table: the others are among
    those seen, and this one is not one of them. *)
Lemma knows_room s w src i now :
  knows s w -> (size (macs (Sighting src i now :: sw_history w)) <= 1024)%nat ->
  0 < m_free (fwdtable s) \/ is_Some (m_lookup (fwdtable s) src).
Proof.
  intros Hk Hs. destruct (m_lookup (fwdtable s) src) as [e|] eqn:El; [right; by eexists|]. left.
  apply (m_free_among (macs (Sighting src i now :: sw_history w) ∖ {[src]})).
  - intros mac [e He]. pose proof (kn_entry s w Hk mac e He) as Hl. apply elem_of_difference. split.
    + unfold macs. simpl. apply elem_of_union_r. fold (macs (sw_history w)). apply last_seen_macs. by eexists.
    + intros ->%elem_of_singleton. congruence.
  - rewrite size_difference, size_singleton by (intros x ->%elem_of_singleton; unfold macs; simpl; set_solver).
    rewrite (kn_cap s w Hk). lia.
Qed.
Lemma knows_learn s w src i :
  knows s w -> (size (macs (Sighting src i (sw_now w) :: sw_history w)) <= 1024)%nat ->
  knows (set_fwdtable (learn src i (timestamp s) (fwdtable s)) s) (Switch (sw_now w) (Sighting src i (sw_now w) :: sw_history w)).
Proof.
  intros Hk Hs. pose proof (knows_room s w src i _ Hk Hs) as Hroom. destruct Hk as [Hnow Hto Hpast Hr Hcap He Hn].
  split; cbn [timestamp fwdtable set_fwdtable sw_now sw_history]; try done.
  - constructor; [simpl; lia|done].
  - by rewrite capacity_learn.
  - intros mac e. rewrite learn_lookup by done. simpl. destruct (decide (src = mac)) as [->|Hne].
    + intros [= <-]. by rewrite Z.eqb_refl, Hnow.
    + intros Hl%He. destruct (src =? mac) eqn:E; [lia|done].
  - intros mac. rewrite learn_lookup by done. destruct (decide (src = mac)) as [->|Hne]; [done|].
    intros Hl%Hn. unfold whereabouts in *. simpl. destruct (src =? mac) eqn:E; [lia|done].
Qed.
(** What the table answers is where the history says the address is. *)
Lemma knows_answer s w mac :
  knows s w ->
  whereabouts mac (sw_now w) (sw_history w) =
  match m_lookup (fwdtable s) mac with
  | Some e => if FDB_TIMEOUT s <? u64 (timestamp s - fe_timestamp e) then None else Some (fe_port e)
  | None => None
  end.
Proof.
  intros Hk. destruct Hk as [Hnow Hto Hpast Hr Hcap He Hn]. destruct (m_lookup (fwdtable s) mac) as [e|] eqn:E; [|by apply Hn].
  apply He in E. unfold whereabouts. rewrite E. apply last_seen_mac in E as [_ Hx].
  pose proof (proj1 (list.Forall_forall _ _) Hpast _ Hx) as Ht. cbn [seen_at seen_on] in *. rewrite Hto, Hnow. unfold u64. rewrite Z.mod_small by lia.
  destruct (sw_now w - fe_timestamp e <=? 300) eqn:E1, (300 <? sw_now w - fe_timestamp e) eqn:E2; lia || done.
Qed.
Lemma knows_forget s w mac :
  knows s w -> whereabouts mac (sw_now w) (sw_history w) = None -> knows (set_fwdtable (bpf_delete (fwdtable s) mac) s) w.
Proof.
  intros [Hnow Hto Hpast Hr Hcap He Hn] Hw. split; cbn [timestamp fwdtable set_fwdtable]; try done.
  - by rewrite capacity_bpf_delete.
  - intros mac' e. rewrite bpf_delete_lookup. case_decide; [done|apply He].
  - intros mac'. rewrite bpf_delete_lookup. case_decide; [by subst|apply Hn].
Qed.

Lemma knows_packet frame i s w :
  knows s w -> (size (macs (sw_history (switch_step (Arrives frame i) w).2)) <= 1024)%nat ->
  (dp_step (Arrives frame i) s).1 = (switch_step (Arrives frame i) w).1 /\
  knows (dp_step (Arrives frame i) s).2 (switch_step (Arrives frame i) w).2.
Proof.
  intros Hk Hs. simpl in *. unfold handle_rx, time_get_sec. destruct (beyond frame 14); [done|]. cbn [snd fst sw_history] in *.
  pose proof (knows_learn s w _ i Hk Hs) as Hl. pose proof (knows_answer _ _ (eth_dst frame) Hl) as Ha.
  pose proof (knows_forget _ _ (eth_dst frame) Hl) as Hf. cbn [sw_history sw_now fwdtable set_fwdtable timestamp] in *.
  change (FDB_TIMEOUT (set_fwdtable _ s)) with (FDB_TIMEOUT s) in Ha. rewrite Ha in Hf |- *.
  destruct (m_lookup (learn _ _ _ _) _) as [e|]; [|done]. destruct (_ <? _); [split; [done|]; by apply Hf|]. by destruct (fe_port e =? i).
Qed.
Lemma knows_tick t s w : knows s w -> sw_now w <= t < 2 ^ 32 -> knows (set_timestamp t s) (Switch t (sw_history w)).
Proof.
  intros [Hnow Hto Hpast Hr Hcap He Hn] Ht. split; cbn [timestamp fwdtable set_timestamp sw_now sw_history]; try done; [|lia|].
  - eapply list.Forall_impl; [exact Hpast|]. simpl. lia.
  - intros mac Hm%Hn. revert Hm. apply whereabouts_later. lia.
Qed.

(** Every address of the history so far and of the events to come. *)
Lemma sources_step e es w :
  sources (e :: es) ∪ macs (sw_history w) = sources es ∪ macs (sw_history (switch_step e w).2).
Proof.
  destruct e as [t|frame i]; unfold sources; simpl; [done|]. destruct (beyond frame 14); [done|].
  unfold macs. cbn [snd sw_history fmap list_fmap seen_mac list_to_set]. set_solver.
Qed.
Lemma run_knows es : forall s w,
  knows s w -> ordered (sw_now w) es -> (size (sources es ∪ macs (sw_history w)) <= 1024)%nat ->
  run dp_step es s = run switch_step es w.
Proof.
  induction es as [|e es IH]; intros s w Hk Ho Hs; [done|]. rewrite sources_step in Hs. destruct e as [t|frame i]; simpl in Ho.
  - destruct Ho as [Ht Ho]. simpl. f_equal. apply IH; [by apply knows_tick|done|done].
  - destruct (knows_packet frame i s w Hk) as [Ha Hk'].
    { etrans; [|exact Hs]. apply subseteq_size. set_solver. }
    cbn [run]. destruct (dp_step (Arrives frame i) s) as [a s'], (switch_step (Arrives frame i) w) as [a' w'] eqn:Ew. simpl in *. subst a'.
    f_equal. apply IH; [done| |done]. assert (sw_now w' = sw_now w) as ->; [|done].
    destruct (beyond frame 14); by simplify_eq.
Qed.
Lemma knows_new : knows sb_dp0 (Switch 0 []).
Proof.
  split; simpl; try done; [apply capacity_new|]. intros mac e Hl%m_lookup_spec. rewrite m_entries_new in Hl. by apply elem_of_nil in Hl.
Qed.
End learn.
