(* ===== verification/SbFdb.v ===== *)
(** pcn-simplebridge, the control plane: the filtering database (Fdb.cpp,
    FdbEntry.cpp, base/FdbBase.cpp, base/FdbEntryBase.cpp), the ports (Ports.cpp) and
    the bridge (Simplebridge.cpp, base/SimplebridgeBase.cpp).  A call of the control
    plane is one step: the clock and the tables do not change during it but by it. *)
From Stdlib Require Import ZArith Lia Ascii String.
From stdpp Require Import base gmap sets list strings numbers.
From S2P Require Import Prelude.
From S2P Require Import Bpf.
From S2P Require Import NetUtils.
From S2P Require Import Frame.
From S2P Require Import Tables.
From S2P Require Import CubePorts.
From S2P Require Import SbDatapath.
#[local] Open Scope Z_scope.
#[local] Open Scope cpp_scope.

(** Ports: a port's name and identifier, those of the daemon's port. *)
Record Port := MkPort { p_name : string; p_index : Z }.
#[export] Instance port_eq_dec : EqDecision Port.
Proof. solve_decision. Defined.
#[export] Instance port_type : PortType Port := {| name := p_name; index := p_index |}.

(** What a request carries. *)
Record FdbEntryJson := FdbEntryJ { j_address : string; j_port : option string }.
Record FdbJson := FdbJ { j_agingTime : option Z; j_entry : option (list FdbEntryJson) }.
(** An entry as it is shown. *)
Record FdbEntry := MkFdbEntry { address_ : string; entry_age_ : Z; port_no_ : Z; port_name_ : string }.
#[export] Instance FdbEntry_eq_dec : EqDecision FdbEntry.
Proof. solve_decision. Defined.

(** [catch (...)] *)
Definition any_exn (e : exn) : bool := true.
(** A u32 passed as an int. *)
Definition int_of_u32 (x : Z) : Z := if x <? 2 ^ 31 then x else x - 2 ^ 32.

Section fdb.
Context `{FwdMap} {D : Type} `{DaemonCube D}.
(** libtins' packets, and the program's text in the build. *)
Context {PDU : Type} (EthernetII : list Z -> res PDU) (simplebridge_code : string).

(** The cube: its ports, its tables, the monotonic clock in seconds, and the packets
    that it sent itself. *)
Record Simplebridge := Sb {
  sb_ports : cube_ports Port D;
  sb_tables : sb_dp;
  sb_clock : Z;
  sb_sent : list (Z * PDU);
}.
Definition set_ports (p : cube_ports Port D) (s : Simplebridge) : Simplebridge := Sb p (sb_tables s) (sb_clock s) (sb_sent s).
Definition set_tables (t : sb_dp) (s : Simplebridge) : Simplebridge := Sb (sb_ports s) t (sb_clock s) (sb_sent s).
Definition set_clock (t : Z) (s : Simplebridge) : Simplebridge := Sb (sb_ports s) (sb_tables s) t (sb_sent s).
Definition set_sent (l : list (Z * PDU)) (s : Simplebridge) : Simplebridge := Sb (sb_ports s) (sb_tables s) (sb_clock s) l.
Definition set_fwd (t : fwdT) (s : Simplebridge) : Simplebridge := set_tables (set_fwdtable t (sb_tables s)) s.
Definition fwd (s : Simplebridge) : fwdT := fwdtable (sb_tables s).
(** [clock_gettime(CLOCK_MONOTONIC)], its seconds as a u32 *)
Definition now (s : Simplebridge) : Z := u32 (sb_clock s).

(** A call on the table: what it throws leaves it as it was. *)
Definition on_fwd (f : fwdT -> res fwdT) : M Simplebridge unit := fun s =>
  match f (fwd s) with Ok t => (Ok tt, set_fwd t s) | Throw e => (Throw e, s) | Undefined => (Undefined, s) end.

(** ** Ports *)
Definition Ports_destructor (p : Port) : M Simplebridge unit :=
  try_catch is_std_exception
    (s <-- get ;;
     fdb <-- lift (default Undefined (get_all (fwd s))) ;;
     for_each fdb (fun pair => if fe_port pair.2 =? u32 (index p) then on_fwd (fun t => table_remove t pair.1) else ret tt))
    (ret tt).

(** ** The bridge *)
Definition updateTimestamp : M Simplebridge unit :=
  s <-- get ;; modify (set_tables (set_timestamp (u32 (sb_clock s)) (sb_tables s))).

Definition flood_packet (port : Port) (packet : list Z) : M Simplebridge unit :=
  p <-- lift (EthernetII packet) ;;
  s <-- get ;;
  for_each (get_ports (sb_ports s)) (fun it =>
    if String.eqb (name it) (name port) then ret tt
    else modify (fun s => set_sent (sb_sent s ++ [(index it, p)]) s)).
Definition packet_in (port : Port) (reason : Z) (packet : list Z) : M Simplebridge unit :=
  try_catch is_std_exception (if reason =? REASON_FLOODING then flood_packet port packet else ret tt) (ret tt).
(** [handle_packet_in] of the cube *)
Definition handle_packet_in (port_id reason : Z) (packet : list Z) : M Simplebridge unit :=
  s <-- get ;;
  match ports_by_id_ (sb_ports s) !! port_id with
  | None => throw OutOfRange
  | Some p => packet_in p reason packet
  end.

Definition reloadCodeWithAgingtime (aging_time : Z) : M Simplebridge unit :=
  let aging_time_str := ("#define AGING_TIME " +:+ to_string aging_time)%string in
  zoom sb_ports set_ports (on_daemon (d_reload (aging_time_str +:+ simplebridge_code)%string)) ;;;
  modify (fun s => set_tables (set_defines {["AGING_TIME"%string := aging_time]} (sb_tables s)) s).

(** * Fdb *)
Record Fdb := MkFdb { agingTime_ : Z; parent_ : Simplebridge }.
Definition set_parent (p : Simplebridge) (s : Fdb) : Fdb := MkFdb (agingTime_ s) p.
Definition on_parent {A} (m : M Simplebridge A) : M Fdb A := zoom parent_ set_parent m.

Definition setAgingTime (value : Z) : M Fdb unit :=
  s <-- get ;;
  if negb (agingTime_ s =? value) then
    try_catch is_std_exception (on_parent (reloadCodeWithAgingtime value)) (ret tt) ;;;
    modify (fun s => MkFdb value (parent_ s))
  else ret tt.

(** The constructor of an entry: its port must exist. *)
Definition new_FdbEntry (address : string) (entry_age out_port : Z) : M Fdb FdbEntry :=
  s <-- get ;;
  port <-- lift (get_port_by_id (int_of_u32 out_port) (sb_ports (parent_ s))) ;;
  ret (MkFdbEntry address entry_age out_port (name port)).

Definition constructFromMap (address : string) (value : fwd_entry) : M Fdb (option FdbEntry) :=
  s <-- get ;;
  let now := now (parent_ s) in
  key <-- lift (mac_string_to_nbo_uint address) ;;
  let timestamp := fe_timestamp value in
  if agingTime_ s <? u32 (now - timestamp) then
    on_parent (on_fwd (fun t => table_remove t key)) ;;; ret None
  else
    e <-- new_FdbEntry address (u32 (now - timestamp)) (fe_port value) ;; ret (Some e).

Definition getEntry (address : string) : M Fdb FdbEntry :=
  key <-- lift (mac_string_to_nbo_uint address) ;;
  try_catch is_std_exception
    (s <-- get ;;
     value <-- lift (table_get (fwd (parent_ s)) key) ;;
     entry <-- constructFromMap address value ;;
     match entry with
     | None => throw (RuntimeError "Map entry not found")
     | Some e => ret e
     end)
    (throw (RuntimeError "Map entry not found")).

(** The loop of [getEntryList]: an entry that is not shown is left out. *)
Fixpoint entries_of (fdb : list (Z * fwd_entry)) : M Fdb (list FdbEntry) :=
  match fdb with
  | [] => ret []
  | (map_key, map_entry) :: fdb =>
      entry <-- constructFromMap (nbo_uint_to_mac_string map_key) map_entry ;;
      rest <-- entries_of fdb ;;
      ret match entry with None => rest | Some e => e :: rest end
  end.
Definition getEntryList : M Fdb (list FdbEntry) :=
  try_catch is_std_exception
    (s <-- get ;;
     fdb <-- lift (default Undefined (get_all (fwd (parent_ s)))) ;;
     entries_of fdb)
    (throw (RuntimeError "Unable to get filtering database")).

(** [get_port(name)->index()], any exception replaced *)
Definition port_index (value : string) : M Fdb Z :=
  s <-- get ;;
  try_catch any_exn (port <-- lift (get_port_by_name value (sb_ports (parent_ s))) ;; ret (u32 (index port)))
    (throw (RuntimeError ("Port " +:+ value +:+ " doesn't exist"))).

Definition addEntry (address : string) (conf : FdbEntryJson) : M Fdb unit :=
  match j_port conf with
  | None => throw (RuntimeError "You should specify the output port for a STATIC entry")
  | Some p =>
      i <-- port_index p ;;
      s <-- get ;;
      key <-- lift (mac_string_to_nbo_uint address) ;;
      on_parent (on_fwd (fun t => table_set t key (FwdEntry (now (parent_ s)) i)))
  end.
Definition addEntryList (conf : list FdbEntryJson) : M Fdb unit := for_each conf (fun i => addEntry (j_address i) i).

Definition delEntry (address : string) : M Fdb unit :=
  try_catch is_std_exception (getEntry address ;;; ret tt) (throw (RuntimeError "Filtering database entry not found")) ;;;
  key <-- lift (mac_string_to_nbo_uint address) ;;
  try_catch any_exn (on_parent (on_fwd (fun t => table_remove t key))) (throw (RuntimeError "[MapEntry] does not exist")).
Definition replaceEntry (address : string) (conf : FdbEntryJson) : M Fdb unit :=
  delEntry address ;;; addEntry (j_address conf) conf.

Definition delEntryList : M Fdb unit :=
  try_catch is_std_exception (on_parent (on_fwd (fun t => default Undefined (remove_all t))))
    (throw (RuntimeError "Error while removing all entries from filtering database table")).
(** [flushed] of the answer *)
Definition flush : M Fdb bool :=
  try_catch is_std_exception (delEntryList ;;; ret true) (ret false).

(** *** FdbEntry *)
Definition setPort (e : FdbEntry) (value : string) : M Fdb unit :=
  i <-- port_index value ;;
  map_key <-- lift (mac_string_to_nbo_uint (address_ e)) ;;
  on_parent (on_fwd (fun t => table_set t map_key (FwdEntry 0 i))).
Definition update_entry (e : FdbEntry) (conf : FdbEntryJson) : M Fdb unit :=
  match j_port conf with Some p => setPort e p | None => ret tt end.
Definition update (conf : FdbJson) : M Fdb unit :=
  match j_agingTime conf with Some t => setAgingTime t | None => ret tt end ;;;
  match j_entry conf with
  | Some l => for_each l (fun i => m <-- getEntry (j_address i) ;; update_entry m i)
  | None => ret tt
  end.
(** The constructor, on an object with its default aging time *)
Definition new_Fdb (conf : FdbJson) : M Fdb unit :=
  match j_agingTime conf with Some t => setAgingTime t | None => ret tt end ;;;
  match j_entry conf with Some l => addEntryList l | None => ret tt end.

(** * The bridge and its database *)
Record bridge := Bridge { cube : Simplebridge; fdb_ : option Z }.
Definition set_cube (c : Simplebridge) (s : bridge) : bridge := Bridge c (fdb_ s).
Definition on_cube {A} (m : M Simplebridge A) : M bridge A := zoom cube set_cube m.

(** [getFdb()->m]: without a database, a new one whose aging time is 0 answers and
    is then dropped. *)
Definition on_fdb {A} (m : M Fdb A) : M bridge A := fun s =>
  let '(r, f) := m (MkFdb (default 0 (fdb_ s)) (cube s)) in
  (r, Bridge (parent_ f) (match fdb_ s with Some _ => Some (agingTime_ f) | None => None end)).

Definition addFdb (value : FdbJson) : M bridge unit := fun s =>
  let '(r, f) := new_Fdb value (MkFdb 300 (cube s)) in
  (r, Bridge (parent_ f) (match r with Ok _ => Some (agingTime_ f) | _ => fdb_ s end)).
Definition delFdb : M bridge unit :=
  s <-- get ;;
  match fdb_ s with
  | Some _ => on_fdb (delEntryList ;;; setAgingTime 300)
  | None => throw (RuntimeError "There is not filtering database in the bridge")
  end.
Definition replaceFdb (conf : FdbJson) : M bridge unit := delFdb ;;; addFdb conf.

Definition addPorts (name : string) (conf : d_conf) : M bridge unit :=
  on_cube (zoom sb_ports set_ports (add_port name conf (fun i => Ok (MkPort name i)))) ;;; ret tt.
Definition addPortsList (conf : list (string * d_conf)) : M bridge unit := for_each conf (fun i => addPorts i.1 i.2).
(** The port's object goes with the last pointer to it, the one in the maps. *)
Definition delPorts (name : string) : M bridge unit :=
  s <-- get ;;
  on_cube (zoom sb_ports set_ports (remove_port name)) ;;;
  match ports_by_name_ (sb_ports (cube s)) !! name with
  | Some port => on_cube (Ports_destructor port)
  | None => ret tt
  end.
(** Here the vector holds the objects until the end of the function, reached or not. *)
Definition delPortsList : M bridge unit := fun s =>
  let elements := get_ports (sb_ports (cube s)) in
  let '(r, s') := for_each elements (fun i => on_cube (zoom sb_ports set_ports (remove_port (name i)))) s in
  let dead := filter (fun i => ports_by_name_ (sb_ports (cube s')) !! name i = None) elements in
  (r, (on_cube (for_each dead Ports_destructor) s').2).
Definition replacePorts (name : string) (name' : string) (conf : d_conf) : M bridge unit :=
  delPorts name ;;; addPorts name' conf.

(** * Requests *)
Inductive sb_op :=
  | AddPort (name : string) (conf : d_conf)
  | AddPorts (l : list (string * d_conf))
  | DelPort (name : string)
  | DelPorts
  | ReplacePort (name name' : string) (conf : d_conf)
  | ReadEntry (address : string)
  | ReadEntries
  | AddEntry (address : string) (conf : FdbEntryJson)
  | AddEntries (l : list FdbEntryJson)
  | ReplaceEntry (address : string) (conf : FdbEntryJson)
  | UpdateEntry (address : string) (conf : FdbEntryJson)
  | DelEntry (address : string)
  | DelEntries
  | Flush
  | SetAging (value : Z)
  | AddFdb (conf : FdbJson)
  | UpdateFdb (conf : FdbJson)
  | ReplaceFdb (conf : FdbJson)
  | DelFdb.

Definition drop {S A} (m : M S A) : M S unit := m ;;; ret tt.
Definition run_op (op : sb_op) : M bridge unit :=
  match op with
  | AddPort name conf => addPorts name conf
  | AddPorts l => addPortsList l
  | DelPort name => delPorts name
  | DelPorts => delPortsList
  | ReplacePort name name' conf => replacePorts name name' conf
  | ReadEntry address => drop (on_fdb (getEntry address))
  | ReadEntries => drop (on_fdb getEntryList)
  | AddEntry address conf => on_fdb (addEntry address conf)
  | AddEntries l => on_fdb (addEntryList l)
  | ReplaceEntry address conf => on_fdb (replaceEntry address conf)
  | UpdateEntry address conf => on_fdb (m <-- getEntry address ;; update_entry m conf)
  | DelEntry address => on_fdb (delEntry address)
  | DelEntries => on_fdb delEntryList
  | Flush => drop (on_fdb flush)
  | SetAging value => on_fdb (setAgingTime value)
  | AddFdb conf => addFdb conf
  | UpdateFdb conf => on_fdb (update conf)
  | ReplaceFdb conf => replaceFdb conf
  | DelFdb => delFdb
  end.

(** The constructor: no table has an entry, and the daemon's cube has no port. *)
Definition new_bridge (d : D) (clock : Z) (conf_ports : list (string * d_conf)) (conf_fdb : FdbJson) : res unit * bridge :=
  (addPortsList conf_ports ;;; addFdb conf_fdb) (Bridge (Sb (CubePorts ∅ ∅ d) sb_dp0 clock []) None).
End fdb.
