(* ===== verification/SbInvariant.v ===== *)
(** pcn-simplebridge, the invariant: whatever users, packets and time do, every entry
    of the table leads to a port of the cube, was made in the past, and has the key
    of an address.  Before it, what each call does to the filtering database. *)
From Stdlib Require Import ZArith Lia Ascii String.
From stdpp Require Import base gmap sets list strings numbers.
From S2P Require Import Prelude.
From S2P Require Import Bpf.
From S2P Require Import NetUtils.
From S2P Require Import Frame.
From S2P Require Import Tables.
From S2P Require Import CubePorts.
From S2P Require Import SbDatapath.
From S2P Require Import SbFdb.
#[local] Open Scope Z_scope.
#[local] Open Scope cpp_scope.

Section facts.
Context `{FwdMap} {D : Type} `{DaemonCube D} {PDU : Type}.
#[local] Abbreviation Simplebridge := (Simplebridge (D := D) (PDU := PDU)).
#[local] Abbreviation Fdb := (Fdb (D := D) (PDU := PDU)).

(** * The invariant of a cube *)
Definition has_port (s : Simplebridge) (i : Z) : Prop := is_Some (ports_by_id_ (sb_ports s) !! i).
(** [dead]: the ports that are leaving. *)
Definition entry_ok (dead : list Z) (s : Simplebridge) (k : Z) (e : fwd_entry) : Prop :=
  0 <= k < 2 ^ 48 /\ 0 <= fe_timestamp e <= sb_clock s /\ (has_port s (fe_port e) \/ fe_port e ∈ dead).
Record cube_ok (dead : list Z) (s : Simplebridge) : Prop := {
  co_ports : ports_ok (sb_ports s);
  co_range : forall i, has_port s i -> 0 <= i < 2 ^ 16;
  co_entry : forall k e, m_lookup (fwd s) k = Some e -> entry_ok dead s k e;
  co_clock : 0 <= timestamp (sb_tables s) <= sb_clock s /\ sb_clock s < 2 ^ 32;
  co_cap : capacity (fwd s) = 1024;
  co_timeout : FDB_TIMEOUT (sb_tables s) = 300;
}.

Lemma cube_ok_fwd dead dead' t s :
  cube_ok dead s -> capacity t = 1024 -> (forall k e, m_lookup t k = Some e -> entry_ok dead' s k e) -> cube_ok dead' (set_fwd t s).
Proof. intros [Hp Hr He Hc Hcap Ht] Hcap' He'. by split. Qed.

(** ** Removing the entries that satisfy [P], one by one *)
Lemma purge_run (P : Z * fwd_entry -> bool) l : forall s : Simplebridge,
  NoDup l.*1 -> (forall p, p ∈ l -> m_lookup (fwd s) p.1 = Some p.2) ->
  exists t, for_each l (fun p => if P p then on_fwd (fun t => table_remove t p.1) else ret tt) s = (Ok tt, set_fwd t s) /\
    capacity t = capacity (fwd s) /\
    forall k, m_lookup t k = (if existsb (fun p => P p && (p.1 =? k)) l then None else m_lookup (fwd s) k).
Proof.
  induction l as [|p l IH]; intros s Hd Hl; cbn [for_each].
  { exists (fwd s). split; [by destruct s as [? []]|]. split; [done|]. done. }
  apply list.NoDup_cons in Hd as [Hp Hd]. unfold bind, on_fwd at 1. destruct (P p) eqn:EP; cbn [fst snd].
  - unfold table_remove. pose proof (m_delete_spec (fwd s) p.1) as Hdel. destruct (m_delete (fwd s) p.1) as [t1|] eqn:Et;
      [|rewrite (Hl p) in Hdel by left; done].
    destruct Hdel as (_ & _ & Hl1). destruct (IH (set_fwd t1 s)) as (t & Hr & Hc & Ht); [done| |].
    { intros q Hq. change (fwd (set_fwd t1 s)) with t1. rewrite Hl1, decide_False; [apply Hl; by right|].
      intros E. apply Hp. rewrite E. by apply list_elem_of_fmap_2. }
    exists t. split; [exact Hr|]. change (fwd (set_fwd t1 s)) with t1 in *. split; [rewrite Hc; by eapply capacity_delete|].
    intros k. rewrite Ht, Hl1. cbn [existsb]. rewrite EP. simpl. case_decide as E; subst; [rewrite Z.eqb_refl; by destruct (existsb _ _)|].
    by destruct (Z.eqb_spec p.1 k).
  - destruct (IH s Hd) as (t & Hr & Hc & Ht); [intros q Hq; apply Hl; by right|]. exists t. split; [exact Hr|]. split; [done|].
    intros k. rewrite Ht. cbn [existsb]. by rewrite EP.
Qed.
Lemma purge_all_run (P : Z * fwd_entry -> bool) (s : Simplebridge) :
  exists t, for_each (m_entries (fwd s)) (fun p => if P p then on_fwd (fun t => table_remove t p.1) else ret tt) s = (Ok tt, set_fwd t s) /\
    capacity t = capacity (fwd s) /\
    forall k, m_lookup t k = (e ← m_lookup (fwd s) k; if P (k, e) then None else Some e).
Proof.
  destruct (purge_run P (m_entries (fwd s)) s) as (t & Hr & Hc & Ht); [apply m_keys_unique|by intros [k e] ?%m_lookup_spec|].
  exists t. split; [done|]. split; [done|]. intros k. rewrite Ht. destruct (existsb _ _) eqn:E; destruct (m_lookup (fwd s) k) as [e|] eqn:El; simpl; try done.
  - apply existsb_exists in E as ([k' e'] & Hin%list_elem_of_In & [HP Hk]%andb_prop). apply Z.eqb_eq in Hk. simpl in Hk. subst k'.
    apply m_lookup_spec in Hin. rewrite El in Hin. simplify_eq. by rewrite HP.
  - destruct (P (k, e)) eqn:EP; [|done]. apply not_true_iff_false in E. destruct E. apply existsb_exists. exists (k, e).
    split; [by apply list_elem_of_In, m_lookup_spec|]. by rewrite EP, Z.eqb_refl.
Qed.

(** The destructor of a port removes the entries that lead to it, and no others. *)
Lemma Ports_destructor_run p (s : Simplebridge) :
  exists t, Ports_destructor p s = (Ok tt, set_fwd t s) /\ capacity t = capacity (fwd s) /\
    forall k, m_lookup t k = (e ← m_lookup (fwd s) k; if fe_port e =? u32 (p_index p) then None else Some e).
Proof.
  unfold Ports_destructor, try_catch, bind, get, lift. rewrite get_all_run.
  destruct (purge_all_run (fun pair => fe_port pair.2 =? u32 (p_index p)) s) as (t & Hr & Hc & Ht). exists t.
  split; [|done]. simpl in *. by rewrite Hr.
Qed.

(** * Entries, as they are shown *)
Definition port_at (s : Simplebridge) (i : Z) : string :=
  match ports_by_id_ (sb_ports s) !! i with Some p => p_name p | None => "" end.
(** Seconds since the entry was last seen. *)
Definition age (s : Simplebridge) (e : fwd_entry) : Z := sb_clock s - fe_timestamp e.
Definition shown_as (address : string) (s : Simplebridge) (e : fwd_entry) : FdbEntry :=
  MkFdbEntry address (age s e) (fe_port e) (port_at s (fe_port e)).
Definition too_old (aging : Z) (s : Simplebridge) (e : fwd_entry) : bool := aging <? age s e.

Lemma age_range s k e : cube_ok [] s -> m_lookup (fwd s) k = Some e -> u32 (now s - fe_timestamp e) = age s e.
Proof.
  intros Hs He. pose proof (co_entry [] s Hs k e He) as (_ & Ht & _). pose proof (co_clock [] s Hs) as [_ Hc].
  unfold now, age, u32. rewrite (Z.mod_small (sb_clock s)), Z.mod_small by lia. done.
Qed.
Lemma entry_port s k e : cube_ok [] s -> m_lookup (fwd s) k = Some e ->
  get_port_by_id (int_of_u32 (fe_port e)) (sb_ports s) = Ok (MkPort (port_at s (fe_port e)) (fe_port e)).
Proof.
  intros Hs He. pose proof (co_entry [] s Hs k e He) as (_ & _ & [Hp|Hp]); [|by apply elem_of_nil in Hp].
  pose proof (co_range [] s Hs _ Hp) as Hr. unfold int_of_u32, get_port_by_id, port_at. destruct (Z.ltb_spec (fe_port e) (2 ^ 31)); [|lia].
  destruct Hp as [p Hp]. rewrite Hp. apply (po_id _ (co_ports [] s Hs)) in Hp as [_ <-]. by destruct p.
Qed.
Lemma table_remove_present {K V T} `{BpfMap K V T} (t : T) k v : m_lookup t k = Some v -> table_remove t k = Ok (bpf_delete t k).
Proof. intros Hl. unfold table_remove, bpf_delete. pose proof (m_delete_spec t k) as Hd. destruct (m_delete t k); [done|congruence]. Qed.

Definition with_fwd (t : fwdT) (f : Fdb) : Fdb := set_parent (set_fwd t (parent_ f)) f.

Lemma constructFromMap_run address key e (f : Fdb) :
  cube_ok [] (parent_ f) -> mac_string_to_nbo_uint address = Ok key -> m_lookup (fwd (parent_ f)) key = Some e ->
  constructFromMap address e f =
    if too_old (agingTime_ f) (parent_ f) e then (Ok None, with_fwd (bpf_delete (fwd (parent_ f)) key) f)
    else (Ok (Some (shown_as address (parent_ f) e)), f).
Proof.
  intros Hs Hk He. unfold constructFromMap, bind, get, lift. rewrite Hk, (age_range _ key e Hs He). unfold too_old.
  destruct (agingTime_ f <? age (parent_ f) e).
  - unfold on_parent, zoom, on_fwd. by rewrite (table_remove_present _ key e He).
  - unfold new_FdbEntry, bind, get, lift. by rewrite (entry_port _ key e Hs He).
Qed.

Lemma getEntry_run address (f : Fdb) :
  cube_ok [] (parent_ f) ->
  getEntry address f =
    match mac_string_to_nbo_uint address with
    | Ok key =>
        match m_lookup (fwd (parent_ f)) key with
        | Some e =>
            if too_old (agingTime_ f) (parent_ f) e then
              (Throw (RuntimeError "Map entry not found"), with_fwd (bpf_delete (fwd (parent_ f)) key) f)
            else (Ok (shown_as address (parent_ f) e), f)
        | None => (Throw (RuntimeError "Map entry not found"), f)
        end
    | Throw e => (Throw e, f)
    | Undefined => (Undefined, f)
    end.
Proof.
  intros Hs. unfold getEntry, bind, try_catch, get, lift, table_get. destruct (mac_string_to_nbo_uint address) as [key|e|] eqn:Hk; try done.
  destruct (m_lookup (fwd (parent_ f)) key) as [e|] eqn:He; [|done]. rewrite (constructFromMap_run address key e f Hs Hk He).
  by destruct (too_old _ _ _).
Qed.

Lemma entries_of_run l : forall f : Fdb,
  cube_ok [] (parent_ f) -> NoDup l.*1 -> (forall p, p ∈ l -> m_lookup (fwd (parent_ f)) p.1 = Some p.2) ->
  entries_of l f =
    (Ok (omap (fun p => if too_old (agingTime_ f) (parent_ f) p.2 then None else Some (shown_as (nbo_uint_to_mac_string p.1) (parent_ f) p.2)) l),
     set_parent (for_each l (fun p => if too_old (agingTime_ f) (parent_ f) p.2 then on_fwd (fun t => table_remove t p.1) else ret tt) (parent_ f)).2 f).
Proof.
  induction l as [|[k e] l IH]; intros f Hs Hd Hl; cbn [entries_of for_each omap list_omap]; [by destruct f|].
  apply list.NoDup_cons in Hd as [Hp Hd]. pose proof (Hl (k, e) ltac:(by left)) as He. cbn [fst snd] in He.
  pose proof (co_entry [] _ Hs k e He) as (Hk & _). unfold bind.
  rewrite (constructFromMap_run _ k e f Hs (mac_string_roundtrip k Hk) He). cbn [fst snd].
  destruct (too_old (agingTime_ f) (parent_ f) e) eqn:Eo.
  - rewrite IH; [|apply (cube_ok_fwd [] []); [done|rewrite capacity_bpf_delete; apply Hs|]|done|].
    + unfold on_fwd at 2. by rewrite (table_remove_present _ k e He).
    + intros k' e'. rewrite bpf_delete_lookup. case_decide; [done|]. by apply Hs.
    + intros q Hq. change (fwd (parent_ (with_fwd _ f))) with (bpf_delete (fwd (parent_ f)) k). rewrite bpf_delete_lookup, decide_False; [apply Hl; by right|].
      intros ->. apply Hp. change (q.1 ∈ l.*1). by apply list_elem_of_fmap_2.
  - rewrite IH; [done|done|done|]. intros q Hq. apply Hl. by right.
Qed.

(** What is shown is what is fresh, and what is not fresh is removed. *)
Lemma getEntryList_run (f : Fdb) :
  cube_ok [] (parent_ f) ->
  exists t, getEntryList f =
      (Ok (omap (fun p => if too_old (agingTime_ f) (parent_ f) p.2 then None else Some (shown_as (nbo_uint_to_mac_string p.1) (parent_ f) p.2))
             (m_entries (fwd (parent_ f)))), with_fwd t f) /\
    capacity t = 1024 /\
    forall k, m_lookup t k = (e ← m_lookup (fwd (parent_ f)) k; if too_old (agingTime_ f) (parent_ f) e then None else Some e).
Proof.
  intros Hs. unfold getEntryList, try_catch, bind, get, lift. rewrite get_all_run. simpl.
  rewrite entries_of_run; [|done|apply m_keys_unique|by intros [k e] ?%m_lookup_spec].
  destruct (purge_all_run (fun p => too_old (agingTime_ f) (parent_ f) p.2) (parent_ f)) as (t & Hr & Hc & Ht). exists t.
  rewrite Hr. split; [done|]. split; [rewrite Hc; apply Hs|done].
Qed.

Lemma fdb_delEntryList_run (f : Fdb) :
  cube_ok [] (parent_ f) -> exists t, delEntryList f = (Ok tt, with_fwd t f) /\ capacity t = 1024 /\ m_entries t = [].
Proof.
  intros Hs. unfold delEntryList, try_catch, on_parent, zoom, on_fwd. destruct (remove_all_run (fwd (parent_ f))) as (t & -> & He & Hf).
  exists t. split; [done|]. split; [|done]. pose proof (co_cap [] _ Hs) as Hc. unfold capacity in *. rewrite He. simpl. lia.
Qed.

Lemma port_index_run value (f : Fdb) :
  port_index value f =
    match ports_by_name_ (sb_ports (parent_ f)) !! value with
    | Some p => (Ok (u32 (p_index p)), f)
    | None => (Throw (RuntimeError ("Port " +:+ value +:+ " doesn't exist")), f)
    end.
Proof. unfold port_index, bind, get, try_catch, lift, get_port_by_name. by destruct (ports_by_name_ _ !! value). Qed.

Lemma fdb_delEntry_run address (f : Fdb) :
  cube_ok [] (parent_ f) ->
  delEntry address f =
    match mac_string_to_nbo_uint address with
    | Ok key =>
        match m_lookup (fwd (parent_ f)) key with
        | Some e =>
            (if too_old (agingTime_ f) (parent_ f) e then Throw (RuntimeError "Filtering database entry not found") else Ok tt,
             with_fwd (bpf_delete (fwd (parent_ f)) key) f)
        | None => (Throw (RuntimeError "Filtering database entry not found"), f)
        end
    | _ => (Throw (RuntimeError "Filtering database entry not found"), f)
    end.
Proof.
  intros Hs. unfold delEntry, bind, try_catch. rewrite (getEntry_run address f Hs).
  destruct (mac_string_to_nbo_uint_throws address) as [[key Hk]|Hk]; rewrite Hk; [|done].
  destruct (m_lookup (fwd (parent_ f)) key) as [e|] eqn:He; [|done]. destruct (too_old _ _ _); [done|].
  unfold lift, on_parent, zoom, on_fwd. simpl. by rewrite (table_remove_present _ key e He).
Qed.
End facts.

(** ** Methods of parts *)
Lemma always_zoom {S T A} (proj : S -> T) (with_ : T -> S -> S) (P : S -> Prop) (Q : T -> Prop) (m : M T A) :
  (forall s, P s -> Q (proj s)) -> (forall s t, P s -> Q t -> P (with_ t s)) -> always Q m -> always P (zoom proj with_ m).
Proof.
  intros HQ HP Hm s Hs. unfold zoom. specialize (Hm (proj s) (HQ s Hs)). destruct (m (proj s)) as [r t]. by apply HP.
Qed.

Section invariant.
Context `{FwdMap} {D : Type} `{DaemonCube D} {PDU : Type} (simplebridge_code : string).
#[local] Abbreviation Simplebridge := (Simplebridge (D := D) (PDU := PDU)).
#[local] Abbreviation Fdb := (Fdb (D := D) (PDU := PDU)).
#[local] Abbreviation bridge := (bridge (D := D) (PDU := PDU)).

Definition fdb_ok (f : Fdb) : Prop := cube_ok [] (parent_ f).
Definition bridge_ok (s : bridge) : Prop := cube_ok [] (cube s).

(** ** The table *)
Lemma always_remove dead k : always (S := Simplebridge) (cube_ok dead) (on_fwd (fun t => table_remove t k)).
Proof.
  intros s Hs. unfold on_fwd, table_remove. pose proof (m_delete_spec (fwd s) k) as Hd.
  destruct (m_delete (fwd s) k) as [t|] eqn:E; [|done]. apply (cube_ok_fwd dead); [done|rewrite (capacity_delete _ _ _ E); apply Hs|].
  destruct Hd as (_ & _ & Hl). intros k' e'. rewrite Hl. case_decide; [done|]. by apply Hs.
Qed.
Lemma set_kept dead k e (s : Simplebridge) :
  cube_ok dead s -> entry_ok dead s k e -> cube_ok dead (on_fwd (fun t => table_set t k e) s).2.
Proof.
  intros Hs He. unfold on_fwd, table_set. pose proof (m_update_spec (fwd s) k e) as Hu.
  destruct (m_update (fwd s) k e) as [t|] eqn:E; [|done]. apply (cube_ok_fwd dead); [done|rewrite (capacity_update _ _ _ _ E); apply Hs|].
  destruct Hu as (_ & _ & Hl). intros k' e'. rewrite Hl. case_decide as Ek; [|by apply Hs]. intros [= <-]. by subst.
Qed.
Lemma cleared_kept t (s : Simplebridge) : cube_ok [] s -> capacity t = 1024 -> m_entries t = [] -> cube_ok [] (set_fwd t s).
Proof.
  intros Hs Hc He. apply (cube_ok_fwd []); [done..|]. intros k e Hl. by rewrite (proj1 (m_entries_lookup t) He) in Hl.
Qed.

(** ** The ports *)
Lemma daemon_kept dead (s : Simplebridge) d :
  cube_ok dead s -> d_ok d -> d_ports d = d_ports (daemon (sb_ports s)) -> cube_ok dead (set_ports (set_daemon d (sb_ports s)) s).
Proof.
  intros [[Hn Hi Hd Hdok] Hr He Hc Hcap Ht] Hdok' E. split; try done. split; [done|done| |done]. simpl. by rewrite E.
Qed.

(** ** Fdb *)
Lemma always_parent {A} (m : M Simplebridge A) : always (cube_ok []) m -> always fdb_ok (on_parent m).
Proof. by apply always_zoom. Qed.

Lemma setAgingTime_kept value : always (S := Fdb) fdb_ok (setAgingTime simplebridge_code value).
Proof.
  apply always_get_bind. intros f Hf. destruct (negb _); [|done]. revert Hf. apply (always_bind fdb_ok); [|by intros _ f' Hf'].
  apply always_try_catch; [|by apply always_id]. apply always_parent. apply always_bind.
  - intros s Hs. unfold zoom, on_daemon. pose proof (d_reload_spec ("#define AGING_TIME " +:+ to_string value +:+ simplebridge_code)%string (daemon (sb_ports s)) (po_ok _ (co_ports _ _ Hs))) as [Hok Hr].
    rewrite <- string_app_assoc in Hok, Hr. unfold zoom. destruct (d_reload _ _) as [r d]. by apply daemon_kept.
  - intros _ s [Hp Hr He Hc Hcap Ht]. by split.
Qed.

Lemma always_port_index value : always (S := Fdb) fdb_ok (port_index value).
Proof. apply always_id. intros f. rewrite port_index_run. by destruct (_ !! value). Qed.
Lemma port_index_ok value (f f' : Fdb) i : fdb_ok f -> port_index value f = (Ok i, f') -> f' = f /\ has_port (parent_ f) i.
Proof.
  intros Hf. rewrite port_index_run. destruct (ports_by_name_ _ !! value) as [p|] eqn:E; [|done]. intros [= <- <-]. split; [done|].
  pose proof (po_name _ (co_ports _ _ Hf) _ _ E) as En. cbn [name port_type] in En. subst value.
  assert (ports_by_id_ (sb_ports (parent_ f)) !! p_index p = Some p) as Hi by by apply (po_id _ (co_ports _ _ Hf)).
  assert (has_port (parent_ f) (p_index p)) as Hp by by eexists.
  pose proof (co_range _ _ Hf _ Hp). unfold u32. by rewrite Z.mod_small by lia.
Qed.

Lemma getEntry_kept address : always (S := Fdb) fdb_ok (getEntry address).
Proof.
  intros f Hf. rewrite (getEntry_run address f Hf). destruct (mac_string_to_nbo_uint address) as [k|e|]; try done.
  destruct (m_lookup _ k) as [e|] eqn:E; [|done]. destruct (too_old _ _ _); [|done]. apply (cube_ok_fwd []); [done|rewrite capacity_bpf_delete; apply Hf|].
  intros k' e'. rewrite bpf_delete_lookup. case_decide; [done|]. by apply Hf.
Qed.
Lemma getEntryList_kept : always (S := Fdb) fdb_ok getEntryList.
Proof.
  intros f Hf. destruct (getEntryList_run f Hf) as (t & -> & Hc & Ht). apply (cube_ok_fwd []); [done..|].
  intros k e. rewrite Ht, bind_Some. intros (e' & He & E). destruct (too_old _ _ _); [done|]. simplify_eq. by apply Hf.
Qed.
Lemma delEntry_kept address : always (S := Fdb) fdb_ok (delEntry address).
Proof.
  intros f Hf. rewrite (fdb_delEntry_run address f Hf). destruct (mac_string_to_nbo_uint address) as [k|e|]; try done.
  destruct (m_lookup _ k) as [e|] eqn:E; [|done]. apply (cube_ok_fwd []); [done|rewrite capacity_bpf_delete; apply Hf|].
  intros k' e'. rewrite bpf_delete_lookup. case_decide; [done|]. by apply Hf.
Qed.
Lemma delEntryList_kept : always (S := Fdb) fdb_ok delEntryList.
Proof. intros f Hf. destruct (fdb_delEntryList_run f Hf) as (t & -> & Hc & He). by apply cleared_kept. Qed.

Lemma write_kept address value ts (f : Fdb) :
  fdb_ok f -> 0 <= ts <= sb_clock (parent_ f) ->
  fdb_ok (bind (port_index value) (fun i => bind (lift (mac_string_to_nbo_uint address)) (fun key =>
    on_parent (on_fwd (fun t => table_set t key (FwdEntry ts i))))) f).2.
Proof.
  intros Hf Hts. unfold bind. destruct (port_index value f) as [[i|e|] f'] eqn:E.
  - apply port_index_ok in E as [-> Hp]; [|done]. unfold lift. destruct (mac_string_to_nbo_uint address) as [k|e|] eqn:Ek; try done.
    unfold on_parent, zoom. destruct (on_fwd _ (parent_ f)) as [r s] eqn:Es.
    pose proof (set_kept [] k (FwdEntry ts i) (parent_ f) Hf) as Hk. rewrite Es in Hk. apply Hk.
    split; [by eapply mac_string_to_nbo_uint_bounds|]. split; [done|by left].
  - pose proof (always_port_index value f Hf) as Hk. by rewrite E in Hk.
  - pose proof (always_port_index value f Hf) as Hk. by rewrite E in Hk.
Qed.
Lemma addEntry_kept address conf : always (S := Fdb) fdb_ok (addEntry address conf).
Proof.
  intros f Hf. unfold addEntry. destruct (j_port conf) as [p|]; [|done]. pose proof (co_clock _ _ Hf) as [_ Hc].
  pose proof (write_kept address p (now (parent_ f)) f Hf) as Hk. unfold now, u32 in *. rewrite Z.mod_small in Hk by (pose proof (co_clock _ _ Hf); lia).
  unfold bind, get in *. rewrite port_index_run in Hk |- *. destruct (_ !! p) as [q|]; [|done]. rewrite Z.mod_small by (pose proof (co_clock _ _ Hf); lia).
  apply Hk. pose proof (co_clock _ _ Hf). lia.
Qed.
Lemma addEntryList_kept conf : always (S := Fdb) fdb_ok (addEntryList conf).
Proof. apply always_for_each. intros i _. apply addEntry_kept. Qed.
Lemma setPort_kept e value : always (S := Fdb) fdb_ok (setPort e value).
Proof. intros f Hf. apply (write_kept (address_ e) value 0 f Hf). pose proof (co_clock _ _ Hf). lia. Qed.
Lemma update_entry_kept e conf : always (S := Fdb) fdb_ok (update_entry e conf).
Proof. unfold update_entry. destruct (j_port conf); [apply setPort_kept|by apply always_id]. Qed.
Lemma update_kept conf : always (S := Fdb) fdb_ok (update simplebridge_code conf).
Proof.
  apply always_bind; [destruct (j_agingTime conf); [apply setAgingTime_kept|by apply always_id]|]. intros _.
  destruct (j_entry conf); [|by apply always_id]. apply always_for_each. intros i _.
  apply always_bind; [apply getEntry_kept|]. intros m. apply update_entry_kept.
Qed.
Lemma new_Fdb_kept conf : always (S := Fdb) fdb_ok (new_Fdb simplebridge_code conf).
Proof.
  apply always_bind; [destruct (j_agingTime conf); [apply setAgingTime_kept|by apply always_id]|]. intros _.
  destruct (j_entry conf); [apply addEntryList_kept|by apply always_id].
Qed.

(** ** Ports that come and go *)
Lemma add_port_kept name conf (s : Simplebridge) :
  cube_ok [] s -> (forall n d, exists d', d_set_conf conf n d = (Ok tt, d')) ->
  cube_ok [] (zoom sb_ports set_ports (add_port name conf (fun i => Ok (MkPort name i))) s).2.
Proof.
  intros [Hp Hr He Hc Hcap Ht] Hconf. unfold zoom.
  pose proof (add_port_run name conf (fun i => Ok (MkPort name i)) (sb_ports s) Hp ltac:(eauto) Hconf) as Ha.
  destruct (add_port _ _ _ _) as [[p|e|] ps]; cbn [snd].
  - destruct Ha as (Hok & Hnew & Hrange & Hpn & Hins & _). split; try done.
    + intros i [q Hq]. apply (po_id _ Hok) in Hq as [Hq <-]. change (sb_ports (set_ports ps s)) with ps in *. rewrite Hins, lookup_insert_Some in Hq.
      destruct Hq as [[_ <-]|[_ Hq]]; [done|]. apply Hr. exists q. by apply (po_id _ Hp).
    + intros k e (Hk & Hts & Hport)%He. split; [done|]. split; [done|]. left. destruct Hport as [[q Hq]|Hq]; [|by apply elem_of_nil in Hq].
      apply (po_id _ Hp) in Hq as [Hq Ei]. exists q. apply (po_id _ Hok). split; [|done]. change (sb_ports (set_ports ps s)) with ps. rewrite Hins.
      rewrite lookup_insert_ne; [done|]. intros E. rewrite <- E in Hq. congruence.
  - destruct Ha as (Hok & _ & Ei). split; try done; unfold has_port in *; simpl; rewrite ?Ei; [done|].
    intros k en Hl. unfold entry_ok, has_port in *. simpl. rewrite Ei. by apply He.
  - destruct Ha as (Hok & _ & Ei). split; try done; unfold has_port in *; simpl; rewrite ?Ei; [done|].
    intros k en Hl. unfold entry_ok, has_port in *. simpl. rewrite Ei. by apply He.
Qed.

(** A removed port is dead until its object is destroyed. *)
Lemma remove_port_run' dead name (s : Simplebridge) :
  cube_ok dead s ->
  match ports_by_name_ (sb_ports s) !! name with
  | None => zoom sb_ports set_ports (remove_port name) s = (Throw (RuntimeError ("Port " +:+ name +:+ " does not exist")), s)
  | Some port => exists ps, zoom sb_ports set_ports (remove_port name) s = (Ok tt, set_ports ps s) /\
      ports_by_name_ ps = delete name (ports_by_name_ (sb_ports s)) /\ cube_ok (p_index port :: dead) (set_ports ps s)
  end.
Proof.
  intros [Hp Hr He Hc Hcap Ht]. pose proof (remove_port_run name (sb_ports s) Hp) as Hrm.
  destruct (ports_by_name_ (sb_ports s) !! name) as [port|] eqn:E; [|unfold zoom; rewrite Hrm; by destruct s].
  destruct Hrm as (d & Hrm & Hok). unfold zoom. rewrite Hrm. eexists. split; [done|]. split; [done|]. split; try done.
  - intros i Hi. apply Hr. destruct Hi as [q Hq]. simpl in Hq. apply lookup_delete_Some in Hq as [_ Hq]. by exists q.
  - intros k e (Hk & Hts & Hport)%He. split; [done|]. split; [done|]. rewrite elem_of_cons. destruct Hport as [[q Hq]|Hd]; [|by right; right].
    destruct (decide (fe_port e = p_index port)) as [->|Hne]; [by right; left|]. left. exists q. simpl. apply lookup_delete_Some. split; [|done].
    by apply not_eq_sym.
Qed.
Lemma destructor_kept port dead (s : Simplebridge) :
  0 <= p_index port < 2 ^ 16 -> cube_ok (p_index port :: dead) s -> cube_ok dead (Ports_destructor port s).2.
Proof.
  intros Hp Hs. destruct (Ports_destructor_run port s) as (t & -> & Hc & Hl). apply (cube_ok_fwd (p_index port :: dead)); [done|rewrite Hc; apply Hs|].
  intros k e. rewrite Hl, bind_Some. intros (e' & He & E). unfold u32 in E. rewrite Z.mod_small in E by lia.
  destruct (Z.eqb_spec (fe_port e') (p_index port)); [done|]. simplify_eq. pose proof (co_entry _ _ Hs k e He) as (Hk & Hts & Hport).
  split; [done|]. split; [done|]. rewrite elem_of_cons in Hport. tauto.
Qed.
Lemma delPorts_kept name (s : bridge) : bridge_ok s -> bridge_ok (delPorts name s).2.
Proof.
  intros Hs. unfold delPorts, bind, get, on_cube, zoom at 1. pose proof (remove_port_run' [] name (cube s) Hs) as Hr.
  pose proof (co_range _ _ Hs) as Hrange. pose proof (co_ports _ _ Hs) as Hports.
  destruct (ports_by_name_ (sb_ports (cube s)) !! name) as [port|] eqn:E; [|by rewrite Hr].
  destruct Hr as (ps & -> & _ & Hk). unfold zoom. pose proof (destructor_kept port [] (set_ports ps (cube s))) as Hd.
  cbn [cube set_cube]. destruct (Ports_destructor port (set_ports ps (cube s))) as [r c]. apply Hd; [|done].
  apply Hrange. exists port. pose proof (po_name _ Hports _ _ E) as <-. by apply (po_id _ Hports).
Qed.

Lemma cube_ok_mono dead dead' (s : Simplebridge) : dead ⊆ dead' -> cube_ok dead s -> cube_ok dead' s.
Proof.
  intros Hd [Hp Hr He Hc Hcap Ht]. split; try done. intros k e (Hk & Hts & Hport)%He. split; [done|]. split; [done|].
  destruct Hport as [?|?]; [by left|right; by apply Hd].
Qed.
Lemma remove_ports_run l : forall dead (s : bridge),
  NoDup (p_name <$> l) -> (forall p, p ∈ l -> ports_by_name_ (sb_ports (cube s)) !! p_name p = Some p) -> cube_ok dead (cube s) ->
  exists c, for_each l (fun i => on_cube (zoom sb_ports set_ports (remove_port (name i)))) s = (Ok tt, set_cube c s) /\
    cube_ok ((p_index <$> l) ++ dead) c /\ forall n, n ∈ p_name <$> l \/ ports_by_name_ (sb_ports (cube s)) !! n = None ->
      ports_by_name_ (sb_ports c) !! n = None.
Proof.
  induction l as [|p l IH]; intros dead s Hd Hl Hs; cbn [for_each].
  { exists (cube s). split; [by destruct s|]. split; [done|]. intros n [Hn|Hn]; [by apply elem_of_nil in Hn|done]. }
  csimpl in *. apply list.NoDup_cons in Hd as [Hp Hd]. unfold bind, on_cube at 1, zoom at 1.
  pose proof (remove_port_run' dead (p_name p) (cube s) Hs) as Hr. rewrite (Hl p) in Hr by by left.
  destruct Hr as (ps & -> & Hps & Hk). destruct (IH (p_index p :: dead) (set_cube (set_ports ps (cube s)) s)) as (c & -> & Hc & Hn); [done| |done|].
  - intros q Hq. simpl. rewrite Hps, lookup_delete_ne; [apply Hl; by right|]. intros E. apply Hp. rewrite E. by apply list_elem_of_fmap_2.
  - exists c. split; [done|]. split.
    + revert Hc. apply cube_ok_mono. set_solver.
    + intros n Hin. apply Hn. simpl. rewrite Hps. destruct Hin as [[->|Hin]%elem_of_cons|Hin].
      * right. apply lookup_delete_eq.
      * by left.
      * right. apply lookup_delete_None. by right.
Qed.
Lemma destructors_kept l : forall (s : Simplebridge),
  Forall (fun p => 0 <= p_index p < 2 ^ 16) l -> cube_ok (p_index <$> l) s -> cube_ok [] (for_each l Ports_destructor s).2.
Proof.
  induction l as [|p l IH]; intros s Hf Hs; [done|]. apply list.Forall_cons in Hf as [Hp Hf]. csimpl in *.
  pose proof (destructor_kept p (p_index <$> l) s Hp Hs) as Hk. destruct (Ports_destructor_run p s) as (t & E & _). unfold bind. rewrite E in *.
  by apply IH.
Qed.
Lemma delPortsList_kept (s : bridge) : bridge_ok s -> bridge_ok (delPortsList s).2.
Proof.
  intros Hs. pose proof (co_ports _ _ Hs) as Hports. unfold delPortsList.
  set (l := get_ports (sb_ports (cube s))).
  assert (forall p, p ∈ l -> ports_by_name_ (sb_ports (cube s)) !! p_name p = Some p) as Hl by by (intros p ?%(elem_of_get_ports _ _ Hports)).
  destruct (remove_ports_run l [] s) as (c & E & Hc & Hn); [|done|done|].
  - exact (NoDup_get_ports (sb_ports (cube s)) Hports).
  - rewrite E. cbn [snd cube set_cube on_cube zoom]. unfold on_cube, zoom. cbn [cube set_cube].
    pose proof (destructors_kept (filter (fun i => ports_by_name_ (sb_ports c) !! name i = None) l) c) as Hk.
    destruct (for_each _ _ c) as [r c']. apply Hk.
    + apply list.Forall_forall. intros p [_ Hp]%list_elem_of_filter. apply (co_range _ _ Hs). exists p. apply (po_id _ Hports). split; [by apply Hl|done].
    + revert Hc. apply cube_ok_mono. intros x. rewrite app_nil_r, !list_elem_of_fmap. intros (p & -> & Hp). exists p. split; [done|].
      apply list_elem_of_filter. split; [|done]. apply Hn. left. by apply list_elem_of_fmap_2.
Qed.
End invariant.
