(* ===== verification/SbRun.v ===== *)
(** pcn-simplebridge, the life of a bridge: requests, packets in the program, packets
    handed to the control plane, and time, in any order, from the constructor on; and
    a concrete bridge of three ports. *)
From Stdlib Require Import ZArith Lia Ascii String.
From stdpp Require Import base gmap sets list strings numbers.
From S2P Require Import Prelude.
From S2P Require Import Vec.
From S2P Require Import Bpf.
From S2P Require Import NetUtils.
From S2P Require Import Frame.
From S2P Require Import Tables.
From S2P Require Import CubePorts.
From S2P Require Import DaemonPorts.
From S2P Require Import SbDatapath.
From S2P Require Import SbFdb.
From S2P Require Import SbInvariant.
#[local] Open Scope Z_scope.
#[local] Open Scope cpp_scope.

Section run.
Context `{FwdMap} {D : Type} `{DaemonCube D} {PDU : Type} (EthernetII : list Z -> res PDU) (simplebridge_code : string).
#[local] Abbreviation Simplebridge := (Simplebridge (D := D) (PDU := PDU)).
#[local] Abbreviation bridge := (bridge (D := D) (PDU := PDU)).

Inductive sb_event :=
  | Request (op : sb_op)
  | PacketAt (frame : list Z) (in_port : Z)
  | PacketIn (port_id reason : Z) (packet : list Z)
  | TimePasses (seconds : Z)
  | Timer.

Definition run_event (ev : sb_event) (s : bridge) : bridge :=
  match ev with
  | Request op => (run_op simplebridge_code op s).2
  | PacketAt frame i => set_cube (set_tables (handle_rx frame i (sb_tables (cube s))).2 (cube s)) s
  | PacketIn i reason packet => (on_cube (handle_packet_in EthernetII i reason packet) s).2
  | TimePasses t => set_cube (set_clock t (cube s)) s
  | Timer => (on_cube updateTimestamp s).2
  end.

(** The configurations of new ports that a request carries. *)
Definition confs_of (op : sb_op) : list d_conf :=
  match op with
  | AddPort _ conf | ReplacePort _ _ conf => [conf]
  | AddPorts l => l.*2
  | _ => []
  end.
Definition accepted (conf : d_conf) : Prop := forall n d, exists d', d_set_conf conf n d = (Ok tt, d').
(** A port's configuration is accepted, a packet comes from a port of the cube, and
    the clock goes forward and its seconds fit a u32. *)
Definition allowed (ev : sb_event) (s : bridge) : Prop :=
  match ev with
  | Request op => Forall accepted (confs_of op)
  | PacketAt frame i => Forall is_byte frame /\ has_port (cube s) i
  | PacketIn _ _ _ | Timer => True
  | TimePasses t => sb_clock (cube s) <= t < 2 ^ 32
  end.

Inductive reachable : bridge -> Prop :=
  | reach_new d clock ports fdb s :
      d_ok d -> d_ports d = ∅ -> 0 <= clock < 2 ^ 32 -> Forall accepted ports.*2 ->
      new_bridge simplebridge_code d clock ports fdb = (Ok tt, s) -> reachable s
  | reach_step ev s : reachable s -> allowed ev s -> reachable (run_event ev s).

(** * The invariant *)
Lemma always_cube {A} (m : M Simplebridge A) : always (cube_ok []) m -> always bridge_ok (on_cube m).
Proof. by apply always_zoom. Qed.
Lemma always_fdb {A} (m : M _ A) : always (fdb_ok (D := D) (PDU := PDU)) m -> always bridge_ok (on_fdb m).
Proof.
  intros Hm s Hs. unfold on_fdb. specialize (Hm (MkFdb (default 0 (fdb_ s)) (cube s)) Hs). by destruct (m _) as [r f].
Qed.
Lemma always_drop {S A} (P : S -> Prop) (m : M S A) : always P m -> always P (drop m).
Proof. intros Hm. apply always_bind; [done|]. intros _. by apply always_id. Qed.

Lemma addPorts_kept name conf : accepted conf -> always (S := bridge) bridge_ok (addPorts name conf).
Proof. intros Hconf. apply always_drop, always_cube. intros s Hs. by apply add_port_kept. Qed.
Lemma addPortsList_kept l : Forall accepted l.*2 -> always (S := bridge) bridge_ok (addPortsList l).
Proof.
  intros Hl. apply always_for_each. intros [n c] Hx. apply addPorts_kept.
  apply (proj1 (list.Forall_forall _ _) Hl). by apply (list_elem_of_fmap_2 snd).
Qed.
Lemma addFdb_kept conf : always (S := bridge) bridge_ok (addFdb simplebridge_code conf).
Proof.
  intros s Hs. unfold addFdb. pose proof (new_Fdb_kept simplebridge_code conf (MkFdb 300 (cube s)) Hs) as Hk.
  by destruct (new_Fdb _ _ _) as [r f].
Qed.
Lemma delFdb_kept : always (S := bridge) bridge_ok (delFdb simplebridge_code).
Proof.
  apply always_get_bind. intros s Hs. destruct (fdb_ s); [|done]. revert s Hs. change (always bridge_ok (on_fdb (delEntryList (D := D) (PDU := PDU) ;;; setAgingTime simplebridge_code 300))).
  apply always_fdb, always_bind; [apply delEntryList_kept|]. intros _. apply setAgingTime_kept.
Qed.
Lemma flush_kept : always (fdb_ok (D := D) (PDU := PDU)) flush.
Proof. apply always_try_catch; [|by apply always_id]. apply always_bind; [apply delEntryList_kept|]. intros _. by apply always_id. Qed.

Lemma bridge_op_kept op : Forall accepted (confs_of op) -> always (S := bridge) bridge_ok (run_op simplebridge_code op).
Proof.
  intros Hc. destruct op; simpl in *;
    try (apply always_fdb; first [apply addEntry_kept|apply addEntryList_kept|apply delEntry_kept|apply delEntryList_kept|apply setAgingTime_kept|apply update_kept]).
  - apply addPorts_kept. by eapply list.Forall_singleton.
  - by apply addPortsList_kept.
  - intros s. apply delPorts_kept.
  - intros s. apply delPortsList_kept.
  - apply always_bind; [intros s; apply delPorts_kept|]. intros _. apply addPorts_kept. by eapply list.Forall_singleton.
  - apply always_drop, always_fdb, getEntry_kept.
  - apply always_drop, always_fdb, getEntryList_kept.
  - apply always_fdb, always_bind; [apply delEntry_kept|]. intros _. apply addEntry_kept.
  - apply always_fdb, always_bind; [apply getEntry_kept|]. intros m. apply update_entry_kept.
  - apply always_drop, always_fdb, flush_kept.
  - apply addFdb_kept.
  - apply always_bind; [apply delFdb_kept|]. intros _. apply addFdb_kept.
  - apply delFdb_kept.
Qed.

(** What packets that the control plane sends leave alone. *)
Lemma set_sent_kept l (s : Simplebridge) : cube_ok [] s -> cube_ok [] (set_sent l s).
Proof. intros [Hp Hr He Hc Hcap Ht]. by split. Qed.
Lemma packet_in_kept p reason packet : always (S := Simplebridge) (cube_ok []) (packet_in EthernetII p reason packet).
Proof.
  apply always_try_catch; [|by apply always_id]. destruct (reason =? REASON_FLOODING); [|by apply always_id].
  apply always_lift_bind. intros q _. apply always_get_bind. intros s Hs. revert Hs. apply (always_for_each (cube_ok [])).
  intros it _. destruct (String.eqb _ _); [by apply always_id|]. intros s' Hs'. by apply set_sent_kept.
Qed.

Lemma run_event_kept ev (s : bridge) : allowed ev s -> bridge_ok s -> bridge_ok (run_event ev s).
Proof.
  destruct ev as [op|frame i|i reason packet|t|]; simpl; intros Ha Hs.
  - by apply bridge_op_kept.
  - destruct Ha as [Hb Hi]. destruct (handle_rx frame i (sb_tables (cube s))) as [a d] eqn:E.
    pose proof (handle_rx_rest _ _ _ _ _ E) as [Et Ed]. pose proof (handle_rx_capacity _ _ _ _ _ E) as Ec.
    pose proof Hs as [Hp Hr He Hc Hcap Ht]. split; cbn [cube set_cube snd] in *.
    + done.
    + done.
    + intros k e Hl. apply (handle_rx_origin _ _ _ _ _ _ _ E) in Hl as [Hl|[-> ->]]; [by apply He|].
      split; [by apply rd48_range|]. split; [simpl; lia|by left].
    + simpl. rewrite Et. done.
    + unfold fwd. simpl. rewrite Ec. done.
    + unfold FDB_TIMEOUT in *. simpl. by rewrite Ed.
  - revert s Hs Ha. intros s Hs _. revert s Hs. apply always_cube. apply always_get_bind. intros c Hc.
    destruct (_ !! i); [|done]. by apply packet_in_kept.
  - destruct Hs as [Hp Hr He Hc Hcap Ht]. split; cbn [cube set_cube] in *; try done.
    + intros k e (Hk & Hts & Hport)%He. split; [done|]. split; [simpl; lia|done].
    + simpl. lia.
  - destruct Hs as [Hp Hr He Hc Hcap Ht]. split; cbn [cube set_cube] in *; try done.
    simpl. unfold u32. rewrite Z.mod_small by lia. lia.
Qed.

Lemma empty_bridge_ok (d : D) clock :
  d_ok d -> d_ports d = ∅ -> 0 <= clock < 2 ^ 32 -> bridge_ok (Bridge (Sb (PDU := PDU) (CubePorts ∅ ∅ d) sb_dp0 clock []) None).
Proof.
  intros Hok Hd Hc. split; simpl; try done.
  - split; simpl; [done| |rewrite Hd; symmetry; apply fmap_empty|done]. intros i p. rewrite !lookup_empty. naive_solver.
  - by intros i [p Hp].
  - intros k e Hl%m_lookup_spec. change (fwd _) with (m_new (V := fwd_entry) (T := fwdT) 1024) in Hl. rewrite m_entries_new in Hl. by apply elem_of_nil in Hl.
  - lia.
  - apply capacity_new.
Qed.
Lemma bridge_reachable_ok s : reachable s -> bridge_ok s.
Proof.
  induction 1 as [d clock ports fdb s Hok Hd Hc Hp Hn|ev s Hr IH Ha]; [|by apply run_event_kept].
  unfold new_bridge in Hn. pose proof (always_bind bridge_ok _ (fun _ => addFdb simplebridge_code fdb) (addPortsList_kept ports Hp) (fun _ => addFdb_kept fdb) _ (empty_bridge_ok d clock Hok Hd Hc)) as Hk.
  by rewrite Hn in Hk.
Qed.
End run.

(** A daemon that has no network device named veth9. *)
Definition demo_set_peer (name peer : string) : M unit unit :=
  if String.eqb peer "veth9" then throw (RuntimeError "Interface  veth9 does not exist or is down") else ret tt.
(** No transparent cube is called missing. *)
Definition demo_attach (cube port : string) : M unit unit :=
  if String.eqb cube "missing" then throw (RuntimeError "Transparent cube missing does not exist") else ret tt.
Lemma demo_defined n p e : (demo_set_peer n p e).1 <> Undefined.
Proof. unfold demo_set_peer. by destruct (String.eqb p "veth9"). Qed.
Lemma demo_down n e : exists e', demo_set_peer n "" e = (Ok tt, e').
Proof. by exists e. Qed.
#[export] Instance demo_daemon : DaemonCube (dcube (E := unit)) :=
  daemon_cube demo_set_peer demo_attach (fun _ => ret tt) demo_defined demo_down.

Definition demo_bridge : Type := bridge (D := dcube (E := unit)) (PDU := list Z).
Definition plain : d_conf := PortConf (Some "veth1"%string) [].
Definition demo_ports : list (string * d_conf) := [("p1"%string, plain); ("p2"%string, plain); ("p3"%string, plain)].
Definition no_fdb : FdbJson := FdbJ None None.
Definition b0 : demo_bridge := (new_bridge "program" (new_cube tt) 1000 demo_ports no_fdb).2.
Definition play (evs : list sb_event) (s : demo_bridge) : demo_bridge :=
  fold_left (fun s ev => run_event (PDU := list Z) Ok "program" ev s) evs s.

(** Frames between two addresses, ff:ff:ff:ff:ff:01 and so on. *)
Definition mac (n : Z) : list Z := [255; 255; 255; 255; 255; n].
Definition key (n : Z) : Z := 2 ^ 40 * n + (2 ^ 40 - 1).
Definition frame_of (dst src : Z) : list Z := mac dst ++ mac src ++ [8; 0].

Lemma plain_accepted : accepted plain.
Proof. intros n d. by eexists. Qed.
Lemma b0_reachable : reachable (PDU := list Z) Ok "program" b0.
Proof.
  apply (reach_new _ _ (new_cube tt) 1000 demo_ports no_fdb); [apply new_cube_ids|done|lia| |by vm_compute].
  repeat constructor; apply plain_accepted.
Qed.
Example b0_eth : eth_dst (frame_of 1 2) = key 1 /\ eth_src (frame_of 1 2) = key 2 /\ nbo_uint_to_mac_string (key 7) = "ff:ff:ff:ff:ff:07"%string.
Proof. by vm_compute. Qed.

(** What [allowed] asks for, decided. *)
Definition allowedb (ev : sb_event) (s : demo_bridge) : bool :=
  match ev with
  | Request op => match confs_of op with [] => true | _ => false end
  | PacketAt frame i => forallb (fun b => (0 <=? b) && (b <? 256)) frame && match ports_by_id_ (sb_ports (SbFdb.cube s)) !! i with Some _ => true | None => false end
  | PacketIn _ _ _ | Timer => true
  | TimePasses t => (sb_clock (SbFdb.cube s) <=? t) && (t <? 2 ^ 32)
  end.
Lemma allowedb_allowed ev s : allowedb ev s = true -> allowed ev s.
Proof.
  destruct ev as [op|frame i| |t|]; simpl; try done.
  - by destruct (confs_of op).
  - intros [Hf Hp]%andb_prop. split; [|unfold has_port; by destruct (_ !! i)].
    apply list.Forall_forall. intros b Hb%list_elem_of_In. rewrite forallb_forall in Hf. specialize (Hf b Hb). unfold is_byte. lia.
  - lia.
Qed.
Fixpoint all_allowed (evs : list sb_event) (s : demo_bridge) : bool :=
  match evs with
  | [] => true
  | ev :: evs => allowedb ev s && all_allowed evs (run_event (PDU := list Z) Ok "program" ev s)
  end.
Lemma play_reachable evs : forall s,
  reachable (PDU := list Z) Ok "program" s -> all_allowed evs s = true -> reachable (PDU := list Z) Ok "program" (play evs s).
Proof.
  induction evs as [|ev evs IH]; intros s Hs; simpl; [done|]. intros [Ha Hr]%andb_prop. apply IH; [|done].
  apply reach_step; [done|]. by apply allowedb_allowed.
Qed.

(** b1: the clock ticked, and addresses 1, 2 were seen on ports p1, p2. *)
Definition b1 : demo_bridge := play [Timer; PacketAt (frame_of 2 1) 0; PacketAt (frame_of 1 2) 1] b0.
Lemma b1_reachable : reachable (PDU := list Z) Ok "program" b1.
Proof. apply play_reachable; [apply b0_reachable|by vm_compute]. Qed.
