(* ===== verification/SbTheorems.v ===== *)
(** pcn-simplebridge, the properties: where packets go, what leaves with a port, what
    the filtering database shows and forgets; and behaviours that the sources do not
    announce, on the concrete bridge of SbRun. *)
From Stdlib Require Import ZArith Lia Ascii String.
From stdpp Require Import base gmap sets list strings numbers.
From S2P Require Import Prelude.
From S2P Require Import Bpf.
From S2P Require Import NetUtils.
From S2P Require Import Frame.
From S2P Require Import Tables.
From S2P Require Import CubePorts.
From S2P Require Import DaemonPorts.
From S2P Require Import SbDatapath.
From S2P Require Import SbFdb.
From S2P Require Import SbInvariant.
From S2P Require Import SbRun.
#[local] Open Scope Z_scope.
#[local] Open Scope cpp_scope.

(** ** Helpers *)
Section helpers.
Context `{FwdMap} {D : Type} `{DaemonCube D} {PDU : Type}.
Lemma flood_loop (q : PDU) port l : forall s : Simplebridge (D := D) (PDU := PDU),
  for_each l (fun it => if String.eqb (name it) (name port) then ret tt
                        else modify (fun s => set_sent (sb_sent s ++ [(index it, q)]) s)) s
  = (Ok tt, set_sent (sb_sent s ++ ((fun it => (p_index it, q)) <$> filter (fun it => p_name it <> p_name port) l)) s).
Proof.
  induction l as [|it l IH]; intros s; cbn [for_each]; [simpl; rewrite app_nil_r; by destruct s|].
  unfold bind. cbn [name port_type]. rewrite filter_cons. destruct (String.eqb_spec (p_name it) (p_name port)) as [E|E].
  - rewrite decide_False by tauto. apply IH.
  - rewrite decide_True by done. unfold modify at 1. rewrite IH. unfold set_sent. simpl. by rewrite <- app_assoc.
Qed.
(** The database's methods on a bridge that has one. *)
Lemma on_fdb_run {A} (m : M (Fdb (D := D) (PDU := PDU)) A) (s : bridge) r aging c :
  m (MkFdb (default 0 (fdb_ s)) (cube s)) = (r, MkFdb aging c) -> default 0 (fdb_ s) = aging -> on_fdb m s = (r, set_cube c s).
Proof. intros Hm Ha. unfold on_fdb. rewrite Hm. unfold set_cube. simpl. destruct s as [c' [a|]]; simpl in *; by subst. Qed.
End helpers.

Section theorems.
Context `{FwdMap} {D : Type} `{DaemonCube D} {PDU : Type} (EthernetII : list Z -> res PDU) (simplebridge_code : string).
#[local] Abbreviation bridge := (bridge (D := D) (PDU := PDU)).
#[local] Abbreviation reachable := (reachable EthernetII simplebridge_code).
#[local] Abbreviation run_event := (run_event EthernetII simplebridge_code).

(** C16. Over every sequence of packets and clock ticks in which the clock goes forward
    and at most 1024 addresses are seen (the room of the table), the bridge's program
    takes, for each packet, the decision of the abstract learning switch that remembers
    the whole history: to the port where the destination was last seen as a source, if
    that was within 300 seconds; dropped when that is the port it came from; flooded
    when it was not seen for so long. Packets without an Ethernet header are dropped. *)
Theorem packets_go_where_last_seen es :
  ordered 0 es -> (size (sources es) <= 1024)%nat -> run dp_step es sb_dp0 = run switch_step es (Switch 0 []).
Proof.
  intros Ho Hs. apply run_knows; [apply knows_new|done|]. etrans; [|exact Hs]. apply subseteq_size. unfold macs. simpl. set_solver.
Qed.

(** C17. In every state that requests whose port configurations the daemon accepts,
    packets from the bridge's ports and time can bring a bridge to, a packet is
    redirected only to a port that the bridge has, and never to the one that it came
    from. For a refused configuration see [refused_port_stays]. *)
Theorem redirect_is_elsewhere (s : bridge) frame i p :
  reachable s -> (handle_rx frame i (sb_tables (cube s))).1 = B_REDIRECT p -> p <> i /\ has_port (cube s) p.
Proof.
  intros Hs%bridge_reachable_ok. unfold handle_rx. destruct (beyond frame 14); [done|].
  destruct (m_lookup _ (eth_dst frame)) as [e|] eqn:E; [|done]. destruct (_ <? _); [done|].
  destruct (Z.eqb_spec (fe_port e) i) as [|Hne]; [done|]. intros [= <-]. split; [done|].
  apply learn_origin in E as [E|[_ ->]]; [|done]. destruct (co_entry _ _ Hs _ _ E) as (_ & _ & [Hp|Hp]); [done|by apply elem_of_nil in Hp].
Qed.

(** A packet that is to be flooded goes out once on every port of the bridge but
    the one that it came from, in every state. *)
Theorem flooding_reaches_the_others (s : bridge) p packet q :
  reachable s -> ports_by_id_ (sb_ports (cube s)) !! p_index p = Some p -> EthernetII packet = Ok q ->
  exists l, cube (run_event (PacketIn (p_index p) REASON_FLOODING packet) s) =
      set_sent (sb_sent (cube s) ++ ((fun it => (p_index it, q)) <$> l)) (cube s) /\
    NoDup l /\ forall it, it ∈ l <-> ports_by_name_ (sb_ports (cube s)) !! p_name it = Some it /\ it <> p.
Proof.
  intros Hs%bridge_reachable_ok Hp Hq. pose proof (co_ports _ _ Hs) as Hports.
  exists (filter (fun it => p_name it <> p_name p) (get_ports (sb_ports (cube s)))). split; [|split].
  - unfold run_event, on_cube, zoom, handle_packet_in, bind, get. rewrite Hp. unfold packet_in, try_catch, flood_packet, bind, lift, get.
    rewrite Z.eqb_refl, Hq, flood_loop. done.
  - apply list.NoDup_filter, (NoDup_fmap_1 p_name). exact (NoDup_get_ports _ Hports).
  - intros it. rewrite list_elem_of_filter, (elem_of_get_ports _ _ Hports). apply (po_id _ Hports) in Hp as [Hp _]. cbn [name port_type] in *.
    split; [intros [H1 H2]; split; [done|by intros ->]|]. intros [H1 H2]. split; [|done]. intros E. rewrite E in H1. congruence.
Qed.

(** C18. When a port is removed, exactly the addresses behind it leave the table. *)
Theorem port_leaves_with_its_entries (s : bridge) p :
  reachable s -> ports_by_name_ (sb_ports (cube s)) !! p_name p = Some p ->
  exists s', run_op simplebridge_code (DelPort (p_name p)) s = (Ok tt, s') /\
    ports_by_name_ (sb_ports (cube s')) = delete (p_name p) (ports_by_name_ (sb_ports (cube s))) /\
    forall k, m_lookup (fwd (cube s')) k =
      (e ← m_lookup (fwd (cube s)) k; if decide (fe_port e = p_index p) then None else Some e).
Proof.
  intros Hs%bridge_reachable_ok Hp. pose proof (co_ports _ _ Hs) as Hports. cbn [run_op]. unfold delPorts, bind, get, on_cube, zoom at 1.
  pose proof (remove_port_run' [] (p_name p) (cube s) Hs) as Hr. rewrite Hp in Hr |- *. destruct Hr as (ps & -> & Hps & _).
  destruct (Ports_destructor_run p (set_ports ps (cube s))) as (t & Ed & _ & Ht). unfold zoom. cbn [cube set_cube]. rewrite Ed.
  eexists. split; [done|]. split; [done|]. intros k. etrans; [apply Ht|]. change (fwd (set_ports ps (cube s))) with (fwd (cube s)).
  destruct (m_lookup (fwd (cube s)) k) as [e|]; [|done]. simpl. assert (0 <= p_index p < 2 ^ 16) as Hrange.
  { apply (co_range _ _ Hs). exists p. by apply (po_id _ Hports). }
  unfold u32. rewrite Z.mod_small by lia. case_decide as E; destruct (Z.eqb_spec (fe_port e) (p_index p)); done.
Qed.

(** A new port starts with no address behind it, even when its identifier is
    that of a port that left, and the table does not change. *)
Theorem new_port_starts_empty (s s' : bridge) name conf :
  reachable s -> accepted conf -> run_op simplebridge_code (AddPort name conf) s = (Ok tt, s') ->
  exists p, ports_by_name_ (sb_ports (cube s')) = <[name := p]> (ports_by_name_ (sb_ports (cube s))) /\ p_name p = name /\
    (forall q, ports_by_name_ (sb_ports (cube s)) !! p_name q = Some q -> p_index q <> p_index p) /\
    fwd (cube s') = fwd (cube s) /\ forall k e, m_lookup (fwd (cube s')) k = Some e -> fe_port e <> p_index p.
Proof.
  intros Hs%bridge_reachable_ok Hc. pose proof (co_ports _ _ Hs) as Hports. cbn [run_op]. unfold addPorts, bind, on_cube, zoom.
  pose proof (add_port_run name conf (fun i => Ok (MkPort name i)) (sb_ports (cube s)) Hports ltac:(eauto) Hc) as Ha.
  destruct (add_port _ _ _ _) as [[p|e|] ps]; [|done|done]. intros [= <-]. destruct Ha as (_ & _ & _ & Hn & Hm & Hd). exists p.
  split; [done|]. split; [done|]. split; [done|]. split; [done|]. intros k e Hl.
  destruct (co_entry _ _ Hs k e Hl) as (_ & _ & [[q Hq]|Hq]); [|by apply elem_of_nil in Hq].
  apply (po_id _ Hports) in Hq as [Hq <-]. by apply Hd.
Qed.

(** Reading the filtering database shows every address that was seen within the
    aging time, with its age and the name of its port; the others are removed, and
    that is all that the request changes. *)
Theorem database_shows_fresh (s : bridge) aging :
  reachable s -> fdb_ s = Some aging ->
  exists t, on_fdb getEntryList s =
      (Ok (omap (fun p => if aging <? age (cube s) p.2 then None
                          else Some (shown_as (nbo_uint_to_mac_string p.1) (cube s) p.2)) (m_entries (fwd (cube s)))),
       set_cube (set_fwd t (cube s)) s) /\
    forall k, m_lookup t k = (e ← m_lookup (fwd (cube s)) k; if aging <? age (cube s) e then None else Some e).
Proof.
  intros Hs%bridge_reachable_ok Ha. destruct (getEntryList_run (MkFdb (default 0 (fdb_ s)) (cube s)) Hs) as (t & E & _ & Ht). exists t.
  rewrite (on_fdb_run _ _ _ aging (set_fwd t (cube s)) ltac:(rewrite E, Ha; done)) by by rewrite Ha. rewrite Ha in *. done.
Qed.

(** An address that a user adds is shown, with its age, until the aging time has
    passed, and not after. *)
Theorem entry_lives_until_aging (s : bridge) aging address k p :
  reachable s -> fdb_ s = Some aging -> mac_string_to_nbo_uint address = Ok k ->
  ports_by_name_ (sb_ports (cube s)) !! p_name p = Some p ->
  0 < m_free (fwd (cube s)) \/ is_Some (m_lookup (fwd (cube s)) k) ->
  exists s1, on_fdb (addEntry address (FdbEntryJ address (Some (p_name p)))) s = (Ok tt, s1) /\
    forall t, sb_clock (cube s) <= t < 2 ^ 32 ->
      (on_fdb (getEntry address) (run_event (TimePasses t) s1)).1 =
      (if t - sb_clock (cube s) <=? aging then Ok (MkFdbEntry address (t - sb_clock (cube s)) (p_index p) (p_name p))
       else Throw (RuntimeError "Map entry not found")).
Proof.
  intros Hs%bridge_reachable_ok Ha Hk Hp Hroom. pose proof (co_ports _ _ Hs) as Hports. pose proof (co_clock _ _ Hs) as Hclock.
  assert (ports_by_id_ (sb_ports (cube s)) !! p_index p = Some p) as Hid by by apply (po_id _ Hports).
  assert (0 <= p_index p < 2 ^ 16) as Hrange by (apply (co_range _ _ Hs); by exists p).
  set (e := FwdEntry (sb_clock (cube s)) (p_index p)).
  assert (exists t, table_set (fwd (cube s)) k e = Ok t /\ m_lookup t k = Some e) as (t & Et & Hl).
  { unfold table_set. pose proof (m_update_spec (fwd (cube s)) k e) as Hu. destruct (m_update (fwd (cube s)) k e) as [t|].
    - exists t. split; [done|]. destruct Hu as (_ & _ & ->). by rewrite decide_True.
    - destruct Hu as [E Hf]. rewrite E in Hroom. destruct Hroom as [|[? ?]]; [lia|done]. }
  assert (on_fdb (addEntry address (FdbEntryJ address (Some (p_name p)))) s = (Ok tt, set_cube (set_fwd t (cube s)) s)) as Eadd.
  { apply (on_fdb_run _ _ _ aging); [|by rewrite Ha]. unfold addEntry, bind, get, lift. cbn [j_port]. rewrite port_index_run. cbn [parent_]. rewrite Hp, Hk.
    unfold on_parent, zoom, on_fwd. cbn [parent_]. unfold now, u32. rewrite !Z.mod_small by lia. fold e. rewrite Et. by rewrite Ha. }
  exists (set_cube (set_fwd t (cube s)) s). split; [done|]. intros t' Ht'.
  set (s2 := run_event (TimePasses t') _).
  assert (bridge_ok s2) as Hs2.
  { apply run_event_kept; [exact Ht'|]. pose proof (always_fdb _ (addEntry_kept address (FdbEntryJ address (Some (p_name p)))) s Hs) as Hkept. by rewrite Eadd in Hkept. }
  unfold on_fdb. pose proof (getEntry_run address (MkFdb (default 0 (fdb_ s2)) (cube s2)) Hs2) as Er. rewrite Hk in Er. cbn [parent_ agingTime_] in Er.
  change (fwd (cube s2)) with t in Er. rewrite Hl in Er. rewrite Er. change (fdb_ s2) with (fdb_ s). rewrite Ha.
  unfold too_old, age. change (sb_clock (cube s2)) with t'. simpl (fe_timestamp e).
  destruct (Z.ltb_spec (default 0 (Some aging)) (t' - sb_clock (cube s))), (Z.leb_spec (t' - sb_clock (cube s)) aging); simpl in *; try lia; [done|].
  unfold shown_as, port_at, age. simpl. by rewrite Hid.
Qed.

(** C19. Deleting an address: it is gone from the table, also when the answer is that
    it was not found because it was too old; an address that the table does not have,
    or that is no address, changes nothing. *)
Theorem deletion_forgets (s : bridge) aging address :
  reachable s -> fdb_ s = Some aging ->
  exists r t, on_fdb (delEntry address) s = (r, set_cube (set_fwd t (cube s)) s) /\
    match mac_string_to_nbo_uint address with
    | Ok k =>
        (forall k', m_lookup t k' = if decide (k = k') then None else m_lookup (fwd (cube s)) k') /\
        (r = Ok tt <-> exists e, m_lookup (fwd (cube s)) k = Some e /\ age (cube s) e <= aging)
    | _ => t = fwd (cube s) /\ r = Throw (RuntimeError "Filtering database entry not found")
    end /\ (r = Ok tt \/ r = Throw (RuntimeError "Filtering database entry not found")).
Proof.
  intros Hs%bridge_reachable_ok Ha. pose proof (fdb_delEntry_run address (MkFdb (default 0 (fdb_ s)) (cube s)) Hs) as Er. cbn [parent_ agingTime_] in Er.
  assert (set_cube (set_fwd (fwd (cube s)) (cube s)) s = s) as Esame by by destruct s as [[? []] ?].
  destruct (mac_string_to_nbo_uint_throws address) as [[k Hk]|Hk]; rewrite Hk in Er |- *.
  - destruct (m_lookup (fwd (cube s)) k) as [e|] eqn:El.
    + eexists _, (bpf_delete (fwd (cube s)) k). split; [apply (on_fdb_run _ _ _ aging); [rewrite Er, Ha; done|by rewrite Ha]|].
      unfold too_old. split; [split; [intros k'; apply bpf_delete_lookup|]|by destruct (_ <? _); [right|left]].
      simpl. destruct (Z.ltb_spec aging (age (cube s) e)); split; try done; [intros (e' & [= <-] & ?); lia|intros _; exists e; split; [done|lia]].
    + eexists _, (fwd (cube s)). split; [apply (on_fdb_run _ _ _ aging); [rewrite Er, Ha; by destruct (cube s) as [? []]|by rewrite Ha]|].
      split; [|by right]. split; [intros k'; by case_decide; subst|]. split; [done|]. by intros (e & ? & _).
  - eexists _, (fwd (cube s)). split; [apply (on_fdb_run _ _ _ aging); [rewrite Er, Ha; by destruct (cube s) as [? []]|by rewrite Ha]|].
    split; [done|by right].
Qed.

(** Flushing always succeeds, leaves the table without entries, and from then on
    every packet to another address is flooded until that address is seen again. *)
Theorem flush_forgets (s : bridge) aging :
  reachable s -> fdb_ s = Some aging ->
  exists t, on_fdb flush s = (Ok true, set_cube (set_fwd t (cube s)) s) /\ m_entries t = [] /\
    forall frame i, beyond frame 14 = false -> eth_dst frame <> eth_src frame ->
      (handle_rx frame i (set_fwdtable t (sb_tables (cube s)))).1 = B_CONTROLLER REASON_FLOODING.
Proof.
  intros Hs%bridge_reachable_ok Ha. destruct (fdb_delEntryList_run (MkFdb (default 0 (fdb_ s)) (cube s)) Hs) as (t & Er & Hc & He). exists t. split; [|split; [done|]].
  - apply (on_fdb_run _ _ _ aging); [|by rewrite Ha]. unfold flush, try_catch, bind. rewrite Er, Ha. done.
  - intros frame i Hb Hne. unfold handle_rx. rewrite Hb. cbn [fwdtable set_fwdtable].
    pose proof (proj1 (m_entries_lookup t) He) as Hl. rewrite learn_lookup.
    + by rewrite decide_False by congruence; rewrite Hl.
    + left. unfold capacity in Hc. rewrite He in Hc. simpl in Hc. lia.
Qed.
End theorems.

(** * Witnesses *)
Definition two_hosts : list dp_event := [Tick 1000; Arrives (frame_of 2 1) 0; Arrives (frame_of 1 2) 1; Tick 1301; Arrives (frame_of 1 3) 2].
Lemma packets_go_where_last_seen_witness :
  ordered 0 two_hosts /\ run dp_step two_hosts sb_dp0 = run switch_step two_hosts (Switch 0 []) /\
  run switch_step two_hosts (Switch 0 []) =
    [None; Some (B_CONTROLLER REASON_FLOODING); Some (B_REDIRECT 0); None; Some (B_CONTROLLER REASON_FLOODING)].
Proof.
  assert (ordered 0 two_hosts) as Ho by (simpl; lia). split; [exact Ho|]. split; [|by vm_compute].
  apply (packets_go_where_last_seen two_hosts Ho). apply Nat.leb_le. by vm_compute.
Defined.
Lemma redirect_is_elsewhere_witness :
  (handle_rx (frame_of 1 2) 1 (sb_tables (cube b1))).1 = B_REDIRECT 0 /\ 0 <> 1 /\ has_port (cube b1) 0.
Proof.
  assert ((handle_rx (frame_of 1 2) 1 (sb_tables (cube b1))).1 = B_REDIRECT 0) as E by by vm_compute.
  split; [exact E|]. exact (redirect_is_elsewhere _ _ b1 (frame_of 1 2) 1 0 b1_reachable E).
Defined.
Lemma flooding_reaches_the_others_witness :
  exists l, cube (run_event Ok "program" (PacketIn 0 REASON_FLOODING (frame_of 9 1)) b1) =
      set_sent (sb_sent (cube b1) ++ ((fun it => (p_index it, frame_of 9 1)) <$> l)) (cube b1) /\ NoDup l /\
    forall it, it ∈ l <-> ports_by_name_ (sb_ports (cube b1)) !! p_name it = Some it /\ it <> MkPort "p1" 0.
Proof.
  apply (flooding_reaches_the_others Ok "program" b1 (MkPort "p1" 0) (frame_of 9 1) (frame_of 9 1) b1_reachable); by vm_compute.
Defined.
Lemma port_leaves_with_its_entries_witness :
  exists s', run_op "program" (DelPort "p1") b1 = (Ok tt, s') /\
    ports_by_name_ (sb_ports (cube s')) = delete "p1"%string (ports_by_name_ (sb_ports (cube b1))) /\
    forall k, m_lookup (fwd (cube s')) k = (e ← m_lookup (fwd (cube b1)) k; if decide (fe_port e = 0) then None else Some e).
Proof. apply (port_leaves_with_its_entries Ok "program" b1 (MkPort "p1" 0) b1_reachable). by vm_compute. Defined.
Definition b1_ported : demo_bridge := (run_op "program" (AddPort "p4" plain) b1).2.
Lemma new_port_starts_empty_witness :
  exists p, ports_by_name_ (sb_ports (cube b1_ported)) = <["p4"%string := p]> (ports_by_name_ (sb_ports (cube b1))) /\ p_name p = "p4"%string /\
    (forall q, ports_by_name_ (sb_ports (cube b1)) !! p_name q = Some q -> p_index q <> p_index p) /\
    fwd (cube b1_ported) = fwd (cube b1) /\ forall k e, m_lookup (fwd (cube b1_ported)) k = Some e -> fe_port e <> p_index p.
Proof. apply (new_port_starts_empty Ok "program" b1 b1_ported "p4" plain b1_reachable plain_accepted). by vm_compute. Defined.
Lemma database_shows_fresh_witness :
  exists t, on_fdb getEntryList b1 =
      (Ok (omap (fun p => if 300 <? age (cube b1) p.2 then None
                          else Some (shown_as (nbo_uint_to_mac_string p.1) (cube b1) p.2)) (m_entries (fwd (cube b1)))),
       set_cube (set_fwd t (cube b1)) b1) /\
    forall k, m_lookup t k = (e ← m_lookup (fwd (cube b1)) k; if 300 <? age (cube b1) e then None else Some e).
Proof. apply (database_shows_fresh Ok "program" b1 300 b1_reachable). by vm_compute. Defined.
Lemma entry_lives_until_aging_witness :
  exists s1, on_fdb (addEntry "ff:ff:ff:ff:ff:07" (FdbEntryJ "ff:ff:ff:ff:ff:07" (Some "p3"%string))) b1 = (Ok tt, s1) /\
    forall t, sb_clock (cube b1) <= t < 2 ^ 32 ->
      (on_fdb (getEntry "ff:ff:ff:ff:ff:07") (run_event Ok "program" (TimePasses t) s1)).1 =
      (if t - sb_clock (cube b1) <=? 300 then Ok (MkFdbEntry "ff:ff:ff:ff:ff:07" (t - sb_clock (cube b1)) 2 "p3")
       else Throw (RuntimeError "Map entry not found")).
Proof.
  apply (entry_lives_until_aging Ok "program" b1 300 "ff:ff:ff:ff:ff:07" (key 7) (MkPort "p3" 2) b1_reachable); try by vm_compute.
  left. by vm_compute.
Defined.
Lemma deletion_forgets_witness :
  exists r t, on_fdb (delEntry "ff:ff:ff:ff:ff:01") b1 = (r, set_cube (set_fwd t (cube b1)) b1) /\
    match mac_string_to_nbo_uint "ff:ff:ff:ff:ff:01" with
    | Ok k =>
        (forall k', m_lookup t k' = if decide (k = k') then None else m_lookup (fwd (cube b1)) k') /\
        (r = Ok tt <-> exists e, m_lookup (fwd (cube b1)) k = Some e /\ age (cube b1) e <= 300)
    | _ => t = fwd (cube b1) /\ r = Throw (RuntimeError "Filtering database entry not found")
    end /\ (r = Ok tt \/ r = Throw (RuntimeError "Filtering database entry not found")).
Proof. apply (deletion_forgets Ok "program" b1 300 "ff:ff:ff:ff:ff:01" b1_reachable). by vm_compute. Defined.
Lemma flush_forgets_witness :
  exists t, on_fdb flush b1 = (Ok true, set_cube (set_fwd t (cube b1)) b1) /\ m_entries t = [] /\
    forall frame i, beyond frame 14 = false -> eth_dst frame <> eth_src frame ->
      (handle_rx frame i (set_fwdtable t (sb_tables (cube b1)))).1 = B_CONTROLLER REASON_FLOODING.
Proof. apply (flush_forgets Ok "program" b1 300 b1_reachable). by vm_compute. Defined.

(** The aging time that a user sets reaches the answers of the control plane, not the
    program, which is reloaded with a macro that it does not read: 100 seconds after
    an aging time of 10 was set, an address is no longer shown, and still redirected
    to. *)
Lemma aging_time_not_applied :
  let s := play [Request (SetAging 10); TimePasses 1100; Timer] b1 in
  fdb_ s = Some 10 /\ FDB_TIMEOUT (sb_tables (cube s)) = 300 /\
  (on_fdb (getEntry "ff:ff:ff:ff:ff:01") s).1 = Throw (RuntimeError "Map entry not found") /\
  (handle_rx (frame_of 1 2) 1 (sb_tables (cube s))).1 = B_REDIRECT 0.
Proof. by vm_compute. Qed.

(** An entry that a user adds between two ticks is newer than the program's time; the
    program takes it for too old, floods, and deletes it. *)
Lemma added_entry_taken_for_old :
  let s := play [TimePasses 1001; Request (AddEntry "ff:ff:ff:ff:ff:07" (FdbEntryJ "ff:ff:ff:ff:ff:07" (Some "p3"%string)))] b1 in
  let '(a, t) := handle_rx (frame_of 7 1) 0 (sb_tables (cube s)) in
  m_lookup (fwd (cube s)) (key 7) = Some (FwdEntry 1001 2) /\ a = B_CONTROLLER REASON_FLOODING /\ m_lookup (fwdtable t) (key 7) = None.
Proof. by vm_compute. Qed.

(** Changing the port of an entry makes it as old as the system: it is gone. *)
Lemma moved_entry_disappears :
  let s := play [Request (UpdateEntry "ff:ff:ff:ff:ff:01" (FdbEntryJ "ff:ff:ff:ff:ff:01" (Some "p3"%string)))] b1 in
  m_lookup (fwd (cube s)) (key 1) = Some (FwdEntry 0 2) /\
  (on_fdb (getEntry "ff:ff:ff:ff:ff:01") s).1 = Throw (RuntimeError "Map entry not found") /\
  (handle_rx (frame_of 1 2) 1 (sb_tables (cube s))).1 = B_CONTROLLER REASON_FLOODING.
Proof. by vm_compute. Qed.

(** A port whose configuration is refused after it was added stays in the service
    while the daemon forgets it; the next port gets its identifier, and packets from
    the new one are taken for packets from the old one. *)
Lemma refused_port_stays :
  let bad := PortConf None ["missing"%string] in
  let s1 := (run_op "program" (AddPort "p8" bad) b1) in
  let s2 := (run_op "program" (AddPort "p9" plain) s1.2).2 in
  s1.1 = Throw (RuntimeError "Transparent cube missing does not exist") /\
  d_ports (daemon (sb_ports (cube s1.2))) !! "p8"%string = None /\
  ports_by_name_ (sb_ports (cube s2)) !! "p8"%string = Some (MkPort "p8" 3) /\
  ports_by_name_ (sb_ports (cube s2)) !! "p9"%string = Some (MkPort "p9" 3) /\
  ports_by_id_ (sb_ports (cube s2)) !! 3 = Some (MkPort "p8" 3).
Proof. by vm_compute. Qed.

(** A port whose peer is refused costs the cube an identifier for good. *)
Lemma refused_peer_leaks_identifier :
  let bad := PortConf (Some "veth9"%string) [] in
  let '(r, s) := cube_add_port demo_set_peer "p8" bad (daemon (sb_ports (cube b1))) in
  r = Throw (RuntimeError "Interface  veth9 does not exist or is down") /\ 3 ∈ free_ports_ (daemon (sb_ports (cube b1))) /\
  cube_ports_by_name_ s !! "p8"%string = None /\ ports_by_index_ s !! 3 = None /\ 3 ∉ free_ports_ s.
Proof. vm_compute. repeat split; try done; [by left|]. intros Hin. repeat (apply elem_of_cons in Hin as [Hin|Hin]; [done|]). by apply elem_of_nil in Hin. Qed.
