(* ===== verification/NatDatapath.v ===== *)
(** pcn-nat, the datapath: Nat_dp.c, compiled once as the ingress program (outside
    to inside) and once as the egress program (inside to outside), with the tables
    that Nat_dp_ingress.c and Nat_dp_egress.c declare.  Addresses and ports are as
    they are in the packet, the little-endian reading of big-endian fields. *)
From Stdlib Require Import ZArith Lia.
From stdpp Require Import base gmap list numbers.
From S2P Require Import Prelude.
From S2P Require Import Bpf.
From S2P Require Import NetUtils.
From S2P Require Import Frame.
From S2P Require Import Csum.
#[local] Open Scope Z_scope.

(** NATTYPE of the program *)
Inductive nattype := NATTYPE_INGRESS | NATTYPE_EGRESS.
Inductive verdict := RX_OK | RX_DROP.

Definition ETH_P_IP : Z := 0x0800.
Definition ETH_P_ARP : Z := 0x0806.
Definition IP_CSUM_OFFSET : Z := 14 + 10.
Definition UDP_CSUM_OFFSET : Z := 14 + 20 + 6.
Definition TCP_CSUM_OFFSET : Z := 14 + 20 + 16.
Definition ICMP_CSUM_OFFSET : Z := 14 + 20 + 2.
Definition IS_PSEUDO : Z := 0x10.
(** NattingTableOriginatingRuleEnum *)
Definition NAT_SRC : Z := 0.
Definition NAT_DST : Z := 1.
Definition NAT_MSQ : Z := 2.
Definition NAT_PFW : Z := 3.

(** ** The tables *)
Record st_k := StK { src_ip : Z; dst_ip : Z; src_port : Z; dst_port : Z; proto : Z }.
Record st_v := StV { new_ip : Z; new_port : Z; originating_rule_type : Z }.
#[export] Instance st_k_eq_dec : EqDecision st_k.
Proof. solve_decision. Defined.
#[export] Instance st_v_eq_dec : EqDecision st_v.
Proof. solve_decision. Defined.
#[export] Program Instance st_k_countable : Countable st_k :=
  inj_countable' (fun k => (src_ip k, dst_ip k, src_port k, dst_port k, proto k))
    (fun x => let '(a, b, c, d, e) := x in StK a b c d e) _.
Next Obligation. by intros []. Qed.

Record sm_v := SmV { external_ip : Z; sm_entry_type : Z }.
Record dp_v := DpV { internal_ip : Z; internal_port : Z; dp_entry_type : Z }.

(** The bytes of [sm_k] and [dp_k] after the prefix length. *)
Definition ip_bytes (ip : Z) : list Z := [byte_of ip 0; byte_of ip 1; byte_of ip 2; byte_of ip 3].
Definition sm_key (ip : Z) : list Z := ip_bytes ip.
Definition dp_key (ip port proto : Z) : list Z := ip_bytes ip ++ [byte_of port 0; byte_of port 1; proto].

Class NatTables := {
  sessionT : Type; smT : Type; dpT : Type;
  #[global] session_ops :: LruHash st_k st_v sessionT;
  #[global] sm_ops :: BpfTrie sm_v smT;
  #[global] dp_ops :: BpfTrie dp_v dpT;
}.
#[export] Instance concrete_nat_tables : NatTables :=
  {| sessionT := gmap st_k st_v; smT := list_trie sm_v; dpT := list_trie dp_v |}.

Section datapath.
Context `{NatTables} `{CsumDiff}.

Record nat_dp := NatDp {
  egress_session_table : sessionT;
  ingress_session_table : sessionT;
  sm_rules : smT;            (** SNAT and MASQUERADE rules *)
  dp_rules : dpT;            (** DNAT and PORTFORWARDING rules *)
  first_free_port : Z;       (** the only entry of its array, always found *)
}.
Definition set_sessions (e i : sessionT) (s : nat_dp) : nat_dp :=
  NatDp e i (sm_rules s) (dp_rules s) (first_free_port s).
Definition set_first_free_port (p : Z) (s : nat_dp) : nat_dp :=
  NatDp (egress_session_table s) (ingress_session_table s) (sm_rules s) (dp_rules s) p.
Definition set_sm_rules (t : smT) (s : nat_dp) : nat_dp :=
  NatDp (egress_session_table s) (ingress_session_table s) t (dp_rules s) (first_free_port s).
Definition set_dp_rules (t : dpT) (s : nat_dp) : nat_dp :=
  NatDp (egress_session_table s) (ingress_session_table s) (sm_rules s) t (first_free_port s).

(** Both steps under the entry's spin lock. *)
Definition get_free_port (s : nat_dp) : Z * nat_dp :=
  let port := if (first_free_port s <? 1024) || (first_free_port s =? 65535) then 1024 else first_free_port s in
  (bswap16 port, set_first_free_port (u16 (port + 1)) s).

(** ** 1) Packet parsing *)
Inductive parsed := P_DROP | P_PASS | P_SESSION (key : st_k).

(** [uint8_t header_len = 4 * ip->ihl], and where the L4 header starts. *)
Definition l4_offset (frame : list Z) : nat := 14 + Z.to_nat (u8 (4 * (rd8 frame 14 mod 16))).

Definition parse_packet (frame : list Z) : parsed :=
  if beyond frame 14 then P_DROP
  else if rd16 frame 12 =? bswap16 ETH_P_ARP then P_PASS
  else if negb (rd16 frame 12 =? bswap16 ETH_P_IP) then P_DROP
  else if beyond frame (14 + 20) then P_DROP
  else
    let srcIp := rd32 frame 26 in
    let dstIp := rd32 frame 30 in
    let proto := rd8 frame 23 in
    let l4 := l4_offset frame in
    if proto =? IPPROTO_TCP then
      if beyond frame (l4 + 20) then P_DROP
      else P_SESSION (StK srcIp dstIp (rd16 frame l4) (rd16 frame (l4 + 2)) proto)
    else if proto =? IPPROTO_UDP then
      if beyond frame (l4 + 8) then P_DROP
      else P_SESSION (StK srcIp dstIp (rd16 frame l4) (rd16 frame (l4 + 2)) proto)
    else if proto =? IPPROTO_ICMP then
      if beyond frame (l4 + 8) then P_DROP
      else P_SESSION (StK srcIp dstIp (rd16 frame (l4 + 4)) (rd16 frame (l4 + 4)) proto)
    else P_DROP.

(** ** 2) and 3) Session table and rule lookup *)
Record target := Target { newIp : Z; newPort : Z; rule_type : Z; update_session_table : bool }.

Definition session_lookup (type : nattype) (key : st_k) (s : nat_dp) : option target :=
  match type with
  | NATTYPE_EGRESS =>
      v ← lru_lookup (egress_session_table s) key; Some (Target (new_ip v) (new_port v) NAT_SRC false)
  | NATTYPE_INGRESS =>
      v ← lru_lookup (ingress_session_table s) key; Some (Target (new_ip v) (new_port v) NAT_DST false)
  end.

Definition rule_lookup (type : nattype) (key : st_k) (s : nat_dp) : option target * nat_dp :=
  match type with
  | NATTYPE_EGRESS =>
      match t_lookup (sm_rules s) 32 (sm_key (src_ip key)) with
      | Some value =>
          let '(port, s) := get_free_port s in
          (Some (Target (external_ip value) port (sm_entry_type value) true), s)
      | None => (None, s)
      end
  | NATTYPE_INGRESS =>
      match t_lookup (dp_rules s) 56 (dp_key (dst_ip key) (dst_port key) (proto key)) with
      | Some value =>
          let port := if internal_port value =? 0 then dst_port key else internal_port value in
          (Some (Target (internal_ip value) port (dp_entry_type value) true), s)
      | None => (None, s)
      end
  end.

Definition is_source_nat (rule_type : Z) : bool := (rule_type =? NAT_SRC) || (rule_type =? NAT_MSQ).

(** The entries of a new session: of the outgoing packets, of the incoming ones. *)
Definition forward_entry (key : st_k) (t : target) : st_k * st_v :=
  if is_source_nat (rule_type t) then (key, StV (newIp t) (newPort t) (rule_type t))
  else (StK (newIp t) (src_ip key) (newPort t) (if proto key =? IPPROTO_ICMP then newPort t else src_port key) (proto key),
        StV (dst_ip key) (dst_port key) (rule_type t)).
Definition reverse_entry (key : st_k) (t : target) : st_k * st_v :=
  if is_source_nat (rule_type t) then
    (StK (dst_ip key) (newIp t) (if proto key =? IPPROTO_ICMP then newPort t else dst_port key) (newPort t) (proto key),
     StV (src_ip key) (src_port key) (rule_type t))
  else (key, StV (newIp t) (newPort t) (rule_type t)).

Definition update_sessions (key : st_k) (t : target) (s : nat_dp) : nat_dp :=
  if update_session_table t then
    let '(fk, fv) := forward_entry key t in
    let '(rk, rv) := reverse_entry key t in
    set_sessions (lru_update (egress_session_table s) fk fv) (lru_update (ingress_session_table s) rk rv) s
  else s.

(** ** 4) Packet modification *)
(** [recent] selects the implementation of pcn_csum_diff; the codes that the
    checksum updates return are not looked at. *)
Definition modify_packet (recent : bool) (key : st_k) (t : target) (frame : list Z) : verdict * list Z :=
  let source := is_source_nat (rule_type t) in
  let old_ip := if source then src_ip key else dst_ip key in
  let old_port := if source then src_port key else dst_port key in
  let l3sum := pcn_csum_diff recent old_ip 4 (newIp t) 4 0 in
  let l4sum := pcn_csum_diff recent old_port 4 (newPort t) 4 0 in
  let l4 := l4_offset frame in
  let ip_off := if source then 26%nat else 30%nat in
  let port_off := if source then l4 else (l4 + 2)%nat in
  if proto key =? IPPROTO_TCP then
    if beyond frame (l4 + 20) then (RX_DROP, frame) else
    let frame := wr16 (wr32 frame ip_off (newIp t)) port_off (newPort t) in
    let frame := (pcn_l4_csum_replace frame TCP_CSUM_OFFSET 0 l3sum IS_PSEUDO).2 in
    let frame := (pcn_l4_csum_replace frame TCP_CSUM_OFFSET 0 l4sum 0).2 in
    (RX_OK, (pcn_l3_csum_replace frame IP_CSUM_OFFSET 0 l3sum 0).2)
  else if proto key =? IPPROTO_UDP then
    if beyond frame (l4 + 8) then (RX_DROP, frame) else
    let frame := wr16 (wr32 frame ip_off (newIp t)) port_off (newPort t) in
    let frame := (pcn_l4_csum_replace frame UDP_CSUM_OFFSET 0 l3sum IS_PSEUDO).2 in
    let frame := (pcn_l4_csum_replace frame UDP_CSUM_OFFSET 0 l4sum 0).2 in
    (RX_OK, (pcn_l3_csum_replace frame IP_CSUM_OFFSET 0 l3sum 0).2)
  else if proto key =? IPPROTO_ICMP then
    if beyond frame (l4 + 8) then (RX_DROP, frame) else
    let frame := wr16 (wr32 frame ip_off (newIp t)) (l4 + 4) (newPort t) in
    let frame := (pcn_l4_csum_replace frame ICMP_CSUM_OFFSET 0 l4sum 0).2 in
    (RX_OK, (pcn_l3_csum_replace frame IP_CSUM_OFFSET 0 l3sum 0).2)
  else (RX_OK, frame).

Definition handle_rx (recent : bool) (type : nattype) (frame : list Z) (s : nat_dp) : verdict * list Z * nat_dp :=
  match parse_packet frame with
  | P_DROP => (RX_DROP, frame, s)
  | P_PASS => (RX_OK, frame, s)
  | P_SESSION key =>
      let '(t, s) := match session_lookup type key s with
                     | Some t => (Some t, s)
                     | None => rule_lookup type key s
                     end in
      match t with
      | Some t => (modify_packet recent key t frame, update_sessions key t s)
      | None => (RX_OK, frame, s)
      end
  end.
End datapath.
