(* ===== verification/NatFacts.v ===== *)
(** pcn-nat, lemmas on the datapath: what a packet looks like after the
    translation, with which checksums, and the ports that are given out. *)
From Stdlib Require Import ZArith Lia.
From stdpp Require Import base gmap list numbers.
From S2P Require Import Prelude.
From S2P Require Import Bpf.
From S2P Require Import NetUtils.
From S2P Require Import Frame.
From S2P Require Import Csum.
From S2P Require Import NatDatapath.
#[local] Open Scope Z_scope.

(** * Packets without IP options *)
Definition plain (f : list Z) : Prop := Forall is_byte f /\ rd8 f 14 mod 16 = 5.

Lemma plain_l4 f : plain f -> l4_offset f = 34%nat.
Proof. intros [_ E]. unfold l4_offset. by rewrite E. Qed.

(** [f] carries a packet of the flow [k]. *)
Record carries (f : list Z) (k : st_k) : Prop := {
  ca_type : rd16 f 12 = bswap16 ETH_P_IP;
  ca_src : src_ip k = rd32 f 26;
  ca_dst : dst_ip k = rd32 f 30;
  ca_proto : proto k = rd8 f 23;
  ca_length : (34 + l4_min (proto k) <= length f)%nat;
  ca_l4 : (proto k = IPPROTO_TCP \/ proto k = IPPROTO_UDP) /\ src_port k = rd16 f 34 /\ dst_port k = rd16 f 36 \/
          proto k = IPPROTO_ICMP /\ src_port k = rd16 f 38 /\ dst_port k = rd16 f 38;
}.

Lemma beyond_false f n : beyond f n = false <-> (n <= length f)%nat.
Proof. unfold beyond. rewrite Nat.ltb_ge. done. Qed.

Lemma carries_parse f k : plain f -> carries f k -> parse_packet f = P_SESSION k.
Proof.
  intros Hp [Ht Hs Hd Hpr Hl H4]. unfold parse_packet. rewrite (plain_l4 f Hp), Ht, <- Hs, <- Hd, <- Hpr.
  unfold l4_min in Hl. destruct k as [si di sp dp p]; simpl in *.
  assert (beyond f 14 = false) as -> by (apply beyond_false; lia).
  assert (beyond f 34 = false) as -> by (apply beyond_false; lia).
  change (bswap16 ETH_P_IP =? bswap16 ETH_P_ARP) with false. change (bswap16 ETH_P_IP =? bswap16 ETH_P_IP) with true.
  cbn match. destruct H4 as [([-> | ->] & -> & ->)|(-> & -> & ->)]; simpl in *.
  - by assert (beyond f 54 = false) as -> by (apply beyond_false; lia).
  - by assert (beyond f 42 = false) as -> by (apply beyond_false; lia).
  - by assert (beyond f 42 = false) as -> by (apply beyond_false; lia).
Qed.

Lemma parse_carries f k : plain f -> parse_packet f = P_SESSION k -> carries f k.
Proof.
  intros Hp. unfold parse_packet. rewrite (plain_l4 f Hp). destruct (beyond f 14) eqn:B14; [done|].
  destruct (_ =? bswap16 ETH_P_ARP); [done|]. destruct (Z.eqb_spec (rd16 f 12) (bswap16 ETH_P_IP)) as [Ht|]; [|done].
  destruct (beyond f (14 + 20)) eqn:B34; [done|]. cbn match.
  repeat match goal with
  | |- context [rd8 f 23 =? ?p] => destruct (Z.eqb_spec (rd8 f 23) p) as [E|]; [|try done]
  end; match goal with |- context [beyond f ?n] => destruct (beyond f n) eqn:B; [done|] end;
    intros [= <-]; apply beyond_false in B; split; simpl; try done; rewrite ?E; simpl; try lia; tauto.
Qed.

Lemma carries_range f k :
  Forall is_byte f -> carries f k ->
  0 <= src_ip k < 2 ^ 32 /\ 0 <= dst_ip k < 2 ^ 32 /\ 0 <= src_port k < 2 ^ 16 /\ 0 <= dst_port k < 2 ^ 16.
Proof.
  intros Hb [_ -> -> _ _ H4]. split; [by apply rd32_range|]. split; [by apply rd32_range|].
  destruct H4 as [(_ & -> & ->)|(_ & -> & ->)]; auto using rd16_range.
Qed.

(** * Translation *)
(** The flow a packet of [k] belongs to once it is translated, and the flow of
    the answers. *)
Definition translated (k : st_k) (t : target) : st_k :=
  if is_source_nat (rule_type t)
  then StK (newIp t) (dst_ip k) (newPort t) (if proto k =? IPPROTO_ICMP then newPort t else dst_port k) (proto k)
  else StK (src_ip k) (newIp t) (if proto k =? IPPROTO_ICMP then newPort t else src_port k) (newPort t) (proto k).
Definition mirror (k : st_k) : st_k := StK (dst_ip k) (src_ip k) (dst_port k) (src_port k) (proto k).
Definition target_ok (t : target) : Prop := 0 <= newIp t < 2 ^ 32 /\ 0 <= newPort t < 2 ^ 16.

Section modify.
Context `{CsumDiff}.

(** Where the checksum of each protocol is, and where its port fields are. *)
Definition csum_off (proto : Z) : nat :=
  if proto =? IPPROTO_TCP then 50 else if proto =? IPPROTO_UDP then 40 else 36.
Definition port_off (proto : Z) (source : bool) : nat :=
  if proto =? IPPROTO_ICMP then 38 else if source then 34 else 36.
Definition ip_off (source : bool) : nat := if source then 26 else 30.

(** The packet after the translation, as a sequence of writes: the part behind the
    addresses, with a difference [d] that the addresses make, and all of it. *)
Definition l4_rewritten (recent : bool) (proto : Z) (source : bool) (old x d : Z) (g : list Z) : list Z :=
  let f := wr16 g (port_off proto source) x in
  replaced (if proto =? IPPROTO_ICMP then f else replaced f (csum_off proto) d)
    (csum_off proto) (pcn_csum_diff recent old 4 x 4 0).
Definition rewritten (recent : bool) (k : st_k) (t : target) (f : list Z) : list Z :=
  let source := is_source_nat (rule_type t) in
  let l3sum := pcn_csum_diff recent (if source then src_ip k else dst_ip k) 4 (newIp t) 4 0 in
  replaced (l4_rewritten recent (proto k) source (if source then src_port k else dst_port k) (newPort t) l3sum
              (wr32 f (ip_off source) (newIp t))) 24 l3sum.

Lemma modify_run recent k t f :
  plain f -> carries f k -> modify_packet recent k t f = (RX_OK, rewritten recent k t f).
Proof.
  intros Hp Hc. pose proof (ca_length f k Hc) as Hl. unfold modify_packet, rewritten, l4_rewritten. rewrite (plain_l4 f Hp).
  unfold l4_min in Hl. destruct (ca_l4 f k Hc) as [([E|E] & _)|(E & _)]; rewrite E in *; simpl in Hl |- *.
  1: assert (beyond f 54 = false) as -> by (apply beyond_false; lia).
  2-3: assert (beyond f 42 = false) as -> by (apply beyond_false; lia).
  all: try change TCP_CSUM_OFFSET with (Z.of_nat 50); try change UDP_CSUM_OFFSET with (Z.of_nat 40);
    try change ICMP_CSUM_OFFSET with (Z.of_nat 36); change IP_CSUM_OFFSET with (Z.of_nat 24); try change IS_PSEUDO with BPF_F_PSEUDO_HDR.
  all: destruct (is_source_nat (rule_type t)); simpl.
  all: rewrite (l4_replace_run (wr16 _ _ _)) by (rewrite ?length_wr16, ?length_wr32; lia || tauto || done); cbn [snd].
  all: rewrite ?(l4_replace_run (replaced _ _ _))
    by (rewrite ?length_replaced, ?length_wr16, ?length_wr32; lia || tauto || done); cbn [snd].
  all: rewrite l3_replace_run by (rewrite ?length_replaced, ?length_wr16, ?length_wr32; lia || done); done.
Qed.

Lemma rewritten_plain recent k t f : plain f -> plain (rewritten recent k t f).
Proof.
  intros [Hb E]. split.
  - unfold rewritten, l4_rewritten. repeat apply replaced_bytes. destruct (_ =? IPPROTO_ICMP); [|apply replaced_bytes]; auto with cpp.
  - rewrite <- E. f_equal. unfold rewritten, l4_rewritten, replaced, csum_off, port_off, ip_off.
    repeat case_match; by frame_simpl.
Qed.

Lemma rewritten_carries recent k t f :
  plain f -> carries f k -> target_ok t -> carries (rewritten recent k t f) (translated k t).
Proof.
  intros Hp Hc [Hip Hport]. pose proof (ca_length f k Hc) as Hl. destruct Hc as [Ht Hs Hd Hpr _ H4].
  unfold translated, rewritten, l4_rewritten, replaced, csum_off, port_off, ip_off, l4_min in *.
  destruct (is_source_nat (rule_type t)), H4 as [([E|E] & Es & Ed)|(E & Es & Ed)]; rewrite E in *; simpl in Hl |- *.
  all: split; cbn [src_ip dst_ip src_port dst_port proto]; unfold l4_min; rewrite ?E; frame_simpl; simpl; try done; try lia.
  all: first [by left; frame_simpl; auto | by right; frame_simpl; auto | idtac].
Qed.
End modify.

(** * Checksums *)
Section checksums.
Context `{CsumDiff} (recent : bool).

(** The IP header, after an address and the checksum are written. *)
Lemma ip_sum_kept f source x g :
  Forall is_byte f -> (34 <= length f)%nat -> 0 <= x < 2 ^ 32 ->
  Forall is_byte g -> length g = length f -> sum16 g 14 10 = sum16 (wr32 f (ip_off source) x) 14 10 ->
  exists q, sum16 (replaced g 24 (pcn_csum_diff recent (rd32 f (ip_off source)) 4 x 4 0)) 14 10 = sum16 f 14 10 + 65535 * q.
Proof.
  intros Hb Hl Hx Hg Hlg Eg.
  destruct (pcn_csum_diff_spec recent (rd32 f (ip_off source)) x 0) as (Hd & q1 & E1); [by apply rd32_range|lia|lia|].
  destruct (sum16_replaced g 24 _ 14 10 5 Hg Hd) as (q2 & E2); [lia..|].
  rewrite E2, Eg, E1. unfold ip_off in *.
  destruct (sum16_in32 f (if source then 26%nat else 30%nat) x 14 10 (if source then 6%nat else 8%nat)) as (q3 & E3);
    [destruct source; lia..|].
  rewrite E3. exists (q2 - q1 + q3). lia.
Qed.

(** The pseudo header, after an address is written. *)
Lemma pseudo_sum_changed f source x g :
  (34 <= length f)%nat -> 0 <= x < 2 ^ 32 ->
  sum16 g 26 4 = sum16 (wr32 f (ip_off source) x) 26 4 -> rd8 g 23 = rd8 f 23 -> l4_length g = l4_length f ->
  exists q, pseudo_sum g = pseudo_sum f - rd32 f (ip_off source) + x + 65535 * q.
Proof.
  intros Hl Hx Eg E23 El. unfold pseudo_sum. rewrite Eg, E23, El. unfold ip_off.
  destruct (sum16_in32 f (if source then 26%nat else 30%nat) x 26 4 (if source then 0%nat else 2%nat)) as (q & E);
    [destruct source; lia..|].
  exists q. lia.
Qed.

(** The L4 words, after a port and the checksum are written; [dl] is the part of
    the difference that comes from the pseudo header. *)
Lemma l4_words_changed g proto source old x d n :
  let po := port_off proto source in
  Forall is_byte g -> (n * 2 + 34 <= length g + 1)%nat -> (34 + l4_min proto <= length g)%nat -> (l4_min proto <= 2 * n)%nat ->
  proto = IPPROTO_TCP \/ proto = IPPROTO_UDP \/ proto = IPPROTO_ICMP ->
  old = rd16 g po -> 0 <= x < 2 ^ 16 -> 0 <= d < 2 ^ 32 ->
  exists q, sum16 (l4_rewritten recent proto source old x d g) 34 n =
            sum16 g 34 n - (if proto =? IPPROTO_ICMP then 0 else d) + 65535 * q.
Proof.
  intros po Hb Hn Hl Hm Hp -> Hx Hd.
  destruct (pcn_csum_diff_spec recent (rd16 g po) x 0) as (Hd' & q1 & E1); [pose proof (rd16_range g po Hb); lia|lia|lia|].
  assert (exists j, po = (34 + 2 * j)%nat /\ j < n /\ po + 1 < length g)%nat as (j & Ej & Hj & Hpl).
  { unfold po, port_off. unfold l4_min in *.
    destruct Hp as [-> |[-> | ->]]; [destruct source; [exists 0%nat|exists 1%nat]|destruct source; [exists 0%nat|exists 1%nat]|exists 2%nat];
      simpl in *; lia. }
  assert (exists i, csum_off proto = (34 + 2 * i)%nat /\ i < n /\ csum_off proto + 1 < length g)%nat as (i & Ei & Hi & Hcl).
  { unfold csum_off, l4_min in *. destruct Hp as [-> |[-> | ->]]; [exists 8%nat|exists 3%nat|exists 1%nat]; simpl in *; lia. }
  assert (sum16 (wr16 g po x) 34 n = sum16 g 34 n - rd16 g po + x) as Ew by (by apply (sum16_in _ _ _ 34 n j)).
  unfold l4_rewritten. fold po. destruct (proto =? IPPROTO_ICMP).
  - destruct (sum16_replaced (wr16 g po x) (csum_off proto) _ 34 n i (wr16_bytes _ _ _ Hb) Hd') as (q2 & E2);
      [done|done|by rewrite length_wr16|]. rewrite E2, Ew, E1. exists (q2 - q1). lia.
  - destruct (sum16_replaced (replaced (wr16 g po x) (csum_off proto) d) (csum_off proto) _ 34 n i
      (replaced_bytes _ _ _ (wr16_bytes _ _ _ Hb)) Hd') as (q2 & E2); [done|done|by rewrite length_replaced, length_wr16|].
    destruct (sum16_replaced (wr16 g po x) (csum_off proto) d 34 n i (wr16_bytes _ _ _ Hb) Hd) as (q3 & E3);
      [done|done|by rewrite length_wr16|]. rewrite E2, E3, Ew, E1. exists (q2 + q3 - q1). lia.
Qed.
End checksums.

Section intact.
Context `{CsumDiff} (recent : bool).

Lemma rewritten_head k t f :
  carries f k ->
  let g := rewritten recent k t f in
  length g = length f /\ rd8 g 23 = rd8 f 23 /\ l4_length g = l4_length f /\
  sum16 g 26 4 = sum16 (wr32 f (ip_off (is_source_nat (rule_type t))) (newIp t)) 26 4.
Proof.
  intros _ g. unfold l4_length. subst g. unfold rewritten, l4_rewritten, replaced, csum_off, port_off, ip_off.
  split; [repeat case_match; by frame_simpl|]. split; [repeat case_match; by frame_simpl|].
  split; [do 3 f_equal; repeat case_match; by frame_simpl|]. repeat case_match; by rewrite !sum16_out by lia.
Qed.

Lemma carries_old_ip f k t :
  carries f k ->
  (if is_source_nat (rule_type t) then src_ip k else dst_ip k) = rd32 f (ip_off (is_source_nat (rule_type t))).
Proof. intros Hc. unfold ip_off. destruct (is_source_nat _); [apply ca_src|apply ca_dst]; done. Qed.
Lemma carries_old_port f k t :
  carries f k ->
  (if is_source_nat (rule_type t) then src_port k else dst_port k)
  = rd16 f (port_off (proto k) (is_source_nat (rule_type t))).
Proof.
  intros Hc. unfold port_off. destruct (ca_l4 f k Hc) as [([-> | ->] & Es & Ed)|(-> & Es & Ed)]; destruct (is_source_nat _); done.
Qed.

(** The part behind the addresses. *)
Lemma l4_rewritten_low p source old x d g off n :
  (off + 2 * n <= 34)%nat -> sum16 (l4_rewritten recent p source old x d g) off n = sum16 g off n.
Proof.
  intros Ho. unfold l4_rewritten, replaced, port_off, csum_off. repeat case_match; by rewrite !sum16_out by lia.
Qed.
Lemma take_l4_rewritten n p source old x d g :
  (csum_off p + 2 <= n)%nat -> take n (l4_rewritten recent p source old x d g) = l4_rewritten recent p source old x d (take n g).
Proof.
  intros Hn. unfold l4_rewritten. rewrite take_replaced by done. destruct (p =? IPPROTO_ICMP);
    [by rewrite take_wr16|by rewrite take_replaced, take_wr16 by done].
Qed.
Lemma l4_rewritten_bytes p source old x d g : Forall is_byte g -> Forall is_byte (l4_rewritten recent p source old x d g).
Proof. intros Hg. unfold l4_rewritten. apply replaced_bytes. case_match; [|apply replaced_bytes]; auto with cpp. Qed.
Lemma length_l4_rewritten p source old x d g : length (l4_rewritten recent p source old x d g) = length g.
Proof. unfold l4_rewritten. rewrite length_replaced. case_match; rewrite ?length_replaced; apply length_wr16. Qed.

(** A translation keeps both checksums right. *)
Lemma rewritten_intact k t f :
  plain f -> carries f k -> target_ok t -> intact f -> intact (rewritten recent k t f).
Proof.
  intros [Hb _] Hc [Hip Hport] [Hisum [Hmin Hlen] Hlsum].
  destruct (rewritten_head k t f Hc) as (Elen & Epr & El & Eps).
  pose proof (ca_length f k Hc) as Hcl. assert (proto k = rd8 f 23) as Ep by apply (ca_proto f k Hc).
  assert (csum_off (proto k) + 2 <= 34 + l4_length f)%nat as Hco.
  { unfold csum_off, l4_min in *. rewrite <- Ep in Hmin. repeat case_match; lia. }
  pose proof (carries_old_ip f k t Hc) as Eip. pose proof (carries_old_port f k t Hc) as Eport.
  split; [| by rewrite El, Epr, Elen|].
  - unfold rewritten. rewrite Eip. apply (still_zero _ _ Hisum), ip_sum_kept; [done|lia|done| | |].
    + apply l4_rewritten_bytes. by apply wr32_bytes.
    + by rewrite length_l4_rewritten, length_wr32.
    + by apply l4_rewritten_low.
  - rewrite Epr. unfold l4_sum. rewrite El. unfold rewritten at 1.
    rewrite take_replaced, take_l4_rewritten, take_wr32 by lia. unfold replaced. rewrite sum16_out by lia.
    rewrite Eip, Eport.
    set (source := is_source_nat (rule_type t)) in *. set (n := (34 + l4_length f)%nat) in *.
    destruct (pcn_csum_diff_spec recent (rd32 f (ip_off source)) (newIp t) 0) as (H3 & q3 & E3); [by apply rd32_range|lia|lia|].
    set (l3sum := pcn_csum_diff recent (rd32 f (ip_off source)) 4 (newIp t) 4 0) in *.
    destruct (l4_words_changed recent (wr32 (take n f) (ip_off source) (newIp t)) (proto k) source
      (rd16 f (port_off (proto k) source)) (newPort t) l3sum ((l4_length f + 1) / 2)) as (q4 & E4); try done.
    all: rewrite ?length_wr32, ?length_take.
    all: try (unfold n; pose proof (Nat.div_mod (l4_length f + 1) 2); pose proof (Nat.mod_upper_bound (l4_length f + 1) 2); rewrite <- Ep in Hmin; lia).
    + apply wr32_bytes. by apply Forall_take.
    + destruct (ca_l4 f k Hc); tauto.
    + rewrite rd16_wr32_ne by (unfold ip_off, port_off; repeat case_match; lia).
      rewrite rd16_take; [done|]. unfold n, port_off, l4_min in *. rewrite <- Ep in Hmin. repeat case_match; lia.
    + rewrite E4, sum16_out32 by (unfold ip_off; destruct source; lia).
      destruct (pseudo_sum_changed f source (newIp t) (rewritten recent k t f)) as (q5 & E5); [lia|done..|].
      apply (still_zero _ _ Hlsum). unfold l4_sum. fold n. rewrite Ep, E5, E3.
      destruct (rd8 f 23 =? IPPROTO_ICMP); [exists q4|exists (q4 - q3 + q5)]; lia.
Qed.
End intact.

(** * Ports *)
Section ports.
Context `{NatTables}.

(** The ports of [n] new sessions in a row. *)
Fixpoint allocate (n : nat) (s : nat_dp) : list Z * nat_dp :=
  match n with
  | O => ([], s)
  | S n => let '(p, s) := get_free_port s in let '(l, s) := allocate n s in (p :: l, s)
  end.

(** The range goes round: [ith_port q i] comes [i] ports after [q]. *)
Definition first_port (s : nat_dp) : Z :=
  if (first_free_port s <? 1024) || (first_free_port s =? 65535) then 1024 else first_free_port s.
Definition ith_port (q : Z) (i : nat) : Z := 1024 + (q - 1024 + Z.of_nat i) mod 64511.

Lemma get_free_port_spec s :
  0 <= first_free_port s < 2 ^ 16 ->
  exists s', get_free_port s = (bswap16 (first_port s), s') /\ 1024 <= first_port s < 65535 /\
    0 <= first_free_port s' < 2 ^ 16 /\ first_port s' = ith_port (first_port s) 1 /\
    egress_session_table s' = egress_session_table s /\ ingress_session_table s' = ingress_session_table s /\
    sm_rules s' = sm_rules s /\ dp_rules s' = dp_rules s.
Proof.
  intros Hf. unfold get_free_port. fold (first_port s). eexists. split; [done|].
  assert (1024 <= first_port s < 65535) as Hp.
  { unfold first_port. destruct (Z.ltb_spec (first_free_port s) 1024), (Z.eqb_spec (first_free_port s) 65535); simpl; lia. }
  assert (u16 (first_port s + 1) = first_port s + 1) as -> by (apply Z.mod_small; lia).
  split; [done|]. split; [simpl; lia|]. split; [|done].
  change (first_port (set_first_free_port (first_port s + 1) s))
    with (if (first_port s + 1 <? 1024) || (first_port s + 1 =? 65535) then 1024 else first_port s + 1). unfold ith_port.
  destruct (Z.ltb_spec (first_port s + 1) 1024), (Z.eqb_spec (first_port s + 1) 65535) as [E|]; simpl; try lia.
  - replace (first_port s) with 65534 by lia. done.
  - rewrite Z.mod_small by lia. lia.
Qed.

Lemma ith_port_step q i : ith_port (ith_port q 1) i = ith_port q (S i).
Proof.
  unfold ith_port. f_equal. rewrite Z.add_simpl_l, Z.add_mod_idemp_l by lia. f_equal. lia.
Qed.
Lemma ith_port_step_r q i : ith_port (ith_port q i) 1 = ith_port q (S i).
Proof. unfold ith_port. f_equal. rewrite Z.add_simpl_l, Z.add_mod_idemp_l by lia. f_equal. lia. Qed.
Lemma ith_port_0 q : 1024 <= q < 65535 -> ith_port q 0 = q.
Proof. intros Hq. unfold ith_port. rewrite Z.mod_small by lia. lia. Qed.
Lemma ith_port_range q i : 1024 <= ith_port q i < 65535.
Proof. unfold ith_port. pose proof (Z.mod_pos_bound (q - 1024 + Z.of_nat i) 64511). lia. Qed.
Lemma ith_port_inj q i j :
  ith_port q i = ith_port q j -> -64511 < Z.of_nat i - Z.of_nat j < 64511 -> i = j.
Proof.
  unfold ith_port. intros E Hij.
  pose proof (Z.div_mod (q - 1024 + Z.of_nat i) 64511 ltac:(done)) as Ei.
  pose proof (Z.div_mod (q - 1024 + Z.of_nat j) 64511 ltac:(done)) as Ej.
  set (a := (q - 1024 + Z.of_nat i) / 64511) in *. set (b := (q - 1024 + Z.of_nat j) / 64511) in *. nia.
Qed.

Lemma allocate_spec n s :
  0 <= first_free_port s < 2 ^ 16 ->
  (allocate n s).1 = map (fun i => bswap16 (ith_port (first_port s) i)) (seq 0 n).
Proof.
  revert s. induction n as [|n IH]; intros s Hs; [done|]. cbn [allocate].
  destruct (get_free_port_spec s Hs) as (s' & -> & Hp & Hs' & E & _). specialize (IH s' Hs').
  destruct (allocate n s') as [l s'']. simpl in *. rewrite ith_port_0 by done. f_equal. rewrite IH, <- seq_shift, map_map, E.
  apply map_ext. intros i. by rewrite ith_port_step.
Qed.
End ports.
