(* ===== verification/NatSessions.v ===== *)
(** pcn-nat, the sessions: what one packet does to the state, on every branch, the
    invariant that every packet keeps, and what a sequence of packets leaves of a
    session. *)
From Stdlib Require Import ZArith Lia.
From stdpp Require Import base gmap list numbers.
From S2P Require Import Prelude.
From S2P Require Import Bpf.
From S2P Require Import NetUtils.
From S2P Require Import Frame.
From S2P Require Import Csum.
From S2P Require Import NatDatapath.
From S2P Require Import NatFacts.
#[local] Open Scope Z_scope.

Definition opposite (type : nattype) : nattype :=
  match type with NATTYPE_INGRESS => NATTYPE_EGRESS | NATTYPE_EGRESS => NATTYPE_INGRESS end.
(** The packets of a program are translated at the source or at the destination. *)
Definition translates_source (type : nattype) : bool :=
  match type with NATTYPE_EGRESS => true | NATTYPE_INGRESS => false end.

(** A flow as the parser gives it. *)
Record flow_ok (k : st_k) : Prop := {
  fl_src : 0 <= src_ip k < 2 ^ 32;
  fl_dst : 0 <= dst_ip k < 2 ^ 32;
  fl_sport : 0 <= src_port k < 2 ^ 16;
  fl_dport : 0 <= dst_port k < 2 ^ 16;
  fl_icmp : proto k = IPPROTO_ICMP -> src_port k = dst_port k;
}.

Lemma parse_flow f k : Forall is_byte f -> parse_packet f = P_SESSION k -> flow_ok k.
Proof.
  intros Hb. unfold parse_packet. repeat case_match; try done; intros [= <-]; split; simpl;
    auto using rd32_range, rd16_range; try done; intros E; rewrite E in *; done.
Qed.

Section sessions.
Context `{NatTables} `{CsumDiff} (recent : bool).

Definition session_table (type : nattype) (s : nat_dp) : sessionT :=
  match type with NATTYPE_EGRESS => egress_session_table s | NATTYPE_INGRESS => ingress_session_table s end.
Definition value_ok (v : st_v) : Prop := 0 <= new_ip v < 2 ^ 32 /\ 0 <= new_port v < 2 ^ 16.

(** What the tables of a running NAT hold. *)
Record nat_ok (s : nat_dp) : Prop := {
  no_sm : forall e, e ∈ t_entries (sm_rules s) ->
    is_source_nat (sm_entry_type (te_val e)) = true /\ 0 <= external_ip (te_val e) < 2 ^ 32;
  no_dp : forall e, e ∈ t_entries (dp_rules s) ->
    is_source_nat (dp_entry_type (te_val e)) = false /\ 0 <= internal_ip (te_val e) < 2 ^ 32 /\
    0 <= internal_port (te_val e) < 2 ^ 16;
  no_port : 0 <= first_free_port s < 2 ^ 16;
  no_sessions : forall type k v, lru_lookup (session_table type s) k = Some v -> value_ok v;
}.

Lemma session_lookup_spec type k s :
  session_lookup type k s =
  (fun v => Target (new_ip v) (new_port v) (if translates_source type then NAT_SRC else NAT_DST) false)
    <$> lru_lookup (session_table type s) k.
Proof. destruct type; simpl; by destruct (lru_lookup _ k). Qed.

Lemma rule_lookup_ok type k s t s' :
  nat_ok s -> flow_ok k -> rule_lookup type k s = (Some t, s') ->
  is_source_nat (rule_type t) = translates_source type /\ target_ok t /\ update_session_table t = true.
Proof.
  intros Hok Hk. destruct type; simpl.
  - pose proof (t_lookup_spec (dp_rules s) 56 (dp_key (dst_ip k) (dst_port k) (proto k))) as Hl.
    destruct (t_lookup _ 56 _) as [v|]; [|done]. destruct Hl as (e & He & <- & _).
    destruct (no_dp s Hok e He) as (Hs & Hi & Hp). intros [= <- <-]. split; [done|]. split; [|done].
    split; [done|]. simpl. destruct (_ =? 0); [apply Hk|done].
  - pose proof (t_lookup_spec (sm_rules s) 32 (sm_key (src_ip k))) as Hl.
    destruct (t_lookup _ 32 _) as [v|]; [|done]. destruct Hl as (e & He & <- & _).
    destruct (no_sm s Hok e He) as [Hs Hi]. unfold get_free_port. intros [= <- <-]. split; [done|]. split; [|done].
    split; [done|]. apply bswap16_range.
Qed.

(** The tables after a rule lookup: only the next port can have changed. *)
Lemma rule_lookup_state type k s t s' :
  nat_ok s -> rule_lookup type k s = (t, s') ->
  egress_session_table s' = egress_session_table s /\ ingress_session_table s' = ingress_session_table s /\
  sm_rules s' = sm_rules s /\ dp_rules s' = dp_rules s /\ 0 <= first_free_port s' < 2 ^ 16 /\
  (s' = s \/ first_port s' = ith_port (first_port s) 1 /\
     exists t', t = Some t' /\ newPort t' = bswap16 (first_port s)).
Proof.
  intros Hok. pose proof (no_port s Hok) as Hp. destruct type; cbn [rule_lookup].
  - destruct (t_lookup _ _ _); intros [= <- <-]; tauto.
  - destruct (t_lookup _ _ _) as [v|]; [|intros [= <- <-]; tauto].
    destruct (get_free_port_spec s Hp) as (s1 & -> & H1 & H2 & H3 & H4 & H5 & H6 & H7). intros [= <- <-].
    do 5 (split; [done|]). right. split; [done|]. by eexists.
Qed.

(** The entries of a new session. *)
Lemma new_entries type k t :
  is_source_nat (rule_type t) = translates_source type ->
  match type with
  | NATTYPE_EGRESS => forward_entry k t = (k, StV (newIp t) (newPort t) (rule_type t)) /\
      reverse_entry k t = (mirror (translated k t), StV (src_ip k) (src_port k) (rule_type t))
  | NATTYPE_INGRESS => reverse_entry k t = (k, StV (newIp t) (newPort t) (rule_type t)) /\
      forward_entry k t = (mirror (translated k t), StV (dst_ip k) (dst_port k) (rule_type t))
  end.
Proof. intros Es. unfold forward_entry, reverse_entry, translated, mirror. by destruct type; rewrite Es. Qed.

(** The endpoint that a packet of [k] has before the translation. *)
Definition original (type : nattype) (k : st_k) (t : target) : st_v :=
  if translates_source type then StV (src_ip k) (src_port k) (rule_type t) else StV (dst_ip k) (dst_port k) (rule_type t).

Lemma session_opened type k t s :
  is_source_nat (rule_type t) = translates_source type -> update_session_table t = true ->
  let s' := update_sessions k t s in
  session_table type s' = lru_update (session_table type s) k (StV (newIp t) (newPort t) (rule_type t)) /\
  session_table (opposite type) s' = lru_update (session_table (opposite type) s) (mirror (translated k t)) (original type k t) /\
  sm_rules s' = sm_rules s /\ dp_rules s' = dp_rules s /\ first_free_port s' = first_free_port s.
Proof.
  intros Es Eu s'. subst s'. pose proof (new_entries type k t Es) as He. unfold update_sessions, original. rewrite Eu.
  destruct type; destruct He as [E1 E2]; by rewrite E1, E2.
Qed.

(** ** One packet, on every branch *)
Lemma handle_rx_hit type f k s v :
  parse_packet f = P_SESSION k -> lru_lookup (session_table type s) k = Some v -> plain f ->
  let t := Target (new_ip v) (new_port v) (if translates_source type then NAT_SRC else NAT_DST) false in
  handle_rx recent type f s = (RX_OK, rewritten recent k t f, s).
Proof.
  intros Hp Hl Hf t. unfold handle_rx. rewrite Hp, session_lookup_spec, Hl. simpl. fold t.
  rewrite (modify_run recent k t f Hf); [done|by apply parse_carries].
Qed.

Lemma handle_rx_rule type f k s t s1 :
  parse_packet f = P_SESSION k -> lru_lookup (session_table type s) k = None -> rule_lookup type k s = (Some t, s1) -> plain f ->
  handle_rx recent type f s = (RX_OK, rewritten recent k t f, update_sessions k t s1).
Proof.
  intros Hp Hl Hr Hf. unfold handle_rx. rewrite Hp, session_lookup_spec, Hl. simpl. rewrite Hr.
  rewrite (modify_run recent k t f Hf); [done|by apply parse_carries].
Qed.

Lemma handle_rx_miss type f k s s1 :
  parse_packet f = P_SESSION k -> lru_lookup (session_table type s) k = None -> rule_lookup type k s = (None, s1) ->
  handle_rx recent type f s = (RX_OK, f, s1).
Proof. intros Hp Hl Hr. unfold handle_rx. rewrite Hp, session_lookup_spec, Hl. simpl. by rewrite Hr. Qed.

(** ** The invariant *)
Lemma lru_update_cases {K V T} `{LruHash K V T} (t : T) k v k' w :
  lru_lookup (lru_update t k v) k' = Some w -> k = k' /\ w = v \/ lru_lookup t k' = Some w.
Proof using Type.
  destruct (decide (k = k')) as [<-|Hn]; [rewrite lru_update_eq; intros [= <-]; by left|].
  intros Hl. right. destruct (lru_update_ne t k v k' Hn); congruence.
Qed.

Lemma original_ok type k t : flow_ok k -> value_ok (original type k t).
Proof using Type. intros []. unfold original. by destruct (translates_source type). Qed.

Lemma rule_lookup_nat_ok type k s t s' : nat_ok s -> rule_lookup type k s = (t, s') -> nat_ok s'.
Proof using Type.
  intros Hok Hr. destruct (rule_lookup_state type k s t s' Hok Hr) as (E1 & E2 & E3 & E4 & Hp & _).
  destruct Hok as [Hsm Hdp _ Hs]. split; [by rewrite E3|by rewrite E4|done|].
  intros ty k' v. specialize (Hs ty k' v). destruct ty; simpl in *; [by rewrite E2|by rewrite E1].
Qed.

Lemma session_opened_ok type k t s :
  nat_ok s -> flow_ok k -> target_ok t -> is_source_nat (rule_type t) = translates_source type ->
  update_session_table t = true -> nat_ok (update_sessions k t s).
Proof using Type.
  intros Hok Hk Ht Es Eu. destruct (session_opened type k t s Es Eu) as (E1 & E2 & E3 & E4 & E5).
  destruct Hok as [Hsm Hdp Hp Hs]. split; [by rewrite E3|by rewrite E4|by rewrite E5|].
  intros ty k' v Hl. assert (ty = type \/ ty = opposite type) as [-> | ->] by (destruct ty, type; auto).
  - rewrite E1 in Hl. apply lru_update_cases in Hl as [[_ ->]|Hl]; [done|by apply (Hs type k')].
  - rewrite E2 in Hl. apply lru_update_cases in Hl as [[_ ->]|Hl]; [by apply original_ok|by apply (Hs (opposite type) k')].
Qed.

(** The state after one packet: as it was, or with one more port used, or with one
    more session. *)
Lemma handle_rx_state type f s :
  Forall is_byte f -> nat_ok s ->
  let s' := (handle_rx recent type f s).2 in
  nat_ok s' /\ sm_rules s' = sm_rules s /\ dp_rules s' = dp_rules s /\
  (s' = s \/
   exists k t s1, parse_packet f = P_SESSION k /\ lru_lookup (session_table type s) k = None /\
     rule_lookup type k s = (Some t, s1) /\ s' = update_sessions k t s1).
Proof using Type.
  intros Hb Hok. unfold handle_rx. destruct (parse_packet f) as [| |k] eqn:Hp; simpl; [tauto..|].
  pose proof (parse_flow f k Hb Hp) as Hk. rewrite session_lookup_spec.
  destruct (lru_lookup (session_table type s) k) as [v|] eqn:El; simpl; [by auto|].
  destruct (rule_lookup type k s) as [[t|] s1] eqn:Er; simpl.
  - destruct (rule_lookup_ok type k s t s1 Hok Hk Er) as (Es & Ht & Eu).
    destruct (rule_lookup_state type k s _ s1 Hok Er) as (_ & _ & E3 & E4 & _).
    destruct (session_opened type k t s1 Es Eu) as (_ & _ & E5 & E6 & _).
    split; [apply (session_opened_ok type); try done; by eapply rule_lookup_nat_ok|].
    split; [congruence|]. split; [congruence|]. right. by exists k, t, s1.
  - assert (s1 = s) as ->; [|by auto]. destruct (rule_lookup_state type k s _ s1 Hok Er) as (_ & _ & _ & _ & _ & [?|(_ & t' & [=] & _)]).
    done.
Qed.

(** ** Sequences of packets, in both directions *)
Definition packets := list (nattype * list Z).
Fixpoint handle_all (l : packets) (s : nat_dp) : nat_dp :=
  match l with [] => s | (type, f) :: l => handle_all l (handle_rx recent type f s).2 end.

(** Without destination rules, an ingress packet changes nothing. *)
Lemma ingress_idle f s :
  Forall is_byte f -> nat_ok s -> t_entries (dp_rules s) = [] -> (handle_rx recent NATTYPE_INGRESS f s).2 = s.
Proof using Type.
  intros Hb Hok Hd. destruct (handle_rx_state NATTYPE_INGRESS f s Hb Hok) as (_ & _ & _ & [?|(k & t & s1 & _ & _ & Hr & _)]); [done|].
  simpl in Hr. pose proof (t_lookup_spec (dp_rules s) 56 (dp_key (dst_ip k) (dst_port k) (proto k))) as Hl.
  destruct (t_lookup _ _ _); [|done]. rewrite Hd in Hl. by destruct Hl as (e & He%elem_of_nil & _).
Qed.

(** The answers of a flow that got port [p] are not given to another flow while
    fewer than 64511 ports are used after it. *)
Lemma answers_kept (l : packets) s q n p ingress_key v :
  Forall (fun x => Forall is_byte x.2) l -> nat_ok s -> t_entries (dp_rules s) = [] ->
  dst_port ingress_key = bswap16 p -> p = ith_port q 0 -> first_port s = ith_port q n -> (0 < n)%nat ->
  Z.of_nat n + Z.of_nat (length l) <= 64511 ->
  (lru_lookup (ingress_session_table s) ingress_key = Some v \/ lru_lookup (ingress_session_table s) ingress_key = None) ->
  let s' := handle_all l s in
  lru_lookup (ingress_session_table s') ingress_key = Some v \/ lru_lookup (ingress_session_table s') ingress_key = None.
Proof using Type.
  intros Hl. revert s n. induction Hl as [|[type f] l Hb _ IH]; intros s n Hok Hd Ek Ep Eq Hn Hlen Hs; [done|].
  cbn [handle_all length] in *. simpl in Hb.
  destruct (handle_rx_state type f s Hb Hok) as (Hok' & _ & Ed & Hs').
  destruct type; [rewrite ingress_idle in * by done; apply (IH s n); try done; lia|].
  destruct Hs' as [->|(k & t & s1 & Hp & Hm & Hr & Eh)]; [apply (IH s n); try done; lia|]. rewrite Eh in *.
  pose proof (parse_flow f k Hb Hp) as Hk. destruct (rule_lookup_ok _ k s t s1 Hok Hk Hr) as (Es & Ht & Eu).
  destruct (rule_lookup_state _ k s _ s1 Hok Hr) as (_ & Ei & _ & _ & _ & Hport).
  destruct (session_opened _ k t s1 Es Eu) as (_ & Eo & _ & _ & E5). simpl in Eo.
  destruct Hport as [->|(Enext & t' & [= <-] & Enew)].
  { exfalso. cbn [rule_lookup] in Hr. destruct (t_lookup _ _ _); [|done]. destruct (get_free_port_spec s (no_port s Hok)) as (s2 & E & H1 & _ & H2 & _).
    rewrite E in Hr. injection Hr as _ ->. rewrite Eq, ith_port_step_r in H2. apply ith_port_inj in H2; lia. }
  apply (IH _ (S n)); try done; try lia; [by rewrite Ed| |].
  { unfold first_port at 1. rewrite E5. fold (first_port s1). by rewrite Enext, Eq, ith_port_step_r. }
  rewrite Eo, Ei.
  assert (mirror (translated k t) <> ingress_key) as Hne.
  { intros <-. unfold translated in Ek. rewrite Es in Ek. simpl in Ek. rewrite Enew, Ep, Eq in Ek.
    apply (f_equal bswap16) in Ek. rewrite !bswap16_involutive in Ek by (pose proof (ith_port_range q n); pose proof (ith_port_range q 0); lia).
    apply ith_port_inj in Ek; lia. }
  destruct (lru_update_ne (ingress_session_table s) _ (original NATTYPE_EGRESS k t) _ Hne) as [-> | ->]; [done|by right].
Qed.
End sessions.
