(* ===== verification/NatRules.v ===== *)
(** pcn-nat, the control plane: IpAddr.h, the four kinds of rules (RuleSnat,
    RuleDnat, RulePortForwarding with their entries, RuleMasquerade), the object
    that holds them (Rule.cpp) and the cube itself (Nat.cpp).  Each operation is a
    method on the cube, which owns the datapath tables. *)
From Stdlib Require Import ZArith Lia Ascii String.
From stdpp Require Import base gmap list strings numbers.
From S2P Require Import Prelude.
From S2P Require Import Bpf.
From S2P Require Import NetUtils.
From S2P Require Import Frame.
From S2P Require Import Csum.
From S2P Require Import NatDatapath.
#[local] Open Scope Z_scope.
#[local] Open Scope cpp_scope.

(** ** IpAddr.h *)
Record IpAddr := { ip : Z; netmask : Z }.
Definition IpAddr_toString `{Inet} (a : IpAddr) : string :=
  (nbo_uint_to_ip_string (ip a) +:+ "/" +:+ to_string (netmask a))%string.

(** [ntohl(0xffffffff << (32 - n))]: shifting by the whole width is undefined. *)
Definition net_mask (n : Z) : res Z :=
  if n =? 0 then Undefined else Ok (bswap32 (u32 (Z.shiftl 0xffffffff (32 - n)))).

Definition IpAddr_fromString (ipnetmask : string) : res IpAddr :=
  let found := str_find SLASH ipnetmask in
  netmask_ <~ match found with
              | Some found => v <~ stol (substr_from (found + 1) ipnetmask) ;; Ok (u8 v)
              | None => Ok 32
              end ;;
  if 32 <? netmask_ then Throw (RuntimeError "Netmask can't be bigger than 32") else
  let ip_ := match found with Some found => String.substring 0 found ipnetmask | None => ipnetmask end in
  ip' <~ ip_string_to_nbo_uint ip_ ;;
  mask <~ net_mask netmask_ ;;
  Ok {| ip := Z.land ip' mask; netmask := netmask_ |}.

(** [throw std::runtime_error("There is no rule " + id)]: the identifier moves the
    pointer to the literal, out of it when it is large. *)
Definition no_rule {A} (id : Z) : res A :=
  if id <=? 17 then Throw (RuntimeError (substr_from (Z.to_nat id) "There is no rule ")) else Undefined.

(** ** The entries *)
Record SnatEntry := { sn_id : Z; sn_internalIp : Z; sn_internalNetmask : Z; sn_externalIp : Z }.
Record DnatEntry := { dn_id : Z; dn_internalIp : Z; dn_externalIp : Z }.
Inductive ProtoEnum := TCP | UDP | ALL.
#[export] Instance proto_enum_eq_dec : EqDecision ProtoEnum.
Proof. solve_decision. Defined.
Record PfEntry := {
  pf_id : Z; pf_internalIp : Z; pf_externalIp : Z; pf_internalPort : Z; pf_externalPort : Z; pf_proto : ProtoEnum;
}.

(** What a request says of an entry; a field that is not set is [None]. *)
Record SnatConf := { sc_id : Z; sc_internalNet : option string; sc_externalIp : option string }.
Record DnatConf := { dc_id : Z; dc_externalIp : option string; dc_internalIp : option string }.
Record PfConf := {
  pc_id : Z; pc_externalIp : option string; pc_externalPort : option Z; pc_proto : option string;
  pc_internalIp : option string; pc_internalPort : option Z;
}.

(** [if (conf.fieldIsSet()) setField(conf.getField())] *)
Definition if_set {A E} (o : option A) (set : A -> M E unit) : M E unit :=
  match o with Some a => set a | None => ret tt end.

Definition tolower (c : ascii) : ascii :=
  if (65 <=? Scanf.code c) && (Scanf.code c <=? 90) then Ascii.ascii_of_nat (Z.to_nat (Scanf.code c + 32)) else c.
Fixpoint str_tolower (s : string) : string :=
  match s with String c s => String (tolower c) (str_tolower s) | EmptyString => EmptyString end.

(** ** RuleSnatEntry.cpp, RuleDnatEntry.cpp, RulePortForwardingEntry.cpp *)
Definition sn_with_internalNet (a : IpAddr) (e : SnatEntry) : SnatEntry :=
  {| sn_id := sn_id e; sn_internalIp := ip a; sn_internalNetmask := netmask a; sn_externalIp := sn_externalIp e |}.
Definition sn_with_externalIp (x : Z) (e : SnatEntry) : SnatEntry :=
  {| sn_id := sn_id e; sn_internalIp := sn_internalIp e; sn_internalNetmask := sn_internalNetmask e; sn_externalIp := x |}.
Definition sn_with_id (x : Z) (e : SnatEntry) : SnatEntry :=
  {| sn_id := x; sn_internalIp := sn_internalIp e; sn_internalNetmask := sn_internalNetmask e;
     sn_externalIp := sn_externalIp e |}.
Definition RuleSnatEntry_setInternalNet (value : string) : M SnatEntry unit :=
  addr <-- lift (IpAddr_fromString value) ;; modify (sn_with_internalNet addr).
Definition RuleSnatEntry_setExternalIp (value : string) : M SnatEntry unit :=
  addr <-- lift (IpAddr_fromString value) ;; modify (sn_with_externalIp (ip addr)).
Definition RuleSnatEntry_update (conf : SnatConf) : M SnatEntry unit :=
  if_set (sc_internalNet conf) RuleSnatEntry_setInternalNet ;;;
  if_set (sc_externalIp conf) RuleSnatEntry_setExternalIp.

Definition dn_with_externalIp (x : Z) (e : DnatEntry) : DnatEntry :=
  {| dn_id := dn_id e; dn_internalIp := dn_internalIp e; dn_externalIp := x |}.
Definition dn_with_internalIp (x : Z) (e : DnatEntry) : DnatEntry :=
  {| dn_id := dn_id e; dn_internalIp := x; dn_externalIp := dn_externalIp e |}.
Definition dn_with_id (x : Z) (e : DnatEntry) : DnatEntry :=
  {| dn_id := x; dn_internalIp := dn_internalIp e; dn_externalIp := dn_externalIp e |}.
Definition RuleDnatEntry_setExternalIp (value : string) : M DnatEntry unit :=
  addr <-- lift (IpAddr_fromString value) ;; modify (dn_with_externalIp (ip addr)).
Definition RuleDnatEntry_setInternalIp (value : string) : M DnatEntry unit :=
  addr <-- lift (IpAddr_fromString value) ;; modify (dn_with_internalIp (ip addr)).
Definition RuleDnatEntry_update (conf : DnatConf) : M DnatEntry unit :=
  if_set (dc_externalIp conf) RuleDnatEntry_setExternalIp ;;;
  if_set (dc_internalIp conf) RuleDnatEntry_setInternalIp.

Definition pf_with_externalIp (x : Z) (e : PfEntry) : PfEntry :=
  {| pf_id := pf_id e; pf_internalIp := pf_internalIp e; pf_externalIp := x; pf_internalPort := pf_internalPort e;
     pf_externalPort := pf_externalPort e; pf_proto := pf_proto e |}.
Definition pf_with_internalIp (x : Z) (e : PfEntry) : PfEntry :=
  {| pf_id := pf_id e; pf_internalIp := x; pf_externalIp := pf_externalIp e; pf_internalPort := pf_internalPort e;
     pf_externalPort := pf_externalPort e; pf_proto := pf_proto e |}.
Definition pf_with_externalPort (x : Z) (e : PfEntry) : PfEntry :=
  {| pf_id := pf_id e; pf_internalIp := pf_internalIp e; pf_externalIp := pf_externalIp e;
     pf_internalPort := pf_internalPort e; pf_externalPort := x; pf_proto := pf_proto e |}.
Definition pf_with_internalPort (x : Z) (e : PfEntry) : PfEntry :=
  {| pf_id := pf_id e; pf_internalIp := pf_internalIp e; pf_externalIp := pf_externalIp e; pf_internalPort := x;
     pf_externalPort := pf_externalPort e; pf_proto := pf_proto e |}.
Definition pf_with_proto (x : ProtoEnum) (e : PfEntry) : PfEntry :=
  {| pf_id := pf_id e; pf_internalIp := pf_internalIp e; pf_externalIp := pf_externalIp e;
     pf_internalPort := pf_internalPort e; pf_externalPort := pf_externalPort e; pf_proto := x |}.
Definition pf_with_id (x : Z) (e : PfEntry) : PfEntry :=
  {| pf_id := x; pf_internalIp := pf_internalIp e; pf_externalIp := pf_externalIp e;
     pf_internalPort := pf_internalPort e; pf_externalPort := pf_externalPort e; pf_proto := pf_proto e |}.

Definition RulePortForwardingEntry_setProto (value : string) : M PfEntry unit :=
  let v := str_tolower value in
  if String.eqb value "" then modify (pf_with_proto ALL)
  else if String.eqb v "tcp" then modify (pf_with_proto TCP)
  else if String.eqb v "udp" then modify (pf_with_proto UDP)
  else if String.eqb v "all" || String.eqb v "" then modify (pf_with_proto ALL)
  else throw (RuntimeError "Invalid protocol").
Definition RulePortForwardingEntry_getProto (e : PfEntry) : string :=
  match pf_proto e with TCP => "tcp" | UDP => "udp" | ALL => "all" end.
Definition RulePortForwardingEntry_setExternalIp (value : string) : M PfEntry unit :=
  addr <-- lift (IpAddr_fromString value) ;; modify (pf_with_externalIp (ip addr)).
Definition RulePortForwardingEntry_setInternalIp (value : string) : M PfEntry unit :=
  addr <-- lift (IpAddr_fromString value) ;; modify (pf_with_internalIp (ip addr)).
Definition RulePortForwardingEntry_update (conf : PfConf) : M PfEntry unit :=
  if_set (pc_externalIp conf) RulePortForwardingEntry_setExternalIp ;;;
  if_set (pc_externalPort conf) (fun p => modify (pf_with_externalPort p)) ;;;
  match pc_proto conf with
  | Some p => RulePortForwardingEntry_setProto p
  | None => modify (pf_with_proto ALL)
  end ;;;
  if_set (pc_internalIp conf) RulePortForwardingEntry_setInternalIp ;;;
  if_set (pc_internalPort conf) (fun p => modify (pf_with_internalPort p)).

(** The constructors: [raw] is what the memory holds before the fields are set. *)
Definition constructed {E} (m : M E unit) (raw : E) : res E := let '(r, e) := m raw in _ <~ r ;; Ok e.
Definition RuleSnatEntry_new (raw : SnatEntry) (conf : SnatConf) : res SnatEntry :=
  constructed (RuleSnatEntry_update conf) (sn_with_id (sc_id conf) raw).
Definition RuleDnatEntry_new (raw : DnatEntry) (conf : DnatConf) : res DnatEntry :=
  constructed (RuleDnatEntry_update conf) (dn_with_id (dc_id conf) raw).
Definition RulePortForwardingEntry_new (raw : PfEntry) (conf : PfConf) : res PfEntry :=
  constructed (RulePortForwardingEntry_update conf) (pf_with_id (pc_id conf) raw).

Section getters.
Context `{Inet}.
Definition RuleSnatEntry_getInternalNet (e : SnatEntry) : string :=
  IpAddr_toString {| ip := sn_internalIp e; netmask := sn_internalNetmask e |}.
Definition RuleSnatEntry_getExternalIp (e : SnatEntry) : string := IpAddr_toString {| ip := sn_externalIp e; netmask := 32 |}.
Definition RuleDnatEntry_getExternalIp (e : DnatEntry) : string := IpAddr_toString {| ip := dn_externalIp e; netmask := 32 |}.
Definition RuleDnatEntry_getInternalIp (e : DnatEntry) : string := IpAddr_toString {| ip := dn_internalIp e; netmask := 32 |}.
Definition RulePortForwardingEntry_getExternalIp (e : PfEntry) : string :=
  IpAddr_toString {| ip := pf_externalIp e; netmask := 32 |}.
Definition RulePortForwardingEntry_getInternalIp (e : PfEntry) : string :=
  IpAddr_toString {| ip := pf_internalIp e; netmask := 32 |}.

Definition RuleSnatEntry_toJsonObject (e : SnatEntry) : SnatConf :=
  {| sc_id := sn_id e; sc_internalNet := Some (RuleSnatEntry_getInternalNet e);
     sc_externalIp := Some (RuleSnatEntry_getExternalIp e) |}.
Definition RuleDnatEntry_toJsonObject (e : DnatEntry) : DnatConf :=
  {| dc_id := dn_id e; dc_externalIp := Some (RuleDnatEntry_getExternalIp e);
     dc_internalIp := Some (RuleDnatEntry_getInternalIp e) |}.
Definition RulePortForwardingEntry_toJsonObject (e : PfEntry) : PfConf :=
  {| pc_id := pf_id e; pc_externalIp := Some (RulePortForwardingEntry_getExternalIp e);
     pc_externalPort := Some (pf_externalPort e); pc_proto := Some (RulePortForwardingEntry_getProto e);
     pc_internalIp := Some (RulePortForwardingEntry_getInternalIp e); pc_internalPort := Some (pf_internalPort e) |}.
End getters.

(** ** The entries in the tables of the datapath *)
Section datapath.
Context `{Inet} `{NatTables}.

(** [table.set(key, value)] and [table.remove(key)] *)
Definition sm_set (len ip : Z) (v : sm_v) (s : nat_dp) : res nat_dp :=
  match t_update (sm_rules s) len (sm_key ip) v with
  | Some t => Ok (set_sm_rules t s)
  | None => Throw (table_error "set" ENOSPC)
  end.
Definition sm_remove (len ip : Z) (s : nat_dp) : res nat_dp :=
  match t_delete (sm_rules s) len (sm_key ip) with
  | Some t => Ok (set_sm_rules t s)
  | None => Throw (table_error "remove" ENOENT)
  end.
Definition dp_set (mask ip port proto : Z) (v : dp_v) (s : nat_dp) : res nat_dp :=
  match t_update (dp_rules s) mask (dp_key ip port proto) v with
  | Some t => Ok (set_dp_rules t s)
  | None => Throw (table_error "set" ENOSPC)
  end.
Definition dp_remove (mask ip port proto : Z) (s : nat_dp) : res nat_dp :=
  match t_delete (dp_rules s) mask (dp_key ip port proto) with
  | Some t => Ok (set_dp_rules t s)
  | None => Throw (table_error "remove" ENOENT)
  end.

Definition RuleSnatEntry_injectToDatapath (e : SnatEntry) : nat_dp -> res nat_dp :=
  sm_set (sn_internalNetmask e) (sn_internalIp e) (SmV (sn_externalIp e) NAT_SRC).
Definition RuleSnatEntry_removeFromDatapath (e : SnatEntry) : nat_dp -> res nat_dp :=
  sm_remove (sn_internalNetmask e) (sn_internalIp e).
Definition RuleDnatEntry_injectToDatapath (e : DnatEntry) : nat_dp -> res nat_dp :=
  dp_set 32 (dn_externalIp e) 0 0 (DpV (dn_internalIp e) 0 NAT_DST).
Definition RuleDnatEntry_removeFromDatapath (e : DnatEntry) : nat_dp -> res nat_dp :=
  dp_remove 32 (dn_externalIp e) 0 0.
(** The prefix and the protocol of the key. *)
Definition pf_mask (e : PfEntry) : Z * Z :=
  match pf_proto e with ALL => (48, 0) | TCP => (56, IPPROTO_TCP) | UDP => (56, IPPROTO_UDP) end.
Definition RulePortForwardingEntry_injectToDatapath (e : PfEntry) : nat_dp -> res nat_dp :=
  dp_set (pf_mask e).1 (pf_externalIp e) (bswap16 (pf_externalPort e)) (pf_mask e).2
    (DpV (pf_internalIp e) (bswap16 (pf_internalPort e)) NAT_PFW).
Definition RulePortForwardingEntry_removeFromDatapath (e : PfEntry) : nat_dp -> res nat_dp :=
  dp_remove (pf_mask e).1 (pf_externalIp e) (bswap16 (pf_externalPort e)) (pf_mask e).2.
End datapath.
