(* ===== verification/NatLists.v ===== *)
(** pcn-nat, the three lists of rules: RuleSnat.cpp, RuleDnat.cpp and
    RulePortForwarding.cpp are the same code over three kinds of entries.  The
    class [RuleEntry] says what an entry offers to its list; the operations of the
    lists are written once, against it. *)
From Stdlib Require Import ZArith Lia Ascii String.
From stdpp Require Import base gmap list strings numbers.
From S2P Require Import Prelude.
From S2P Require Import Bpf.
From S2P Require Import NetUtils.
From S2P Require Import Frame.
From S2P Require Import NatDatapath.
From S2P Require Import NatRules.
#[local] Open Scope Z_scope.
#[local] Open Scope cpp_scope.

(** An entry [E], and the request [C] that makes or changes one. *)
Class RuleEntry `{NatTables} (E C : Type) := {
  e_id : E -> Z;
  e_with_id : Z -> E -> E;
  c_id : C -> Z;
  e_new : C -> res E;
  e_update : C -> M E unit;
  e_duplicate : E -> E -> bool;
  e_inject : E -> nat_dp -> res nat_dp;
  e_remove : E -> nat_dp -> res nat_dp;
}.

Section entries.
Context `{Inet} `{NatTables}.

#[export] Instance snat_entry (raw : SnatEntry) : RuleEntry SnatEntry SnatConf := {|
  e_id := sn_id; e_with_id := sn_with_id; c_id := sc_id; e_new := RuleSnatEntry_new raw; e_update := RuleSnatEntry_update;
  e_duplicate it new := String.eqb (RuleSnatEntry_getInternalNet it) (RuleSnatEntry_getInternalNet new);
  e_inject := RuleSnatEntry_injectToDatapath; e_remove := RuleSnatEntry_removeFromDatapath;
|}.
#[export] Instance dnat_entry (raw : DnatEntry) : RuleEntry DnatEntry DnatConf := {|
  e_id := dn_id; e_with_id := dn_with_id; c_id := dc_id; e_new := RuleDnatEntry_new raw; e_update := RuleDnatEntry_update;
  e_duplicate it new := String.eqb (RuleDnatEntry_getExternalIp it) (RuleDnatEntry_getExternalIp new);
  e_inject := RuleDnatEntry_injectToDatapath; e_remove := RuleDnatEntry_removeFromDatapath;
|}.
#[export] Instance pf_entry (raw : PfEntry) : RuleEntry PfEntry PfConf := {|
  e_id := pf_id; e_with_id := pf_with_id; c_id := pc_id; e_new := RulePortForwardingEntry_new raw;
  e_update := RulePortForwardingEntry_update;
  e_duplicate it new :=
    String.eqb (RulePortForwardingEntry_getExternalIp it) (RulePortForwardingEntry_getExternalIp new)
    && (pf_externalPort it =? pf_externalPort new)
    && String.eqb (RulePortForwardingEntry_getProto it) (RulePortForwardingEntry_getProto new);
  e_inject := RulePortForwardingEntry_injectToDatapath; e_remove := RulePortForwardingEntry_removeFromDatapath;
|}.
End entries.

(** A list of rules, null pointers included, and the datapath behind it. *)
Record rule_list {NT : NatTables} (E : Type) := RuleList { rules_ : list (option E); datapath : nat_dp }.
Arguments RuleList {NT E} _ _.
Arguments rules_ {NT E} _.
Arguments datapath {NT E} _.

Section lists.
Context `{NT : NatTables} {E C : Type} `{!RuleEntry E C}.

Definition set_rules (l : list (option E)) (s : rule_list E) : rule_list E := RuleList l (datapath s).
Definition on_datapath (f : nat_dp -> res nat_dp) : M (rule_list E) unit :=
  s <-- get ;; d <-- lift (f (datapath s)) ;; put (RuleList (rules_ s) d).
Definition size (s : rule_list E) : Z := Z.of_nat (length (rules_ s)).

(** The place of the first entry with identifier [id]. *)
Fixpoint place_of (l : list (option E)) (id : Z) : res (option nat) :=
  match l with
  | [] => Ok None
  | o :: l =>
      it <~ deref o ;;
      if e_id it =? id then Ok (Some 0%nat) else n <~ place_of l id ;; Ok (S <$> n)
  end.

Definition getEntry (id : Z) : M (rule_list E) E :=
  s <-- get ;;
  n <-- lift (place_of (rules_ s) id) ;;
  match n with
  | Some n => o <-- lift (vec_get (rules_ s) (Z.of_nat n)) ;; lift (deref o)
  | None => lift (no_rule id)
  end.

(** [m->update(i)] of the entry that [getEntry] found: what was written before an
    exception stays. *)
Definition update_entry (conf : C) : M (rule_list E) unit :=
  s <-- get ;;
  n <-- lift (place_of (rules_ s) (c_id conf)) ;;
  match n with
  | Some n =>
      o <-- lift (vec_get (rules_ s) (Z.of_nat n)) ;;
      it <-- lift (deref o) ;;
      let '(r, it) := e_update conf it in
      modify (set_rules (<[n := Some it]> (rules_ s))) ;;; lift r
  | None => lift (no_rule (c_id conf))
  end.
Definition update (conf : option (list C)) : M (rule_list E) unit :=
  match conf with Some l => for_each l update_entry | None => ret tt end.

Fixpoint has_duplicate (l : list (option E)) (new : E) : res bool :=
  match l with
  | [] => Ok false
  | o :: l => it <~ deref o ;; if e_duplicate it new then Ok true else has_duplicate l new
  end.

Definition addEntry (conf : C) : M (rule_list E) unit :=
  newRule <-- lift (e_new conf) ;;
  s <-- get ;;
  dup <-- lift (has_duplicate (rules_ s) newRule) ;;
  if dup then throw (RuntimeError "Cannot insert duplicate mapping") else
  modify (set_rules (rules_ s ++ [Some newRule])) ;;;
  on_datapath (e_inject newRule).

Definition addEntryList (conf : list C) : M (rule_list E) unit := for_each conf addEntry.

(** [rules_[i] = rules_[i + 1]; rules_[i]->id = i;] *)
Definition move_entry (i : Z) (rules : list (option E)) : res (list (option E)) :=
  o <~ vec_get rules (i + 1) ;; it <~ deref o ;; vec_set rules i (Some (e_with_id i it)).

(** The bound of the loop, [rules_.size() - 1], wraps when the list is empty. *)
Definition delEntry (id : Z) : M (rule_list E) unit :=
  s <-- get ;;
  if size s <? id then lift (no_rule id) else
  n <-- lift (place_of (rules_ s) id) ;;
  match n with
  | Some n => o <-- lift (vec_get (rules_ s) (Z.of_nat n)) ;; it <-- lift (deref o) ;; on_datapath (e_remove it)
  | None => ret tt
  end ;;;
  s <-- get ;;
  if size s =? 0 then undefined else
  rules <-- lift (for_each_res (seqZ id (size s - 1 - id)) (fun rules i => move_entry i rules) (rules_ s)) ;;
  modify (set_rules (resize (size s - 1) rules)).

Definition replaceEntry (id : Z) (conf : C) : M (rule_list E) unit := delEntry id ;;; addEntry conf.

Definition delEntryList : M (rule_list E) unit :=
  s <-- get ;;
  for_each (seqZ 0 (size s)) (fun i =>
    s <-- get ;;
    o <-- lift (vec_get (rules_ s) i) ;;
    it <-- lift (deref o) ;;
    on_datapath (e_remove it) ;;;
    s <-- get ;;
    rules <-- lift (vec_set (rules_ s) i None) ;;
    modify (set_rules rules)) ;;;
  modify (set_rules []).
End lists.

(** ** append, for each kind: its fields are mandatory *)
Section append.
Context `{Inet} `{NT : NatTables} (raw_snat : SnatEntry) (raw_dnat : DnatEntry) (raw_pf : PfEntry).
#[local] Existing Instance snat_entry.
#[local] Existing Instance dnat_entry.
#[local] Existing Instance pf_entry.

Definition RuleSnat_append (externalIp internalNet : string) : M (rule_list SnatEntry) Z :=
  s <-- get ;;
  let id := size s in
  addEntry (RuleEntry0 := snat_entry raw_snat)
    {| sc_id := id; sc_internalNet := Some internalNet; sc_externalIp := Some externalIp |} ;;; ret id.
Definition RuleDnat_append (externalIp internalIp : string) : M (rule_list DnatEntry) Z :=
  s <-- get ;;
  let id := size s in
  addEntry (RuleEntry0 := dnat_entry raw_dnat)
    {| dc_id := id; dc_externalIp := Some externalIp; dc_internalIp := Some internalIp |} ;;; ret id.
Definition RulePortForwarding_append (externalIp internalIp : string) (externalPort internalPort : Z) (proto : string)
    : M (rule_list PfEntry) Z :=
  s <-- get ;;
  let id := size s in
  addEntry (RuleEntry0 := pf_entry raw_pf)
    {| pc_id := id; pc_externalIp := Some externalIp; pc_externalPort := Some externalPort; pc_proto := Some proto;
       pc_internalIp := Some internalIp; pc_internalPort := Some internalPort |} ;;; ret id.
End append.
