(* ===== verification/NatRuleFacts.v ===== *)
(** pcn-nat, lemmas on rules: the text of an entry determines it, distinct entries
    have distinct prefixes in the tables of the datapath, and the class that states
    it for the three kinds of entries. *)
From Stdlib Require Import ZArith Lia Ascii String.
From stdpp Require Import base gmap list strings numbers.
From S2P Require Import Prelude.
From S2P Require Import Vec.
From S2P Require Import Bpf.
From S2P Require Import NetUtils.
From S2P Require Import Frame.
From S2P Require Import Csum.
From S2P Require Import NatDatapath.
From S2P Require Import NatRules.
From S2P Require Import NatLists.
#[local] Open Scope Z_scope.
#[local] Open Scope cpp_scope.

(** * Keys as bits *)
Lemma length_byte_bits b : length (byte_bits b) = 8%nat.
Proof. done. Qed.
Lemma key_bits_cons b k : key_bits (b :: k) = byte_bits b ++ key_bits k.
Proof. done. Qed.
Lemma length_key_bits k : length (key_bits k) = (8 * length k)%nat.
Proof. induction k as [|b k IH]; [done|]. rewrite key_bits_cons, length_app, IH, length_byte_bits. simpl. lia. Qed.
Lemma key_bits_app a b : key_bits (a ++ b) = key_bits a ++ key_bits b.
Proof. unfold key_bits. by rewrite map_app, concat_app. Qed.

Definition byte_value (l : list bool) : Z := foldl (fun acc b => 2 * acc + Z.b2z b) 0 l.
Lemma byte_bits_inj a b : 0 <= a < 256 -> 0 <= b < 256 -> byte_bits a = byte_bits b -> a = b.
Proof.
  assert (forall x, 0 <= x < 256 -> byte_value (byte_bits x) = x) as Hv.
  { intros x Hx. apply Z.eqb_eq. revert x Hx. apply (forallb_below (fun x => byte_value (byte_bits x) =? x) 256). by vm_compute. }
  intros Ha Hb E. rewrite <- (Hv a), <- (Hv b) by done. by rewrite E.
Qed.
Lemma key_bits_inj a b : Forall is_byte a -> Forall is_byte b -> length a = length b -> key_bits a = key_bits b -> a = b.
Proof.
  intros Ha. revert b. induction Ha as [|x a Hx _ IH]; intros [|y b] Hb Hl E; try done.
  apply Forall_cons_1 in Hb as [Hy Hb]. rewrite !key_bits_cons in E.
  apply app_inj_1 in E as [E1 E2]; [|done]. f_equal; [by apply byte_bits_inj|]. apply IH; [done|by injection Hl|done].
Qed.

Lemma ip_bytes_byte x : Forall is_byte (ip_bytes x).
Proof. unfold ip_bytes. repeat constructor; apply byte_of_bounds. Qed.
Lemma ip_bytes_inj a b : 0 <= a < 2 ^ 32 -> 0 <= b < 2 ^ 32 -> ip_bytes a = ip_bytes b -> a = b.
Proof. intros Ha Hb [= E0 E1 E2 E3]. rewrite <- (bytes4_sum a), <- (bytes4_sum b) by done. by rewrite E0, E1, E2, E3. Qed.

(** Keys that agree on whole bytes. *)
Lemma trie_match_bytes n a b x y :
  Forall is_byte a -> Forall is_byte b -> length a = n -> length b = n ->
  trie_match (Z.of_nat (8 * n)) (a ++ x) (b ++ y) = true <-> a = b.
Proof.
  intros Ha Hb La Lb. unfold trie_match. rewrite bool_decide_eq_true, !key_bits_app, Nat2Z.id.
  rewrite !take_app_length' by (rewrite length_key_bits; lia). split; [|by intros ->].
  intros E. apply key_bits_inj; [done|done|congruence|done].
Qed.

(** ** Masked addresses *)
Lemma byte_bits_land a b : byte_bits (Z.land a b) = zip_with andb (byte_bits a) (byte_bits b).
Proof. unfold byte_bits. induction (seqZ 0 8) as [|i l IH]; [done|]. cbn [map zip_with]. by rewrite Z.land_spec, IH. Qed.
Lemma byte_of_land a b i : byte_of (Z.land a b) i = Z.land (byte_of a i) (byte_of b i).
Proof.
  unfold byte_of. apply Z.bits_inj'. intros j Hj. rewrite Z.shiftr_land, !Z.land_spec.
  by destruct (Z.testbit 255 j), (Z.testbit (a ≫ (8 * i)) j), (Z.testbit (b ≫ (8 * i)) j).
Qed.
Lemma ip_bits_land a b : key_bits (ip_bytes (Z.land a b)) = zip_with andb (key_bits (ip_bytes a)) (key_bits (ip_bytes b)).
Proof.
  unfold ip_bytes. rewrite !key_bits_cons, !byte_of_land, !byte_bits_land. by rewrite !zip_with_app by done.
Qed.

Definition mask_of (n : Z) : Z := bswap32 (u32 (Z.shiftl 0xffffffff (32 - n))).
Lemma net_mask_ok n : 1 <= n -> net_mask n = Ok (mask_of n).
Proof. intros Hn. unfold net_mask. by destruct (Z.eqb_spec n 0); [lia|]. Qed.
Lemma mask_bits n : 1 <= n <= 32 ->
  key_bits (ip_bytes (mask_of n)) = replicate (Z.to_nat n) true ++ replicate (32 - Z.to_nat n) false /\ 0 <= mask_of n < 2 ^ 32.
Proof.
  intros Hn. pose proof (forallb_below (fun n => (n =? 0) ||
    bool_decide (key_bits (ip_bytes (mask_of n)) = replicate (Z.to_nat n) true ++ replicate (32 - Z.to_nat n) false)
    && ((0 <=? mask_of n) && (mask_of n <? 2 ^ 32))) 33 ltac:(by vm_compute) n ltac:(lia)) as Hc.
  apply orb_true_iff in Hc as [Hc|Hc]; [lia|]. apply andb_true_iff in Hc as [Hc ?]. apply bool_decide_eq_true in Hc. split; [done|lia].
Qed.

(** An address without bits beyond the prefix is determined by the prefix. *)
Definition masked (n x : Z) : Prop := 0 <= x < 2 ^ 32 /\ Z.land x (mask_of n) = x.
Lemma masked_inj n a b :
  1 <= n <= 32 -> masked n a -> masked n b -> trie_match n (sm_key a) (sm_key b) = true -> a = b.
Proof.
  intros Hn [Ha Ma] [Hb Mb]. unfold trie_match, sm_key. rewrite bool_decide_eq_true. intros E.
  destruct (mask_bits n Hn) as [Em _].
  assert (forall x, Z.land x (mask_of n) = x -> drop (Z.to_nat n) (key_bits (ip_bytes x)) = replicate (32 - Z.to_nat n) false) as Hd.
  { intros x Hx. rewrite <- Hx, ip_bits_land, Em. rewrite <- (take_drop (Z.to_nat n) (key_bits (ip_bytes x))).
    assert (length (key_bits (ip_bytes x)) = 32%nat) as L by (by rewrite length_key_bits).
    rewrite zip_with_app by (rewrite length_take, length_replicate; lia).
    rewrite drop_app_length' by (rewrite length_zip_with, length_take, length_replicate; lia).
    rewrite zip_with_replicate_r by (rewrite length_drop; lia).
    apply list_eq. intros i. rewrite list_lookup_fmap. destruct (decide (i < 32 - Z.to_nat n)%nat).
    - rewrite lookup_replicate_2 by done. destruct (lookup_lt_is_Some_2 (drop (Z.to_nat n) (key_bits (ip_bytes x))) i) as [v ->];
        [rewrite length_drop; lia|]. simpl. by rewrite andb_false_r.
    - rewrite !lookup_ge_None_2; [done| |]; rewrite ?length_replicate, ?length_drop; lia. }
  apply ip_bytes_inj; [done|done|]. apply key_bits_inj; [apply ip_bytes_byte|apply ip_bytes_byte|done|].
  rewrite <- (take_drop (Z.to_nat n) (key_bits (ip_bytes a))), <- (take_drop (Z.to_nat n) (key_bits (ip_bytes b))).
  by rewrite E, !Hd.
Qed.

(** * Addresses and their text *)
Section addresses.
Context `{Inet}.

Lemma net_text_ok x n :
  0 <= x < 2 ^ 32 -> 1 <= n <= 32 ->
  IpAddr_fromString (IpAddr_toString {| ip := x; netmask := n |}) = Ok {| ip := Z.land x (mask_of n); netmask := n |}.
Proof.
  intros Hx Hn. unfold IpAddr_fromString, IpAddr_toString, nbo_uint_to_ip_string. cbn [ip netmask].
  rewrite inet_ntoa_spec by done. destruct (prefix_string x n) as (pos & -> & -> & ->).
  rewrite stol_to_string by lia. cbn [res_bind]. unfold u8. rewrite Z.mod_small by lia.
  destruct (Z.ltb_spec 32 n); [lia|]. rewrite ip_string_to_nbo_uint_dotted by done. cbn [res_bind].
  by rewrite net_mask_ok by lia.
Qed.

Lemma net_text_inj a b :
  0 <= ip a < 2 ^ 32 -> 0 <= ip b < 2 ^ 32 -> 0 <= netmask a <= 32 -> 0 <= netmask b <= 32 ->
  IpAddr_toString a = IpAddr_toString b -> a = b.
Proof.
  destruct a as [x n], b as [y m]. unfold IpAddr_toString, nbo_uint_to_ip_string. cbn [ip netmask]. intros Hx Hy Hn Hm.
  rewrite !inet_ntoa_spec by done. intros E.
  destruct (prefix_string x n) as (p & Ep & En & Ed), (prefix_string y m) as (q & Eq & Em & Ed').
  rewrite E in Ep, En, Ed. rewrite Ep in Eq. injection Eq as <-.
  assert (Ok n = Ok m) as [= ->] by (rewrite <- (stol_to_string n), <- (stol_to_string m) by done; congruence).
  assert (Ok x = Ok y) as [= ->]; [|done].
  rewrite <- (ip_string_to_nbo_uint_dotted x), <- (ip_string_to_nbo_uint_dotted y) by done. congruence.
Qed.

Lemma fromString_ok s a :
  IpAddr_fromString s = Ok a -> 1 <= netmask a <= 32 /\ masked (netmask a) (ip a).
Proof.
  unfold IpAddr_fromString. intros Hs. apply res_bind_Ok in Hs as (n & Hn & Hs).
  assert (0 <= n) as Hn0.
  { destruct (str_find SLASH s); [|injection Hn as <-; lia]. apply res_bind_Ok in Hn as (v & _ & [= <-]). apply u8_bounds. }
  destruct (Z.ltb_spec 32 n); [done|]. apply res_bind_Ok in Hs as (x & Hx & Hs). apply res_bind_Ok in Hs as (m & Hm & [= <-]).
  unfold net_mask in Hm. destruct (Z.eqb_spec n 0); [done|]. injection Hm as <-. fold (mask_of n).
  apply ip_string_to_nbo_uint_bounds in Hx. destruct (mask_bits n) as [_ Hm]; [lia|]. cbn [ip netmask]. split; [lia|].
  split; [apply land_lt_pow2; lia|by rewrite <- Z.land_assoc, Z.land_diag].
Qed.
End addresses.

(** * What the lists need to know of an entry *)
(** The table an entry goes to, and its place and value there. *)
Class RuleSlot `{NatTables} (E V T : Type) `{BpfTrie V T} := {
  e_table : nat_dp -> T;
  e_set_table : T -> nat_dp -> nat_dp;
  e_slot : E -> trie_entry V;
  e_wf : E -> Prop;
  e_table_set t s : e_table (e_set_table t s) = t;
  e_set_set t t' s : e_set_table t (e_set_table t' s) = e_set_table t s;
}.

Class RuleEntryLaws `{NatTables} (E C : Type) {V T} `{RE : RuleEntry E C} `{BpfTrie V T} `{RS : !RuleSlot E V T} := {
  inject_eq e s : e_inject e s =
    match t_update (e_table s) (te_len (e_slot e)) (te_key (e_slot e)) (te_val (e_slot e)) with
    | Some t => Ok (e_set_table t s) | None => Throw (table_error "set" ENOSPC) end;
  remove_eq e s : e_remove e s =
    match t_delete (e_table s) (te_len (e_slot e)) (te_key (e_slot e)) with
    | Some t => Ok (e_set_table t s) | None => Throw (table_error "remove" ENOENT) end;
  slot_with_id i e : e_slot (e_with_id i e) = e_slot e;
  wf_with_id i e : e_wf (e_with_id i e) <-> e_wf e;
  id_with_id i e : e_id (e_with_id i e) = i;
  duplicate_slot e e' : e_wf e -> e_wf e' ->
    e_duplicate e e' = true <-> same_node (te_len (e_slot e')) (te_key (e_slot e')) (e_slot e) = true;
}.

Lemma same_node_slot {V} (a b : trie_entry V) :
  same_node (te_len b) (te_key b) a = true <-> te_len a = te_len b /\ trie_match (te_len b) (te_key a) (te_key b) = true.
Proof. unfold same_node. rewrite andb_true_iff, Z.eqb_eq. done. Qed.

Section kinds.
Context `{Inet} `{NatTables} (raw_snat : SnatEntry) (raw_dnat : DnatEntry) (raw_pf : PfEntry).

(** Source rules *)
Definition snat_wf (e : SnatEntry) : Prop :=
  1 <= sn_internalNetmask e <= 32 /\ masked (sn_internalNetmask e) (sn_internalIp e) /\ 0 <= sn_externalIp e < 2 ^ 32.
Definition snat_slot_of (e : SnatEntry) : trie_entry sm_v :=
  TrieEntry (sn_internalNetmask e) (sm_key (sn_internalIp e)) (SmV (sn_externalIp e) NAT_SRC).
#[export] Program Instance snat_slot : RuleSlot SnatEntry sm_v smT :=
  {| e_table := sm_rules; e_set_table := set_sm_rules; e_slot := snat_slot_of; e_wf := snat_wf |}.
Next Obligation. done. Qed.
Next Obligation. done. Qed.

Lemma snat_duplicate e e' : snat_wf e -> snat_wf e' ->
  String.eqb (RuleSnatEntry_getInternalNet e) (RuleSnatEntry_getInternalNet e') = true <->
  same_node (te_len (snat_slot_of e')) (te_key (snat_slot_of e')) (snat_slot_of e) = true.
Proof.
  intros (Hn & Hm & _) (Hn' & Hm' & _). rewrite String.eqb_eq, same_node_slot. cbn [te_len te_key snat_slot_of].
  unfold RuleSnatEntry_getInternalNet. split.
  - intros [= E1 E2]%net_text_inj; try done; try apply Hm; try apply Hm'; try (cbn; lia). rewrite E1, E2. split; [done|apply trie_match_refl].
  - intros [En Et]. rewrite En in *. by rewrite (masked_inj (sn_internalNetmask e') _ _ Hn' Hm Hm' Et).
Qed.
#[export] Instance snat_laws : RuleEntryLaws (RE := snat_entry raw_snat) SnatEntry SnatConf.
Proof. split; try done. apply snat_duplicate. Qed.

(** Destination rules: addresses, or addresses with a port and a protocol. *)
Definition dnat_wf (e : DnatEntry) : Prop := 0 <= dn_externalIp e < 2 ^ 32 /\ 0 <= dn_internalIp e < 2 ^ 32.
Definition dnat_slot_of (e : DnatEntry) : trie_entry dp_v :=
  TrieEntry 32 (dp_key (dn_externalIp e) 0 0) (DpV (dn_internalIp e) 0 NAT_DST).
#[export] Program Instance dnat_slot : RuleSlot DnatEntry dp_v dpT :=
  {| e_table := dp_rules; e_set_table := set_dp_rules; e_slot := dnat_slot_of; e_wf := dnat_wf |}.
Next Obligation. done. Qed.
Next Obligation. done. Qed.

Lemma eqb_string_ip x y :
  0 <= x < 2 ^ 32 -> 0 <= y < 2 ^ 32 ->
  String.eqb (IpAddr_toString {| ip := x; netmask := 32 |}) (IpAddr_toString {| ip := y; netmask := 32 |}) = true <-> x = y.
Proof. intros Hx Hy. rewrite String.eqb_eq. split; [intros [= ->]%net_text_inj; done|by intros ->]. Qed.

Lemma dnat_duplicate e e' : dnat_wf e -> dnat_wf e' ->
  String.eqb (RuleDnatEntry_getExternalIp e) (RuleDnatEntry_getExternalIp e') = true <->
  same_node (te_len (dnat_slot_of e')) (te_key (dnat_slot_of e')) (dnat_slot_of e) = true.
Proof.
  intros [He _] [He' _]. unfold RuleDnatEntry_getExternalIp. rewrite eqb_string_ip, same_node_slot by done.
  cbn [te_len te_key dnat_slot_of]. unfold dp_key. rewrite (trie_match_bytes 4) by (done || apply ip_bytes_byte).
  split; [by intros ->|]. intros [_ E]. by apply ip_bytes_inj.
Qed.
#[export] Instance dnat_laws : RuleEntryLaws (RE := dnat_entry raw_dnat) DnatEntry DnatConf.
Proof. split; try done. apply dnat_duplicate. Qed.

Definition pf_wf (e : PfEntry) : Prop :=
  0 <= pf_externalIp e < 2 ^ 32 /\ 0 <= pf_internalIp e < 2 ^ 32 /\ 0 <= pf_externalPort e < 2 ^ 16 /\ 0 <= pf_internalPort e < 2 ^ 16.
Definition pf_slot_of (e : PfEntry) : trie_entry dp_v :=
  TrieEntry (pf_mask e).1 (dp_key (pf_externalIp e) (bswap16 (pf_externalPort e)) (pf_mask e).2)
    (DpV (pf_internalIp e) (bswap16 (pf_internalPort e)) NAT_PFW).
#[export] Program Instance pf_slot : RuleSlot PfEntry dp_v dpT :=
  {| e_table := dp_rules; e_set_table := set_dp_rules; e_slot := pf_slot_of; e_wf := pf_wf |}.
Next Obligation. done. Qed.
Next Obligation. done. Qed.

Lemma port_bytes_inj p q :
  0 <= p < 2 ^ 16 -> 0 <= q < 2 ^ 16 ->
  [byte_of (bswap16 p) 0; byte_of (bswap16 p) 1] = [byte_of (bswap16 q) 0; byte_of (bswap16 q) 1] -> p = q.
Proof.
  intros Hp Hq [= E0 E1]. rewrite <- (bswap16_involutive p), <- (bswap16_involutive q) by done. f_equal.
  rewrite <- (bytes2_sum (bswap16 p)), <- (bytes2_sum (bswap16 q)) by apply bswap16_range. by rewrite E0, E1.
Qed.
Lemma dp_key_bytes x p a : 0 <= a < 256 -> Forall is_byte (dp_key x p a).
Proof. intros Ha. unfold dp_key. apply Forall_app_2; [apply ip_bytes_byte|]. repeat constructor; try apply byte_of_bounds; lia. Qed.
Lemma dp_key_inj x y p q a b :
  0 <= x < 2 ^ 32 -> 0 <= y < 2 ^ 32 -> 0 <= p < 2 ^ 16 -> 0 <= q < 2 ^ 16 ->
  take 6 (dp_key x (bswap16 p) a) = take 6 (dp_key y (bswap16 q) b) -> x = y /\ p = q.
Proof.
  intros Hx Hy Hp Hq E. unfold dp_key in E. change (take 6 (ip_bytes ?x ++ [?u; ?v; ?w])) with (ip_bytes x ++ [u; v]) in E.
  apply app_inj_1 in E as [E1 E2]; [|done]. split; [by apply ip_bytes_inj|by apply port_bytes_inj].
Qed.

Lemma pf_duplicate e e' : pf_wf e -> pf_wf e' ->
  String.eqb (RulePortForwardingEntry_getExternalIp e) (RulePortForwardingEntry_getExternalIp e')
  && (pf_externalPort e =? pf_externalPort e')
  && String.eqb (RulePortForwardingEntry_getProto e) (RulePortForwardingEntry_getProto e') = true <->
  same_node (te_len (pf_slot_of e')) (te_key (pf_slot_of e')) (pf_slot_of e) = true.
Proof.
  intros (Hx & _ & Hp & _) (Hx' & _ & Hp' & _). rewrite !andb_true_iff, Z.eqb_eq. unfold RulePortForwardingEntry_getExternalIp.
  rewrite eqb_string_ip, same_node_slot by done. unfold RulePortForwardingEntry_getProto, pf_slot_of, pf_mask. cbn [te_len te_key].
  split.
  - intros [[-> ->] E]. destruct (pf_proto e), (pf_proto e'); try done; (split; [done|apply trie_match_refl]).
  - intros [El Em]. assert (pf_proto e = pf_proto e' /\
      take 6 (dp_key (pf_externalIp e) (bswap16 (pf_externalPort e)) (pf_mask e).2)
      = take 6 (dp_key (pf_externalIp e') (bswap16 (pf_externalPort e')) (pf_mask e').2)) as [Ep E6].
    { unfold pf_mask. destruct (pf_proto e), (pf_proto e'); try done; cbn [fst snd] in *.
      1-4: (change 56 with (Z.of_nat (8 * 7)) in Em;
        rewrite <- (app_nil_r (dp_key (pf_externalIp e) _ _)), <- (app_nil_r (dp_key (pf_externalIp e') _ _)) in Em;
        apply trie_match_bytes in Em; try done; try (apply dp_key_bytes; unfold IPPROTO_TCP, IPPROTO_UDP; lia);
        (split; [try done; exfalso; unfold dp_key, ip_bytes in Em; cbn [app] in Em; congruence|by rewrite Em])).
      split; [done|]. unfold dp_key in Em |- *. change 48 with (Z.of_nat (8 * 6)) in Em.
      change (ip_bytes ?x ++ [?u; ?v; ?w]) with ((ip_bytes x ++ [u; v]) ++ [w]) in Em.
      apply trie_match_bytes in Em; try done; apply Forall_app_2; try apply ip_bytes_byte; repeat constructor; apply byte_of_bounds. }
    apply dp_key_inj in E6 as [-> ->]; try done. by rewrite Ep, String.eqb_refl.
Qed.
#[export] Instance pf_laws : RuleEntryLaws (RE := pf_entry raw_pf) PfEntry PfConf.
Proof. split; try done. apply pf_duplicate. Qed.
End kinds.

(** * Which packets an entry is for *)
Lemma masked_match n a x :
  1 <= n <= 32 -> masked n a -> 0 <= x < 2 ^ 32 ->
  trie_match n (sm_key a) (sm_key x) = true <-> Z.land x (mask_of n) = a.
Proof.
  intros Hn Ha Hx. destruct (mask_bits n Hn) as [Em Hm].
  assert (trie_match n (sm_key (Z.land x (mask_of n))) (sm_key x) = true) as Ht.
  { unfold trie_match, sm_key. rewrite bool_decide_eq_true, ip_bits_land, Em.
    rewrite <- (take_drop (Z.to_nat n) (key_bits (ip_bytes x))) at 1.
    assert (length (key_bits (ip_bytes x)) = 32%nat) as L by (by rewrite length_key_bits).
    rewrite zip_with_app by (rewrite length_take, length_replicate; lia).
    rewrite take_app_length' by (rewrite length_zip_with, length_take, length_replicate; lia).
    rewrite zip_with_replicate_r by (rewrite length_take; lia). apply list_eq. intros i. rewrite list_lookup_fmap.
    destruct (take (Z.to_nat n) (key_bits (ip_bytes x)) !! i) as [b|]; [|done]. simpl. by rewrite andb_true_r. }
  assert (masked n (Z.land x (mask_of n))) as Hmx.
  { split; [|by rewrite <- Z.land_assoc, Z.land_diag]. apply land_lt_pow2; lia. }
  split; [|intros <-; done]. intros E. symmetry. apply (masked_inj n); [done|done|done|].
  eapply trie_match_trans; [exact E|]. by rewrite trie_match_sym.
Qed.
