(* ===== verification/NatListFacts.v ===== *)
(** pcn-nat, the lists of rules and the tables: proved once for any kind of entry
    that satisfies [RuleEntryLaws].  A list is [listed] when its entries are numbered
    from zero, map different things, and are in the datapath's table, next to
    what else is there; every operation keeps it so. *)
From Stdlib Require Import ZArith Lia Ascii String.
From stdpp Require Import base gmap list strings numbers.
From S2P Require Import Prelude.
From S2P Require Import Vec.
From S2P Require Import Bpf.
From S2P Require Import NetUtils.
From S2P Require Import Frame.
From S2P Require Import NatDatapath.
From S2P Require Import NatRules.
From S2P Require Import NatLists.
From S2P Require Import NatRuleFacts.
#[local] Open Scope Z_scope.
#[local] Open Scope cpp_scope.

Section lists.
Context `{NT : NatTables} {E C V T : Type} {RE : RuleEntry E C} {BT : BpfTrie V T} {RS : RuleSlot E V T}.
Context {RL : RuleEntryLaws E C}.
Implicit Types (s : rule_list E) (l : list E) (e : E) (rest : list (trie_entry V)).

(** Two entries for the same place in the table. *)
Definition same_slot (a b : trie_entry V) : Prop := same_node (te_len b) (te_key b) a = true.
#[export] Instance same_slot_dec a b : Decision (same_slot a b).
Proof. unfold same_slot. apply _. Defined.

(** The entries [l] are in the table of [d], beside [rest]. *)
Record placed (rest : list (trie_entry V)) (d : nat_dp) (l : list E) : Prop := {
  pl_wf : Forall e_wf l;
  pl_distinct : forall i j e e', l !! i = Some e -> l !! j = Some e' -> same_slot (e_slot e) (e_slot e') -> i = j;
  pl_table : forall x, x ∈ t_entries (e_table d) <-> x ∈ (e_slot <$> l) \/ x ∈ rest;
  pl_apart : forall e x, e_wf e -> x ∈ rest -> ~ same_slot x (e_slot e) /\ ~ same_slot (e_slot e) x;
}.
Record listed (rest : list (trie_entry V)) (s : rule_list E) (l : list E) : Prop := {
  li_rules : rules_ s = Some <$> l;
  li_ids : forall i e, l !! i = Some e -> e_id e = Z.of_nat i;
  li_placed : placed rest (datapath s) l;
}.

Lemma same_slot_sym a b : same_slot a b -> same_slot b a.
Proof. unfold same_slot. rewrite !same_node_slot. intros [E1 E2]. split; [done|]. by rewrite E1, trie_match_sym. Qed.
Lemma same_slot_refl a : same_slot a a.
Proof. unfold same_slot. rewrite same_node_slot. split; [done|apply trie_match_refl]. Qed.

Lemma has_duplicate_run l e :
  Forall e_wf l -> e_wf e -> has_duplicate (Some <$> l) e = Ok (bool_decide (Exists (fun it => same_slot (e_slot it) (e_slot e)) l)).
Proof using RL.
  intros Hl He. induction Hl as [|it l Hit Hl IH]; [done|]. csimpl.
  destruct (e_duplicate it e) eqn:Ed.
  - rewrite bool_decide_eq_true_2; [done|]. left. by apply duplicate_slot.
  - rewrite IH. f_equal. apply bool_decide_ext. rewrite Exists_cons. split; [auto|]. intros [Hs|]; [|done].
    apply duplicate_slot in Hs; [congruence|done|done].
Qed.

Lemma place_of_run l n : (forall i e, l !! i = Some e -> e_id e = Z.of_nat (n + i)) -> forall i : nat,
  place_of (Some <$> l) (Z.of_nat (n + i)) = Ok (if decide (i < length l)%nat then Some i else None).
Proof using Type.
  revert n. induction l as [|it l IH]; intros n Hids i; [done|]. csimpl.
  rewrite (Hids 0%nat it eq_refl), Nat.add_0_r. destruct i as [|i].
  - rewrite Nat.add_0_r, Z.eqb_refl. rewrite decide_True by lia. done.
  - destruct (Z.eqb_spec (Z.of_nat n) (Z.of_nat (n + S i))); [lia|]. replace (n + S i)%nat with (S n + i)%nat by lia.
    rewrite IH; [|intros j e Hj; rewrite (Hids (S j) e Hj); f_equal; lia]. simpl.
    destruct (decide (i < length l)%nat), (decide (S i < S (length l))%nat); (done || lia).
Qed.

Lemma removed_table rest d l i e :
  placed rest d l -> l !! i = Some e ->
  exists t, e_remove e d = Ok (e_set_table t d) /\ t_free (e_table d) + 1 <= t_free t /\
    forall x, x ∈ t_entries t <-> x ∈ (e_slot <$> take i l ++ drop (S i) l) \/ x ∈ rest.
Proof using RL.
  intros Hl Hi. rewrite remove_eq. destruct (t_delete_Some (e_table d) (e_slot e)) as (t & -> & Hf & Ht).
  { apply (pl_table _ _ _ Hl). left. apply list_elem_of_fmap. exists e. split; [done|]. by eapply list_elem_of_lookup_2. }
  exists t. split; [done|]. split; [done|]. intros x. rewrite Ht, (pl_table _ _ _ Hl).
  assert (e_wf e) as He by (apply (Forall_lookup_1 _ _ _ _ (pl_wf _ _ _ Hl) Hi)).
  rewrite !list_elem_of_fmap. split.
  - intros [[(e' & -> & Hin)|Hr] Hne]; [|by right]. left. exists e'. split; [done|].
    apply list_elem_of_lookup in Hin as [j Hj]. rewrite elem_of_app. destruct (Nat.lt_trichotomy j i) as [Hlt|[->|Hgt]].
    + left. eapply (list_elem_of_lookup_2 _ j). by rewrite lookup_take_lt.
    + exfalso. apply Hne. congruence.
    + right. eapply (list_elem_of_lookup_2 _ (j - S i)). rewrite lookup_drop. by replace (S i + (j - S i))%nat with j by lia.
  - intros [(e' & -> & Hin)|Hr].
    + assert (exists j, l !! j = Some e' /\ j <> i) as (j & Hj & Hji).
      { apply elem_of_app in Hin as [Hin|Hin]; apply list_elem_of_lookup in Hin as [j Hj].
        - apply lookup_take_Some in Hj as [Hj Hlt]. exists j. split; [done|lia].
        - rewrite lookup_drop in Hj. exists (S i + j)%nat. split; [done|lia]. }
      split; [left; exists e'; split; [done|by eapply list_elem_of_lookup_2]|].
      intros Es. apply Hji, (pl_distinct _ _ _ Hl j i e' e Hj Hi). rewrite Es. apply same_slot_refl.
    + split; [by right|]. intros ->. destruct (pl_apart _ _ _ Hl e (e_slot e) He Hr) as [[] _]. apply same_slot_refl.
Qed.

(** ** addEntry *)
Lemma addEntry_run rest s l conf e :
  listed rest s l -> e_new conf = Ok e -> e_wf e -> e_id e = Z.of_nat (length l) ->
  (forall it, it ∈ l -> ~ same_slot (e_slot it) (e_slot e)) -> 0 < t_free (e_table (datapath s)) ->
  exists t, addEntry conf s = (Ok tt, RuleList (Some <$> l ++ [e]) (e_set_table t (datapath s))) /\
    t_free (e_table (datapath s)) - 1 <= t_free t /\
    listed rest (RuleList (Some <$> l ++ [e]) (e_set_table t (datapath s))) (l ++ [e]).
Proof using RL.
  intros Hl Hnew He Hid Hnd Hf. pose proof Hl as [Hr Hids Hpl]. pose proof Hpl as [Hwf Hdis Htab Hap].
  destruct (t_update_ok (e_table (datapath s)) (te_len (e_slot e)) (te_key (e_slot e)) (te_val (e_slot e)) Hf) as (t & Ht & Hft & Hin).
  exists t. split; [|split; [done|]].
  - unfold addEntry, on_datapath, set_rules, bind, lift, get, put, modify. rewrite Hnew, Hr, has_duplicate_run by done.
    rewrite bool_decide_eq_false_2 by (rewrite Exists_exists; intros (it & Hit%list_elem_of_In & Hs); by apply (Hnd it)).
    cbn. rewrite inject_eq, Ht. by rewrite fmap_app.
  - assert (forall i it, (l ++ [e]) !! i = Some it -> l !! i = Some it \/ i = length l /\ it = e) as Hlk.
    { intros i it Hi. apply lookup_app_Some in Hi as [Hi|[Hge Hi]]; [by left|]. apply list_lookup_singleton_Some in Hi as [Hz <-].
      right. split; [lia|done]. }
    assert (forall it, it ∈ (e_slot <$> l) -> ~ same_slot it (e_slot e)) as Hnd'.
    { intros x (it & -> & Hit)%list_elem_of_fmap. by apply Hnd. }
    split; cbn [rules_ datapath]; [done|intros i it [Hi|[-> ->]]%Hlk; [by apply Hids|done]|].
    split; [by apply Forall_app_2; [|constructor]| | |done].
    + intros i j it it' [Hi|[-> ->]]%Hlk [Hj|[-> ->]]%Hlk Hs; [by eapply Hdis| | |done].
      * exfalso. apply (Hnd it); [by eapply list_elem_of_lookup_2|done].
      * exfalso. apply (Hnd it'); [by eapply list_elem_of_lookup_2|by apply same_slot_sym].
    + intros x. rewrite e_table_set, Hin, Htab, fmap_app, elem_of_app.
      replace (TrieEntry _ _ _) with (e_slot e) by (by destruct (e_slot e)).
      cbn. rewrite list_elem_of_singleton. split; [tauto|]. intros [[Hx| ->]|Hx]; [|by left|]; right; (split; [tauto|]);
        apply not_true_is_false; [by apply Hnd'|by apply Hap].
Qed.

(** A mapping that is already there is refused, and nothing changes. *)
Lemma addEntry_duplicate rest s l conf e it :
  listed rest s l -> e_new conf = Ok e -> e_wf e -> it ∈ l -> same_slot (e_slot it) (e_slot e) ->
  addEntry conf s = (Throw (RuntimeError "Cannot insert duplicate mapping"), s).
Proof using RL.
  intros [Hr _ [Hwf _ _ _]] Hnew He Hit Hs. unfold addEntry, bind, lift, get. rewrite Hnew, Hr, has_duplicate_run by done.
  rewrite bool_decide_eq_true_2; [done|]. rewrite Exists_exists. exists it. by rewrite <- list_elem_of_In.
Qed.

(** ** delEntry *)
Lemma lookup_deleted_Some i l j e :
  (i < length l)%nat -> deleted e_with_id i l !! j = Some e ->
  exists j' e', l !! j' = Some e' /\ j' <> i /\ e_slot e = e_slot e' /\ (e_wf e <-> e_wf e') /\
    (j' < i /\ j = j' /\ e = e' \/ i < j' /\ S j = j' /\ e = e_with_id (Z.of_nat j) e')%nat.
Proof using RL.
  intros Hi. rewrite lookup_deleted by done. case_decide as Hj.
  - intros He. exists j, e. split; [done|]. split; [lia|]. do 2 (split; [done|]). left. auto.
  - intros (e' & He' & ->)%fmap_Some. exists (S j), e'. split; [done|]. split; [lia|].
    split; [apply slot_with_id|]. split; [apply wf_with_id|]. right. split; [lia|done].
Qed.

Lemma slots_deleted i l x :
  (i < length l)%nat -> x ∈ (e_slot <$> take i l ++ drop (S i) l) <-> x ∈ (e_slot <$> deleted e_with_id i l).
Proof using RL.
  intros Hi. unfold deleted. rewrite !fmap_app, !elem_of_app. apply or_iff_compat_l.
  assert (forall f l', e_slot <$> imap (fun k => e_with_id (f k)) l' = e_slot <$> l') as Hs.
  { intros f l'. revert f. induction l' as [|e l' IH]; intros f; csimpl; [done|]. rewrite slot_with_id. f_equal. apply (IH (f ∘ S)). }
  by rewrite (Hs (fun k => Z.of_nat (i + k))).
Qed.

Lemma delEntry_run rest s l i :
  listed rest s l -> (i < length l)%nat ->
  exists t, delEntry (Z.of_nat i) s = (Ok tt, RuleList (Some <$> deleted e_with_id i l) (e_set_table t (datapath s))) /\
    t_free (e_table (datapath s)) + 1 <= t_free t /\
    listed rest (RuleList (Some <$> deleted e_with_id i l) (e_set_table t (datapath s))) (deleted e_with_id i l).
Proof using RL.
  intros Hl Hi. pose proof Hl as [Hr Hids Hpl]. pose proof Hpl as [Hwf Hdis Htab Hap]. destruct (lookup_lt_is_Some_2 l i Hi) as [e He].
  destruct (removed_table rest (datapath s) l i e Hpl He) as (t & Hrm & Hft & Ht). exists t. split; [|split; [done|]].
  - unfold delEntry, on_datapath, set_rules, bind, lift, get, put, modify, size. cbn [rules_ datapath]. rewrite Hr, length_fmap.
    rewrite (proj2 (Z.ltb_ge _ _)) by lia. pose proof (place_of_run l 0 Hids i) as Hplace. cbn [Nat.add] in Hplace. rewrite Hplace, decide_True by done.
    rewrite (vec_get_ok _ i (Some e)) by (by rewrite list_lookup_fmap, He). cbn [deref]. rewrite Hrm. cbn [rules_ datapath].
    rewrite Hr, length_fmap. destruct (Z.eqb_spec (Z.of_nat (length l)) 0); [lia|].
    destruct (pull_all e_with_id i l Hi) as (l' & Hp & Hres). unfold pull in Hp. unfold move_entry. rewrite Hp. cbn. by rewrite Hres.
  - split; cbn [rules_ datapath]; [done| |split; [| | |done]].
    + intros j e1 Hj. destruct (lookup_deleted_Some _ _ _ _ Hi Hj) as (j' & e' & Hj' & _ & _ & _ & [(_ & -> & ->)|(_ & <- & ->)]).
      * by apply Hids.
      * apply id_with_id.
    + apply Forall_lookup_2. intros j e1 Hj. destruct (lookup_deleted_Some _ _ _ _ Hi Hj) as (j' & e' & Hj' & _ & _ & Hw & _).
      apply Hw, (Forall_lookup_1 _ _ _ _ Hwf Hj').
    + intros j k e1 e2 Hj Hk Hs. destruct (lookup_deleted_Some _ _ _ _ Hi Hj) as (j' & e1' & Hj' & _ & E1 & _ & Cj).
      destruct (lookup_deleted_Some _ _ _ _ Hi Hk) as (k' & e2' & Hk' & _ & E2 & _ & Ck).
      rewrite E1, E2 in Hs. pose proof (Hdis _ _ _ _ Hj' Hk' Hs). lia.
    + intros x. rewrite e_table_set, Ht. by rewrite slots_deleted.
Qed.

(** ** delEntryList *)
Lemma placed_tail rest d e l :
  placed rest d (e :: l) ->
  exists t, e_remove e d = Ok (e_set_table t d) /\ placed rest (e_set_table t d) l.
Proof using RL.
  intros Hp. destruct (removed_table rest d (e :: l) 0 e Hp eq_refl) as (t & Hr & _ & Ht). exists t. split; [done|].
  destruct Hp as [Hwf Hdis _ Hap]. split; [by apply Forall_cons_1 in Hwf as [_ Hwf]| | |done].
  - intros i j e1 e2 Hi Hj Hs. by injection (Hdis (S i) (S j) e1 e2 Hi Hj Hs).
  - intros x. rewrite e_table_set. apply Ht.
Qed.

Lemma delEntryList_run rest s l :
  rules_ s = Some <$> l -> placed rest (datapath s) l ->
  exists d, delEntryList s = (Ok tt, RuleList [] d) /\ placed rest d [] /\
    (d = datapath s \/ exists t, d = e_set_table t (datapath s)).
Proof using RL.
  intros Hr Hp. destruct s as [rs d0]. cbn [rules_ datapath] in *. subst rs.
  set (body := fun i => s <-- get ;; o <-- lift (vec_get (rules_ s) i) ;; it <-- lift (deref o) ;; on_datapath (e_remove it) ;;;
      s <-- get ;; rules <-- lift (vec_set (rules_ s) i None) ;; modify (set_rules rules) : M (rule_list E) unit).
  assert (forall l k d, placed rest d l ->
    exists d', for_each (seqZ (Z.of_nat k) (Z.of_nat (length l))) body (RuleList (replicate k None ++ (Some <$> l)) d)
      = (Ok tt, RuleList (replicate (k + length l) None) d') /\ placed rest d' [] /\
      (d' = d \/ exists t, d' = e_set_table t d)) as Hloop.
  { clear -RL body. intros l. induction l as [|e l IH]; intros k d Hp.
    - exists d. csimpl. rewrite app_nil_r, Nat.add_0_r. auto.
    - destruct (placed_tail rest d e l Hp) as (t & Hrm & Hp').
      destruct (IH (S k) (e_set_table t d) Hp') as (d' & Hf & Hd & Hset). exists d'. cbn [length].
      rewrite seqZ_cons by lia. cbn [for_each]. replace (Z.succ (Z.of_nat k)) with (Z.of_nat (S k)) by lia.
      replace (Z.pred (Z.of_nat (S (length l)))) with (Z.of_nat (length l)) by lia.
      split; [|split; [done|]].
      + unfold bind at 1. unfold body at 1, on_datapath, set_rules, bind, lift, get, put, modify. cbn [rules_ datapath].
        rewrite (vec_get_ok _ k (Some e)) by (rewrite lookup_app_r, length_replicate, Nat.sub_diag; [done|rewrite length_replicate; lia]).
        cbn [deref]. rewrite Hrm. cbn [rules_ datapath].
        rewrite vec_set_ok by (rewrite length_app, length_replicate, length_fmap; cbn; lia). cbn [rules_ datapath].
        assert (<[k:=None]> (replicate k None ++ (Some <$> e :: l)) = replicate (S k) None ++ (Some <$> l)) as ->.
        { rewrite replicate_S_end, <- app_assoc, insert_app_r_alt, length_replicate, Nat.sub_diag
            by (rewrite length_replicate; lia). done. }
        rewrite Hf. by rewrite Nat.add_succ_r.
      + right. destruct Hset as [->|(t' & ->)]; [by exists t|]. exists t'. by rewrite e_set_set. }
  destruct (Hloop l 0%nat d0 Hp) as (d' & Hf & Hd & Hset). exists d'. split; [|done].
  cbn [replicate app] in Hf. unfold delEntryList. rewrite (bind_run get _ _ _ _ eq_refl). unfold size. cbn [rules_].
  rewrite length_fmap. etransitivity; [exact (bind_run _ _ _ _ _ Hf)|done].
Qed.
End lists.
