(* ===== verification/NatCube.v ===== *)
(** pcn-nat, the cube: masquerading (RuleMasquerade.cpp), the object that holds the
    four kinds of rules (Rule.cpp), and the cube with its translation table
    (Nat.cpp, NattingTable.cpp). *)
From Stdlib Require Import ZArith Lia Ascii String.
From stdpp Require Import base gmap list strings numbers.
From S2P Require Import Prelude.
From S2P Require Import Bpf.
From S2P Require Import NetUtils.
From S2P Require Import Frame.
From S2P Require Import Csum.
From S2P Require Import NatDatapath.
From S2P Require Import NatRules.
From S2P Require Import NatLists.
#[local] Open Scope Z_scope.
#[local] Open Scope cpp_scope.

(** What a request says of the rules: lists of entries, and whether masquerading
    is enabled. *)
Record RuleConf := {
  rc_snat : option (option (list SnatConf));
  rc_masquerade : option (option bool);
  rc_dnat : option (option (list DnatConf));
  rc_portForwarding : option (option (list PfConf));
}.
Definition empty_rule : RuleConf :=
  {| rc_snat := None; rc_masquerade := None; rc_dnat := None; rc_portForwarding := None |}.

(** A translation as it is shown. *)
Record NattingTable := {
  nt_internalSrc : string; nt_internalDst : string; nt_internalSport : Z; nt_internalDport : Z; nt_proto : string;
  nt_externalIp : string; nt_externalPort : Z; nt_originatingRule : Z;
}.

Section cube.
Context `{Inet} `{NT : NatTables}.
(** What fresh memory holds. *)
Context (raw_snat : SnatEntry) (raw_dnat : DnatEntry) (raw_pf : PfEntry) (raw_enabled : bool).
#[local] Instance snat_rules : RuleEntry SnatEntry SnatConf := snat_entry raw_snat.
#[local] Instance dnat_rules : RuleEntry DnatEntry DnatConf := dnat_entry raw_dnat.
#[local] Instance pf_rules : RuleEntry PfEntry PfConf := pf_entry raw_pf.

Record nat_cube := NatCube {
  snat_ : list (option SnatEntry);
  dnat_ : list (option DnatEntry);
  portforwarding_ : list (option PfEntry);
  masquerade_enabled : bool;
  external_ip_ : string;
  tables : nat_dp;
}.
Definition set_snat (l : list (option SnatEntry)) (d : nat_dp) (s : nat_cube) : nat_cube :=
  NatCube l (dnat_ s) (portforwarding_ s) (masquerade_enabled s) (external_ip_ s) d.
Definition set_dnat (l : list (option DnatEntry)) (d : nat_dp) (s : nat_cube) : nat_cube :=
  NatCube (snat_ s) l (portforwarding_ s) (masquerade_enabled s) (external_ip_ s) d.
Definition set_portforwarding (l : list (option PfEntry)) (d : nat_dp) (s : nat_cube) : nat_cube :=
  NatCube (snat_ s) (dnat_ s) l (masquerade_enabled s) (external_ip_ s) d.
Definition set_enabled (b : bool) (s : nat_cube) : nat_cube :=
  NatCube (snat_ s) (dnat_ s) (portforwarding_ s) b (external_ip_ s) (tables s).
Definition set_external_ip (ip : string) (s : nat_cube) : nat_cube :=
  NatCube (snat_ s) (dnat_ s) (portforwarding_ s) (masquerade_enabled s) ip (tables s).
Definition set_tables (d : nat_dp) (s : nat_cube) : nat_cube :=
  NatCube (snat_ s) (dnat_ s) (portforwarding_ s) (masquerade_enabled s) (external_ip_ s) d.

(** A method of one list, run on the cube. *)
Definition on_snat {A} (m : M (rule_list SnatEntry) A) : M nat_cube A :=
  fun s => let '(r, l) := m (RuleList (snat_ s) (tables s)) in (r, set_snat (rules_ l) (datapath l) s).
Definition on_dnat {A} (m : M (rule_list DnatEntry) A) : M nat_cube A :=
  fun s => let '(r, l) := m (RuleList (dnat_ s) (tables s)) in (r, set_dnat (rules_ l) (datapath l) s).
Definition on_portforwarding {A} (m : M (rule_list PfEntry) A) : M nat_cube A :=
  fun s => let '(r, l) := m (RuleList (portforwarding_ s) (tables s)) in (r, set_portforwarding (rules_ l) (datapath l) s).

(** ** RuleMasquerade.cpp *)
Definition RuleMasquerade_inject (ip : Z) : M nat_cube bool :=
  try_catch is_std_exception
    (s <-- get ;;
     d <-- lift (sm_set 0 0 (SmV ip NAT_MSQ) (tables s)) ;;
     modify (set_tables d) ;;; ret true)
    (ret false).

(** The result that is put in the answer. *)
Definition RuleMasquerade_enable : M nat_cube bool :=
  s <-- get ;;
  if masquerade_enabled s then ret true else
  match ip_string_to_nbo_uint (external_ip_ s) with
  | Ok ip =>
      result <-- RuleMasquerade_inject ip ;;
      if result : bool then modify (set_enabled true) ;;; ret result else ret result
  | Throw _ => ret false
  | Undefined => undefined
  end.

Definition RuleMasquerade_disable : M nat_cube bool :=
  s <-- get ;;
  if negb (masquerade_enabled s) then ret true else
  result <-- RuleMasquerade_inject 0 ;;
  if result : bool then modify (set_enabled false) ;;; ret result else ret result.

Definition RuleMasquerade_setEnabled (value : bool) : M nat_cube unit :=
  (if value then RuleMasquerade_enable else RuleMasquerade_disable) ;;; modify (set_enabled value).

(** [conf] says whether the flag is set in the request. *)
Definition RuleMasquerade_update (conf : option bool) : M nat_cube unit :=
  match conf with Some b => RuleMasquerade_setEnabled b | None => RuleMasquerade_setEnabled false end.

(** ** Rule.cpp *)
(** The destructor of a list must not throw. *)
Definition destroyed {A} (m : M nat_cube A) : M nat_cube A := fun s =>
  match m s with (Throw _, s) => (Undefined, s) | r => r end.

(** [snat_ = std::make_shared<RuleSnat>( *this, value)]: the new list is empty when
    [update] runs, and the old one goes when it has succeeded. *)
Definition Rule_addSnat (conf : option (list SnatConf)) : M nat_cube unit :=
  match conf with
  | Some (i :: _) => lift (no_rule (sc_id i))
  | _ => destroyed (on_snat delEntryList)
  end.
Definition Rule_addDnat (conf : option (list DnatConf)) : M nat_cube unit :=
  match conf with
  | Some (i :: _) => lift (no_rule (dc_id i))
  | _ => destroyed (on_dnat delEntryList)
  end.
Definition Rule_addPortForwarding (conf : option (list PfConf)) : M nat_cube unit :=
  match conf with
  | Some (i :: _) => lift (no_rule (pc_id i))
  | _ => destroyed (on_portforwarding delEntryList)
  end.
(** The new object's [enabled] is not initialised before [update] reads it. *)
Definition Rule_addMasquerade (conf : option bool) : M nat_cube unit :=
  modify (set_enabled raw_enabled) ;;; RuleMasquerade_update conf.

Definition Rule_delSnat : M nat_cube unit := on_snat delEntryList.
Definition Rule_delDnat : M nat_cube unit := on_dnat delEntryList.
Definition Rule_delPortForwarding : M nat_cube unit := on_portforwarding delEntryList.
Definition Rule_delMasquerade : M nat_cube unit := RuleMasquerade_disable ;;; ret tt.

Definition Rule_replaceSnat (conf : option (list SnatConf)) : M nat_cube unit := Rule_delSnat ;;; Rule_addSnat conf.
Definition Rule_replaceDnat (conf : option (list DnatConf)) : M nat_cube unit := Rule_delDnat ;;; Rule_addDnat conf.
Definition Rule_replacePortForwarding (conf : option (list PfConf)) : M nat_cube unit :=
  Rule_delPortForwarding ;;; Rule_addPortForwarding conf.
Definition Rule_replaceMasquerade (conf : option bool) : M nat_cube unit := Rule_delMasquerade ;;; Rule_addMasquerade conf.

Definition Rule_update (conf : RuleConf) : M nat_cube unit :=
  if_set (rc_snat conf) (fun c => on_snat (update c)) ;;;
  if_set (rc_masquerade conf) RuleMasquerade_update ;;;
  if_set (rc_dnat conf) (fun c => on_dnat (update c)) ;;;
  if_set (rc_portForwarding conf) (fun c => on_portforwarding (update c)).

(** ** Nat.cpp *)
(** [rule_ = std::make_shared<Rule>( *this, value)]: a new object with four empty
    parts is updated; then the old one and its lists are destroyed. *)
Definition fresh_rule (s : nat_cube) : nat_cube := NatCube [] [] [] false (external_ip_ s) (tables s).
Definition Nat_addRule (value : RuleConf) : M nat_cube unit := fun s =>
  match Rule_update value (fresh_rule s) with
  | (Ok _, new) =>
      match destroyed (on_portforwarding delEntryList ;;; on_dnat delEntryList ;;; on_snat delEntryList)
              (set_tables (tables new) s) with
      | (Ok _, old) => (Ok tt, set_tables (tables old) new)
      | (r, old) => (r, old)
      end
  | (r, new) => (r, set_tables (tables new) s)
  end.

(** [rule_ = nullptr], then a new empty rule. *)
Definition Nat_delRule : M nat_cube unit :=
  destroyed (on_portforwarding delEntryList ;;; on_dnat delEntryList ;;; on_snat delEntryList) ;;;
  modify fresh_rule.
Definition Nat_replaceRule (conf : RuleConf) : M nat_cube unit := Nat_delRule ;;; Nat_addRule conf.

(** The constructor: no rule is there before. *)
Definition new_nat (conf : RuleConf) (s : nat_dp) : res unit * nat_cube :=
  Rule_update conf (NatCube [] [] [] false "" s).

(** What the constructor subscribes to the parent's address. *)
Definition parent_ip_changed (value : string) : M nat_cube unit :=
  modify (set_external_ip (get_ip_from_string value)) ;;;
  s <-- get ;;
  if masquerade_enabled s then
    ip <-- lift (ip_string_to_nbo_uint (external_ip_ s)) ;; RuleMasquerade_inject ip ;;; ret tt
  else ret tt.

Definition proto_from_int_to_string (proto : Z) : string :=
  if proto =? IPPROTO_ICMP then "icmp" else if proto =? IPPROTO_TCP then "tcp"
  else if proto =? IPPROTO_UDP then "udp" else "unknown".
Definition proto_from_string_to_int (proto : string) : Z :=
  if String.eqb proto "icmp" || String.eqb proto "ICMP" then IPPROTO_ICMP
  else if String.eqb proto "tcp" || String.eqb proto "TCP" then IPPROTO_TCP
  else if String.eqb proto "udp" || String.eqb proto "UDP" then IPPROTO_UDP
  else 255.

(** The protocol comes as a number in text, which [proto_from_string_to_int] then
    does not know. *)
Definition getNattingTable (internalSrc internalDst : string) (internalSport internalDport : Z) (proto : string) (s : nat_cube)
    : res NattingTable :=
  let entry :=
    src <~ ip_string_to_nbo_uint internalSrc ;;
    dst <~ ip_string_to_nbo_uint internalDst ;;
    p <~ stol proto ;;
    match lru_lookup (egress_session_table (tables s))
            (StK src dst (bswap16 internalSport) (bswap16 internalDport) (u8 p)) with
    | Some value =>
        Ok {| nt_internalSrc := internalSrc; nt_internalDst := internalDst; nt_internalSport := internalSport;
              nt_internalDport := internalDport;
              nt_proto := proto_from_int_to_string (proto_from_string_to_int proto);
              nt_externalIp := nbo_uint_to_ip_string (new_ip value); nt_externalPort := new_port value;
              nt_originatingRule := originating_rule_type value |}
    | None => Throw (table_error "get" ENOENT)
    end in
  match entry with
  | Throw e => if is_std_exception e then Throw (RuntimeError "Natting table entry not found") else Throw e
  | r => r
  end.

(** [entries] is what the table holds. *)
Definition natting_entry (e : st_k * st_v) : NattingTable :=
  let '(key, value) := e in
  {| nt_internalSrc := nbo_uint_to_ip_string (src_ip key); nt_internalDst := nbo_uint_to_ip_string (dst_ip key);
     nt_internalSport := bswap16 (src_port key); nt_internalDport := bswap16 (dst_port key);
     nt_proto := proto_from_int_to_string (proto key); nt_externalIp := nbo_uint_to_ip_string (new_ip value);
     nt_externalPort := bswap16 (new_port value); nt_originatingRule := originating_rule_type value |}.
Definition getNattingTableList (entries : list (st_k * st_v)) : list NattingTable := natting_entry <$> entries.

Definition addNattingTable : M nat_cube unit := throw (RuntimeError "Cannot manually create natting table entries").
Definition delNattingTable : M nat_cube unit := throw (RuntimeError "Cannot manually remove single natting table entries").

Context `{!LruKeys st_k st_v sessionT}.
Definition delNattingTableList : M nat_cube unit :=
  s <-- get ;;
  match remove_all_fuel (lru_size (egress_session_table (tables s))) (egress_session_table (tables s)),
        remove_all_fuel (lru_size (ingress_session_table (tables s))) (ingress_session_table (tables s)) with
  | Some e, Some i => modify (set_tables (set_sessions e i (tables s)))
  | _, _ => undefined
  end.
End cube.
