(* ===== verification/NatInvariant.v ===== *)
(** pcn-nat, from rules to packets: what the datapath's lookups return when the
    tables hold a cube's rules, in terms of the rules alone; and the invariant that
    ties the tables to the rules. *)
From Stdlib Require Import ZArith Lia Ascii String.
From stdpp Require Import base gmap list strings numbers.
From S2P Require Import Prelude.
From S2P Require Import Vec.
From S2P Require Import Bpf.
From S2P Require Import NetUtils.
From S2P Require Import Frame.
From S2P Require Import Csum.
From S2P Require Import NatDatapath.
From S2P Require Import NatFacts.
From S2P Require Import NatSessions.
From S2P Require Import NatRules.
From S2P Require Import NatLists.
From S2P Require Import NatRuleFacts.
From S2P Require Import NatListFacts.
From S2P Require Import NatCube.
#[local] Open Scope Z_scope.
#[local] Open Scope cpp_scope.

Section lookup.
Context `{Inet} `{NT : NatTables} (raw_snat : SnatEntry) (raw_dnat : DnatEntry) (raw_pf : PfEntry).
#[local] Instance snat_rules : RuleEntry SnatEntry SnatConf := snat_entry raw_snat.
#[local] Instance dnat_rules : RuleEntry DnatEntry DnatConf := dnat_entry raw_dnat.
#[local] Instance pf_rules : RuleEntry PfEntry PfConf := pf_entry raw_pf.

(** The entry that masquerading puts in the table. *)
Definition masquerade_slots (masq : option Z) : list (trie_entry sm_v) :=
  match masq with Some ip => [TrieEntry 0 (sm_key 0) (SmV ip NAT_MSQ)] | None => [] end.

(** The tables hold the rules of the cube, and nothing else. *)
Record synced (c : nat_cube) (sn : list SnatEntry) (dn : list DnatEntry) (pf : list PfEntry) (masq : option Z) : Prop := {
  sy_snat : listed (masquerade_slots masq) (RuleList (snat_ c) (tables c)) sn;
  sy_dnat : listed (e_slot <$> pf) (RuleList (dnat_ c) (tables c)) dn;
  sy_pf : listed (e_slot <$> dn) (RuleList (portforwarding_ c) (tables c)) pf;
}.

(** ** The specification: the most specific rule that covers the packet *)
Definition snat_covers (k : st_k) (e : SnatEntry) : Prop :=
  Z.land (src_ip k) (mask_of (sn_internalNetmask e)) = sn_internalIp e.
Definition best_snat (rules : list SnatEntry) (k : st_k) (e : SnatEntry) : Prop :=
  e ∈ rules /\ snat_covers k e /\
  forall e', e' ∈ rules -> snat_covers k e' -> sn_internalNetmask e' <= sn_internalNetmask e.

Definition dnat_covers (k : st_k) (e : DnatEntry) : Prop := dst_ip k = dn_externalIp e.
Definition pf_covers (k : st_k) (e : PfEntry) : Prop :=
  dst_ip k = pf_externalIp e /\ dst_port k = bswap16 (pf_externalPort e) /\
  match pf_proto e with ALL => True | TCP => proto k = IPPROTO_TCP | UDP => proto k = IPPROTO_UDP end.

Lemma snat_selects k e :
  snat_wf e -> 0 <= src_ip k < 2 ^ 32 -> selects 32 (sm_key (src_ip k)) (e_slot e) = true <-> snat_covers k e.
Proof.
  intros (Hn & Hm & _) Hk. unfold selects, snat_covers. cbn [te_len te_key e_slot snat_slot snat_slot_of].
  rewrite andb_true_iff, masked_match by done. lia.
Qed.

Lemma masquerade_selects masq k e : e ∈ masquerade_slots masq -> selects 32 (sm_key (src_ip k)) e = true.
Proof. destruct masq; [|by intros ?%elem_of_nil]. by intros ->%list_elem_of_singleton. Qed.

(** An outgoing packet without a session is translated to the external address of
    the rule with the longest prefix, failing that to the masquerading address,
    and to the next port. *)
Lemma egress_rule_spec c sn dn pf masq k :
  synced c sn dn pf masq -> flow_ok k ->
  let '(t, s') := rule_lookup NATTYPE_EGRESS k (tables c) in
  match t with
  | Some t => newPort t = bswap16 (first_port (tables c)) /\
      ((exists e, best_snat sn k e /\ newIp t = sn_externalIp e /\ rule_type t = NAT_SRC) \/
       (Forall (fun e => ~ snat_covers k e) sn /\ masq = Some (newIp t) /\ rule_type t = NAT_MSQ))
  | None => Forall (fun e => ~ snat_covers k e) sn /\ masq = None /\ s' = tables c
  end.
Proof.
  intros [Hsn _ _] Hk. destruct (li_placed _ _ _ Hsn) as [Hwf _ Htab _]. cbn [rules_ datapath e_table snat_slot] in *.
  assert (forall e, e ∈ sn -> selects 32 (sm_key (src_ip k)) (e_slot e) = true <-> snat_covers k e) as Hsel.
  { intros e He. apply snat_selects; [|apply Hk]. rewrite list.Forall_forall in Hwf. by apply Hwf. }
  cbn [rule_lookup]. pose proof (t_lookup_spec (sm_rules (tables c)) 32 (sm_key (src_ip k))) as Hl.
  assert (forall e, e ∈ sn -> e_slot e ∈ t_entries (sm_rules (tables c))) as Hins.
  { intros e He. apply Htab. left. by apply list_elem_of_fmap_2. }
  destruct (t_lookup _ _ _) as [v|].
  - destruct Hl as (x & Hx & <- & Hs & Hmax). unfold get_free_port. split; [done|].
    apply Htab in Hx as [(e & -> & He)%list_elem_of_fmap|Hx].
    + left. exists e. split; [|done]. split; [done|]. split; [by apply Hsel|].
      intros e' He' Hc. exact (Hmax (e_slot e') (Hins _ He') (proj2 (Hsel _ He') Hc)).
    + right. destruct masq as [ip|]; [|by apply elem_of_nil in Hx]. apply list_elem_of_singleton in Hx as ->. split; [|done].
      apply list.Forall_forall. intros e He Hc. specialize (Hmax (e_slot e) (Hins e He) (proj2 (Hsel e He) Hc)).
      rewrite list.Forall_forall in Hwf. destruct (Hwf e He) as (Hn & _). simpl in Hmax. lia.
  - split; [|split; [|done]].
    + apply list.Forall_forall. intros e He Hc. apply Hsel in Hc; [|done]. by rewrite Hl in Hc by auto.
    + destruct masq as [ip|]; [|done]. specialize (Hl (TrieEntry 0 (sm_key 0) (SmV ip NAT_MSQ))).
      rewrite masquerade_selects with (masq := Some ip) in Hl by by left. discriminate Hl. apply Htab. right. by left.
Qed.

Lemma dnat_selects k e :
  dnat_wf e -> flow_ok k -> selects 56 (dp_key (dst_ip k) (dst_port k) (proto k)) (e_slot e) = true <-> dnat_covers k e.
Proof.
  intros [He _] Hk. unfold selects, dnat_covers. cbn [te_len te_key e_slot dnat_slot dnat_slot_of]. unfold dp_key.
  rewrite andb_true_iff, (trie_match_bytes 4) by (done || apply ip_bytes_byte).
  split; [intros [_ E]; apply ip_bytes_inj; [apply Hk|done|done]|]. intros ->. done.
Qed.

Lemma ports_eq k p :
  flow_ok k -> [byte_of (bswap16 p) 0; byte_of (bswap16 p) 1] = [byte_of (dst_port k) 0; byte_of (dst_port k) 1] <->
    dst_port k = bswap16 p.
Proof.
  intros Hk. split; [|by intros ->]. intros [= E0 E1]. rewrite <- (bytes2_sum (dst_port k)) by apply Hk.
  rewrite <- (bytes2_sum (bswap16 p)) by apply bswap16_range. by rewrite E0, E1.
Qed.

Lemma pf_selects k e :
  pf_wf e -> flow_ok k -> 0 <= proto k < 256 ->
  selects 56 (dp_key (dst_ip k) (dst_port k) (proto k)) (e_slot e) = true <-> pf_covers k e.
Proof.
  intros (He & _) Hk Hp. unfold selects, pf_covers. cbn [te_len te_key e_slot pf_slot]. unfold pf_slot_of, pf_mask.
  cbn [te_len te_key]. rewrite andb_true_iff.
  assert (forall b, 0 <= b < 256 ->
    trie_match 56 (dp_key (pf_externalIp e) (bswap16 (pf_externalPort e)) b) (dp_key (dst_ip k) (dst_port k) (proto k)) = true <->
    dst_ip k = pf_externalIp e /\ dst_port k = bswap16 (pf_externalPort e) /\ proto k = b) as H56.
  { intros b Hb. rewrite <- (app_nil_r (dp_key (pf_externalIp e) _ _)), <- (app_nil_r (dp_key (dst_ip k) _ _)).
    change 56 with (Z.of_nat (8 * 7)). rewrite trie_match_bytes by (done || by apply dp_key_bytes). unfold dp_key. split.
    - intros [Ei Er]%app_inj_1; [|done]. assert (proto k = b) as <- by congruence.
      split; [symmetry; apply ip_bytes_inj; [done|apply Hk|done]|]. split; [|done]. apply ports_eq; [done|]. congruence.
    - intros (-> & -> & ->). done. }
  destruct (pf_proto e); cbn [fst snd].
  - rewrite H56 by done. intuition lia.
  - rewrite H56 by done. intuition lia.
  - unfold dp_key. change (ip_bytes ?x ++ [?u; ?v; ?w]) with ((ip_bytes x ++ [u; v]) ++ [w]).
    rewrite (trie_match_bytes 6) by (done || (apply Forall_app_2; [apply ip_bytes_byte|repeat constructor; apply byte_of_bounds])).
    split.
    + intros [_ [Ei Er]%app_inj_1]; [|done]. split; [symmetry; apply ip_bytes_inj; [done|apply Hk|done]|]. split; [|done].
      by apply ports_eq.
    + intros (-> & -> & _). done.
Qed.

(** An incoming packet without a session goes where the forwarding rule for its
    port says, one for its protocol first; failing that, where the rule for its
    address says, on the same port. *)
Lemma ingress_rule_spec c sn dn pf masq k :
  synced c sn dn pf masq -> flow_ok k -> 0 <= proto k < 256 ->
  let '(t, s') := rule_lookup NATTYPE_INGRESS k (tables c) in
  s' = tables c /\
  match t with
  | Some t =>
      (exists e, e ∈ pf /\ pf_covers k e /\ (forall e', e' ∈ pf -> pf_covers k e' -> pf_proto e = ALL -> pf_proto e' = ALL) /\
         newIp t = pf_internalIp e /\ rule_type t = NAT_PFW /\
         newPort t = if bswap16 (pf_internalPort e) =? 0 then dst_port k else bswap16 (pf_internalPort e)) \/
      (Forall (fun e => ~ pf_covers k e) pf /\
       exists e, e ∈ dn /\ dnat_covers k e /\ newIp t = dn_internalIp e /\ rule_type t = NAT_DST /\ newPort t = dst_port k)
  | None => Forall (fun e => ~ pf_covers k e) pf /\ Forall (fun e => ~ dnat_covers k e) dn
  end.
Proof.
  intros [_ Hdn Hpf] Hk Hp. destruct (li_placed _ _ _ Hdn) as [Hwd _ Htab _]. destruct (li_placed _ _ _ Hpf) as [Hwp _ _ _].
  cbn [rules_ datapath e_table dnat_slot pf_slot] in *. rewrite list.Forall_forall in Hwd. rewrite list.Forall_forall in Hwp.
  assert (forall e, e ∈ dn -> selects 56 (dp_key (dst_ip k) (dst_port k) (proto k)) (e_slot e) = true <-> dnat_covers k e) as Hsd
    by (intros e He; apply dnat_selects; [by apply Hwd|done]).
  assert (forall e, e ∈ pf -> selects 56 (dp_key (dst_ip k) (dst_port k) (proto k)) (e_slot e) = true <-> pf_covers k e) as Hsp
    by (intros e He; apply pf_selects; [by apply Hwp|done|done]).
  assert (forall e, e ∈ dn -> e_slot e ∈ t_entries (dp_rules (tables c))) as Hid.
  { intros e He. apply Htab. left. by apply list_elem_of_fmap_2. }
  assert (forall e, e ∈ pf -> e_slot e ∈ t_entries (dp_rules (tables c))) as Hip.
  { intros e He. apply Htab. right. by apply list_elem_of_fmap_2. }
  cbn [rule_lookup]. pose proof (t_lookup_spec (dp_rules (tables c)) 56 (dp_key (dst_ip k) (dst_port k) (proto k))) as Hl.
  destruct (t_lookup _ _ _) as [v|].
  - split; [done|]. destruct Hl as (x & Hx & <- & Hs & Hmax).
    apply Htab in Hx as [(e & -> & He)%list_elem_of_fmap|(e & -> & He)%list_elem_of_fmap].
    + right. split; [|exists e; split; [done|]; split; [by apply Hsd|done]].
      apply list.Forall_forall. intros e' He' Hc. pose proof (Hmax (e_slot e') (Hip _ He') (proj2 (Hsp _ He') Hc)) as Hle.
      cbn in Hle. unfold pf_slot_of, pf_mask in Hle. by destruct (pf_proto e').
    + left. exists e. split; [done|]. split; [by apply Hsp|]. split; [|done]. intros e' He' Hc Ea.
      pose proof (Hmax (e_slot e') (Hip _ He') (proj2 (Hsp _ He') Hc)) as Hle.
      cbn in Hle. unfold pf_slot_of, pf_mask in Hle. rewrite Ea in Hle. by destruct (pf_proto e').
  - split; [done|]. split; apply list.Forall_forall; intros e He Hc.
    + apply Hsp in Hc; [|done]. by rewrite Hl in Hc by auto.
    + apply Hsd in Hc; [|done]. by rewrite Hl in Hc by auto.
Qed.
End lookup.

(** What a user asks of the rules. *)
Inductive nat_op :=
  | SnatAppend (externalIp internalNet : string)
  | SnatDelete (id : nat)
  | DnatAppend (externalIp internalIp : string)
  | DnatDelete (id : nat)
  | PfAppend (externalIp internalIp : string) (externalPort internalPort : Z) (proto : string)
  | PfDelete (id : nat)
  | SnatFlush | DnatFlush | PfFlush
  | ParentIp (address : string)
  | MasqueradeOn.

(** Ports are 16-bit integers, and the parent's address is an address. *)
Definition typed_op `{Inet} (op : nat_op) : Prop :=
  match op with
  | PfAppend _ _ p q _ => 0 <= p < 2 ^ 16 /\ 0 <= q < 2 ^ 16
  | ParentIp a => exists ip, ip_string_to_nbo_uint (get_ip_from_string a) = Ok ip
  | _ => True
  end.

Section invariant.
Context `{Inet} `{NT : NatTables} (raw_snat : SnatEntry) (raw_dnat : DnatEntry) (raw_pf : PfEntry).
#[local] Instance snat_rule_entry : RuleEntry SnatEntry SnatConf := snat_entry raw_snat.
#[local] Instance dnat_rule_entry : RuleEntry DnatEntry DnatConf := dnat_entry raw_dnat.
#[local] Instance pf_rule_entry : RuleEntry PfEntry PfConf := pf_entry raw_pf.

Definition run_op (op : nat_op) : M nat_cube unit :=
  match op with
  | SnatAppend e i => on_snat (RuleSnat_append raw_snat e i) ;;; ret tt
  | SnatDelete i => on_snat (delEntry (Z.of_nat i))
  | DnatAppend e i => on_dnat (RuleDnat_append raw_dnat e i) ;;; ret tt
  | DnatDelete i => on_dnat (delEntry (Z.of_nat i))
  | PfAppend e i p q s => on_portforwarding (RulePortForwarding_append raw_pf e i p q s) ;;; ret tt
  | PfDelete i => on_portforwarding (delEntry (Z.of_nat i))
  | SnatFlush => Rule_delSnat raw_snat
  | DnatFlush => Rule_delDnat raw_dnat
  | PfFlush => Rule_delPortForwarding raw_pf
  | ParentIp a => parent_ip_changed a
  | MasqueradeOn => RuleMasquerade_enable ;;; ret tt
  end.

(** ** New entries are well formed *)
Lemma snat_new_wf id net ext e :
  RuleSnatEntry_new raw_snat {| sc_id := id; sc_internalNet := Some net; sc_externalIp := Some ext |} = Ok e ->
  snat_wf e /\ sn_id e = id.
Proof using Type.
  unfold RuleSnatEntry_new, constructed, RuleSnatEntry_update, RuleSnatEntry_setInternalNet, RuleSnatEntry_setExternalIp, bind, lift, modify.
  cbn. destruct (IpAddr_fromString net) as [a| |] eqn:Ea; try done. destruct (IpAddr_fromString ext) as [b| |] eqn:Eb; try done.
  cbn. intros [= <-]. apply fromString_ok in Ea as [Hn Hm]. apply fromString_ok in Eb as [_ [Hb _]]. by split; [split|].
Qed.
Lemma dnat_new_wf id ext int e :
  RuleDnatEntry_new raw_dnat {| dc_id := id; dc_externalIp := Some ext; dc_internalIp := Some int |} = Ok e ->
  dnat_wf e /\ dn_id e = id.
Proof using Type.
  unfold RuleDnatEntry_new, constructed, RuleDnatEntry_update, RuleDnatEntry_setExternalIp, RuleDnatEntry_setInternalIp, bind, lift, modify.
  cbn. destruct (IpAddr_fromString ext) as [a| |] eqn:Ea; try done. destruct (IpAddr_fromString int) as [b| |] eqn:Eb; try done.
  cbn. intros [= <-]. apply fromString_ok in Ea as [_ [Ha _]]. apply fromString_ok in Eb as [_ [Hb _]]. by split; [split|].
Qed.
Lemma pf_new_wf id ext int p q s e :
  0 <= p < 2 ^ 16 -> 0 <= q < 2 ^ 16 ->
  RulePortForwardingEntry_new raw_pf {| pc_id := id; pc_externalIp := Some ext; pc_externalPort := Some p;
    pc_proto := Some s; pc_internalIp := Some int; pc_internalPort := Some q |} = Ok e ->
  pf_wf e /\ pf_id e = id.
Proof using Type.
  intros Hp Hq. unfold RulePortForwardingEntry_new, constructed, RulePortForwardingEntry_update, RulePortForwardingEntry_setProto,
    RulePortForwardingEntry_setExternalIp, RulePortForwardingEntry_setInternalIp, bind, lift, modify.
  cbn. destruct (IpAddr_fromString ext) as [a| |] eqn:Ea; try done. cbn.
  destruct (IpAddr_fromString int) as [b| |] eqn:Eb;
    repeat match goal with |- context [if ?c then _ else _] => destruct c end; try done;
    cbn; intros [= <-]; apply fromString_ok in Ea as [_ [Ha _]]; apply fromString_ok in Eb as [_ [Hb _]]; by split; [split|].
Qed.

(** ** One list changes, the others stay *)
Lemma dnat_pf_apart (e : DnatEntry) (e' : PfEntry) : ~ same_slot (e_slot e) (e_slot e') /\ ~ same_slot (e_slot e') (e_slot e).
Proof using Type.
  unfold same_slot. rewrite !same_node_slot. cbn. unfold pf_slot_of, pf_mask, dnat_slot_of. cbn [te_len].
  by split; intros [E _]; destruct (pf_proto e').
Qed.

Lemma pf_beside (dn : list DnatEntry) (pf : list PfEntry) d d0 rest :
  placed (e_slot <$> pf) d dn -> placed rest d0 pf -> placed (e_slot <$> dn) d pf.
Proof using Type.
  intros [_ _ Ht _] [Hwf Hd _ _]. split; [done|done| |].
  - intros x. cbn in Ht |- *. rewrite Ht. tauto.
  - intros e x _ (e' & -> & _)%list_elem_of_fmap. destruct (dnat_pf_apart e' e). by split.
Qed.
Lemma dnat_beside (dn : list DnatEntry) (pf : list PfEntry) d d0 rest :
  placed (e_slot <$> dn) d pf -> placed rest d0 dn -> placed (e_slot <$> pf) d dn.
Proof using Type.
  intros [_ _ Ht _] [Hwf Hd _ _]. split; [done|done| |].
  - intros x. cbn in Ht |- *. rewrite Ht. tauto.
  - intros e x _ (e' & -> & _)%list_elem_of_fmap. destruct (dnat_pf_apart e e'). by split.
Qed.
Lemma snat_other d d' rest (sn : list SnatEntry) : sm_rules d' = sm_rules d -> placed rest d sn -> placed rest d' sn.
Proof using Type. intros E [Hwf Hd Ht Ha]. split; try done. intros x. specialize (Ht x). cbn in *. by rewrite E. Qed.
Lemma dp_other d d' (dn : list DnatEntry) rest : dp_rules d' = dp_rules d -> placed rest d dn -> placed rest d' dn.
Proof using Type. intros E [Hwf Hd Ht Ha]. split; try done. intros x. specialize (Ht x). cbn in *. by rewrite E. Qed.
Lemma pf_other d d' (pf : list PfEntry) rest : dp_rules d' = dp_rules d -> placed rest d pf -> placed rest d' pf.
Proof using Type. intros E [Hwf Hd Ht Ha]. split; try done. intros x. specialize (Ht x). cbn in *. by rewrite E. Qed.

(** ** Adding to a list: it succeeds, or nothing changes *)
Lemma addEntry_cases {E C V T} {RE : RuleEntry E C} {BT : BpfTrie V T} {RS : RuleSlot E V T} {RL : RuleEntryLaws E C}
    (rest : list (trie_entry V)) (s : rule_list E) l conf r s' :
  listed rest s l -> 0 < t_free (e_table (datapath s)) ->
  (forall e, e_new conf = Ok e -> e_wf e /\ e_id e = Z.of_nat (length l)) ->
  addEntry conf s = (r, s') ->
  s' = s \/ exists t l', s' = RuleList (Some <$> l') (e_set_table t (datapath s)) /\ listed rest s' l'.
Proof using Type.
  intros Hl Hf Hnew Ha. destruct (e_new conf) as [e| |] eqn:En.
  - destruct (Hnew e eq_refl) as [Hw Hid].
    destruct (decide (Exists (fun it => same_slot (e_slot it) (e_slot e)) l)) as [Hd|Hd].
    + apply Exists_exists in Hd as (it & Hit%list_elem_of_In & Hs).
      rewrite (addEntry_duplicate rest s l conf e it) in Ha by done. injection Ha as _ <-. by left.
    + destruct (addEntry_run rest s l conf e) as (t & Hr & _ & Hl'); try done.
      { intros it Hit Hs. apply Hd, Exists_exists. exists it. by rewrite <- list_elem_of_In. }
      rewrite Hr in Ha. injection Ha as <- <-. right. by exists t, (l ++ [e]).
  - unfold addEntry, bind, lift in Ha. rewrite En in Ha. injection Ha as _ <-. by left.
  - unfold addEntry, bind, lift in Ha. rewrite En in Ha. injection Ha as _ <-. by left.
Qed.

(** ** The invariant *)
(** Masquerading has its entry, for the cube's address, exactly when it is enabled. *)
Definition masquerades (c : nat_cube) (masq : option Z) : Prop :=
  (masquerade_enabled c = true <-> is_Some masq) /\
  forall ip, masq = Some ip -> ip_string_to_nbo_uint (external_ip_ c) = Ok ip.
Definition in_sync (c : nat_cube) : Prop :=
  exists sn dn pf masq, synced raw_snat raw_dnat raw_pf c sn dn pf masq /\ masquerades c masq.
(** An operation on the rules leaves the sessions and the ports alone. *)
Definition same_sessions (d d' : nat_dp) : Prop :=
  egress_session_table d' = egress_session_table d /\ ingress_session_table d' = ingress_session_table d /\
  first_free_port d' = first_free_port d.
Definition kept (c c' : nat_cube) : Prop := in_sync c' /\ same_sessions (tables c) (tables c').
(** The tables are not full. *)
Definition roomy (c : nat_cube) : Prop := 0 < t_free (sm_rules (tables c)) /\ 0 < t_free (dp_rules (tables c)).
(** What is deleted is there. *)
Definition in_range (op : nat_op) (c : nat_cube) : Prop :=
  match op with
  | SnatDelete i => (i < length (snat_ c))%nat
  | DnatDelete i => (i < length (dnat_ c))%nat
  | PfDelete i => (i < length (portforwarding_ c))%nat
  | _ => True
  end.

(** After an operation on one list, the invariant of all of them. *)
Lemma snat_changed c sn dn pf masq s' :
  synced raw_snat raw_dnat raw_pf c sn dn pf masq -> masquerades c masq ->
  s' = RuleList (snat_ c) (tables c) \/
  (exists t l', s' = RuleList (Some <$> l') (set_sm_rules t (tables c)) /\ listed (masquerade_slots masq) s' l') ->
  kept c (set_snat (rules_ s') (datapath s') c).
Proof using Type.
  intros [Hs Hd Hp] Hm [->|(t & l' & -> & Hl)]; [split; [exists sn, dn, pf, masq; by destruct c|done]|].
  split; [|done]. exists l', dn, pf, masq. split; [|done]. destruct Hd as [H1 H2 H3], Hp as [H4 H5 H6]. split; [exact Hl| |].
  - split; [exact H1|exact H2|]. by refine (dp_other _ _ _ _ _ H3).
  - split; [exact H4|exact H5|]. by refine (pf_other _ _ _ _ _ H6).
Qed.
Lemma dnat_changed c sn dn pf masq s' :
  synced raw_snat raw_dnat raw_pf c sn dn pf masq -> masquerades c masq ->
  s' = RuleList (dnat_ c) (tables c) \/
  (exists t l', s' = RuleList (Some <$> l') (set_dp_rules t (tables c)) /\ listed (e_slot <$> pf) s' l') ->
  kept c (set_dnat (rules_ s') (datapath s') c).
Proof using Type.
  intros [Hs Hd Hp] Hm [->|(t & l' & -> & Hl)]; [split; [exists sn, dn, pf, masq; by destruct c|done]|].
  split; [|done]. exists sn, l', pf, masq. split; [|done]. destruct Hs as [H1 H2 H3], Hp as [H4 H5 H6]. split; [|exact Hl|].
  - split; [exact H1|exact H2|]. by refine (snat_other _ _ _ _ _ H3).
  - split; [exact H4|exact H5|]. exact (pf_beside _ _ _ _ _ (li_placed _ _ _ Hl) H6).
Qed.
Lemma pf_changed c sn dn pf masq s' :
  synced raw_snat raw_dnat raw_pf c sn dn pf masq -> masquerades c masq ->
  s' = RuleList (portforwarding_ c) (tables c) \/
  (exists t l', s' = RuleList (Some <$> l') (set_dp_rules t (tables c)) /\ listed (e_slot <$> dn) s' l') ->
  kept c (set_portforwarding (rules_ s') (datapath s') c).
Proof using Type.
  intros [Hs Hd Hp] Hm [->|(t & l' & -> & Hl)]; [split; [exists sn, dn, pf, masq; by destruct c|done]|].
  split; [|done]. exists sn, dn, l', masq. split; [|done]. destruct Hs as [H1 H2 H3], Hd as [H4 H5 H6]. split; [| |exact Hl].
  - split; [exact H1|exact H2|]. by refine (snat_other _ _ _ _ _ H3).
  - split; [exact H4|exact H5|]. exact (dnat_beside _ _ _ _ _ (li_placed _ _ _ Hl) H6).
Qed.

Lemma bind_ret_state {S A B} (m : M S A) (b : B) (s : S) : (bind m (fun _ => ret b) s).2 = (m s).2.
Proof using Type. unfold bind. by destruct (m s) as [[a| |] s']. Qed.

(** Masquerading: its entry replaces the one that was there. *)
Lemma inject_synced c sn dn pf masq ip :
  synced raw_snat raw_dnat raw_pf c sn dn pf masq -> 0 < t_free (sm_rules (tables c)) ->
  exists t, RuleMasquerade_inject ip c = (Ok true, set_tables (set_sm_rules t (tables c)) c) /\
    synced raw_snat raw_dnat raw_pf (set_tables (set_sm_rules t (tables c)) c) sn dn pf (Some ip).
Proof using Type.
  intros [[H1 H2 H3] [H4 H5 H6] [H7 H8 H9]] Hf.
  destruct (t_update_ok (sm_rules (tables c)) 0 (sm_key 0) (SmV ip NAT_MSQ) Hf) as (t & Ht & _ & He).
  exists t. split.
  { unfold RuleMasquerade_inject, try_catch, bind, get, lift, modify, sm_set. by rewrite Ht. }
  split.
  - split; [exact H1|exact H2|]. destruct H3 as [Hwf Hd Htab Ha]. split; [done|done| |].
    + intros x. cbn in Htab |- *. rewrite He, Htab, list_elem_of_singleton. split.
      * intros [->|[[Hx|Hx] Hn]]; [by right|by left|]. exfalso. destruct masq as [ip'|]; [|by apply elem_of_nil in Hx].
        apply list_elem_of_singleton in Hx as ->. done.
      * intros [Hx| ->]; [|by left]. right. split; [by left|]. apply list_elem_of_fmap in Hx as (e & -> & He').
        rewrite list.Forall_forall in Hwf. destruct (Hwf e He') as (Hn & _). unfold same_node. cbn.
        destruct (Z.eqb_spec (sn_internalNetmask e) 0); [lia|done].
    + intros e x (Hn & _) ->%list_elem_of_singleton. unfold same_slot. rewrite !same_node_slot. cbn. split; intros [E _]; lia.
  - split; [exact H4|exact H5|]. by refine (dp_other _ _ _ _ _ H6).
  - split; [exact H7|exact H8|]. by refine (pf_other _ _ _ _ _ H9).
Qed.

(** The list after [append]: it is [addEntry] that changes it. *)
Lemma append_state {E C} {RE : RuleEntry E C} (m : M (rule_list E) Z) (conf : Z -> C) (s : rule_list E) :
  m = (s <-- get ;; let id := size s in addEntry (conf id) ;;; ret id) -> (m s).2 = (addEntry (conf (size s)) s).2.
Proof using Type. intros ->. unfold bind at 1, get. apply bind_ret_state. Qed.

Lemma on_snat_state {A} (m : M (rule_list SnatEntry) A) c :
  (on_snat m c).2 = let s' := (m (RuleList (snat_ c) (tables c))).2 in set_snat (rules_ s') (datapath s') c.
Proof using Type. unfold on_snat. by destruct (m _). Qed.
Lemma on_dnat_state {A} (m : M (rule_list DnatEntry) A) c :
  (on_dnat m c).2 = let s' := (m (RuleList (dnat_ c) (tables c))).2 in set_dnat (rules_ s') (datapath s') c.
Proof using Type. unfold on_dnat. by destruct (m _). Qed.
Lemma on_pf_state {A} (m : M (rule_list PfEntry) A) c :
  (on_portforwarding m c).2 = let s' := (m (RuleList (portforwarding_ c) (tables c))).2 in set_portforwarding (rules_ s') (datapath s') c.
Proof using Type. unfold on_portforwarding. by destruct (m _). Qed.

(** ** Each kind of operation, on any list *)
Section one_list.
Context {E C V T : Type} {RE : RuleEntry E C} {BT : BpfTrie V T} {RS : RuleSlot E V T} {RL : RuleEntryLaws E C}.

(** The list is as it was, or the entries and the table have changed together. *)
Definition changed (rest : list (trie_entry V)) (s s' : rule_list E) : Prop :=
  s' = s \/ exists t l', s' = RuleList (Some <$> l') (e_set_table t (datapath s)) /\ listed rest s' l'.

Lemma addEntry_changed rest s l conf :
  listed rest s l -> 0 < t_free (e_table (datapath s)) ->
  (forall e, e_new conf = Ok e -> e_wf e /\ e_id e = Z.of_nat (length l)) -> changed rest s (addEntry conf s).2.
Proof using RL.
  intros Hl Hf Hn. destruct (addEntry conf s) as [r s'] eqn:Ea. exact (addEntry_cases rest s l conf r s' Hl Hf Hn Ea).
Qed.
Lemma delEntry_changed rest s l i :
  listed rest s l -> (i < length l)%nat -> changed rest s (delEntry (Z.of_nat i) s).2.
Proof using RL. intros Hl Hi. destruct (delEntry_run rest s l i Hl Hi) as (t & -> & _ & Hl'). right. by exists t, (deleted e_with_id i l). Qed.
Lemma delEntryList_changed rest s l :
  (forall d, e_set_table (e_table d) d = d) -> listed rest s l -> changed rest s (delEntryList s).2.
Proof using RL.
  intros Hid [Hr _ Hp]. destruct (delEntryList_run rest s l Hr Hp) as (d & -> & Hd & Hcase). right. cbn [snd].
  assert (listed rest (RuleList [] d) []) as Hl by (split; [done|by intros i e Hi|exact Hd]).
  destruct Hcase as [->|(t & ->)]; [exists (e_table (datapath s)), []; by rewrite Hid|by exists t, []].
Qed.
End one_list.

Lemma listed_length {E C V T} {RE : RuleEntry E C} {BT : BpfTrie V T} {RS : RuleSlot E V T} (rest : list (trie_entry V)) (s : rule_list E) l :
  listed rest s l -> length (rules_ s) = length l.
Proof using Type. intros [-> _ _]. apply length_fmap. Qed.

(** The parent's address and masquerading. *)
Lemma renamed_synced c sn dn pf masq ip b :
  synced raw_snat raw_dnat raw_pf c sn dn pf masq ->
  synced raw_snat raw_dnat raw_pf (set_external_ip ip c) sn dn pf masq /\ synced raw_snat raw_dnat raw_pf (set_enabled b c) sn dn pf masq.
Proof using Type. intros [H1 H2 H3]. split; by split. Qed.

Lemma masquerade_in_sync c :
  in_sync c -> 0 < t_free (sm_rules (tables c)) -> kept c (RuleMasquerade_enable c).2.
Proof using Type.
  intros Hin Hf. pose proof Hin as (sn & dn & pf & masq & Hsy & Hm & _). unfold RuleMasquerade_enable. unfold bind at 1, get.
  destruct (masquerade_enabled c) eqn:En; [by split|].
  destruct (ip_string_to_nbo_uint (external_ip_ c)) as [ip| |] eqn:Ei; [|by split..].
  destruct (inject_synced c sn dn pf masq ip Hsy Hf) as (t & Hi & Hsy'). unfold bind. rewrite Hi. cbn. split; [|done].
  exists sn, dn, pf, (Some ip). split; [by apply (renamed_synced _ _ _ _ _ "" true) in Hsy' as [_ ?]|].
  split; [by split|by intros ip' [= <-]].
Qed.

Lemma parent_ip_in_sync a c :
  in_sync c -> 0 < t_free (sm_rules (tables c)) -> typed_op (ParentIp a) -> kept c (parent_ip_changed a c).2.
Proof using Type.
  intros (sn & dn & pf & masq & Hsy & Hm & Hip) Hf (ip & Ei). unfold parent_ip_changed, bind, modify, get.
  set (c' := set_external_ip _ c). assert (synced raw_snat raw_dnat raw_pf c' sn dn pf masq) as Hsy' by by apply (renamed_synced _ _ _ _ _ _ true).
  change (masquerade_enabled c') with (masquerade_enabled c). change (external_ip_ c') with (get_ip_from_string a).
  destruct (masquerade_enabled c) eqn:En.
  - unfold lift. rewrite Ei. destruct (inject_synced c' sn dn pf masq ip Hsy' Hf) as (t & -> & Hi). cbn. split; [|done].
    exists sn, dn, pf, (Some ip). split; [exact Hi|]. cbn. split; [split; [by eexists|intros _; exact En]|by intros ip' [= <-]].
  - split; [|done]. exists sn, dn, pf, masq. split; [exact Hsy'|]. split; [by cbn; rewrite En|]. intros ip' ->.
    pose proof (proj2 Hm ltac:(by eexists)). congruence.
Qed.

(** ** Every operation *)
Lemma run_op_kept op c :
  in_sync c -> roomy c -> typed_op op -> in_range op c -> kept c (run_op op c).2.
Proof using Type.
  intros (sn & dn & pf & masq & Hsy & Hm) [Hfs Hfd] Hty Hr. pose proof Hsy as [Hs Hd Hp].
  pose proof (listed_length _ _ _ Hs) as Ls. pose proof (listed_length _ _ _ Hd) as Ld. pose proof (listed_length _ _ _ Hp) as Lp.
  cbn [rules_] in Ls, Ld, Lp.
  destruct op as [e i|i|e i|i|e i p q s|i| | | |a|]; unfold run_op, Rule_delSnat, Rule_delDnat, Rule_delPortForwarding;
    rewrite ?bind_ret_state.
  - rewrite on_snat_state. apply (snat_changed c sn dn pf masq _ Hsy Hm).
    rewrite (append_state (RuleSnat_append raw_snat e i) (fun id => {| sc_id := id; sc_internalNet := Some i; sc_externalIp := Some e |}) _ eq_refl).
    refine (addEntry_changed _ _ sn _ Hs Hfs _). intros e' [Hw Hid]%snat_new_wf. split; [exact Hw|].
    cbn. rewrite Hid. unfold size. cbn. by rewrite Ls.
  - rewrite on_snat_state. apply (snat_changed c sn dn pf masq _ Hsy Hm).
    refine (delEntry_changed _ _ sn i Hs _). cbn in Hr. lia.
  - rewrite on_dnat_state. apply (dnat_changed c sn dn pf masq _ Hsy Hm).
    rewrite (append_state (RuleDnat_append raw_dnat e i) (fun id => {| dc_id := id; dc_externalIp := Some e; dc_internalIp := Some i |}) _ eq_refl).
    refine (addEntry_changed _ _ dn _ Hd Hfd _). intros e' [Hw Hid]%dnat_new_wf. split; [exact Hw|].
    cbn. rewrite Hid. unfold size. cbn. by rewrite Ld.
  - rewrite on_dnat_state. apply (dnat_changed c sn dn pf masq _ Hsy Hm).
    refine (delEntry_changed _ _ dn i Hd _). cbn in Hr. lia.
  - rewrite on_pf_state. apply (pf_changed c sn dn pf masq _ Hsy Hm).
    rewrite (append_state (RulePortForwarding_append raw_pf e i p q s) (fun id => {| pc_id := id; pc_externalIp := Some e; pc_externalPort := Some p; pc_proto := Some s;
      pc_internalIp := Some i; pc_internalPort := Some q |}) _ eq_refl).
    refine (addEntry_changed _ _ pf _ Hp Hfd _). intros e' [Hw Hid]%pf_new_wf; [|apply Hty|apply Hty]. split; [exact Hw|].
    cbn. rewrite Hid. unfold size. cbn. by rewrite Lp.
  - rewrite on_pf_state. apply (pf_changed c sn dn pf masq _ Hsy Hm).
    refine (delEntry_changed _ _ pf i Hp _). cbn in Hr. lia.
  - rewrite on_snat_state. apply (snat_changed c sn dn pf masq _ Hsy Hm).
    refine (delEntryList_changed _ _ sn _ Hs). by intros [].
  - rewrite on_dnat_state. apply (dnat_changed c sn dn pf masq _ Hsy Hm).
    refine (delEntryList_changed _ _ dn _ Hd). by intros [].
  - rewrite on_pf_state. apply (pf_changed c sn dn pf masq _ Hsy Hm).
    refine (delEntryList_changed _ _ pf _ Hp). by intros [].
  - by apply parent_ip_in_sync; [exists sn, dn, pf, masq|done|].
  - by apply masquerade_in_sync; [exists sn, dn, pf, masq|].
Qed.
End invariant.
