(* ===== verification/NatRefine.v ===== *)
(** pcn-nat, the abstract NAT: three lists of rules, whether masquerading is on, and
    the parent's address.  Its operations say in a few lines what a user gets; the
    cube's operations, with their null pointers, textual comparisons and tables,
    refine them, results and exceptions included.  Before it, the events of a NAT and
    what they keep. *)
From Stdlib Require Import ZArith Lia Ascii String.
From stdpp Require Import base gmap list strings numbers.
From S2P Require Import Prelude.
From S2P Require Import Vec.
From S2P Require Import Bpf.
From S2P Require Import NetUtils.
From S2P Require Import Frame.
From S2P Require Import Csum.
From S2P Require Import NatDatapath.
From S2P Require Import NatFacts.
From S2P Require Import NatSessions.
From S2P Require Import NatRules.
From S2P Require Import NatLists.
From S2P Require Import NatRuleFacts.
From S2P Require Import NatListFacts.
From S2P Require Import NatCube.
From S2P Require Import NatInvariant.
#[local] Open Scope Z_scope.
#[local] Open Scope cpp_scope.

Inductive nat_event :=
  | UserOp (op : nat_op)
  | Packet (type : nattype) (frame : list Z)
  | FlushTranslations.

Section run.
Context `{Inet} `{NT : NatTables} `{CsumDiff} `{!LruKeys st_k st_v sessionT}.
Context (raw_snat : SnatEntry) (raw_dnat : DnatEntry) (raw_pf : PfEntry) (raw_enabled recent : bool).

Definition run_event (ev : nat_event) (c : nat_cube) : nat_cube :=
  match ev with
  | UserOp op => (run_op raw_snat raw_dnat raw_pf op c).2
  | Packet type f => set_tables (handle_rx recent type f (tables c)).2 c
  | FlushTranslations => (delNattingTableList c).2
  end.
(** What the surroundings promise of an event: tables with room and integers of
    the declared width for a user operation, bytes for a packet. *)
Definition allowed (ev : nat_event) (c : nat_cube) : Prop :=
  match ev with
  | UserOp op => roomy c /\ typed_op op /\ in_range op c
  | Packet _ f => Forall is_byte f
  | FlushTranslations => True
  end.

(** The kernel's tables before anything is written. *)
Record fresh (d : nat_dp) : Prop := {
  fr_sm : t_entries (sm_rules d) = [];
  fr_dp : t_entries (dp_rules d) = [];
  fr_port : first_free_port d = 0;
  fr_sessions : forall type k, lru_lookup (session_table type d) k = None;
}.
Inductive reachable : nat_cube -> Prop :=
  | reach_new d c : fresh d -> new_nat raw_snat raw_dnat raw_pf empty_rule d = (Ok tt, c) -> reachable c
  | reach_step ev c : reachable c -> allowed ev c -> reachable (run_event ev c).

(** ** The tables of a cube that is in sync *)
Definition sessions_ok (d : nat_dp) : Prop :=
  0 <= first_free_port d < 2 ^ 16 /\ forall type k v, lru_lookup (session_table type d) k = Some v -> value_ok v.

Lemma in_sync_nat_ok c : in_sync raw_snat raw_dnat raw_pf c -> sessions_ok (tables c) -> nat_ok (tables c).
Proof using Type.
  intros (sn & dn & pf & masq & [Hs Hd Hp] & _ & Hq) [Hport Hse].
  destruct (li_placed _ _ _ Hs) as [Hws _ Hts _], (li_placed _ _ _ Hd) as [Hwd _ Htd _], (li_placed _ _ _ Hp) as [Hwp _ _ _].
  rewrite list.Forall_forall in Hws. rewrite list.Forall_forall in Hwd. rewrite list.Forall_forall in Hwp.
  cbn [datapath e_table snat_slot dnat_slot] in Hts, Htd. split; [| |done|done].
  - intros x [(e & -> & He)%list_elem_of_fmap|Hx]%Hts; [by destruct (Hws e He) as (_ & _ & ?)|].
    destruct masq as [ip|]; [|by apply elem_of_nil in Hx]. apply list_elem_of_singleton in Hx as ->. split; [done|].
    by eapply ip_string_to_nbo_uint_bounds, Hq.
  - intros x [(e & -> & He)%list_elem_of_fmap|(e & -> & He)%list_elem_of_fmap]%Htd.
    + by destruct (Hwd e He) as [_ ?].
    + destruct (Hwp e He) as (_ & ? & _). split; [done|]. split; [done|]. apply bswap16_range.
Qed.

Lemma nat_ok_sessions d : nat_ok d -> sessions_ok d.
Proof using Type. by intros []. Qed.

Lemma same_sessions_ok d d' : same_sessions d d' -> sessions_ok d -> sessions_ok d'.
Proof using Type.
  intros (E1 & E2 & E3) [Hp Hs]. split; [by rewrite E3|]. intros type k v. specialize (Hs type k v).
  destruct type; cbn [session_table] in *; [by rewrite E2|by rewrite E1].
Qed.

(** The rules' tables are the same, so the rules are still in sync. *)
Lemma in_sync_same_rules c d :
  sm_rules d = sm_rules (tables c) -> dp_rules d = dp_rules (tables c) ->
  in_sync raw_snat raw_dnat raw_pf c -> in_sync raw_snat raw_dnat raw_pf (set_tables d c).
Proof using Type.
  intros Esm Edp (sn & dn & pf & masq & [[H1 H2 H3] [H4 H5 H6] [H7 H8 H9]] & Hm). exists sn, dn, pf, masq. split; [|exact Hm].
  split; (split; [assumption|assumption|]); cbn [datapath tables set_tables] in *.
  - exact (snat_other _ _ _ _ Esm H3).
  - exact (dp_other _ _ _ _ Edp H6).
  - exact (pf_other _ _ _ _ Edp H9).
Qed.

Lemma new_nat_ok d c :
  fresh d -> new_nat raw_snat raw_dnat raw_pf empty_rule d = (Ok tt, c) ->
  in_sync raw_snat raw_dnat raw_pf c /\ nat_ok (tables c).
Proof using Type.
  intros [Hsm Hdp Hp Hs] [= <-]. assert (in_sync raw_snat raw_dnat raw_pf (NatCube [] [] [] false "" d)) as Hi.
  { exists [], [], [], None. split; [|split; [|done]]; [|split; [done|by intros [? ?]]].
    split; (split; [done|by intros i e Hi|split; [constructor|by intros i j e e' Hi| |by intros e x _ ?%elem_of_nil]]).
    - intros x. cbn. rewrite Hsm. set_solver.
    - intros x. cbn. rewrite Hdp. set_solver.
    - intros x. cbn. rewrite Hdp. set_solver. }
  split; [exact Hi|]. apply in_sync_nat_ok; [exact Hi|]. split; [by cbn; rewrite Hp|]. intros type k v. cbn. by rewrite Hs.
Qed.

(** Emptying the translation table returns, with both tables empty. *)
Lemma delNattingTableList_run c :
  exists e i, delNattingTableList c = (Ok tt, set_tables (set_sessions e i (tables c)) c) /\
    (forall k, lru_lookup e k = None) /\ (forall k, lru_lookup i k = None).
Proof using Type.
  destruct (remove_all_empty (egress_session_table (tables c))) as (e & He & Hen).
  destruct (remove_all_empty (ingress_session_table (tables c))) as (i & Hi & Hin).
  exists e, i. split; [|done]. unfold delNattingTableList, bind, get. by rewrite He, Hi.
Qed.

Lemma run_event_ok ev c :
  in_sync raw_snat raw_dnat raw_pf c -> nat_ok (tables c) -> allowed ev c ->
  in_sync raw_snat raw_dnat raw_pf (run_event ev c) /\ nat_ok (tables (run_event ev c)).
Proof using Type.
  intros Hi Hok Ha. destruct ev as [op|type f|]; cbn [run_event allowed] in *.
  - destruct Ha as (Hroom & Hty & Hr). destruct (run_op_kept raw_snat raw_dnat raw_pf op c Hi Hroom Hty Hr) as [Hi' Hse].
    split; [exact Hi'|]. apply in_sync_nat_ok; [exact Hi'|]. exact (same_sessions_ok _ _ Hse (nat_ok_sessions _ Hok)).
  - destruct (handle_rx_state recent type f (tables c) Ha Hok) as (Hok' & E1 & E2 & _).
    split; [|exact Hok']. by apply in_sync_same_rules.
  - destruct (delNattingTableList_run c) as (e & i & -> & He & Hin). cbn [snd].
    assert (in_sync raw_snat raw_dnat raw_pf (set_tables (set_sessions e i (tables c)) c)) as Hi' by by apply in_sync_same_rules.
    split; [exact Hi'|]. apply in_sync_nat_ok; [exact Hi'|]. split; [apply Hok|]. intros [] k v; cbn; [by rewrite Hin|by rewrite He].
Qed.

Lemma reachable_ok c : reachable c -> in_sync raw_snat raw_dnat raw_pf c /\ nat_ok (tables c).
Proof using Type.
  induction 1 as [d c Hf Hn|ev c _ [Hi Hok] Ha]; [by apply (new_nat_ok d)|by apply run_event_ok].
Qed.

(** The rules as the cube shows them, with the masquerading address. *)
Lemma reachable_rules c :
  reachable c -> exists sn dn pf masq, snat_ c = Some <$> sn /\ dnat_ c = Some <$> dn /\ portforwarding_ c = Some <$> pf /\
    synced raw_snat raw_dnat raw_pf c sn dn pf masq /\ masquerades c masq /\ nat_ok (tables c).
Proof using Type.
  intros [(sn & dn & pf & masq & Hsy & Hm) Hok]%reachable_ok. exists sn, dn, pf, masq.
  destruct Hsy as [[H1 H2 H3] [H4 H5 H6] [H7 H8 H9]]. do 3 (split; [assumption|]). split; [by split|done].
Qed.
End run.

Record nat_spec := NatSpec {
  sp_snat : list SnatEntry;
  sp_dnat : list DnatEntry;
  sp_pf : list PfEntry;
  sp_enabled : bool;
  sp_address : string;
}.
Definition sp_with_snat (l : list SnatEntry) (a : nat_spec) : nat_spec := NatSpec l (sp_dnat a) (sp_pf a) (sp_enabled a) (sp_address a).
Definition sp_with_dnat (l : list DnatEntry) (a : nat_spec) : nat_spec := NatSpec (sp_snat a) l (sp_pf a) (sp_enabled a) (sp_address a).
Definition sp_with_pf (l : list PfEntry) (a : nat_spec) : nat_spec := NatSpec (sp_snat a) (sp_dnat a) l (sp_enabled a) (sp_address a).

(** Two rules that ask for the same packets. *)
Definition same_snat (a b : SnatEntry) : Prop :=
  sn_internalIp a = sn_internalIp b /\ sn_internalNetmask a = sn_internalNetmask b.
Definition same_dnat (a b : DnatEntry) : Prop := dn_externalIp a = dn_externalIp b.
Definition same_pf (a b : PfEntry) : Prop :=
  pf_externalIp a = pf_externalIp b /\ pf_externalPort a = pf_externalPort b /\ pf_proto a = pf_proto b.
#[export] Instance same_snat_dec : RelDecision same_snat.
Proof. unfold RelDecision, same_snat. solve_decision. Defined.
#[export] Instance same_dnat_dec : RelDecision same_dnat.
Proof. unfold RelDecision, same_dnat. solve_decision. Defined.
#[export] Instance same_pf_dec : RelDecision same_pf.
Proof. unfold RelDecision, same_pf. solve_decision. Defined.

(** A rule is added at the end, unless it does not parse or there is one like it. *)
Definition spec_append {E} (same : E -> E -> Prop) `{!RelDecision same} (new : res E) (l : list E) : res unit * list E :=
  match new with
  | Ok e => if decide (Exists (fun it => same it e) l) then (Throw (RuntimeError "Cannot insert duplicate mapping"), l)
            else (Ok tt, l ++ [e])
  | Throw x => (Throw x, l)
  | Undefined => (Undefined, l)
  end.

Section spec.
Context `{Inet}.
Definition snat_rule (id : Z) (net ext : string) : res SnatEntry :=
  n <~ IpAddr_fromString net ;; x <~ IpAddr_fromString ext ;;
  Ok {| sn_id := id; sn_internalIp := ip n; sn_internalNetmask := netmask n; sn_externalIp := ip x |}.
Definition dnat_rule (id : Z) (ext int : string) : res DnatEntry :=
  x <~ IpAddr_fromString ext ;; n <~ IpAddr_fromString int ;;
  Ok {| dn_id := id; dn_internalIp := ip n; dn_externalIp := ip x |}.
Definition proto_of (value : string) : res ProtoEnum :=
  let v := str_tolower value in
  if String.eqb v "tcp" then Ok TCP else if String.eqb v "udp" then Ok UDP
  else if String.eqb v "all" || String.eqb v "" then Ok ALL else Throw (RuntimeError "Invalid protocol").
Definition pf_rule (id : Z) (ext int : string) (p q : Z) (value : string) : res PfEntry :=
  x <~ IpAddr_fromString ext ;; proto <~ proto_of value ;; n <~ IpAddr_fromString int ;;
  Ok {| pf_id := id; pf_internalIp := ip n; pf_externalIp := ip x; pf_internalPort := q; pf_externalPort := p; pf_proto := proto |}.

Definition spec_op (op : nat_op) (a : nat_spec) : res unit * nat_spec :=
  match op with
  | SnatAppend e i =>
      let '(r, l) := spec_append same_snat (snat_rule (Z.of_nat (length (sp_snat a))) i e) (sp_snat a) in (r, sp_with_snat l a)
  | DnatAppend e i =>
      let '(r, l) := spec_append same_dnat (dnat_rule (Z.of_nat (length (sp_dnat a))) e i) (sp_dnat a) in (r, sp_with_dnat l a)
  | PfAppend e i p q s =>
      let '(r, l) := spec_append same_pf (pf_rule (Z.of_nat (length (sp_pf a))) e i p q s) (sp_pf a) in (r, sp_with_pf l a)
  | SnatDelete i => (Ok tt, sp_with_snat (deleted sn_with_id i (sp_snat a)) a)
  | DnatDelete i => (Ok tt, sp_with_dnat (deleted dn_with_id i (sp_dnat a)) a)
  | PfDelete i => (Ok tt, sp_with_pf (deleted pf_with_id i (sp_pf a)) a)
  | SnatFlush => (Ok tt, sp_with_snat [] a)
  | DnatFlush => (Ok tt, sp_with_dnat [] a)
  | PfFlush => (Ok tt, sp_with_pf [] a)
  | ParentIp address => (Ok tt, NatSpec (sp_snat a) (sp_dnat a) (sp_pf a) (sp_enabled a) (get_ip_from_string address))
  | MasqueradeOn =>
      match ip_string_to_nbo_uint (sp_address a) with
      | Ok _ => (Ok tt, NatSpec (sp_snat a) (sp_dnat a) (sp_pf a) true (sp_address a))
      | _ => (Ok tt, a)
      end
  end.
End spec.

(** The cube shows what the abstract NAT has. *)
Definition shows `{NT : NatTables} (c : nat_cube) (a : nat_spec) : Prop :=
  snat_ c = Some <$> sp_snat a /\ dnat_ c = Some <$> sp_dnat a /\ portforwarding_ c = Some <$> sp_pf a /\
  masquerade_enabled c = sp_enabled a /\ external_ip_ c = sp_address a.

Section lists.
Context `{NT : NatTables} {E C V T : Type} {RE : RuleEntry E C} {BT : BpfTrie V T} {RS : RuleSlot E V T} {RL : RuleEntryLaws E C}.
Context (same : E -> E -> Prop) `{!RelDecision same}.

Lemma addEntry_refines rest (s : rule_list E) l conf :
  listed rest s l -> 0 < t_free (e_table (datapath s)) ->
  (forall e, e_new conf = Ok e -> e_wf e /\ e_id e = Z.of_nat (length l)) ->
  (forall a b, e_wf a -> e_wf b -> same a b <-> same_slot (e_slot a) (e_slot b)) ->
  let '(r, l') := spec_append same (e_new conf) l in
  (addEntry conf s).1 = r /\ rules_ (addEntry conf s).2 = Some <$> l'.
Proof using RL.
  intros Hl Hf Hnew Hsame. pose proof (li_rules _ _ _ Hl) as Hr. destruct (e_new conf) as [e|x|] eqn:En; cbn [spec_append].
  - destruct (Hnew e eq_refl) as [Hw Hid]. pose proof (pl_wf _ _ _ (li_placed _ _ _ Hl)) as Hwf. rewrite list.Forall_forall in Hwf.
    destruct (decide _) as [Hd|Hd].
    + apply Exists_exists in Hd as (it & Hit%list_elem_of_In & Hs). apply Hsame in Hs; [|by apply Hwf|done].
      rewrite (addEntry_duplicate rest s l conf e it) by done. by split.
    + destruct (addEntry_run rest s l conf e Hl En Hw Hid) as (t & -> & _); [|done|done].
      intros it Hit Hs. apply Hd, Exists_exists. exists it. split; [by apply list_elem_of_In|]. apply Hsame; [by apply Hwf|done|done].
  - unfold addEntry, bind, lift. rewrite En. by split.
  - unfold addEntry, bind, lift. rewrite En. by split.
Qed.
End lists.

Section refine.
Context `{Inet} `{NT : NatTables} (raw_snat : SnatEntry) (raw_dnat : DnatEntry) (raw_pf : PfEntry).
#[local] Instance snat_rules : RuleEntry SnatEntry SnatConf := snat_entry raw_snat.
#[local] Instance dnat_rules : RuleEntry DnatEntry DnatConf := dnat_entry raw_dnat.
#[local] Instance pf_rules : RuleEntry PfEntry PfConf := pf_entry raw_pf.

(** ** What a rule asks for, and its place in the table *)
Lemma slot_same_snat a b : snat_wf a -> snat_wf b -> same_snat a b <-> same_slot (e_slot a) (e_slot b).
Proof using Type.
  intros (Hn & Hm & _) (Hn' & Hm' & _). unfold same_snat, same_slot. rewrite same_node_slot. cbn [te_len te_key e_slot snat_slot snat_slot_of].
  split; [intros [-> ->]; split; [done|apply trie_match_refl]|]. intros [E Hk]. rewrite E in *. split; [|done].
  by apply (masked_inj (sn_internalNetmask b)).
Qed.
Lemma slot_same_dnat a b : dnat_wf a -> dnat_wf b -> same_dnat a b <-> same_slot (e_slot a) (e_slot b).
Proof using NT H.
  intros Ha Hb. unfold same_slot. cbn [e_slot dnat_slot]. rewrite <- (dnat_duplicate a b Ha Hb). unfold RuleDnatEntry_getExternalIp.
  rewrite eqb_string_ip; [done|apply Ha|apply Hb].
Qed.
Lemma slot_same_pf a b : pf_wf a -> pf_wf b -> same_pf a b <-> same_slot (e_slot a) (e_slot b).
Proof using NT H.
  intros Ha Hb. unfold same_slot. cbn [e_slot pf_slot]. rewrite <- (pf_duplicate a b Ha Hb). unfold RulePortForwardingEntry_getExternalIp, same_pf.
  rewrite !andb_true_iff, Z.eqb_eq, eqb_string_ip by (apply Ha || apply Hb). unfold RulePortForwardingEntry_getProto.
  destruct (pf_proto a), (pf_proto b); simpl; intuition done.
Qed.

(** ** The constructors *)
Lemma snat_new_rule id net ext :
  e_new {| sc_id := id; sc_internalNet := Some net; sc_externalIp := Some ext |} = snat_rule id net ext.
Proof using Type.
  cbn. unfold RuleSnatEntry_new, constructed, RuleSnatEntry_update, RuleSnatEntry_setInternalNet, RuleSnatEntry_setExternalIp, snat_rule.
  unfold bind, lift, modify. cbn. destruct (IpAddr_fromString net); [|done..]. cbn. by destruct (IpAddr_fromString ext).
Qed.
Lemma dnat_new_rule id ext int :
  e_new {| dc_id := id; dc_externalIp := Some ext; dc_internalIp := Some int |} = dnat_rule id ext int.
Proof using Type.
  cbn. unfold RuleDnatEntry_new, constructed, RuleDnatEntry_update, RuleDnatEntry_setExternalIp, RuleDnatEntry_setInternalIp, dnat_rule.
  unfold bind, lift, modify. cbn. destruct (IpAddr_fromString ext); [|done..]. cbn. by destruct (IpAddr_fromString int).
Qed.
Lemma proto_of_empty : proto_of "" = Ok ALL.
Proof using Type. done. Qed.
Lemma pf_new_rule id ext int p q value :
  e_new {| pc_id := id; pc_externalIp := Some ext; pc_externalPort := Some p; pc_proto := Some value;
           pc_internalIp := Some int; pc_internalPort := Some q |} = pf_rule id ext int p q value.
Proof using Type.
  cbn. unfold RulePortForwardingEntry_new, constructed, RulePortForwardingEntry_update, RulePortForwardingEntry_setExternalIp,
    RulePortForwardingEntry_setInternalIp, pf_rule. unfold bind, lift, modify. cbn.
  destruct (IpAddr_fromString ext); [|done..]. cbn. unfold RulePortForwardingEntry_setProto, throw, modify.
  destruct (String.eqb_spec value "") as [->|].
  - rewrite proto_of_empty. cbn. by destruct (IpAddr_fromString int).
  - unfold proto_of. repeat match goal with |- context [if ?c then _ else _] => destruct c end; cbn; try done; by destruct (IpAddr_fromString int).
Qed.

(** ** Every operation *)
Lemma on_snat_eq {A} (m : M (rule_list SnatEntry) A) c :
  on_snat m c = ((m (RuleList (snat_ c) (tables c))).1,
    let s' := (m (RuleList (snat_ c) (tables c))).2 in set_snat (rules_ s') (datapath s') c).
Proof using Type. unfold on_snat. by destruct (m _). Qed.
Lemma on_dnat_eq {A} (m : M (rule_list DnatEntry) A) c :
  on_dnat m c = ((m (RuleList (dnat_ c) (tables c))).1,
    let s' := (m (RuleList (dnat_ c) (tables c))).2 in set_dnat (rules_ s') (datapath s') c).
Proof using Type. unfold on_dnat. by destruct (m _). Qed.
Lemma on_pf_eq {A} (m : M (rule_list PfEntry) A) c :
  on_portforwarding m c = ((m (RuleList (portforwarding_ c) (tables c))).1,
    let s' := (m (RuleList (portforwarding_ c) (tables c))).2 in set_portforwarding (rules_ s') (datapath s') c).
Proof using Type. unfold on_portforwarding. by destruct (m _). Qed.

(** What [append] returns, when the identifier is left out. *)
Lemma append_result {E C} {RE : RuleEntry E C} (m : M (rule_list E) Z) (conf : Z -> C) (s : rule_list E) :
  m = (s <-- get ;; let id := size s in addEntry (conf id) ;;; ret id) ->
  (m ;;; ret tt) s = addEntry (conf (size s)) s.
Proof using Type.
  intros ->. unfold bind, get, ret. by destruct (addEntry (conf (size s)) s) as [[[]| |] s'].
Qed.
Lemma bind_on_snat {A} (m : M (rule_list SnatEntry) A) c : (on_snat m ;;; ret tt) c = on_snat (m ;;; ret tt) c.
Proof using Type. unfold on_snat, bind, ret. by destruct (m _) as [[| |] ?]. Qed.
Lemma bind_on_dnat {A} (m : M (rule_list DnatEntry) A) c : (on_dnat m ;;; ret tt) c = on_dnat (m ;;; ret tt) c.
Proof using Type. unfold on_dnat, bind, ret. by destruct (m _) as [[| |] ?]. Qed.
Lemma bind_on_pf {A} (m : M (rule_list PfEntry) A) c : (on_portforwarding m ;;; ret tt) c = on_portforwarding (m ;;; ret tt) c.
Proof using Type. unfold on_portforwarding, bind, ret. by destruct (m _) as [[| |] ?]. Qed.

Lemma ip_string_defined s : ip_string_to_nbo_uint s <> Undefined.
Proof using Type. unfold ip_string_to_nbo_uint. by repeat case_match. Qed.

(** The parent's address and masquerading. *)
Lemma parent_ip_shows c sn dn pf masq address ip :
  synced raw_snat raw_dnat raw_pf c sn dn pf masq -> 0 < t_free (sm_rules (tables c)) ->
  ip_string_to_nbo_uint (get_ip_from_string address) = Ok ip ->
  snat_ c = Some <$> sn -> dnat_ c = Some <$> dn -> portforwarding_ c = Some <$> pf ->
  (parent_ip_changed address c).1 = Ok tt /\
  shows (parent_ip_changed address c).2 (NatSpec sn dn pf (masquerade_enabled c) (get_ip_from_string address)).
Proof using Type.
  intros Hsy Hf Hip E1 E2 E3. unfold parent_ip_changed, bind, modify, get. set (c' := set_external_ip _ c).
  change (masquerade_enabled c') with (masquerade_enabled c). destruct (masquerade_enabled c) eqn:En; [|by split].
  unfold lift. change (external_ip_ c') with (get_ip_from_string address). rewrite Hip.
  destruct (inject_synced raw_snat raw_dnat raw_pf c' sn dn pf masq ip) as (t & -> & _); [|done|by split].
  by apply (renamed_synced _ _ _ _ _ _ _ _ _ true).
Qed.
Lemma masquerade_shows c sn dn pf masq :
  synced raw_snat raw_dnat raw_pf c sn dn pf masq -> masquerades c masq -> 0 < t_free (sm_rules (tables c)) ->
  snat_ c = Some <$> sn -> dnat_ c = Some <$> dn -> portforwarding_ c = Some <$> pf ->
  let '(r, a) := match ip_string_to_nbo_uint (external_ip_ c) with
                 | Ok _ => (Ok tt, NatSpec sn dn pf true (external_ip_ c))
                 | _ => (Ok tt, NatSpec sn dn pf (masquerade_enabled c) (external_ip_ c))
                 end in
  ((RuleMasquerade_enable ;;; ret tt) c).1 = r /\ shows ((RuleMasquerade_enable ;;; ret tt) c).2 a.
Proof using Type.
  intros Hsy [Hm Hq] Hf E1 E2 E3. unfold RuleMasquerade_enable, bind, get, ret. destruct (masquerade_enabled c) eqn:En.
  - destruct (proj1 Hm eq_refl) as [ip ->]. rewrite (Hq ip eq_refl). split; [done|]. by do 3 (split; [done|]).
  - pose proof (ip_string_defined (external_ip_ c)). destruct (ip_string_to_nbo_uint _) as [ip| |]; [|by split|done].
    destruct (inject_synced raw_snat raw_dnat raw_pf c sn dn pf masq ip Hsy Hf) as (t & -> & _). by split.
Qed.

(** What a change of one list shows. *)
Lemma snat_shown (m : M (rule_list SnatEntry) unit) c l d dn pf :
  m (RuleList (snat_ c) (tables c)) = (Ok tt, RuleList (Some <$> l) d) -> dnat_ c = Some <$> dn -> portforwarding_ c = Some <$> pf ->
  (on_snat m c).1 = Ok tt /\ shows (on_snat m c).2 (NatSpec l dn pf (masquerade_enabled c) (external_ip_ c)).
Proof using Type. intros E Ed Ep. unfold on_snat. rewrite E. by split. Qed.
Lemma dnat_shown (m : M (rule_list DnatEntry) unit) c l d sn pf :
  m (RuleList (dnat_ c) (tables c)) = (Ok tt, RuleList (Some <$> l) d) -> snat_ c = Some <$> sn -> portforwarding_ c = Some <$> pf ->
  (on_dnat m c).1 = Ok tt /\ shows (on_dnat m c).2 (NatSpec sn l pf (masquerade_enabled c) (external_ip_ c)).
Proof using Type. intros E Ed Ep. unfold on_dnat. rewrite E. by split. Qed.
Lemma pf_shown (m : M (rule_list PfEntry) unit) c l d sn dn :
  m (RuleList (portforwarding_ c) (tables c)) = (Ok tt, RuleList (Some <$> l) d) -> snat_ c = Some <$> sn -> dnat_ c = Some <$> dn ->
  (on_portforwarding m c).1 = Ok tt /\ shows (on_portforwarding m c).2 (NatSpec sn dn l (masquerade_enabled c) (external_ip_ c)).
Proof using Type. intros E Ed Ep. unfold on_portforwarding. rewrite E. by split. Qed.

Lemma run_op_refines op c a :
  in_sync raw_snat raw_dnat raw_pf c -> roomy c -> typed_op op -> in_range op c -> shows c a ->
  let '(r, a') := spec_op op a in (run_op raw_snat raw_dnat raw_pf op c).1 = r /\ shows (run_op raw_snat raw_dnat raw_pf op c).2 a'.
Proof using Type.
  intros (sn & dn & pf & masq & Hsy & Hm & Hq) [Hfs Hfd] Hty Hr (Es & Ed & Ep & En & Ea).
  pose proof Hsy as [Hs Hd Hp]. pose proof (li_rules _ _ _ Hs) as E1. pose proof (li_rules _ _ _ Hd) as E2. pose proof (li_rules _ _ _ Hp) as E3.
  cbn [rules_] in E1, E2, E3. rewrite E1 in Es. rewrite E2 in Ed. rewrite E3 in Ep.
  apply (inj (fmap Some)) in Es, Ed, Ep. destruct a as [sn' dn' pf' en ad]. cbn [sp_snat sp_dnat sp_pf sp_enabled sp_address] in *. subst sn' dn' pf' en ad.
  assert (length (snat_ c) = length sn /\ length (dnat_ c) = length dn /\ length (portforwarding_ c) = length pf) as (Ls & Ld & Lp)
    by (by rewrite E1, E2, E3, !length_fmap).
  destruct op as [e i|i|e i|i|e i p q s|i| | | |ad|]; cbn [run_op spec_op sp_snat sp_dnat sp_pf sp_address in_range typed_op] in *.
  - rewrite bind_on_snat, on_snat_eq.
    rewrite (append_result (RuleSnat_append raw_snat e i) (fun id => {| sc_id := id; sc_internalNet := Some i; sc_externalIp := Some e |}) _ eq_refl).
    unfold size. cbn [rules_]. rewrite Ls.
    pose proof (addEntry_refines same_snat _ _ sn {| sc_id := Z.of_nat (length sn); sc_internalNet := Some i; sc_externalIp := Some e |} Hs Hfs
      (snat_new_wf raw_snat _ _ _) slot_same_snat) as Hadd.
    rewrite snat_new_rule in Hadd. destruct (spec_append _ _ _) as [r l']. destruct Hadd as [Hr1 Hr2].
    exact (conj Hr1 (conj Hr2 (conj E2 (conj E3 (conj eq_refl eq_refl))))).
  - destruct (delEntry_run _ _ sn i Hs) as (t & E & _ & _); [lia|]. exact (snat_shown _ c _ _ _ _ E E2 E3).
  - rewrite bind_on_dnat, on_dnat_eq.
    rewrite (append_result (RuleDnat_append raw_dnat e i) (fun id => {| dc_id := id; dc_externalIp := Some e; dc_internalIp := Some i |}) _ eq_refl).
    unfold size. cbn [rules_]. rewrite Ld.
    pose proof (addEntry_refines same_dnat _ _ dn {| dc_id := Z.of_nat (length dn); dc_externalIp := Some e; dc_internalIp := Some i |} Hd Hfd
      (dnat_new_wf raw_dnat _ _ _) slot_same_dnat) as Hadd.
    rewrite dnat_new_rule in Hadd. destruct (spec_append _ _ _) as [r l']. destruct Hadd as [Hr1 Hr2].
    exact (conj Hr1 (conj E1 (conj Hr2 (conj E3 (conj eq_refl eq_refl))))).
  - destruct (delEntry_run _ _ dn i Hd) as (t & E & _ & _); [lia|]. exact (dnat_shown _ c _ _ _ _ E E1 E3).
  - rewrite bind_on_pf, on_pf_eq.
    rewrite (append_result (RulePortForwarding_append raw_pf e i p q s) (fun id => {| pc_id := id; pc_externalIp := Some e; pc_externalPort := Some p;
      pc_proto := Some s; pc_internalIp := Some i; pc_internalPort := Some q |}) _ eq_refl).
    unfold size. cbn [rules_]. rewrite Lp.
    pose proof (addEntry_refines same_pf _ _ pf {| pc_id := Z.of_nat (length pf); pc_externalIp := Some e; pc_externalPort := Some p;
      pc_proto := Some s; pc_internalIp := Some i; pc_internalPort := Some q |} Hp Hfd
      (fun e' => pf_new_wf raw_pf _ _ _ _ _ _ e' (proj1 Hty) (proj2 Hty)) slot_same_pf) as Hadd.
    rewrite pf_new_rule in Hadd. destruct (spec_append _ _ _) as [r l']. destruct Hadd as [Hr1 Hr2].
    exact (conj Hr1 (conj E1 (conj E2 (conj Hr2 (conj eq_refl eq_refl))))).
  - destruct (delEntry_run _ _ pf i Hp) as (t & E & _ & _); [lia|]. exact (pf_shown _ c _ _ _ _ E E1 E2).
  - unfold Rule_delSnat. destruct (delEntryList_run _ _ sn (li_rules _ _ _ Hs) (li_placed _ _ _ Hs)) as (d & E & _).
    exact (snat_shown _ c [] _ _ _ E E2 E3).
  - unfold Rule_delDnat. destruct (delEntryList_run _ _ dn (li_rules _ _ _ Hd) (li_placed _ _ _ Hd)) as (d & E & _).
    exact (dnat_shown _ c [] _ _ _ E E1 E3).
  - unfold Rule_delPortForwarding. destruct (delEntryList_run _ _ pf (li_rules _ _ _ Hp) (li_placed _ _ _ Hp)) as (d & E & _).
    exact (pf_shown _ c [] _ _ _ E E1 E2).
  - destruct Hty as [ip Hip]. by apply (parent_ip_shows c sn dn pf masq ad ip).
  - by apply (masquerade_shows c sn dn pf masq).
Qed.
End refine.
