(* ===== verification/NatExample.v ===== *)
(** pcn-nat, a small concrete NAT: its rules, its packets, and decidable forms of
    what the theorems ask of them. *)
From Stdlib Require Import ZArith Lia Ascii String.
From stdpp Require Import base gmap list strings numbers.
From S2P Require Import Prelude.
From S2P Require Import Vec.
From S2P Require Import Bpf.
From S2P Require Import NetUtils.
From S2P Require Import Frame.
From S2P Require Import Csum.
From S2P Require Import NatDatapath.
From S2P Require Import NatFacts.
From S2P Require Import NatSessions.
From S2P Require Import NatRules.
From S2P Require Import NatLists.
From S2P Require Import NatRuleFacts.
From S2P Require Import NatListFacts.
From S2P Require Import NatCube.
From S2P Require Import NatInvariant.
From S2P Require Import NatRefine.
#[local] Open Scope Z_scope.

Definition plainb (f : list Z) : bool := forallb (fun b => (0 <=? b) && (b <? 256)) f && (rd8 f 14 mod 16 =? 5).
Lemma plainb_spec f : plainb f = true -> plain f.
Proof.
  unfold plainb. rewrite andb_true_iff, forallb_forall, Z.eqb_eq. intros [Hb E]. split; [|done].
  apply list.Forall_forall. intros x Hx%list_elem_of_In. specialize (Hb x Hx). unfold is_byte. lia.
Qed.

Definition raw_snat0 : SnatEntry := {| sn_id := 0; sn_internalIp := 0; sn_internalNetmask := 0; sn_externalIp := 0 |}.
Definition raw_dnat0 : DnatEntry := {| dn_id := 0; dn_internalIp := 0; dn_externalIp := 0 |}.
Definition raw_pf0 : PfEntry :=
  {| pf_id := 0; pf_internalIp := 0; pf_externalIp := 0; pf_internalPort := 0; pf_externalPort := 0; pf_proto := ALL |}.

Definition fresh0 : nat_dp := NatDp ∅ ∅ (t_new 1024) (t_new 1024) 0.
Lemma fresh0_fresh : fresh fresh0.
Proof. split; try done. by intros []. Qed.

(** The user's operations of the example: one rule of each kind, then the address
    of the parent and masquerading. *)
Definition nat_events0 : list nat_event :=
  [UserOp (SnatAppend "5.5.5.5" "10.0.0.0/24"); UserOp (DnatAppend "5.5.5.6" "10.0.0.9");
   UserOp (PfAppend "5.5.5.5" "10.0.0.7" 8080 80 "tcp"); UserOp (ParentIp "9.9.9.9/24"); UserOp MasqueradeOn].
Definition nat0 : nat_cube := NatCube [] [] [] false "" fresh0.
Definition nat_run (l : list nat_event) (c : nat_cube) : nat_cube :=
  fold_left (fun c ev => run_event raw_snat0 raw_dnat0 raw_pf0 false ev c) l c.
Definition nat1 : nat_cube := nat_run nat_events0 nat0.
(** Source rules only. *)
Definition nat2 : nat_cube := nat_run [UserOp (SnatAppend "5.5.5.5" "10.0.0.0/24")] nat0.

#[local] Abbreviation reach := (reachable raw_snat0 raw_dnat0 raw_pf0 false).
Definition roomyb (c : nat_cube) : bool := (0 <? t_free (sm_rules (tables c))) && (0 <? t_free (dp_rules (tables c))).
Definition typed_opb (op : nat_op) : bool :=
  match op with
  | PfAppend _ _ p q _ => (0 <=? p) && (p <? 2 ^ 16) && (0 <=? q) && (q <? 2 ^ 16)
  | ParentIp a => match ip_string_to_nbo_uint (get_ip_from_string a) with Ok _ => true | _ => false end
  | _ => true
  end.
Definition in_rangeb (op : nat_op) (c : nat_cube) : bool :=
  match op with
  | SnatDelete i => (i <? length (snat_ c))%nat
  | DnatDelete i => (i <? length (dnat_ c))%nat
  | PfDelete i => (i <? length (portforwarding_ c))%nat
  | _ => true
  end.
Lemma typed_opb_spec op : typed_opb op = true -> typed_op op.
Proof.
  destruct op; simpl; try done; [rewrite !andb_true_iff; lia|]. intros H.
  destruct (ip_string_to_nbo_uint _) as [x| |]; [by exists x|done..].
Qed.
Lemma in_rangeb_spec op c : in_rangeb op c = true -> in_range op c.
Proof. destruct op; simpl; try done; by rewrite Nat.ltb_lt. Qed.
Lemma roomyb_spec c : roomyb c = true -> roomy c.
Proof. unfold roomyb, roomy. rewrite andb_true_iff. lia. Qed.

Fixpoint user_ops_ok (l : list nat_event) (c : nat_cube) : bool :=
  match l with
  | [] => true
  | UserOp op :: l => roomyb c && typed_opb op && in_rangeb op c && user_ops_ok l (nat_run [UserOp op] c)
  | _ :: _ => false
  end.
Lemma user_ops_reachable l c : reach c -> user_ops_ok l c = true -> reach (nat_run l c).
Proof.
  revert c. induction l as [|[op| |] l IH]; intros c Hc; [done| |done|done].
  cbn [user_ops_ok]. rewrite !andb_true_iff. intros [[[H1 H2] H3] H4]. apply IH; [|exact H4].
  apply (reach_step _ _ _ _ (UserOp op)); [done|]. split; [by apply roomyb_spec|]. split; [by apply typed_opb_spec|by apply in_rangeb_spec].
Qed.
Lemma nat0_reachable : reach nat0.
Proof. by apply (reach_new _ _ _ _ fresh0); [apply fresh0_fresh|]. Qed.
Lemma nat1_reachable : reach nat1.
Proof. apply user_ops_reachable; [apply nat0_reachable|by vm_compute]. Qed.
Lemma nat2_reachable : reach nat2.
Proof. apply user_ops_reachable; [apply nat0_reachable|by vm_compute]. Qed.

(** 10.0.0.3:1000 to 8.8.8.8:53 over UDP, the answer to its first translation, and
    9.8.7.6:3000 to 5.5.5.5:8080 over TCP, all with right checksums. *)
Definition query : list Z :=
  [2; 0; 0; 0; 0; 1; 2; 0; 0; 0; 0; 2; 8; 0;
   69; 0; 0; 31; 0; 1; 0; 0; 64; 17; 96; 187; 10; 0; 0; 3; 8; 8; 8; 8;
   3; 232; 0; 53; 0; 11; 29; 70; 97; 98; 99].
Definition query_flow : st_k := StK 0x0300000a 0x08080808 0xe803 0x3500 17.
Definition query_target : target := Target 0x05050505 0x0004 NAT_SRC true.
Definition answer : list Z :=
  [2; 0; 0; 0; 0; 1; 2; 0; 0; 0; 0; 2; 8; 0;
   69; 0; 0; 31; 0; 1; 0; 0; 64; 17; 96; 180; 8; 8; 8; 8; 5; 5; 5; 5;
   0; 53; 4; 0; 0; 11; 239; 15; 120; 121; 122].
Definition knock : list Z :=
  [2; 0; 0; 0; 0; 1; 2; 0; 0; 0; 0; 2; 8; 0;
   69; 0; 0; 40; 0; 1; 0; 0; 64; 6; 96; 184; 9; 8; 7; 6; 5; 5; 5; 5;
   11; 184; 31; 144; 0; 0; 0; 1; 0; 0; 0; 0; 80; 2; 32; 0; 74; 130; 0; 0].
Definition knock_flow : st_k := StK 0x06070809 0x05050505 0xb80b 0x901f 6.
Definition snat_entry0 : SnatEntry :=
  {| sn_id := 0; sn_internalIp := 0x0000000a; sn_internalNetmask := 24; sn_externalIp := 0x05050505 |}.
Definition dnat_entry0 : DnatEntry := {| dn_id := 0; dn_internalIp := 0x0900000a; dn_externalIp := 0x06050505 |}.
Definition pf_entry0 : PfEntry :=
  {| pf_id := 0; pf_internalIp := 0x0700000a; pf_externalIp := 0x05050505; pf_internalPort := 80; pf_externalPort := 8080;
     pf_proto := TCP |}.

Example query_parses : plain query /\ parse_packet query = P_SESSION query_flow.
Proof. split; [by apply plainb_spec|done]. Qed.
Example answer_parses : plain answer /\ parse_packet answer = P_SESSION (mirror (translated query_flow query_target)).
Proof. split; [by apply plainb_spec|done]. Qed.
Example knock_parses : plain knock /\ parse_packet knock = P_SESSION knock_flow.
Proof. split; [by apply plainb_spec|done]. Qed.
Example query_intact : intact query.
Proof. split; [done|vm_compute; lia|done]. Qed.
Example nat1_rules :
  (snat_ nat1, dnat_ nat1, portforwarding_ nat1) = ([Some snat_entry0], [Some dnat_entry0], [Some pf_entry0]).
Proof. by vm_compute. Qed.
