(* ===== verification/NatTheorems.v ===== *)
(** pcn-nat, what the translation promises: packets are translated as the rules of
    the cube say and carry right checksums, answers come back to whom they belong,
    and every operation keeps the tables and the rules together; and, last, where the
    code departs from what it means to do. *)
From Stdlib Require Import ZArith Lia Ascii String.
From stdpp Require Import base gmap list strings numbers.
From S2P Require Import Prelude.
From S2P Require Import Vec.
From S2P Require Import Bpf.
From S2P Require Import NetUtils.
From S2P Require Import Frame.
From S2P Require Import Csum.
From S2P Require Import NatDatapath.
From S2P Require Import NatFacts.
From S2P Require Import NatSessions.
From S2P Require Import NatRules.
From S2P Require Import NatLists.
From S2P Require Import NatRuleFacts.
From S2P Require Import NatListFacts.
From S2P Require Import NatCube.
From S2P Require Import NatInvariant.
From S2P Require Import NatRefine.
From S2P Require Import NatExample.
#[local] Open Scope Z_scope.
#[local] Open Scope cpp_scope.

Section packets.
Context `{NT : NatTables} `{CsumDiff} (recent : bool).

(** A packet with a session goes through the program of its direction. *)
Lemma session_packet type f k v s :
  nat_ok s -> plain f -> parse_packet f = P_SESSION k -> lru_lookup (session_table type s) k = Some v ->
  let t := Target (new_ip v) (new_port v) (if translates_source type then NAT_SRC else NAT_DST) false in
  exists g, handle_rx recent type f s = (RX_OK, g, s) /\ parse_packet g = P_SESSION (translated k t).
Proof using Type.
  intros Hok Hf Hp Hl t. exists (rewritten recent k t f). split; [by apply handle_rx_hit|].
  apply carries_parse; [by apply rewritten_plain|]. apply rewritten_carries; [done|by apply parse_carries|].
  exact (no_sessions s Hok type k v Hl).
Qed.

(** The answer to a translated packet, translated back. *)
Lemma answer_translated type k t b :
  flow_ok k -> is_source_nat (rule_type t) = translates_source type ->
  let v := original type k t in
  translated (mirror (translated k t)) (Target (new_ip v) (new_port v) (if translates_source (opposite type) then NAT_SRC else NAT_DST) b)
  = mirror k.
Proof using Type.
  intros [_ _ _ _ Hicmp] Es. unfold original, translated, mirror. rewrite Es. destruct k as [si di sp dp p].
  destruct type; simpl in *; destruct (Z.eqb_spec p IPPROTO_ICMP) as [->|]; try done; by rewrite Hicmp.
Qed.

Lemma same_flow type k t :
  is_source_nat (rule_type t) = translates_source type ->
  translated k (Target (newIp t) (newPort t) (if translates_source type then NAT_SRC else NAT_DST) false) = translated k t.
Proof using Type. intros Es. unfold translated. rewrite Es. by destruct type. Qed.

(** What the first packet of a flow leaves: its translation and its session. *)
Lemma first_packet type f k s t s1 :
  nat_ok s -> plain f -> parse_packet f = P_SESSION k ->
  lru_lookup (session_table type s) k = None -> rule_lookup type k s = (Some t, s1) ->
  exists g, let s' := update_sessions k t s1 in
    handle_rx recent type f s = (RX_OK, g, s') /\ parse_packet g = P_SESSION (translated k t) /\ nat_ok s' /\ flow_ok k /\
    is_source_nat (rule_type t) = translates_source type /\
    lru_lookup (session_table type s') k = Some (StV (newIp t) (newPort t) (rule_type t)) /\
    lru_lookup (session_table (opposite type) s') (mirror (translated k t)) = Some (original type k t).
Proof using Type.
  intros Hok Hf Hp Hm Hr. pose proof (parse_flow f k (proj1 Hf) Hp) as Hk.
  destruct (rule_lookup_ok type k s t s1 Hok Hk Hr) as (Es & Ht & Eu).
  destruct (session_opened type k t s1 Es Eu) as (E1 & E2 & _). exists (rewritten recent k t f). cbv zeta.
  split; [by apply handle_rx_rule|]. split.
  { apply carries_parse; [by apply rewritten_plain|]. apply rewritten_carries; [done|by apply parse_carries|done]. }
  split; [apply (session_opened_ok type); try done; by eapply rule_lookup_nat_ok|]. split; [done|]. split; [done|].
  split; [rewrite E1|rewrite E2]; apply lru_update_eq.
Qed.

(** C12. Translation goes both ways, in both programs and for TCP, UDP and ICMP: the
    first packet, without IP options, of a flow for which there is a rule is translated
    and opens a session; from then on answers (without IP options) to the translated
    flow are translated back into answers to the original one by the opposite program,
    and the flow's later packets are translated as the first was, without any further
    change of the tables. *)
Theorem translation_round_trip type f k s t s1 :
  nat_ok s -> plain f -> parse_packet f = P_SESSION k ->
  lru_lookup (session_table type s) k = None -> rule_lookup type k s = (Some t, s1) ->
  exists g s', handle_rx recent type f s = (RX_OK, g, s') /\ parse_packet g = P_SESSION (translated k t) /\ nat_ok s' /\
    (forall r, plain r -> parse_packet r = P_SESSION (mirror (translated k t)) ->
       exists r', handle_rx recent (opposite type) r s' = (RX_OK, r', s') /\ parse_packet r' = P_SESSION (mirror k)) /\
    (forall f', plain f' -> parse_packet f' = P_SESSION k ->
       exists g', handle_rx recent type f' s' = (RX_OK, g', s') /\ parse_packet g' = P_SESSION (translated k t)).
Proof using Type.
  intros Hok Hf Hp Hm Hr. destruct (first_packet type f k s t s1 Hok Hf Hp Hm Hr) as (g & Hg & Hpg & Hok' & Hk & Es & H1 & H2).
  exists g, (update_sessions k t s1). do 3 (split; [done|]). split.
  - intros r Hr' Hpr. destruct (session_packet _ r _ _ _ Hok' Hr' Hpr H2) as (r' & Hrun & Hpr'). exists r'. split; [done|].
    by rewrite answer_translated in Hpr'.
  - intros f' Hf' Hp'. destruct (session_packet _ f' _ _ _ Hok' Hf' Hp' H1) as (g' & Hrun & Hpg'). exists g'. split; [done|].
    cbn [new_ip new_port] in Hpg'. by rewrite same_flow in Hpg'.
Qed.

(** The bytes that no translation touches. *)
Lemma rewritten_elsewhere k t f i : (i < 24 \/ 52 <= i)%nat -> rewritten recent k t f !! i = f !! i.
Proof using Type.
  assert (forall g o x, (i < o \/ o + 2 <= i)%nat -> wr16 g o x !! i = g !! i) as H16.
  { intros g o x Ho. unfold wr16. by rewrite !list_lookup_insert_ne by lia. }
  intros Hi. unfold rewritten, l4_rewritten, replaced, csum_off, port_off, ip_off, wr32.
  repeat case_match; by rewrite !H16 by lia.
Qed.

(** C13. A packet leaves the NAT with the checksums it should have: whatever the
    tables hold, a packet without IP options whose IP and L4 checksums are right is
    passed with both right again, with the same length, and with the same bytes
    before the IP checksum and after the L4 header's checksum; only packets that
    are not IPv4 over TCP, UDP or ICMP, or that are too short, are dropped. *)
Theorem translation_keeps_checksums type f s :
  nat_ok s -> plain f -> intact f ->
  let '(v, g, _) := handle_rx recent type f s in
  plain g /\ intact g /\ length g = length f /\ (forall i, (i < 24 \/ 52 <= i)%nat -> g !! i = f !! i) /\
  (v = RX_DROP -> g = f /\ parse_packet f = P_DROP).
Proof using Type.
  intros Hok Hf Hi. assert (forall k t, parse_packet f = P_SESSION k -> target_ok t ->
    plain (rewritten recent k t f) /\ intact (rewritten recent k t f) /\ length (rewritten recent k t f) = length f /\
    (forall i, (i < 24 \/ 52 <= i)%nat -> rewritten recent k t f !! i = f !! i) /\
    (RX_OK = RX_DROP -> rewritten recent k t f = f /\ parse_packet f = P_DROP)) as Hrw.
  { intros k t Hp Ht. pose proof (parse_carries f k Hf Hp) as Hc. split; [by apply rewritten_plain|].
    split; [by apply rewritten_intact|]. split; [by apply rewritten_head|]. split; [apply rewritten_elsewhere|done]. }
  destruct (parse_packet f) as [| |k] eqn:Hp; [by unfold handle_rx; rewrite Hp..|].
  destruct (lru_lookup (session_table type s) k) as [v|] eqn:Hl.
  - rewrite (handle_rx_hit recent type f k s v Hp Hl Hf). apply Hrw; [done|]. exact (no_sessions s Hok type k v Hl).
  - destruct (rule_lookup type k s) as [[t|] s1] eqn:Hr.
    + rewrite (handle_rx_rule recent type f k s t s1 Hp Hl Hr Hf). apply Hrw; [done|].
      by destruct (rule_lookup_ok type k s t s1 Hok (parse_flow f k (proj1 Hf) Hp) Hr) as (_ & ? & _).
    + by rewrite (handle_rx_miss recent type f k s s1 Hp Hl Hr).
Qed.

(** C14. Answers are not misdelivered: with source rules only, once a flow has a
    session, and through any further 64510 packets of either direction, an answer
    to the translated flow is either translated back for the flow's own sender or,
    when its session was evicted, passed as it is; it never goes to another host. *)
Theorem answers_reach_their_sender f k s t s1 l r :
  nat_ok s -> t_entries (dp_rules s) = [] -> plain f -> parse_packet f = P_SESSION k ->
  lru_lookup (egress_session_table s) k = None -> rule_lookup NATTYPE_EGRESS k s = (Some t, s1) ->
  Forall (fun x => Forall is_byte x.2) l -> Z.of_nat (length l) <= 64510 ->
  plain r -> parse_packet r = P_SESSION (mirror (translated k t)) ->
  let s' := handle_all recent ((NATTYPE_EGRESS, f) :: l) s in
  exists r', handle_rx recent NATTYPE_INGRESS r s' = (RX_OK, r', s') /\ (parse_packet r' = P_SESSION (mirror k) \/ r' = r).
Proof using Type.
  intros Hok Hd Hf Hp Hm Hr Hl Hlen Hrp Hrk. cbn [handle_all].
  destruct (first_packet NATTYPE_EGRESS f k s t s1 Hok Hf Hp Hm Hr) as (g & Hg & _ & Hok' & Hk & Es & _ & H2).
  rewrite Hg. cbn [snd]. set (s2 := update_sessions k t s1) in *.
  destruct (rule_lookup_state _ k s _ s1 Hok Hr) as (_ & _ & _ & Ed & _ & Hport).
  destruct (rule_lookup_ok _ k s t s1 Hok Hk Hr) as (_ & Ht & Eu).
  destruct (session_opened NATTYPE_EGRESS k t s1 Es Eu) as (_ & _ & _ & Ed' & Ep). fold s2 in Ed', Ep.
  clearbody s2.
  assert (newPort t = bswap16 (first_port s) /\ first_port s2 = ith_port (first_port s) 1) as [Enew Enext].
  { cbn [rule_lookup] in Hr. destruct (t_lookup _ _ _); [|done]. destruct (get_free_port_spec s (no_port s Hok)) as (s3 & E & _ & _ & E1 & _).
    rewrite E in Hr. injection Hr as <- <-. split; [done|]. unfold first_port. by rewrite Ep. }
  assert (t_entries (dp_rules s2) = []) as Hd2 by by rewrite Ed', Ed.
  pose proof (get_free_port_spec s (no_port s Hok)) as (_ & _ & Hfp & _).
  assert (forall l, Forall (fun x => Forall is_byte x.2) l -> nat_ok (handle_all recent l s2) /\
    t_entries (dp_rules (handle_all recent l s2)) = []) as Hall.
  { intros l' Hl'. clear -Hl' Hok' Hd2. revert s2 Hok' Hd2. induction Hl' as [|[ty fr] l' Hb _ IH]; intros s2 Hok Hd; [done|].
    cbn [handle_all]. destruct (handle_rx_state recent ty fr s2 Hb Hok) as (Hok' & _ & E & _). apply IH; [done|by rewrite E]. }
  destruct (Hall l Hl) as [Hok3 Hd3].
  destruct (answers_kept recent l s2 (first_port s) 1 (first_port s) (mirror (translated k t)) (original NATTYPE_EGRESS k t)) as [Hs|Hs].
  all: try done; try lia.
  - unfold translated. rewrite Es. by rewrite <- Enew.
  - symmetry. by apply ith_port_0.
  - by left.
  - destruct (session_packet NATTYPE_INGRESS r _ _ _ Hok3 Hrp Hrk Hs) as (r' & Hrun & Hpr). exists r'. split; [done|]. left.
    by rewrite (answer_translated NATTYPE_EGRESS) in Hpr.
  - exists r. split; [|by right]. apply (handle_rx_miss recent NATTYPE_INGRESS r _ _ _ Hrk Hs). cbn [rule_lookup].
    pose proof (t_lookup_spec (dp_rules (handle_all recent l s2)) 56
      (dp_key (dst_ip (mirror (translated k t))) (dst_port (mirror (translated k t))) (proto (mirror (translated k t))))) as Hlk.
    rewrite Hd3 in Hlk. destruct (t_lookup _ _ _); [|done]. by destruct Hlk as (e & ?%elem_of_nil & _).
Qed.

(** C15. Flows get different ports: any 64511 allocations in a row give pairwise
    different ports, none of them below 1024, and go on round the range. *)
Theorem ports_distinct n s :
  0 <= first_free_port s < 2 ^ 16 -> Z.of_nat n <= 64511 ->
  NoDup (allocate n s).1 /\ Forall (fun p => 1024 <= bswap16 p < 65535) (allocate n s).1 /\ length (allocate n s).1 = n.
Proof using Type.
  intros Hs Hn. rewrite (allocate_spec n s Hs). split; [|split].
  - apply NoDup_alt. intros i j p Hi Hj. rewrite list_lookup_fmap in Hi, Hj.
    apply fmap_Some in Hi as (a & [-> Ha]%lookup_seq & ->). apply fmap_Some in Hj as (b & [-> Hb]%lookup_seq & E).
    pose proof (ith_port_range (first_port s) i). pose proof (ith_port_range (first_port s) j).
    apply (f_equal bswap16) in E. cbn [Nat.add] in *. rewrite !bswap16_involutive in E by lia. apply ith_port_inj in E; lia.
  - apply list.Forall_forall. intros p (i & -> & _)%list_elem_of_fmap. pose proof (ith_port_range (first_port s) i).
    rewrite bswap16_involutive by lia. done.
  - by rewrite length_map, length_seq.
Qed.
End packets.

Section cube.
Context `{Inet} `{NT : NatTables} `{CsumDiff} `{!LruKeys st_k st_v sessionT}.
Context (raw_snat : SnatEntry) (raw_dnat : DnatEntry) (raw_pf : PfEntry) (recent : bool).
#[local] Abbreviation reachable := (reachable raw_snat raw_dnat raw_pf recent).

(** C9. In every state that these events lead to, in any order and with operations that
    fail among them (appending a rule of each kind, deleting an existing one (identifier
    below the size of its list), flushing a kind, a change of the parent's address to
    another address, enabling masquerading; packets; flushes of the translations; the
    tables having room), the tables of the datapath hold exactly the rules that the cube
    shows, each once and numbered by its place, masquerading has its entry with the
    cube's address exactly when it is enabled, and the sessions and ports are those that
    the programs can work with. Not among the events, because the two disagree after
    them: disabling masquerading ([masquerade_disable_zero_source]), deleting the rule
    object ([delRule_keeps_masquerading]) and deleting at the identifier equal to the
    size ([delete_beyond_end_loses_rule]). *)
Theorem rules_and_tables_agree c :
  reachable c ->
  exists sn dn pf masq, snat_ c = Some <$> sn /\ dnat_ c = Some <$> dn /\ portforwarding_ c = Some <$> pf /\
    Forall snat_wf sn /\ Forall dnat_wf dn /\ Forall pf_wf pf /\
    (forall i e, sn !! i = Some e -> sn_id e = Z.of_nat i) /\ (forall i e, dn !! i = Some e -> dn_id e = Z.of_nat i) /\
    (forall i e, pf !! i = Some e -> pf_id e = Z.of_nat i) /\
    (forall x, x ∈ t_entries (sm_rules (tables c)) <-> x ∈ snat_slot_of <$> sn \/ x ∈ masquerade_slots masq) /\
    (forall x, x ∈ t_entries (dp_rules (tables c)) <-> x ∈ dnat_slot_of <$> dn \/ x ∈ pf_slot_of <$> pf) /\
    masquerades c masq /\ nat_ok (tables c).
Proof using Type.
  intros (sn & dn & pf & masq & E1 & E2 & E3 & [[_ I1 [W1 _ T1 _]] [_ I2 [W2 _ T2 _]] [_ I3 [W3 _ _ _]]] & Hm & Hok)%reachable_rules.
  exists sn, dn, pf, masq. do 12 (split; [done|]). done.
Qed.

(** C8. These operations on the rules of a NAT refine the abstract NAT of three lists:
    appending a rule of each kind, deleting an existing one (identifier below the size
    of its list), flushing a kind, a change of the parent's address to another address,
    enabling masquerading; with 16-bit ports and room in the tables. In every state that
    such operations, packets and flushes of the translations lead to, each returns what
    the abstract one returns (success, the refusal of a rule that asks for the same
    packets as another, the exception of an address, prefix or protocol that does not
    parse), and what the cube then shows is the abstract result. Not covered, because
    the code goes wrong there: disabling masquerading
    ([masquerade_disable_zero_source]), deleting the rule object
    ([delRule_keeps_masquerading]) and deleting at the identifier equal to the size
    ([delete_beyond_end_loses_rule]). *)
Theorem operations_refine op c a :
  reachable c -> roomy c -> typed_op op -> in_range op c -> shows c a ->
  let '(r, a') := spec_op op a in
  (run_op raw_snat raw_dnat raw_pf op c).1 = r /\ shows (run_op raw_snat raw_dnat raw_pf op c).2 a'.
Proof using Type. intros [Hs _]%reachable_ok. by apply run_op_refines. Qed.

(** The source rules of a cube decide its outgoing packets. *)
Definition outgoing (c : nat_cube) (sn : list SnatEntry) (k : st_k) (new : option Z) : Prop :=
  match new with
  | Some ip => (exists e, best_snat sn k e /\ ip = sn_externalIp e) \/
      (Forall (fun e => ~ snat_covers k e) sn /\ masquerade_enabled c = true /\ ip_string_to_nbo_uint (external_ip_ c) = Ok ip)
  | None => Forall (fun e => ~ snat_covers k e) sn /\ masquerade_enabled c = false
  end.

(** C10. In every state that appending, deleting existing rules, flushing, changes of
    the parent's address, enabling masquerading, packets and flushes of the translations
    lead to (masquerading having never been disabled, see
    [masquerade_disable_zero_source], nor the rule object deleted), the first packet,
    without IP options, of an outgoing flow gets the external address of the rule with
    the longest prefix that covers its source, or without such a rule the cube's own
    address when masquerading is enabled, and the next port; with neither it passes
    unchanged and the tables stay as they are. *)
Theorem outgoing_packets c sn f k :
  reachable c -> snat_ c = Some <$> sn -> plain f -> parse_packet f = P_SESSION k ->
  lru_lookup (egress_session_table (tables c)) k = None ->
  exists g d, handle_rx recent NATTYPE_EGRESS f (tables c) = (RX_OK, g, d) /\
    ((exists ip, outgoing c sn k (Some ip) /\
        parse_packet g = P_SESSION (translated k (Target ip (bswap16 (first_port (tables c))) NAT_SRC true)) /\
        first_port d = ith_port (first_port (tables c)) 1) \/
     (outgoing c sn k None /\ g = f /\ d = tables c)).
Proof using Type.
  intros (sn' & dn & pf & masq & E1 & _ & _ & Hsy & [Hm Hip] & Hok)%reachable_rules Es Hf Hp Hl.
  rewrite E1 in Es. apply (inj (fmap Some)) in Es as ->. pose proof (parse_flow f k (proj1 Hf) Hp) as Hk.
  pose proof (egress_rule_spec raw_snat raw_dnat raw_pf c sn dn pf masq k Hsy Hk) as Hspec.
  destruct (rule_lookup NATTYPE_EGRESS k (tables c)) as [[t|] s1] eqn:Hr.
  - destruct (first_packet recent NATTYPE_EGRESS f k _ t s1 Hok Hf Hp Hl Hr) as (g & Hg & Hpg & _ & _ & Est & _).
    destruct (rule_lookup_ok _ k _ t s1 Hok Hk Hr) as (_ & _ & Eu).
    destruct (session_opened NATTYPE_EGRESS k t s1 Est Eu) as (_ & _ & _ & _ & Ep).
    destruct Hspec as [Hnp Hcase]. exists g, (update_sessions k t s1). split; [done|]. left. exists (newIp t). split; [|split].
    + destruct Hcase as [(e & Hb & Hi & _)|(Hn & Hi & _)]; [left; by exists e|]. right. split; [done|]. split; [|by apply Hip].
      apply Hm. rewrite Hi. by eexists.
    + rewrite Hpg. unfold translated. rewrite Est. cbn [rule_type]. by rewrite Hnp.
    + unfold first_port at 1. rewrite Ep. fold (first_port s1). cbn [rule_lookup] in Hr. destruct (t_lookup _ _ _); [|done].
      destruct (get_free_port_spec _ (no_port _ Hok)) as (s3 & E & _ & _ & E3 & _). rewrite E in Hr. by injection Hr as _ <-.
  - exists f, s1. destruct Hspec as (Hn & Hi & ->). split; [by apply (handle_rx_miss recent NATTYPE_EGRESS f k)|]. right.
    split; [|done]. split; [done|]. destruct (masquerade_enabled c); [|done]. destruct (proj1 Hm eq_refl) as [? ?]. congruence.
Qed.

(** C11. In every state that appending, deleting existing rules, flushing, changes of
    the parent's address, enabling masquerading, packets and flushes of the translations
    lead to, the first packet, without IP options, of an incoming flow goes where the
    port forwarding rule for its address, port and protocol says (a rule for its
    protocol before one for all protocols, port 0 standing for the packet's own port),
    without such a rule where the destination rule for its address says, on its own
    port; with neither it passes unchanged and the tables stay as they are. *)
Theorem incoming_packets c dn pf f k :
  reachable c -> dnat_ c = Some <$> dn -> portforwarding_ c = Some <$> pf -> plain f -> parse_packet f = P_SESSION k ->
  lru_lookup (ingress_session_table (tables c)) k = None ->
  exists g d, handle_rx recent NATTYPE_INGRESS f (tables c) = (RX_OK, g, d) /\
    ((exists e, e ∈ pf /\ pf_covers k e /\
        (forall e', e' ∈ pf -> pf_covers k e' -> pf_proto e = ALL -> pf_proto e' = ALL) /\
        parse_packet g = P_SESSION (translated k (Target (pf_internalIp e)
          (if bswap16 (pf_internalPort e) =? 0 then dst_port k else bswap16 (pf_internalPort e)) NAT_PFW true))) \/
     (Forall (fun e => ~ pf_covers k e) pf /\ exists e, e ∈ dn /\ dnat_covers k e /\
        parse_packet g = P_SESSION (translated k (Target (dn_internalIp e) (dst_port k) NAT_DST true))) \/
     (Forall (fun e => ~ pf_covers k e) pf /\ Forall (fun e => ~ dnat_covers k e) dn /\ g = f /\ d = tables c)).
Proof using Type.
  intros (sn & dn' & pf' & masq & _ & E2 & E3 & Hsy & _ & Hok)%reachable_rules Ed Epf Hf Hp Hl.
  rewrite E2 in Ed. apply (inj (fmap Some)) in Ed as ->. rewrite E3 in Epf. apply (inj (fmap Some)) in Epf as ->.
  pose proof (parse_flow f k (proj1 Hf) Hp) as Hk.
  assert (0 <= proto k < 256) as Hpr by (rewrite (ca_proto f k (parse_carries f k Hf Hp)); by apply (rd8_range f 23), Hf).
  pose proof (ingress_rule_spec raw_snat raw_dnat raw_pf c sn dn pf masq k Hsy Hk Hpr) as Hspec.
  destruct (rule_lookup NATTYPE_INGRESS k (tables c)) as [[t|] s1] eqn:Hr; destruct Hspec as [-> Hspec].
  - destruct (first_packet recent NATTYPE_INGRESS f k _ t _ Hok Hf Hp Hl Hr) as (g & Hg & Hpg & _).
    exists g, (update_sessions k t (tables c)). split; [done|].
    destruct t as [tip tport ttype tupd]. cbn [newIp newPort rule_type] in *.
    destruct Hspec as [(e & He & Hc & Hbest & -> & -> & ->)|(Hn & e & He & Hc & -> & -> & ->)].
    + left. exists e. do 3 (split; [done|]). done.
    + right. left. split; [done|]. exists e. do 2 (split; [done|]). done.
  - exists f, (tables c). split; [by apply (handle_rx_miss recent NATTYPE_INGRESS f k)|]. right. right. by destruct Hspec.
Qed.

(** Emptying the translation table always returns, leaves both session tables
    without any entry, and touches nothing else. *)
Theorem delNattingTableList_empties c :
  exists e i, delNattingTableList c = (Ok tt, set_tables (set_sessions e i (tables c)) c) /\
    (forall k, lru_lookup e k = None) /\ (forall k, lru_lookup i k = None).
Proof using Type. apply delNattingTableList_run. Qed.

(** The text of an address without a prefix length of its own. *)
Lemma address_text x : 0 <= x < 2 ^ 32 -> IpAddr_fromString (IpAddr_toString {| ip := x; netmask := 32 |}) = Ok {| ip := x; netmask := 32 |}.
Proof using Type.
  intros Hx. rewrite net_text_ok by lia. do 2 f_equal. change (mask_of 32) with (Z.ones 32). rewrite Z.land_ones by lia.
  by apply Z.mod_small.
Qed.

(** A rule is what its description says: describing a well-formed rule of any
    of the three kinds and making a rule from the description gives it back. *)
Theorem nat_rules_roundtrip :
  (forall e, snat_wf e -> RuleSnatEntry_new raw_snat (RuleSnatEntry_toJsonObject e) = Ok e) /\
  (forall e, dnat_wf e -> RuleDnatEntry_new raw_dnat (RuleDnatEntry_toJsonObject e) = Ok e) /\
  (forall e, pf_wf e -> RulePortForwardingEntry_new raw_pf (RulePortForwardingEntry_toJsonObject e) = Ok e).
Proof using H NT raw_dnat raw_pf raw_snat.
  split; [|split].
  - intros [id x n y] (Hn & [Hx Hm] & Hy). refine (eq_trans (snat_new_rule raw_snat _ _ _) _). unfold snat_rule, RuleSnatEntry_getInternalNet, RuleSnatEntry_getExternalIp.
    cbn [sn_id sn_internalIp sn_internalNetmask sn_externalIp] in *. rewrite net_text_ok, address_text by done. cbn. by rewrite Hm.
  - intros [id x y] [Hx Hy]. refine (eq_trans (dnat_new_rule raw_dnat _ _ _) _). unfold dnat_rule, RuleDnatEntry_getExternalIp, RuleDnatEntry_getInternalIp.
    cbn [dn_id dn_internalIp dn_externalIp] in *. by rewrite !address_text.
  - intros [id x y p q pr] (Hx & Hy & Hp & Hq). refine (eq_trans (pf_new_rule raw_pf _ _ _ _ _ _) _).
    unfold pf_rule, RulePortForwardingEntry_getExternalIp, RulePortForwardingEntry_getInternalIp.
    cbn [pf_id pf_internalIp pf_externalIp pf_internalPort pf_externalPort pf_proto] in *. rewrite !address_text by done. by destruct pr.
Qed.
End cube.

(** ** On the example *)
Lemma nat1_ok : nat_ok (tables nat1).
Proof. apply (reachable_ok _ _ _ _ _ nat1_reachable). Qed.
Lemma nat2_ok : nat_ok (tables nat2).
Proof. apply (reachable_ok _ _ _ _ _ nat2_reachable). Qed.
Definition next1 : nat_dp := (rule_lookup NATTYPE_EGRESS query_flow (tables nat1)).2.
Definition next2 : nat_dp := (rule_lookup NATTYPE_EGRESS query_flow (tables nat2)).2.
Lemma rule1 : rule_lookup NATTYPE_EGRESS query_flow (tables nat1) = (Some query_target, next1).
Proof. unfold next1. rewrite (surjective_pairing (rule_lookup _ _ _)) at 1. by f_equal. Qed.
Lemma rule2 : rule_lookup NATTYPE_EGRESS query_flow (tables nat2) = (Some query_target, next2).
Proof. unfold next2. rewrite (surjective_pairing (rule_lookup _ _ _)) at 1. by f_equal. Qed.

Lemma translation_round_trip_witness :
  exists g s', handle_rx false NATTYPE_EGRESS query (tables nat1) = (RX_OK, g, s') /\
    parse_packet g = P_SESSION (translated query_flow query_target) /\
    exists r', handle_rx false NATTYPE_INGRESS answer s' = (RX_OK, r', s') /\ parse_packet r' = P_SESSION (mirror query_flow).
Proof.
  destruct (translation_round_trip false NATTYPE_EGRESS query query_flow (tables nat1) query_target next1 nat1_ok
    (proj1 query_parses) (proj2 query_parses) eq_refl rule1) as (g & s' & H1 & H2 & _ & H3 & _).
  exists g, s'. split; [exact H1|]. split; [exact H2|]. exact (H3 answer (proj1 answer_parses) (proj2 answer_parses)).
Defined.

Lemma translation_keeps_checksums_witness :
  let '(_, g, _) := handle_rx false NATTYPE_EGRESS query (tables nat1) in intact g /\ drop 42 g = [97; 98; 99].
Proof.
  pose proof (translation_keeps_checksums false NATTYPE_EGRESS query (tables nat1) nat1_ok (proj1 query_parses) query_intact) as Hk.
  destruct (handle_rx false NATTYPE_EGRESS query (tables nat1)) as [[v g] d] eqn:E. split; [apply Hk|].
  pose proof (f_equal (fun x => drop 42 x.1.2) E) as Ed. cbn [fst snd] in Ed. rewrite <- Ed. vm_compute. reflexivity.
Defined.

Lemma answers_reach_their_sender_witness :
  exists r', handle_rx false NATTYPE_INGRESS answer (handle_all false [(NATTYPE_EGRESS, query); (NATTYPE_INGRESS, knock)] (tables nat2))
      = (RX_OK, r', handle_all false [(NATTYPE_EGRESS, query); (NATTYPE_INGRESS, knock)] (tables nat2)) /\
    (parse_packet r' = P_SESSION (mirror query_flow) \/ r' = answer).
Proof.
  apply (answers_reach_their_sender false query query_flow (tables nat2) query_target next2 [(NATTYPE_INGRESS, knock)] answer).
  - exact nat2_ok.
  - reflexivity.
  - exact (proj1 query_parses).
  - reflexivity.
  - reflexivity.
  - exact rule2.
  - constructor; [exact (proj1 (proj1 knock_parses))|constructor].
  - cbn. lia.
  - exact (proj1 answer_parses).
  - exact (proj2 answer_parses).
Defined.

Lemma ports_distinct_witness : NoDup (allocate (Z.to_nat 64511) (tables nat1)).1.
Proof. apply (ports_distinct (Z.to_nat 64511) (tables nat1)); [exact (no_port _ nat1_ok)|lia]. Defined.

Lemma rules_and_tables_agree_witness :
  exists sn dn pf, snat_ nat1 = Some <$> sn /\ dnat_ nat1 = Some <$> dn /\ portforwarding_ nat1 = Some <$> pf /\
    Forall snat_wf sn /\ Forall dnat_wf dn /\ Forall pf_wf pf.
Proof.
  destruct (rules_and_tables_agree raw_snat0 raw_dnat0 raw_pf0 false nat1 nat1_reachable)
    as (sn & dn & pf & _ & H1 & H2 & H3 & H4 & H5 & H6 & _).
  exists sn, dn, pf. do 5 (split; [assumption|]). assumption.
Defined.

Definition spec1 : nat_spec := NatSpec [snat_entry0] [dnat_entry0] [pf_entry0] true "9.9.9.9".
Lemma operations_refine_witness :
  shows nat1 spec1 /\
  (run_op raw_snat0 raw_dnat0 raw_pf0 (SnatAppend "7.7.7.7" "10.0.0.5/24") nat1).1
    = Throw (RuntimeError "Cannot insert duplicate mapping") /\
  shows (run_op raw_snat0 raw_dnat0 raw_pf0 (SnatAppend "7.7.7.7" "10.0.0.5/24") nat1).2 spec1.
Proof.
  assert (shows nat1 spec1) as Hs by (vm_compute; repeat (split; [reflexivity|]); reflexivity). split; [exact Hs|].
  exact (operations_refine raw_snat0 raw_dnat0 raw_pf0 false (SnatAppend "7.7.7.7" "10.0.0.5/24") nat1 spec1 nat1_reachable
    (roomyb_spec nat1 eq_refl) I I Hs).
Defined.

Lemma outgoing_packets_witness :
  exists g d, handle_rx false NATTYPE_EGRESS query (tables nat1) = (RX_OK, g, d) /\
    ((exists ip, outgoing nat1 [snat_entry0] query_flow (Some ip) /\
        parse_packet g = P_SESSION (translated query_flow (Target ip (bswap16 (first_port (tables nat1))) NAT_SRC true)) /\
        first_port d = ith_port (first_port (tables nat1)) 1) \/
     (outgoing nat1 [snat_entry0] query_flow None /\ g = query /\ d = tables nat1)).
Proof.
  exact (outgoing_packets raw_snat0 raw_dnat0 raw_pf0 false nat1 [snat_entry0] query query_flow nat1_reachable eq_refl
    (proj1 query_parses) (proj2 query_parses) eq_refl).
Defined.

Lemma incoming_packets_witness :
  exists g d, handle_rx false NATTYPE_INGRESS knock (tables nat1) = (RX_OK, g, d) /\
    parse_packet g = P_SESSION (translated knock_flow (Target 0x0700000a (bswap16 80) NAT_PFW true)).
Proof.
  destruct (incoming_packets raw_snat0 raw_dnat0 raw_pf0 false nat1 [dnat_entry0] [pf_entry0] knock knock_flow nat1_reachable eq_refl eq_refl
    (proj1 knock_parses) (proj2 knock_parses) eq_refl) as (g & d & H1 & H2).
  assert (pf_covers knock_flow pf_entry0) as Hc by (repeat split).
  exists g, d. split; [exact H1|]. destruct H2 as [(e & He & _ & _ & Hp)|[(Hn & _)|(Hn & _)]].
  - apply list_elem_of_singleton in He as ->. exact Hp.
  - exfalso. exact (proj1 (Forall_cons_1 _ _ _ Hn) Hc).
  - exfalso. exact (proj1 (Forall_cons_1 _ _ _ Hn) Hc).
Defined.

(** Masquerading only, with the address 9.9.9.9. *)
Definition nat3 : nat_cube := nat_run [UserOp (ParentIp "9.9.9.9/24"); UserOp MasqueradeOn] nat0.
(** The source address that a packet leaves with. *)
Definition source_after (f : list Z) (c : nat_cube) : Z := rd32 (handle_rx false NATTYPE_EGRESS f (tables c)).1.2 26.

(** Disabling masquerading does not remove its entry but writes the address 0 in
    it: from then on packets leave with the source address 0.0.0.0. *)
Theorem masquerade_disable_zero_source :
  let '(r, c) := RuleMasquerade_disable nat3 in
  r = Ok true /\ masquerade_enabled c = false /\ source_after query nat3 = 0x09090909 /\ source_after query c = 0.
Proof. by vm_compute. Qed.

(** Deleting all the rules of the cube leaves the entry of masquerading in the
    table: packets are still translated, and the cube says they are not. *)
Theorem delRule_keeps_masquerading :
  let '(r, c) := Nat_delRule raw_snat0 raw_dnat0 raw_pf0 nat3 in
  r = Ok tt /\ masquerade_enabled c = false /\ source_after query c = 0x09090909.
Proof. by vm_compute. Qed.

(** Deleting the rule whose identifier is the number of rules, which there is not,
    succeeds: the last rule is not shown any more, and still translates packets. *)
Theorem delete_beyond_end_loses_rule :
  let '(r, c) := on_snat (delEntry (RuleEntry0 := snat_entry raw_snat0) 1) nat2 in
  r = Ok tt /\ snat_ c = [] /\ source_after query c = 0x05050505.
Proof. by vm_compute. Qed.

(** A UDP packet whose sender computed no checksum leaves with one, and it is
    wrong. *)
Definition unchecked : list Z := <[40%nat := 0]> (<[41%nat := 0]> query).
Theorem zero_checksum_gets_wrong :
  let g := (handle_rx false NATTYPE_EGRESS unchecked (tables nat2)).1.2 in
  rd16 unchecked 40 = 0 /\ rd16 g 40 <> 0 /\
  (sum16 (g ++ [0]) 34 6 + sum16 g 26 4 + rd8 g 23 * 256 + bswap16 11) mod 65535 <> 0.
Proof. vm_compute. done. Qed.

(** One translation looked up by its key has the protocol "unknown" and its port in
    network byte order; in the list it has the right ones. *)
Theorem translation_shown_wrong :
  let d := (handle_rx false NATTYPE_EGRESS query (tables nat2)).2 in
  let shown p port := {| nt_internalSrc := "10.0.0.3"; nt_internalDst := "8.8.8.8"; nt_internalSport := 1000; nt_internalDport := 53;
    nt_proto := p; nt_externalIp := "5.5.5.5"; nt_externalPort := port; nt_originatingRule := NAT_SRC |} in
  getNattingTable "10.0.0.3" "8.8.8.8" 1000 53 "17" (set_tables d nat2) = Ok (shown "unknown" 4) /\
  getNattingTableList (map_to_list (egress_session_table d : gmap st_k st_v)) = [shown "udp" 1024].
Proof. by vm_compute. Qed.

(** Rules given together with the cube, or with one of its lists, are refused
    whatever they say. *)
Theorem rules_at_creation_refused conf rest enabled c :
  exists e, (Rule_addSnat raw_snat0 (Some (conf :: rest)) c).1 = e /\ e <> Ok tt /\
  (new_nat raw_snat0 raw_dnat0 raw_pf0 {| rc_snat := Some (Some (conf :: rest)); rc_masquerade := Some (Some enabled);
     rc_dnat := None; rc_portForwarding := None |} fresh0).1 = e.
Proof.
  exists (no_rule (sc_id conf)). unfold Rule_addSnat, new_nat, Rule_update, lift, bind, if_set. cbn. split; [done|].
  split; [unfold no_rule; by case_match|].
  unfold on_snat, bind, update_entry, get, lift. cbn. unfold no_rule. by destruct (sc_id conf <=? 17).
Qed.
