(* ===== verification/RtDatapath.v ===== *)
(** pcn-router, the datapath: Router_dp.c, compiled for TC or for XDP (without a
    shadow namespace), and what it does to packets. *)
From Stdlib Require Import ZArith Lia Ascii String.
From stdpp Require Import base gmap list strings numbers.
From S2P Require Import Prelude.
From S2P Require Import Bpf.
From S2P Require Import NetUtils.
From S2P Require Import Frame.
From S2P Require Import Csum.
From S2P Require Import Tables.
#[local] Open Scope Z_scope.

Definition ROUTING_TABLE_DIM : Z := 256.
Definition ROUTER_PORT_N : Z := 32.
Definition ARP_TABLE_DIM : Z := 1024.
Definition MAX_SECONDARY_ADDRESSES : Z := 5.
Definition TYPE_NOLOCALINTERFACE : Z := 0.
Definition TYPE_LOCALINTERFACE : Z := 1.
Definition IP_CSUM_OFFSET : Z := 14 + 10.
Definition MAC_MULTICAST_MASK : Z := 1.
Definition ETH_P_IP : Z := 0x0800.
Definition ETH_P_ARP : Z := 0x0806.
Definition ARPOP_REQUEST : Z := 1.
Definition ARPOP_REPLY : Z := 2.
Definition SLOWPATH_ARP_REPLY : Z := 1.
Definition SLOWPATH_ARP_LOOKUP_MISS : Z := 2.
Definition SLOWPATH_TTL_EXCEEDED : Z := 3.
Definition SLOWPATH_PKT_FOR_ROUTER : Z := 4.

(** ** The tables.  A key of the routing table is a length and an address. *)
Record rt_v := RtV { rt_port : Z; rt_nexthop : Z; rt_type : Z }.
Record r_port := RPort {
  rp_ip : Z; rp_netmask : Z; rp_secondary_ip : list Z; rp_secondary_netmask : list Z; rp_mac : Z }.
Record arp_entry := ArpEntry { ae_mac : Z; ae_port : Z }.
#[export] Instance rt_v_eq_dec : EqDecision rt_v.
Proof. solve_decision. Defined.

Class RtTables := {
  routingT : Type; portsT : Type; arpT : Type;
  #[global] routing_ops :: BpfTrie rt_v routingT;
  #[global] ports_ops :: BpfMap Z r_port portsT;
  #[global] arp_ops :: BpfMap Z arp_entry arpT;
}.
#[export] Instance concrete_rt_tables : RtTables :=
  {| routingT := list_trie rt_v; portsT := Z * gmap Z r_port; arpT := Z * gmap Z arp_entry |}.

(** The kernel's bpf_l3_csum_replace with a size of 0: the checksum in the packet is
    updated by a difference. *)
Class L3Replace := {
  l3_replace : Z -> Z -> Z;
  l3_replace_range sum diff : 0 <= l3_replace sum diff < 2 ^ 16;
  l3_replace_spec sum diff : 0 <= sum < 2 ^ 16 -> 0 <= diff < 2 ^ 32 -> exists q, l3_replace sum diff = sum - diff + 65535 * q;
}.
#[export] Program Instance folded_l3_replace : L3Replace := {| l3_replace := pcn_csum_replace_by_diff |}.
Next Obligation. intros. apply u16_range. Qed.
Next Obligation. intros. by apply replace_by_diff_spec. Qed.

(** RX_DROP, pcn_pkt_redirect, and pcn_pkt_controller_with_metadata with RX_DROP. *)
Inductive rt_action := R_DROP | R_REDIRECT (port : Z) | R_CONTROLLER (reason : Z) (mdata : list Z).
#[export] Instance rt_action_eq_dec : EqDecision rt_action.
Proof. solve_decision. Defined.

Section datapath.
Context `{RtTables} `{CsumDiff} `{L3Replace}.
(** POLYCUBE_XDP *)
Context (xdp : bool).

Record rt_dp := RtDp { routing_table : routingT; router_port : portsT; arp_table : arpT }.
Definition set_routing_table (t : routingT) (s : rt_dp) : rt_dp := RtDp t (router_port s) (arp_table s).
Definition set_router_port (t : portsT) (s : rt_dp) : rt_dp := RtDp (routing_table s) t (arp_table s).
Definition set_arp_table (t : arpT) (s : rt_dp) : rt_dp := RtDp (routing_table s) (router_port s) t.

(** An address is its bytes as they are in memory. *)
Definition ip_bytes (ip : Z) : list Z := [byte_of ip 0; byte_of ip 1; byte_of ip 2; byte_of ip 3].
Definition route_of (s : rt_dp) (ip : Z) : option rt_v := t_lookup (routing_table s) 32 (ip_bytes ip).

Definition send_packet_for_router_to_slowpath (frame : list Z) : rt_action :=
  if beyond frame (14 + 20 + 8) then R_DROP
  else R_CONTROLLER SLOWPATH_PKT_FOR_ROUTER [rd32 frame 26; rd32 frame 30; rd8 frame 23].
Definition send_icmp_ttl_time_exceeded (ip_port : Z) : rt_action := R_CONTROLLER SLOWPATH_TTL_EXCEEDED [ip_port].
Definition arp_lookup_miss (dst_ip out_port ip_port : Z) : rt_action :=
  R_CONTROLLER SLOWPATH_ARP_LOOKUP_MISS [dst_ip; out_port; ip_port].

(** The sum of [bufsz / 2] words in an unsigned long; the size is even here. *)
Definition checksum (frame : list Z) (off : nat) (bufsz : nat) : Z :=
  let sum := sum16 frame off (bufsz / 2) in
  let sum := Z.land sum 0xffff + Z.shiftr sum 16 in
  u16 (Z.lnot sum).

Definition send_packet_to_output_interface (frame : list Z) (nexthop out_port ip_port mac_port : Z) (s : rt_dp) : rt_action * list Z :=
  let dst_ip := if nexthop =? 0 then rd32 frame 30 else nexthop in
  match m_lookup (arp_table s) dst_ip with
  | None => (arp_lookup_miss dst_ip out_port ip_port, frame)
  | Some entry =>
      let frame := wr48 frame 0 (ae_mac entry) in
      let frame := wr48 frame 6 mac_port in
      let old_ttl := rd8 frame 22 in
      let new_ttl := u32 (old_ttl - 1) in
      let frame :=
        if xdp then
          let frame := wr16 frame 24 0 in
          let frame := wr8 frame 22 new_ttl in
          wr16 frame 24 (checksum frame 14 20)
        else
          let l3sum := bpf_csum_diff old_ttl new_ttl 0 in
          let frame := wr8 frame 22 new_ttl in
          wr16 frame 24 (l3_replace (rd16 frame 24) l3sum) in
      (R_REDIRECT out_port, frame)
  end.

Fixpoint search_secondary_address (arr : list Z) (ip : Z) : option Z :=
  match arr with
  | [] => None
  | a :: arr => if a =? ip then Some a else search_secondary_address arr ip
  end.

Definition send_arp_reply (frame : list Z) (in_port : Z) (port : r_port) (s : rt_dp) : rt_action * list Z * rt_dp :=
  let target_ip := rd32 frame 38 in
  let reply (sender : Z) :=
    let remotemac := rd48 frame 22 in
    let remoteip := rd32 frame 28 in
    let frame := wr16 frame 20 (bswap16 ARPOP_REPLY) in
    let frame := wr48 frame 32 remotemac in
    let frame := wr48 frame 22 (rp_mac port) in
    let frame := wr32 frame 28 sender in
    let frame := wr32 frame 38 remoteip in
    let frame := wr48 frame 0 remotemac in
    let frame := wr48 frame 6 (rp_mac port) in
    (R_REDIRECT in_port, frame, set_arp_table (bpf_update (arp_table s) remoteip (ArpEntry remotemac in_port)) s) in
  if target_ip =? rp_ip port then reply (rp_ip port)
  else match search_secondary_address (rp_secondary_ip port) target_ip with
       | Some sender => reply sender
       | None => (R_DROP, frame, s)
       end.

Definition notify_arp_reply_to_slowpath (frame : list Z) (in_port : Z) (s : rt_dp) : rt_action * rt_dp :=
  let mac_ := rd48 frame 22 in
  let ip_ := rd32 frame 28 in
  (R_CONTROLLER SLOWPATH_ARP_REPLY [ip_], set_arp_table (bpf_update (arp_table s) ip_ (ArpEntry mac_ in_port)) s).

Definition is_ether_mcast (mac_address : Z) : bool := negb (Z.land mac_address MAC_MULTICAST_MASK =? 0).

Definition handle_ip (frame : list Z) (port : r_port) (s : rt_dp) : rt_action * list Z :=
  if beyond frame (14 + 20) then (R_DROP, frame)
  else
    match route_of s (rd32 frame 30) with
    | None => (R_DROP, frame)
    | Some rt_entry =>
        if rt_type rt_entry =? TYPE_LOCALINTERFACE then (send_packet_for_router_to_slowpath frame, frame)
        else if rd8 frame 22 =? 1 then (send_icmp_ttl_time_exceeded (rp_ip port), frame)
        else
          let out_port := u16 (rt_port rt_entry) in
          match m_lookup (router_port s) out_port with
          | None => (R_DROP, frame)
          | Some r_port_p =>
              send_packet_to_output_interface frame (rt_nexthop rt_entry) out_port (rp_ip r_port_p) (rp_mac r_port_p) s
          end
    end.
Definition handle_arp (frame : list Z) (in_port : Z) (port : r_port) (s : rt_dp) : rt_action * list Z * rt_dp :=
  if beyond frame (14 + 28) then (R_DROP, frame, s)
  else if rd16 frame 20 =? bswap16 ARPOP_REQUEST then send_arp_reply frame in_port port s
  else if rd16 frame 20 =? bswap16 ARPOP_REPLY then
    let '(a, s) := notify_arp_reply_to_slowpath frame in_port s in (a, frame, s)
  else (R_DROP, frame, s).
Definition handle_rx (frame : list Z) (in_port : Z) (s : rt_dp) : rt_action * list Z * rt_dp :=
  if beyond frame 14 then (R_DROP, frame, s)
  else
    match m_lookup (router_port s) (u16 in_port) with
    | None => (R_DROP, frame, s)
    | Some port =>
        if negb (rd48 frame 0 =? rp_mac port) && negb (is_ether_mcast (rd48 frame 0)) then (R_DROP, frame, s)
        else if rd16 frame 12 =? bswap16 ETH_P_IP then (handle_ip frame port s, s)
        else if rd16 frame 12 =? bswap16 ETH_P_ARP then handle_arp frame in_port port s
        else (R_DROP, frame, s)
    end.
End datapath.

(** * What a forwarded packet is *)
(** [h] is [f] with other addresses in front and one hop less to live. *)
Record forwarded (f h : list Z) (dst src : Z) : Prop := {
  fw_bytes : Forall is_byte h;
  fw_length : length h = length f;
  fw_dst : rd48 h 0 = dst;
  fw_src : rd48 h 6 = src;
  fw_ttl : rd8 h 22 = rd8 f 22 - 1;
  fw_rest j : (12 <= j < 22 \/ j = 23 \/ 26 <= j)%nat -> rd8 h j = rd8 f j;
}.
(** The sum of the header with its checksum zero, which a single fold must bring
    below 2^16 (the program that is compiled for XDP folds once). *)
Definition folds_at_once (sum : Z) : Prop := sum mod 2 ^ 16 + sum / 2 ^ 16 < 2 ^ 16.

Section forwarding.
Context `{RtTables} `{CsumDiff} `{L3Replace}.
Implicit Types (s : rt_dp) (f : list Z).

Definition resent (xdp : bool) f (dst src : Z) : list Z :=
  let old_ttl := rd8 f 22 in
  let new_ttl := u32 (old_ttl - 1) in
  let g := wr48 (wr48 f 0 dst) 6 src in
  if xdp then let g := wr8 (wr16 g 24 0) 22 new_ttl in wr16 g 24 (checksum g 14 20)
  else let g := wr8 g 22 new_ttl in wr16 g 24 (l3_replace (rd16 g 24) (bpf_csum_diff old_ttl new_ttl 0)).

Lemma send_known xdp f nexthop out_port ip_port mac_port s e :
  m_lookup (arp_table s) (if nexthop =? 0 then rd32 f 30 else nexthop) = Some e ->
  send_packet_to_output_interface xdp f nexthop out_port ip_port mac_port s = (R_REDIRECT out_port, resent xdp f (ae_mac e) mac_port).
Proof.
  intros He. unfold send_packet_to_output_interface. rewrite He. cbv zeta. unfold resent.
  assert (rd8 (wr48 (wr48 f 0 (ae_mac e)) 6 mac_port) 22 = rd8 f 22) as -> by by rewrite !rd8_wr48_ne by lia.
  by destruct xdp.
Qed.

Lemma resent_forwarded xdp f dst src :
  Forall is_byte f -> (34 <= length f)%nat -> 0 <= dst < 2 ^ 48 -> 0 <= src < 2 ^ 48 -> 2 <= rd8 f 22 ->
  forwarded f (resent xdp f dst src) dst src.
Proof.
  intros Hb Hl Hd Hs Ht. pose proof (rd8_range f 22 Hb) as Hr. set (g := wr48 (wr48 f 0 dst) 6 src).
  assert (Forall is_byte g) as Hg by (subst g; auto with cpp).
  assert (length g = length f) as Elen by (subst g; by rewrite !length_wr48).
  assert (u32 (rd8 f 22 - 1) = rd8 f 22 - 1) as Ettl by (apply Z.mod_small; lia).
  assert (u8 (rd8 f 22 - 1) = rd8 f 22 - 1) as Ettl8 by (apply Z.mod_small; lia).
  assert (forall k x, Forall is_byte k -> length k = length f -> (forall j, (j < 22 \/ j = 23 \/ 26 <= j)%nat -> rd8 k j = rd8 g j) ->
    forwarded f (wr16 (wr8 k 22 (rd8 f 22 - 1)) 24 x) dst src) as Hall.
  { intros k x Hk Ek Hj. rewrite (wr8_wr16 k) by done. rewrite Ettl8. set (y := rd8 f 22 - 1 + _).
    assert (rd8 k 23 = rd8 f 23) as E23 by (rewrite Hj by lia; subst g; by rewrite !rd8_wr48_ne by lia).
    pose proof (rd8_range f 23 Hb). assert (byte_of y 0 = rd8 f 22 - 1 /\ byte_of y 1 = rd8 f 23) as [Y0 Y1].
    { subst y. rewrite byte_of_0, byte_of_1. change (22 + 1)%nat with 23%nat. rewrite E23. split; Z.div_mod_to_equations; lia. }
    assert (forall j, (j < 22 \/ 26 <= j)%nat -> rd8 (wr16 (wr16 k 22 y) 24 x) j = rd8 g j) as Hg8.
    { intros j Hjj. rewrite !rd8_wr16_ne by lia. apply Hj. lia. }
    split.
    - auto with cpp.
    - by rewrite !length_wr16.
    - transitivity (rd48 g 0); [unfold rd48, rd32, rd16; by rewrite !Hg8 by lia|]. subst g. rewrite rd48_wr48_ne by lia. apply rd48_wr48_eq; lia.
    - transitivity (rd48 g 6); [unfold rd48, rd32, rd16; by rewrite !Hg8 by lia|]. subst g. apply rd48_wr48_eq; [rewrite length_wr48; lia|lia].
    - rewrite rd8_wr16_ne by lia. rewrite rd8_wr16 by lia. by rewrite decide_True.
    - intros j [Hj1|[->|Hj1]]; [rewrite Hg8 by lia; subst g; by rewrite !rd8_wr48_ne by lia| |rewrite Hg8 by lia; subst g; by rewrite !rd8_wr48_ne by lia].
      rewrite rd8_wr16_ne by lia. rewrite rd8_wr16 by lia. rewrite decide_False, decide_True by lia. done. }
  unfold resent. fold g. rewrite Ettl. destruct xdp.
  - apply Hall; [auto with cpp|by rewrite length_wr16|]. intros j Hj. by rewrite rd8_wr16_ne by lia.
  - by apply Hall.
Qed.

Lemma sum_ttl g x off n i : Forall is_byte g -> (22 = off + 2 * i)%nat -> (i < n)%nat -> (24 < length g)%nat -> 0 <= x < 256 ->
  sum16 (wr8 g 22 x) off n = sum16 g off n - rd8 g 22 + x.
Proof.
  intros Hg Ho Hi Hl Hx. pose proof (rd8_range g 23 Hg). rewrite wr8_wr16 by done. change (22 + 1)%nat with 23%nat.
  assert (u8 x = x) as -> by (by apply Z.mod_small). rewrite (sum16_in g 22 _ off n i) by lia. unfold rd16. simpl Nat.add. lia.
Qed.
(** The checksum of the header stays right. *)
Lemma resent_checksum_tc f dst src : Forall is_byte f -> (34 <= length f)%nat -> 2 <= rd8 f 22 ->
  sum16 f 14 10 mod 65535 = 0 -> sum16 (resent false f dst src) 14 10 mod 65535 = 0.
Proof.
  intros Hb Hl Ht Hz. pose proof (rd8_range f 22 Hb) as Hr. apply (still_zero _ _ Hz). unfold resent.
  set (g := wr48 (wr48 f 0 dst) 6 src). assert (Forall is_byte g) as Hg by (subst g; auto with cpp).
  assert (length g = length f) as Elen by (subst g; by rewrite !length_wr48).
  assert (u32 (rd8 f 22 - 1) = rd8 f 22 - 1) as -> by (apply Z.mod_small; lia).
  rewrite (sum16_in _ 24 _ 14 10 5) by (rewrite ?length_wr8; try lia; apply l3_replace_range).
  rewrite (sum_ttl g _ 14 10 4) by (try done; lia).
  assert (rd8 g 22 = rd8 f 22) as -> by (subst g; by rewrite !rd8_wr48_ne by lia).
  assert (sum16 g 14 10 = sum16 f 14 10) as -> by (subst g; by rewrite !sum16_out48 by lia).
  assert (Forall is_byte (wr8 g 22 (rd8 f 22 - 1))) as Hw by auto with cpp.
  destruct (l3_replace_spec (rd16 (wr8 g 22 (rd8 f 22 - 1)) 24) (bpf_csum_diff (rd8 f 22) (rd8 f 22 - 1) 0) (rd16_range _ _ Hw) (bpf_csum_diff_range _ _ _)) as [q1 E1].
  destruct (proj1 (congruent _ _) (bpf_csum_diff_mod (rd8 f 22) (rd8 f 22 - 1) 0 ltac:(lia) ltac:(lia) ltac:(lia))) as [q2 E2].
  exists (q1 - q2). lia.
Qed.
Lemma resent_checksum_xdp f dst src : Forall is_byte f -> (34 <= length f)%nat -> 2 <= rd8 f 22 ->
  folds_at_once (sum16 f 14 10 - rd16 f 24 - 1) -> sum16 (resent true f dst src) 14 10 mod 65535 = 0.
Proof.
  intros Hb Hl Ht. pose proof (rd8_range f 22 Hb) as Hr. unfold resent, folds_at_once.
  set (g := wr48 (wr48 f 0 dst) 6 src). assert (Forall is_byte g) as Hg by (subst g; auto with cpp).
  assert (length g = length f) as Elen by (subst g; by rewrite !length_wr48).
  assert (u32 (rd8 f 22 - 1) = rd8 f 22 - 1) as -> by (apply Z.mod_small; lia). cbv zeta.
  set (k := wr8 (wr16 g 24 0) 22 (rd8 f 22 - 1)).
  assert (Forall is_byte k) as Hk by (subst k; auto with cpp). assert (length k = length f) as Ek by (subst k; by rewrite length_wr8, length_wr16).
  assert (sum16 k 14 10 = sum16 f 14 10 - rd16 f 24 - 1) as Es.
  { subst k. rewrite (sum_ttl _ _ 14 10 4) by (rewrite ?length_wr16; auto with cpp; lia). rewrite (sum16_in g 24 0 14 10 5) by lia.
    rewrite rd8_wr16_ne by lia. subst g. rewrite !rd8_wr48_ne, !rd16_wr48_ne, !sum16_out48 by lia. lia. }
  rewrite <- Es. set (S := sum16 k 14 10). intros Hf.
  assert (0 <= S) as Hs0.
  { subst S. assert (forall n o, 0 <= sum16 k o n) as Hp; [|apply Hp]. induction n as [|n IH]; intros o; [done|]. simpl.
    pose proof (rd16_range k o Hk). specialize (IH (o + 2)%nat). lia. }
  assert (checksum k 14 20 = 65535 - (S mod 2 ^ 16 + S / 2 ^ 16)) as Ec.
  { unfold checksum. change (20 / 2)%nat with 10%nat. fold S. cbv zeta. change 0xffff with (2 ^ 16 - 1).
    rewrite land_ones_mod, Z.shiftr_div_pow2 by lia. rewrite u16_lnot; [lia|]. Z.div_mod_to_equations; lia. }
  pose proof (Z.mod_pos_bound S (2 ^ 16) ltac:(lia)). pose proof (Z.div_pos S (2 ^ 16) Hs0 ltac:(lia)).
  rewrite (sum16_in _ 24 _ 14 10 5) by lia. fold S. rewrite Ec.
  assert (rd16 k 24 = 0) as ->.
  { subst k. rewrite wr8_wr16 by auto with cpp. rewrite rd16_wr16_ne by lia. apply rd16_wr16_eq; lia. }
  pose proof (Z.div_mod S (2 ^ 16) ltac:(lia)). apply (still_zero 0); [done|]. exists (1 + S / 2 ^ 16). lia.
Qed.
End forwarding.
