(* ===== verification/RtControl.v ===== *)
(** pcn-router, the control plane without a shadow namespace: routes (Router.cpp,
    Route.cpp), ports and their addresses (Ports.cpp, PortsSecondaryip.cpp), the ARP
    table, the packets that the datapath hands over (Router.cpp, CircularBuffer.cpp)
    and the helpers of Utils.cpp and of libpolycube's utils.cpp that they use. *)
From Stdlib Require Import ZArith Lia Ascii String.
From stdpp Require Import base gmap sets list strings numbers sorting.
From S2P Require Import Prelude.
From S2P Require Import Bpf.
From S2P Require Import NetUtils.
From S2P Require Import Frame.
From S2P Require Import Csum.
From S2P Require Import Tables.
From S2P Require Import CubePorts.
From S2P Require Import RtDatapath.
#[local] Open Scope Z_scope.
#[local] Open Scope cpp_scope.

(** * Addresses as text *)
(** A 32-bit value as an [int]. *)
Definition to_int (x : Z) : Z := if x mod 2 ^ 32 <? 2 ^ 31 then x mod 2 ^ 32 else x mod 2 ^ 32 - 2 ^ 32.
(** [std::atoi], whose number is read as a long. *)
Definition atoi (s : string) : Z :=
  let '(neg, s1) := Scanf.sign (Scanf.skip_spaces s) in
  let '(v, _, _) := Scanf.digits Scanf.dec_digit 10 0 0 s1 in
  let w := if neg : bool then - v else v in
  to_int (Z.max (- 2 ^ 63) (Z.min (2 ^ 63 - 1) w)).
(** The pieces that [std::getline] returns with '/' between them. *)
Fixpoint getlines (s : string) : list string :=
  match s with
  | "" => []
  | String c s =>
      if Ascii.eqb c "/" then "" :: getlines s
      else match getlines s with [] => [String c ""] | e :: l => String c e :: l end
  end.
Definition split_ip_and_prefix `{Inet} (ip_and_prefix : string) : res (string * string) :=
  match getlines ip_and_prefix with
  | ip :: prefix :: _ => m <~ get_netmask_from_prefixlength (atoi prefix) ;; Ok (ip, m)
  | _ => Undefined
  end.

(** The 64-bit number that is drawn makes an address. *)
Definition get_random_mac (draw : Z) : string :=
  let port_mac := Z.lor (Z.land draw (Z.lnot (2 ^ 40))) (2 ^ 41) in
  let mac i := byte_of port_mac (5 - i) in
  (hex02 (mac 0) +:+ String ":" (hex02 (mac 1) +:+ String ":" (hex02 (mac 2) +:+ String ":"
    (hex02 (mac 3) +:+ String ":" (hex02 (mac 4) +:+ String ":" (hex02 (mac 5)))))))%string.

Definition not_an_ip : exn := RuntimeError "Ip address is not in a valide format".
(** One number of an address: [i] is its place. *)
Fixpoint ip_number (i : nat) (n : Z) (s : string) : res (Z * string) :=
  match s with
  | "" => if (i =? 3)%nat then Ok (n, ""%string) else Throw not_an_ip
  | String c s =>
      match Scanf.dec_digit c with
      | Some d => if 2 ^ 31 <=? n * 10 + d then Undefined else ip_number i (n * 10 + d) s
      | None => if ((i <? 3)%nat && Ascii.eqb c ".") || (i =? 3)%nat then Ok (n, s) else Throw not_an_ip
      end
  end.
Definition ip_to_int (ip : string) : res Z :=
  r <~ for_each_res [0; 1; 2; 3]%nat (fun '(value, start) i =>
    p <~ ip_number i 0 start ;;
    let '(n, start) := p in
    if 256 <=? n then Throw not_an_ip else Ok (u32 (u32 (value * 256) + n), start)) (0, ip) ;;
  Ok r.1.
Definition address_in_subnet (ip netmask network : string) : res bool :=
  ipAddress <~ ip_to_int ip ;;
  mask <~ ip_to_int netmask ;;
  net <~ ip_to_int network ;;
  Ok (Z.land ipAddress mask =? Z.land net mask).
Definition get_network_from_ip (ip netmask : string) : res string :=
  address <~ ip_to_int ip ;;
  mask <~ ip_to_int netmask ;;
  let net := Z.land address mask in
  Ok (to_string (byte_of net 3) +:+ "." +:+ to_string (byte_of net 2) +:+ "." +:+ to_string (byte_of net 1) +:+ "." +:+ to_string (byte_of net 0))%string.

(** [catch (...)] *)
Definition any_exn (e : exn) : bool := true.

(** * CircularBuffer *)
Definition SIZE : Z := 5.
Record CircularBuffer := MkBuffer { items : list (list Z); front : Z; rear : Z }.
#[export] Instance CircularBuffer_eq_dec : EqDecision CircularBuffer.
Proof. solve_decision. Defined.
Definition new_CircularBuffer : CircularBuffer := MkBuffer (replicate 5 []) (-1) (-1).
Definition isFull (q : CircularBuffer) : bool := ((front q =? 0) && (rear q =? SIZE - 1)) || (front q =? rear q + 1).
Definition isEmpty (q : CircularBuffer) : bool := front q =? -1.
Definition enQueue (element : list Z) (q : CircularBuffer) : CircularBuffer :=
  let front := if isFull q then front q + 1 else front q in
  let front := if front =? -1 then 0 else front in
  let rear := Z.rem (rear q + 1) SIZE in
  MkBuffer (<[Z.to_nat rear := element]> (items q)) front rear.
Definition deQueue (q : CircularBuffer) : res (list Z * CircularBuffer) :=
  if isEmpty q then Ok ([], q)
  else
    element <~ vec_get (items q) (front q) ;;
    if front q =? rear q then Ok (element, MkBuffer (items q) (-1) (-1))
    else Ok (element, MkBuffer (items q) (Z.rem (front q + 1) SIZE) (rear q)).

(** * libtins

    The packets that the router builds: an Ethernet frame with the layers in it.
    Parsing throws [malformed_packet], looking for a layer [pdu_not_found]; an IP
    packet whose payload is nothing has no inner layer. *)
Class Tins := {
  eth_t : Type; ip_t : Type; icmp_t : Type;
  EthernetII : list Z -> res eth_t;
  HWAddress : string -> res Z;
  eth_src : eth_t -> Z;
  eth_dst : eth_t -> Z;
  set_src_addr : Z -> eth_t -> eth_t;
  set_dst_addr : Z -> eth_t -> eth_t;
  find_ip : eth_t -> res ip_t;
  find_icmp : eth_t -> res icmp_t;
  ip_src_addr : ip_t -> Z;
  inner_serialize : ip_t -> option (list Z);
  with_raw : list Z -> ip_t -> ip_t;
  new_ip : Z -> Z -> ip_t;             (** destination and source *)
  set_ttl : Z -> ip_t -> ip_t;
  new_icmp : Z -> icmp_t;
  icmp_type : icmp_t -> Z;
  set_type : Z -> icmp_t -> icmp_t;
  icmp_with_ip : ip_t -> icmp_t -> icmp_t;
  new_eth : Z -> Z -> eth_t;           (** destination and source *)
  slash_ip : eth_t -> ip_t -> eth_t;
  slash_icmp : eth_t -> icmp_t -> eth_t;
  make_arp_request : Z -> Z -> Z -> eth_t;   (** target, sender, its hardware address *)
}.
Definition ECHO_REPLY : Z := 0.
Definition ECHO_REQUEST : Z := 8.
Definition TIME_EXCEEDED : Z := 11.
Definition IPPROTO_ICMP : Z := 1.

(** * The router *)
(** Ports: the name and the identifier of the daemon's port. *)
Record Ports := MkPorts { p_name : string; p_index : Z }.
#[export] Instance Ports_eq_dec : EqDecision Ports.
Proof. solve_decision. Defined.
#[export] Instance Ports_type : PortType Ports := {| name := p_name; index := p_index |}.
(** What its object holds besides. *)
Record port_state := PortState { mac_ : string; ip_ : string; secondary_ips_ : gset string }.
Record Route := MkRoute { network_ : string; nexthop_ : string; interface_ : string; pathcost_ : Z; pathCostIsSet_ : bool }.
#[export] Instance Route_eq_dec : EqDecision Route.
Proof. solve_decision. Defined.

(** The order of a [std::map] whose keys are pairs of strings, and of a [std::set]. *)
Definition key_le (a b : (string * string) * Route) : Prop :=
  match String.compare a.1.1 b.1.1 with Lt => True | Eq => String.leb a.1.2 b.1.2 = true | Gt => False end.
#[export] Instance key_le_dec : RelDecision key_le.
Proof. intros a b. unfold key_le. destruct (String.compare _ _); apply _. Defined.
Definition text_le (a b : string) : Prop := String.leb a b = true.
#[export] Instance text_le_dec : RelDecision text_le.
Proof. intros a b. unfold text_le. apply _. Defined.

(** What requests carry. *)
Record RouteJson := RouteJ { j_network : string; j_nexthop : string; j_interface : option string; j_pathcost : option Z }.
Record ArpTableJson := ArpTableJ { j_address : string; j_arp_mac : option string; j_arp_interface : option string }.

(** The device at the other end of a port, when there is one, is given the port's
    addresses by the daemon through netlink, which may throw: what happens depends on
    the daemon's cube, the port, the parameter and its value. *)
Class PeerDevice (D : Type) := {
  device_answer : D -> string -> string -> string -> option exn;
  device_answer_std d port_name param_name value e : device_answer d port_name param_name value = Some e -> is_std_exception e = true;
}.

Section router.
Context `{Inet} `{RtTables} `{Tins} {D : Type} `{DaemonCube D} `{!PeerDevice D}.
(** The generator of random numbers: the n-th that is drawn, from 1 to 2^64 - 1. *)
Context (draw : nat -> Z).

Record PortsJson := PortsJ { j_name : string; j_base : d_conf; j_mac : option string; j_ip : option string; j_secondaryip : list string }.

Record Router := MkRouter {
  rt_ports : cube_ports Ports D;
  rt_state : gmap string port_state;   (** the objects of the ports *)
  routes_ : gmap (string * string) Route;
  rt_tables : rt_dp;
  arp_request_map : gmap Z CircularBuffer;
  mu : bool;                           (** the mutex is held *)
  rt_drawn : nat;
  rt_sent : list (Z * eth_t);          (** by port *)
}.
Definition set_ports (p : cube_ports Ports D) (s : Router) : Router :=
  MkRouter p (rt_state s) (routes_ s) (rt_tables s) (arp_request_map s) (mu s) (rt_drawn s) (rt_sent s).
Definition set_state (m : gmap string port_state) (s : Router) : Router :=
  MkRouter (rt_ports s) m (routes_ s) (rt_tables s) (arp_request_map s) (mu s) (rt_drawn s) (rt_sent s).
Definition set_routes (m : gmap (string * string) Route) (s : Router) : Router :=
  MkRouter (rt_ports s) (rt_state s) m (rt_tables s) (arp_request_map s) (mu s) (rt_drawn s) (rt_sent s).
Definition set_tables (t : rt_dp) (s : Router) : Router :=
  MkRouter (rt_ports s) (rt_state s) (routes_ s) t (arp_request_map s) (mu s) (rt_drawn s) (rt_sent s).
Definition set_requests (m : gmap Z CircularBuffer) (s : Router) : Router :=
  MkRouter (rt_ports s) (rt_state s) (routes_ s) (rt_tables s) m (mu s) (rt_drawn s) (rt_sent s).
Definition set_mu (b : bool) (s : Router) : Router :=
  MkRouter (rt_ports s) (rt_state s) (routes_ s) (rt_tables s) (arp_request_map s) b (rt_drawn s) (rt_sent s).
Definition set_drawn (n : nat) (s : Router) : Router :=
  MkRouter (rt_ports s) (rt_state s) (routes_ s) (rt_tables s) (arp_request_map s) (mu s) n (rt_sent s).
Definition set_sent (l : list (Z * eth_t)) (s : Router) : Router :=
  MkRouter (rt_ports s) (rt_state s) (routes_ s) (rt_tables s) (arp_request_map s) (mu s) (rt_drawn s) l.

(** ** The program's tables.  The kernel looks a route up by its longest match, also
    for [get]. *)
Definition rt_get (len network : Z) (s : Router) : res rt_v :=
  match t_lookup (routing_table (rt_tables s)) len (ip_bytes network) with Some v => Ok v | None => Throw (table_error "get" ENOENT) end.
Definition rt_set (len network : Z) (v : rt_v) : M Router unit := fun s =>
  match t_update (routing_table (rt_tables s)) len (ip_bytes network) v with
  | Some t => (Ok tt, set_tables (set_routing_table t (rt_tables s)) s)
  | None => (Throw (table_error "set" ENOSPC), s)
  end.
Definition rt_remove (len network : Z) : M Router unit := fun s =>
  match t_delete (routing_table (rt_tables s)) len (ip_bytes network) with
  | Some t => (Ok tt, set_tables (set_routing_table t (rt_tables s)) s)
  | None => (Throw (table_error "remove" ENOENT), s)
  end.
Definition on_router_port (f : portsT -> res portsT) : M Router unit := fun s =>
  match f (router_port (rt_tables s)) with
  | Ok t => (Ok tt, set_tables (set_router_port t (rt_tables s)) s) | Throw e => (Throw e, s) | Undefined => (Undefined, s)
  end.
Definition on_arp_table (f : arpT -> res arpT) : M Router unit := fun s =>
  match f (arp_table (rt_tables s)) with
  | Ok t => (Ok tt, set_tables (set_arp_table t (rt_tables s)) s) | Throw e => (Throw e, s) | Undefined => (Undefined, s)
  end.

(** ** Routes *)
Definition iterate_routes (s : Router) : list ((string * string) * Route) := merge_sort key_le (map_to_list (routes_ s)).
Definition get_port (port_name : string) (s : Router) : res Ports := get_port_by_name port_name (rt_ports s).

Fixpoint reachable_through (routes : list ((string * string) * Route)) (nexthop : string) : res string :=
  match routes with
  | [] => Throw (RuntimeError ("Non reacheable " +:+ nexthop +:+ " network"))
  | ((network_, nexthop_), r) :: routes =>
      if negb (String.eqb nexthop_ "local") && negb (String.eqb nexthop_ "0.0.0.0") then reachable_through routes nexthop
      else
        p <~ split_ip_and_prefix network_ ;;
        b <~ address_in_subnet p.1 p.2 nexthop ;;
        if b : bool then Ok (interface_ r) else reachable_through routes nexthop
  end.
Definition search_interface_from_nexthop (nexthop : string) (s : Router) : res string := reachable_through (iterate_routes s) nexthop.

(** The best of the routes to a network, none when it is a local one. *)
Fixpoint best_nexthop (network : string) (routes : list ((string * string) * Route)) (best : string * Z) : option (string * Z) :=
  match routes with
  | [] => Some best
  | (_, r) :: routes =>
      if String.eqb (network_ r) network then
        if String.eqb (nexthop_ r) "local" then None
        else best_nexthop network routes (if pathCostIsSet_ r && (pathcost_ r <? best.2) then (nexthop_ r, pathcost_ r) else best)
      else best_nexthop network routes best
  end.
Definition INT32_MAX : Z := 2 ^ 31 - 1.

Definition add_active_nexthop_in_ebpf_map (network nexthop : string) (new_pathcost port_id : Z) : M Router unit :=
  p <-- lift (split_ip_and_prefix network) ;;
  s <-- get ;;
  match best_nexthop network (iterate_routes s) (nexthop, INT32_MAX) with
  | None => ret tt
  | Some (new_nexthop, min) =>
      index <-- lift (if new_pathcost <? min then Ok port_id
                      else i <~ search_interface_from_nexthop new_nexthop s ;; q <~ get_port i s ;; Ok (index q)) ;;
      netmask_len <-- lift (get_netmask_length p.2) ;;
      network <-- lift (ip_string_to_nbo_uint p.1) ;;
      nexthop <-- lift (ip_string_to_nbo_uint nexthop) ;;
      rt_set netmask_len network (RtV (u32 index) nexthop TYPE_NOLOCALINTERFACE)
  end.

Definition find_new_active_nexthop (network nexthop : string) : M Router unit :=
  p <-- lift (split_ip_and_prefix network) ;;
  netmask_len <-- lift (get_netmask_length p.2) ;;
  key_network <-- lift (ip_string_to_nbo_uint p.1) ;;
  s <-- get ;;
  value <-- lift (rt_get netmask_len key_network s) ;;
  if rt_nexthop value =? key_network then
    let new_nexthop := match best_nexthop network (iterate_routes s) ("", INT32_MAX) with None => "0.0.0.0" | Some best => best.1 end in
    if String.eqb new_nexthop "" then rt_remove netmask_len key_network
    else
      i <-- lift (search_interface_from_nexthop new_nexthop s) ;;
      q <-- lift (get_port i s) ;;
      n <-- lift (ip_string_to_nbo_uint new_nexthop) ;;
      rt_set netmask_len key_network (RtV (u32 (index q)) n TYPE_NOLOCALINTERFACE)
  else ret tt.

Definition erase_route (key : string * string) : M Router unit := modify (fun s => set_routes (delete key (routes_ s)) s).
Definition remove_route (network nexthop : string) : M Router unit :=
  s <-- get ;;
  match routes_ s !! (network, nexthop) with
  | None => throw (RuntimeError "Route does not exist")
  | Some _ => erase_route (network, nexthop) ;;; find_new_active_nexthop network nexthop
  end.

(** The two routes of an address: to it, and to its network unless that is a /32. *)
Definition add_local_route (interface_ip port_name : string) (port_index : Z) : M Router unit :=
  p <-- lift (split_ip_and_prefix interface_ip) ;;
  let '(ip_route, netmask_route) := p in
  ip <-- lift (ip_string_to_nbo_uint ip_route) ;;
  rt_set 32 ip (RtV (u32 port_index) 0 TYPE_LOCALINTERFACE) ;;;
  if String.eqb netmask_route "255.255.255.255" then ret tt
  else
    netmask <-- lift (ip_string_to_nbo_uint netmask_route) ;;
    let networkDec := Z.land ip netmask in
    let network := nbo_uint_to_ip_string networkDec in
    netmask_len <-- lift (get_netmask_length netmask_route) ;;
    rt_set netmask_len networkDec (RtV (u32 port_index) 0 TYPE_NOLOCALINTERFACE) ;;;
    let route := (network +:+ "/" +:+ to_string netmask_len)%string in
    modify (fun s => set_routes (emplace (route, "local"%string) (MkRoute route "local" port_name 0 true) (routes_ s)) s).

Definition is_local_route (port_name route : string) (r : (string * string) * Route) : bool :=
  String.eqb (nexthop_ r.2) "local" && String.eqb (interface_ r.2) port_name && String.eqb (network_ r.2) route.
Definition remove_local_route (interface_ip port_name : string) : M Router unit :=
  p <-- lift (split_ip_and_prefix interface_ip) ;;
  let '(ip_route, netmask_route) := p in
  network <-- lift (get_network_from_ip ip_route netmask_route) ;;
  len <-- lift (get_netmask_length netmask_route) ;;
  let route := (network +:+ "/" +:+ to_string len)%string in
  s <-- get ;;
  (match List.find (is_local_route port_name route) (iterate_routes s) with
   | Some (key, _) => erase_route key ;;; find_new_active_nexthop route "0.0.0.0"
   | None => ret tt
   end) ;;;
  s <-- get ;;
  for_each (iterate_routes s) (fun '(key, r) =>
    if String.eqb (nexthop_ r) "local" then ret tt
    else
      b <-- lift (address_in_subnet (nexthop_ r) netmask_route network) ;;
      if b : bool then erase_route key ;;; find_new_active_nexthop (network_ r) (nexthop_ r) else ret tt) ;;;
  ip <-- lift (ip_string_to_nbo_uint ip_route) ;;
  rt_remove 32 ip.

(** The constructor of a route that a user asks for: a cost that the request leaves
    out is a number that was never written. *)
Definition new_Route (conf : RouteJson) : M Router Route :=
  pathcost <-- lift (deref (j_pathcost conf)) ;;
  s <-- get ;;
  interface <-- lift (match j_interface conf with None => search_interface_from_nexthop (j_nexthop conf) s | Some i => Ok i end) ;;
  port <-- lift (get_port interface s) ;;
  add_active_nexthop_in_ebpf_map (j_network conf) (j_nexthop conf) (to_int pathcost) (index port) ;;;
  ret (MkRoute (j_network conf) (j_nexthop conf) interface pathcost true).

Definition addRoute (network nexthop : string) (conf : RouteJson) : M Router unit :=
  s <-- get ;;
  match routes_ s !! (network, nexthop) with
  | Some _ => throw (RuntimeError "Route already exists")
  | None => r <-- new_Route conf ;; modify (fun s => set_routes (emplace (network, nexthop) r (routes_ s)) s)
  end.
Definition addRouteList (conf : list RouteJson) : M Router unit := for_each conf (fun i => addRoute (j_network i) (j_nexthop i) i).
Definition delRoute (network nexthop : string) : M Router unit :=
  if String.eqb nexthop "local" then throw (RuntimeError "Users can not delete a local route") else remove_route network nexthop.
Definition getRoute (network nexthop : string) (s : Router) : res Route :=
  match routes_ s !! (network, nexthop) with Some r => Ok r | None => Throw OutOfRange end.
Fixpoint get_routes (routes : list ((string * string) * Route)) (s : Router) : res (list Route) :=
  match routes with
  | [] => Ok []
  | it :: routes => r <~ getRoute (network_ it.2) (nexthop_ it.2) s ;; l <~ get_routes routes s ;; Ok (r :: l)
  end.
Definition getRouteList (s : Router) : res (list Route) := get_routes (iterate_routes s) s.
Definition delRouteList : M Router unit :=
  s <-- get ;;
  elements <-- lift (getRouteList s) ;;
  for_each elements (fun i => delRoute (network_ i) (nexthop_ i)).
Definition replaceRoute (network nexthop : string) (conf : RouteJson) : M Router unit :=
  delRoute network nexthop ;;; addRoute (j_network conf) (j_nexthop conf) conf.

(** ** Ports *)
Definition state_of (port_name : string) (s : Router) : port_state := default (PortState "" "" ∅) (rt_state s !! port_name).
Definition on_state (port_name : string) (f : port_state -> port_state) : M Router unit :=
  modify (fun s => set_state (<[port_name := f (state_of port_name s)]> (rt_state s)) s).
Definition with_mac (x : string) (p : port_state) : port_state := PortState x (ip_ p) (secondary_ips_ p).
Definition with_ip (x : string) (p : port_state) : port_state := PortState (mac_ p) x (secondary_ips_ p).
Definition with_secondary (x : gset string) (p : port_state) : port_state := PortState (mac_ p) (ip_ p) x.
Definition iterate_ips (p : port_state) : list string := merge_sort text_le (elements (secondary_ips_ p)).

(** An address and a mask, as numbers. *)
Definition ip_and_mask (ip : string) : res (Z * Z) :=
  p <~ split_ip_and_prefix ip ;; a <~ ip_string_to_nbo_uint p.1 ;; m <~ ip_string_to_nbo_uint p.2 ;; Ok (a, m).
(** The slots of the secondary addresses: there are five. *)
Fixpoint write_secondary (i : nat) (addrs : list string) (value : r_port) : res r_port :=
  match addrs with
  | [] => Ok value
  | addr :: addrs =>
      p <~ ip_and_mask addr ;;
      if (i <? Z.to_nat MAX_SECONDARY_ADDRESSES)%nat then
        write_secondary (S i) addrs
          (RPort (rp_ip value) (rp_netmask value) (<[i := p.1]> (rp_secondary_ip value)) (<[i := p.2]> (rp_secondary_netmask value)) (rp_mac value))
      else Undefined
  end.
Definition empty_slots : list Z := replicate (Z.to_nat MAX_SECONDARY_ADDRESSES) 0.

Definition updatePortInDataPath (this : Ports) : M Router unit :=
  s <-- get ;;
  let p := state_of (name this) s in
  a <-- lift (ip_and_mask (ip_ p)) ;;
  mac <-- lift (mac_string_to_nbo_uint (mac_ p)) ;;
  value <-- lift (write_secondary 0 (iterate_ips p) (RPort a.1 a.2 empty_slots empty_slots mac)) ;;
  on_router_port (fun t => table_set t (u16 (index this)) value).

(** The constructor of a secondary address. *)
Definition new_PortsSecondaryip (this : Ports) (ip : string) : M Router unit :=
  s <-- get ;;
  if MAX_SECONDARY_ADDRESSES <=? Z.of_nat (size (secondary_ips_ (state_of (name this) s))) then
    throw (RuntimeError ("Maximum number of secondary IPs on the port " +:+ name this))
  else add_local_route ip (name this) (index this).
Definition createInControlPlane (this : Ports) (ip : string) : M Router unit :=
  new_PortsSecondaryip this ip ;;;
  on_state (name this) (fun p => with_secondary ({[ip]} ∪ secondary_ips_ p) p).

Definition addSecondaryip (this : Ports) (ip : string) : M Router unit :=
  s <-- get ;;
  if String.eqb (ip_ (state_of (name this) s)) "" then
    throw (RuntimeError "You can not add a secondary ip address to a port with no ip address")
  else createInControlPlane this ip ;;; updatePortInDataPath this.
Definition addSecondaryipList (this : Ports) (conf : list string) : M Router unit := for_each conf (addSecondaryip this).
Definition delSecondaryip (this : Ports) (ip : string) : M Router unit :=
  s <-- get ;;
  if bool_decide (ip ∈ secondary_ips_ (state_of (name this) s)) then
    on_state (name this) (fun p => with_secondary (secondary_ips_ p ∖ {[ip]}) p) ;;;
    updatePortInDataPath this ;;;
    remove_local_route ip (name this)
  else throw (RuntimeError "Address does not exist (or it is not a secondary address)").
Definition delSecondaryipList (this : Ports) : M Router unit :=
  s <-- get ;; for_each (iterate_ips (state_of (name this) s)) (delSecondaryip this).
Definition replaceSecondaryip (this : Ports) (ip ip' : string) : M Router unit :=
  delSecondaryip this ip ;;; addSecondaryip this ip'.
Definition getSecondaryip (this : Ports) (ip : string) (s : Router) : res unit :=
  if bool_decide (ip ∈ secondary_ips_ (state_of (name this) s)) then Ok tt
  else Throw (RuntimeError "Address does not exist or it is not a secondary address or the port has no ip address").

Definition doSetIp (this : Ports) (new_ip : string) : M Router unit :=
  s <-- get ;;
  let ip := ip_ (state_of (name this) s) in
  if String.eqb ip new_ip then ret tt
  else
    p <-- lift (split_ip_and_prefix new_ip) ;;
    try_catch any_exn
      (s <-- get ;;
       value <-- lift (table_get (router_port (rt_tables s)) (u16 (index this))) ;;
       a <-- lift (ip_string_to_nbo_uint p.1) ;;
       m <-- lift (ip_string_to_nbo_uint p.2) ;;
       on_router_port (fun t => table_set t (u16 (index this)) (RPort a m (rp_secondary_ip value) (rp_secondary_netmask value) (rp_mac value))))
      (ret tt) ;;;
    (if String.eqb ip "" then ret tt else remove_local_route ip (name this)) ;;;
    add_local_route new_ip (name this) (u16 (index this)) ;;;
    on_state (name this) (with_ip new_ip).
Definition set_peer_parameter (this : Ports) (param_name value : string) : M Router unit :=
  s <-- get ;;
  match device_answer (daemon (rt_ports s)) (name this) param_name value with None => ret tt | Some e => throw e end.
Definition setIp (this : Ports) (value : string) : M Router unit :=
  s <-- get ;;
  if String.eqb (ip_ (state_of (name this) s)) value then ret tt
  else doSetIp this value ;;; set_peer_parameter this "IP" value.
Definition doSetMac (this : Ports) (new_mac : string) : M Router unit :=
  s <-- get ;;
  if String.eqb (mac_ (state_of (name this) s)) new_mac then ret tt
  else
    value <-- lift (table_get (router_port (rt_tables s)) (u16 (index this))) ;;
    mac <-- lift (mac_string_to_nbo_uint new_mac) ;;
    on_router_port (fun t => table_set t (u16 (index this)) (RPort (rp_ip value) (rp_netmask value) (rp_secondary_ip value) (rp_secondary_netmask value) mac)) ;;;
    on_state (name this) (with_mac new_mac).
Definition setMac (this : Ports) (value : string) : M Router unit :=
  s <-- get ;;
  if String.eqb (mac_ (state_of (name this) s)) value then ret tt
  else doSetMac this value ;;; set_peer_parameter this "MAC" value.
(** What the network device at the other end tells: its address has changed. *)
Definition f_ip (this : Ports) (new_ip : string) : M Router unit :=
  try_catch is_std_exception (if String.eqb new_ip "" then ret tt else doSetIp this new_ip) (ret tt).
Definition f_mac (this : Ports) (new_mac : string) : M Router unit :=
  try_catch is_std_exception (doSetMac this new_mac) (ret tt).

(** The device at the other end is given the addresses of a new port. *)
Definition align_peer (this : Ports) (conf : PortsJson) : M Router unit :=
  match j_mac conf with Some m => set_peer_parameter this "MAC" m | None => ret tt end ;;;
  match j_ip conf with Some ip => set_peer_parameter this "IP" ip | None => ret tt end.
(** The constructor of a port; the object is gone when it throws. *)
Definition new_Ports (port_name : string) (i : Z) (conf : PortsJson) : M Router Ports :=
  let this := MkPorts port_name i in
  s <-- get ;;
  let '(mac, n) := match j_mac conf with Some m => (m, rt_drawn s) | None => (get_random_mac (draw (rt_drawn s)), S (rt_drawn s)) end in
  modify (set_drawn n) ;;;
  modify (fun s => set_state (<[port_name := PortState mac (default "" (j_ip conf)) ∅]> (rt_state s)) s) ;;;
  try_catch_exn any_exn
    (a <-- lift (match j_ip conf with Some ip => ip_and_mask ip | None => Ok (0, 0) end) ;;
     mac <-- lift (mac_string_to_nbo_uint mac) ;;
     value <-- lift (write_secondary 0 (j_secondaryip conf) (RPort a.1 a.2 empty_slots empty_slots mac)) ;;
     on_router_port (fun t => table_set t (u16 i) value) ;;;
     match j_ip conf with Some ip => add_local_route ip port_name (u16 i) | None => ret tt end ;;;
     for_each (j_secondaryip conf) (createInControlPlane this) ;;;
     align_peer this conf ;;;
     ret this)
    (fun e => modify (fun s => set_state (delete port_name (rt_state s)) s) ;;; throw e).

(** [add_port] of cube.h with this constructor. *)
Definition on_ports {A} (m : M (cube_ports Ports D) A) : M Router A := zoom rt_ports set_ports m.
Definition addPorts (port_name : string) (conf : PortsJson) : M Router unit :=
  s <-- get ;;
  match ports_by_name_ (rt_ports s) !! port_name with
  | Some _ => throw (RuntimeError ("Port " +:+ port_name +:+ " already exists"))
  | None =>
      id <-- on_ports (on_daemon (d_add_port port_name (j_base conf))) ;;
      try_catch_exn is_std_exception
        (port <-- new_Ports port_name id conf ;;
         on_ports (modify (fun c => CubePorts (emplace port_name port (ports_by_name_ c)) (emplace (index port) port (ports_by_id_ c)) (daemon c)) ;;;
                   on_daemon (d_set_conf (j_base conf) (name port))))
        (fun e => on_ports (on_daemon (d_remove_port port_name)) ;;; throw e)
  end.
Definition addPortsList (conf : list PortsJson) : M Router unit := for_each conf (fun i => addPorts (j_name i) i).
Definition delPorts (port_name : string) : M Router unit :=
  s <-- get ;;
  port <-- lift (get_port port_name s) ;;
  delSecondaryipList port ;;;
  s <-- get ;;
  (let ip := ip_ (state_of port_name s) in
   if String.eqb ip "" then ret tt else remove_local_route ip port_name) ;;;
  on_router_port (fun t => table_remove t (u16 (index port))) ;;;
  on_ports (remove_port port_name) ;;;
  modify (fun s => set_state (delete port_name (rt_state s)) s).
Definition delPortsList : M Router unit := s <-- get ;; for_each (get_ports (rt_ports s)) (fun i => delPorts (name i)).
Definition replacePorts (port_name : string) (conf : PortsJson) : M Router unit :=
  delPorts port_name ;;; addPorts (j_name conf) conf.

(** ** The ARP table *)
Definition getArpTable (address : string) (s : Router) : res (string * string * string) :=
  ip_key <~ ip_string_to_nbo_uint address ;;
  match
    entry <~ table_get (arp_table (rt_tables s)) ip_key ;;
    port <~ get_port_by_id (to_int (ae_port entry)) (rt_ports s) ;;
    Ok (nbo_uint_to_mac_string (ae_mac entry), address, name port)
  with
  | Throw e => if is_std_exception e then Throw (RuntimeError "ARP table entry not found") else Throw e
  | r => r
  end.
Fixpoint arp_entries (entries : list (Z * arp_entry)) (s : Router) : res (list (string * string * string)) :=
  match entries with
  | [] => Ok []
  | (key, value) :: entries =>
      port <~ get_port_by_id (to_int (ae_port value)) (rt_ports s) ;;
      l <~ arp_entries entries s ;;
      Ok ((nbo_uint_to_mac_string (ae_mac value), nbo_uint_to_ip_string key, name port) :: l)
  end.
Definition getArpTableList (s : Router) : res (list (string * string * string)) :=
  match entries <~ default Undefined (get_all (arp_table (rt_tables s))) ;; arp_entries entries s with
  | Throw e => if is_std_exception e then Throw (RuntimeError "Unable to get the ARP table list") else Throw e
  | r => r
  end.
Definition addArpTable (address : string) (conf : ArpTableJson) : M Router unit :=
  mac <-- lift (mac_string_to_nbo_uint (default "" (j_arp_mac conf))) ;;
  s <-- get ;;
  port <-- lift (get_port (default "" (j_arp_interface conf)) s) ;;
  key <-- lift (ip_string_to_nbo_uint address) ;;
  on_arp_table (fun t => table_set t key (ArpEntry mac (u32 (index port)))).
Definition addArpTableList (conf : list ArpTableJson) : M Router unit := for_each conf (fun i => addArpTable (j_address i) i).
Definition delArpTable (address : string) : M Router unit :=
  s <-- get ;;
  match getArpTable address s with
  | Ok _ =>
      key <-- lift (ip_string_to_nbo_uint address) ;;
      try_catch any_exn (on_arp_table (fun t => table_remove t key)) (throw (RuntimeError "ARP table entry not found"))
  | Throw e => if is_std_exception e then throw (RuntimeError "ARP table entry not found") else throw e
  | Undefined => undefined
  end.
Definition delArpTableList : M Router unit :=
  s <-- get ;; l <-- lift (getArpTableList s) ;; for_each l (fun i => delArpTable i.1.2).
Definition replaceArpTable (address : string) (conf : ArpTableJson) : M Router unit :=
  delArpTable address ;;; addArpTable (j_address conf) conf.

(** ** Packets from the datapath *)
(** A thread that waits for a mutex that nobody releases does not go on. *)
Definition lock_mu : M Router unit := s <-- get ;; if mu s then undefined else modify (set_mu true).
Definition unlock_mu : M Router unit := modify (set_mu false).
Definition send_packet_out (port : Ports) (p : eth_t) : M Router unit :=
  modify (fun s => set_sent (rt_sent s ++ [(index port, p)]) s).
(** [md.metadata]: what the program passed, then zeros. *)
Definition metadata (md : list Z) (i : nat) : Z := default 0 (md !! i).

Definition make_echo_reply (origin : eth_t) (src_ip dst_ip : Z) (old_icmp : icmp_t) : eth_t :=
  let echoreply_packet := new_eth (eth_src origin) (eth_dst origin) in
  let ip_header := set_ttl 64 (new_ip src_ip dst_ip) in
  let echoreply_packet := slash_ip echoreply_packet ip_header in
  let old_icmp := set_type ECHO_REPLY old_icmp in
  slash_icmp echoreply_packet old_icmp.
Definition handle_router_pkt (port : Ports) (md : list Z) (packet : list Z) : M Router unit :=
  p <-- lift (EthernetII packet) ;;
  let src_ip := u32 (metadata md 0) in
  let dst_ip := u32 (metadata md 1) in
  let protocol := to_int (metadata md 2) in
  if protocol =? IPPROTO_ICMP then
    icmp_payload <-- lift (find_icmp p) ;;
    if icmp_type icmp_payload =? ECHO_REQUEST then send_packet_out port (make_echo_reply p src_ip dst_ip icmp_payload) else ret tt
  else ret tt.

(** The first eight bytes of the payload are read, however many there are. *)
Definition generate_icmp_ttlexceed (port : Ports) (md : list Z) (packet : list Z) : M Router unit :=
  p <-- lift (EthernetII packet) ;;
  ip <-- lift (find_ip p) ;;
  let dst_ip := ip_src_addr ip in
  let src_ip := u32 (metadata md 0) in
  pdu <-- lift (deref (inner_serialize ip)) ;;
  if (length pdu <? 8)%nat then undefined
  else
    let ip := with_raw (take 8 pdu) ip in
    let icmp_packet := new_eth (eth_src p) (eth_dst p) in
    let ip_header := set_ttl 64 (new_ip dst_ip src_ip) in
    let icmp_packet := slash_ip icmp_packet ip_header in
    let icmp := icmp_with_ip ip (new_icmp TIME_EXCEEDED) in
    send_packet_out port (slash_icmp icmp_packet icmp).

Definition generate_arp_request (port : Ports) (md : list Z) (packet : list Z) : M Router unit :=
  let target_ip := u32 (metadata md 0) in
  let src_ip := u32 (metadata md 2) in
  s <-- get ;;
  port_out <-- lift (get_port_by_id (to_int (metadata md 1)) (rt_ports s)) ;;
  let src_mac := mac_ (state_of (name port_out) s) in
  lock_mu ;;;
  modify (fun s =>
    let q := match arp_request_map s !! target_ip with None => new_CircularBuffer | Some q => q end in
    set_requests (<[target_ip := enQueue packet q]> (arp_request_map s)) s) ;;;
  unlock_mu ;;;
  src_mac_addr <-- lift (HWAddress src_mac) ;;
  send_packet_out port_out (make_arp_request target_ip src_ip src_mac_addr).

(** An exception leaves the mutex held. *)
Definition generate_arp_reply (port : Ports) (md : list Z) (packet : list Z) : M Router unit :=
  arp_reply <-- lift (EthernetII packet) ;;
  let src_ip := u32 (metadata md 0) in
  lock_mu ;;;
  s <-- get ;;
  (match arp_request_map s !! src_ip with
   | Some q =>
       if isEmpty q then modify (set_requests (delete src_ip (arp_request_map s)))
       else
         r <-- lift (deQueue q) ;;
         let '(reply_packet, q) := r in
         modify (set_requests (if isEmpty q then delete src_ip (arp_request_map s) else <[src_ip := q]> (arp_request_map s))) ;;;
         ethframe <-- lift (EthernetII reply_packet) ;;
         send_packet_out port (set_dst_addr (eth_src arp_reply) (set_src_addr (eth_dst arp_reply) ethframe))
   | None => ret tt
   end) ;;;
  unlock_mu.

Definition packet_in (port : Ports) (reason : Z) (md : list Z) (packet : list Z) : M Router unit :=
  if reason =? SLOWPATH_TTL_EXCEEDED then generate_icmp_ttlexceed port md packet
  else if reason =? SLOWPATH_ARP_LOOKUP_MISS then generate_arp_request port md packet
  else if reason =? SLOWPATH_ARP_REPLY then generate_arp_reply port md packet
  else if reason =? SLOWPATH_PKT_FOR_ROUTER then handle_router_pkt port md packet
  else ret tt.
(** [handle_packet_in] of the cube. *)
Definition handle_packet_in (port_id reason : Z) (md : list Z) (packet : list Z) : M Router unit :=
  s <-- get ;;
  match ports_by_id_ (rt_ports s) !! port_id with
  | None => throw OutOfRange
  | Some p => packet_in p reason md packet
  end.
(** The daemon's controller, which calls it, goes on after an exception. *)
Definition call_back_proxy (port_id reason : Z) (md : list Z) (packet : list Z) : M Router unit :=
  try_catch is_std_exception (handle_packet_in port_id reason md packet) (ret tt).
(** A packet in the datapath. *)
Context `{CsumDiff} `{L3Replace} (xdp : bool).
Definition receive (frame : list Z) (in_port : Z) : M Router (rt_action * list Z) := fun s =>
  let '(a, f, t) := handle_rx xdp frame in_port (rt_tables s) in (Ok (a, f), set_tables t s).

(** ** Requests *)
Definition on_port {A} (port_name : string) (m : Ports -> M Router A) : M Router A :=
  s <-- get ;; port <-- lift (get_port port_name s) ;; m port.
(** A port takes the addresses that it has; a route and an ARP entry keep what they
    have. *)
Definition update_port (conf : PortsJson) (this : Ports) : M Router unit :=
  on_ports (on_daemon (d_set_conf (j_base conf) (name this))) ;;;
  (match j_ip conf with Some ip => setIp this ip | None => ret tt end) ;;;
  for_each (j_secondaryip conf) (fun ip => s <-- get ;; lift (getSecondaryip this ip s)) ;;;
  match j_mac conf with Some m => setMac this m | None => ret tt end.
Definition update_route (conf : RouteJson) : M Router unit :=
  s <-- get ;;
  r <-- lift (getRoute (j_network conf) (j_nexthop conf) s) ;;
  match j_pathcost conf with Some _ => throw (RuntimeError "Route::setPathcost: Method not implemented") | None => ret tt end.
Definition update_arp (conf : ArpTableJson) : M Router unit :=
  s <-- get ;;
  e <-- lift (getArpTable (j_address conf) s) ;;
  match j_arp_mac conf, j_arp_interface conf with
  | Some _, _ => throw (RuntimeError "ArpTable::setMac: Method not implemented")
  | None, Some _ => throw (RuntimeError "ArpTable::setInterface: Method not implemented")
  | None, None => ret tt
  end.
(** The lists in [RouterBase::update]. *)
Definition update (ports : list PortsJson) (routes : list RouteJson) (arps : list ArpTableJson) : M Router unit :=
  for_each ports (fun i => on_port (j_name i) (update_port i)) ;;;
  for_each routes update_route ;;;
  for_each arps update_arp.

(** The constructor: the program's tables are empty. *)
Definition empty_router (d : D) : Router :=
  MkRouter (CubePorts ∅ ∅ d) ∅ ∅ (RtDp (t_new ROUTING_TABLE_DIM) (m_new ROUTER_PORT_N) (m_new ARP_TABLE_DIM)) ∅ false 0 [].
Definition new_Router (d : D) (ports : list PortsJson) (routes : list RouteJson) (arps : list ArpTableJson) : res unit * Router :=
  (addPortsList ports ;;; addRouteList routes ;;; addArpTableList arps) (empty_router d).

Inductive rt_op :=
  | AddPort (conf : PortsJson) | AddPorts (l : list PortsJson) | DelPort (n : string) | DelPorts | ReplacePort (n : string) (conf : PortsJson)
  | AddRoute (conf : RouteJson) | AddRoutes (l : list RouteJson) | DelRoute (network nexthop : string) | DelRoutes
  | ReplaceRoute (network nexthop : string) (conf : RouteJson)
  | AddSecondary (n ip : string) | AddSecondaries (n : string) (l : list string) | DelSecondary (n ip : string) | DelSecondaries (n : string)
  | ReplaceSecondary (n ip ip' : string)
  | SetIp (n ip : string) | SetMac (n mac : string)
  | AddArp (conf : ArpTableJson) | AddArps (l : list ArpTableJson) | DelArp (address : string) | DelArps
  | ReplaceArp (address : string) (conf : ArpTableJson)
  | Update (ports : list PortsJson) (routes : list RouteJson) (arps : list ArpTableJson).
Definition run_op (op : rt_op) : M Router unit :=
  match op with
  | AddPort c => addPorts (j_name c) c | AddPorts l => addPortsList l | DelPort n => delPorts n | DelPorts => delPortsList
  | ReplacePort n c => replacePorts n c
  | AddRoute c => addRoute (j_network c) (j_nexthop c) c | AddRoutes l => addRouteList l | DelRoute w h => delRoute w h | DelRoutes => delRouteList
  | ReplaceRoute w h c => replaceRoute w h c
  | AddSecondary n ip => on_port n (fun p => addSecondaryip p ip) | AddSecondaries n l => on_port n (fun p => addSecondaryipList p l)
  | DelSecondary n ip => on_port n (fun p => delSecondaryip p ip) | DelSecondaries n => on_port n delSecondaryipList
  | ReplaceSecondary n ip ip' => on_port n (fun p => replaceSecondaryip p ip ip')
  | SetIp n ip => on_port n (fun p => setIp p ip) | SetMac n m => on_port n (fun p => setMac p m)
  | AddArp c => addArpTable (j_address c) c | AddArps l => addArpTableList l | DelArp a => delArpTable a | DelArps => delArpTableList
  | ReplaceArp a c => replaceArpTable a c
  | Update p r a => update p r a
  end.

(** What happens to a router: a request, a change of the device behind a port, a
    packet that its program sees, a packet that reaches its control plane. *)
Inductive rt_event :=
  | Request (op : rt_op)
  | PeerIp (n ip : string)
  | PeerMac (n mac : string)
  | Receive (frame : list Z) (in_port : Z)
  | Slowpath (port_id reason : Z) (md frame : list Z).
Definition run_event (e : rt_event) : M Router unit :=
  match e with
  | Request op => run_op op
  | PeerIp n ip => on_port n (fun p => f_ip p ip)
  | PeerMac n mac => on_port n (fun p => f_mac p mac)
  | Receive frame in_port => receive frame in_port ;;; ret tt
  | Slowpath port_id reason md frame => call_back_proxy port_id reason md frame
  end.
End router.
