(* ===== verification/RtFacts.v ===== *)
(** pcn-router: what the routes and the addresses of the control plane ask of the
    program's routing table, and that additions bring it there. *)
From Stdlib Require Import ZArith Lia Ascii String.
From stdpp Require Import base gmap sets list strings numbers sorting.
From S2P Require Import Prelude.
From S2P Require Import Bpf.
From S2P Require Import NetUtils.
From S2P Require Import Frame.
From S2P Require Import Csum.
From S2P Require Import Tables.
From S2P Require Import CubePorts.
From S2P Require Import RtDatapath.
From S2P Require Import RtControl.
#[local] Open Scope Z_scope.
#[local] Open Scope cpp_scope.

(** ** Runs that return *)
Ltac run_ok := repeat (simpl in *; match goal with
  | H : bind _ _ _ = (Ok _, _) |- _ => apply bind_Ok in H as (? & ? & ?E & H)
  | H : get _ = (Ok _, _) |- _ => unfold get in H; injection H as <- <-
  | H : lift _ _ = (Ok _, _) |- _ => unfold lift in H; injection H as H <-
  | H : ret _ _ = (Ok _, _) |- _ => unfold ret in H; (injection H as <- || injection H as <- <-)
  | H : modify _ _ = (Ok _, _) |- _ => unfold modify in H; (injection H as <- || injection H as <- <-)
  | H : throw _ _ = (Ok _, _) |- _ => discriminate H
  end).

(** ** Text *)
Lemma getlines_piece a : str_forallb (fun c => negb (Ascii.eqb c "/")) a = true -> a <> ""%string ->
  forall b, getlines (a +:+ String "/" b)%string = a :: getlines b.
Proof.
  induction a as [|c a IH]; [done|]. intros Ha _ b. cbn [str_forallb] in Ha. apply andb_prop in Ha as [Hc Ha].
  change (getlines (String c a +:+ String "/" b)) with (if Ascii.eqb c "/" then "" :: getlines (a +:+ String "/" b)
    else match getlines (a +:+ String "/" b) with [] => [String c ""] | e :: l => String c e :: l end).
  destruct (Ascii.eqb c "/"); [done|]. destruct a as [|c' a]; [reflexivity|]. by rewrite IH.
Qed.
Lemma dotted_nonempty x : dotted x <> ""%string.
Proof.
  unfold dotted. intros E. apply (f_equal String.length) in E. rewrite length_string_app in E. simpl in E. lia.
Qed.
Lemma prefix_text_read n : 0 <= n <= 32 -> getlines (to_string n) = [to_string n] /\ atoi (to_string n) = n.
Proof.
  intros Hn. pose proof (forallb_below (fun n => bool_decide (getlines (to_string n) = [to_string n]) && (atoi (to_string n) =? n)) 33
    ltac:(by vm_compute) n ltac:(lia)) as H. apply andb_prop in H as [H1%bool_decide_eq_true H2%Z.eqb_eq]. done.
Qed.

Section facts.
Context `{Inet}.

(** The length and the address of a prefix. *)
Definition address_prefix (text : string) : res (Z * Z) :=
  p <~ split_ip_and_prefix text ;; len <~ get_netmask_length p.2 ;; net <~ ip_string_to_nbo_uint p.1 ;; Ok (len, net).

Lemma split_printed x n : 0 <= x < 2 ^ 32 -> 0 <= n <= 32 ->
  exists m, get_netmask_from_prefixlength n = Ok m /\ get_netmask_length m = Ok n /\
    split_ip_and_prefix (nbo_uint_to_ip_string x +:+ "/" +:+ to_string n)%string = Ok (nbo_uint_to_ip_string x, m).
Proof.
  intros Hx Hn. destruct (netmask_length_roundtrip n Hn) as (m & Em & Hm). exists m. do 2 (split; [done|]).
  destruct (prefix_text_read n Hn) as [Hg Ha]. unfold split_ip_and_prefix, nbo_uint_to_ip_string. rewrite inet_ntoa_spec by done.
  change ("/" +:+ to_string n)%string with (String "/" (to_string n)). rewrite getlines_piece; [|apply dotted_no_slash|apply dotted_nonempty].
  rewrite Hg, Ha, Em. done.
Qed.
Lemma address_prefix_printed x n : 0 <= x < 2 ^ 32 -> 0 <= n <= 32 ->
  address_prefix (nbo_uint_to_ip_string x +:+ "/" +:+ to_string n)%string = Ok (n, x).
Proof.
  intros Hx Hn. destruct (split_printed x n Hx Hn) as (m & _ & Hl & Hs). unfold address_prefix. rewrite Hs. simpl. rewrite Hl. simpl.
  unfold nbo_uint_to_ip_string. by rewrite inet_ntoa_spec, ip_string_to_nbo_uint_dotted.
Qed.
(** The mask of an address is that of a length. *)
Lemma split_mask addr p : split_ip_and_prefix addr = Ok p -> exists n, 0 <= n <= 32 /\ get_netmask_from_prefixlength n = Ok p.2 /\ get_netmask_length p.2 = Ok n.
Proof.
  unfold split_ip_and_prefix. destruct (getlines addr) as [|ip [|q l]]; [done..|]. intros (m & Em & [= <-])%res_bind_Ok. simpl.
  assert (0 <= atoi q <= 32) as Hn.
  { unfold get_netmask_from_prefixlength in Em. destruct (Z.eqb_spec (atoi q) 0); [lia|].
    destruct (Z.ltb_spec (32 - atoi q) 0); [done|]. destruct (Z.leb_spec 32 (32 - atoi q)); [done|]. lia. }
  destruct (netmask_length_roundtrip _ Hn) as (m' & Em' & Hl). rewrite Em in Em'. injection Em' as <-. by exists (atoi q).
Qed.
End facts.

(** ** The routing table as a set of prefixes *)
Definition prefix_of {V} (e : trie_entry V) : Z * list bool := (te_len e, take (Z.to_nat (te_len e)) (key_bits (te_key e))).
Lemma same_node_prefix {V} (e e' : trie_entry V) : same_node (te_len e) (te_key e) e' = true <-> prefix_of e' = prefix_of e.
Proof.
  unfold same_node, prefix_of, trie_match. rewrite andb_true_iff, Z.eqb_eq, bool_decide_eq_true. split.
  - intros [-> ->]. done.
  - intros [= -> E]. done.
Qed.
Definition entry_at (len net : Z) (v : rt_v) : trie_entry rt_v := TrieEntry len (ip_bytes net) v.

Section tables.
Context `{RtTables}.
(** The entries are those of [l], and what [l] leaves is free. *)
Definition table_is (t : routingT) (l : list (trie_entry rt_v)) : Prop :=
  (forall e, e ∈ t_entries t <-> e ∈ l) /\ ROUTING_TABLE_DIM <= t_free t + Z.of_nat (length l).
Fixpoint puts (t : routingT) (es : list (trie_entry rt_v)) (t' : routingT) : Prop :=
  match es with
  | [] => t' = t
  | e :: es => exists t1, t_update t (te_len e) (te_key e) (te_val e) = Some t1 /\ puts t1 es t'
  end.
Lemma puts_app t es1 t1 es2 t2 : puts t es1 t1 -> puts t1 es2 t2 -> puts t (es1 ++ es2) t2.
Proof. revert t. induction es1 as [|e es1 IH]; intros t; simpl; [by intros ->|]. intros (t' & E & Hp) Hp2. exists t'. eauto. Qed.

Lemma table_is_perm t l l' : l ≡ₚ l' -> table_is t l -> table_is t l'.
Proof. intros Hl [He Hf]. split; [intros e; by rewrite He, Hl|]. by rewrite <- Hl. Qed.
Lemma puts_is es : forall t t' l, puts t es t' -> table_is t l -> NoDup (prefix_of <$> es ++ l) -> Z.of_nat (length (es ++ l)) <= ROUTING_TABLE_DIM ->
  table_is t' (es ++ l).
Proof.
  induction es as [|e es IH]; intros t t' l; simpl; [by intros ->|]. intros (t1 & Et & Hp) [He Hf] [Hn Hd]%NoDup_cons Hlen.
  assert (table_is t1 (e :: l)) as Ht1.
  { destruct (t_update_ok t (te_len e) (te_key e) (te_val e)) as (t2 & Et2 & Hf2 & He2).
    { rewrite length_app in Hlen. unfold ROUTING_TABLE_DIM in *. lia. }
    rewrite Et in Et2. injection Et2 as <-. split; [|simpl; lia]. intros e'. rewrite He2, elem_of_cons, He. split.
    - intros [->|[Hin _]]; [left; by destruct e|by right].
    - intros [->|Hin]; [left; by destruct e|]. right. split; [done|]. apply not_true_iff_false. intros Hs%same_node_prefix.
      apply Hn. rewrite <- Hs. apply list_elem_of_fmap. exists e'. split; [done|]. apply elem_of_app. by right. }
  apply (table_is_perm _ (es ++ e :: l)); [by rewrite Permutation_middle|]. apply (IH t1); [done|done| |rewrite <- Permutation_middle; simpl; lia].
  rewrite <- Permutation_middle. simpl. by apply NoDup_cons.
Qed.
End tables.

(** ** What the control plane asks for *)
Section wanted.
Context `{Inet} `{RtTables} `{Tins} {D : Type} `{DaemonCube D} `{!PeerDevice D}.
Implicit Types (s : Router (D := D)).

(** An address: it is local, and its network is reached through the port. *)
Definition address_entries (i : Z) (addr : string) : list (trie_entry rt_v) :=
  match split_ip_and_prefix addr with
  | Ok (ip_route, netmask) =>
      match ip_string_to_nbo_uint ip_route with
      | Ok ip =>
          entry_at 32 ip (RtV (u32 i) 0 TYPE_LOCALINTERFACE) ::
          (if String.eqb netmask "255.255.255.255" then []
           else match ip_string_to_nbo_uint netmask, get_netmask_length netmask with
                | Ok m, Ok len => [entry_at len (Z.land ip m) (RtV (u32 i) 0 TYPE_NOLOCALINTERFACE)]
                | _, _ => []
                end)
      | _ => []
      end
  | _ => []
  end.
(** A route of a user: its network is reached through the next hop. *)
Definition route_entries (ports : gmap string Ports) (r : Route) : list (trie_entry rt_v) :=
  match address_prefix (network_ r), ip_string_to_nbo_uint (nexthop_ r), ports !! interface_ r with
  | Ok (len, net), Ok nexthop, Some p => [entry_at len net (RtV (u32 (index p)) nexthop TYPE_NOLOCALINTERFACE)]
  | _, _, _ => []
  end.
Definition addresses (p : port_state) : list string := (if String.eqb (ip_ p) "" then [] else [ip_ p]) ++ elements (secondary_ips_ p).
Definition user_routes s : gmap (string * string) Route := filter (fun kr => nexthop_ kr.2 <> "local"%string) (routes_ s).
Definition port_entries s (p : string * Ports) : list (trie_entry rt_v) := addresses (state_of p.1 s) ≫= address_entries (index p.2).
Definition wanted s : list (trie_entry rt_v) :=
  (map_to_list (ports_by_name_ (rt_ports s)) ≫= port_entries s) ++
  ((map_to_list (user_routes s)).*2 ≫= route_entries (ports_by_name_ (rt_ports s))).

(** ** What an addition does to the routing table and to the routes *)
Definition has_prefix (l : list (trie_entry rt_v)) (text : string) : Prop :=
  exists len net v, address_prefix text = Ok (len, net) /\ entry_at len net v ∈ l.
Record grown (es : list (trie_entry rt_v)) s s' : Prop := {
  g_table : puts (routing_table (rt_tables s)) es (routing_table (rt_tables s'));
  g_user : user_routes s' = user_routes s;
  g_local : forall key r, routes_ s' !! key = Some r -> routes_ s !! key = Some r \/ nexthop_ r = "local"%string /\ has_prefix es (network_ r);
}.
Lemma has_prefix_mono l l' text : l ⊆ l' -> has_prefix l text -> has_prefix l' text.
Proof. intros Hl (len & net & v & Ea & Hin). exists len, net, v. split; [done|]. by apply Hl. Qed.
Lemma grown_refl s s' : routing_table (rt_tables s') = routing_table (rt_tables s) -> routes_ s' = routes_ s -> grown [] s s'.
Proof. intros Ht Hr. split; [done|unfold user_routes; by rewrite Hr|]. intros key r. rewrite Hr. by left. Qed.
Lemma grown_trans es1 es2 s s1 s2 : grown es1 s s1 -> grown es2 s1 s2 -> grown (es1 ++ es2) s s2.
Proof.
  intros [T1 U1 L1] [T2 U2 L2]. split; [by apply (puts_app _ _ (routing_table (rt_tables s1)))|congruence|].
  intros key r [Hr|[Hn Hr]]%L2; [|right; split; [done|]; apply (has_prefix_mono es2); [set_solver|done]].
  apply L1 in Hr as [Hr|[Hn Hr]]; [by left|]. right. split; [done|]. apply (has_prefix_mono es1); [set_solver|done].
Qed.
Lemma grown_state es s s' f : grown es s s' -> grown es s (set_state f s').
Proof. intros [T U L]. by split. Qed.

Lemma rt_set_ok len net v s r s' : rt_set len net v s = (Ok r, s') ->
  exists t, t_update (routing_table (rt_tables s)) len (ip_bytes net) v = Some t /\ s' = set_tables (set_routing_table t (rt_tables s)) s.
Proof. unfold rt_set. destruct (t_update _ _ _ _) as [t|]; [|done]. intros [= _ <-]. by exists t. Qed.

Lemma emplace_local key r s : nexthop_ r = "local"%string ->
  user_routes (set_routes (emplace key r (routes_ s)) s) = user_routes s /\
  forall key' r', emplace key r (routes_ s) !! key' = Some r' -> routes_ s !! key' = Some r' \/ r' = r.
Proof.
  intros Hr. unfold emplace. destruct (routes_ s !! key) as [r0|] eqn:Ek; [split; [done|by left]|]. split.
  - unfold user_routes. cbn [routes_ set_routes]. rewrite map_filter_insert_False by (simpl; congruence). by rewrite delete_id.
  - intros key' r'. rewrite lookup_insert_Some. intros [[_ <-]|[_ Hk]]; [by right|by left].
Qed.

Lemma add_local_route_ok addr n i s s' : add_local_route addr n i s = (Ok tt, s') ->
  grown (address_entries i addr) s s' /\ rt_state s' = rt_state s /\ router_port (rt_tables s') = router_port (rt_tables s) /\ rt_ports s' = rt_ports s.
Proof.
  unfold add_local_route, address_entries. intros Hr. run_ok. destruct x as [ip_route netmask]. rewrite E. run_ok. rewrite E0.
  apply rt_set_ok in E1 as (t & Et & ->). destruct (String.eqb netmask "255.255.255.255").
  - run_ok. split; [|done]. split; [by exists t|done|by left].
  - run_ok. rewrite E1, E2. apply rt_set_ok in E3 as (t' & Et' & ->). cbn in Et'.
    destruct (split_mask _ _ E) as (len & Hlen & Hm & Hl). simpl in Hm, Hl. rewrite E2 in Hl. injection Hl as <-.
    match goal with |- grown _ _ ?s1 /\ _ => set (s2 := s1) end. split; [|done].
    match goal with s2 := set_routes (emplace ?k ?r _) ?s3 |- _ => destruct (emplace_local k r s3 eq_refl) as [Hu Hl] end.
    split; [exists t; split; [done|]; by exists t'|exact Hu|].
    intros key r Hk. apply Hl in Hk as [Hk| ->]; [by left|]. right. split; [done|]. exists x3, (Z.land x x0), (RtV (u32 i) 0 TYPE_NOLOCALINTERFACE).
    split; [|apply list_elem_of_further, list_elem_of_here]. apply address_prefix_printed; [|done].
    apply ip_string_to_nbo_uint_bounds in E0, E1. apply land_lt_pow2; lia.
Qed.

Lemma createInControlPlane_ok this ip s s' : createInControlPlane this ip s = (Ok tt, s') ->
  grown (address_entries (index this) ip) s s' /\ router_port (rt_tables s') = router_port (rt_tables s) /\ rt_ports s' = rt_ports s /\
  rt_state s' = <[name this := with_secondary ({[ip]} ∪ secondary_ips_ (state_of (name this) s)) (state_of (name this) s)]> (rt_state s).
Proof.
  unfold createInControlPlane, new_PortsSecondaryip. intros Hr. run_ok. destruct x. destruct (_ <=? _); run_ok.
  apply add_local_route_ok in E as (Hg & Hs & Hp & Hq). unfold on_state, modify in Hr. injection Hr as <-.
  split; [by apply grown_state|]. do 2 (split; [done|]). cbn. unfold state_of. by rewrite Hs.
Qed.

Lemma state_of_insert n n' st s m : rt_state s = <[n := st]> m -> state_of n' s = if decide (n' = n) then st else default (PortState "" "" ∅) (m !! n').
Proof. intros E. unfold state_of. rewrite E, lookup_insert. repeat case_decide; naive_solver. Qed.
Lemma create_all_ok this ips : forall s s', for_each ips (createInControlPlane this) s = (Ok tt, s') ->
  grown (ips ≫= address_entries (index this)) s s' /\ router_port (rt_tables s') = router_port (rt_tables s) /\ rt_ports s' = rt_ports s /\
  (forall n, n <> name this -> state_of n s' = state_of n s) /\
  state_of (name this) s' = with_secondary (list_to_set ips ∪ secondary_ips_ (state_of (name this) s)) (state_of (name this) s).
Proof.
  induction ips as [|ip ips IH]; intros s s' Hr; cbn [for_each] in Hr; run_ok.
  - split; [by apply grown_refl|]. do 3 (split; [done|]). by destruct (state_of _ _) as [m i sec]; cbv [with_secondary]; cbn; rewrite union_empty_l_L.
  - destruct x. apply createInControlPlane_ok in E as (Hg & Hp & Hq & Hs). apply IH in Hr as (Hg' & Hp' & Hq' & Ho & Hst).
    split; [by apply (grown_trans _ _ _ x0)|]. do 2 (split; [congruence|]). split.
    + intros n Hn. rewrite Ho, (state_of_insert _ _ _ _ _ Hs) by done. by rewrite decide_False.
    + rewrite Hst, (state_of_insert _ _ _ _ _ Hs), decide_True by done. cbv [with_secondary]. cbn. f_equal. set_solver.
Qed.

Lemma on_router_port_ok f s r s' : on_router_port f s = (Ok r, s') -> exists t, f (router_port (rt_tables s)) = Ok t /\ s' = set_tables (set_router_port t (rt_tables s)) s.
Proof. unfold on_router_port. destruct (f _) as [t| |]; [|done..]. intros [= _ <-]. by exists t. Qed.

Lemma set_peer_parameter_state this n v s : (set_peer_parameter this n v s).2 = s.
Proof. unfold set_peer_parameter, bind, get. by destruct (device_answer _ _ _ _). Qed.
Lemma align_peer_state this (conf : PortsJson) s : (align_peer this conf s).2 = s.
Proof.
  unfold align_peer, bind. destruct (j_mac conf) as [m|], (j_ip conf) as [ip|]; simpl; try done;
    pose proof (set_peer_parameter_state this) as Hs; [| |apply Hs].
  - specialize (Hs "MAC"%string m s) as Hm. destruct (set_peer_parameter this _ m s) as [[[]|e|] s']; simpl in Hm; subst s'; [apply Hs|done..].
  - specialize (Hs "MAC"%string m s). by destruct (set_peer_parameter this _ m s) as [[[]|e|] s'].
Qed.

(** The addresses of a new port, in the order in which its constructor adds them. *)
Definition new_addresses (ip : option string) (secondary : list string) : list string := option_list ip ++ secondary.
Lemma new_Ports_ok draw n i (conf : PortsJson) s p s' : 0 <= i < 2 ^ 16 -> new_Ports draw n i conf s = (Ok p, s') ->
  p = MkPorts n i /\ j_ip conf <> Some ""%string /\ rt_ports s' = rt_ports s /\ grown (new_addresses (j_ip conf) (j_secondaryip conf) ≫= address_entries i) s s' /\
  (forall n', n' <> n -> state_of n' s' = state_of n' s) /\
  exists mac, state_of n s' = PortState mac (default "" (j_ip conf)) (list_to_set (j_secondaryip conf)).
Proof.
  intros Hi. assert (u16 i = i) as Ei by by apply Z.mod_small. unfold new_Ports, new_addresses. rewrite Ei. intros Hr. apply bind_Ok in Hr as (? & ? & [= <- <-] & Hr).
  destruct (match j_mac conf with Some m => _ | None => _ end) as [mac k].
  apply bind_Ok in Hr as (? & ? & [= <- <-] & Hr). apply bind_Ok in Hr as (? & ? & [= <- <-] & Hr). unfold try_catch_exn in Hr.
  destruct (bind _ _ _) as [[q|e|] s1] eqn:Em; [|simpl in Hr; unfold bind, modify, throw in Hr; by destruct (any_exn e)|done]. injection Hr as -> ->.
  apply bind_Ok in Em as (a & s0 & [= Ea <-] & Em). apply bind_Ok in Em as (m & s0 & [= Emac <-] & Em).
  apply bind_Ok in Em as (v & s0 & [= Ev <-] & Em). apply bind_Ok in Em as ([] & s2 & Eset & Em). apply on_router_port_ok in Eset as (t & _ & ->).
  apply bind_Ok in Em as ([] & s3 & Eip & Em). apply bind_Ok in Em as ([] & s4 & Esec & Em).
  apply bind_Ok in Em as ([] & s5 & Ea5 & [= <- <-]). pose proof (align_peer_state (MkPorts n i) conf s4) as Es. rewrite Ea5 in Es. simpl in Es. subst s5. split; [done|].
  split; [by intros E0; rewrite E0 in Ea|]. set (s2 := set_tables _ _) in Eip. apply create_all_ok in Esec as (Hg2 & _ & Hq2 & Ho2 & Hs2). cbn [index Ports_type p_index name p_name] in *.
  assert (rt_state s2 = <[n := PortState mac (default "" (j_ip conf)) ∅]> (rt_state s)) as Hst by done.
  assert (grown (option_list (j_ip conf) ≫= address_entries i) s s3 /\ rt_state s3 = rt_state s2 /\ rt_ports s3 = rt_ports s) as (Hg1 & Hs3 & Hq3).
  { assert (grown [] s s2) as Hg0 by by apply grown_refl. destruct (j_ip conf) as [ip|].
    - apply add_local_route_ok in Eip as (Hg & Hs & _ & Hq). split; [|by rewrite Hq]. simpl. rewrite app_nil_r. by apply (grown_trans [] _ _ s2).
    - unfold ret in Eip. injection Eip as <-. done. }
  split; [by rewrite Hq2|]. split; [rewrite bind_app; by apply (grown_trans _ _ _ s3)|]. split.
  - intros n' Hn. rewrite Ho2, (state_of_insert _ _ _ _ _ (eq_trans Hs3 Hst)), decide_False by done. done.
  - exists mac. rewrite Hs2, (state_of_insert _ _ _ _ _ (eq_trans Hs3 Hst)), decide_True by done. cbv [with_secondary]. cbn. by rewrite union_empty_r_L.
Qed.

(** ** The state of a router that was only added to *)
Record added s : Prop := {
  ad_ok : d_ok (daemon (rt_ports s));
  ad_ports : forall n p, ports_by_name_ (rt_ports s) !! n = Some p -> name p = n /\ 0 <= index p < 2 ^ 16;
  ad_routes : forall key r, routes_ s !! key = Some r -> has_prefix (wanted s) (network_ r) /\ (nexthop_ r <> "local"%string -> is_Some (ports_by_name_ (rt_ports s) !! interface_ r));
  ad_table : NoDup (prefix_of <$> wanted s) -> Z.of_nat (length (wanted s)) <= ROUTING_TABLE_DIM -> table_is (routing_table (rt_tables s)) (wanted s);
}.

Lemma grown_table es s s' : grown es s s' -> wanted s' ≡ₚ es ++ wanted s ->
  (NoDup (prefix_of <$> wanted s) -> Z.of_nat (length (wanted s)) <= ROUTING_TABLE_DIM -> table_is (routing_table (rt_tables s)) (wanted s)) ->
  NoDup (prefix_of <$> wanted s') -> Z.of_nat (length (wanted s')) <= ROUTING_TABLE_DIM -> table_is (routing_table (rt_tables s')) (wanted s').
Proof.
  intros Hg Hw Ht Hn Hl. apply (table_is_perm _ (es ++ wanted s)); [done|]. rewrite Hw in Hn, Hl.
  apply (puts_is _ (routing_table (rt_tables s))); [apply Hg| |done|done]. apply Ht.
  - rewrite fmap_app in Hn. by apply NoDup_app in Hn as (_ & _ & ?).
  - rewrite length_app in Hl. lia.
Qed.
Lemma grown_routes es s s' : grown es s s' -> wanted s' ≡ₚ es ++ wanted s -> ports_by_name_ (rt_ports s) ⊆ ports_by_name_ (rt_ports s') ->
  (forall key r, routes_ s !! key = Some r -> has_prefix (wanted s) (network_ r) /\ (nexthop_ r <> "local"%string -> is_Some (ports_by_name_ (rt_ports s) !! interface_ r))) ->
  forall key r, routes_ s' !! key = Some r -> has_prefix (wanted s') (network_ r) /\ (nexthop_ r <> "local"%string -> is_Some (ports_by_name_ (rt_ports s') !! interface_ r)).
Proof.
  intros Hg Hw Hp Hr key r [Hk|[Hn Hk]]%(g_local _ _ _ Hg).
  - apply Hr in Hk as [Hpre Hi]. split; [|intros Hn; destruct (Hi Hn) as [q Hq]; exists q; by apply (lookup_weaken _ _ _ _ Hq)].
    apply (has_prefix_mono (wanted s)); [|done]. intros e He. rewrite Hw. apply elem_of_app. by right.
  - split; [|done]. apply (has_prefix_mono es); [|done]. intros e He. rewrite Hw. apply elem_of_app. by left.
Qed.

Lemma route_entries_weaken m m' r : m ⊆ m' -> (nexthop_ r <> "local"%string -> is_Some (m !! interface_ r)) -> nexthop_ r <> "local"%string ->
  route_entries m' r = route_entries m r.
Proof. intros Hm Hi Hn. destruct (Hi Hn) as [p Hp]. unfold route_entries. by rewrite (lookup_weaken m m' _ _ Hp Hm), Hp. Qed.
Lemma user_route key r s : (key, r) ∈ map_to_list (user_routes s) -> routes_ s !! key = Some r /\ nexthop_ r <> "local"%string.
Proof. intros Hk%elem_of_map_to_list. unfold user_routes in Hk. by apply map_lookup_filter_Some in Hk. Qed.
Lemma bind_ext_in {A B} (f g : A -> list B) l : (forall x, x ∈ l -> f x = g x) -> l ≫= f = l ≫= g.
Proof.
  induction l as [|x l IH]; intros Hl; [done|]. rewrite !bind_cons, (Hl x) by apply list_elem_of_here. f_equal. apply IH.
  intros y Hy. by apply Hl, list_elem_of_further.
Qed.

(** A port: what it asks for is added. *)
Lemma wanted_port n (p : Ports) es s s' : added s -> ports_by_name_ (rt_ports s) !! n = None -> ports_by_name_ (rt_ports s') = <[n := p]> (ports_by_name_ (rt_ports s)) ->
  user_routes s' = user_routes s -> (forall n', n' <> n -> state_of n' s' = state_of n' s) -> port_entries s' (n, p) ≡ₚ es ->
  wanted s' ≡ₚ es ++ wanted s.
Proof.
  intros Hs Hn Hp Hu Ho He. unfold wanted. rewrite Hp, Hu, (map_to_list_insert _ _ _ Hn). cbn [bind list_bind mbind].
  rewrite He, <- app_assoc. apply Permutation_app_head. apply Permutation_app.
  - apply reflexive_eq, bind_ext_in. intros [n' q] Hq%elem_of_map_to_list. unfold port_entries. cbn [fst snd]. rewrite Ho; [done|]. by intros ->; rewrite Hn in Hq.
  - apply reflexive_eq, bind_ext_in. intros r ([key r'] & -> & Hk)%list_elem_of_fmap. apply user_route in Hk as [Hk Hl]. cbn [snd].
    apply route_entries_weaken; [by apply insert_subseteq|apply (ad_routes _ Hs _ _ Hk)|done].
Qed.

Lemma addresses_new n i mac ip sec s : state_of n s = PortState mac (default "" ip) (list_to_set sec) -> NoDup sec -> ip <> Some ""%string ->
  port_entries s (n, MkPorts n i) ≡ₚ new_addresses ip sec ≫= address_entries i.
Proof.
  intros Hst Hnd Hip. unfold port_entries, addresses, new_addresses. cbn [fst snd index Ports_type p_index]. rewrite Hst. cbn [ip_ secondary_ips_].
  rewrite !bind_app. apply Permutation_app; [|by rewrite (elements_list_to_set sec)]. destruct ip as [ip|]; [|done]. simpl.
  destruct (String.eqb_spec ip ""); [congruence|done].
Qed.

Lemma addPorts_added draw n (conf : PortsJson) s s' : added s -> NoDup (j_secondaryip conf) -> addPorts draw n conf s = (Ok tt, s') ->
  added s' /\ exists es, wanted s' ≡ₚ es ++ wanted s.
Proof.
  intros Hs Hnd. unfold addPorts. intros Hr. apply bind_Ok in Hr as (? & ? & [= <- <-] & Hr).
  destruct (ports_by_name_ (rt_ports s) !! n) as [q|] eqn:En; [done|]. apply bind_Ok in Hr as (id & s1 & Ed & Hr).
  unfold on_ports, on_daemon, zoom in Ed. pose proof (d_add_spec n (j_base conf) (daemon (rt_ports s)) (ad_ok s Hs)) as Hd.
  destruct (d_add_port n (j_base conf) (daemon (rt_ports s))) as [[i|e|] d] eqn:Ea; [|done..]. injection Ed as <- <-. destruct Hd as (Hd & Hi & _).
  unfold try_catch_exn in Hr. match type of Hr with match ?m ?s0 with _ => _ end = _ => set (s1 := s0) in Hr end.
  destruct (bind _ _ s1) as [[u|e|] s2] eqn:Em; [|destruct (is_std_exception e); [|done]; apply bind_Ok in Hr as (? & ? & _ & Hr); discriminate Hr|done].
  injection Hr as -> ->. apply bind_Ok in Em as (p & s2 & Enew & Em). apply (new_Ports_ok draw n i conf) in Enew as (-> & Hip & Hq & Hg & Ho & mac & Hst); [|done].
  unfold on_ports, on_daemon, zoom, modify, bind in Em. pose proof (d_set_conf_spec (j_base conf) n d Hd) as Hc. rewrite Hq in Em.
  cbn [rt_ports set_ports daemon set_daemon s1 name Ports_type p_name index p_index ports_by_name_ ports_by_id_] in Em.
  destruct (d_set_conf (j_base conf) n d) as [[[]|e|] d'] eqn:Ec; cbn [snd] in Hc; [|done..]. injection Em as <-. destruct Hc as [Hd' _].
  unfold emplace. rewrite En. match goal with |- added ?x /\ _ => set (s3 := x) end.
  assert (grown (new_addresses (j_ip conf) (j_secondaryip conf) ≫= address_entries i) s s3) as Hg3 by (destruct Hg; by split).
  assert (wanted s3 ≡ₚ (new_addresses (j_ip conf) (j_secondaryip conf) ≫= address_entries i) ++ wanted s) as Hw.
  { apply (wanted_port n (MkPorts n i)); [done|done|done|apply Hg3|exact Ho|]. by apply (addresses_new n i mac). }
  split; [|by eexists]. split.
  - done.
  - intros n' q. cbn. rewrite lookup_insert_Some. intros [[<- <-]|[_ Hn]]; [done|by apply (ad_ports s Hs)].
  - apply (grown_routes _ s s3 Hg3 Hw); [by apply insert_subseteq|apply Hs].
  - apply (grown_table _ s s3 Hg3 Hw), Hs.
Qed.

(** A secondary address. *)
Lemma updatePortInDataPath_ok this s s' : updatePortInDataPath this s = (Ok tt, s') -> exists t, s' = set_tables (set_router_port t (rt_tables s)) s.
Proof.
  unfold updatePortInDataPath. intros Hr. apply bind_Ok in Hr as (? & ? & [= <- <-] & Hr). do 3 apply bind_Ok in Hr as (? & ? & [= _ <-] & Hr).
  apply on_router_port_ok in Hr as (t & _ & ->). by exists t.
Qed.
Lemma addSecondaryip_added this ip s s' : added s -> ports_by_name_ (rt_ports s) !! name this = Some this ->
  ip ∉ secondary_ips_ (state_of (name this) s) -> addSecondaryip this ip s = (Ok tt, s') -> added s' /\ exists es, wanted s' ≡ₚ es ++ wanted s.
Proof.
  intros Hs Hp Hip. unfold addSecondaryip. intros Hr. apply bind_Ok in Hr as (? & ? & [= <- <-] & Hr). destruct (String.eqb _ _); [done|].
  apply bind_Ok in Hr as ([] & s1 & Ec & Hr). apply createInControlPlane_ok in Ec as (Hg & _ & Hq & Hst). apply updatePortInDataPath_ok in Hr as (t & ->).
  match goal with |- added ?x /\ _ => set (s2 := x) end. set (es := address_entries (index this) ip) in *.
  assert (grown es s s2) as Hg2 by (destruct Hg; by split). assert (rt_ports s2 = rt_ports s) as Hq2 by done.
  pose proof (state_of_insert _ (name this) _ s2 _ Hst) as Ht. rewrite decide_True in Ht by done.
  assert (wanted s2 ≡ₚ es ++ wanted s) as Hw.
  { unfold wanted. rewrite Hq2, (g_user _ _ _ Hg2), app_assoc. apply Permutation_app_tail.
    rewrite <- (insert_delete_id _ _ _ Hp), (map_to_list_insert _ _ _ (lookup_delete_eq _ _)), !bind_cons, app_assoc. apply Permutation_app.
    - unfold port_entries, addresses. cbn [fst snd]. rewrite Ht. cbn [with_secondary ip_ secondary_ips_]. rewrite elements_union_singleton by done.
      rewrite !bind_app, bind_cons. fold es. rewrite !app_assoc. apply Permutation_app_tail, Permutation_app_comm.
    - apply reflexive_eq, bind_ext_in. intros [n q] Hin%elem_of_map_to_list. unfold port_entries. cbn [fst snd].
      rewrite (state_of_insert _ n _ s2 _ Hst), decide_False; [done|]. intros ->. by rewrite lookup_delete_eq in Hin. }
  split; [|by exists es]. split.
  - rewrite Hq2. apply Hs.
  - intros n p. rewrite Hq2. apply (ad_ports s Hs).
  - apply (grown_routes _ s s2 Hg2 Hw); [by rewrite Hq2|apply Hs].
  - apply (grown_table _ s s2 Hg2 Hw), Hs.
Qed.

(** ** Routes *)
Lemma best_nexthop_alone network l best : (forall kr, kr ∈ l -> network_ kr.2 <> network) -> best_nexthop network l best = Some best.
Proof.
  induction l as [|[k r] l IH]; intros Hl; [done|]. cbn [best_nexthop].
  destruct (String.eqb_spec (network_ r) network) as [E|_]; [by destruct (Hl (k, r) (list_elem_of_here _ _) E)|].
  apply IH. intros kr Hin. by apply Hl, list_elem_of_further.
Qed.
Lemma elem_of_routes s kr : kr ∈ iterate_routes s <-> routes_ s !! kr.1 = Some kr.2.
Proof. unfold iterate_routes. rewrite (merge_sort_Permutation key_le). destruct kr. apply elem_of_map_to_list. Qed.

Definition alone (network : string) s : Prop := forall key r, routes_ s !! key = Some r -> network_ r <> network.
Lemma alone_dec network s : alone network s \/ exists key r, routes_ s !! key = Some r /\ network_ r = network.
Proof.
  destruct (decide (Exists (fun kr => network_ kr.2 = network) (iterate_routes s))) as [He|He].
  - right. apply Exists_exists in He as ([key r] & Hin & E). apply elem_of_routes in Hin. eauto.
  - left. intros key r Hk E. apply He, Exists_exists. exists (key, r). split; [by apply elem_of_routes|done].
Qed.

Lemma add_active_ok network nexthop cost i s s' : cost < INT32_MAX -> add_active_nexthop_in_ebpf_map network nexthop cost i s = (Ok tt, s') ->
  (s' = s /\ ~ alone network s) \/
  exists len net nh v t, address_prefix network = Ok (len, net) /\ ip_string_to_nbo_uint nexthop = Ok nh /\
    t_update (routing_table (rt_tables s)) len (ip_bytes net) v = Some t /\ s' = set_tables (set_routing_table t (rt_tables s)) s /\
    (alone network s -> v = RtV (u32 i) nh TYPE_NOLOCALINTERFACE).
Proof.
  intros Hcost. unfold add_active_nexthop_in_ebpf_map, address_prefix. intros Hr. apply bind_Ok in Hr as (p & ? & [= Ep <-] & Hr). rewrite Ep.
  apply bind_Ok in Hr as (? & ? & [= <- <-] & Hr). assert (alone network s -> best_nexthop network (iterate_routes s) (nexthop, INT32_MAX) = Some (nexthop, INT32_MAX)) as Hb.
  { intros Ha. apply best_nexthop_alone. intros [k r] Hin%elem_of_routes. by apply (Ha k). }
  destruct (best_nexthop network (iterate_routes s) (nexthop, INT32_MAX)) as [[nh0 min]|].
  - right. apply bind_Ok in Hr as (idx & ? & [= Ei <-] & Hr). apply bind_Ok in Hr as (len & ? & [= El <-] & Hr).
    apply bind_Ok in Hr as (net & ? & [= En <-] & Hr). apply bind_Ok in Hr as (nh & ? & [= Eh <-] & Hr). apply rt_set_ok in Hr as (t & Et & ->).
    cbn [res_bind]. rewrite El. cbn [res_bind]. rewrite En. exists len, net, nh, (RtV (u32 idx) nh TYPE_NOLOCALINTERFACE), t. repeat (split; [done|]).
    intros Ha. specialize (Hb Ha). injection Hb as -> ->. destruct (Z.ltb_spec cost INT32_MAX); [|lia]. by injection Ei as ->.
  - left. unfold ret in Hr. injection Hr as <-. split; [done|]. intros Ha. by specialize (Hb Ha).
Qed.

Lemma wanted_route key r s s1 t : routes_ s !! key = None -> s1 = set_tables (set_routing_table t (rt_tables s)) s ->
  wanted (set_routes (<[key := r]> (routes_ s)) s1) ≡ₚ (if decide (nexthop_ r = "local"%string) then [] else route_entries (ports_by_name_ (rt_ports s)) r) ++ wanted s.
Proof.
  intros Hk ->. unfold wanted, user_routes. cbn [rt_ports set_routes set_tables routes_]. case_decide as En.
  - rewrite map_filter_insert_False by (simpl; tauto). by rewrite delete_id.
  - rewrite map_filter_insert_True by done. rewrite (map_to_list_insert _ key r); [|by apply map_lookup_filter_None_2; left].
    rewrite fmap_cons, bind_cons. cbn [snd]. rewrite !app_assoc. apply Permutation_app_tail. rewrite Permutation_app_comm. apply Permutation_app_head.
    apply reflexive_eq, bind_ext_in. done.
Qed.

Lemma local_no_address nh : ip_string_to_nbo_uint "local" <> Ok nh.
Proof. by vm_compute. Qed.
Definition cost_below_max (conf : RouteJson) : Prop := match j_pathcost conf with Some c => to_int c < INT32_MAX | None => True end.
Lemma new_Route_ok conf s r s' : cost_below_max conf -> new_Route conf s = (Ok r, s') ->
  exists p, ports_by_name_ (rt_ports s) !! interface_ r = Some p /\ network_ r = j_network conf /\ nexthop_ r = j_nexthop conf /\
  ((s' = s /\ ~ alone (network_ r) s) \/
   exists len net nh v t, address_prefix (network_ r) = Ok (len, net) /\ ip_string_to_nbo_uint (nexthop_ r) = Ok nh /\
    t_update (routing_table (rt_tables s)) len (ip_bytes net) v = Some t /\ s' = set_tables (set_routing_table t (rt_tables s)) s /\
    (alone (network_ r) s -> v = RtV (u32 (index p)) nh TYPE_NOLOCALINTERFACE)).
Proof.
  unfold cost_below_max, new_Route. intros Hc Hr. apply bind_Ok in Hr as (c & ? & [= Ec <-] & Hr). apply bind_Ok in Hr as (? & ? & [= <- <-] & Hr).
  apply bind_Ok in Hr as (i & ? & [= Ei <-] & Hr). apply bind_Ok in Hr as (p & ? & [= Ep <-] & Hr). apply bind_Ok in Hr as ([] & s1 & Ea & [= <- <-]).
  destruct (j_pathcost conf) as [c'|]; [|done]. injection Ec as ->. exists p. cbn [interface_ network_ nexthop_].
  split; [|split; [done|]; split; [done|by apply add_active_ok in Ea]].
  unfold get_port, get_port_by_name in Ep. by destruct (ports_by_name_ (rt_ports s) !! i); [injection Ep as ->|].
Qed.

Lemma addRoute_added conf s s' : added s -> cost_below_max conf -> addRoute (j_network conf) (j_nexthop conf) conf s = (Ok tt, s') ->
  added s' /\ exists es, wanted s' ≡ₚ es ++ wanted s.
Proof.
  intros Hs Hc. unfold addRoute. intros Hr. apply bind_Ok in Hr as (? & ? & [= <- <-] & Hr).
  destruct (routes_ s !! _) as [r0|] eqn:Ek; [done|]. apply bind_Ok in Hr as (r & s1 & En & [= <-]).
  apply (new_Route_ok conf s r s1 Hc) in En as (p & Hp & Enet & Enh & Hcase). set (key := (j_network conf, j_nexthop conf)) in *.
  assert (exists t, s1 = set_tables (set_routing_table t (rt_tables s)) s /\ routes_ s1 = routes_ s) as (t & Et & Er).
  { destruct Hcase as [[-> _]|(? & ? & ? & ? & t & _ & _ & _ & -> & _)]; [|by exists t]. exists (routing_table (rt_tables s)). by destruct s as [? ? ? []]. }
  unfold emplace. rewrite Er, Ek. pose proof (wanted_route key r s s1 t Ek Et) as Hw.
  match goal with |- added ?x /\ _ => set (s2 := x) end. fold s2 in Hw. split; [|by eexists].
  assert (rt_ports s2 = rt_ports s /\ routing_table (rt_tables s2) = routing_table (rt_tables s1)) as [Hq Htab] by (split; [unfold s2; by rewrite Et|done]).
  assert (has_prefix (wanted s2) (network_ r)) as Hpre.
  { destruct (alone_dec (network_ r) s) as [Ha|(k & r1 & Hk & E1)].
    - destruct Hcase as [[_ []]|(len & net & nh & v & t1 & Ea & Eh & _)]; [done|]. exists len, net, (RtV (u32 (index p)) nh TYPE_NOLOCALINTERFACE).
      split; [done|]. rewrite Hw. apply elem_of_app. left. rewrite decide_False by (intros El; rewrite El in Eh; by apply local_no_address in Eh). unfold route_entries.
      rewrite Ea, Eh, Hp. apply list_elem_of_here.
    - destruct (ad_routes s Hs k r1 Hk) as [Hpre _]. rewrite E1 in Hpre. apply (has_prefix_mono (wanted s)); [|done].
      intros e He. rewrite Hw. apply elem_of_app. by right. }
  split.
  - rewrite Hq. apply Hs.
  - intros n q. rewrite Hq. apply (ad_ports s Hs).
  - intros k r1. assert (routes_ s2 = <[key := r]> (routes_ s)) as Er2 by done. rewrite Er2, lookup_insert_Some, Hq. intros [[_ <-]|[_ Hk]]; [split; [done|by exists p]|].
    destruct (ad_routes s Hs k r1 Hk) as [Hpre1 Hi]. split; [|done]. apply (has_prefix_mono (wanted s)); [|done].
    intros e He. rewrite Hw. apply elem_of_app. by right.
  - intros Hnd Hlen. apply (table_is_perm _ _ _ (symmetry Hw)). rewrite Hw in Hnd, Hlen. rewrite Htab.
    assert (forall l : list (trie_entry rt_v), NoDup (prefix_of <$> l ++ wanted s) -> Z.of_nat (length (l ++ wanted s)) <= ROUTING_TABLE_DIM ->
      table_is (routing_table (rt_tables s)) (wanted s)) as Ht.
    { intros l Hn Hl. apply Hs; [rewrite fmap_app in Hn; by apply NoDup_app in Hn as (_ & _ & ?)|rewrite length_app in Hl; lia]. }
    specialize (Ht _ Hnd Hlen). destruct Hcase as [[-> Hna]|(len & net & nh & v & t1 & Ea & Eh & Eu & -> & Hv)].
    + case_decide as Eloc; [done|]. unfold route_entries in *. destruct (address_prefix (network_ r)) as [[len net]| |] eqn:Ea; [|done..].
      destruct (ip_string_to_nbo_uint (nexthop_ r)) as [nh| |]; [|done..]. rewrite Hp in *. exfalso.
      destruct (alone_dec (network_ r) s) as [Ha|(k & r1 & Hk & E1)]; [done|]. destruct (ad_routes s Hs k r1 Hk) as [(len' & net' & v & Ea' & Hin) _].
      rewrite E1, Ea in Ea'. injection Ea' as <- <-. simpl in Hnd. apply NoDup_cons in Hnd as [Hn _]. apply Hn, list_elem_of_fmap. by exists (entry_at len net v).
    + rewrite decide_False in * by (intros El; rewrite El in Eh; by apply local_no_address in Eh). unfold route_entries in *. rewrite Ea, Eh, Hp in *.
      destruct (alone_dec (network_ r) s) as [Ha|(k & r1 & Hk & E1)].
      * apply (puts_is [_] (routing_table (rt_tables s))); [|done|done|done]. exists t1. rewrite (Hv Ha) in Eu. by split.
      * exfalso. destruct (ad_routes s Hs k r1 Hk) as [(len' & net' & v' & Ea' & Hin) _]. rewrite E1, Ea in Ea'. injection Ea' as <- <-.
        simpl in Hnd. apply NoDup_cons in Hnd as [Hn _]. apply Hn, list_elem_of_fmap. by exists (entry_at len net v').
Qed.
(** ** The costs of routes *)
Definition only_users (network : string) s : Prop := forall key r, routes_ s !! key = Some r -> network_ r = network -> nexthop_ r <> "local"%string.
(** [cheap] costs less than every other route to its network, and something. *)
Record cheapest (network : string) (cheap : Route) s : Prop := {
  ch_route : exists key, routes_ s !! key = Some cheap;
  ch_network : network_ cheap = network;
  ch_cost : pathCostIsSet_ cheap = true /\ pathcost_ cheap < INT32_MAX;
  ch_least key r : routes_ s !! key = Some r -> network_ r = network -> r = cheap \/ pathcost_ cheap < pathcost_ r;
}.
Lemma best_nexthop_above network c l : forall best,
  (forall kr, kr ∈ l -> network_ kr.2 = network -> nexthop_ kr.2 <> "local"%string /\ c < pathcost_ kr.2) -> c < best.2 ->
  exists b, best_nexthop network l best = Some b /\ c < b.2.
Proof.
  induction l as [|[k r] l IH]; intros best Hl Hb; [by exists best|]. cbn [best_nexthop].
  assert (forall best', c < best'.2 -> exists b, best_nexthop network l best' = Some b /\ c < b.2) as IH'.
  { intros best' Hb'. apply IH; [|done]. intros kr Hin. by apply Hl, list_elem_of_further. }
  destruct (String.eqb_spec (network_ r) network) as [E|]; [|by apply IH'].
  destruct (Hl (k, r) (list_elem_of_here _ _) E) as [Hn Hc]. cbn [snd] in *. destruct (String.eqb_spec (nexthop_ r) "local"); [done|].
  apply IH'. by destruct (_ && _).
Qed.
Lemma best_nexthop_cheapest network cheap l : forall best,
  (forall kr, kr ∈ l -> network_ kr.2 = network -> nexthop_ kr.2 <> "local"%string /\ (kr.2 = cheap \/ pathcost_ cheap < pathcost_ kr.2)) ->
  pathCostIsSet_ cheap = true -> network_ cheap = network ->
  best = (nexthop_ cheap, pathcost_ cheap) \/ (pathcost_ cheap < best.2 /\ exists k, (k, cheap) ∈ l) ->
  best_nexthop network l best = Some (nexthop_ cheap, pathcost_ cheap).
Proof.
  induction l as [|[k r] l IH]; intros best Hl Hset Hnet Hb; [destruct Hb as [->|(_ & k & []%elem_of_nil)]; done|]. cbn [best_nexthop].
  assert (forall best', best' = (nexthop_ cheap, pathcost_ cheap) \/ (pathcost_ cheap < best'.2 /\ exists k, (k, cheap) ∈ l) ->
    best_nexthop network l best' = Some (nexthop_ cheap, pathcost_ cheap)) as IH'.
  { intros best' Hb'. apply IH; [|done..]. intros kr Hin. by apply Hl, list_elem_of_further. }
  destruct (decide (network_ r = network)) as [E|Hne].
  - destruct (Hl (k, r) (list_elem_of_here _ _) E) as [Hn Hc]. cbn [snd] in *. rewrite (proj2 (String.eqb_eq _ _) E).
    destruct (String.eqb_spec (nexthop_ r) "local"); [done|]. apply IH'. destruct Hc as [->|Hc].
    + left. rewrite Hset. destruct Hb as [->|[Hlt _]]; cbn [snd andb]; [by rewrite Z.ltb_irrefl|by rewrite (proj2 (Z.ltb_lt _ _) Hlt)].
    + destruct Hb as [->|(Hlt & k' & [[= -> ->]|Hin]%elem_of_cons)]; [left|lia|right].
      * cbn [snd]. destruct (Z.ltb_spec (pathcost_ r) (pathcost_ cheap)); [lia|]. by rewrite andb_false_r.
      * split; [by destruct (_ && _)|by exists k'].
  - destruct (String.eqb_spec (network_ r) network); [done|]. apply IH'. destruct Hb as [->|(Hlt & k' & [[= -> ->]|Hin]%elem_of_cons)]; [by left|done|].
    right. split; [done|by exists k'].
Qed.

(** The new route [conf] to a network is stored, and its network's entry written: its
    next hop, and its own port when it costs less than all the other routes there, else
    the port that leads to the next hop of the cheapest. *)
Definition route_by_cost (conf : RouteJson) (cost : Z) s s' : Prop :=
  exists r p len net nh, routes_ s' = <[(j_network conf, j_nexthop conf) := r]> (routes_ s) /\ get_port (interface_ r) s = Ok p /\
    address_prefix (j_network conf) = Ok (len, net) /\ ip_string_to_nbo_uint (j_nexthop conf) = Ok nh /\
    let wrote q := t_update (routing_table (rt_tables s)) len (ip_bytes net) (RtV (u32 (index q)) nh TYPE_NOLOCALINTERFACE) = Some (routing_table (rt_tables s')) in
    (to_int cost < INT32_MAX -> (forall key r', routes_ s !! key = Some r' -> network_ r' = j_network conf -> to_int cost < pathcost_ r') -> wrote p) /\
    (forall cheap, cheapest (j_network conf) cheap s -> pathcost_ cheap <= to_int cost ->
       exists i q, search_interface_from_nexthop (nexthop_ cheap) s = Ok i /\ get_port i s = Ok q /\ wrote q).
Lemma addRoute_cost conf cost s s' :
  addRoute (j_network conf) (j_nexthop conf) conf s = (Ok tt, s') -> j_pathcost conf = Some cost -> only_users (j_network conf) s ->
  route_by_cost conf cost s s'.
Proof.
  unfold route_by_cost, addRoute, new_Route, add_active_nexthop_in_ebpf_map, address_prefix. intros Hr Hcost Hu. apply bind_Ok in Hr as (? & ? & [= <- <-] & Hr).
  destruct (routes_ s !! _) as [r0|] eqn:Ek; [done|]. apply bind_Ok in Hr as (r & s1 & Hr & [= <-]).
  apply bind_Ok in Hr as (c & ? & [= Ec <-] & Hr). rewrite Hcost in Ec. injection Ec as <-. apply bind_Ok in Hr as (? & ? & [= <- <-] & Hr).
  apply bind_Ok in Hr as (i & ? & [= Ei <-] & Hr). apply bind_Ok in Hr as (p & ? & [= Ep <-] & Hr). apply bind_Ok in Hr as ([] & s2 & Ea & [= <- <-]).
  apply bind_Ok in Ea as (pr & ? & [= Epr <-] & Hr). apply bind_Ok in Hr as (? & ? & [= <- <-] & Hr). rewrite Epr. cbn [res_bind].
  assert (forall kr, kr ∈ iterate_routes s -> network_ kr.2 = j_network conf -> nexthop_ kr.2 <> "local"%string) as Hul by (intros kr Hin%elem_of_routes; by apply (Hu kr.1)).
  destruct (best_nexthop _ _ _) as [[nh0 min]|] eqn:Eb.
  2: { exfalso. clear - Hul Eb. revert Eb. generalize (j_nexthop conf, INT32_MAX). induction (iterate_routes s) as [|[k r] l IH]; intros best; [done|]. cbn [best_nexthop].
    destruct (String.eqb_spec (network_ r) (j_network conf)) as [E|]; [|apply IH; intros kr Hin; by apply Hul, list_elem_of_further].
    destruct (String.eqb_spec (nexthop_ r) "local") as [El|]; [by destruct (Hul (k, r) (list_elem_of_here _ _) E)|].
    apply IH. intros kr Hin. by apply Hul, list_elem_of_further. }
  apply bind_Ok in Hr as (idx & ? & [= Ex <-] & Hr). apply bind_Ok in Hr as (len & ? & [= El <-] & Hr).
  apply bind_Ok in Hr as (net & ? & [= En <-] & Hr). apply bind_Ok in Hr as (nh & ? & [= Eh <-] & Hr). apply rt_set_ok in Hr as (t & Et & ->).
  rewrite El. cbn [res_bind]. rewrite En. cbn [res_bind]. exists (MkRoute (j_network conf) (j_nexthop conf) i cost true), p, len, net, nh. split; [|split; [exact Ep|split; [done|split; [done|split]]]].
  - unfold emplace. cbn [routes_ set_tables set_routes]. by rewrite Ek.
  - intros Hmax Hless. destruct (best_nexthop_above (j_network conf) (to_int cost) (iterate_routes s) (j_nexthop conf, INT32_MAX)) as (b & Eb' & Hlt); [|done|].
    { intros kr Hin Hn. split; [by apply Hul|]. apply elem_of_routes in Hin. by apply (Hless kr.1). }
    rewrite Eb in Eb'. injection Eb' as <-. cbn [snd] in Hlt. rewrite (proj2 (Z.ltb_lt _ _) Hlt) in Ex. by injection Ex as <-.
  - intros cheap [(k & Hk) Hn [Hset Hm] Hleast] Hle. rewrite (best_nexthop_cheapest (j_network conf) cheap) in Eb; [|..].
    + injection Eb as <- <-. destruct (Z.ltb_spec (to_int cost) (pathcost_ cheap)); [lia|]. apply res_bind_Ok in Ex as (j & Ej & Ex).
      apply res_bind_Ok in Ex as (q & Eq & [= <-]). by exists j, q.
    + intros kr Hin Hnet. split; [by apply Hul|]. apply elem_of_routes in Hin. by apply (Hleast kr.1).
    + done.
    + done.
    + right. split; [done|]. exists k. by apply elem_of_routes.
Qed.
End wanted.
