(* ===== verification/RtRun.v ===== *)
(** pcn-router: routers that are only added to, and what every event keeps: the ports
    of the program are those of the control plane. *)
From Stdlib Require Import ZArith Lia Ascii String.
From stdpp Require Import base gmap sets list strings numbers sorting.
From S2P Require Import Prelude.
From S2P Require Import Bpf.
From S2P Require Import NetUtils.
From S2P Require Import Frame.
From S2P Require Import Csum.
From S2P Require Import Tables.
From S2P Require Import CubePorts.
From S2P Require Import RtDatapath.
From S2P Require Import RtControl.
From S2P Require Import RtFacts.
#[local] Open Scope Z_scope.
#[local] Open Scope cpp_scope.

(** Unless it does something undefined, a method leaves the object in [P]. *)
Definition sound {S A} (P : S -> Prop) (m : M S A) : Prop := forall s, P s -> let '(r, s') := m s in r <> Undefined -> P s'.
Lemma sound_always {S A} (P : S -> Prop) (m : M S A) : always P m -> sound P m.
Proof. intros Hm s Hs. specialize (Hm s Hs). by destruct (m s). Qed.
Lemma sound_bind {S A B} (P : S -> Prop) (m : M S A) (k : A -> M S B) : sound P m -> (forall a, sound P (k a)) -> sound P (bind m k).
Proof.
  intros Hm Hk s Hs. unfold bind. specialize (Hm s Hs). destruct (m s) as [[a|e|] s']; [apply Hk; by apply Hm|intros _; by apply Hm|done].
Qed.
Lemma sound_for_each {S A} (P : S -> Prop) (l : list A) (body : A -> M S unit) : (forall x, x ∈ l -> sound P (body x)) -> sound P (for_each l body).
Proof.
  induction l as [|x l IH]; intros Hb; simpl; [by intros s Hs _|]. apply sound_bind; [apply Hb; by left|].
  intros _. apply IH. intros y Hy. apply Hb. by right.
Qed.

(** What goes through a method step by step; [t] closes the steps that change the
    object. *)
Ltac step_always t := repeat (cbv zeta; match goal with
  | |- always _ (bind _ _) => apply always_bind; [|intros ?]
  | |- always _ get => by apply always_id
  | |- always _ (ret _) => by apply always_id
  | |- always _ (lift _) => by apply always_id
  | |- always _ (throw _) => by apply always_id
  | |- always _ undefined => by apply always_id
  | |- always _ (modify _) => apply always_modify; t
  | |- always _ (try_catch _ _ _) => apply always_try_catch
  | |- always _ (for_each _ _) => apply always_for_each; intros ? _
  | |- always _ (if ?b then _ else _) => destruct b
  | |- always _ (match ?x with _ => _ end) => destruct x
  end).

Section run.
Context `{Inet} `{RtTables} `{Tins} {D : Type} `{DaemonCube D} `{!PeerDevice D}.
Context `{CsumDiff} `{L3Replace} (draw : nat -> Z) (xdp : bool).
Implicit Types (s : Router (D := D)).

Lemma handle_rx_arp_only f in_port t : exists a, (handle_rx xdp f in_port t).2 = set_arp_table a t.
Proof.
  assert (exists a, t = set_arp_table a t) as Hid by (exists (arp_table t); by destruct t). unfold handle_rx, handle_arp, send_arp_reply, notify_arp_reply_to_slowpath.
  repeat (case_match; simplify_eq/=; try done); eauto.
Qed.

(** ** Events that leave the routing alone *)
Record same_routing s s' : Prop := {
  sr_ports : rt_ports s' = rt_ports s;
  sr_routes : routes_ s' = routes_ s;
  sr_table : routing_table (rt_tables s') = routing_table (rt_tables s);
  sr_addresses : forall n, addresses (state_of n s') = addresses (state_of n s);
}.
Lemma same_routing_wanted s s' : same_routing s s' -> wanted s' = wanted s.
Proof.
  intros [Hp Hr Ht Ha]. unfold wanted, user_routes. rewrite Hp, Hr. f_equal. apply bind_ext_in. intros [n p] _. unfold port_entries. by rewrite Ha.
Qed.
Lemma same_routing_added s s' : same_routing s s' -> added s -> added s'.
Proof.
  intros Hs [A P R T]. pose proof (same_routing_wanted s s' Hs) as Hw. destruct Hs as [Hp Hr Ht _]. split; rewrite ?Hp, ?Hr, ?Ht, ?Hw; done.
Qed.

(** Requests about the ARP table and MAC addresses, and packets. *)
Definition quiet (e : rt_event) : Prop :=
  match e with
  | Request (AddArp _) | Request (AddArps _) | Request (DelArp _) | Request DelArps | Request (ReplaceArp _ _) | Request (SetMac _ _) => True
  | PeerMac _ _ | Receive _ _ | Slowpath _ _ _ _ => True
  | _ => False
  end.
Section quiet.
Context (s0 : Router (D := D)).
Ltac same_step := let s := fresh in let Hs := fresh in intros s Hs; destruct Hs; by split.

Lemma on_arp_table_same f : always (same_routing s0) (on_arp_table f).
Proof. intros s [P R T A]. unfold on_arp_table. destruct (f _); simpl; by split. Qed.
Lemma on_router_port_same f : always (same_routing s0) (on_router_port f).
Proof. intros s [P R T A]. unfold on_router_port. destruct (f _); simpl; by split. Qed.
Lemma addArpTable_same a c : always (same_routing s0) (addArpTable a c).
Proof. unfold addArpTable. step_always same_step. apply on_arp_table_same. Qed.
Lemma delArpTable_same a : always (same_routing s0) (delArpTable a).
Proof. unfold delArpTable. step_always same_step. apply on_arp_table_same. Qed.
Lemma doSetMac_same this m : always (same_routing s0) (doSetMac this m).
Proof.
  unfold doSetMac. step_always same_step; [apply on_router_port_same|]. intros s [P R T A]. unfold on_state, modify. split; [done|done|done|].
  intros n. simpl. rewrite <- A. set (st := with_mac m (state_of (name this) s)).
  rewrite (state_of_insert (name this) n st _ (rt_state s)) by done. case_decide as E; [|done]. by subst n st; destruct (state_of (name this) s).
Qed.
Lemma setMac_same this m : always (same_routing s0) (setMac this m).
Proof. unfold setMac. step_always same_step; [apply doSetMac_same|]. apply always_id. by apply set_peer_parameter_state. Qed.
Lemma on_port_same {A} n (m : Ports -> M Router A) : (forall p, always (same_routing s0) (m p)) -> always (same_routing s0) (on_port n m).
Proof. intros Hm. unfold on_port. step_always same_step. apply Hm. Qed.
Lemma call_back_proxy_same p r md f : always (same_routing s0) (call_back_proxy p r md f).
Proof.
  unfold call_back_proxy, handle_packet_in, packet_in, generate_icmp_ttlexceed, generate_arp_request, generate_arp_reply, handle_router_pkt, send_packet_out, lock_mu, unlock_mu.
  step_always same_step.
Qed.
Lemma quiet_same e : quiet e -> always (same_routing s0) (run_event draw xdp e).
Proof.
  destruct e as [op|n ip|n m|f i|p r md f]; simpl; try done; [| | |intros _; apply call_back_proxy_same].
  - unfold run_op, addArpTableList, delArpTableList, replaceArpTable. destruct op; try done; intros _; step_always same_step; auto using addArpTable_same, delArpTable_same.
    apply on_port_same. intros q. apply setMac_same.
  - intros _. apply on_port_same. intros q. unfold f_mac. step_always same_step. apply doSetMac_same.
  - intros _. apply always_bind; [|intros; by apply always_id]. intros s [P R T A]. unfold receive.
    pose proof (handle_rx_arp_only f i (rt_tables s)) as [a Ha]. destruct (handle_rx xdp f i (rt_tables s)) as [[x y] t]. simpl in Ha. subst t. simpl. by split.
Qed.
End quiet.

(** ** Routers that are only added to *)
Definition adds (op : rt_op) s : Prop :=
  match op with
  | AddPort c => NoDup (j_secondaryip c)
  | AddRoute c => cost_below_max c
  | AddSecondary n ip => ip ∉ secondary_ips_ (state_of n s)
  | _ => False
  end.
Inductive built : Router (D := D) -> Prop :=
  | built_new d : d_ok d -> built (empty_router d)
  | built_add op s s' : built s -> adds op s -> run_op draw op s = (Ok tt, s') -> built s'
  | built_quiet e s : built s -> quiet e -> built (run_event draw xdp e s).2.

Lemma empty_router_added d : d_ok d -> added (empty_router d).
Proof.
  intros Hd. split; [done|done|done|]. intros _ _. unfold wanted, user_routes. cbn [rt_ports routes_ empty_router ports_by_name_ rt_tables routing_table].
  rewrite map_filter_empty, !map_to_list_empty. split; [|rewrite t_free_new; simpl; lia]. intros e. by rewrite t_entries_new.
Qed.
Lemma built_added s : built s -> added s.
Proof.
  induction 1 as [d Hd|op s s' _ IH Ha Hr|e s _ IH Hq]; [by apply empty_router_added| |].
  - destruct op; simpl in Ha, Hr; try done.
    + by apply (addPorts_added draw (j_name conf) conf s s').
    + by apply (addRoute_added conf s s').
    + apply bind_Ok in Hr as (? & ? & [= <- <-] & Hr). apply bind_Ok in Hr as (p & ? & [= Ep <-] & Hr).
      unfold get_port, get_port_by_name in Ep. destruct (ports_by_name_ (rt_ports s) !! n) as [q|] eqn:Eq; [|done]. injection Ep as ->.
      destruct (ad_ports s IH n p Eq) as [En _]. apply (addSecondaryip_added p ip s s'); [done|by rewrite En|by rewrite En|done].
  - apply (same_routing_added s); [|done]. apply quiet_same; [done|]. by split.
Qed.

(** ** The program's table of ports *)
Definition entry_of (r : rt_dp) (states : gmap string port_state) (p : Ports) : Prop :=
  exists st e, states !! name p = Some st /\ m_lookup (router_port r) (index p) = Some e /\ mac_string_to_nbo_uint (mac_ st) = Ok (rp_mac e).
Record in_program s : Prop := {
  ip_ports : ports_ok (rt_ports s);
  ip_range : forall n p, ports_by_name_ (rt_ports s) !! n = Some p -> 0 <= index p < 2 ^ 16;
  ip_entry : forall n p, ports_by_name_ (rt_ports s) !! n = Some p -> entry_of (rt_tables s) (rt_state s) p;
}.

Section entries.
Context (c : cube_ports Ports D) (m : gmap string Ports).
Record keep s : Prop := {
  k_ports : rt_ports s = c;
  k_entry : forall n p, m !! n = Some p -> entry_of (rt_tables s) (rt_state s) p;
}.
Lemma keep_frame s s' : rt_ports s' = rt_ports s -> rt_state s' = rt_state s -> router_port (rt_tables s') = router_port (rt_tables s) -> keep s -> keep s'.
Proof. intros Hp Hs Ht [K E]. split; [congruence|]. intros n p Hn. unfold entry_of. rewrite Hs, Ht. by apply (E n). Qed.
Ltac kept := let s := fresh in intros s; by apply keep_frame.

Lemma rt_set_keep len net v : always keep (rt_set len net v).
Proof. intros s. unfold rt_set. destruct (t_update _ _ _ _); by apply keep_frame. Qed.
Lemma rt_remove_keep len net : always keep (rt_remove len net).
Proof. intros s. unfold rt_remove. destruct (t_delete _ _ _); by apply keep_frame. Qed.
Ltac keep_steps := step_always kept; auto using rt_set_keep, rt_remove_keep.

Lemma find_new_active_nexthop_keep w h : always keep (find_new_active_nexthop w h).
Proof. unfold find_new_active_nexthop. keep_steps. Qed.
Lemma add_active_keep w h x i : always keep (add_active_nexthop_in_ebpf_map w h x i).
Proof. unfold add_active_nexthop_in_ebpf_map. keep_steps. Qed.
Lemma add_local_route_keep a n i : always keep (add_local_route a n i).
Proof. unfold add_local_route. keep_steps. Qed.
Lemma remove_local_route_keep a n : always keep (remove_local_route a n).
Proof. unfold remove_local_route, erase_route. keep_steps; auto using find_new_active_nexthop_keep. Qed.
Lemma addRoute_keep w h j : always keep (addRoute w h j).
Proof. unfold addRoute, new_Route. keep_steps; auto using add_active_keep. Qed.
Lemma delRoute_keep w h : always keep (delRoute w h).
Proof. unfold delRoute, remove_route, erase_route. keep_steps; auto using find_new_active_nexthop_keep. Qed.
Lemma arp_keep f : always keep (on_arp_table f).
Proof. intros s. unfold on_arp_table. destruct (f _); by apply keep_frame. Qed.
Lemma addArpTable_keep a j : always keep (addArpTable a j).
Proof. unfold addArpTable. keep_steps; auto using arp_keep. Qed.
Lemma delArpTable_keep a : always keep (delArpTable a).
Proof. unfold delArpTable. keep_steps; auto using arp_keep. Qed.
Lemma call_back_proxy_keep p r md f : always keep (call_back_proxy p r md f).
Proof.
  unfold call_back_proxy, handle_packet_in, packet_in, generate_icmp_ttlexceed, generate_arp_request, generate_arp_reply, handle_router_pkt, send_packet_out, lock_mu, unlock_mu.
  keep_steps.
Qed.
Lemma receive_keep f i : always keep (receive xdp f i).
Proof.
  intros s. unfold receive. pose proof (handle_rx_arp_only f i (rt_tables s)) as [a Ha].
  destruct (handle_rx xdp f i (rt_tables s)) as [[x y] t]. simpl in Ha. subst t. by apply keep_frame.
Qed.

(** A change of a port's object that keeps its MAC address. *)
Lemma on_state_keep n f : (forall st, mac_ (f st) = mac_ st) -> always keep (on_state n f).
Proof.
  intros Hf s [K E]. unfold on_state, modify. split; [done|]. intros n' p Hp. destruct (E n' p Hp) as (st & e & Hst & He & Hm).
  unfold entry_of. cbn [snd rt_state set_state rt_tables]. destruct (decide (name p = n)) as [En|En].
  - exists (f st), e. rewrite En, lookup_insert_eq. unfold state_of. rewrite <- En, Hst. cbn [default]. by rewrite Hf.
  - exists st, e. by rewrite lookup_insert_ne.
Qed.
(** A write of a port's entry. *)
Lemma table_set_lookup (t t' : portsT) (k : Z) (v : r_port) : table_set t k v = Ok t' -> forall k', m_lookup t' k' = if decide (k = k') then Some v else m_lookup t k'.
Proof. unfold table_set. pose proof (m_update_spec t k v) as Hu. destruct (m_update t k v) as [t1|]; [|done]. intros [= <-]. apply Hu. Qed.
Lemma set_entry_keep k v s : keep s ->
  (forall n p, m !! n = Some p -> index p = k -> exists st, rt_state s !! name p = Some st /\ mac_string_to_nbo_uint (mac_ st) = Ok (rp_mac v)) ->
  keep (on_router_port (fun t => table_set t k v) s).2.
Proof.
  intros Hs Hv. pose proof Hs as [K E]. unfold on_router_port. destruct (table_set _ k v) as [t| |] eqn:Et; [|done..]. split; [done|].
  intros n p Hp. destruct (E n p Hp) as (st & e & Hst & He & Hm). unfold entry_of. cbn [snd set_tables rt_tables rt_state router_port set_router_port].
  rewrite (table_set_lookup _ _ _ _ Et). case_decide as Ek; [|by exists st, e]. destruct (Hv n p Hp) as (st' & Hst' & Hm'); [done|]. by exists st', v.
Qed.

Lemma write_secondary_mac addrs : forall i v v', write_secondary i addrs v = Ok v' -> rp_mac v' = rp_mac v.
Proof.
  induction addrs as [|a addrs IH]; intros i v v'; cbn [write_secondary]; [by intros [= <-]|]. intros (p & _ & Hr)%res_bind_Ok.
  destruct (_ <? _)%nat; [|done]. by apply IH in Hr.
Qed.
Lemma createInControlPlane_keep this ip : always keep (createInControlPlane this ip).
Proof.
  unfold createInControlPlane, new_PortsSecondaryip. keep_steps; [apply add_local_route_keep|by apply on_state_keep].
Qed.
Context (Hm : forall n p, m !! n = Some p -> name p = n /\ 0 <= index p < 2 ^ 16).
Context (Hinj : forall n n' p q, m !! n = Some p -> m !! n' = Some q -> index p = index q -> p = q).
Definition live (this : Ports) : Prop := m !! name this = Some this.
Lemma live_index this n p : live this -> m !! n = Some p -> index p = u16 (index this) -> p = this.
Proof.
  intros Hl Hp. assert (u16 (index this) = index this) as -> by (apply Z.mod_small; by apply (Hm (name this))).
  by apply (Hinj n (name this)).
Qed.
Lemma updatePortInDataPath_keep this : live this -> always keep (updatePortInDataPath this).
Proof.
  intros Hl. apply always_get_bind. intros s Hs. unfold bind, lift. destruct (ip_and_mask _) as [a| |]; [|done..].
  destruct (mac_string_to_nbo_uint _) as [mac| |] eqn:Em; [|done..]. destruct (write_secondary _ _ _) as [v| |] eqn:Ev; [|done..].
  apply set_entry_keep; [done|]. intros n p Hp Hk. pose proof (live_index this n p Hl Hp Hk) as ->.
  destruct (k_entry s Hs _ _ Hl) as (st & e & Hst & _). exists st. split; [done|]. apply write_secondary_mac in Ev. rewrite Ev.
  unfold state_of in Em. by rewrite Hst in Em.
Qed.
Lemma addSecondaryip_keep this ip : live this -> always keep (addSecondaryip this ip).
Proof. intros Hl. unfold addSecondaryip. keep_steps; auto using createInControlPlane_keep, updatePortInDataPath_keep. Qed.
Lemma delSecondaryip_keep this ip : live this -> always keep (delSecondaryip this ip).
Proof.
  intros Hl. unfold delSecondaryip. keep_steps; auto using updatePortInDataPath_keep, remove_local_route_keep. by apply on_state_keep.
Qed.
Lemma doSetIp_keep this ip : live this -> always keep (doSetIp this ip).
Proof.
  intros Hl. unfold doSetIp. apply always_bind; [by apply always_id|]. intros s0. cbv zeta. destruct (String.eqb _ ip); [by apply always_id|].
  apply always_lift_bind. intros q _. apply always_bind; [apply always_try_catch; [|by apply always_id]|].
  2: { intros _. keep_steps; auto using remove_local_route_keep, add_local_route_keep. by apply on_state_keep. }
  apply always_get_bind. intros s Hs. unfold bind, lift. destruct (table_get _ _) as [v| |] eqn:Ev; [|done..].
  do 2 (destruct (ip_string_to_nbo_uint _) as [?| |]; [|done..]). apply set_entry_keep; [done|]. intros n p Hp Hk.
  pose proof (live_index this n p Hl Hp Hk) as E. subst p. destruct (k_entry s Hs _ _ Hl) as (st & e & Hst & He & Hmac). exists st. split; [done|].
  unfold table_get in Ev. rewrite <- Hk, He in Ev. injection Ev as <-. done.
Qed.
Lemma doSetMac_keep this mac0 : live this -> always keep (doSetMac this mac0).
Proof.
  intros Hl. apply always_get_bind. intros s Hs. destruct (String.eqb _ _); [done|]. unfold bind, lift. destruct (table_get _ _) as [v| |]; [|done..].
  destruct (mac_string_to_nbo_uint mac0) as [a| |] eqn:Em; [|done..]. unfold on_router_port. destruct (table_set _ _ _) as [t| |] eqn:Et; [|done..].
  pose proof Hs as [K E]. unfold on_state, modify. split; [done|]. intros n p Hp. destruct (E n p Hp) as (st & e & Hst & He & Hmac). unfold entry_of.
  cbn [snd set_tables set_state rt_tables rt_state router_port set_router_port]. rewrite (table_set_lookup _ _ _ _ Et). destruct (decide (name p = name this)) as [En|En].
  - assert (p = this) as -> by (destruct (Hm _ _ Hp) as [<- _]; rewrite En in Hp; unfold live in Hl; congruence).
    rewrite decide_True by (apply Z.mod_small; by apply (Hm (name this))). rewrite lookup_insert_eq. eauto.
  - rewrite decide_False by (intros Hk; apply En; f_equal; by apply (live_index this n)). rewrite lookup_insert_ne by done. by exists st, e.
Qed.
Lemma setIp_keep this ip : live this -> always keep (setIp this ip).
Proof. intros Hl. unfold setIp. keep_steps; [by apply doSetIp_keep|]. apply always_id, set_peer_parameter_state. Qed.
Lemma setMac_keep this mac0 : live this -> always keep (setMac this mac0).
Proof. intros Hl. unfold setMac. keep_steps; [by apply doSetMac_keep|]. apply always_id, set_peer_parameter_state. Qed.
End entries.

(** ** Methods that leave the ports what they are *)
Record good_names (m : gmap string Ports) : Prop := {
  gn_range : forall n p, m !! n = Some p -> name p = n /\ 0 <= index p < 2 ^ 16;
  gn_inj : forall n n' p q, m !! n = Some p -> m !! n' = Some q -> index p = index q -> p = q;
}.
Definition program_of (m : gmap string Ports) s : Prop := in_program s /\ ports_by_name_ (rt_ports s) = m.
Lemma in_program_good s : in_program s -> good_names (ports_by_name_ (rt_ports s)).
Proof.
  intros [Hok Hr _]. split; [intros n p Hp; split; [by apply (po_name _ Hok)|by apply (Hr n)]|].
  intros n n' p q Hp Hq. apply (index_inj _ _ _ Hok); [by rewrite (po_name _ Hok _ _ Hp)|by rewrite (po_name _ Hok _ _ Hq)].
Qed.
Lemma in_program_keep s : in_program s -> keep (rt_ports s) (ports_by_name_ (rt_ports s)) s.
Proof. intros [_ _ E]. by split. Qed.
Lemma keep_in_program s c : ports_ok c -> good_names (ports_by_name_ c) -> keep c (ports_by_name_ c) s -> in_program s.
Proof. intros Hc Hg [<- E]. split; [done| |done]. intros n p Hp. by apply (gn_range _ Hg n). Qed.
Lemma keep_program {A} m (op : M Router A) : (forall c, good_names m -> always (keep c m) op) -> always (program_of m) op.
Proof.
  intros Hop s [Hs Em]. pose proof (in_program_good s Hs) as Hg. pose proof (in_program_keep s Hs) as Hk. rewrite Em in Hg, Hk.
  specialize (Hop (rt_ports s) Hg s Hk). unfold program_of. rewrite (k_ports _ _ _ Hop). split; [|done].
  apply (keep_in_program _ (rt_ports s)); [apply Hs|by rewrite Em|by rewrite Em].
Qed.
Lemma on_port_program {A} m n (f : Ports -> M Router A) : (forall this, live m this -> good_names m -> always (program_of m) (f this)) -> always (program_of m) (on_port n f).
Proof.
  intros Hf. unfold on_port. apply always_get_bind. intros s [Hs Em]. unfold bind, lift, get_port, get_port_by_name. rewrite Em.
  destruct (m !! n) as [this|] eqn:En; [|done]. pose proof (in_program_good s Hs) as Hg. rewrite Em in Hg. apply Hf; [|done|done].
  unfold live. by rewrite (proj1 (gn_range _ Hg _ _ En)).
Qed.
Lemma set_daemon_ok d (c : cube_ports Ports D) : ports_ok c -> d_ok d -> d_ports d = d_ports (daemon c) -> ports_ok (set_daemon d c).
Proof. intros [P1 P2 P3 P4] Hd Hn. split; [done|done|by transitivity (d_ports (daemon c))|done]. Qed.
Lemma set_conf_program m conf n : always (program_of m) (on_ports (on_daemon (d_set_conf conf n))).
Proof.
  intros s [Hs Em]. unfold on_ports, on_daemon, zoom. pose proof (d_set_conf_spec conf n (daemon (rt_ports s)) (po_ok _ (ip_ports s Hs))) as [Hd Hn].
  destruct (d_set_conf conf n (daemon (rt_ports s))) as [r d]. cbn [snd] in *. destruct Hs as [P R E]. split; [|done]. split; [|done|done]. by apply set_daemon_ok.
Qed.

(** ** A new port *)
Lemma always_try_catch_exn {S A} (P : S -> Prop) p (m : M S A) h : always P m -> (forall e, always P (h e)) -> always P (try_catch_exn p m h).
Proof. intros Hm Hh s Hs. unfold try_catch_exn. specialize (Hm s Hs). destruct (m s) as [[a|e|] s']; simpl in *; [done| |done]. destruct (p e); [by apply Hh|done]. Qed.

Lemma new_Ports_keep n i (conf : PortsJson) c m : (forall n' p, m !! n' = Some p -> name p <> n /\ index p <> u16 i) -> always (keep c m) (new_Ports draw n i conf).
Proof.
  intros Hfresh. assert (forall f, always (keep c m) (modify (fun s => set_state (partial_alter f n (rt_state s)) s))) as Hst.
  { intros f s [K E]. split; [done|]. intros n' p Hp. destruct (E n' p Hp) as (st & e & Hs & He & Hmac). exists st, e.
    cbn [modify snd rt_state set_state rt_tables]. rewrite lookup_partial_alter_ne; [done|]. intros En. by destruct (Hfresh n' p Hp). }
  unfold new_Ports. apply always_bind; [by apply always_id|]. intros s0. destruct (match j_mac conf with Some x => _ | None => _ end) as [mac k].
  apply always_bind; [apply always_modify; intros s; by apply keep_frame|]. intros _. apply always_bind; [apply Hst|]. intros _.
  apply always_try_catch_exn; [|intros e; apply always_bind; [apply Hst|intros _; by apply always_id]].
  do 3 (apply always_lift_bind; intros ? _). apply always_bind.
  { intros s Hs. apply set_entry_keep; [done|]. intros n' p Hp Hk. by destruct (Hfresh n' p Hp). }
  intros _. apply always_bind; [destruct (j_ip conf); [apply add_local_route_keep|by apply always_id]|]. intros _.
  apply always_bind; [apply always_for_each; intros ip _; apply createInControlPlane_keep|]. intros _.
  apply always_bind; [apply always_id, align_peer_state|]. intros _. by apply always_id.
Qed.
(** Its entry, when the constructor returns. *)
Lemma new_Ports_entry n i (conf : PortsJson) s p s' : 0 <= i < 2 ^ 16 -> new_Ports draw n i conf s = (Ok p, s') -> p = MkPorts n i /\ entry_of (rt_tables s') (rt_state s') p.
Proof.
  intros Hi. assert (u16 i = i) as Ei by by apply Z.mod_small. unfold new_Ports. rewrite Ei. intros Hr. apply bind_Ok in Hr as (? & ? & [= <- <-] & Hr).
  destruct (match j_mac conf with Some m => _ | None => _ end) as [mac k].
  apply bind_Ok in Hr as (? & ? & [= <- <-] & Hr). apply bind_Ok in Hr as (? & ? & [= <- <-] & Hr). unfold try_catch_exn in Hr.
  destruct (bind _ _ _) as [[q|e|] s1] eqn:Em; [|simpl in Hr; unfold bind, modify, throw in Hr; by destruct (any_exn e)|done]. injection Hr as -> ->.
  apply bind_Ok in Em as (a & s0 & [= Ea <-] & Em). apply bind_Ok in Em as (m & s0 & [= Emac <-] & Em).
  apply bind_Ok in Em as (v & s0 & [= Ev <-] & Em). apply bind_Ok in Em as ([] & s2 & Eset & Em). apply on_router_port_ok in Eset as (t & Et & ->).
  set (s2 := set_tables _ _) in Em. set (this := MkPorts n i) in *.
  assert (keep (rt_ports s) {[n := this]} s2) as Hk.
  { split; [done|]. intros n' q [<- <-]%lookup_singleton_Some. exists (PortState mac (default "" (j_ip conf)) ∅), v. cbn.
    rewrite lookup_insert_eq. split; [done|]. rewrite (table_set_lookup _ _ _ _ Et), decide_True by done. split; [done|].
    apply write_secondary_mac in Ev. by rewrite Ev. }
  assert (always (keep (rt_ports s) {[n := this]}) (match j_ip conf with Some ip => add_local_route ip n i | None => ret tt end ;;;
    for_each (j_secondaryip conf) (createInControlPlane this) ;;; align_peer this conf ;;; ret this)) as Hal.
  { apply always_bind; [destruct (j_ip conf); [apply add_local_route_keep|by apply always_id]|]. intros _.
    apply always_bind; [apply always_for_each; intros ip _; apply createInControlPlane_keep|]. intros _.
    apply always_bind; [apply always_id, align_peer_state|]. intros _. by apply always_id. }
  specialize (Hal s2 Hk). rewrite Em in Hal. cbn [snd] in Hal. apply bind_Ok in Em as ([] & s3 & _ & Em). apply bind_Ok in Em as ([] & s4 & _ & Em).
  apply bind_Ok in Em as ([] & s5 & _ & [= <- <-]).
  split; [done|]. by apply (k_entry _ _ _ Hal n), lookup_singleton_eq.
Qed.

(** ** What a constructor throws is a std::exception *)
Definition std_res {A} (r : res A) : Prop := forall e, r = Throw e -> is_std_exception e = true.
Definition std {S A} (m : M S A) : Prop := forall x, std_res (m x).1.
Lemma std_bind {S A B} (m : M S A) (k : A -> M S B) : std m -> (forall a, std (k a)) -> std (bind m k).
Proof. intros Hm Hk x. unfold bind. specialize (Hm x). destruct (m x) as [[a|e|] x']; simpl in *; [apply Hk|intros e' [= <-]; by apply Hm|by intros e]. Qed.
Lemma std_lift {S A} (r : res A) : std_res r -> std (S := S) (lift r).
Proof. by intros Hr x. Qed.
Lemma std_ok {S A} (m : M S A) : (forall x, exists a, (m x).1 = Ok a) -> std m.
Proof. intros Hm x e. destruct (Hm x) as [a ->]. done. Qed.
Lemma std_res_bind {A B} (r : res A) (k : A -> res B) : std_res r -> (forall a, std_res (k a)) -> std_res (res_bind r k).
Proof. intros Hr Hk. destruct r as [a|e|]; [apply Hk|intros e' [= <-]; by apply Hr|by intros e]. Qed.
Lemma std_ok_res {A} (a : A) : std_res (Ok a).
Proof. by intros e. Qed.
Lemma std_ip text : std_res (ip_string_to_nbo_uint text).
Proof. unfold ip_string_to_nbo_uint. intros e. repeat case_match; by intros [= <-]. Qed.
Lemma std_mac text : std_res (mac_string_to_nbo_uint text).
Proof. unfold mac_string_to_nbo_uint. intros e. repeat case_match; by intros [= <-]. Qed.
Lemma std_split text : std_res (split_ip_and_prefix text).
Proof. unfold split_ip_and_prefix, get_netmask_from_prefixlength. intros e. destruct (getlines text) as [|a [|b l]]; [done..|]. by repeat case_match. Qed.
Lemma std_length text : std_res (get_netmask_length text).
Proof. unfold get_netmask_length. intros e. repeat case_match; by intros [= <-]. Qed.
Lemma std_ip_and_mask text : std_res (ip_and_mask text).
Proof.
  unfold ip_and_mask. apply std_res_bind; [apply std_split|]. intros p. apply std_res_bind; [apply std_ip|]. intros a.
  apply std_res_bind; [apply std_ip|]. intros m. apply std_ok_res.
Qed.
Lemma std_write addrs : forall i v, std_res (write_secondary i addrs v).
Proof.
  induction addrs as [|a addrs IH]; intros i v; cbn [write_secondary]; [apply std_ok_res|]. apply std_res_bind; [apply std_ip_and_mask|].
  intros p. destruct (_ <? _)%nat; [apply IH|by intros e].
Qed.
Lemma std_rt_set len net v : std (rt_set (D := D) len net v).
Proof. intros s e. unfold rt_set. destruct (t_update _ _ _ _); by intros [= <-]. Qed.
Lemma std_add_local_route a n i : std (add_local_route (D := D) a n i).
Proof.
  unfold add_local_route. apply std_bind; [apply std_lift, std_split|]. intros [ip m]. apply std_bind; [apply std_lift, std_ip|]. intros x.
  apply std_bind; [apply std_rt_set|]. intros _. destruct (String.eqb _ _); [by apply std_ok; eauto|]. apply std_bind; [apply std_lift, std_ip|]. intros y.
  cbv zeta. apply std_bind; [apply std_lift, std_length|]. intros l. apply std_bind; [apply std_rt_set|]. intros _. apply std_ok. by eexists.
Qed.
Lemma std_create this ip : std (createInControlPlane (D := D) this ip).
Proof.
  unfold createInControlPlane, new_PortsSecondaryip. apply std_bind; [|intros _; apply std_ok; by eexists].
  apply std_bind; [apply std_ok; by eexists|]. intros s. destruct (_ <=? _); [|apply std_add_local_route]. by intros s' e [= <-].
Qed.
Lemma std_peer_parameter this n v : std (set_peer_parameter this n v).
Proof.
  intros s e. unfold set_peer_parameter, bind, get. destruct (device_answer _ _ _ _) as [x|] eqn:Ex; [|done].
  intros [= <-]. by apply device_answer_std in Ex.
Qed.
Lemma std_align this (conf : PortsJson) : std (align_peer this conf).
Proof.
  unfold align_peer. apply std_bind; [destruct (j_mac conf); [apply std_peer_parameter|apply std_ok; by eexists]|]. intros _.
  destruct (j_ip conf); [apply std_peer_parameter|apply std_ok; by eexists].
Qed.
Lemma std_new_Ports n i (conf : PortsJson) : std (new_Ports draw n i conf).
Proof.
  unfold new_Ports. apply std_bind; [apply std_ok; by eexists|]. intros s0. destruct (match j_mac conf with Some x => _ | None => _ end) as [mac k].
  do 2 (apply std_bind; [apply std_ok; by eexists|intros _]).
  match goal with |- std (try_catch_exn _ ?m _) => assert (std m) as Hm end.
  { apply std_bind; [apply std_lift; destruct (j_ip conf); [apply std_ip_and_mask|apply std_ok_res]|]. intros a.
    apply std_bind; [apply std_lift, std_mac|]. intros x. apply std_bind; [apply std_lift, std_write|]. intros v.
    apply std_bind; [intros s e; unfold on_router_port, table_set; by destruct (m_update _ _ _); intros [= <-]|]. intros _.
    apply std_bind; [destruct (j_ip conf); [apply std_add_local_route|apply std_ok; by eexists]|]. intros _.
    apply std_bind; [|intros _; apply std_bind; [apply std_align|intros _; apply std_ok; by eexists]].
    induction (j_secondaryip conf) as [|ip l IH]; cbn [for_each]; [apply std_ok; by eexists|]. apply std_bind; [apply std_create|by intros _]. }
  intros s e. unfold try_catch_exn. specialize (Hm s). destruct (bind _ _ s) as [[p|e'|] s']; cbn [any_exn]; [done| |done].
  unfold bind, modify, throw. simpl. intros [= <-]. by apply Hm.
Qed.

(** The daemon takes the configuration of a port, whatever it is. *)
Definition accepted (conf : d_conf) : Prop := forall n d, exists d', d_set_conf conf n d = (Ok tt, d').

Lemma on_daemon_run {A} (m : M D A) s : on_ports (on_daemon m) s = ((m (daemon (rt_ports s))).1, set_ports (set_daemon (m (daemon (rt_ports s))).2 (rt_ports s)) s).
Proof. unfold on_ports, on_daemon, zoom. by destruct (m (daemon (rt_ports s))). Qed.

Lemma addPorts_program n (conf : PortsJson) : accepted (j_base conf) -> sound in_program (addPorts draw n conf).
Proof.
  intros Hacc s Hs. pose proof (in_program_good s Hs) as Hg. pose proof (in_program_keep s Hs) as Hk. pose proof (ip_ports s Hs) as [Pn Pi Pd Pk].
  unfold addPorts. rewrite (bind_run get _ s s s eq_refl). destruct (ports_by_name_ (rt_ports s) !! n) as [q|] eqn:En; [by intros _|].
  unfold bind at 1. rewrite on_daemon_run. pose proof (d_add_spec n (j_base conf) (daemon (rt_ports s)) Pk) as Hd.
  destruct (d_add_port n (j_base conf) (daemon (rt_ports s))) as [[i|e|] d] eqn:Ea; destruct Hd as [Hdok Hd]; cbn [fst snd]; cycle 1;
    [intros _; apply (keep_in_program _ (set_daemon d (rt_ports s))); [apply set_daemon_ok; [apply Hs|done|done]|done|split; [done|apply Hk]]..|].
  destruct Hd as (Hi & Hfree & Hd). set (c := set_daemon d (rt_ports s)). set (s1 := set_ports c s).
  assert (keep c (ports_by_name_ (rt_ports s)) s1) as Hk1 by (split; [done|apply Hk]).
  assert (forall n' p, ports_by_name_ (rt_ports s) !! n' = Some p -> name p <> n /\ index p <> u16 i) as Hfresh.
  { intros n' p Hp. assert (u16 i = i) as -> by by apply Z.mod_small. split; [intros <-; by rewrite (Pn _ _ Hp), Hp in En|].
    intros <-. apply (Hfree n'). by rewrite Pd, lookup_fmap, Hp. }
  unfold try_catch_exn. unfold bind at 1. pose proof (new_Ports_keep n i conf c _ Hfresh s1 Hk1) as Hk2.
  destruct (new_Ports draw n i conf s1) as [[p|e|] s2] eqn:Enew; cbn [snd] in Hk2.
  - apply new_Ports_entry in Enew as [-> He]; [|done]. destruct (Hacc n d) as [d' Ec].
    pose proof (add_port_run n (j_base conf) (fun i => Ok (MkPorts n i)) (rt_ports s) (ip_ports s Hs) ltac:(eauto) Hacc) as Hrun.
    unfold add_port, bind, get, on_daemon, zoom, try_catch_exn, lift, modify in Hrun. rewrite En, Ea in Hrun.
    cbn [daemon set_daemon name Ports_type p_name] in Hrun. rewrite Ec in Hrun. cbn [ret] in Hrun. unfold ret in Hrun.
    destruct Hrun as (Hok & _ & _ & _ & Hnames & _). unfold on_ports, on_daemon, zoom, bind, modify. rewrite (k_ports _ _ _ Hk2).
    cbn [daemon set_daemon name Ports_type p_name c]. rewrite Ec. intros _.
    match goal with |- in_program ?s3 => assert (ports_by_name_ (rt_ports s3) = <[n := MkPorts n i]> (ports_by_name_ (rt_ports s))) as Hn3 by exact Hnames end.
    split; [exact Hok|rewrite Hn3..].
    + intros n' q. rewrite lookup_insert_Some. intros [[_ <-]|[_ Hq]]; [done|by apply (ip_range s Hs n')].
    + intros n' q. rewrite lookup_insert_Some. intros [[_ <-]|[_ Hq]]; [exact He|by apply (k_entry _ _ _ Hk2 n')].
  - cbn [fst snd]. assert (in_program (set_ports (set_daemon (d_remove_port n (daemon (rt_ports s2))).2 (rt_ports s2)) s2)) as Hrm.
    { rewrite (k_ports _ _ _ Hk2). cbn [daemon set_daemon c]. destruct (d_remove_spec n d Hdok) as (d' & -> & Hd' & Hn'); [rewrite Hd, lookup_insert_eq; eauto|].
      cbn [snd]. apply (keep_in_program _ (set_daemon d' (rt_ports s))); [|done|split; [done|apply Hk2]].
      split; [done|done| |done]. cbn [daemon set_daemon ports_by_name_]. rewrite Hn', Hd, delete_insert_id; [done|]. by rewrite Pd, lookup_fmap, En. }
    pose proof (std_new_Ports n i conf s1) as He. rewrite Enew in He. rewrite (He e eq_refl). unfold bind. rewrite on_daemon_run.
    destruct (d_remove_port n _) as [[r|e'|] d'] in Hrm |- *; intros _; exact Hrm.
  - by intros [].
Qed.

(** ** A port that goes *)
Lemma delSecondaryipList_keep c m this : good_names m -> live m this -> always (keep c m) (delSecondaryipList this).
Proof. intros [H5 H6] Hl. unfold delSecondaryipList. apply always_bind; [by apply always_id|]. intros s. apply always_for_each. intros ip _. by apply delSecondaryip_keep. Qed.
Lemma table_remove_lookup (t t' : portsT) (k : Z) : table_remove t k = Ok t' -> forall k', m_lookup t' k' = if decide (k = k') then None else m_lookup t k'.
Proof. unfold table_remove. pose proof (m_delete_spec t k) as Hd. destruct (m_delete t k) as [t1|]; [|done]. intros [= <-]. apply Hd. Qed.

Lemma delPorts_program n : sound in_program (delPorts (D := D) n).
Proof.
  intros s Hs. pose proof (in_program_good s Hs) as Hg. pose proof (in_program_keep s Hs) as Hk. pose proof (ip_ports s Hs) as Hok.
  unfold delPorts. rewrite (bind_run get _ s s s eq_refl). unfold bind at 1, lift, get_port, get_port_by_name.
  destruct (ports_by_name_ (rt_ports s) !! n) as [this|] eqn:En; [|by intros _]. assert (name this = n) as Hn by by apply (gn_range _ Hg n).
  set (m := ports_by_name_ (rt_ports s)) in *. assert (live m this) as Hl by (unfold live; by rewrite Hn).
  assert (forall s', keep (rt_ports s) m s' -> in_program s') as Hin by (intros s' Hs'; by apply (keep_in_program s' (rt_ports s))).
  pose proof (delSecondaryipList_keep (rt_ports s) m this Hg Hl s Hk) as Hk1. unfold bind at 1. destruct (delSecondaryipList this s) as [[[]|e|] s1];
    [|intros _; by apply Hin..]. cbn [snd] in Hk1. rewrite (bind_run get _ s1 s1 s1 eq_refl). cbv zeta.
  assert (always (keep (rt_ports s) m) (if (ip_ (state_of n s1) =? "")%string then ret tt else remove_local_route (ip_ (state_of n s1)) n)) as Hrm.
  { destruct (_ =? _)%string; [by apply always_id|apply remove_local_route_keep]. }
  specialize (Hrm s1 Hk1). unfold bind at 1. match type of Hrm with keep _ _ (?op s1).2 => destruct (op s1) as [[[]|e|] s2] end; [|intros _; by apply Hin..].
  cbn [snd] in Hrm. unfold bind at 1. unfold on_router_port. destruct (table_remove _ _) as [t|e|] eqn:Et; [|intros _; by apply Hin..].
  pose proof (remove_port_run n (rt_ports s) Hok) as Hr. fold m in Hr. rewrite En in Hr. destruct Hr as (d & Hr & Hok'). unfold bind, on_ports, zoom.
  cbn [rt_ports set_tables]. rewrite (k_ports _ _ _ Hrm), Hr. intros _. split; cbn [rt_ports set_ports set_state modify ports_by_name_].
  - exact Hok'.
  - intros n' p Hp. apply lookup_delete_Some in Hp as [_ Hp]. by apply (gn_range _ Hg n').
  - intros n' p Hp. apply lookup_delete_Some in Hp as [Hne Hp]. destruct (k_entry _ _ _ Hrm n' p Hp) as (st & e & Hst & He & Hm). exists st, e.
    cbn [rt_state set_state set_ports set_tables rt_tables router_port set_router_port]. assert (name p = n') as Hpn by by apply (gn_range _ Hg n').
    rewrite Hpn, lookup_delete_ne by done. rewrite <- Hpn. split; [done|]. split; [|done]. rewrite (table_remove_lookup _ _ _ Et), decide_False; [done|].
    intros Ei. apply Hne. assert (this = p) as ->; [|congruence]. apply (gn_inj _ Hg n n'); [done|done|]. rewrite <- Ei. symmetry. apply Z.mod_small. by apply (gn_range _ Hg n).
Qed.

(** ** Every event *)
Definition confs_of (op : rt_op) : list d_conf :=
  match op with
  | AddPort c => [j_base c] | AddPorts l => j_base <$> l | ReplacePort _ c => [j_base c] | _ => []
  end.
Definition allowed (e : rt_event) : Prop := match e with Request op => Forall accepted (confs_of op) | _ => True end.

Lemma program_always {A} (op : M Router A) : (forall m, always (program_of m) op) -> sound in_program op.
Proof. intros Hop. apply sound_always. intros s Hs. by apply (Hop (ports_by_name_ (rt_ports s)) s). Qed.
Lemma keep_sound {A} (op : M Router A) : (forall c m, good_names m -> always (keep c m) op) -> sound in_program op.
Proof. intros Hop. apply program_always. intros m. apply keep_program. intros c. apply Hop. Qed.
Lemma on_port_keep {A} n (f : Ports -> M Router A) : (forall c m this, good_names m -> live m this -> always (keep c m) (f this)) -> sound in_program (on_port n f).
Proof. intros Hf. apply program_always. intros m. apply on_port_program. intros this Hl Hg. apply keep_program. intros c _. by apply Hf. Qed.

Lemma update_port_program m (conf : PortsJson) this : live m this -> good_names m -> always (program_of m) (update_port conf this).
Proof.
  intros Hl Hg. unfold update_port. apply always_bind; [apply set_conf_program|]. intros _. apply keep_program. intros c [Hm Hinj].
  apply always_bind; [destruct (j_ip conf); [by apply setIp_keep|by apply always_id]|]. intros _. apply always_bind.
  - apply always_for_each. intros ip _. apply always_bind; [by apply always_id|]. intros s. by apply always_id.
  - intros _. destruct (j_mac conf); [by apply setMac_keep|by apply always_id].
Qed.
Lemma update_program ports routes arps : sound in_program (update (D := D) ports routes arps).
Proof.
  unfold update. apply sound_bind; [|intros _; apply sound_bind; [|intros _]].
  - apply sound_for_each. intros i _. apply program_always. intros m. apply on_port_program. intros this Hl Hg. by apply update_port_program.
  - apply keep_sound. intros c m _. apply always_for_each. intros i _. unfold update_route. step_always idtac.
  - apply keep_sound. intros c m _. apply always_for_each. intros i _. unfold update_arp. step_always idtac.
Qed.
Lemma run_op_program op : Forall accepted (confs_of op) -> sound in_program (run_op draw op).
Proof.
  assert (forall l, Forall accepted (j_base <$> l) -> sound in_program (addPortsList draw l)) as Hadd.
  { intros l Hl. apply sound_for_each. intros i Hi. apply addPorts_program. rewrite list.Forall_forall in Hl. apply Hl, list_elem_of_fmap. by exists i. }
  destruct op; simpl; intros Hacc.
  - apply addPorts_program. by apply list.Forall_cons in Hacc as [? _].
  - by apply Hadd.
  - apply delPorts_program.
  - apply sound_bind; [by apply sound_always, always_id|]. intros s. apply sound_for_each. intros i _. apply delPorts_program.
  - apply sound_bind; [apply delPorts_program|]. intros _. apply addPorts_program. by apply list.Forall_cons in Hacc as [? _].
  - apply keep_sound. intros. apply addRoute_keep.
  - apply keep_sound. intros. apply always_for_each. intros. apply addRoute_keep.
  - apply keep_sound. intros. apply delRoute_keep.
  - apply keep_sound. intros. unfold delRouteList. do 2 (apply always_bind; [by apply always_id|intros ?]). apply always_for_each. intros. apply delRoute_keep.
  - apply keep_sound. intros. apply always_bind; [apply delRoute_keep|]. intros _. apply addRoute_keep.
  - apply on_port_keep. intros c m this [? ?] Hl. by apply addSecondaryip_keep.
  - apply on_port_keep. intros c m this [? ?] Hl. apply always_for_each. intros ip _. by apply addSecondaryip_keep.
  - apply on_port_keep. intros c m this [? ?] Hl. by apply delSecondaryip_keep.
  - apply on_port_keep. intros c m this Hg Hl. by apply delSecondaryipList_keep.
  - apply on_port_keep. intros c m this [? ?] Hl. apply always_bind; [by apply delSecondaryip_keep|]. intros _. by apply addSecondaryip_keep.
  - apply on_port_keep. intros c m this [? ?] Hl. by apply setIp_keep.
  - apply on_port_keep. intros c m this [? ?] Hl. by apply setMac_keep.
  - apply keep_sound. intros. apply addArpTable_keep.
  - apply keep_sound. intros. apply always_for_each. intros. apply addArpTable_keep.
  - apply keep_sound. intros. apply delArpTable_keep.
  - apply keep_sound. intros. unfold delArpTableList. do 2 (apply always_bind; [by apply always_id|intros ?]). apply always_for_each. intros. apply delArpTable_keep.
  - apply keep_sound. intros. apply always_bind; [apply delArpTable_keep|]. intros _. apply addArpTable_keep.
  - apply update_program.
Qed.
Lemma run_event_program e : allowed e -> sound in_program (run_event draw xdp e).
Proof.
  destruct e as [op|n ip|n m|f i|p r md f]; simpl; intros Ha; [by apply run_op_program| | | |].
  - apply on_port_keep. intros c m this [? ?] Hl. unfold f_ip. apply always_try_catch; [|by apply always_id].
    destruct (_ =? _)%string; [by apply always_id|by apply doSetIp_keep].
  - apply on_port_keep. intros c m' this [? ?] Hl. unfold f_mac. apply always_try_catch; [by apply doSetMac_keep|by apply always_id].
  - apply keep_sound. intros. apply always_bind; [apply receive_keep|]. intros _. by apply always_id.
  - apply keep_sound. intros. apply call_back_proxy_keep.
Qed.

(** The states that a router can be in. *)
Inductive reachable : Router (D := D) -> Prop :=
  | reach_new d ports routes arps s : d_ok d -> d_ports d = ∅ -> Forall accepted (j_base <$> ports) ->
      new_Router draw d ports routes arps = (Ok tt, s) -> reachable s
  | reach_event e s : reachable s -> allowed e -> (run_event draw xdp e s).1 <> Undefined -> reachable (run_event draw xdp e s).2.
Lemma reachable_program s : reachable s -> in_program s.
Proof.
  induction 1 as [d ports routes arps s Hd Hn Hacc Hr|e s _ IH Ha Hdef].
  - assert (in_program (empty_router d)) as He.
    { split; cbn [rt_ports empty_router ports_by_name_]; [|by intros n p; rewrite lookup_empty..].
      split; cbn; [by intros n p; rewrite lookup_empty| |by rewrite Hn, fmap_empty|done].
      intros i p. rewrite !lookup_empty. split; [done|by intros [? _]]. }
    assert (sound in_program (addPortsList draw ports ;;; addRouteList routes ;;; addArpTableList arps)) as Hs.
    { apply sound_bind; [by apply (run_op_program (AddPorts ports))|]. intros _. apply sound_bind; [by apply (run_op_program (AddRoutes routes))|].
      intros _. by apply (run_op_program (AddArps arps)). }
    specialize (Hs _ He). unfold new_Router in Hr. rewrite Hr in Hs. by apply Hs.
  - pose proof (run_event_program e Ha s IH) as Hs. destruct (run_event draw xdp e s) as [r s']. by apply Hs.
Qed.
End run.
