(* ===== verification/RtTheorems.v ===== *)
(** pcn-router: the properties, with witnesses on a concrete router of two ports, and
    what the router does otherwise than it means to. *)
From Stdlib Require Import ZArith Lia Ascii String.
From stdpp Require Import base gmap sets list strings numbers sorting.
From S2P Require Import Prelude.
From S2P Require Import Bpf.
From S2P Require Import NetUtils.
From S2P Require Import Frame.
From S2P Require Import Csum.
From S2P Require Import Tables.
From S2P Require Import CubePorts.
From S2P Require Import DaemonPorts.
From S2P Require Import RtDatapath.
From S2P Require Import RtControl.
From S2P Require Import RtFacts.
From S2P Require Import RtRun.
#[local] Open Scope Z_scope.
#[local] Open Scope cpp_scope.

(** ** The buffer of packets as a queue that keeps the last five *)
Inductive queue_op := Enqueue (packet : list Z) | Dequeue.
Definition kept_five (l : list (list Z)) : list (list Z) := drop (length l - 5) l.
(** The packets that come out. *)
Fixpoint run_queue (ops : list queue_op) (l : list (list Z)) : list (list Z) :=
  match ops with
  | [] => []
  | Enqueue x :: ops => run_queue ops (kept_five (l ++ [x]))
  | Dequeue :: ops => match l with [] => [] :: run_queue ops [] | x :: l => x :: run_queue ops l end
  end.
Fixpoint run_buffer (ops : list queue_op) (q : CircularBuffer) : res (list (list Z)) :=
  match ops with
  | [] => Ok []
  | Enqueue x :: ops => run_buffer ops (enQueue x q)
  | Dequeue :: ops => r <~ deQueue q ;; out <~ run_buffer ops r.2 ;; Ok (r.1 :: out)
  end.
Fixpoint enqueued (ops : list queue_op) : Z :=
  match ops with [] => 0 | Enqueue _ :: ops => 1 + enqueued ops | Dequeue :: ops => enqueued ops end.

(** [q] holds [l] from its front on. *)
Definition slot (items : list (list Z)) (i : nat) : list Z := default [] (items !! (i mod 5)%nat).
Inductive holds (items : list (list Z)) : CircularBuffer -> list (list Z) -> Prop :=
  | holds_none : holds items (MkBuffer items (-1) (-1)) []
  | holds_some f n : (f < 5)%nat -> (1 <= n <= 5)%nat -> holds items (MkBuffer items (Z.of_nat f) (Z.of_nat ((f + n - 1) mod 5))) ((fun j => slot items (f + j)) <$> seq 0 n).
Lemma enqueue_holds a b c d e x q l : holds [a; b; c; d; e] q l -> (length l = 5%nat -> front q < 4) ->
  exists items, length items = 5%nat /\ holds items (enQueue x q) (kept_five (l ++ [x])) /\
    front (enQueue x q) = (if (length l =? 5)%nat then front q + 1 else if (length l =? 0)%nat then 0 else front q).
Proof.
  intros [|f n Hf Hn] H4.
  - exists [x; b; c; d; e]. split; [done|]. split; [|done]. apply (holds_some [x; b; c; d; e] 0 1); lia.
  - rewrite length_fmap, length_seq in *. cbn [front] in *.
    destruct f as [|[|[|[|[|]]]]]; [| | | | |lia]; (destruct n as [|[|[|[|[|[|]]]]]]; [lia| | | | | |lia]); try (exfalso; specialize (H4 eq_refl); lia);
    (eexists; split; [|split; [|reflexivity]]; [|
      match goal with |- holds _ (enQueue _ (MkBuffer _ ?fz _)) _ =>
        let f := eval vm_compute in (Z.to_nat fz) in
        first [ refine (holds_some _ f 2 _ _); lia | refine (holds_some _ f 3 _ _); lia | refine (holds_some _ f 4 _ _); lia | refine (holds_some _ f 5 _ _); lia | refine (holds_some _ (S f) 5 _ _); lia ] end]; reflexivity).
Qed.
Lemma dequeue_holds a b c d e q l : holds [a; b; c; d; e] q l ->
  exists x q', deQueue q = Ok (x, q') /\ holds [a; b; c; d; e] q' (tail l) /\ (x, tail l) = match l with [] => ([], []) | y :: l => (y, l) end /\
    front q' <= Z.max 0 (if decide (l = []) then front q else front q + 1).
Proof.
  intros [|f n Hf Hn]; [by exists [], (MkBuffer [a; b; c; d; e] (-1) (-1)); repeat split; [constructor|]|].
  destruct f as [|[|[|[|[|]]]]]; [| | | | |lia]; (destruct n as [|[|[|[|[|[|]]]]]]; [lia| | | | | |lia]);
    (eexists _, _; split; [reflexivity|]; split; [|split; [reflexivity|vm_compute; congruence]]);
    first [ exact (holds_none _)
          | match goal with |- holds _ (MkBuffer _ ?fz _) (tail (_ <$> seq 0 ?n)) =>
              let f := eval vm_compute in (Z.to_nat fz) in let m := eval vm_compute in (pred n) in refine (holds_some _ f m _ _); lia end ].
Qed.
Lemma five {A} (l : list A) : length l = 5%nat -> exists a b c d e, l = [a; b; c; d; e].
Proof. destruct l as [|a [|b [|c [|d [|e [|]]]]]]; try done. intros _. by exists a, b, c, d, e. Qed.
Lemma enqueued_nonneg ops : 0 <= enqueued ops.
Proof. induction ops as [|[]]; simpl; lia. Qed.

(** C37. The packets that wait for a hardware address come out in the order in which
    they came in, the oldest dropped when there are more than five, for any sequence of
    up to nine packets with any taking out in between, which also never reads
    outside of the buffer. *)
Theorem buffer_is_queue ops :
  enqueued ops <= 9 -> run_buffer ops new_CircularBuffer = Ok (run_queue ops []).
Proof.
  assert (forall items q l, length items = 5%nat -> holds items q l -> forall n, Z.of_nat (length l) + Z.max 0 (front q) <= n -> n + enqueued ops <= 9 ->
    run_buffer ops q = Ok (run_queue ops l)) as Hgen.
  { induction ops as [|[x|] ops IH]; intros items q l Hi Hh n Hn Ho; [done| |]; pose proof (enqueued_nonneg ops); cbn [enqueued] in Ho;
      destruct (five items Hi) as (a & b & c & d & e & ->); cbn [run_buffer run_queue].
    - destruct (enqueue_holds a b c d e x q l Hh) as (items & Hi' & Hh' & Hf); [intros E; rewrite E in Hn; lia|].
      apply (IH items _ _ Hi' Hh' (n + 1)); [|lia]. rewrite Hf. unfold kept_five. rewrite length_drop, length_app. simpl.
      destruct (Nat.eqb_spec (length l) 5) as [E|]; [rewrite E in *; lia|]. destruct (Nat.eqb_spec (length l) 0) as [E|]; [rewrite E in *; lia|].
      assert (length l <= 5)%nat by (destruct Hh; [simpl; lia|rewrite length_fmap, length_seq; lia]). lia.
    - destruct (dequeue_holds a b c d e q l Hh) as (x & q' & -> & Hh' & Ex & Hf). cbn [res_bind fst snd].
      rewrite (IH _ q' (tail l) Hi Hh' n); [|destruct l; simpl in *; lia|lia].
      destruct l as [|y l]; injection Ex; intros; by subst. }
  intros Ho. apply (Hgen (replicate 5 []) new_CircularBuffer [] eq_refl (holds_none _) 0); [done|lia].
Qed.
(** With a tenth packet, or after it, the front runs out of the buffer. *)
Example tenth_packet_undefined : run_buffer (replicate 10 (Enqueue [1]) ++ [Dequeue]) new_CircularBuffer = Undefined.
Proof. by vm_compute. Qed.

(** * The properties *)
Section properties.
Context `{Inet} `{RtTables} `{Tins} {D : Type} `{DaemonCube D} `{!PeerDevice D}.
Context `{CsumDiff} `{L3Replace} (draw : nat -> Z) (xdp : bool).
Implicit Types (s : Router (D := D)) (f g : list Z).


(** C35. In every state that requests (also those that fail), changes of the devices
    behind the ports, and packets can lead to, as long as the daemon accepts the
    configuration of every port that is asked for and nothing undefined happens, the
    ports of the control plane are those of the daemon, with identifiers of their own,
    and the program knows each of them under its identifier, with its MAC address. A
    configuration that the daemon refuses leaves the service with a port that the daemon
    has not, see [refused_port_stays]. *)
Theorem ports_in_program s :
  reachable draw xdp s ->
  d_ports (daemon (rt_ports s)) = index <$> ports_by_name_ (rt_ports s) /\
  forall n p, ports_by_name_ (rt_ports s) !! n = Some p ->
    name p = n /\ ports_by_id_ (rt_ports s) !! index p = Some p /\
    exists st e, rt_state s !! n = Some st /\ m_lookup (router_port (rt_tables s)) (index p) = Some e /\
      mac_string_to_nbo_uint (mac_ st) = Ok (rp_mac e).
Proof.
  intros [Hok Hr He]%reachable_program. split; [apply Hok|]. intros n p Hp. pose proof (po_name _ Hok _ _ Hp) as Hn.
  split; [done|]. split; [by apply (po_id _ Hok); rewrite Hn|]. rewrite <- Hn. by apply (He n).
Qed.

(** ** Packets *)
(** [p] is a port of [s], with identifier [i], MAC address [mac] and entry [e]. *)
Record port_at s (i : Z) (p : Ports) (mac : Z) (e : r_port) : Prop := {
  pa_id : ports_by_id_ (rt_ports s) !! i = Some p;
  pa_mac : exists st, rt_state s !! name p = Some st /\ mac_string_to_nbo_uint (mac_ st) = Ok mac;
  pa_entry : m_lookup (router_port (rt_tables s)) i = Some e;
}.
Lemma port_at_ok s i p mac e : reachable draw xdp s -> port_at s i p mac e ->
  index p = i /\ 0 <= i < 2 ^ 16 /\ rp_mac e = mac /\ 0 <= mac < 2 ^ 48.
Proof.
  intros Hs [Hi (st & Hst & Hmac) He]. apply reachable_program in Hs as [Hok Hr Hen]. apply (po_id _ Hok) in Hi as [Hp Hi].
  destruct (Hen _ _ Hp) as (st' & e' & Hst' & He' & Hmac'). rewrite Hi in He'. assert (e' = e) as -> by congruence. assert (st' = st) as -> by congruence.
  split; [done|]. split; [rewrite <- Hi; by apply (Hr _ _ Hp)|]. split; [congruence|]. by apply mac_string_to_nbo_uint_bounds in Hmac.
Qed.

(** An IP packet for the port's MAC address (or for a group) to be sent on through
    the route [v]. *)
Record to_forward s f (mac : Z) (v : rt_v) : Prop := {
  tf_bytes : Forall is_byte f;
  tf_length : (34 <= length f)%nat;
  tf_dst : rd48 f 0 = mac \/ is_ether_mcast (rd48 f 0) = true;
  tf_type : rd16 f 12 = bswap16 ETH_P_IP;
  tf_route : route_of (rt_tables s) (rd32 f 30) = Some v;
  tf_out : rt_type v <> TYPE_LOCALINTERFACE;
  tf_ttl : 2 <= rd8 f 22;
}.
Definition next_hop (v : rt_v) f : Z := if rt_nexthop v =? 0 then rd32 f 30 else rt_nexthop v.

Lemma handle_rx_forward s f in_port mac v ein eout : to_forward s f mac v -> 0 <= in_port < 2 ^ 16 ->
  m_lookup (router_port (rt_tables s)) in_port = Some ein -> rp_mac ein = mac -> m_lookup (router_port (rt_tables s)) (u16 (rt_port v)) = Some eout ->
  handle_rx xdp f in_port (rt_tables s) =
    (send_packet_to_output_interface xdp f (rt_nexthop v) (u16 (rt_port v)) (rp_ip eout) (rp_mac eout) (rt_tables s), rt_tables s).
Proof.
  intros [Hb Hl Hd Hty Hro Hout Httl] Hi Hin <- Heout. unfold handle_rx, beyond. destruct (Nat.ltb_spec (length f) 14); [lia|].
  assert (u16 in_port = in_port) as -> by by apply Z.mod_small. rewrite Hin.
  assert (negb (rd48 f 0 =? rp_mac ein) && negb (is_ether_mcast (rd48 f 0)) = false) as ->.
  { destruct Hd as [->| ->]; [by rewrite Z.eqb_refl|by rewrite andb_comm]. }
  rewrite Hty, Z.eqb_refl. unfold handle_ip, beyond. destruct (Nat.ltb_spec (length f) (14 + 20)); [lia|]. rewrite Hro.
  destruct (Z.eqb_spec (rt_type v) TYPE_LOCALINTERFACE); [done|]. destruct (Z.eqb_spec (rd8 f 22) 1); [lia|]. by rewrite Heout.
Qed.

(** C33. A packet for a port's MAC address (or a group), with a time to live of at least
    two, whose route leads out of a port and whose next hop has a known hardware address
    leaves through that port: with this address as its destination, the port's as its
    source, one less to live and everything else as it was. If its header has 20 bytes
    and a right checksum, it leaves with a right one: always under TC, and under XDP
    when the sum of its words folds into 16 bits at once; with IP options or two folds
    XDP gets it wrong, see [options_left_out]. *)
Theorem packet_forwarded s f i o p q mac mac' ein eout v entry :
  reachable draw xdp s -> port_at s i p mac ein -> port_at s o q mac' eout -> to_forward s f mac v -> u16 (rt_port v) = o ->
  m_lookup (arp_table (rt_tables s)) (next_hop v f) = Some entry -> 0 <= ae_mac entry < 2 ^ 48 ->
  exists h, receive xdp f i s = (Ok (R_REDIRECT (index q), h), s) /\ forwarded f h (ae_mac entry) mac' /\
    (sum16 f 14 10 mod 65535 = 0 -> (xdp = true -> folds_at_once (sum16 f 14 10 - rd16 f 24 - 1)) -> sum16 h 14 10 mod 65535 = 0).
Proof.
  intros Hs Hp Hq Hf Ho He Hmac. destruct (port_at_ok s i p mac ein Hs Hp) as (_ & Hi & Hmi & _). destruct (port_at_ok s o q mac' eout Hs Hq) as (Hqi & _ & Hmo & Hmr).
  exists (resent xdp f (ae_mac entry) mac'). split.
  - unfold receive. rewrite (handle_rx_forward s f i mac v ein eout Hf Hi (pa_entry _ _ _ _ _ Hp) Hmi) by (rewrite Ho; apply Hq).
    unfold next_hop in He. rewrite (send_known _ _ _ _ _ _ _ _ He), Ho, Hqi, Hmo. f_equal. by destruct s as [? ? ? [] ? ? ? ?].
  - destruct Hf as [Hb Hl _ _ _ _ Httl]. split; [by apply resent_forwarded|]. intros Hz Hx. destruct xdp.
    + apply resent_checksum_xdp; [done|done|done|by apply Hx].
    + by apply resent_checksum_tc.
Qed.

(** ** ARP *)
(** An ARP packet with the operation [op], for the port's MAC address or a group. *)
Record arp_packet f (op mac : Z) : Prop := {
  ap_bytes : Forall is_byte f;
  ap_length : (42 <= length f)%nat;
  ap_dst : rd48 f 0 = mac \/ is_ether_mcast (rd48 f 0) = true;
  ap_type : rd16 f 12 = bswap16 ETH_P_ARP;
  ap_op : rd16 f 20 = bswap16 op;
}.
Lemma handle_rx_arp f i (t : rt_dp) op mac e : arp_packet f op mac -> 0 <= i < 2 ^ 16 -> m_lookup (router_port t) i = Some e -> rp_mac e = mac ->
  handle_rx xdp f i t = handle_arp f i e t.
Proof.
  intros [Hb Hl Hd Hty _] Hi He <-. unfold handle_rx, beyond. destruct (Nat.ltb_spec (length f) 14); [lia|].
  assert (u16 i = i) as -> by by apply Z.mod_small. rewrite He.
  assert (negb (rd48 f 0 =? rp_mac e) && negb (is_ether_mcast (rd48 f 0)) = false) as ->.
  { destruct Hd as [->| ->]; [by rewrite Z.eqb_refl|by rewrite andb_comm]. }
  by rewrite Hty.
Qed.

(** The answer of [mac] at [x] to the ARP request [f]. *)
Record arp_answer f g (mac x : Z) : Prop := {
  aa_length : length g = length f;
  aa_eth : rd48 g 0 = rd48 f 22 /\ rd48 g 6 = mac /\ rd16 g 12 = bswap16 ETH_P_ARP;
  aa_op : rd16 g 20 = bswap16 ARPOP_REPLY;
  aa_sender : rd48 g 22 = mac /\ rd32 g 28 = x;
  aa_target : rd48 g 32 = rd48 f 22 /\ rd32 g 38 = rd32 f 28;
  aa_rest j : (14 <= j < 20 \/ 42 <= j)%nat -> rd8 g j = rd8 f j;
}.
Lemma answer_ok f op mac mac' x : arp_packet f op mac' -> 0 <= mac < 2 ^ 48 -> 0 <= x < 2 ^ 32 ->
  arp_answer f (wr48 (wr48 (wr32 (wr32 (wr48 (wr48 (wr16 f 20 (bswap16 ARPOP_REPLY)) 32 (rd48 f 22)) 22 mac) 28 x) 38 (rd32 f 28)) 0 (rd48 f 22)) 6 mac) mac x.
Proof.
  intros [Hb Hl _ Hty _] Hm Hx. pose proof (rd48_range f 22 Hb). pose proof (rd32_range f 28 Hb).
  assert (0 <= bswap16 ARPOP_REPLY < 2 ^ 16) by apply bswap16_range.
  split.
  - by rewrite !length_wr48, !length_wr32, !length_wr48, length_wr16.
  - split; [|split].
    + rewrite rd48_wr48_ne by lia. apply rd48_wr48_eq; [rewrite !length_wr32, !length_wr48, length_wr16|]; lia.
    + apply rd48_wr48_eq; [rewrite length_wr48, !length_wr32, !length_wr48, length_wr16|]; lia.
    + rewrite !rd16_wr48_ne, !rd16_wr32_ne, !rd16_wr48_ne, rd16_wr16_ne by lia. done.
  - rewrite !rd16_wr48_ne, !rd16_wr32_ne, !rd16_wr48_ne by lia. apply rd16_wr16_eq; lia.
  - split.
    + rewrite !rd48_wr48_ne, !rd48_wr32_ne by lia. apply rd48_wr48_eq; [rewrite length_wr48, length_wr16|]; lia.
    + rewrite !rd32_wr48_ne, rd32_wr32_ne by lia. apply rd32_wr32_eq; [rewrite !length_wr48, length_wr16|]; lia.
  - split.
    + rewrite !rd48_wr48_ne, !rd48_wr32_ne, rd48_wr48_ne by lia. apply rd48_wr48_eq; [rewrite length_wr16|]; lia.
    + rewrite !rd32_wr48_ne by lia. apply rd32_wr32_eq; [rewrite length_wr32, !length_wr48, length_wr16|]; lia.
  - intros j Hj. rewrite !rd8_wr48_ne, !rd8_wr32_ne, !rd8_wr48_ne, rd8_wr16_ne by lia. done.
Qed.
Lemma search_secondary_spec l ip : search_secondary_address l ip = if bool_decide (ip ∈ l) then Some ip else None.
Proof.
  induction l as [|a l IH]; [done|]. cbn [search_secondary_address]. destruct (Z.eqb_spec a ip) as [->|Hn].
  - rewrite bool_decide_true by left. done.
  - rewrite IH. case_bool_decide as Hl; case_bool_decide as Hc; try done.
    + destruct Hc. by right.
    + apply elem_of_cons in Hc as [->|]; done.
Qed.

(** C36. An ARP request for an address in the port's entry is answered on the port it
    came in, with the port's MAC address, and its sender is remembered when there is
    room; one for any other address is dropped and changes nothing. *)
Theorem arp_request_answered s f i p mac e :
  reachable draw xdp s -> port_at s i p mac e -> arp_packet f ARPOP_REQUEST mac ->
  let x := rd32 f 38 in
  (x = rp_ip e \/ x ∈ rp_secondary_ip e ->
    exists g s', receive xdp f i s = (Ok (R_REDIRECT (index p), g), s') /\ arp_answer f g mac x /\
      rt_tables s' = set_arp_table (bpf_update (arp_table (rt_tables s)) (rd32 f 28) (ArpEntry (rd48 f 22) (index p))) (rt_tables s) /\
      (0 < m_free (arp_table (rt_tables s)) -> m_lookup (arp_table (rt_tables s')) (rd32 f 28) = Some (ArpEntry (rd48 f 22) (index p)))) /\
  (x <> rp_ip e -> x ∉ rp_secondary_ip e -> receive xdp f i s = (Ok (R_DROP, f), s)).
Proof.
  intros Hs Hp Hf x. destruct (port_at_ok s i p mac e Hs Hp) as (Hpi & Hi & Hmi & Hmr).
  pose proof (handle_rx_arp f i (rt_tables s) _ mac e Hf Hi (pa_entry _ _ _ _ _ Hp) Hmi) as Hrx. unfold receive. rewrite Hrx. unfold handle_arp, beyond.
  destruct (Nat.ltb_spec (length f) (14 + 28)) as [Hlt|_]; [destruct Hf; lia|]. rewrite (ap_op _ _ _ Hf), Z.eqb_refl. unfold send_arp_reply. fold x.
  rewrite Hmi. split.
  - intros Hx. assert (0 <= x < 2 ^ 32) as Hxr by (destruct Hf; by apply rd32_range).
    assert ((if x =? rp_ip e then Some (rp_ip e) else search_secondary_address (rp_secondary_ip e) x) = Some x) as Hsome.
    { destruct (Z.eqb_spec x (rp_ip e)) as [->|]; [done|]. rewrite search_secondary_spec, bool_decide_true; [done|]. by destruct Hx. }
    destruct (x =? rp_ip e); [injection Hsome as ->|rewrite Hsome]; (eexists _, _; split; [by rewrite Hpi|]; split; [by apply (answer_ok f ARPOP_REQUEST mac mac)|];
      rewrite Hpi; split; [done|]; intros Hfree; cbn [rt_tables set_tables arp_table set_arp_table]; rewrite bpf_update_lookup by (by left); by rewrite decide_True).
  - intros Hn Hns. destruct (Z.eqb_spec x (rp_ip e)); [done|]. rewrite search_secondary_spec, bool_decide_false by done.
    by destruct s as [? ? ? [] ? ? ? ?].
Qed.

(** C34. A packet whose next hop has no known hardware address is kept and an ARP
    request for the next hop leaves the route's port, and when the answer comes back the
    packet leaves that port for the address that answered, the program knows the
    address, and the mutex is free again: when no other packet waits for that next hop
    (else see [one_packet_per_answer]), the mutex is free at first, the ARP table has
    room, and libtins parses the packet, the answer and the port's MAC address (else see
    [bad_packet_stops_resolution]). *)
Theorem arp_resolution s f g i o p q mac mac' ein eout v m pf pg :
  reachable draw xdp s -> port_at s i p mac ein -> port_at s o q mac' eout -> to_forward s f mac v -> u16 (rt_port v) = o ->
  0 <= rt_nexthop v < 2 ^ 32 -> let nh := next_hop v f in
  m_lookup (arp_table (rt_tables s)) nh = None -> 0 < m_free (arp_table (rt_tables s)) -> mu s = false -> arp_request_map s !! nh = None ->
  HWAddress (mac_ (state_of (name q) s)) = Ok m -> EthernetII f = Ok pf -> EthernetII g = Ok pg ->
  arp_packet g ARPOP_REPLY mac' -> rd32 g 28 = nh ->
  exists mdf mdg s2 s3 s4,
    receive xdp f i s = (Ok (R_CONTROLLER SLOWPATH_ARP_LOOKUP_MISS mdf, f), s) /\
    call_back_proxy i SLOWPATH_ARP_LOOKUP_MISS mdf f s = (Ok tt, s2) /\
    rt_sent s2 = rt_sent s ++ [(index q, make_arp_request nh (u32 (rp_ip eout)) m)] /\
    receive xdp g o s2 = (Ok (R_CONTROLLER SLOWPATH_ARP_REPLY mdg, g), s3) /\
    call_back_proxy o SLOWPATH_ARP_REPLY mdg g s3 = (Ok tt, s4) /\
    rt_sent s4 = rt_sent s2 ++ [(index q, set_dst_addr (eth_src pg) (set_src_addr (eth_dst pg) pf))] /\
    m_lookup (arp_table (rt_tables s4)) nh = Some (ArpEntry (rd48 g 22) (index q)) /\ mu s4 = false.
Proof.
  intros Hs Hp Hq Hf Ho Hnh nh Hmiss Hfree Hmu Hnone Hhw Ef Eg Hg Enh.
  destruct (port_at_ok s i p mac ein Hs Hp) as (Hpi & Hi & Hmi & _). destruct (port_at_ok s o q mac' eout Hs Hq) as (Hqi & Hoi & Hmo & Hmr).
  assert (u32 nh = nh) as Eu.
  { apply Z.mod_small. subst nh. unfold next_hop. destruct (_ =? 0); [|done]. destruct Hf. by apply rd32_range. }
  assert (to_int o = o) as Eo by (unfold to_int; rewrite Z.mod_small by lia; destruct (Z.ltb_spec o (2 ^ 31)); lia).
  exists [nh; o; rp_ip eout], [nh].
  set (s2 := set_sent (rt_sent s ++ [(index q, make_arp_request nh (u32 (rp_ip eout)) m)])
    (set_mu false (set_requests (<[nh := enQueue f new_CircularBuffer]> (arp_request_map s)) (set_mu true s)))).
  set (s3 := set_tables (set_arp_table (bpf_update (arp_table (rt_tables s)) nh (ArpEntry (rd48 g 22) o)) (rt_tables s)) s2).
  set (s4 := set_mu false (set_sent (rt_sent s2 ++ [(index q, set_dst_addr (eth_src pg) (set_src_addr (eth_dst pg) pf))]) (set_requests (delete nh (arp_request_map s3)) (set_mu true s3)))).
  exists s2, s3, s4. split; [|split; [|split; [done|split; [|split; [|split; [done|split; [|done]]]]]]].
  - unfold receive. rewrite (handle_rx_forward s f i mac v ein eout Hf Hi (pa_entry _ _ _ _ _ Hp) Hmi) by (rewrite Ho; apply Hq).
    unfold send_packet_to_output_interface. fold (next_hop v f). fold nh. rewrite Hmiss, Ho. f_equal. by destruct s as [? ? ? [] ? ? ? ?].
  - unfold call_back_proxy, handle_packet_in, try_catch. rewrite (bind_run get _ s s s eq_refl), (pa_id _ _ _ _ _ Hp).
    change (packet_in p SLOWPATH_ARP_LOOKUP_MISS [nh; o; rp_ip eout] f s) with (generate_arp_request p [nh; o; rp_ip eout] f s).
    unfold generate_arp_request. rewrite (bind_run get _ s s s eq_refl). change (metadata [nh; o; rp_ip eout] 0) with nh.
    change (metadata [nh; o; rp_ip eout] 1) with o. change (metadata [nh; o; rp_ip eout] 2) with (rp_ip eout).
    rewrite Eo, Eu. unfold get_port_by_id. rewrite (pa_id _ _ _ _ _ Hq). unfold bind, lift, lock_mu, get, modify, unlock_mu.
    unfold bind. rewrite Hmu. cbn. change (p_name q) with (name q). by rewrite Hhw, Hnone.
  - unfold receive. rewrite (handle_rx_arp g o _ _ mac' eout Hg Hoi) by (try apply Hq; done). unfold handle_arp, beyond.
    destruct (Nat.ltb_spec (length g) (14 + 28)) as [Hlt|_]; [destruct Hg; lia|]. rewrite (ap_op _ _ _ Hg).
    change (bswap16 ARPOP_REPLY =? bswap16 ARPOP_REQUEST) with false. rewrite Z.eqb_refl. unfold notify_arp_reply_to_slowpath. by rewrite Enh.
  - unfold call_back_proxy, handle_packet_in, try_catch. rewrite (bind_run get _ s3 s3 s3 eq_refl). cbn [rt_ports s3 s2 set_tables set_sent set_mu set_requests].
    rewrite (pa_id _ _ _ _ _ Hq). change (packet_in q SLOWPATH_ARP_REPLY [nh] g s3) with (generate_arp_reply q [nh] g s3).
    unfold generate_arp_reply. change (metadata [nh] 0) with nh. rewrite Eu, Eg. unfold bind, lift, lock_mu, get, modify, unlock_mu. unfold bind. cbn.
    rewrite lookup_insert_eq. cbn.
    change (isEmpty (enQueue f new_CircularBuffer)) with false. change (deQueue (enQueue f new_CircularBuffer)) with (Ok (f, MkBuffer [f; []; []; []; []] (-1) (-1))).
    cbv beta iota. rewrite Ef. done.
  - cbn. rewrite bpf_update_lookup by (by left). rewrite decide_True by done. by rewrite <- Hqi.
Qed.
End properties.

(** * A concrete router: two ports and a default route *)
(** Packets as far as the router looks at them. *)
Record packet := Packet { pk_dst : Z; pk_src : Z; pk_ip : option (Z * Z * list Z); pk_icmp : option Z; pk_bytes : list Z }.
#[export] Instance packet_eq_dec : EqDecision packet.
Proof. solve_decision. Defined.
Definition malformed_packet : exn := RuntimeError "Malformed packet".
Definition parse (f : list Z) : res packet :=
  if (length f <? 14)%nat then Throw malformed_packet
  else if rd16 f 12 =? bswap16 ETH_P_IP then
    if (length f <? 34)%nat || (Z.land (rd8 f 14) 15 <? 5) then Throw malformed_packet
    else Ok (Packet (rd48 f 0) (rd48 f 6) (Some (rd32 f 30, rd32 f 26, drop 34 f)) (if rd8 f 23 =? 1 then Some (rd8 f 34) else None) f)
  else Ok (Packet (rd48 f 0) (rd48 f 6) None None f).
#[export] Instance demo_tins : Tins := {|
  eth_t := packet; ip_t := Z * Z * list Z; icmp_t := Z * option (Z * Z * list Z);
  EthernetII := parse; HWAddress := mac_string_to_nbo_uint;
  eth_src := pk_src; eth_dst := pk_dst;
  set_src_addr a p := Packet (pk_dst p) a (pk_ip p) (pk_icmp p) (pk_bytes p);
  set_dst_addr a p := Packet a (pk_src p) (pk_ip p) (pk_icmp p) (pk_bytes p);
  find_ip p := match pk_ip p with Some i => Ok i | None => Throw (RuntimeError "PDU not found") end;
  find_icmp p := match pk_icmp p with Some i => Ok (i, None) | None => Throw (RuntimeError "PDU not found") end;
  ip_src_addr i := i.1.2; inner_serialize i := Some i.2; with_raw l i := (i.1, l);
  new_ip d s := (d, s, []); set_ttl _ i := i;
  new_icmp t := (t, None); icmp_type := fst; set_type t i := (t, i.2); icmp_with_ip i c := (c.1, Some i);
  new_eth d s := Packet d s None None []; slash_ip p i := Packet (pk_dst p) (pk_src p) (Some i) (pk_icmp p) (pk_bytes p);
  slash_icmp p i := Packet (pk_dst p) (pk_src p) (pk_ip p) (Some i.1) (pk_bytes p);
  make_arp_request t s m := Packet (2 ^ 48 - 1) m (Some (t, s, [])) None [];
|}.
Definition demo_peer (n p : string) : M unit unit := ret tt.
Lemma demo_peer_defined n p e : (demo_peer n p e).1 <> Undefined.
Proof. done. Qed.
Lemma demo_peer_down n e : exists e', demo_peer n "" e = (Ok tt, e').
Proof. by exists e. Qed.
#[export] Instance demo_daemon : DaemonCube (dcube (E := unit)) :=
  daemon_cube demo_peer (fun _ _ => ret tt) (fun _ => ret tt) demo_peer_defined demo_peer_down.
(** No device stands behind a port. *)
#[export] Program Instance demo_device : PeerDevice (dcube (E := unit)) := {| device_answer _ _ _ _ := None |}.
Next Obligation. done. Qed.
Definition demo_router : Type := Router (D := dcube (E := unit)).
Definition demo_draw (n : nat) : Z := 0x112233445566778 + Z.of_nat n.
Definition plain : d_conf (D := dcube (E := unit)) := PortConf None [].
Lemma plain_port_accepted : accepted plain.
Proof. intros n d. by eexists. Qed.

Definition port_a : PortsJson := PortsJ "a" plain (Some "02:00:00:00:00:0a"%string) (Some "10.0.1.254/24"%string) [].
Definition port_b : PortsJson := PortsJ "b" plain (Some "02:00:00:00:00:0b"%string) (Some "10.0.2.254/24"%string) ["10.0.3.254/24"%string].
Definition default_route : RouteJson := RouteJ "0.0.0.0/0" "10.0.2.1" None (Some 1).
Definition after (e : rt_event) (s : demo_router) : demo_router := (run_event demo_draw true e s).2.
Definition play (evs : list rt_event) (s : demo_router) : demo_router := fold_left (fun s e => after e s) evs s.
Definition r0 : demo_router := empty_router (new_cube tt).
Definition r1 : demo_router := after (Request (AddRoute default_route)) (after (Request (AddPort port_b)) (after (Request (AddPort port_a)) r0)).
Definition gateway : ArpTableJson := ArpTableJ "10.0.2.1" (Some "02:00:00:00:00:cc"%string) (Some "b"%string).
Definition r2 : demo_router := after (Request (AddArp gateway)) r1.

(** A packet from 10.0.1.7 to 8.8.8.8, an ARP request for 10.0.1.254, the gateway's
    answer. *)
Definition mac_a : Z := 0x0a0000000002.
Definition mac_b : Z := 0x0b0000000002.
Definition mac_gateway : Z := 0xcc0000000002.
Definition packet8 : list Z :=
  [2; 0; 0; 0; 0; 10; 2; 0; 0; 0; 0; 1; 8; 0; 69; 0; 0; 28; 0; 0; 0; 0; 64; 17; 95; 187; 10; 0; 1; 7; 8; 8; 8; 8; 0; 0; 0; 0; 0; 0; 0; 0].
Definition arp_request_of (ip : list Z) : list Z :=
  [255; 255; 255; 255; 255; 255; 2; 0; 0; 0; 0; 1; 8; 6; 0; 1; 8; 0; 6; 4; 0; 1; 2; 0; 0; 0; 0; 1; 10; 0; 1; 7; 0; 0; 0; 0; 0; 0] ++ ip.
Definition gateway_answer : list Z :=
  [2; 0; 0; 0; 0; 11; 2; 0; 0; 0; 0; 204; 8; 6; 0; 1; 8; 0; 6; 4; 0; 2; 2; 0; 0; 0; 0; 204; 10; 0; 2; 1; 2; 0; 0; 0; 0; 11; 10; 0; 2; 254].

Lemma reach_after e s : reachable demo_draw true s -> allowed e -> (run_event demo_draw true e s).1 <> Undefined -> reachable demo_draw true (after e s).
Proof. apply reach_event. Qed.
Lemma r0_reachable : reachable demo_draw true r0.
Proof. apply (reach_new demo_draw true (new_cube tt) [] [] []); [apply new_cube_ids|reflexivity|constructor|reflexivity]. Qed.
Lemma r1_reachable : reachable demo_draw true r1.
Proof.
  assert (Forall accepted [plain]) as Hp by (constructor; [exact plain_port_accepted|constructor]).
  unfold r1. apply reach_after.
  - apply reach_after.
    + apply reach_after; [exact r0_reachable|exact Hp|]. vm_compute. discriminate.
    + exact Hp.
    + vm_compute. discriminate.
  - constructor.
  - vm_compute. discriminate.
Qed.
Lemma r2_reachable : reachable demo_draw true r2.
Proof. unfold r2. apply reach_after; [exact r1_reachable|constructor|]. vm_compute. discriminate. Qed.
Definition entry_a : r_port := RPort 4261478410 16777215 [0; 0; 0; 0; 0] [0; 0; 0; 0; 0] mac_a.
Definition entry_b : r_port := RPort 4261543946 16777215 [4261609482; 0; 0; 0; 0] [16777215; 0; 0; 0; 0] mac_b.
Definition way_out : rt_v := RtV 1 16908298 TYPE_NOLOCALINTERFACE.
Lemma port_at_ab : port_at r1 0 (MkPorts "a" 0) mac_a entry_a /\ port_at r1 1 (MkPorts "b" 1) mac_b entry_b /\
  port_at r2 0 (MkPorts "a" 0) mac_a entry_a /\ port_at r2 1 (MkPorts "b" 1) mac_b entry_b.
Proof.
  split; [|split; [|split]]; (split; [vm_compute; reflexivity|eexists; split; [vm_compute; reflexivity|vm_compute; reflexivity]|vm_compute; reflexivity]).
Qed.
Lemma bytes_of l : forallb (fun b => (0 <=? b) && (b <? 256)) l = true -> Forall is_byte l.
Proof. intros Hl. apply list.Forall_forall. intros b Hb%list_elem_of_In. rewrite forallb_forall in Hl. specialize (Hl b Hb). unfold is_byte. lia. Qed.
Lemma packet8_forward : to_forward r1 packet8 mac_a way_out /\ to_forward r2 packet8 mac_a way_out.
Proof. split; (split; [by apply bytes_of|simpl; lia|by left|done|by vm_compute|done|by vm_compute]). Qed.

Lemma buffer_is_queue_witness : run_buffer (replicate 6 (Enqueue [1]) ++ [Dequeue; Enqueue [2]]) new_CircularBuffer = Ok [[1]].
Proof. apply (buffer_is_queue (replicate 6 (Enqueue [1]) ++ [Dequeue; Enqueue [2]])). vm_compute. discriminate. Defined.
Lemma ports_in_program_witness :
  exists st e, rt_state r2 !! "b"%string = Some st /\ m_lookup (router_port (rt_tables r2)) 1 = Some e /\ mac_string_to_nbo_uint (mac_ st) = Ok (rp_mac e).
Proof. apply (proj2 (ports_in_program demo_draw true r2 r2_reachable) "b"%string (MkPorts "b" 1)). vm_compute. reflexivity. Defined.
Lemma packet_forwarded_witness : exists h, receive true packet8 0 r2 = (Ok (R_REDIRECT 1, h), r2) /\ forwarded packet8 h mac_gateway mac_b /\ sum16 h 14 10 mod 65535 = 0.
Proof.
  destruct (packet_forwarded demo_draw true r2 packet8 0 1 (MkPorts "a" 0) (MkPorts "b" 1) mac_a mac_b entry_a entry_b way_out (ArpEntry mac_gateway 1)
    r2_reachable (proj1 (proj2 (proj2 port_at_ab))) (proj2 (proj2 (proj2 port_at_ab))) (proj2 packet8_forward) eq_refl) as (h & E & Hf & Hs).
  - vm_compute. reflexivity.
  - vm_compute. split; [discriminate|reflexivity].
  - exists h. split; [exact E|]. split; [exact Hf|]. apply Hs; [vm_compute; reflexivity|]. intros _. vm_compute. reflexivity.
Defined.
Lemma arp_request_answered_witness : exists g s', receive true (arp_request_of [10; 0; 1; 254]) 0 r1 = (Ok (R_REDIRECT 0, g), s') /\
  arp_answer (arp_request_of [10; 0; 1; 254]) g mac_a 4261478410.
Proof.
  assert (arp_packet (arp_request_of [10; 0; 1; 254]) ARPOP_REQUEST mac_a) as Hp by (split; [by apply bytes_of|simpl; lia|by right|done|done]).
  destruct (arp_request_answered demo_draw true r1 (arp_request_of [10; 0; 1; 254]) 0 (MkPorts "a" 0) mac_a entry_a r1_reachable (proj1 port_at_ab) Hp) as [Ha _].
  destruct Ha as (g & s' & E & Hg & _); [left; vm_compute; reflexivity|]. exists g, s'. split; [exact E|exact Hg].
Defined.
Lemma arp_resolution_witness : exists mdf mdg s2 s3 s4,
    receive true packet8 0 r1 = (Ok (R_CONTROLLER SLOWPATH_ARP_LOOKUP_MISS mdf, packet8), r1) /\
    call_back_proxy 0 SLOWPATH_ARP_LOOKUP_MISS mdf packet8 r1 = (Ok tt, s2) /\
    receive true gateway_answer 1 s2 = (Ok (R_CONTROLLER SLOWPATH_ARP_REPLY mdg, gateway_answer), s3) /\
    call_back_proxy 1 SLOWPATH_ARP_REPLY mdg gateway_answer s3 = (Ok tt, s4) /\
    m_lookup (arp_table (rt_tables s4)) 16908298 = Some (ArpEntry mac_gateway 1).
Proof.
  assert (arp_packet gateway_answer ARPOP_REPLY mac_b) as Hg by (split; [by apply bytes_of|simpl; lia|by left|done|done]).
  destruct (arp_resolution demo_draw true r1 packet8 gateway_answer 0 1 (MkPorts "a" 0) (MkPorts "b" 1) mac_a mac_b entry_a entry_b way_out mac_b
    (Packet mac_a 0x010000000002 (Some (134744072, 117506058, [0; 0; 0; 0; 0; 0; 0; 0])) None packet8) (Packet mac_b mac_gateway None None gateway_answer)
    r1_reachable (proj1 port_at_ab) (proj1 (proj2 port_at_ab)) (proj1 packet8_forward) eq_refl) as (mdf & mdg & s2 & s3 & s4 & E1 & E2 & _ & E3 & E4 & _ & E5 & _).
  - vm_compute. split; [discriminate|reflexivity].
  - vm_compute. reflexivity.
  - vm_compute. reflexivity.
  - vm_compute. reflexivity.
  - vm_compute. reflexivity.
  - vm_compute. reflexivity.
  - vm_compute. reflexivity.
  - vm_compute. reflexivity.
  - exact Hg.
  - vm_compute. reflexivity.
  - exists mdf, mdg, s2, s3, s4. split; [exact E1|]. split; [exact E2|]. split; [exact E3|]. split; [exact E4|exact E5].
Defined.

(** * What the router does otherwise than it means to *)
Definition route_to (s : demo_router) (ip : string) : option rt_v :=
  match ip_string_to_nbo_uint ip with Ok x => route_of (rt_tables s) x | _ => None end.

(** A route that is deleted stays in the program: the next hop in the table is compared
    with the network's address. *)
Example deleted_route_stays :
  let s := after (Request (DelRoute "0.0.0.0/0" "10.0.2.1")) r1 in
  (run_event demo_draw true (Request (DelRoute "0.0.0.0/0" "10.0.2.1")) r1).1 = Ok tt /\
  routes_ s !! ("0.0.0.0/0", "10.0.2.1")%string = None /\ route_to s "8.8.8.8" = Some way_out.
Proof. vm_compute. split; [reflexivity|split; reflexivity]. Qed.
(** So does the network of a port that is deleted, with the port's identifier, which a
    port of another network gets next. *)
Example deleted_port_stays :
  let s := after (Request (DelPort "b")) r1 in
  let s' := after (Request (AddPort (PortsJ "c" plain (Some "02:00:00:00:00:0c"%string) (Some "10.0.9.254/24"%string) []))) s in
  (run_event demo_draw true (Request (DelPort "b")) r1).1 = Ok tt /\ route_to s "10.0.2.7" = Some (RtV 1 0 TYPE_NOLOCALINTERFACE) /\
  (exists p, ports_by_id_ (rt_ports s') !! 1 = Some p /\ name p = "c"%string) /\ route_to s' "10.0.2.7" = Some (RtV 1 0 TYPE_NOLOCALINTERFACE).
Proof. split; [vm_compute; reflexivity|]. split; [vm_compute; reflexivity|]. split; [eexists; split; vm_compute; reflexivity|vm_compute; reflexivity]. Qed.
(** A route that costs more replaces the next hop of the one that costs less, but not
    its port. *)
Example worse_route_wins :
  route_to (after (Request (AddRoute (RouteJ "0.0.0.0/0" "10.0.1.1" None (Some 10)))) r1) "8.8.8.8" = Some (RtV 1 16842762 TYPE_NOLOCALINTERFACE).
Proof. vm_compute. reflexivity. Qed.
(** The port of a next hop is that of the first network that has it, in the order of
    their texts, not of the longest: 10.0.0.0/8 comes before 10.0.2.0/24. *)
Example first_network_taken :
  let s := after (Request (AddRoute (RouteJ "9.0.0.0/8" "10.0.2.1" None (Some 1))))
    (after (Request (AddPort (PortsJ "c" plain (Some "02:00:00:00:00:0c"%string) (Some "10.9.9.254/8"%string) []))) r1) in
  route_to s "9.9.9.9" = Some (RtV 2 16908298 TYPE_NOLOCALINTERFACE) /\ route_to s "10.0.2.1" = Some (RtV 1 0 TYPE_NOLOCALINTERFACE).
Proof. vm_compute. split; reflexivity. Qed.
(** All routes can be deleted only when no port has a network. *)
Example delete_all_routes_refused :
  (run_event demo_draw true (Request DelRoutes) r1).1 = Throw (RuntimeError "Users can not delete a local route").
Proof. vm_compute. reflexivity. Qed.
(** A sixth secondary address is written outside of the entry. *)
Example sixth_address_undefined :
  (run_event demo_draw true (Request (AddPort (PortsJ "c" plain (Some "02:00:00:00:00:0c"%string) (Some "10.9.9.254/24"%string)
    ["10.1.1.1/24"; "10.1.2.1/24"; "10.1.3.1/24"; "10.1.4.1/24"; "10.1.5.1/24"; "10.1.6.1/24"]%string))) r1).1 = Undefined.
Proof. vm_compute. reflexivity. Qed.
(** A port that has only a secondary address cannot be deleted: its missing address is
    taken apart. *)
Example only_secondary_undefined :
  let s := after (Request (AddPort (PortsJ "c" plain (Some "02:00:00:00:00:0c"%string) None ["10.1.1.1/24"%string]))) r1 in
  (run_event demo_draw true (Request (DelPort "c")) s).1 = Undefined.
Proof. vm_compute. reflexivity. Qed.
(** An address to which a secondary slot is not set is 0.0.0.0, and requests for it are
    answered. *)
Example zero_address_answered : exists g, (receive true (arp_request_of [0; 0; 0; 0]) 0 r1).1 = Ok (R_REDIRECT 0, g).
Proof. eexists. vm_compute. reflexivity. Qed.

(** The steps of an ARP resolution. *)
Definition waits (f : list Z) : rt_event := Slowpath 0 SLOWPATH_ARP_LOOKUP_MISS [16908298; 1; 4261543946] f.
Definition resolved : rt_event := Slowpath 1 SLOWPATH_ARP_REPLY [16908298] gateway_answer.
(** One packet leaves for an answer, the others that wait stay. *)
Example one_packet_per_answer :
  let s := play [waits packet8; waits packet8; Receive gateway_answer 1; resolved] r1 in
  length (rt_sent s) = 3%nat /\ match arp_request_map s !! 16908298 with Some q => isEmpty q | None => true end = false.
Proof. vm_compute. split; reflexivity. Qed.
(** A packet whose header is too short is sent on by the program but refused by the
    parser, which leaves the mutex held: nothing is resolved any more. *)
Definition short_header : list Z := <[14%nat := 68]> packet8.
Example bad_packet_stops_resolution :
  (receive true short_header 0 r1).1 = Ok (R_CONTROLLER SLOWPATH_ARP_LOOKUP_MISS [16908298; 1; 4261543946], short_header) /\
  let s := play [waits short_header; Receive gateway_answer 1; resolved] r1 in
  mu s = true /\ (run_event demo_draw true (waits packet8) s).1 = Undefined.
Proof. vm_compute. split; [reflexivity|]. split; reflexivity. Qed.
(** A packet that has no time to live left gets 255. *)
Definition expired : list Z :=
  [2; 0; 0; 0; 0; 10; 2; 0; 0; 0; 0; 1; 8; 0; 69; 0; 0; 28; 0; 0; 0; 0; 0; 17; 159; 187; 10; 0; 1; 7; 8; 8; 8; 8; 0; 0; 0; 0; 0; 0; 0; 0].
Example expired_packet_revived : exists h, (receive true expired 0 r2).1 = Ok (R_REDIRECT 1, h) /\ rd8 h 22 = 255.
Proof. eexists. split; [vm_compute; reflexivity|]. vm_compute. reflexivity. Qed.
(** In XDP the checksum is that of the first twenty bytes of the header: with options,
    it is wrong. *)
Definition with_options : list Z :=
  [2; 0; 0; 0; 0; 10; 2; 0; 0; 0; 0; 1; 8; 0; 70; 0; 0; 32; 0; 0; 0; 0; 64; 17; 92; 181; 10; 0; 1; 7; 8; 8; 8; 8; 1; 1; 1; 1; 0; 0; 0; 0; 0; 0; 0; 0].
Example options_left_out : exists h, (receive true with_options 0 r2).1 = Ok (R_REDIRECT 1, h) /\
  sum16 with_options 14 12 mod 65535 = 0 /\ sum16 h 14 12 mod 65535 <> 0.
Proof. eexists. split; [vm_compute; reflexivity|]. split; [vm_compute; reflexivity|]. vm_compute. discriminate. Qed.
