(* ===== verification/LbDatapath.v ===== *)
(** pcn-loadbalancer-rp, the datapath: Lbrp_dp.c.  Clients are behind frontend ports,
    servers behind the backend port; a packet to a virtual address is given a server,
    and an answer the virtual address.  Addresses and ports are as they are in the
    packet, the little-endian reading of big-endian fields.  Then what a translated
    packet holds, with which checksums. *)
From Stdlib Require Import ZArith Lia Ascii String.
From stdpp Require Import base gmap list strings numbers.
From S2P Require Import Prelude.
From S2P Require Import Bpf.
From S2P Require Import NetUtils.
From S2P Require Import Frame.
From S2P Require Import Csum.
From S2P Require Import Tables.
#[local] Open Scope Z_scope.

Definition MAX_SERVICES : Z := 1024.
Definition MAX_FRONTENDS : Z := 1024.
Definition ETH_P_IP : Z := 0x0800.
Definition ETH_P_ARP : Z := 0x0806.
Definition ICMP_ECHOREPLY : Z := 0.
Definition ICMP_ECHO : Z := 8.
Definition ARPOP_REQUEST : Z := 1.
Definition ARPOP_REPLY : Z := 2.
Definition IP_CSUM_OFFSET : Z := 14 + 10.
Definition TCP_CSUM_OFFSET : Z := 14 + 20 + 16.
Definition UDP_CSUM_OFFSET : Z := 14 + 20 + 6.
Definition ICMP_CSUM_OFFSET : Z := 14 + 20 + 2.
Definition IS_PSEUDO : Z := 0x10.
Definition REASON_ARP_REPLY : Z := 0.
Definition REASON_FLOODING : Z := 1.
Definition FROM_FRONTEND : Z := 0.
Definition FROM_BACKEND : Z := 1.

(** ** The tables *)
Record sessions := Sessions { ip_src : Z; ip_dst : Z; port_src : Z; port_dst : Z; s_proto : Z }.
Record vip := Vip { v_ip : Z; v_port : Z; v_proto : Z; v_index : Z }.
Record backend := Backend { b_ip : Z; b_port : Z; b_proto : Z }.
Record src_ip_r_value := SrcIpR { sense : Z; r_net : Z; r_mask : Z }.
#[export] Instance vip_eq_dec : EqDecision vip.
Proof. solve_decision. Defined.
#[export] Instance backend_eq_dec : EqDecision backend.
Proof. solve_decision. Defined.
#[export] Program Instance vip_countable : Countable vip :=
  inj_countable' (fun k => (v_ip k, v_port k, v_proto k, v_index k)) (fun x => let '(a, b, c, d) := x in Vip a b c d) _.
Next Obligation. by intros []. Qed.
#[export] Program Instance backend_countable : Countable backend :=
  inj_countable' (fun k => (b_ip k, b_port k, b_proto k)) (fun x => let '(a, b, c) := x in Backend a b c) _.
Next Obligation. by intros []. Qed.

Class LbTables := {
  servicesT : Type; sessionT : Type; rewriteT : Type; reverseT : Type; frontendT : Type;
  #[global] services_ops :: BpfMap vip backend servicesT;
  #[global] session_ops :: LruHash Z vip sessionT;
  #[global] rewrite_ops :: BpfTrie src_ip_r_value rewriteT;
  #[global] reverse_ops :: BpfMap backend vip reverseT;
  #[global] frontend_ops :: BpfMap Z Z frontendT;
}.
#[export] Instance concrete_lb_tables : LbTables :=
  {| servicesT := Z * gmap vip backend; sessionT := gmap Z vip; rewriteT := list_trie src_ip_r_value;
     reverseT := Z * gmap backend vip; frontendT := Z * gmap Z Z |}.

(** The kernel's jhash of the 14 bytes of a session, with JHASH_INITVAL. *)
Class JHash := { jhash : sessions -> Z; jhash_range s : 0 <= jhash s < 2 ^ 32 }.

(** RX_DROP, pcn_pkt_redirect to a port, and pcn_pkt_controller, whose code the
    program returns or replaces by RX_DROP. *)
Inductive lb_action := L_DROP | L_REDIRECT (port : Z) | L_CONTROLLER (reason : Z) | L_CONTROLLER_DROP (reason : Z).
#[export] Instance lb_action_eq_dec : EqDecision lb_action.
Proof. solve_decision. Defined.

Section datapath.
Context `{LbTables} `{JHash}.

(** [defines] are the macros that the loaded program was compiled with. *)
Record lb_dp := LbDp {
  services : servicesT;
  hash_session : sessionT;
  src_ip_rewrite : rewriteT;
  backend_to_service : reverseT;
  ip_to_frontend_port : frontendT;
  defines : gmap string Z;
}.
Definition set_services (t : servicesT) (s : lb_dp) : lb_dp :=
  LbDp t (hash_session s) (src_ip_rewrite s) (backend_to_service s) (ip_to_frontend_port s) (defines s).
Definition set_hash_session (t : sessionT) (s : lb_dp) : lb_dp :=
  LbDp (services s) t (src_ip_rewrite s) (backend_to_service s) (ip_to_frontend_port s) (defines s).
Definition set_src_ip_rewrite (t : rewriteT) (s : lb_dp) : lb_dp :=
  LbDp (services s) (hash_session s) t (backend_to_service s) (ip_to_frontend_port s) (defines s).
Definition set_backend_to_service (t : reverseT) (s : lb_dp) : lb_dp :=
  LbDp (services s) (hash_session s) (src_ip_rewrite s) t (ip_to_frontend_port s) (defines s).
Definition set_ip_to_frontend_port (t : frontendT) (s : lb_dp) : lb_dp :=
  LbDp (services s) (hash_session s) (src_ip_rewrite s) (backend_to_service s) t (defines s).
Definition set_defines (d : gmap string Z) (s : lb_dp) : lb_dp :=
  LbDp (services s) (hash_session s) (src_ip_rewrite s) (backend_to_service s) (ip_to_frontend_port s) d.

Definition SINGLE_PORT_MODE (s : lb_dp) : Z := default 0 (defines s !! "SINGLE_PORT_MODE"%string).
Definition BACKEND_PORT (s : lb_dp) : Z := default 0 (defines s !! "BACKEND_PORT"%string).
Definition FRONTEND_PORT (s : lb_dp) : Z := default 1 (defines s !! "FRONTEND_PORT"%string).

(** The lookup with a whole address. *)
Definition rewrite_of (s : lb_dp) (ip : Z) : option src_ip_r_value :=
  t_lookup (src_ip_rewrite s) 32 [byte_of ip 0; byte_of ip 1; byte_of ip 2; byte_of ip 3].
(** [x &= bpf_htonl(v->mask); x |= bpf_htonl(v->net);] *)
Definition rewritten (v : src_ip_r_value) (x : Z) : Z := Z.lor (Z.land x (bswap32 (r_mask v))) (bswap32 (r_net v)).

(** The server of a session, and the session's hash for the way back. *)
Definition get_bck_ip (key : sessions) (pool_size : Z) (s : lb_dp) : option backend * lb_dp :=
  if pool_size =? 0 then (None, s)
  else
    let id := jhash key mod pool_size + 1 in
    match m_lookup (services s) (Vip (ip_dst key) (port_dst key) (s_proto key) (u16 id)) with
    | None => (None, s)
    | Some bck_value =>
        match rewrite_of s (ip_dst key) with
        | Some _ => (Some bck_value, s)
        | None =>
            let port := if s_proto key =? bswap16 IPPROTO_ICMP then port_dst key else b_port bck_value in
            let check := jhash (Sessions (ip_src key) (b_ip bck_value) (port_src key) port (s_proto key)) in
            (Some bck_value, set_hash_session (lru_update (hash_session s) check (Vip (ip_dst key) (port_dst key) (s_proto key) 0)) s)
        end
    end.

(** The checksums; the codes that the updates return are not looked at. *)
Definition checksum (frame : list Z) (old_port new_port old_dip new_dip old_sip new_sip flag : Z) : list Z :=
  let frame := (pcn_l3_csum_replace frame IP_CSUM_OFFSET old_dip new_dip 4).2 in
  let frame := (pcn_l4_csum_replace frame flag old_port new_port 2).2 in
  let frame := (pcn_l4_csum_replace frame flag old_dip new_dip (Z.lor 4 IS_PSEUDO)).2 in
  if negb (new_sip =? 0) then
    let frame := (pcn_l3_csum_replace frame IP_CSUM_OFFSET old_sip new_sip 4).2 in
    (pcn_l4_csum_replace frame flag old_sip new_sip (Z.lor 4 IS_PSEUDO)).2
  else frame.

Definition send_to_frontend (s : lb_dp) (ip_daddr : Z) : lb_action :=
  if negb (SINGLE_PORT_MODE s =? 0) then L_REDIRECT (FRONTEND_PORT s)
  else match m_lookup (ip_to_frontend_port s) ip_daddr with None => L_DROP | Some fe_port => L_REDIRECT fe_port end.

(** ** Packets from a frontend port: [off] is the offset of the checksum, which tells
    the protocol; the ports are where a header without options puts them. *)
Definition from_frontend (frame : list Z) (source dest ip_proto l4csum_offset : Z) (s : lb_dp) : lb_action * list Z * lb_dp :=
  let old_ip := rd32 frame 30 in
  let old_sip := rd32 frame 26 in
  match m_lookup (services s) (Vip old_ip dest ip_proto 0) with
  | None => (L_REDIRECT (BACKEND_PORT s), frame, s)
  | Some backend_value =>
      let '(bck, s) := get_bck_ip (Sessions old_sip old_ip source dest ip_proto) (b_port backend_value) s in
      match bck with
      | None => (L_DROP, frame, s)
      | Some bck_value =>
          let frame := wr32 frame 30 (b_ip bck_value) in
          let '(frame, new_sip) :=
            match rewrite_of s old_sip with
            | Some v => if sense v =? FROM_FRONTEND then (wr32 frame 26 (rewritten v old_sip), rewritten v old_sip) else (frame, 0)
            | None => (frame, 0)
            end in
          let frame :=
            if (l4csum_offset =? TCP_CSUM_OFFSET) || (l4csum_offset =? UDP_CSUM_OFFSET) then
              checksum (wr16 frame 36 (b_port bck_value)) dest (b_port bck_value) old_ip (b_ip bck_value) old_sip new_sip l4csum_offset
            else (pcn_l3_csum_replace frame IP_CSUM_OFFSET old_ip (b_ip bck_value) 4).2 in
          (L_REDIRECT (BACKEND_PORT s), frame, s)
      end
  end.

(** ** Packets from the backend port

    What the translation of an answer changes: an address and, with a rewritten
    source, the other one too. *)
Record answer := Answer { a_frame : list Z; old_ip : Z; new_ip : Z; old_sip : Z; new_sip : Z; a_port : Z }.

Definition answer_of (frame : list Z) (source dest ip_proto : Z) (s : lb_dp) : lb_action + answer :=
  let saddr := rd32 frame 26 in
  let daddr := rd32 frame 30 in
  let by_session :=
    let key := if ip_proto =? bswap16 IPPROTO_ICMP then Sessions daddr saddr source dest ip_proto
               else Sessions daddr saddr dest source ip_proto in
    match lru_lookup (hash_session s) (jhash key) with
    | None => inl (send_to_frontend s daddr)
    | Some rev_proxy => inr (Answer (wr32 frame 26 (v_ip rev_proxy)) saddr (v_ip rev_proxy) saddr 0 (v_port rev_proxy))
    end in
  match rewrite_of s daddr with
  | Some v =>
      if sense v =? FROM_BACKEND then
        match m_lookup (backend_to_service s) (Backend saddr source ip_proto) with
        | None => inl L_DROP
        | Some vip_v =>
            inr (Answer (wr32 (wr32 frame 30 (rewritten v daddr)) 26 (v_ip vip_v))
                        daddr (rewritten v daddr) saddr (v_ip vip_v) (v_port vip_v))
        end
      else by_session
  | None => by_session
  end.

Definition from_backend (frame : list Z) (source dest ip_proto l4csum_offset : Z) (s : lb_dp) : lb_action * list Z :=
  match answer_of frame source dest ip_proto s with
  | inl a => (a, frame)
  | inr (Answer frame old_ip new_ip old_sip new_sip new_port) =>
      match (if negb (SINGLE_PORT_MODE s =? 0) then Some (FRONTEND_PORT s)
             else m_lookup (ip_to_frontend_port s) (rd32 frame 30)) with
      | None => (L_DROP, frame)
      | Some fe_port =>
          (L_REDIRECT fe_port,
           if (l4csum_offset =? TCP_CSUM_OFFSET) || (l4csum_offset =? UDP_CSUM_OFFSET) then
             checksum (wr16 frame 34 new_port) (rd16 frame 34) new_port old_ip new_ip old_sip new_sip l4csum_offset
           else (pcn_l3_csum_replace frame IP_CSUM_OFFSET old_ip new_ip 4).2)
      end
  end.

(** ** ARP and the rest *)
Definition handle_arp (frame : list Z) (in_port : Z) (s : lb_dp) : lb_action * list Z :=
  if beyond frame (14 + 28) then (L_DROP, frame)
  else if in_port =? BACKEND_PORT s then
    let frame :=
      if rd16 frame 20 =? bswap16 ARPOP_REQUEST then
        match rewrite_of s (rd32 frame 38) with
        | Some v => if sense v =? FROM_BACKEND then wr32 frame 38 (rewritten v (rd32 frame 38)) else frame
        | None => frame
        end
      else frame in
    (send_to_frontend s (rd32 frame 38), frame)
  else if rd16 frame 20 =? bswap16 ARPOP_REPLY then
    match rewrite_of s (rd32 frame 28) with
    | Some v => if sense v =? FROM_FRONTEND then (L_CONTROLLER_DROP REASON_ARP_REPLY, frame) else (L_REDIRECT (BACKEND_PORT s), frame)
    | None => (L_REDIRECT (BACKEND_PORT s), frame)
    end
  else (L_REDIRECT (BACKEND_PORT s), frame).

Definition handle_noip (in_port : Z) (s : lb_dp) : lb_action :=
  if in_port =? BACKEND_PORT s then
    if negb (SINGLE_PORT_MODE s =? 0) then L_REDIRECT (FRONTEND_PORT s) else L_CONTROLLER REASON_FLOODING
  else L_REDIRECT (BACKEND_PORT s).

(** What is read of a packet's fourth layer: ports, protocol, checksum's offset. *)
Definition parse_l4 (frame : list Z) : option (Z * Z * Z * Z) :=
  let proto := rd8 frame 23 in
  if proto =? IPPROTO_ICMP then
    if beyond frame (14 + 20 + 8) then None
    else if (rd8 frame 34 =? ICMP_ECHO) || (rd8 frame 34 =? ICMP_ECHOREPLY) then
      Some (rd16 frame 38, 0, bswap16 IPPROTO_ICMP, ICMP_CSUM_OFFSET)
    else None
  else if proto =? IPPROTO_UDP then
    if beyond frame (14 + 20 + 8) then None
    else Some (rd16 frame 34, rd16 frame 36, bswap16 IPPROTO_UDP, UDP_CSUM_OFFSET)
  else if proto =? IPPROTO_TCP then
    if beyond frame (14 + 20 + 20) then None
    else Some (rd16 frame 34, rd16 frame 36, bswap16 IPPROTO_TCP, TCP_CSUM_OFFSET)
  else None.

Definition handle_rx (frame : list Z) (in_port : Z) (s : lb_dp) : lb_action * list Z * lb_dp :=
  if beyond frame 14 then (L_DROP, frame, s)
  else if rd16 frame 12 =? bswap16 ETH_P_IP then
    if beyond frame (14 + 20) then (L_DROP, frame, s)
    else
      match parse_l4 frame with
      | None => (L_DROP, frame, s)
      | Some (source, dest, ip_proto, l4csum_offset) =>
          if negb (in_port =? BACKEND_PORT s) then from_frontend frame source dest ip_proto l4csum_offset s
          else (from_backend frame source dest ip_proto l4csum_offset s, s)
      end
  else if rd16 frame 12 =? bswap16 ETH_P_ARP then (handle_arp frame in_port s, s)
  else (handle_noip in_port s, frame, s).
End datapath.

(** * One update of a checksum: the field [o] becomes less by [d], modulo 65535 *)
Definition adjusted (f : list Z) (o : nat) (d : Z) (g : list Z) : Prop :=
  exists v q, g = wr16 f o v /\ 0 <= v < 2 ^ 16 /\ v = rd16 f o - d + 65535 * q.

Lemma replace4_spec sum old new : 0 <= sum < 2 ^ 16 -> 0 <= old < 2 ^ 32 -> 0 <= new < 2 ^ 32 ->
  exists v q, csum_replace 4 sum old new = Some v /\ 0 <= v < 2 ^ 16 /\ v = sum - (new - old) + 65535 * q.
Proof.
  intros Hs Ho Hn. unfold csum_replace. cbn [Z.eqb]. rewrite u32_lnot by done.
  destruct (csum_add_spec new (2 ^ 32 - 1 - old)) as (H1 & q1 & E1); [lia..|].
  destruct (replace_by_diff_spec sum _ Hs H1) as (H2 & q2 & E2).
  exists (pcn_csum_replace_by_diff sum (pcn_csum_add new (2 ^ 32 - 1 - old))), (q2 - q1 - 65537).
  split; [done|]. split; [done|]. rewrite E2, E1. lia.
Qed.
Lemma csum16_add_spec a b : 0 <= a < 2 ^ 16 -> 0 <= b < 2 ^ 16 ->
  0 <= pcn_csum16_add a b < 2 ^ 16 /\ exists q, pcn_csum16_add a b = a + b + 65535 * q.
Proof.
  intros Ha Hb. unfold pcn_csum16_add. split; [apply u16_range|]. unfold u16.
  destruct (Z.ltb_spec (a + b) (2 ^ 16)) as [Hl|Hl].
  - rewrite (Z.mod_small (a + b)) by lia. destruct (Z.ltb_spec (a + b) b); [lia|]. simpl Z.b2z. rewrite Z.mod_small by lia. exists 0. lia.
  - assert ((a + b) mod 2 ^ 16 = a + b - 2 ^ 16) as -> by (Z.div_mod_to_equations; lia).
    destruct (Z.ltb_spec (a + b - 2 ^ 16) b); [|lia]. simpl Z.b2z. rewrite Z.mod_small by lia. exists (-1). lia.
Qed.
Lemma replace2_spec sum old new : 0 <= sum < 2 ^ 16 -> 0 <= old < 2 ^ 16 -> 0 <= new < 2 ^ 16 ->
  exists v q, csum_replace 2 sum old new = Some v /\ 0 <= v < 2 ^ 16 /\ v = sum - (new - old) + 65535 * q.
Proof.
  intros Hs Ho Hn. unfold csum_replace. cbn [Z.eqb]. rewrite (u16_lnot sum), (u16_lnot old) by done.
  assert (u16 new = new) as -> by (by apply Z.mod_small).
  destruct (csum16_add_spec (2 ^ 16 - 1 - sum) (2 ^ 16 - 1 - old)) as (H1 & q1 & E1); [lia..|].
  destruct (csum16_add_spec (pcn_csum16_add (2 ^ 16 - 1 - sum) (2 ^ 16 - 1 - old)) new) as (H2 & q2 & E2); [lia..|].
  eexists _, (- q1 - q2 - 1). split; [reflexivity|]. split; [apply u16_range|]. rewrite u16_lnot, E2, E1 by lia. lia.
Qed.

Lemma l3_adjusted f old new : Forall is_byte f -> (26 <= length f)%nat -> 0 <= old < 2 ^ 32 -> 0 <= new < 2 ^ 32 ->
  adjusted f 24 (new - old) (pcn_l3_csum_replace f IP_CSUM_OFFSET old new 4).2.
Proof.
  intros Hb Hl Ho Hn. unfold pcn_l3_csum_replace. change (Z.to_nat IP_CSUM_OFFSET) with 24%nat. cbn [unlikely bad_offset].
  change (unlikely 4 BPF_F_HDR_FIELD_MASK) with false. change (bad_offset IP_CSUM_OFFSET) with false. cbn iota zeta.
  unfold beyond. destruct (Nat.ltb_spec (length f) (24 + 2)); [lia|]. change (Z.land 4 BPF_F_HDR_FIELD_MASK) with 4.
  destruct (replace4_spec (rd16 f 24) old new) as (v & q & -> & Hv & E); [by apply rd16_range|done|done|]. by exists v, q.
Qed.
Definition is_flag (flag : Z) : Prop := flag = TCP_CSUM_OFFSET \/ flag = UDP_CSUM_OFFSET.
Lemma l4_adjusted f flag size old new :
  is_flag flag -> Forall is_byte f -> (Z.to_nat flag + 2 <= length f)%nat ->
  (size = 2 /\ 0 <= old < 2 ^ 16 /\ 0 <= new < 2 ^ 16 \/ size = Z.lor 4 IS_PSEUDO /\ 0 <= old < 2 ^ 32 /\ 0 <= new < 2 ^ 32) ->
  adjusted f (Z.to_nat flag) (new - old) (pcn_l4_csum_replace f flag old new size).2.
Proof.
  intros Hf Hb Hl Hs. unfold pcn_l4_csum_replace.
  assert (bad_offset flag = false) as -> by (by destruct Hf as [-> | ->]).
  assert (unlikely size (Z.lor (Z.lor BPF_F_MARK_MANGLED_0 BPF_F_MARK_ENFORCE) (Z.lor BPF_F_PSEUDO_HDR BPF_F_HDR_FIELD_MASK)) = false /\
    negb (Z.land size BPF_F_MARK_MANGLED_0 =? 0) = false) as [-> ->] by (by destruct Hs as [[-> _]|[-> _]]). cbn iota zeta.
  unfold beyond. destruct (Nat.ltb_spec (length f) (Z.to_nat flag + 2)); [lia|]. cbn [andb].
  destruct Hs as [(-> & Ho & Hn)|(-> & Ho & Hn)].
  - change (Z.land 2 BPF_F_HDR_FIELD_MASK) with 2. destruct (replace2_spec (rd16 f (Z.to_nat flag)) old new) as (v & q & -> & Hv & E); [by apply rd16_range|done|done|].
    by exists v, q.
  - change (Z.land (Z.lor 4 IS_PSEUDO) BPF_F_HDR_FIELD_MASK) with 4.
    destruct (replace4_spec (rd16 f (Z.to_nat flag)) old new) as (v & q & -> & Hv & E); [by apply rd16_range|done|done|]. by exists v, q.
Qed.

(** ** Writes to the same place, to other places, and of what is there *)
Lemma wr16_over f o x y : wr16 (wr16 f o x) o y = wr16 f o y.
Proof. unfold wr16. by rewrite (list_insert_insert_ne _ o (o + 1)), !list_insert_insert_eq by lia. Qed.
Lemma wr16_comm f o o' x y : (o + 2 <= o' \/ o' + 2 <= o)%nat -> wr16 (wr16 f o x) o' y = wr16 (wr16 f o' y) o x.
Proof.
  intros Ho. unfold wr16. rewrite (list_insert_insert_ne _ o' (o + 1)), (list_insert_insert_ne f o' o) by lia.
  by rewrite (list_insert_insert_ne _ (o' + 1) (o + 1)), (list_insert_insert_ne _ (o' + 1) o) by lia.
Qed.
Lemma insert_same (f : list Z) o : <[o := rd8 f o]> f = f.
Proof. apply list_insert_id'. intros Hl. unfold rd8. by destruct (lookup_lt_is_Some_2 f o Hl) as [x ->]. Qed.
Lemma wr16_same f o : Forall is_byte f -> wr16 f o (rd16 f o) = f.
Proof.
  intros Hf. pose proof (rd8_range f o Hf). pose proof (rd8_range f (o + 1) Hf). unfold wr16. rewrite byte_of_0, byte_of_1. unfold rd16.
  assert ((rd8 f o + rd8 f (o + 1) * 2 ^ 8) mod 256 = rd8 f o) as -> by (Z.div_mod_to_equations; lia).
  assert ((rd8 f o + rd8 f (o + 1) * 2 ^ 8) / 256 mod 256 = rd8 f (o + 1)) as -> by (Z.div_mod_to_equations; lia).
  by rewrite !insert_same.
Qed.
Lemma wr32_same f o : Forall is_byte f -> wr32 f o (rd32 f o) = f.
Proof.
  intros Hf. pose proof (rd16_range f o Hf). pose proof (rd16_range f (o + 2) Hf). unfold wr32, rd32.
  assert ((rd16 f o + rd16 f (o + 2) * 2 ^ 16) mod 2 ^ 16 = rd16 f o) as -> by (Z.div_mod_to_equations; lia).
  assert ((rd16 f o + rd16 f (o + 2) * 2 ^ 16) / 2 ^ 16 = rd16 f (o + 2)) as -> by (Z.div_mod_to_equations; lia).
  by rewrite !wr16_same.
Qed.

(** The two checksums of a TCP or UDP packet, after the addresses and the port. *)
Lemma checksum_spec g op np od nd os ns flag :
  is_flag flag -> Forall is_byte g -> (Z.to_nat flag + 2 <= length g)%nat ->
  0 <= op < 2 ^ 16 -> 0 <= np < 2 ^ 16 -> 0 <= od < 2 ^ 32 -> 0 <= nd < 2 ^ 32 -> 0 <= os < 2 ^ 32 -> 0 <= ns < 2 ^ 32 ->
  let ds := if ns =? 0 then 0 else ns - os in
  exists v1 v2 q1 q2, checksum g op np od nd os ns flag = wr16 (wr16 g 24 v1) (Z.to_nat flag) v2 /\
    0 <= v1 < 2 ^ 16 /\ 0 <= v2 < 2 ^ 16 /\
    v1 = rd16 g 24 - (nd - od) - ds + 65535 * q1 /\
    v2 = rd16 g (Z.to_nat flag) - (np - op) - (nd - od) - ds + 65535 * q2.
Proof.
  intros Hf Hb Hl Hop Hnp Hod Hnd Hos Hns ds. assert (26 <= Z.to_nat flag)%nat as Hfl by (destruct Hf as [-> | ->]; vm_compute; lia).
  unfold checksum. destruct (l3_adjusted g od nd Hb) as (v1 & q1 & E1 & Hv1 & K1); [lia|done|done|]. rewrite E1. clear E1.
  set (fl := Z.to_nat flag) in *. assert (Forall is_byte (wr16 g 24 v1)) as Hb1 by auto with cpp.
  destruct (l4_adjusted (wr16 g 24 v1) flag 2 op np Hf Hb1) as (v2 & q2 & E2 & Hv2 & K2); [by rewrite length_wr16|by left|]. fold fl in E2, K2. rewrite E2. clear E2.
  assert (Forall is_byte (wr16 (wr16 g 24 v1) fl v2)) as Hb2 by auto with cpp.
  destruct (l4_adjusted (wr16 (wr16 g 24 v1) fl v2) flag (Z.lor 4 IS_PSEUDO) od nd Hf Hb2) as (v3 & q3 & E3 & Hv3 & K3); [by rewrite !length_wr16|by right|].
  fold fl in E3, K3. rewrite E3. clear E3. rewrite wr16_over.
  rewrite rd16_wr16_eq in K3 by (rewrite ?length_wr16; lia). rewrite rd16_wr16_ne in K2 by lia.
  destruct (Z.eqb_spec ns 0) as [Ez|Ez]; cbn [negb].
  { exists v1, v3, q1, (q2 + q3). split; [done|]. split; [done|]. split; [done|]. split; [lia|]. lia. }
  assert (Forall is_byte (wr16 (wr16 g 24 v1) fl v3)) as Hb3 by auto with cpp.
  destruct (l3_adjusted (wr16 (wr16 g 24 v1) fl v3) os ns Hb3) as (v4 & q4 & E4 & Hv4 & K4); [rewrite !length_wr16; lia|done|done|]. rewrite E4. clear E4.
  rewrite (wr16_comm _ fl 24) by lia. rewrite wr16_over.
  rewrite rd16_wr16_ne in K4 by lia. rewrite rd16_wr16_eq in K4 by (rewrite ?length_wr16; lia).
  assert (Forall is_byte (wr16 (wr16 g 24 v4) fl v3)) as Hb4 by auto with cpp.
  destruct (l4_adjusted (wr16 (wr16 g 24 v4) fl v3) flag (Z.lor 4 IS_PSEUDO) os ns Hf Hb4) as (v5 & q5 & E5 & Hv5 & K5); [by rewrite !length_wr16|by right|].
  fold fl in E5, K5. rewrite E5. clear E5. rewrite wr16_over. rewrite rd16_wr16_eq in K5 by (rewrite ?length_wr16; lia).
  exists v4, v5, (q1 + q4), (q2 + q3 + q5). split; [done|]. split; [done|]. split; [done|]. split; lia.
Qed.

(** * A translated TCP or UDP packet *)
Definition flag_proto (flag : Z) : Z := if flag =? TCP_CSUM_OFFSET then IPPROTO_TCP else IPPROTO_UDP.
(** [h] is [f] between other addresses and ports, for the rest the same up to its
    checksums, which are right if those of [f] were. *)
Record l4_translated (flag : Z) (f h : list Z) (saddr daddr sport dport : Z) : Prop := {
  lt_bytes : Forall is_byte h;
  lt_length : length h = length f;
  lt_src : rd32 h 26 = saddr;
  lt_dst : rd32 h 30 = daddr;
  lt_sport : rd16 h 34 = sport;
  lt_dport : rd16 h 36 = dport;
  lt_rest j : (j < 24 \/ 38 <= j /\ (j < Z.to_nat flag \/ Z.to_nat flag + 2 <= j))%nat -> rd8 h j = rd8 f j;
  lt_intact : intact f -> intact h;
}.
Definition moved (f : list Z) (saddr daddr : Z) (po : nat) (p : Z) : list Z := wr16 (wr32 (wr32 f 30 daddr) 26 saddr) po p.

Lemma flag_cases flag : is_flag flag ->
  Z.to_nat flag = 40%nat /\ l4_min (flag_proto flag) = 8%nat \/ Z.to_nat flag = 50%nat /\ l4_min (flag_proto flag) = 20%nat.
Proof. intros [-> | ->]; vm_compute; auto. Qed.
Section translation.
Context (flag : Z) (f : list Z) (saddr daddr : Z) (po : nat) (p v1 v2 : Z).
Hypothesis Hflag : is_flag flag.
Hypothesis Hbytes : Forall is_byte f.
Hypothesis Hproto : rd8 f 23 = flag_proto flag.
Hypothesis Hlength : (34 + l4_min (flag_proto flag) <= length f)%nat.
Hypothesis Hpo : po = 34%nat \/ po = 36%nat.
Hypothesis Hranges : 0 <= saddr < 2 ^ 32 /\ 0 <= daddr < 2 ^ 32 /\ 0 <= p < 2 ^ 16 /\ 0 <= v1 < 2 ^ 16 /\ 0 <= v2 < 2 ^ 16.
Let fl := Z.to_nat flag.
Let h := wr16 (wr16 (moved f saddr daddr po p) 24 v1) fl v2.
Let delta := daddr - rd32 f 30 + (saddr - rd32 f 26).
Hypothesis Hv1 : exists q, v1 = rd16 f 24 - delta + 65535 * q.
Hypothesis Hv2 : exists q, v2 = rd16 f fl - (p - rd16 f po) - delta + 65535 * q.

Lemma translated_ip_sum : exists q, sum16 h 14 10 = sum16 f 14 10 + 65535 * q.
Proof.
  pose proof (flag_cases flag Hflag) as Hc. fold fl in Hc. destruct Hv1 as [q Ev]. subst h. unfold moved. rewrite sum16_out by lia.
  rewrite (sum16_in _ 24 v1 14 10 5) by (rewrite ?length_wr16, ?length_wr32; lia). frame_simpl.
  rewrite sum16_out by lia. destruct (sum16_in32 (wr32 f 30 daddr) 26 saddr 14 10 6) as (q1 & ->); [lia|lia|rewrite length_wr32; lia|lia|].
  destruct (sum16_in32 f 30 daddr 14 10 8) as (q2 & ->); [lia..|]. rewrite rd32_wr32_ne by lia. exists (q1 + q2 + q). subst delta. lia.
Qed.
Lemma translated_l4_length : l4_length h = l4_length f.
Proof.
  pose proof (flag_cases flag Hflag) as Hc. fold fl in Hc. unfold l4_length. do 3 f_equal. subst h. unfold moved.
  by rewrite !rd16_wr16_ne, !rd16_wr32_ne by lia.
Qed.
Lemma translated_pseudo : exists q, pseudo_sum h = pseudo_sum f + delta + 65535 * q.
Proof.
  pose proof (flag_cases flag Hflag) as Hc. fold fl in Hc. unfold pseudo_sum. rewrite translated_l4_length. subst h. unfold moved.
  rewrite !(sum16_out (wr16 _ _ _)), !(sum16_out (wr32 _ _ _)) by lia.
  rewrite !rd8_wr16_ne, !rd8_wr32_ne by lia.
  destruct (sum16_in32 (wr32 f 30 daddr) 26 saddr 26 4 0) as (q1 & ->); [lia|lia|rewrite length_wr32; lia|lia|].
  destruct (sum16_in32 f 30 daddr 26 4 2) as (q2 & ->); [lia..|]. rewrite rd32_wr32_ne by lia. exists (q1 + q2). subst delta. lia.
Qed.
Lemma translated_l4 n k : (Z.to_nat flag + 2 <= n)%nat -> (n <= length f)%nat -> (2 * k <= n - 34 + 1)%nat -> (n - 34 <= 2 * k)%nat ->
  exists q, sum16 (take n h) 34 k = sum16 (take n f) 34 k - delta + 65535 * q.
Proof.
  pose proof (flag_cases flag Hflag) as Hc. fold fl in Hc. fold fl. intros Hn Hnl Hk1 Hk2. destruct Hv2 as [q Ev]. subst h. unfold moved. rewrite !take_wr16, !take_wr32.
  assert (length (take n f) = n) as Hl by (rewrite length_take; lia).
  rewrite (sum16_in _ fl v2 34 k ((fl - 34) / 2)) by (rewrite ?length_wr16, ?length_wr32, ?Hl; destruct Hc as [[-> _]|[-> _]]; simpl; lia).
  rewrite (sum16_out _ 24) by lia.
  rewrite (sum16_in _ po p 34 k ((po - 34) / 2)) by (rewrite ?length_wr32, ?Hl; destruct Hpo as [-> | ->]; simpl; lia).
  rewrite !sum16_out32 by lia. rewrite !rd16_wr16_ne by lia. rewrite !rd16_wr32_ne by lia. rewrite !rd16_take by lia. exists q. lia.
Qed.

Lemma translation_run :
  l4_translated flag f h saddr daddr (if decide (po = 34%nat) then p else rd16 f 34) (if decide (po = 34%nat) then rd16 f 36 else p).
Proof.
  pose proof (flag_cases flag Hflag) as Hc. fold fl in Hc. pose proof translated_ip_sum as Hi. pose proof translated_pseudo as Hp. pose proof translated_l4 as H4.
  pose proof translated_l4_length as Hll. split.
  - subst h. unfold moved. auto 8 with cpp.
  - subst h. unfold moved. by rewrite !length_wr16, !length_wr32.
  - subst h. unfold moved. rewrite !rd32_wr16_ne by lia. apply rd32_wr32_eq; [rewrite length_wr32; lia|lia].
  - subst h. unfold moved. rewrite !rd32_wr16_ne by lia. rewrite rd32_wr32_ne by lia. apply rd32_wr32_eq; lia.
  - subst h. unfold moved. rewrite (rd16_wr16_ne _ fl), (rd16_wr16_ne _ 24) by lia. case_decide as E.
    + rewrite E. apply rd16_wr16_eq; [rewrite !length_wr32; lia|lia].
    + by rewrite rd16_wr16_ne, !rd16_wr32_ne by lia.
  - subst h. unfold moved. rewrite (rd16_wr16_ne _ fl), (rd16_wr16_ne _ 24) by lia. case_decide as E.
    + by rewrite rd16_wr16_ne, !rd16_wr32_ne by lia.
    + assert (po = 36%nat) as -> by lia. apply rd16_wr16_eq; [rewrite !length_wr32; lia|lia].
  - intros j Hj. fold fl in Hj. subst h. unfold moved. by rewrite !rd8_wr16_ne, !rd8_wr32_ne by lia.
  - intros [Iip [Imin Ilen] Il4]. assert (rd8 h 23 = rd8 f 23) as E23 by (subst h; unfold moved; by rewrite !rd8_wr16_ne, !rd8_wr32_ne by lia).
    assert (length h = length f) as El by (subst h; unfold moved; by rewrite !length_wr16, !length_wr32).
    rewrite Hproto in Imin, Il4. assert ((flag_proto flag =? IPPROTO_ICMP) = false) as Ei by (by destruct Hflag as [-> | ->]).
    rewrite Ei in Il4. split; [by apply (still_zero _ _ Iip)|by rewrite Hll, E23, Hproto, El|].
    rewrite E23, Hproto, Ei. unfold l4_sum in *. rewrite Hll. set (n := (34 + l4_length f)%nat) in *.
    pose proof (Nat.div_mod (l4_length f + 1) 2). pose proof (Nat.mod_upper_bound (l4_length f + 1) 2).
    destruct Hp as [q1 Ep]. destruct (H4 n ((l4_length f + 1) / 2)%nat) as [q2 E2]; [fold fl; lia|lia|lia|lia|].
    apply (still_zero _ _ Il4). exists (q1 + q2). lia.
Qed.
End translation.

(** * Packets that the program parses *)
(** A packet of a flow, as [parse_l4] reads it: ports, protocol, checksum's offset. *)
Record l4_packet (f : list Z) (source dest proto flag : Z) : Prop := {
  lp_bytes : Forall is_byte f;
  lp_type : rd16 f 12 = bswap16 ETH_P_IP;
  lp_parse : parse_l4 f = Some (source, dest, proto, flag);
  lp_length : (34 <= length f)%nat;
}.
Lemma not_beyond f n : beyond f n = false <-> (n <= length f)%nat.
Proof. unfold beyond. by rewrite Nat.ltb_ge. Qed.
Lemma parse_l4_cases f source dest proto flag :
  parse_l4 f = Some (source, dest, proto, flag) ->
  (is_flag flag /\ rd8 f 23 = flag_proto flag /\ proto = bswap16 (flag_proto flag) /\ source = rd16 f 34 /\ dest = rd16 f 36 /\
     (34 + l4_min (flag_proto flag) <= length f)%nat) \/
  (flag = ICMP_CSUM_OFFSET /\ rd8 f 23 = IPPROTO_ICMP /\ proto = bswap16 IPPROTO_ICMP /\ source = rd16 f 38 /\ dest = 0 /\ (42 <= length f)%nat).
Proof.
  unfold parse_l4. destruct (Z.eqb_spec (rd8 f 23) IPPROTO_ICMP) as [E|_].
  { destruct (beyond f (14 + 20 + 8)) eqn:B; [done|]. apply not_beyond in B. destruct (_ || _); [|done]. intros [= <- <- <- <-]. right. by repeat split. }
  destruct (Z.eqb_spec (rd8 f 23) IPPROTO_UDP) as [E|_].
  { destruct (beyond f (14 + 20 + 8)) eqn:B; [done|]. apply not_beyond in B. intros [= <- <- <- <-]. left.
    split; [by right|]. split; [done|]. split; [done|]. split; [done|]. split; [done|]. done. }
  destruct (Z.eqb_spec (rd8 f 23) IPPROTO_TCP) as [E|_]; [|done].
  destruct (beyond f (14 + 20 + 20)) eqn:B; [done|]. apply not_beyond in B. intros [= <- <- <- <-]. left.
  split; [by left|]. split; [done|]. split; [done|]. split; [done|]. split; [done|]. done.
Qed.
Lemma is_flag_test flag : is_flag flag -> (flag =? TCP_CSUM_OFFSET) || (flag =? UDP_CSUM_OFFSET) = true.
Proof. by intros [-> | ->]. Qed.

(** What an ICMP packet is after its address is changed: the checksum of ICMP does
    not cover the addresses. *)
Record icmp_translated (f h : list Z) (saddr daddr : Z) : Prop := {
  it_bytes : Forall is_byte h;
  it_length : length h = length f;
  it_src : rd32 h 26 = saddr;
  it_dst : rd32 h 30 = daddr;
  it_rest j : (j < 24 \/ 34 <= j)%nat -> rd8 h j = rd8 f j;
  it_intact : rd8 f 23 = IPPROTO_ICMP -> intact f -> intact h;
}.

Lemma icmp_translation (f : list Z) (src : bool) x :
  Forall is_byte f -> (34 <= length f)%nat -> 0 <= x < 2 ^ 32 ->
  let o := if src then 26%nat else 30%nat in
  let h := (pcn_l3_csum_replace (wr32 f o x) IP_CSUM_OFFSET (rd32 f o) x 4).2 in
  icmp_translated f h (if src then x else rd32 f 26) (if src then rd32 f 30 else x).
Proof.
  intros Hb Hl Hx o h. assert (o = 26 \/ o = 30)%nat as Ho by (subst o; destruct src; lia).
  assert (Forall is_byte (wr32 f o x)) as Hb' by auto with cpp. pose proof (rd32_range f o Hb) as Hr.
  destruct (l3_adjusted (wr32 f o x) (rd32 f o) x Hb') as (v & q & Eh & Hv & Ev); [rewrite length_wr32; lia|done|done|].
  subst h. rewrite Eh. rewrite rd16_wr32_ne in Ev by lia. split.
  - auto with cpp.
  - by rewrite length_wr16, length_wr32.
  - rewrite rd32_wr16_ne by lia. subst o. destruct src; [apply rd32_wr32_eq; lia|by rewrite rd32_wr32_ne by lia].
  - rewrite rd32_wr16_ne by lia. subst o. destruct src; [by rewrite rd32_wr32_ne by lia|apply rd32_wr32_eq; lia].
  - intros j Hj. by rewrite rd8_wr16_ne, rd8_wr32_ne by lia.
  - intros Hp [Iip [Imin Ilen] Il4].
    assert (l4_length (wr16 (wr32 f o x) 24 v) = l4_length f) as El by (unfold l4_length; do 3 f_equal; by rewrite rd16_wr16_ne, rd16_wr32_ne by lia).
    assert (rd8 (wr16 (wr32 f o x) 24 v) 23 = rd8 f 23) as E23 by by rewrite rd8_wr16_ne, rd8_wr32_ne by lia.
    split; [|by rewrite El, E23, length_wr16, length_wr32|].
    + apply (still_zero _ _ Iip). rewrite (sum16_in _ 24 v 14 10 5) by (rewrite ?length_wr32; lia). rewrite rd16_wr32_ne by lia.
      destruct (sum16_in32 f o x 14 10 (if src then 6%nat else 8%nat)) as (q1 & ->); [subst o; destruct src; lia..|]. exists (q + q1). lia.
    + unfold l4_sum in *. rewrite E23, El. rewrite Hp in *. change (IPPROTO_ICMP =? IPPROTO_ICMP) with true in *. cbn iota in *.
      rewrite take_wr16, take_wr32, sum16_out, sum16_out32 by lia. done.
Qed.

Definition translated_packet (flag : Z) (f h : list Z) (saddr daddr sport dport : Z) : Prop :=
  (is_flag flag /\ l4_translated flag f h saddr daddr sport dport) \/ (flag = ICMP_CSUM_OFFSET /\ icmp_translated f h saddr daddr).

(** The writes of a translation that changes one address and the port on its side. *)
Lemma one_side f flag source dest proto (src : bool) x p :
  l4_packet f source dest proto flag -> is_flag flag -> 0 <= x < 2 ^ 32 -> 0 <= p < 2 ^ 16 ->
  let o := if src then 26%nat else 30%nat in
  let po := if src then 34%nat else 36%nat in
  l4_translated flag f (checksum (wr16 (wr32 f o x) po p) (rd16 f po) p (rd32 f o) x (rd32 f 26) 0 flag)
    (if src then x else rd32 f 26) (if src then rd32 f 30 else x) (if src then p else rd16 f 34) (if src then rd16 f 36 else p).
Proof.
  intros [Hb Ht Hp Hl] Hf Hx Hpr o po. apply parse_l4_cases in Hp as [(_ & E23 & _ & _ & _ & Hlen)|(-> & _)]; [|by destruct Hf].
  assert (wr16 (wr32 f o x) po p = moved f (if src then x else rd32 f 26) (if src then rd32 f 30 else x) po p) as Em.
  { unfold moved. f_equal. subst o. destruct src; [by rewrite (wr32_same f 30)|].
    assert (rd32 (wr32 f 30 x) 26 = rd32 f 26) as <- by by rewrite rd32_wr32_ne by lia. rewrite wr32_same by auto with cpp. done. }
  pose proof (rd32_range f 26 Hb). pose proof (rd32_range f 30 Hb). pose proof (rd16_range f po Hb).
  destruct (flag_cases flag Hf) as [[Efl Emin]|[Efl Emin]]; rewrite Emin in Hlen;
  (destruct (checksum_spec (wr16 (wr32 f o x) po p) (rd16 f po) p (rd32 f o) x (rd32 f 26) 0 flag) as (v1 & v2 & q1 & q2 & -> & Hv1 & Hv2 & E1 & E2);
    [done|auto with cpp|rewrite length_wr16, length_wr32; lia|done|done|subst o; by destruct src|done|done|done|]).
  all: cbn [Z.eqb] in E1, E2; rewrite Em.
  all: assert (rd16 (wr16 (wr32 f o x) po p) 24 = rd16 f 24) as K1 by (subst o po; destruct src; by rewrite rd16_wr16_ne, rd16_wr32_ne by lia).
  all: assert (rd16 (wr16 (wr32 f o x) po p) (Z.to_nat flag) = rd16 f (Z.to_nat flag)) as K2 by (rewrite Efl; subst o po; destruct src; by rewrite rd16_wr16_ne, rd16_wr32_ne by lia).
  all: rewrite K1 in E1; rewrite K2 in E2.
  all: pose proof (translation_run flag f (if src then x else rd32 f 26) (if src then rd32 f 30 else x) po p v1 v2 Hf Hb E23) as Ht'.
  all: rewrite Emin in Ht'; specialize (Ht' ltac:(lia) ltac:(subst po; destruct src; lia)).
  all: subst o po; destruct src; (apply Ht'; [lia|exists q1; lia|exists q2; lia]).
Qed.

Section flows.
Context `{LbTables} `{JHash}.
Implicit Types (d : lb_dp).

(** From the frontend, when the source is not rewritten. *)
Lemma from_frontend_run f source dest proto flag d d' bv b :
  l4_packet f source dest proto flag ->
  m_lookup (services d) (Vip (rd32 f 30) dest proto 0) = Some bv ->
  get_bck_ip (Sessions (rd32 f 26) (rd32 f 30) source dest proto) (b_port bv) d = (Some b, d') ->
  (forall v, rewrite_of d' (rd32 f 26) = Some v -> sense v <> FROM_FRONTEND) ->
  0 <= b_ip b < 2 ^ 32 -> 0 <= b_port b < 2 ^ 16 ->
  exists h, from_frontend f source dest proto flag d = (L_REDIRECT (BACKEND_PORT d'), h, d') /\
    translated_packet flag f h (rd32 f 26) (b_ip b) (rd16 f 34) (b_port b).
Proof.
  intros Hp Hs Hb Hr Hip Hport. unfold from_frontend. rewrite Hs, Hb. cbn iota zeta.
  assert (match rewrite_of d' (rd32 f 26) with
    | Some v => if sense v =? FROM_FRONTEND then (wr32 (wr32 f 30 (b_ip b)) 26 (rewritten v (rd32 f 26)), rewritten v (rd32 f 26)) else (wr32 f 30 (b_ip b), 0)
    | None => (wr32 f 30 (b_ip b), 0) end = (wr32 f 30 (b_ip b), 0)) as ->.
  { destruct (rewrite_of d' _) as [v|]; [|done]. destruct (Z.eqb_spec (sense v) FROM_FRONTEND); [by destruct (Hr v)|done]. }
  destruct (parse_l4_cases _ _ _ _ _ (lp_parse _ _ _ _ _ Hp)) as [(Hf & _ & _ & _ & -> & _)|(-> & _)].
  - rewrite is_flag_test by done. eexists. split; [reflexivity|]. left. split; [done|]. by apply (one_side f flag source (rd16 f 36) proto false).
  - cbn. eexists. split; [reflexivity|]. right. split; [done|]. apply (icmp_translation f false); [apply Hp|apply Hp|done].
Qed.

(** From the backend, when a session is known and the destination is not rewritten. *)
Lemma from_backend_run f source dest proto flag d v fe :
  l4_packet f source dest proto flag ->
  (forall v, rewrite_of d (rd32 f 30) = Some v -> sense v <> FROM_BACKEND) ->
  lru_lookup (hash_session d) (jhash (if proto =? bswap16 IPPROTO_ICMP then Sessions (rd32 f 30) (rd32 f 26) source dest proto
    else Sessions (rd32 f 30) (rd32 f 26) dest source proto)) = Some v ->
  (if negb (SINGLE_PORT_MODE d =? 0) then Some (FRONTEND_PORT d) else m_lookup (ip_to_frontend_port d) (rd32 f 30)) = Some fe ->
  0 <= v_ip v < 2 ^ 32 -> 0 <= v_port v < 2 ^ 16 ->
  exists h, from_backend f source dest proto flag d = (L_REDIRECT fe, h) /\
    translated_packet flag f h (v_ip v) (rd32 f 30) (v_port v) (rd16 f 36).
Proof.
  intros Hp Hr Hs Hfe Hip Hport. unfold from_backend, answer_of. rewrite Hs.
  assert (match rewrite_of d (rd32 f 30) with
    | Some v0 =>
        if sense v0 =? FROM_BACKEND then
          match m_lookup (backend_to_service d) (Backend (rd32 f 26) source proto) with
          | None => inl L_DROP
          | Some vip_v => inr (Answer (wr32 (wr32 f 30 (rewritten v0 (rd32 f 30))) 26 (v_ip vip_v)) (rd32 f 30) (rewritten v0 (rd32 f 30)) (rd32 f 26) (v_ip vip_v) (v_port vip_v))
          end
        else inr (Answer (wr32 f 26 (v_ip v)) (rd32 f 26) (v_ip v) (rd32 f 26) 0 (v_port v))
    | None => inr (Answer (wr32 f 26 (v_ip v)) (rd32 f 26) (v_ip v) (rd32 f 26) 0 (v_port v))
    end = inr (Answer (wr32 f 26 (v_ip v)) (rd32 f 26) (v_ip v) (rd32 f 26) 0 (v_port v))) as ->.
  { destruct (rewrite_of d _) as [w|]; [|done]. destruct (Z.eqb_spec (sense w) FROM_BACKEND); [by destruct (Hr w)|done]. }
  rewrite rd32_wr32_ne by lia. rewrite Hfe.
  destruct (parse_l4_cases _ _ _ _ _ (lp_parse _ _ _ _ _ Hp)) as [(Hf & _ & _ & -> & _)|(-> & _)].
  - rewrite is_flag_test by done. eexists. split; [reflexivity|]. left. split; [done|]. rewrite rd16_wr32_ne by lia.
    by apply (one_side f flag (rd16 f 34) dest proto true).
  - cbn. eexists. split; [reflexivity|]. right. split; [done|]. apply (icmp_translation f true); [apply Hp|apply Hp|done].
Qed.
End flows.
