(* ===== verification/LbService.v ===== *)
(** pcn-loadbalancer-rp, the control plane of services: Service.cpp, ServiceBackend.cpp
    and the services of Lbrp.cpp.  A service spreads its servers over an array of
    slots (the consistent array), which it writes to the tables of the program. *)
From Stdlib Require Import ZArith Lia Ascii String.
From stdpp Require Import base gmap list strings numbers sorting.
From S2P Require Import Prelude.
From S2P Require Import Bpf.
From S2P Require Import NetUtils.
From S2P Require Import Tables.
From S2P Require Import CubePorts.
From S2P Require Import LbDatapath.
#[local] Open Scope Z_scope.
#[local] Open Scope cpp_scope.

(** * The standard library

    [iterate] is the order of a std::unordered_map, [shuffle] what std::shuffle makes
    of 0, 1, ...; both may differ from one moment to the next. *)
Class StdLib := {
  iterate {K V : Type} `{Countable K} : nat -> gmap K V -> list (K * V);
  iterate_permutation {K V : Type} `{Countable K} n (m : gmap K V) : iterate n m ≡ₚ map_to_list m;
  shuffle : nat -> nat -> list Z;
  shuffle_permutation n size : shuffle n size ≡ₚ seqZ 0 (Z.of_nat size);
}.
(** [v.at(i)], [i] converted to an unsigned number *)
Definition vec_at {A} (l : list A) (i : Z) : res A :=
  match vec_get l i with Ok a => Ok a | _ => Throw OutOfRange end.
(** Signed arithmetic that overflows is undefined. *)
Definition int32 (x : Z) : res Z := if (- 2 ^ 31 <=? x) && (x <? 2 ^ 31) then Ok x else Undefined.

(** ** float: [mant * 2 ^ expo], rounded to the nearest of 24 bits, ties to even *)
Record float32 := F32 { mant : Z; expo : Z }.
Definition nearest (n d : Z) : Z :=
  let q := n / d in let r := n mod d in
  if 2 * r <? d then q else if d <? 2 * r then q + 1 else q + q mod 2.
(** The quotient of two positive numbers. *)
Definition round_quotient (a b : Z) : float32 :=
  if a =? 0 then F32 0 0
  else
    let scale e := (a * 2 ^ Z.max 0 (- e), b * 2 ^ Z.max 0 e) in
    let e := Z.log2 a - Z.log2 b - 23 in
    let '(n, d) := scale e in
    let e := if n <? 2 ^ 23 * d then e - 1 else e in
    let '(n, d) := scale e in F32 (nearest n d) e.
Definition float_of_int (x : Z) : float32 := round_quotient x 1.
(** A float as a quotient. *)
Definition num (x : float32) : Z := mant x * 2 ^ Z.max 0 (expo x).
Definition den (x : float32) : Z := 2 ^ Z.max 0 (- expo x).
Definition fdiv (x y : float32) : float32 := round_quotient (num x * den y) (den x * num y).
Definition fmul (x y : float32) : float32 := round_quotient (num x * num y) (den x * den y).
(** Truncation. *)
Definition int_of_float (x : float32) : Z := num x / den x.

(** * Data *)
Inductive ServiceProtoEnum := P_ICMP | P_TCP | P_UDP | P_ALL.
#[export] Instance proto_eq_dec : EqDecision ServiceProtoEnum.
Proof. solve_decision. Defined.
Record ServiceBackendJson := BackendJ {
  j_ip : string; j_port : option Z; j_weight : option Z; j_name : option string }.
Record ServiceJson := ServiceJ {
  js_vip : string; js_vport : Z; js_proto : ServiceProtoEnum; js_name : option string;
  js_backend : option (list ServiceBackendJson) }.

(** Which service a server refers to as [parent_]: the one in the cube's map, or the
    local variable of addService that the map's was copied from. *)
Inductive service_object := InMap | Local.
Record ServiceBackend := MkBackend {
  parent_ : service_object; weight_ : Z; port_ : Z; ip_ : string; name_ : string }.
Definition with_weight (w : Z) (b : ServiceBackend) : ServiceBackend := MkBackend (parent_ b) w (port_ b) (ip_ b) (name_ b).
Definition with_port (p : Z) (b : ServiceBackend) : ServiceBackend := MkBackend (parent_ b) (weight_ b) p (ip_ b) (name_ b).
Definition with_name (n : string) (b : ServiceBackend) : ServiceBackend := MkBackend (parent_ b) (weight_ b) (port_ b) (ip_ b) n.

Record Service := MkService {
  service_backends_ : gmap string ServiceBackend;
  backend_matrix_ : gmap string (list Z);
  service_name_ : string;
  vip_ : string;
  vport_ : Z;
  proto_ : ServiceProtoEnum;
  backend_size_ : Z;
  object : service_object;
}.
Definition set_backends (m : gmap string ServiceBackend) (s : Service) : Service :=
  MkService m (backend_matrix_ s) (service_name_ s) (vip_ s) (vport_ s) (proto_ s) (backend_size_ s) (object s).
Definition set_matrix (m : gmap string (list Z)) (s : Service) : Service :=
  MkService (service_backends_ s) m (service_name_ s) (vip_ s) (vport_ s) (proto_ s) (backend_size_ s) (object s).
Definition set_service_name (n : string) (s : Service) : Service :=
  MkService (service_backends_ s) (backend_matrix_ s) n (vip_ s) (vport_ s) (proto_ s) (backend_size_ s) (object s).
Definition set_object (o : service_object) (s : Service) : Service :=
  MkService (service_backends_ s) (backend_matrix_ s) (service_name_ s) (vip_ s) (vport_ s) (proto_ s) (backend_size_ s) o.

Definition INITIAL_BACKEND_SIZE : Z := 10.
Definition BACKEND_REPLICAS : Z := 3.
Definition ICMP_EBPF_PORT : Z := 0.

Definition convertProtoToNumber (proto : ServiceProtoEnum) : Z :=
  match proto with P_ICMP => 1 | P_TCP => 6 | P_UDP => 17 | P_ALL => 143 end.
Definition convertNumberToProto (proto : Z) : ServiceProtoEnum :=
  if proto =? 1 then P_ICMP else if proto =? 6 then P_TCP else if proto =? 17 then P_UDP
  else if proto =? 143 then P_ALL else P_ALL.

(** The order of a [std::map] whose keys are strings. *)
Definition key_le {V} (a b : string * V) : Prop := String.leb a.1 b.1 = true.
#[local] Instance key_le_dec {V} : RelDecision (key_le (V := V)).
Proof. intros a b. unfold key_le. apply _. Defined.
Definition sorted_entries {V} (m : gmap string V) : list (string * V) := merge_sort key_le (map_to_list m).

(** * The consistent array *)
Definition bkd_size (s : Service) : Z := Z.max (backend_size_ s) (Z.of_nat (size (service_backends_ s))).
Definition vect_size (s : Service) : Z := bkd_size s * BACKEND_REPLICAS.

(** One round of the alignment; [break] ends the loop around it too. *)
Fixpoint align_round (backends : list (string * ServiceBackend)) (pool : gmap string Z) (res : Z) : gmap string Z * Z :=
  match backends with
  | [] => (pool, res)
  | (ip, b) :: backends =>
      if weight_ b =? 0 then align_round backends pool res
      else
        let pool := <[ip := default 0 (pool !! ip) + 1]> pool in
        if res - 1 =? 0 then (pool, 0) else align_round backends pool (res - 1)
  end.
(** [while (res > 0)]; without a server to give to, the loop does nothing for ever,
    which is undefined. *)
Fixpoint align (fuel : nat) (backends : list (string * ServiceBackend)) (pool : gmap string Z) (res : Z) : Prelude.res (gmap string Z) :=
  if 0 <? res then
    match fuel with
    | O => Undefined
    | S fuel => let '(pool, res) := align_round backends pool res in align fuel backends pool res
    end
  else Ok pool.

Definition get_weight_backend (backends : list (string * ServiceBackend)) (vect_size : Z) : res (gmap string Z) :=
  sum_weight <~ for_each_res backends (fun sum p => int32 (sum + weight_ p.2)) 0 ;;
  let coeff := fdiv (float_of_int vect_size) (float_of_int sum_weight) in
  pool_total <~ for_each_res backends (fun '(pool, total) p =>
    if weight_ p.2 =? 0 then Ok (pool, total)
    else
      let weight_backend := int_of_float (fmul (float_of_int (weight_ p.2)) coeff) in
      let weight_backend := if weight_backend =? 0 then weight_backend + 1 else weight_backend in
      total <~ int32 (total + weight_backend) ;;
      Ok (<[p.1 := weight_backend]> pool, total)) (∅, 0) ;;
  let '(pool, total_weight) := pool_total in
  let res := vect_size - total_weight in
  align (Z.to_nat res) backends pool res.

(** The walk along a row: the first slot that is free, from [index] on. *)
Inductive walk := W_next (index : Z) | W_free (num : Z).
Fixpoint walk_row (fuel : nat) (final_backend_list : list string) (array_rows j : Z) (elem : list Z) (index : Z) : res walk :=
  num <~ vec_get elem index ;;
  if num =? -2 then Ok (W_next index)
  else
    slot <~ vec_at final_backend_list num ;;
    if negb (String.eqb slot "-1") then
      if array_rows <=? index + 1 then Ok (W_next j)
      else match fuel with O => Undefined | S fuel => walk_row fuel final_backend_list array_rows j elem (index + 1) end
    else Ok (W_free num).

Record filling := Filling { final : list string; weights : gmap string Z; count : Z; index : Z }.
(** [goto exit] leaves both loops: nothing changes once the array is full. *)
Definition visit_row (array_rows j : Z) (f : filling) (row : string * list Z) : res filling :=
  if count f =? array_rows then Ok f
  else
    w <~ walk_row (Z.to_nat array_rows) (final f) array_rows j row.2 (index f) ;;
    match w with
    | W_next i => Ok (Filling (final f) (weights f) (count f) i)
    | W_free num =>
        let left := default 0 (weights f !! row.1) in
        if 0 <? left then
          Ok (Filling (<[Z.to_nat num := row.1]> (final f)) (<[row.1 := left - 1]> (weights f)) (count f + 1) j)
        else Ok (Filling (final f) (weights f) (count f) j)
    end.
Definition visit_column (array_rows : Z) (rows : list (string * list Z)) (f : filling) (j : Z) : res filling :=
  for_each_res rows (visit_row array_rows j) (Filling (final f) (weights f) (count f) j).
Definition fill_array (array_rows : Z) (rows : list (string * list Z)) (weights : gmap string Z) : res (list string) :=
  f <~ for_each_res (seqZ 0 array_rows) (visit_column array_rows rows)
         (Filling (replicate (Z.to_nat array_rows) "-1"%string) weights 0 0) ;;
  Ok (final f).

Section service.
Context `{StdLib} `{LbTables}.

(** A service, the cube's tables, and the moment, which advances with every row. *)
Record service_env := ServiceEnv { this : Service; dp : lb_dp; moment : nat }.
Definition set_this (t : Service) (s : service_env) : service_env := ServiceEnv t (dp s) (moment s).
Definition set_dp (d : lb_dp) (s : service_env) : service_env := ServiceEnv (this s) d (moment s).
Definition backends_in_order (s : service_env) : list (string * ServiceBackend) := iterate (moment s) (service_backends_ (this s)).

Definition getConsistentArray (s : service_env) : res (list string) :=
  let array_rows := vect_size (this s) in
  weight_backend_list <~ get_weight_backend (backends_in_order s) array_rows ;;
  fill_array array_rows (sorted_entries (backend_matrix_ (this s))) weight_backend_list.

Definition getEmptyIntVector (vect_size : Z) : list Z := replicate (Z.to_nat vect_size) (-2).
Definition getRandomIntVector (vect_size : Z) : M service_env (list Z) := fun s =>
  (Ok (shuffle (moment s) (Z.to_nat vect_size)), ServiceEnv (this s) (dp s) (S (moment s))).

Definition removeBackendFromServiceMatrix (backend_ip : string) : M service_env unit :=
  modify (fun s => set_this (set_matrix (<[backend_ip := getEmptyIntVector (vect_size (this s))]> (backend_matrix_ (this s))) (this s)) s).
Definition addBackendToServiceMatrix (backend_ip : string) : M service_env unit :=
  s <-- get ;;
  row <-- getRandomIntVector (vect_size (this s)) ;;
  modify (fun s => set_this (set_matrix (<[backend_ip := row]> (backend_matrix_ (this s))) (this s)) s).

(** ** The program's tables *)
Definition on_services (f : servicesT -> res servicesT) : M service_env unit := fun s =>
  match f (services (dp s)) with
  | Ok t => (Ok tt, set_dp (set_services t (dp s)) s) | Throw e => (Throw e, s) | Undefined => (Undefined, s)
  end.
Definition on_reverse (f : reverseT -> res reverseT) : M service_env unit := fun s =>
  match f (backend_to_service (dp s)) with
  | Ok t => (Ok tt, set_dp (set_backend_to_service t (dp s)) s) | Throw e => (Throw e, s) | Undefined => (Undefined, s)
  end.
(** The protocol in network byte order, and a key. *)
Definition proto_be (s : Service) : Z := bswap16 (convertProtoToNumber (proto_ s)).
Definition service_key (s : Service) (index : Z) : res vip :=
  ip <~ ip_string_to_nbo_uint (vip_ s) ;; Ok (Vip ip (bswap16 (vport_ s)) (proto_be s) index).

Definition getBackend (ip : string) (s : Service) : res ServiceBackend :=
  match service_backends_ s !! ip with
  | Some b => Ok b
  | None => Throw (RuntimeError "There are no entries associated with that key")
  end.

Fixpoint write_slots (index : Z) (consistent_array : list string) : M service_env unit :=
  match consistent_array with
  | [] => ret tt
  | backend_ip :: rest =>
      let index := u16 (index + 1) in
      s <-- get ;;
      bck <-- lift (getBackend backend_ip (this s)) ;;
      key <-- lift (service_key (this s) index) ;;
      ip <-- lift (ip_string_to_nbo_uint (ip_ bck)) ;;
      let value := Backend ip (bswap16 (port_ bck)) (proto_be (this s)) in
      on_services (fun t => table_set t key value) ;;;
      on_reverse (fun t => table_set t value key) ;;;
      write_slots index rest
  end.
Definition updateKernelServiceMap (consistent_array : list string) : M service_env unit :=
  s <-- get ;;
  service_key <-- lift (service_key (this s) 0) ;;
  ip <-- lift (ip_string_to_nbo_uint (vip_ (this s))) ;;
  on_services (fun t => table_set t service_key (Backend ip (u16 (Z.of_nat (length consistent_array))) 0)) ;;;
  write_slots 0 consistent_array.
Definition updateConsistentHashMap : M service_env unit :=
  s <-- get ;;
  consistent_array <-- lift (getConsistentArray s) ;;
  updateKernelServiceMap consistent_array.
Definition removeServiceFromKernelMap : M service_env unit :=
  s <-- get ;;
  for_each (seqZ 0 (backend_size_ (this s) * BACKEND_REPLICAS)) (fun index =>
    key <-- lift (service_key (this s) index) ;; on_services (fun t => table_remove t key)).

(** ** Servers *)
Definition new_ServiceBackend (parent : service_object) (conf : ServiceBackendJson) : res ServiceBackend :=
  port <~ deref (j_port conf) ;;
  Ok (MkBackend parent (default 1 (j_weight conf)) port (j_ip conf) (default "" (j_name conf))).

Definition addBackend (ip : string) (conf : ServiceBackendJson) : M service_env unit :=
  s <-- get ;;
  match service_backends_ (this s) !! ip with
  | Some _ => throw (RuntimeError ("Backend " +:+ ip +:+ " already exists in the service map"))
  | None =>
      (match j_weight conf with
       | Some w => if (w <? 1) && negb (w =? 0) then throw (RuntimeError "Variable weight is in a wrong range. Supported range is from 1 to 100") else ret tt
       | None => ret tt
       end) ;;;
      (match service_backends_ (this s) !! j_ip conf with
       | Some _ => throw (RuntimeError "Unable to create the backend instance")
       | None =>
           b <-- lift (new_ServiceBackend (object (this s)) conf) ;;
           modify (fun s => set_this (set_backends (<[j_ip conf := b]> (service_backends_ (this s))) (this s)) s)
       end) ;;;
      addBackendToServiceMatrix ip ;;;
      updateConsistentHashMap
  end.
Definition addBackendList (conf : list ServiceBackendJson) : M service_env unit := for_each conf (fun i => addBackend (j_ip i) i).

Definition delBackend (ip : string) : M service_env unit :=
  s <-- get ;;
  match service_backends_ (this s) !! ip with
  | None => throw (RuntimeError "There are no entries associated with that key")
  | Some _ =>
      modify (fun s => set_this (set_backends (delete ip (service_backends_ (this s))) (this s)) s) ;;;
      removeBackendFromServiceMatrix ip ;;;
      s <-- get ;;
      if decide (service_backends_ (this s) = ∅) then
        modify (fun s => set_this (set_matrix ∅ (this s)) s) ;;; removeServiceFromKernelMap
      else updateConsistentHashMap
  end.
Definition delBackendList : M service_env unit :=
  s <-- get ;;
  if decide (service_backends_ (this s) = ∅) then ret tt
  else modify (fun s => set_this (set_matrix ∅ (set_backends ∅ (this s))) s) ;;; removeServiceFromKernelMap.
Definition replaceBackend (ip : string) (conf : ServiceBackendJson) : M service_env unit :=
  delBackend ip ;;; addBackend (j_ip conf) conf.
Definition replaceBackendList (conf : list ServiceBackendJson) : M service_env unit :=
  delBackendList ;;; addBackendList conf.

(** Methods of a server of this service. *)
Definition on_backend (ip : string) (f : ServiceBackend -> ServiceBackend) : M service_env unit :=
  modify (fun s => set_this (set_backends (alter f ip (service_backends_ (this s))) (this s)) s).
Definition setPort (ip : string) (value : Z) : M service_env unit :=
  on_backend ip (with_port value) ;;;
  s <-- get ;;
  b <-- lift (getBackend ip (this s)) ;;
  match parent_ b, object (this s) with
  | InMap, InMap | Local, Local => updateConsistentHashMap
  | _, _ => undefined   (* [parent_] is an object that is gone *)
  end.
Definition update_backend (ip : string) (conf : ServiceBackendJson) : M service_env unit :=
  match j_name conf with Some n => on_backend ip (with_name n) | None => ret tt end ;;;
  on_backend ip (with_weight (default 1 (j_weight conf))) ;;;
  match j_port conf with Some p => setPort ip p | None => ret tt end.

(** ** Services *)
Definition update (conf : ServiceJson) : M service_env unit :=
  match js_name conf with Some n => modify (fun s => set_this (set_service_name n (this s)) s) | None => ret tt end ;;;
  match js_backend conf with
  | Some l => for_each l (fun i => s <-- get ;; lift (getBackend (j_ip i) (this s)) ;;; update_backend (j_ip i) i)
  | None => ret tt
  end.
(** The object whose constructor runs is addService's local variable. *)
Definition service0 (conf : ServiceJson) : Service :=
  MkService ∅ ∅ (default "" (js_name conf)) (js_vip conf) (js_vport conf) (js_proto conf) INITIAL_BACKEND_SIZE Local.
Definition new_Service (conf : ServiceJson) (d : lb_dp) (n : nat) : res unit * service_env :=
  addBackendList (default [] (js_backend conf)) (ServiceEnv (service0 conf) d n).

(** * The services of the cube *)
Definition ServiceKey : Type := string * Z * Z.
Record Lbrp := MkLbrp { service_map_ : gmap ServiceKey Service; lb_tables : lb_dp; lb_moment : nat }.
Definition set_service_map (m : gmap ServiceKey Service) (s : Lbrp) : Lbrp := MkLbrp m (lb_tables s) (lb_moment s).
Definition key_of (vip : string) (vport : Z) (proto : ServiceProtoEnum) : ServiceKey := (vip, vport, convertProtoToNumber proto).

(** [getService(...)->m] *)
Definition on_service {A} (key : ServiceKey) (m : M service_env A) : M Lbrp A := fun s =>
  match service_map_ s !! key with
  | None => (Throw (RuntimeError "There are no entries associated with that key"), s)
  | Some svc =>
      let '(r, e) := m (ServiceEnv svc (lb_tables s) (lb_moment s)) in
      (r, MkLbrp (<[key := this e]> (service_map_ s)) (dp e) (moment e))
  end.

(** Below the case of ALL. *)
Definition add_one (vip : string) (vport : Z) (proto : ServiceProtoEnum) (conf : ServiceJson) : M Lbrp unit := fun s =>
  if (bool_decide (proto = P_ICMP)) && negb (js_vport conf =? ICMP_EBPF_PORT) then
    (Throw (RuntimeError "ICMP Service requires 0 as virtual port. Since this parameter is useless for ICMP services"), s)
  else
    match service_map_ s !! key_of vip vport proto with
    | Some _ => (Throw (RuntimeError "This service already exists"), s)
    | None =>
        let '(r, e) := new_Service conf (lb_tables s) (lb_moment s) in
        match r with
        | Ok _ => (Ok tt, MkLbrp (<[key_of vip vport proto := set_object InMap (this e)]> (service_map_ s)) (dp e) (moment e))
        | Throw x => (Throw x, MkLbrp (service_map_ s) (dp e) (moment e))
        | Undefined => (Undefined, s)
        end
    end.
Definition with_proto (p : ServiceProtoEnum) (c : ServiceJson) : ServiceJson := ServiceJ (js_vip c) (js_vport c) p (js_name c) (js_backend c).
Definition with_vport (v : Z) (c : ServiceJson) : ServiceJson := ServiceJ (js_vip c) v (js_proto c) (js_name c) (js_backend c).
Definition addService (vip : string) (vport : Z) (proto : ServiceProtoEnum) (conf : ServiceJson) : M Lbrp unit :=
  match proto with
  | P_ALL =>
      add_one vip vport P_TCP (with_proto P_TCP conf) ;;;
      add_one vip vport P_UDP (with_proto P_UDP conf) ;;;
      add_one vip ICMP_EBPF_PORT P_ICMP (with_vport ICMP_EBPF_PORT (with_proto P_ICMP conf))
  | _ => add_one vip vport proto conf
  end.
Definition addServiceList (conf : list ServiceJson) : M Lbrp unit :=
  for_each conf (fun i => addService (js_vip i) (js_vport i) (js_proto i) i).

Definition del_one (vip : string) (vport : Z) (proto : ServiceProtoEnum) : M Lbrp unit :=
  if (bool_decide (proto = P_ICMP)) && negb (vport =? ICMP_EBPF_PORT) then
    throw (RuntimeError "ICMP Service requires 0 as virtual port. Since this parameter is useless for ICMP services")
  else
    on_service (key_of vip vport proto) delBackendList ;;;
    modify (fun s => set_service_map (delete (key_of vip vport proto) (service_map_ s)) s).
Definition delService (vip : string) (vport : Z) (proto : ServiceProtoEnum) : M Lbrp unit :=
  match proto with
  | P_ALL => del_one vip vport P_TCP ;;; del_one vip vport P_UDP ;;; del_one vip ICMP_EBPF_PORT P_ICMP
  | _ => del_one vip vport proto
  end.
Definition delServiceList : M Lbrp unit :=
  s <-- get ;;
  for_each (iterate (lb_moment s) (service_map_ s)) (fun it => delService (vip_ it.2) (vport_ it.2) (proto_ it.2)).
Definition replaceService (vip : string) (vport : Z) (proto : ServiceProtoEnum) (conf : ServiceJson) : M Lbrp unit :=
  delService vip vport proto ;;; addService (js_vip conf) (js_vport conf) (js_proto conf) conf.
(** The services in [Lbrp::update]. *)
Definition update_services (conf : list ServiceJson) : M Lbrp unit :=
  for_each conf (fun i => on_service (key_of (js_vip i) (js_vport i) (js_proto i)) (update i)).

(** * Requests *)
Inductive lb_op :=
  | AddService (conf : ServiceJson)
  | AddServices (l : list ServiceJson)
  | DelService (vip : string) (vport : Z) (proto : ServiceProtoEnum)
  | DelServices
  | ReplaceService (conf : ServiceJson)
  | UpdateServices (l : list ServiceJson)
  | AddBackend (key : ServiceKey) (conf : ServiceBackendJson)
  | AddBackends (key : ServiceKey) (l : list ServiceBackendJson)
  | DelBackend (key : ServiceKey) (ip : string)
  | DelBackends (key : ServiceKey)
  | ReplaceBackend (key : ServiceKey) (conf : ServiceBackendJson)
  | ReplaceBackends (key : ServiceKey) (l : list ServiceBackendJson)
  | UpdateBackend (key : ServiceKey) (conf : ServiceBackendJson).
(** A path of the REST tree names what its body holds. *)
Definition run_op (op : lb_op) : M Lbrp unit :=
  match op with
  | AddService c => addService (js_vip c) (js_vport c) (js_proto c) c
  | AddServices l => addServiceList l
  | DelService vip vport proto => delService vip vport proto
  | DelServices => delServiceList
  | ReplaceService c => replaceService (js_vip c) (js_vport c) (js_proto c) c
  | UpdateServices l => update_services l
  | AddBackend key c => on_service key (addBackend (j_ip c) c)
  | AddBackends key l => on_service key (addBackendList l)
  | DelBackend key ip => on_service key (delBackend ip)
  | DelBackends key => on_service key delBackendList
  | ReplaceBackend key c => on_service key (replaceBackend (j_ip c) c)
  | ReplaceBackends key l => on_service key (replaceBackendList l)
  | UpdateBackend key c => on_service key (s <-- get ;; lift (getBackend (j_ip c) (this s)) ;;; update_backend (j_ip c) c)
  end.
End service.
