(* ===== verification/LbArray.v ===== *)
(** pcn-loadbalancer-rp, the consistent array: the weights give every server its share
    of the slots, and the walk over the rows fills every slot. *)
From Stdlib Require Import ZArith Lia Ascii String.
From stdpp Require Import base gmap list strings numbers sorting.
From S2P Require Import Prelude.
From S2P Require Import Bpf.
From S2P Require Import NetUtils.
From S2P Require Import Tables.
From S2P Require Import CubePorts.
From S2P Require Import LbDatapath.
From S2P Require Import LbService.
#[local] Open Scope Z_scope.
#[local] Open Scope cpp_scope.

(** * Rounding: an error of at most one part in 2^23 *)
Lemma nearest_spec n d : 0 < d -> 2 * Z.abs (nearest n d * d - n) <= d.
Proof.
  intros Hd. unfold nearest. pose proof (Z.div_mod n d ltac:(lia)) as E. pose proof (Z.mod_pos_bound n d Hd) as Hr.
  set (q := n / d) in *. set (r := n mod d) in *. destruct (Z.ltb_spec (2 * r) d); [nia|].
  destruct (Z.ltb_spec d (2 * r)); [nia|]. pose proof (Z.mod_pos_bound q 2 ltac:(lia)). nia.
Qed.

(** The scaled quotient has at least 23 bits. *)
Lemma scaled_large a b e : 0 < a -> 0 < b -> e <= Z.log2 a - Z.log2 b - 23 ->
  2 ^ 22 * (b * 2 ^ Z.max 0 e) <= a * 2 ^ Z.max 0 (- e).
Proof.
  intros Ha Hb He. pose proof (Z.log2_spec a Ha) as [Hla _]. pose proof (Z.log2_spec b Hb) as [_ Hlb].
  pose proof (Z.log2_nonneg a). pose proof (Z.log2_nonneg b).
  assert (2 ^ 22 * (2 ^ Z.succ (Z.log2 b) * 2 ^ Z.max 0 e) <= 2 ^ Z.log2 a * 2 ^ Z.max 0 (- e)) as Hp.
  { rewrite <- !Z.pow_add_r by lia. apply Z.pow_le_mono_r; lia. }
  assert (0 < 2 ^ Z.max 0 e) by (apply Z.pow_pos_nonneg; lia). assert (0 < 2 ^ Z.max 0 (- e)) by (apply Z.pow_pos_nonneg; lia). nia.
Qed.

Lemma den_pos x : 0 < den x.
Proof. unfold den. apply Z.pow_pos_nonneg; lia. Qed.

Lemma round_quotient_spec a b : 0 <= a -> 0 < b ->
  let r := round_quotient a b in
  0 <= num r /\ 2 ^ 23 * Z.abs (num r * b - a * den r) <= a * den r.
Proof.
  intros Ha Hb r. subst r. unfold round_quotient. destruct (Z.eqb_spec a 0) as [->|Hn].
  { unfold num, den. simpl. lia. }
  cbv zeta. set (e0 := Z.log2 a - Z.log2 b - 23).
  set (e := if a * 2 ^ Z.max 0 (- e0) <? 2 ^ 23 * (b * 2 ^ Z.max 0 e0) then e0 - 1 else e0).
  assert (e <= e0) as He by (subst e; destruct (_ <? _); lia).
  pose proof (scaled_large a b e ltac:(lia) Hb He) as Hs.
  assert (0 < 2 ^ Z.max 0 e) by (apply Z.pow_pos_nonneg; lia). assert (0 < 2 ^ Z.max 0 (- e)) by (apply Z.pow_pos_nonneg; lia).
  set (n := a * 2 ^ Z.max 0 (- e)) in *. set (d := b * 2 ^ Z.max 0 e) in *.
  assert (0 < d) as Hd by (subst d; nia).
  pose proof (nearest_spec n d Hd) as Hne. unfold num, den. cbn [mant expo].
  assert (0 <= nearest n d) by nia. split; [nia|].
  replace (nearest n d * 2 ^ Z.max 0 e * b - a * 2 ^ Z.max 0 (- e)) with (nearest n d * d - n) by (subst n d; ring).
  fold n. lia.
Qed.

(** ** Quotients that differ by at most [k] parts in 2^23 *)
Definition near (k p q a b : Z) : Prop := 2 ^ 23 * Z.abs (p * b - a * q) <= k * (a * q).

Lemma near_round k p q a b : 0 <= k <= 100 -> 0 <= p -> 0 < q -> 0 <= a -> 0 < b -> near k p q a b ->
  near (k + 2) (num (round_quotient p q)) (den (round_quotient p q)) a b.
Proof.
  intros Hk Hp Hq Ha Hb Hn. unfold near in *. destruct (round_quotient_spec p q Hp Hq) as [H0 H1].
  pose proof (den_pos (round_quotient p q)) as Hd. set (x := num _) in *. set (y := den _) in *. clearbody x y.
  (* both sides times q *)
  apply (Zmult_le_reg_r _ _ q); [lia|].
  assert (2 ^ 23 * Z.abs ((x * b - a * y) * q) <= (k + 2) * (a * q) * y) as Hg; [|rewrite Z.abs_mul, (Z.abs_eq q) in Hg by lia; lia].
  replace ((x * b - a * y) * q) with ((x * q - p * y) * b + (p * b - a * q) * y) by ring.
  assert (2 ^ 23 * Z.abs (x * q - p * y) * b <= p * b * y) as E1 by nia.
  assert (2 ^ 23 * Z.abs (p * b - a * q) * y <= k * (a * q) * y) as E2 by nia.
  assert (p * b * y <= 2 * (a * q) * y) as E3.
  { apply Z.mul_le_mono_nonneg_r; [lia|]. nia. }
  pose proof (Z.abs_triangle ((x * q - p * y) * b) ((p * b - a * q) * y)) as Ht. rewrite !Z.abs_mul, (Z.abs_eq b), (Z.abs_eq y) in Ht by lia. nia.
Qed.

Lemma near_mul k l p q a b p' q' a' b' :
  0 <= k <= 100 -> 0 <= l <= 100 -> 0 <= a * q -> 0 <= a' * q' ->
  near k p q a b -> near l p' q' a' b' -> near (k + l + 1) (p * p') (q * q') (a * a') (b * b').
Proof.
  unfold near. intros Hk Hl HY HY' H1 H2.
  replace (p * p' * (b * b')) with ((p * b) * (p' * b')) by ring. replace (a * a' * (q * q')) with ((a * q) * (a' * q')) by ring.
  set (X := p * b) in *. set (Y := a * q) in *. set (X' := p' * b') in *. set (Y' := a' * q') in *. clearbody X Y X' Y'.
  replace (X * X' - Y * Y') with ((X - Y) * X' + Y * (X' - Y')) by ring.
  pose proof (Z.abs_triangle ((X - Y) * X') (Y * (X' - Y'))) as Ht. rewrite !Z.abs_mul, (Z.abs_eq Y) in Ht by lia.
  assert (2 ^ 23 * Z.abs X' <= (2 ^ 23 + l) * Y') as HX by lia.
  assert ((2 ^ 23 * Z.abs (X - Y)) * (2 ^ 23 * Z.abs X') <= (k * Y) * ((2 ^ 23 + l) * Y')) as E1 by (apply Z.mul_le_mono_nonneg; lia).
  assert (2 ^ 23 * (Y * Z.abs (X' - Y')) <= l * (Y * Y')) as E2 by nia.
  assert (0 <= Y * Y') as HYY by nia. assert (k * l <= 100 * 100) as Hkl by nia.
  apply (Zmult_le_reg_r _ _ (2 ^ 23)); [lia|].
  assert ((k * Y) * ((2 ^ 23 + l) * Y') = (2 ^ 23 * k + k * l) * (Y * Y')) as E by ring. rewrite E in E1.
  set (U := Z.abs (X - Y) * Z.abs X') in *. set (V := Y * Z.abs (X' - Y')) in *. set (W := Y * Y') in *.
  replace (2 ^ 23 * Z.abs (X - Y) * (2 ^ 23 * Z.abs X')) with (2 ^ 23 * 2 ^ 23 * U) in E1 by (subst U; ring).
  assert ((k * l) * W <= 2 ^ 23 * W) as E3 by nia. clearbody U V W. lia.
Qed.

Lemma near_inv k p q a b : 0 <= k <= 100 -> 0 < p * b -> 0 < a * q -> near k p q a b -> near (k + 1) q p b a.
Proof.
  unfold near. intros Hk HX HY Hn. replace (q * a - b * p) with (- (p * b - a * q)) by ring. rewrite Z.abs_opp.
  replace (b * p) with (p * b) by ring. set (X := p * b) in *. set (Y := a * q) in *. clearbody X Y.
  assert (2 ^ 23 * X >= (2 ^ 23 - k) * Y) as H1 by lia.
  assert ((k + 1) * (2 ^ 23 * X) >= (k + 1) * ((2 ^ 23 - k) * Y)) as H2 by nia.
  assert ((k + 1) * (2 ^ 23 - k) >= 2 ^ 23 * k) as H3 by nia. nia.
Qed.

Lemma near_float x : 0 <= x -> near 1 (num (float_of_int x)) (den (float_of_int x)) x 1.
Proof.
  intros Hx. unfold near, float_of_int. destruct (round_quotient_spec x 1 Hx ltac:(lia)) as [_ H]. by rewrite Z.mul_1_l.
Qed.
Lemma near_pos k p q a b : 0 <= k <= 100 -> 0 < a * q -> 0 < b -> near k p q a b -> 0 < p.
Proof. unfold near. nia. Qed.

(** What a weight of [w] out of [sum] gets of [n] slots, before the alignment. *)
Definition portion (n sum w : Z) : Z := int_of_float (fmul (float_of_int w) (fdiv (float_of_int n) (float_of_int sum))).

Lemma portion_spec n sum w : 0 < n -> 0 < sum -> 0 < w ->
  0 <= portion n sum w /\ 2 ^ 23 * (portion n sum w * sum) <= (2 ^ 23 + 10) * (n * w) /\
  (2 ^ 23 - 10) * (n * w) < 2 ^ 23 * ((portion n sum w + 1) * sum).
Proof.
  intros Hn Hs Hw. unfold portion, int_of_float, fmul, fdiv.
  set (A := float_of_int n). set (S := float_of_int sum). set (W := float_of_int w).
  pose proof (near_float n ltac:(lia)) as HA. pose proof (near_float sum ltac:(lia)) as HS. pose proof (near_float w ltac:(lia)) as HW.
  fold A in HA. fold S in HS. fold W in HW. pose proof (den_pos A). pose proof (den_pos S). pose proof (den_pos W).
  assert (0 < num A) by (apply (near_pos 1 _ (den A) n 1); [lia|nia|lia|done]).
  assert (0 < num S) by (apply (near_pos 1 _ (den S) sum 1); [lia|nia|lia|done]).
  assert (0 < num W) by (apply (near_pos 1 _ (den W) w 1); [lia|nia|lia|done]).
  assert (near 2 (den S) (num S) 1 sum) as HS' by (apply (near_inv 1); [lia|nia|nia|done]).
  assert (near 4 (num A * den S) (den A * num S) (n * 1) (1 * sum)) as G1 by (apply (near_mul 1 2); [lia|lia|nia|nia|done|done]).
  set (C := round_quotient (num A * den S) (den A * num S)).
  assert (near 6 (num C) (den C) (n * 1) (1 * sum)) as G2 by (apply (near_round 4); [lia|nia|nia|lia|lia|done]).
  pose proof (den_pos C). assert (0 < num C) by (apply (near_pos 6 _ (den C) (n * 1) (1 * sum)); [lia|nia|lia|done]).
  assert (near 8 (num W * num C) (den W * den C) (w * (n * 1)) (1 * (1 * sum))) as G3 by (apply (near_mul 1 6); [lia|lia|nia|nia|done|done]).
  set (P := round_quotient (num W * num C) (den W * den C)).
  assert (near 10 (num P) (den P) (w * (n * 1)) (1 * (1 * sum))) as G4 by (apply (near_round 8); [lia|nia|nia|nia|lia|done]).
  pose proof (den_pos P) as HP. assert (0 < num P) as Hx by (apply (near_pos 10 _ (den P) (w * (n * 1)) (1 * (1 * sum))); [lia|nia|lia|done]).
  clear - G4 HP Hx Hn Hs Hw. clearbody P.
  pose proof (Z.div_mod (num P) (den P) ltac:(lia)) as E. pose proof (Z.mod_pos_bound (num P) (den P) HP) as Hm.
  set (q := num P / den P) in *. unfold near in G4. set (d := den P) in *. set (x := num P) in *. clearbody d x q.
  replace (w * (n * 1)) with (n * w) in G4 by ring. replace (1 * (1 * sum)) with sum in G4 by ring.
  assert (0 <= q) by nia. split; [done|].
  assert (2 ^ 23 * (x * sum) <= (2 ^ 23 + 10) * (n * w) * d /\ (2 ^ 23 - 10) * (n * w) * d <= 2 ^ 23 * (x * sum)) as [G3 G5] by lia.
  split.
  - apply (Zmult_le_reg_r _ _ d); [lia|]. assert (q * sum * d <= x * sum) by nia. lia.
  - apply (Zmult_gt_0_lt_reg_r _ _ d); [lia|]. assert (x * sum < (q + 1) * sum * d) by nia. lia.
Qed.

(** * Sums *)
Definition zsum {A} (f : A -> Z) (l : list A) : Z := foldr (fun x acc => f x + acc) 0 l.
Lemma zsum_nonneg {A} (f : A -> Z) l : Forall (fun x => 0 <= f x) l -> 0 <= zsum f l.
Proof. induction 1; simpl; lia. Qed.
Lemma zsum_bound {A} (f : A -> Z) c l : Forall (fun x => f x <= c) l -> zsum f l <= c * Z.of_nat (length l).
Proof. induction 1; simpl; lia. Qed.
Lemma zsum_ext {A} (f g : A -> Z) l : Forall (fun x => f x = g x) l -> zsum f l = zsum g l.
Proof. induction 1 as [|x l E _ IH]; simpl; [done|]. by rewrite E, IH. Qed.
Lemma zsum_elem {A} (f : A -> Z) x l : Forall (fun x => 0 <= f x) l -> x ∈ l -> f x <= zsum f l.
Proof.
  induction 1 as [|y l Hy Hl IH]; [by intros ?%elem_of_nil|]. simpl. pose proof (zsum_nonneg f l Hl).
  intros [->|Hx]%elem_of_cons; [lia|]. specialize (IH Hx). lia.
Qed.

(** * The slots that the weights give *)
Section weights.
Implicit Types (l : list (string * ServiceBackend)) (pool : gmap string Z).

Definition weight_sum l : Z := zsum (fun p => weight_ p.2) l.
(** What the second loop gives to a server with a weight: never nothing. *)
Definition raw_share (n sum w : Z) : Z := if portion n sum w =? 0 then portion n sum w + 1 else portion n sum w.
Definition raw_sum (n sum : Z) l : Z := zsum (fun p => if weight_ p.2 =? 0 then 0 else raw_share n sum (weight_ p.2)) l.
(** How many servers have a weight. *)
Definition weighted l : Z := zsum (fun p => if weight_ p.2 =? 0 then 0 else 1) l.
Definition given pool (names : list string) : Z := zsum (fun k => default 0 (pool !! k)) names.

Definition weights_ok l : Prop :=
  NoDup l.*1 /\ Forall (fun p => 0 <= weight_ p.2 < 2 ^ 16) l /\ Z.of_nat (length l) <= 1000.

Lemma int32_ok x : - 2 ^ 31 <= x < 2 ^ 31 -> int32 x = Ok x.
Proof.
  intros Hx. unfold int32. destruct (Z.leb_spec (- 2 ^ 31) x); [|lia]. by destruct (Z.ltb_spec x (2 ^ 31)); [|lia].
Qed.

Lemma sum_run l acc : Forall (fun p => 0 <= weight_ p.2 < 2 ^ 16) l -> 0 <= acc -> acc + 2 ^ 16 * Z.of_nat (length l) < 2 ^ 31 ->
  for_each_res l (fun sum p => int32 (sum + weight_ p.2)) acc = Ok (acc + weight_sum l).
Proof.
  intros Hw. revert acc. induction Hw as [|p l Hp Hl IH]; intros acc Ha Hb; cbn [for_each_res]; [unfold weight_sum; simpl; f_equal; lia|].
  cbn [length] in Hb. rewrite int32_ok by lia. cbn [res_bind]. rewrite IH by lia. unfold weight_sum. simpl. f_equal. lia.
Qed.

Definition pool_step (n sum : Z) : gmap string Z * Z -> string * ServiceBackend -> res (gmap string Z * Z) :=
  fun '(pool, total) p =>
    if weight_ p.2 =? 0 then Ok (pool, total)
    else total <~ int32 (total + raw_share n sum (weight_ p.2)) ;; Ok (<[p.1 := raw_share n sum (weight_ p.2)]> pool, total).

Lemma pool_run n sum l : NoDup l.*1 -> forall pool total,
  Forall (fun p => weight_ p.2 <> 0 -> 0 <= raw_share n sum (weight_ p.2) <= 2 ^ 16) l ->
  0 <= total -> total + 2 ^ 16 * Z.of_nat (length l) < 2 ^ 31 ->
  exists pool', for_each_res l (pool_step n sum) (pool, total) = Ok (pool', total + raw_sum n sum l) /\
    (forall p, p ∈ l -> pool' !! p.1 = if weight_ p.2 =? 0 then pool !! p.1 else Some (raw_share n sum (weight_ p.2))) /\
    (forall k, k ∉ l.*1 -> pool' !! k = pool !! k).
Proof.
  induction l as [|p l IH]; intros Hd pool total Hr Ht Hb; cbn [for_each_res].
  { exists pool. unfold raw_sum. simpl. split; [f_equal; f_equal; lia|]. split; [by intros ? ?%elem_of_nil|done]. }
  simpl in Hd. apply list.NoDup_cons in Hd as [Hp Hd]. apply list.Forall_cons in Hr as [Hrp Hr]. cbn [length] in Hb.
  change (raw_sum n sum (p :: l)) with ((if weight_ p.2 =? 0 then 0 else raw_share n sum (weight_ p.2)) + raw_sum n sum l).
  assert (pool_step n sum (pool, total) p = if weight_ p.2 =? 0 then Ok (pool, total)
    else total <~ int32 (total + raw_share n sum (weight_ p.2)) ;; Ok (<[p.1 := raw_share n sum (weight_ p.2)]> pool, total)) as -> by done.
  destruct (Z.eqb_spec (weight_ p.2) 0) as [Ew|Ew]; cbn [res_bind].
  - destruct (IH Hd pool total Hr Ht ltac:(lia)) as (pool' & -> & H1 & H2). exists pool'. split; [f_equal; f_equal; lia|]. split.
    + intros q [->|Hq]%elem_of_cons; [rewrite Ew; simpl; by apply H2|by apply H1].
    + intros k [_ Hk]%not_elem_of_cons. by apply H2.
  - specialize (Hrp Ew). rewrite int32_ok by lia. cbn [res_bind].
    destruct (IH Hd (<[p.1 := raw_share n sum (weight_ p.2)]> pool) (total + raw_share n sum (weight_ p.2)) Hr ltac:(lia) ltac:(lia))
      as (pool' & -> & H1 & H2). exists pool'. split; [f_equal; f_equal; lia|]. split.
    + intros q [->|Hq]%elem_of_cons.
      * destruct (Z.eqb_spec (weight_ p.2) 0); [done|]. rewrite H2 by done. by rewrite lookup_insert_eq.
      * rewrite H1 by done. assert (p.1 <> q.1) by (intros E; apply Hp; rewrite E; apply list_elem_of_fmap; eauto). by rewrite lookup_insert_ne.
    + intros k [Hk1 Hk]%not_elem_of_cons. rewrite H2 by done. by rewrite lookup_insert_ne.
Qed.

Lemma given_cons pool (p : string * ServiceBackend) l : given pool (p :: l).*1 = default 0 (pool !! p.1) + given pool l.*1.
Proof. done. Qed.

(** One round gives what is left, one slot to a server, when there are enough. *)
Lemma align_round_run l : NoDup l.*1 -> forall pool res, 0 < res <= weighted l ->
  exists pool', align_round l pool res = (pool', 0) /\ given pool' l.*1 = given pool l.*1 + res /\
    (forall p, p ∈ l -> pool' !! p.1 = pool !! p.1 \/ (weight_ p.2 <> 0 /\ pool' !! p.1 = Some (default 0 (pool !! p.1) + 1))) /\
    (forall k, k ∉ l.*1 -> pool' !! k = pool !! k).
Proof.
  induction l as [|[ip b] l IH]; intros Hd pool res Hres; [unfold weighted in Hres; simpl in Hres; lia|].
  simpl in Hd. apply list.NoDup_cons in Hd as [Hp Hd]. unfold weighted in Hres. simpl in Hres. fold (weighted l) in Hres.
  assert (forall pool pool' : gmap string Z, (forall k, k ∉ l.*1 -> pool' !! k = pool !! k) -> default 0 (pool' !! ip) = default 0 (pool !! ip)) as Hsame.
  { intros q q' Hq. by rewrite Hq. }
  assert (forall v, given (<[ip := v]> pool) l.*1 = given pool l.*1) as Hins.
  { intros v. apply zsum_ext, list.Forall_forall. intros k Hk. by rewrite lookup_insert_ne by (intros ->; done). }
  cbn [align_round]. destruct (Z.eqb_spec (weight_ b) 0) as [Ew|Ew].
  - destruct (IH Hd pool res ltac:(lia)) as (pool' & -> & Hg & H1 & H2). exists pool'. split; [done|]. split; [|split].
    + rewrite !given_cons. cbn [fst]. rewrite (Hsame pool pool' H2). lia.
    + intros p [->|Hq]%elem_of_cons; [left; by apply H2|by apply H1].
    + intros k [_ Hk]%not_elem_of_cons. by apply H2.
  - destruct (Z.eqb_spec (res - 1) 0) as [Er|Er].
    + eexists. split; [done|]. split; [|split].
      * rewrite !given_cons. cbn [fst]. rewrite lookup_insert_eq, Hins. simpl. lia.
      * intros p [->|Hq]%elem_of_cons; [right; split; [done|]; apply lookup_insert_eq|left].
        apply lookup_insert_ne. intros ->. apply Hp, list_elem_of_fmap. eauto.
      * intros k [Hk _]%not_elem_of_cons. by rewrite lookup_insert_ne.
    + destruct (IH Hd (<[ip := default 0 (pool !! ip) + 1]> pool) (res - 1) ltac:(lia)) as (pool' & -> & Hg & H1 & H2).
      exists pool'. split; [done|]. split; [|split].
      * rewrite !given_cons. cbn [fst]. rewrite (Hsame _ _ H2), lookup_insert_eq, Hg, Hins. simpl. lia.
      * intros p [->|Hq]%elem_of_cons; [right; split; [done|]; rewrite H2 by done; apply lookup_insert_eq|].
        assert (ip <> p.1) by (intros ->; apply Hp, list_elem_of_fmap; eauto). destruct (H1 p Hq) as [E|[? E]]; rewrite E, lookup_insert_ne by done; auto.
      * intros k [Hk1 Hk]%not_elem_of_cons. rewrite H2 by done. by rewrite lookup_insert_ne.
Qed.

Lemma raw_share_spec n sum w : 0 < n <= 3000 -> 0 < w <= sum ->
  1 <= raw_share n sum w <= n + 1 /\ (2 ^ 23 - 10) * (n * w) < 2 ^ 23 * ((raw_share n sum w + 1) * sum) /\
  (sum <= n * w -> 2 ^ 23 * (raw_share n sum w * sum) <= (2 ^ 23 + 10) * (n * w)).
Proof.
  intros Hn Hw. destruct (portion_spec n sum w) as (H0 & H1 & H2); [lia..|].
  assert (portion n sum w <= n).
  { apply Z.nlt_ge. intros Hgt. assert (2 ^ 23 * ((n + 1) * sum) <= 2 ^ 23 * (portion n sum w * sum)) by nia.
    assert ((2 ^ 23 + 10) * (n * w) <= (2 ^ 23 + 10) * (n * sum)) by nia. nia. }
  unfold raw_share. destruct (Z.eqb_spec (portion n sum w) 0) as [E|E].
  - rewrite E in *. split; [lia|]. split; nia.
  - split; [lia|]. split; [done|]. by intros _.
Qed.

Lemma weight_le_sum p l : Forall (fun p => 0 <= weight_ p.2 < 2 ^ 16) l -> p ∈ l -> 0 <= weight_ p.2 <= weight_sum l.
Proof.
  intros Hw Hp. split; [by apply (proj1 (list.Forall_forall _ _) Hw)|].
  apply (zsum_elem (fun p => weight_ p.2)); [|done]. eapply list.Forall_impl; [exact Hw|]. simpl. lia.
Qed.

Lemma zsum_cons {A} (f : A -> Z) x (xs : list A) : zsum f (x :: xs) = f x + zsum f xs.
Proof. done. Qed.

(** The shares together make up the slots, and little more. *)
Lemma raw_sum_lower n sum l : 0 < n <= 3000 -> Forall (fun p => 0 <= weight_ p.2 <= sum) l ->
  (2 ^ 23 - 10) * (n * weight_sum l) <= 2 ^ 23 * ((raw_sum n sum l + weighted l) * sum).
Proof.
  intros Hn. unfold weight_sum, raw_sum, weighted. induction 1 as [|p l Hp Hl IH]; [simpl; lia|]. rewrite !zsum_cons.
  destruct (Z.eqb_spec (weight_ p.2) 0) as [E|E]; [rewrite E; lia|].
  destruct (raw_share_spec n sum (weight_ p.2)) as (_ & H & _); [lia..|]. lia.
Qed.
Lemma raw_sum_upper n sum l : 0 < n <= 3000 -> Forall (fun p => 0 <= weight_ p.2 <= sum) l ->
  (forall p, p ∈ l -> weight_ p.2 <> 0 -> sum <= n * weight_ p.2) ->
  2 ^ 23 * (raw_sum n sum l * sum) <= (2 ^ 23 + 10) * (n * weight_sum l).
Proof.
  intros Hn Hl Hbig. unfold weight_sum, raw_sum. induction Hl as [|p l Hp Hl IH]; [simpl; lia|]. rewrite !zsum_cons.
  specialize (IH (fun q Hq => Hbig q (list_elem_of_further _ _ _ Hq))).
  destruct (Z.eqb_spec (weight_ p.2) 0) as [E|E]; [rewrite E; lia|].
  destruct (raw_share_spec n sum (weight_ p.2)) as (_ & _ & H); [lia..|].
  specialize (H (Hbig p (list_elem_of_here _ _) E)). lia.
Qed.

(** [get_weight_backend]: every server with a weight gets its share or one slot more,
    all slots are given, and no more when no weight is tiny. *)
Lemma get_weight_backend_run n l : weights_ok l -> 0 < n <= 3000 -> (exists p, p ∈ l /\ weight_ p.2 <> 0) ->
  exists pool, get_weight_backend l n = Ok pool /\
    (forall k, k ∉ (filter (fun p => weight_ p.2 <> 0) l).*1 -> pool !! k = None) /\
    (forall p, p ∈ l -> weight_ p.2 <> 0 ->
       let r := raw_share n (weight_sum l) (weight_ p.2) in pool !! p.1 = Some r \/ pool !! p.1 = Some (r + 1)) /\
    n <= given pool l.*1 /\ (raw_sum n (weight_sum l) l <= n -> given pool l.*1 = n).
Proof.
  intros (Hd & Hw & Hlen) Hn (p0 & Hp0 & Hw0).
  assert (forall p, p ∈ l -> 0 <= weight_ p.2 <= weight_sum l) as Hle' by (intros p Hp; by apply weight_le_sum).
  assert (Forall (fun p => 0 <= weight_ p.2 <= weight_sum l) l) as Hle by by apply list.Forall_forall.
  assert (0 < weight_sum l) as Hpos.
  { specialize (Hle' p0 Hp0). lia. }
  unfold get_weight_backend. rewrite sum_run by (done || lia). cbn [res_bind]. rewrite Z.add_0_l.
  destruct (pool_run n (weight_sum l) l Hd ∅ 0) as (pool & Hrun & H1 & H2); [|lia|lia|].
  { apply list.Forall_forall. intros p Hp E. specialize (Hle' p Hp).
    destruct (raw_share_spec n (weight_sum l) (weight_ p.2)); lia. }
  match goal with |- context [for_each_res l ?f ?a] => change (for_each_res l f a) with (for_each_res l (pool_step n (weight_sum l)) (∅, 0)) end.
  rewrite Hrun. cbn [res_bind]. rewrite Z.add_0_l.
  assert (forall k, k ∉ (filter (fun p => weight_ p.2 <> 0) l).*1 -> pool !! k = None) as Hnone.
  { intros k Hk. destruct (decide (k ∈ l.*1)) as [Hin|Hin]; [|by rewrite H2].
    apply list_elem_of_fmap in Hin as (p & -> & Hp). rewrite H1 by done. destruct (Z.eqb_spec (weight_ p.2) 0); [done|].
    destruct Hk. apply list_elem_of_fmap. exists p. split; [done|]. by apply list_elem_of_filter. }
  assert (given pool l.*1 = raw_sum n (weight_sum l) l) as Hgiven.
  { unfold given, raw_sum. clear - H1. assert (forall p, p ∈ l -> default 0 (pool !! p.1) = if weight_ p.2 =? 0 then 0 else raw_share n (weight_sum l) (weight_ p.2)) as H.
    { intros p Hp. rewrite H1 by done. by destruct (weight_ p.2 =? 0). }
    revert H. generalize (weight_sum l). intros sum H. clear H1. induction l as [|p l IH]; [done|]. cbn [fmap list_fmap]. rewrite !zsum_cons, (H p) by by left.
    f_equal. apply IH. intros q Hq. apply H. by right. }
  pose proof (raw_sum_lower n (weight_sum l) l Hn Hle) as Hlow.
  assert (n <= raw_sum n (weight_sum l) l + weighted l) as Hlow'.
  { apply Z.nlt_ge. intros Hgt. assert (2 ^ 23 * ((raw_sum n (weight_sum l) l + weighted l) * weight_sum l) <= 2 ^ 23 * ((n - 1) * weight_sum l)) by nia.
    nia. }
  set (total := raw_sum n (weight_sum l) l) in *. destruct (decide (0 < n - total)) as [Hres|Hres].
  - destruct (align_round_run l Hd pool (n - total) ltac:(lia)) as (pool' & Hal & Hg & H3 & H4). exists pool'.
    destruct (Z.to_nat (n - total)) as [|fuel] eqn:Ef; [lia|]. cbn [align]. destruct (Z.ltb_spec 0 (n - total)); [|lia]. rewrite Hal.
    split; [by destruct fuel|]. split; [|split].
    + intros k Hk. destruct (decide (k ∈ l.*1)) as [Hin|Hin]; [|rewrite H4 by done; by apply Hnone].
      apply list_elem_of_fmap in Hin as (p & -> & Hp). destruct (H3 p Hp) as [E|[E _]]; [rewrite E; by apply Hnone|].
      destruct Hk. apply list_elem_of_fmap. exists p. split; [done|]. by apply list_elem_of_filter.
    + intros p Hp E. cbv zeta. specialize (H1 p Hp). destruct (Z.eqb_spec (weight_ p.2) 0); [done|]. destruct (H3 p Hp) as [E3|[_ E3]]; rewrite H1 in E3; auto.
    + split; lia.
  - exists pool. split; [|split; [done|split]].
    + destruct (Z.to_nat (n - total)); cbn [align]; by destruct (Z.ltb_spec 0 (n - total)); [lia|].
    + intros p Hp E. cbv zeta. specialize (H1 p Hp). destruct (Z.eqb_spec (weight_ p.2) 0); [done|]. by left.
    + split; lia.
Qed.
End weights.

(** * Filling the array *)
Definition FREE : string := "-1".
Definition occ (k : string) (arr : list string) : Z := zsum (fun x => if decide (x = k) then 1 else 0) arr.
Definition room (k : string) (w : gmap string Z) : Z := default 0 (w !! k).

Lemma occ_bounds k arr : 0 <= occ k arr <= Z.of_nat (length arr).
Proof.
  split; [apply zsum_nonneg, list.Forall_forall; intros x _; by case_decide|].
  pose proof (zsum_bound (fun x => if decide (x = k) then 1 else 0) 1 arr) as H. unfold occ. rewrite Z.mul_1_l in H. apply H.
  apply list.Forall_forall. intros x _. by case_decide.
Qed.
Lemma occ_cons k x arr : occ k (x :: arr) = (if decide (x = k) then 1 else 0) + occ k arr.
Proof. done. Qed.
Lemma occ_insert arr i x y k : arr !! i = Some x ->
  occ k (<[i := y]> arr) = occ k arr - (if decide (x = k) then 1 else 0) + (if decide (y = k) then 1 else 0).
Proof.
  revert i. induction arr as [|z arr IH]; intros [|i] Hi; try done; cbn in Hi.
  - injection Hi as ->. change (<[0%nat := y]> (x :: arr)) with (y :: arr). rewrite !occ_cons. lia.
  - change (<[S i := y]> (z :: arr)) with (z :: <[i := y]> arr). rewrite !occ_cons, (IH i Hi). lia.
Qed.
Lemma occ_zero k arr : occ k arr = 0 <-> k ∉ arr.
Proof.
  induction arr as [|z arr IH]; [split; [intros _; apply not_elem_of_nil|done]|]. rewrite occ_cons, not_elem_of_cons.
  pose proof (proj1 (occ_bounds k arr)) as Hb. case_decide as E.
  - subst. split; [lia|naive_solver].
  - rewrite Z.add_0_l, IH. naive_solver.
Qed.
Lemma occ_replicate k m : occ k (replicate m FREE) = if decide (k = FREE) then Z.of_nat m else 0.
Proof.
  induction m as [|m IH]; [by case_decide|]. cbn [replicate]. rewrite occ_cons, IH. repeat case_decide; subst; try congruence; lia.
Qed.
(** The slots of some names are those that hold one of them. *)
Lemma occ_sum names arr : NoDup names -> zsum (fun k => occ k arr) names = zsum (fun x => if decide (x ∈ names) then 1 else 0) arr.
Proof.
  induction 1 as [|k names Hk Hd IH].
  - induction arr as [|x arr IH]; [done|]. rewrite zsum_cons, <- IH. cbn beta.
    by rewrite decide_False by apply not_elem_of_nil.
  - rewrite zsum_cons, IH. unfold occ. clear IH. induction arr as [|x arr IH]; [done|]. rewrite !zsum_cons, <- IH. cbn beta.
    destruct (decide (x = k)) as [->|Hne].
    + rewrite (decide_False (P := k ∈ names)), (decide_True (P := k ∈ k :: names)) by (done || by left). lia.
    + destruct (decide (x ∈ names)) as [Hx|Hx]; [rewrite (decide_True (P := x ∈ k :: names)) by (by right); lia|].
      rewrite (decide_False (P := x ∈ k :: names)) by by intros [?|?]%elem_of_cons. lia.
Qed.

Lemma occ_free_less (names arr : list string) :
  (forall k, k ∈ names -> k <> FREE) -> FREE ∈ arr -> zsum (fun x => if decide (x ∈ names) then 1 else 0) arr < Z.of_nat (length arr).
Proof.
  intros Hne Ha. assert (zsum (fun x => if decide (x ∈ names) then 1 else 0) arr + occ FREE arr <= Z.of_nat (length arr)) as Hb.
  - clear Ha. induction arr as [|x arr IH]; [done|]. rewrite zsum_cons, occ_cons. cbn beta. cbn [length].
    destruct (decide (x = FREE)) as [->|]; [rewrite decide_False by (intros Hk; by destruct (Hne _ Hk))|]; [lia|case_decide; lia].
  - pose proof (occ_bounds FREE arr). destruct (decide (occ FREE arr = 0)) as [E|]; [by apply occ_zero in E|lia].
Qed.

Section filling.
Context (n : Z) (rows : list (string * list Z)).
Hypothesis n_pos : 0 < n.

Definition full_row (row : string * list Z) : Prop := row.2 ≡ₚ seqZ 0 n.
Definition empty_row (row : string * list Z) : Prop := row.2 = replicate (Z.to_nat n) (-2).
Hypothesis rows_ok : Forall (fun row => (full_row row \/ empty_row row) /\ row.1 <> FREE) rows.

Record filling_ok (w0 : gmap string Z) (f : filling) : Prop := {
  fo_length : Z.of_nat (length (final f)) = n;
  fo_count : count f = n - occ FREE (final f);
  fo_shares k : k <> FREE -> occ k (final f) + room k (weights f) = room k w0;
  fo_room k : 0 <= room k (weights f);
  fo_names x : x ∈ final f -> x = FREE \/ exists row, row ∈ rows /\ full_row row /\ row.1 = x;
}.
Definition extends (f f' : filling) : Prop :=
  (forall i x, final f !! i = Some x -> x <> FREE -> final f' !! i = Some x) /\ (forall k, room k (weights f') <= room k (weights f)).
(** Column [j] has nothing more to do for a row. *)
Definition done_at (j : Z) (row : string * list Z) (f : filling) : Prop :=
  full_row row -> room row.1 (weights f) = 0 \/
  exists num x, row.2 !! Z.to_nat j = Some num /\ final f !! Z.to_nat num = Some x /\ x <> FREE.

Lemma extends_refl f : extends f f.
Proof. by split. Qed.
Lemma extends_trans f g h : extends f g -> extends g h -> extends f h.
Proof. intros [H1 H2] [H3 H4]. split; [eauto|]. intros k. specialize (H2 k). specialize (H4 k). lia. Qed.
Lemma done_at_extends w0 j row f f' : filling_ok w0 f' -> extends f f' -> done_at j row f -> done_at j row f'.
Proof.
  intros Hok [Hf Hr] Hd Hrow. destruct (Hd Hrow) as [E|(num & x & H1 & H2 & H3)].
  - left. specialize (Hr row.1). pose proof (fo_room w0 f' Hok row.1). lia.
  - right. exists num, x. by eauto.
Qed.

Lemma full_row_lookup row i : full_row row -> 0 <= i < n -> exists num, row.2 !! Z.to_nat i = Some num /\ 0 <= num < n.
Proof.
  intros Hrow Hi. unfold full_row in Hrow. assert (length row.2 = Z.to_nat n) as Hl by (rewrite Hrow, length_seqZ; lia).
  destruct (lookup_lt_is_Some_2 row.2 (Z.to_nat i)) as [num Hn]; [lia|]. exists num. split; [done|].
  apply list_elem_of_lookup_2 in Hn. rewrite Hrow in Hn. apply elem_of_seqZ in Hn. lia.
Qed.
Lemma vec_get_lookup {A} (l : list A) i x : 0 <= i -> l !! Z.to_nat i = Some x -> vec_get l i = Ok x.
Proof. intros Hi Hl. unfold vec_get. rewrite Hl. by destruct (Z.leb_spec 0 i); [|lia]. Qed.

(** The walk ends, at the slot it starts from if that is free. *)
Lemma walk_row_full row j final fuel index :
  full_row row -> Z.of_nat (length final) = n -> 0 <= index < n -> n - index <= Z.of_nat fuel ->
  (walk_row fuel final n j row.2 index = Ok (W_next j) /\
     exists num x, row.2 !! Z.to_nat index = Some num /\ final !! Z.to_nat num = Some x /\ x <> FREE) \/
  exists k num, walk_row fuel final n j row.2 index = Ok (W_free num) /\ row.2 !! k = Some num /\ 0 <= num < n /\
     final !! Z.to_nat num = Some FREE /\
     (k = Z.to_nat index \/ exists num x, row.2 !! Z.to_nat index = Some num /\ final !! Z.to_nat num = Some x /\ x <> FREE).
Proof.
  intros Hrow Hl. revert index. induction fuel as [|fuel IH]; intros index Hi Hf; [lia|]. cbn [walk_row].
  destruct (full_row_lookup row index Hrow Hi) as (num & Hnum & Hr). rewrite (vec_get_lookup _ _ num) by (lia || done). cbn [res_bind].
  destruct (Z.eqb_spec num (-2)); [lia|]. destruct (lookup_lt_is_Some_2 final (Z.to_nat num)) as [x Hx]; [lia|].
  unfold vec_at. rewrite (vec_get_lookup _ _ x) by (lia || done). cbn [res_bind]. destruct (String.eqb_spec x "-1") as [->|Hne]; cbn [negb].
  - right. exists (Z.to_nat index), num. repeat (split; [done|]). by left.
  - destruct (Z.leb_spec n (index + 1)); [left; split; [done|]; by exists num, x|].
    destruct (IH (index + 1) ltac:(lia) ltac:(lia)) as [[-> _]|(k & num' & -> & Hk & Hr' & Hfree & _)].
    + left. split; [done|]. by exists num, x.
    + right. exists k, num'. repeat (split; [done|]). right. by exists num, x.
Qed.

Lemma walk_row_empty row j final fuel index :
  empty_row row -> 0 <= index < n -> walk_row fuel final n j row.2 index = Ok (W_next index).
Proof.
  intros Hrow Hi. assert (row.2 !! Z.to_nat index = Some (-2)) as Hl.
  { unfold empty_row in Hrow. rewrite Hrow. apply lookup_replicate. split; [done|lia]. }
  destruct fuel; cbn [walk_row]; by rewrite (vec_get_lookup _ _ _ (proj1 Hi) Hl).
Qed.

Lemma free_left w0 f i : filling_ok w0 f -> final f !! i = Some FREE -> count f <> n.
Proof.
  intros Hok Hi E. rewrite (fo_count w0 f Hok) in E. assert (occ FREE (final f) = 0) as Hz by lia.
  apply occ_zero in Hz. apply Hz. by apply list_elem_of_lookup_2 in Hi.
Qed.

Lemma elem_of_insert_or {A} (l : list A) i x y : y ∈ <[i := x]> l -> y = x \/ y ∈ l.
Proof.
  intros (j & Hj)%list_elem_of_lookup_1. destruct (decide (i = j)) as [->|Hne].
  - destruct (decide (j < length l)%nat) as [Hl|Hl].
    + rewrite list_lookup_insert_eq in Hj by done. left. congruence.
    + rewrite list_insert_ge in Hj by lia. right. by eapply list_elem_of_lookup_2.
  - rewrite list_lookup_insert_ne in Hj by done. right. by eapply list_elem_of_lookup_2.
Qed.
(** A server takes a free slot while it has a share left. *)
Lemma take_slot w0 f row num j :
  filling_ok w0 f -> full_row row -> row ∈ rows -> row.1 <> FREE -> 0 <= num < n -> final f !! Z.to_nat num = Some FREE ->
  0 < room row.1 (weights f) ->
  let f' := Filling (<[Z.to_nat num := row.1]> (final f)) (<[row.1 := room row.1 (weights f) - 1]> (weights f)) (count f + 1) j in
  filling_ok w0 f' /\ extends f f' /\ final f' !! Z.to_nat num = Some row.1.
Proof.
  intros [Hl Hc Hs Hr Hn] Hrow Hin Hne Hnum Hfree Hpos f'. subst f'.
  assert (forall k, room k (<[row.1 := room row.1 (weights f) - 1]> (weights f)) = room k (weights f) - (if decide (row.1 = k) then 1 else 0)) as Hroom.
  { intros k. unfold room. case_decide as E; [subst; by rewrite lookup_insert_eq|]. rewrite lookup_insert_ne by done. lia. }
  split; [|split]; cbn [final weights count].
  - split; cbn [final weights count].
    + by rewrite length_insert.
    + rewrite Hc, (occ_insert _ _ FREE) by done. rewrite decide_True by done. rewrite decide_False by done. lia.
    + intros k Hk. rewrite (occ_insert _ _ FREE), Hroom by done. rewrite <- (Hs k Hk). rewrite decide_False by done. case_decide; lia.
    + intros k. rewrite Hroom. specialize (Hr k). case_decide; subst; lia.
    + intros x [->|Hx]%elem_of_insert_or; [right; by exists row|by apply Hn].
  - split; cbn [final weights].
    + intros i x Hi Hx. rewrite list_lookup_insert_ne; [done|]. intros <-. congruence.
    + intros k. rewrite Hroom. case_decide; lia.
  - rewrite list_lookup_insert_eq; [done|]. apply lookup_lt_Some in Hfree. done.
Qed.

Lemma visit_row_run w0 j f row :
  0 <= j < n -> filling_ok w0 f -> index f = j -> row ∈ rows ->
  exists f', visit_row n j f row = Ok f' /\ filling_ok w0 f' /\ extends f f' /\ index f' = j /\ done_at j row f'.
Proof.
  intros Hj Hok Hi Hin. destruct (proj1 (list.Forall_forall _ _) rows_ok row Hin) as [Hrow Hne]. unfold visit_row.
  pose proof Hok as [Hl Hc Hs Hr Hn]. destruct (Z.eqb_spec (count f) n) as [Ec|Ec].
  { exists f. split; [done|]. split; [done|]. split; [apply extends_refl|]. split; [done|]. intros Hfull. right.
    destruct (full_row_lookup row j Hfull Hj) as (num & H1 & H2). destruct (lookup_lt_is_Some_2 (final f) (Z.to_nat num)) as [x Hx]; [lia|].
    exists num, x. split; [done|]. split; [done|]. intros ->. by eapply free_left in Ec. }
  rewrite Hi. destruct Hrow as [Hfull|Hempty].
  2:{ rewrite walk_row_empty by done. cbn [res_bind]. eexists. split; [done|]. split; [by split|]. split; [by split|]. split; [done|].
      intros Hfull. destruct (full_row_lookup row j Hfull Hj) as (num & H1 & H2). unfold empty_row in Hempty. rewrite Hempty in H1.
      apply lookup_replicate in H1 as [-> _]. lia. }
  destruct (walk_row_full row j (final f) (Z.to_nat n) j Hfull Hl Hj ltac:(lia)) as [[-> Hd]|(k & num & -> & Hk & Hnum & Hfree & Hd)]; cbn [res_bind].
  - eexists. split; [done|]. split; [by split|]. split; [by split|]. split; [done|]. intros _. by right.
  - fold (room row.1 (weights f)). destruct (Z.ltb_spec 0 (room row.1 (weights f))) as [Hpos|Hpos].
    + destruct (take_slot w0 f row num j) as (H1 & H2 & H3); try done. eexists. split; [done|]. split; [done|]. split; [done|]. split; [done|].
      intros _. right. destruct Hd as [->|(num' & x & Hd1 & Hd2 & Hd3)]; [by exists num, row.1|].
      exists num', x. split; [done|]. split; [|done]. by apply H2.
    + eexists. split; [done|]. split; [by split|]. split; [by split|]. split; [done|]. intros _. left. cbn [weights].
      specialize (Hr row.1). lia.
Qed.

Lemma visit_column_run w0 j f :
  0 <= j < n -> filling_ok w0 f ->
  exists f', visit_column n rows f j = Ok f' /\ filling_ok w0 f' /\ extends f f' /\ forall row, row ∈ rows -> done_at j row f'.
Proof.
  intros Hj Hok. unfold visit_column.
  destruct (for_each_res_inv rows (visit_row n j)
    (fun pre g => filling_ok w0 g /\ extends f g /\ index g = j /\ forall row, row ∈ pre -> done_at j row g)
    (Filling (final f) (weights f) (count f) j)) as (f' & -> & H1 & H2 & _ & H3).
  - split; [by destruct Hok|]. split; [by split|]. split; [done|]. by intros row ?%elem_of_nil.
  - intros pre row post g E (G1 & G2 & G3 & G4). destruct (visit_row_run w0 j g row Hj G1 G3) as (g' & -> & K1 & K2 & K3 & K4).
    { rewrite E, elem_of_app. right. by left. }
    exists g'. split; [done|]. split; [done|]. split; [by eapply extends_trans|]. split; [done|].
    intros r [Hr|Hr]%elem_of_app; [by eapply done_at_extends; [|done|by apply G4]|]. apply list_elem_of_singleton in Hr as ->. done.
  - by exists f'.
Qed.


(** When all columns are done, a slot that is free means that no share is left. *)
Lemma spent w0 f row :
  filling_ok w0 f -> (forall j row, j ∈ seqZ 0 n -> row ∈ rows -> done_at j row f) ->
  FREE ∈ final f -> row ∈ rows -> full_row row -> room row.1 (weights f) = 0.
Proof.
  intros [Hl _ _ _ _] Hdone Hfree Hin Hfull. pose proof Hfull as Hperm. unfold full_row in Hperm. apply list_elem_of_lookup_1 in Hfree as [i Hi]. pose proof (lookup_lt_Some _ _ _ Hi) as Hlt.
  assert (Z.of_nat i ∈ row.2) as Hpos by (rewrite Hperm; apply elem_of_seqZ; lia). apply list_elem_of_lookup_1 in Hpos as [j Hj].
  assert (j < Z.to_nat n)%nat as Hjn.
  { apply lookup_lt_Some in Hj. apply Permutation_length in Hperm. rewrite length_seqZ in Hperm. lia. }
  destruct (Hdone (Z.of_nat j) row ltac:(apply elem_of_seqZ; lia) Hin Hfull) as [E|(num & x & H1 & H2 & H3)]; [done|].
  rewrite Nat2Z.id in H1. replace num with (Z.of_nat i) in H2 by congruence. rewrite Nat2Z.id in H2. congruence.
Qed.

(** The array is filled when the shares are enough for it, and nobody gets more. *)
Lemma fill_array_run w0 :
  (forall k, 0 <= room k w0) ->
  exists arr, fill_array n rows w0 = Ok arr /\ Z.of_nat (length arr) = n /\
    (forall k, k <> FREE -> occ k arr <= room k w0) /\
    (forall x, x ∈ arr -> x = FREE \/ exists row, row ∈ rows /\ full_row row /\ row.1 = x) /\
    (forall names, NoDup names -> (forall k, k ∈ names -> exists row, row ∈ rows /\ full_row row /\ row.1 = k) ->
       n <= given w0 names -> FREE ∉ arr).
Proof.
  intros Hw. unfold fill_array. set (f0 := Filling (replicate (Z.to_nat n) "-1"%string) w0 0 0).
  assert (filling_ok w0 f0) as Hok0.
  { split; cbn [final weights count f0].
    - rewrite length_replicate. lia.
    - change "-1"%string with FREE. rewrite occ_replicate, decide_True by done. lia.
    - intros k Hk. change "-1"%string with FREE. rewrite occ_replicate, decide_False by done. lia.
    - done.
    - intros x Hx. left. by apply elem_of_replicate in Hx as [-> _]. }
  destruct (for_each_res_inv (seqZ 0 n) (visit_column n rows)
    (fun pre f => filling_ok w0 f /\ forall j row, j ∈ pre -> row ∈ rows -> done_at j row f) f0) as (f & -> & Hok & Hdone).
  - split; [done|]. by intros j row ?%elem_of_nil.
  - intros pre j post f E (G1 & G2). assert (0 <= j < n) as Hj.
    { assert (j ∈ seqZ 0 n) as Hin by (rewrite E, elem_of_app; right; by left). apply elem_of_seqZ in Hin. lia. }
    destruct (visit_column_run w0 j f Hj G1) as (f' & -> & K1 & K2 & K3). exists f'. split; [done|]. split; [done|].
    intros i row [Hi|Hi]%elem_of_app Hrow; [by eapply done_at_extends; [|done|by apply G2]|]. apply list_elem_of_singleton in Hi as ->. by apply K3.
  - cbn [res_bind]. pose proof Hok as [Hl Hc Hs Hr Hn]. exists (final f). split; [done|]. split; [done|]. split.
    { intros k Hk. specialize (Hs k Hk). specialize (Hr k). lia. }
    split; [done|]. intros names Hd Hnames Hgiven Hfree.
    assert (forall k, k ∈ names -> room k (weights f) = 0 /\ k <> FREE) as Hspent.
    { intros k Hk. destruct (Hnames k Hk) as (row & Hin & Hfull & <-). split; [by eapply spent|]. by apply (proj1 (list.Forall_forall _ _) rows_ok row Hin). }
    assert (zsum (fun k => occ k (final f)) names = given w0 names) as Hsum.
    { apply zsum_ext, list.Forall_forall. intros k Hk. destruct (Hspent k Hk) as [E Hne]. specialize (Hs k Hne). unfold room in *. lia. }
    rewrite occ_sum in Hsum by done.
    pose proof (occ_free_less names (final f) (fun k Hk => proj2 (Hspent k Hk)) Hfree). lia.
Qed.
End filling.
