(* ===== verification/LbFacts.v ===== *)
(** pcn-loadbalancer-rp, what the operations on services do: to a service, to its
    array, and to the program's table of services. *)
From Stdlib Require Import ZArith Lia Ascii String.
From stdpp Require Import base gmap list strings numbers sorting.
From S2P Require Import Prelude.
From S2P Require Import Bpf.
From S2P Require Import NetUtils.
From S2P Require Import Tables.
From S2P Require Import CubePorts.
From S2P Require Import LbDatapath.
From S2P Require Import LbService.
From S2P Require Import LbArray.
#[local] Open Scope Z_scope.
#[local] Open Scope cpp_scope.

(** Slots of a service with at most ten servers. *)
Definition SLOTS : Z := INITIAL_BACKEND_SIZE * BACKEND_REPLICAS.

(** Texts that the REST layer lets through as addresses. *)
Definition address_text (ip : string) : Prop := exists x, 0 <= x < 2 ^ 32 /\ ip = dotted x.
Lemma address_text_ok ip : address_text ip -> exists x, 0 <= x < 2 ^ 32 /\ ip_string_to_nbo_uint ip = Ok x /\ ip = dotted x.
Proof. intros (x & Hx & ->). exists x. by rewrite ip_string_to_nbo_uint_dotted. Qed.
Lemma dotted_inj x y : 0 <= x < 2 ^ 32 -> 0 <= y < 2 ^ 32 -> dotted x = dotted y -> x = y.
Proof. intros Hx Hy E. pose proof (ip_string_to_nbo_uint_dotted x Hx) as H. rewrite E, ip_string_to_nbo_uint_dotted in H by done. congruence. Qed.
Lemma address_not_free ip : address_text ip -> ip <> FREE.
Proof. intros (x & _ & E & _)%address_text_ok ->. vm_compute in E. discriminate. Qed.

(** A service with at most ten servers: every server has a row in some order of the
    slots, every server that was removed a row of -2. *)
Record service_ok (s : Service) : Prop := {
  so_size : backend_size_ s = INITIAL_BACKEND_SIZE;
  so_few : (size (service_backends_ s) <= 10)%nat;
  so_servers ip b : service_backends_ s !! ip = Some b -> ip_ b = ip /\ 0 <= weight_ b < 2 ^ 16 /\ 0 <= port_ b < 2 ^ 16;
  so_rows ip b : service_backends_ s !! ip = Some b -> exists row, backend_matrix_ s !! ip = Some row /\ row ≡ₚ seqZ 0 SLOTS;
  so_gone ip row : backend_matrix_ s !! ip = Some row -> service_backends_ s !! ip = None -> row = replicate (Z.to_nat SLOTS) (-2);
  so_texts ip : is_Some (backend_matrix_ s !! ip) -> address_text ip;
}.

Section facts.
Context `{StdLib} `{LbTables}.
Implicit Types (s : Service) (e : service_env) (ip : string) (b : ServiceBackend).

Lemma vect_size_ok s : service_ok s -> vect_size s = SLOTS.
Proof. intros [E F _ _ _ _]. unfold vect_size, bkd_size. rewrite E. unfold INITIAL_BACKEND_SIZE, SLOTS, BACKEND_REPLICAS, INITIAL_BACKEND_SIZE. lia. Qed.
Lemma elem_of_sorted {V} (m : gmap string V) k v : (k, v) ∈ sorted_entries m <-> m !! k = Some v.
Proof. unfold sorted_entries. rewrite merge_sort_Permutation. apply elem_of_map_to_list. Qed.

(** The servers with a weight. *)
Definition active s ip : Prop := exists b, service_backends_ s !! ip = Some b /\ weight_ b <> 0.
Definition total_weight s : Z := map_fold (fun _ b acc => weight_ b + acc) 0 (service_backends_ s).

Lemma weights_of_service n s : service_ok s -> weights_ok (iterate n (service_backends_ s)).
Proof.
  intros Hok. unfold weights_ok. rewrite (iterate_permutation n (service_backends_ s)). split; [apply NoDup_fst_map_to_list|]. split.
  - apply list.Forall_forall. intros [ip b] Hb%elem_of_map_to_list. by apply (so_servers s Hok) in Hb as (_ & ? & _).
  - rewrite length_map_to_list. pose proof (so_few s Hok). lia.
Qed.
Lemma rows_of_service s : service_ok s ->
  Forall (fun row => (full_row SLOTS row \/ empty_row SLOTS row) /\ row.1 <> FREE) (sorted_entries (backend_matrix_ s)).
Proof.
  intros Hok. apply list.Forall_forall. intros [ip row] Hr%elem_of_sorted. split; [|apply address_not_free, (so_texts s Hok); by eexists].
  destruct (service_backends_ s !! ip) as [b|] eqn:E; [left|right; by eapply (so_gone s Hok)].
  destruct (so_rows s Hok ip b E) as (row' & E' & Hp). unfold full_row. simpl. congruence.
Qed.
Lemma zsum_perm {A} (f : A -> Z) (l l' : list A) : l ≡ₚ l' -> zsum f l = zsum f l'.
Proof. induction 1; rewrite ?zsum_cons; simpl in *; unfold zsum in *; simpl in *; lia. Qed.

Lemma weights_pos l p : weights_ok l -> p ∈ l -> weight_ p.2 <> 0 -> 1 <= raw_share SLOTS (weight_sum l) (weight_ p.2).
Proof.
  intros (_ & Hw & _) Hp Hne. pose proof (weight_le_sum p l Hw Hp). apply (raw_share_spec SLOTS (weight_sum l) (weight_ p.2)); [by vm_compute|lia].
Qed.
(** Who has no weight is given nothing. *)
Lemma given_filter pool (l : list (string * ServiceBackend)) :
  (forall p, p ∈ l -> weight_ p.2 = 0 -> pool !! p.1 = None) -> given pool (filter (fun p => weight_ p.2 <> 0) l).*1 = given pool l.*1.
Proof.
  induction l as [|p l IH]; intros Hn; [done|]. specialize (IH (fun q Hq => Hn q (list_elem_of_further _ _ _ Hq))). rewrite given_cons, <- IH.
  rewrite filter_cons. case_decide as E; [done|]. rewrite (Hn p) by (by left || lia). done.
Qed.
Lemma NoDup_filter_fst {A B} (P : A * B -> Prop) `{forall x, Decision (P x)} (l : list (A * B)) : NoDup l.*1 -> NoDup (filter P l).*1.
Proof. intros Hd. apply sublist_NoDup with l.*1; [done|]. by apply fmap_sublist, sublist_filter. Qed.
Lemma zsum_squeeze {A} (f g : A -> Z) (l : list A) x : (forall x, x ∈ l -> f x <= g x) -> zsum f l = zsum g l -> x ∈ l -> f x = g x.
Proof.
  induction l as [|y l IH]; [by intros _ _ ?%elem_of_nil|]. rewrite !zsum_cons. intros Hle E.
  assert (f y <= g y) by (apply Hle; by left). assert (zsum f l <= zsum g l) as Hl.
  { clear IH E. induction l as [|z l IH]; [done|]. rewrite !zsum_cons. assert (f z <= g z) by (apply Hle; right; by left).
    assert (zsum f l <= zsum g l); [|lia]. apply IH. intros q [->|Hq]%elem_of_cons; apply Hle; [by left|right; by right]. }
  intros [->|Hx]%elem_of_cons; [lia|]. apply IH; [|lia|done]. intros q Hq. apply Hle. by right.
Qed.
Lemma all_in (names arr : list string) : (forall x, x ∈ arr -> x ∈ names) -> zsum (fun x => if decide (x ∈ names) then 1 else 0) arr = Z.of_nat (length arr).
Proof.
  induction arr as [|x arr IH]; [done|]. intros Hn. rewrite zsum_cons, IH by (intros y Hy; apply Hn; by right). cbn beta.
  rewrite decide_True by (apply Hn; by left). cbn [length]. lia.
Qed.

(** What the array of a service holds. *)
Lemma getConsistentArray_run e : service_ok (this e) -> (exists ip, active (this e) ip) ->
  exists arr pool, getConsistentArray e = Ok arr /\ Z.of_nat (length arr) = SLOTS /\
    (forall ip, ip ∈ arr -> active (this e) ip) /\
    (forall ip b, service_backends_ (this e) !! ip = Some b -> weight_ b <> 0 ->
       occ ip arr <= room ip pool /\
       let r := raw_share SLOTS (weight_sum (backends_in_order e)) (weight_ b) in room ip pool = r \/ room ip pool = r + 1) /\
    (raw_sum SLOTS (weight_sum (backends_in_order e)) (backends_in_order e) <= SLOTS ->
       forall ip, active (this e) ip -> occ ip arr = room ip pool).
Proof.
  intros Hok [ip0 (b0 & Hip0 & Hw0)]. pose proof (weights_of_service (moment e) (this e) Hok) as Hw. unfold getConsistentArray.
  rewrite vect_size_ok by done. set (l := backends_in_order e) in *. fold l in Hw.
  assert (forall ip b, (ip, b) ∈ l <-> service_backends_ (this e) !! ip = Some b) as Hl.
  { intros ip b. subst l. unfold backends_in_order. rewrite (iterate_permutation (moment e) _). apply elem_of_map_to_list. }
  destruct (get_weight_backend_run SLOTS l Hw) as (pool & -> & Hnone & Hshare & Hgiven & Hexact).
  { unfold SLOTS, INITIAL_BACKEND_SIZE, BACKEND_REPLICAS. lia. }
  { exists (ip0, b0). split; [by apply Hl|done]. }
  cbn [res_bind]. set (names := (filter (fun p => weight_ p.2 <> 0) l).*1) in *.
  assert (forall ip, ip ∈ names <-> active (this e) ip) as Hnames.
  { intros ip. subst names. rewrite list_elem_of_fmap. setoid_rewrite list_elem_of_filter. split.
    - intros ([ip' b] & -> & Hb & Hin%Hl). by exists b.
    - intros (b & Hin%Hl & Hb). by exists (ip, b). }
  assert (forall k, 0 <= room k pool) as Hroom.
  { intros k. unfold room. destruct (decide (k ∈ names)) as [Hk|Hk]; [|by rewrite Hnone].
    apply Hnames in Hk as (b & Hb & Hwb). pose proof (weights_pos l (k, b) Hw (proj2 (Hl k b) Hb) Hwb) as Hr. cbn [snd] in Hr.
    destruct (Hshare (k, b) (proj2 (Hl k b) Hb) Hwb) as [E|E]; cbn [fst snd] in E; rewrite E; simpl; lia. }
  assert (given pool names = given pool l.*1) as Hg by by (apply given_filter; intros [ip b] Hp E; apply Hnone; intros (b' & Hb & Hne)%Hnames; apply Hl in Hp; cbn [fst snd] in *; congruence).
  assert (NoDup names) as Hd by (subst names; apply NoDup_filter_fst, Hw).
  destruct (fill_array_run SLOTS (sorted_entries (backend_matrix_ (this e))) ltac:(done) (rows_of_service _ Hok) pool Hroom)
    as (arr & -> & Hlen & Hocc & Hin & Hfull).
  assert (forall x, x ∈ names -> exists row, row ∈ sorted_entries (backend_matrix_ (this e)) /\ full_row SLOTS row /\ row.1 = x) as Hrows.
  { intros x (b & Hb & _)%Hnames. destruct (so_rows _ Hok x b Hb) as (row & Hr & Hp). exists (x, row). split; [by apply elem_of_sorted|done]. }
  specialize (Hfull names Hd Hrows ltac:(lia)).
  assert (forall x, x ∈ arr -> x ∈ names) as Hmem.
  { intros x Hx. destruct (Hin x Hx) as [->|([x' row] & Hr%elem_of_sorted & Hp & <-)]; [done|]. cbn [fst] in *.
    destruct (decide (x' ∈ names)) as [|Hno]; [done|]. assert (x' <> FREE) as Hne by (intros ->; done). specialize (Hocc x' Hne). unfold room in Hocc.
    rewrite (Hnone x' Hno) in Hocc. simpl in Hocc. pose proof (occ_bounds x' arr). assert (occ x' arr = 0) as Hz by lia. by apply occ_zero in Hz. }
  exists arr, pool. split; [done|]. split; [done|]. split; [by intros ip Hip%Hmem%Hnames|]. split.
  - intros ip b Hb Hwb. split; [apply Hocc; intros ->; eapply address_not_free; [|done]; apply (so_texts _ Hok); destruct (so_rows _ Hok _ _ Hb) as (? & -> & _); by eexists|].
    cbv zeta. destruct (Hshare (ip, b) (proj2 (Hl ip b) Hb) Hwb) as [E|E]; cbn [fst snd] in E; unfold room; rewrite E; [by left|by right].
  - intros Hraw ip Hip%Hnames. specialize (Hexact Hraw).
    apply (zsum_squeeze (fun k => occ k arr) (fun k => room k pool) names ip); [|rewrite occ_sum, all_in by done; unfold given, room in *; lia|done].
    intros k Hk. apply Hocc. intros ->. destruct (Hrows _ Hk) as (row & Hr & _ & Ef). by apply (proj1 (list.Forall_forall _ _) (rows_of_service _ Hok) row Hr).
Qed.

(** * The program's table of services *)
Definition vip_num s : Z := match ip_string_to_nbo_uint (vip_ s) with Ok x => x | _ => 0 end.
Definition skey s (index : Z) : vip := Vip (vip_num s) (bswap16 (vport_ s)) (proto_be s) index.
Lemma service_key_ok s index : address_text (vip_ s) -> service_key s index = Ok (skey s index).
Proof. intros (x & _ & E & _)%address_text_ok. unfold service_key, skey, vip_num. by rewrite E. Qed.

(** The value of a slot that a server has. *)
Definition slot_value s b : option backend :=
  match ip_string_to_nbo_uint (ip_ b) with Ok x => Some (Backend x (bswap16 (port_ b)) (proto_be s)) | _ => None end.
Definition slot_of s (v : backend) : Prop := exists ip b, service_backends_ s !! ip = Some b /\ slot_value s b = Some v.
(** The table leads from the service to its servers, or does not know it. *)
Definition agree s (t : servicesT) : Prop :=
  if decide (service_backends_ s = ∅) then m_lookup t (skey s 0) = None
  else m_lookup t (skey s 0) = Some (Backend (vip_num s) SLOTS 0) /\
    forall i, 1 <= i <= SLOTS -> exists v, m_lookup t (skey s i) = Some v /\ slot_of s v.

(** ** What all operations of a service leave alone *)
Record effect (e e' : service_env) : Prop := {
  ef_vip : vip_ (this e') = vip_ (this e);
  ef_vport : vport_ (this e') = vport_ (this e);
  ef_proto : proto_ (this e') = proto_ (this e);
  ef_object : object (this e') = object (this e);
  ef_others k : (forall i, k <> skey (this e) i) -> m_lookup (services (dp e')) k = m_lookup (services (dp e)) k;
  ef_sessions : hash_session (dp e') = hash_session (dp e);
  ef_rewrite : src_ip_rewrite (dp e') = src_ip_rewrite (dp e);
  ef_frontends : ip_to_frontend_port (dp e') = ip_to_frontend_port (dp e);
  ef_defines : defines (dp e') = defines (dp e);
}.
Lemma skey_effect e e' i : effect e e' -> skey (this e') i = skey (this e) i.
Proof. intros [E1 E2 E3 _ _ _ _ _ _]. unfold skey, vip_num, proto_be. by rewrite E1, E2, E3. Qed.
Lemma effect_refl e : effect e e.
Proof. done. Qed.
Lemma effect_trans e1 e2 e3 : effect e1 e2 -> effect e2 e3 -> effect e1 e3.
Proof.
  intros H1 H2. pose proof (fun i => skey_effect e1 e2 i H1) as Hk. destruct H1, H2. split; try congruence.
  intros k Hne. rewrite ef_others1 by (intros i; rewrite Hk; apply Hne). auto.
Qed.
(** An operation that has no other effect. *)
Definition local {A} (m : M service_env A) : Prop := forall e, address_text (vip_ (this e)) -> effect e (m e).2.

Lemma local_bind {A B} (m : M service_env A) (k : A -> M service_env B) : local m -> (forall a, local (k a)) -> local (bind m k).
Proof.
  intros Hm Hk e He. unfold bind. specialize (Hm e He). destruct (m e) as [[a|x|] e']; cbn [snd] in *; [|done|done].
  eapply effect_trans; [done|]. apply Hk. by rewrite (ef_vip _ _ Hm).
Qed.
Lemma local_get_bind {B} (k : service_env -> M service_env B) : (forall e, address_text (vip_ (this e)) -> effect e (k e e).2) -> local (bind get k).
Proof. intros Hk e He. by apply Hk. Qed.
Lemma local_at {A B} (r : res A) (k : A -> M service_env B) e :
  address_text (vip_ (this e)) -> (forall a, r = Ok a -> effect e (k a e).2) -> effect e (bind (lift r) k e).2.
Proof. intros He Hk. unfold bind, lift. destruct r; simpl; [by apply Hk|done|done]. Qed.
Lemma local_ret {A} (a : A) : local (ret a).
Proof. done. Qed.
Lemma local_throw {A} x : local (throw (A := A) x).
Proof. done. Qed.
Lemma local_lift {A} (r : res A) : local (lift r).
Proof. done. Qed.
Lemma local_for_each {A} (l : list A) (body : A -> M service_env unit) : (forall x, x ∈ l -> local (body x)) -> local (for_each l body).
Proof.
  induction l as [|x l IH]; intros Hb; [done|]. cbn [for_each]. apply local_bind; [apply Hb; by left|]. intros _. apply IH.
  intros y Hy. apply Hb. by right.
Qed.
Lemma local_this f : (forall s, vip_ (f s) = vip_ s /\ vport_ (f s) = vport_ s /\ proto_ (f s) = proto_ s /\ object (f s) = object s) ->
  local (modify (fun e => set_this (f (this e)) e)).
Proof. intros Hf e _. cbn. destruct (Hf (this e)) as (? & ? & ? & ?). by split. Qed.

Lemma table_set_spec {K V T} `{BpfMap K V T} (t t' : T) k v : table_set t k v = Ok t' -> forall k', m_lookup t' k' = if decide (k = k') then Some v else m_lookup t k'.
Proof. unfold table_set. pose proof (m_update_spec t k v) as Hu. destruct (m_update t k v) as [t1|]; [|done]. intros [= <-]. apply Hu. Qed.
Lemma table_remove_spec {K V T} `{BpfMap K V T} (t t' : T) k : table_remove t k = Ok t' -> forall k', m_lookup t' k' = if decide (k = k') then None else m_lookup t k'.
Proof. unfold table_remove. pose proof (m_delete_spec t k) as Hu. destruct (m_delete t k) as [t1|]; [|done]. intros [= <-]. apply Hu. Qed.

Lemma effect_set e i v : effect e (on_services (fun t => table_set t (skey (this e) i) v) e).2.
Proof.
  unfold on_services. destruct (table_set _ _ _) as [t| |] eqn:E; [|done|done]. split; try done. intros k Hk. cbn.
  rewrite (table_set_spec _ _ _ _ E). by rewrite decide_False by (by intros <-; eapply Hk).
Qed.
Lemma effect_remove e i : effect e (on_services (fun t => table_remove t (skey (this e) i)) e).2.
Proof.
  unfold on_services. destruct (table_remove _ _) as [t| |] eqn:E; [|done|done]. split; try done. intros k Hk. cbn.
  rewrite (table_remove_spec _ _ _ E). by rewrite decide_False by (by intros <-; eapply Hk).
Qed.
Lemma local_reverse f : local (on_reverse f).
Proof. intros e _. unfold on_reverse. by destruct (f _). Qed.

Lemma effect_bind {A B} (m : M service_env A) (k : A -> M service_env B) e :
  address_text (vip_ (this e)) -> effect e (m e).2 -> (forall a, local (k a)) -> effect e (bind m k e).2.
Proof.
  intros He Hm Hk. unfold bind. destruct (m e) as [[a|x|] e']; cbn [snd] in *; [|done|done].
  eapply effect_trans; [done|]. apply Hk. by rewrite (ef_vip _ _ Hm).
Qed.

Lemma local_write_slots arr : forall index, local (write_slots index arr).
Proof.
  induction arr as [|ip arr IH]; intros index; [done|]. cbn [write_slots]. apply local_get_bind. intros e He.
  apply local_at; [done|]. intros b _. apply local_at; [done|]. intros key. rewrite service_key_ok by done. intros [= <-].
  apply local_at; [done|]. intros x _. apply effect_bind; [done|apply effect_set|]. intros _.
  apply local_bind; [apply local_reverse|]. intros _. apply IH.
Qed.
Lemma local_updateConsistentHashMap : local updateConsistentHashMap.
Proof.
  apply local_get_bind. intros e He. apply local_at; [done|]. intros arr _. unfold updateKernelServiceMap.
  apply local_get_bind; [|done]. clear e He. intros e He. apply local_at; [done|]. intros key. rewrite service_key_ok by done. intros [= <-].
  apply local_at; [done|]. intros x _. apply effect_bind; [done|apply effect_set|]. intros _. apply local_write_slots.
Qed.
Definition remove_key s (index : Z) : M service_env unit :=
  key <-- lift (service_key s index) ;; on_services (fun t => table_remove t key).
Lemma remove_keys_run s l : address_text (vip_ s) -> forall e, (forall i, skey s i = skey (this e) i) ->
  effect e (for_each l (remove_key s) e).2 /\ this (for_each l (remove_key s) e).2 = this e /\
  moment (for_each l (remove_key s) e).2 = moment e /\
  forall e', for_each l (remove_key s) e = (Ok tt, e') ->
    (forall i, i ∈ l -> m_lookup (services (dp e')) (skey s i) = None) /\
    (forall k, m_lookup (services (dp e)) k = None -> m_lookup (services (dp e')) k = None).
Proof.
  intros Hs. induction l as [|i l IH]; intros e He.
  { split; [done|]. split; [done|]. split; [done|]. intros e' [= <-]. split; [by intros i ?%elem_of_nil|done]. }
  cbn [for_each]. unfold remove_key at 1 3 5 7. rewrite service_key_ok by done. unfold bind, lift. unfold on_services.
  rewrite He. pose proof (effect_remove e i) as Heff. unfold on_services in Heff. destruct (table_remove _ _) as [t| |] eqn:E; [|done..].
  cbn [snd] in Heff. set (e1 := set_dp _ _) in *. destruct (IH e1) as (H1 & H2 & H3 & H4).
  { intros j. by rewrite (skey_effect e e1). }
  split; [by eapply effect_trans|]. split; [by rewrite H2|]. split; [by rewrite H3|]. intros e' Hrun. destruct (H4 e' Hrun) as [H5 H6]. split.
  - intros j [->|Hj]%elem_of_cons; [|by apply H5]. apply H6. cbn. rewrite (table_remove_spec _ _ _ E), He. by rewrite decide_True.
  - intros k Hk. apply H6. cbn. rewrite (table_remove_spec _ _ _ E). by case_decide.
Qed.
Lemma local_removeServiceFromKernelMap : local removeServiceFromKernelMap.
Proof. intros e He. by apply (remove_keys_run (this e)). Qed.

Lemma local_matrix ip (f : Service -> list Z) : local (modify (fun e => set_this (set_matrix (<[ip := f (this e)]> (backend_matrix_ (this e))) (this e)) e)).
Proof. apply (local_this (fun s => set_matrix (<[ip := f s]> (backend_matrix_ s)) s)). by intros []. Qed.
Lemma local_backends f : local (modify (fun e => set_this (set_backends (f (service_backends_ (this e))) (this e)) e)).
Proof. apply (local_this (fun s => set_backends (f (service_backends_ s)) s)). by intros []. Qed.
Lemma local_no_matrix : local (modify (fun e => set_this (set_matrix ∅ (this e)) e)).
Proof. apply (local_this (set_matrix ∅)). by intros []. Qed.

Lemma local_addBackendToServiceMatrix ip : local (addBackendToServiceMatrix ip).
Proof. apply local_get_bind. intros e He. apply effect_bind; [done|done|]. intros row. apply (local_matrix ip (fun _ => row)). Qed.
Lemma local_addBackend ip conf : local (addBackend ip conf).
Proof.
  apply local_get_bind. intros e He. destruct (_ !! _); [done|]. apply effect_bind; [done|by destruct (j_weight conf); [destruct (_ && _)|]|]. intros _.
  apply local_bind; [|intros _; apply local_bind; [apply local_addBackendToServiceMatrix|intros _; apply local_updateConsistentHashMap]].
  destruct (_ !! _); [done|]. apply local_bind; [apply local_lift|]. intros b. apply (local_backends (fun m => <[j_ip conf := b]> m)).
Qed.
Lemma local_addBackendList l : local (addBackendList l).
Proof. apply local_for_each. intros c _. apply local_addBackend. Qed.
Lemma local_delBackend ip : local (delBackend ip).
Proof.
  apply local_get_bind. intros e He. destruct (_ !! _); [|done].
  apply effect_bind; [done|by apply (local_backends (fun m => delete ip m))|]. intros _.
  apply local_bind; [apply (local_matrix ip (fun s => getEmptyIntVector (vect_size s)))|]. intros _.
  apply local_get_bind. clear e He. intros e He. destruct (decide _); [|by apply local_updateConsistentHashMap].
  apply effect_bind; [done|by apply local_no_matrix|]. intros _. apply local_removeServiceFromKernelMap.
Qed.
Lemma local_delBackendList : local delBackendList.
Proof.
  apply local_get_bind. intros e He. destruct (decide _); [done|]. apply effect_bind; [done|by split|]. intros _. apply local_removeServiceFromKernelMap.
Qed.
Lemma local_update_backend ip conf : local (update_backend ip conf).
Proof.
  apply local_bind; [destruct (j_name conf) as [n|]; [apply (local_backends (alter (with_name n) ip))|done]|]. intros _.
  apply local_bind; [apply (local_backends (alter (with_weight _) ip))|]. intros _. destruct (j_port conf) as [v|]; [|done].
  apply local_bind; [apply (local_backends (alter (with_port v) ip))|]. intros _. apply local_get_bind. intros e He.
  apply local_at; [done|]. intros b _. destruct (parent_ b), (object (this e)); (done || by apply local_updateConsistentHashMap).
Qed.
Lemma local_update conf : local (update conf).
Proof.
  apply local_bind; [destruct (js_name conf); [by apply local_this; intros []|done]|]. intros _. destruct (js_backend conf) as [l|]; [|done].
  apply local_for_each. intros c _. apply local_get_bind. intros e He. apply effect_bind; [done|done|]. intros _. apply local_update_backend.
Qed.

(** * What returns has done its work *)
Definition num_of ip : Z := match ip_string_to_nbo_uint ip with Ok x => x | _ => 0 end.
Lemma write_slots_ok arr : forall index e e', address_text (vip_ (this e)) -> 0 <= index -> index + Z.of_nat (length arr) < 2 ^ 16 ->
  write_slots index arr e = (Ok tt, e') ->
  this e' = this e /\ moment e' = moment e /\
  (forall k, (forall i, index < i <= index + Z.of_nat (length arr) -> k <> skey (this e) i) -> m_lookup (services (dp e')) k = m_lookup (services (dp e)) k) /\
  (forall j ip, arr !! j = Some ip -> exists b v, service_backends_ (this e) !! ip = Some b /\ slot_value (this e) b = Some v /\
     m_lookup (services (dp e')) (skey (this e) (index + 1 + Z.of_nat j)) = Some v).
Proof.
  induction arr as [|ip arr IH]; intros index e e' He Hi Hl Hrun; cbn [write_slots length] in *.
  { injection Hrun as <-. done. }
  assert (u16 (index + 1) = index + 1) as Eu by (unfold u16; apply Z.mod_small; lia). rewrite Eu in Hrun.
  apply bind_Ok in Hrun as (? & ? & [= <- <-] & Hrun). apply bind_Ok in Hrun as (b & e1 & Hb & Hrun). injection Hb as Hb <-.
  apply bind_Ok in Hrun as (key & e1 & Hk & Hrun). rewrite service_key_ok in Hk by done. injection Hk as <- <-.
  apply bind_Ok in Hrun as (x & e1 & Hx & Hrun). injection Hx as Hx <-.
  apply bind_Ok in Hrun as ([] & e1 & H1 & Hrun). apply bind_Ok in Hrun as ([] & e2 & H2 & Hrun).
  unfold on_services in H1. destruct (table_set _ _ _) as [t| |] eqn:Et; [|done..]. injection H1 as <-.
  unfold on_reverse in H2. destruct (table_set (backend_to_service _) _ _) as [t2| |]; [|done..]. injection H2 as <-.
  apply IH in Hrun as (I1 & I2 & I3 & I4); [|done|lia|lia]. cbn in I1, I2, I3, I4. clear IH.
  pose proof (table_set_spec _ _ _ _ Et) as Hset. split; [done|]. split; [done|]. split.
  - intros k Hk. rewrite I3, Hset by (intros i Hi'; apply Hk; lia). rewrite decide_False; [done|]. intros E. apply (Hk (index + 1)); [lia|done].
  - intros [|j] ip' Hj; cbn in Hj; [|destruct (I4 j ip' Hj) as (b' & v & ? & ? & H5); exists b', v; split; [done|]; split; [done|]; rewrite <- H5; f_equal; f_equal; lia].
    injection Hj as <-. unfold getBackend in Hb. destruct (service_backends_ (this e) !! ip) as [b0|] eqn:Eb; [|done]. injection Hb as ->.
    exists b, (Backend x (bswap16 (port_ b)) (proto_be (this e))). split; [done|]. split; [unfold slot_value; by rewrite Hx|].
    rewrite I3; [|intros i Hi' [=]; lia]. rewrite Hset, decide_True; [done|]. f_equal. lia.
Qed.

(** When no server has a weight, the alignment never ends. *)
Lemma align_round_none l pool r : (forall p, p ∈ l -> weight_ p.2 = 0) -> align_round l pool r = (pool, r).
Proof.
  induction l as [|[ip b] l IH]; intros Hl; [done|]. cbn [align_round]. assert (weight_ b = 0) as -> by (apply (Hl (ip, b)); by left). apply IH. intros p Hp. apply Hl. by right.
Qed.
Lemma no_weight_undefined e : service_ok (this e) -> (forall ip b, service_backends_ (this e) !! ip = Some b -> weight_ b = 0) -> getConsistentArray e = Undefined.
Proof.
  intros Hok Hz. unfold getConsistentArray. rewrite vect_size_ok by done. pose proof (weights_of_service (moment e) _ Hok) as (Hd & Hw & Hlen).
  fold (backends_in_order e) in *. set (l := backends_in_order e) in *.
  assert (forall p, p ∈ l -> weight_ p.2 = 0) as Hl.
  { intros [ip b] Hp. subst l. unfold backends_in_order in Hp. rewrite (iterate_permutation (moment e) _) in Hp. apply elem_of_map_to_list in Hp. by eapply Hz. }
  unfold get_weight_backend. rewrite sum_run by (done || lia). cbn [res_bind].
  match goal with |- context [for_each_res l ?f (∅, 0)] => assert (for_each_res l f (∅, 0) = Ok (∅, 0)) as -> end.
  { clear - Hl. generalize (weight_sum l). intros sum. induction l as [|p l IH]; [done|]. cbn [for_each_res]. rewrite (Hl p) by by left. cbn [Z.eqb res_bind]. apply IH. intros q Hq. apply Hl. by right. }
  cbn [res_bind]. rewrite Z.sub_0_r. generalize (Z.to_nat SLOTS). intros fuel. assert (align fuel l ∅ SLOTS = Undefined) as ->; [|done].
  induction fuel as [|fuel IH]; [done|]. cbn [align]. change (0 <? SLOTS) with true. cbn iota. by rewrite align_round_none.
Qed.

Lemma updateConsistentHashMap_ok e e' :
  service_ok (this e) -> address_text (vip_ (this e)) -> updateConsistentHashMap e = (Ok tt, e') ->
  this e' = this e /\ moment e' = moment e /\ (exists ip, active (this e) ip) /\ agree (this e) (services (dp e')).
Proof.
  intros Hok He Hrun. assert (exists ip, active (this e) ip) as Hact.
  { destruct (decide (Exists (fun p => weight_ p.2 <> 0) (map_to_list (service_backends_ (this e))))) as [Hex|Hno].
    - apply list.Exists_exists in Hex as ([ip b] & Hb%elem_of_map_to_list & Hw). by exists ip, b.
    - unfold updateConsistentHashMap, bind, get, lift in Hrun. rewrite no_weight_undefined in Hrun; [done|done|].
      intros ip b Hb. destruct (decide (weight_ b = 0)); [done|]. destruct Hno. apply list.Exists_exists. exists (ip, b). split; [by apply elem_of_map_to_list|done]. }
  destruct (getConsistentArray_run e Hok Hact) as (arr & pool & Harr & Hlen & Hin & _).
  unfold updateConsistentHashMap in Hrun. apply bind_Ok in Hrun as (? & ? & [= <- <-] & Hrun).
  apply bind_Ok in Hrun as (a & e1 & Ha & Hrun). unfold lift in Ha. rewrite Harr in Ha. injection Ha as <- <-.
  unfold updateKernelServiceMap in Hrun. apply bind_Ok in Hrun as (? & ? & [= <- <-] & Hrun).
  apply bind_Ok in Hrun as (key & e1 & Hk & Hrun). rewrite service_key_ok in Hk by done. injection Hk as <- <-.
  apply bind_Ok in Hrun as (x & e1 & Hx & Hrun). injection Hx as Hx <-. apply bind_Ok in Hrun as ([] & e1 & H1 & Hrun).
  unfold on_services in H1. destruct (table_set _ _ _) as [t| |] eqn:Et; [|done..]. injection H1 as <-. rewrite Hlen in Et.
  assert (SLOTS = 30) as Es by done. apply write_slots_ok in Hrun as (I1 & I2 & I3 & I4); [|done|lia|lia]. cbn in I1, I2, I3, I4.
  split; [done|]. split; [done|]. split; [done|]. unfold agree. destruct Hact as (ip0 & b0 & Hb0 & _).
  rewrite decide_False by (intros E; by rewrite E, lookup_empty in Hb0). split.
  - rewrite I3 by (intros i Hi [=]; lia). rewrite (table_set_spec _ _ _ _ Et), decide_True by done. unfold vip_num. by rewrite Hx.
  - intros i Hi. destruct (lookup_lt_is_Some_2 arr (Z.to_nat (i - 1))) as [ip Hip]; [lia|]. destruct (I4 _ _ Hip) as (b & v & Hb & Hv & Hl).
    exists v. split; [rewrite <- Hl; f_equal; f_equal; lia|]. by exists ip, b.
Qed.

(** ** Adding a server *)
Definition backend_ok (c : ServiceBackendJson) : Prop :=
  address_text (j_ip c) /\ (forall p, j_port c = Some p -> 0 <= p < 2 ^ 16) /\ (forall w, j_weight c = Some w -> 0 <= w < 2 ^ 16).
Lemma new_backend_ok o c b : backend_ok c -> new_ServiceBackend o c = Ok b ->
  ip_ b = j_ip c /\ 0 <= weight_ b < 2 ^ 16 /\ 0 <= port_ b < 2 ^ 16 /\ parent_ b = o.
Proof.
  intros (_ & Hp & Hw). unfold new_ServiceBackend. destruct (j_port c) as [p|]; [|done]. cbn. intros [= <-]. cbn. split; [done|]. split; [|by split; [apply Hp|]].
  destruct (j_weight c); simpl; [by apply Hw|lia].
Qed.

Lemma service_ok_added s ip b row : service_ok s -> (size (service_backends_ s) <= 9)%nat -> service_backends_ s !! ip = None -> address_text ip ->
  ip_ b = ip -> 0 <= weight_ b < 2 ^ 16 -> 0 <= port_ b < 2 ^ 16 -> row ≡ₚ seqZ 0 SLOTS ->
  service_ok (set_matrix (<[ip := row]> (backend_matrix_ s)) (set_backends (<[ip := b]> (service_backends_ s)) s)).
Proof.
  intros [H1 H2 H3 H4 H5 H6] Hfew Hnew Haddr Hip Hw Hp Hrow. split; cbn.
  - done.
  - rewrite map_size_insert_None by done. lia.
  - intros k v [[<- <-]|[_ Hk]]%lookup_insert_Some; [done|by apply H3].
  - intros k v [[<- <-]|[Hne Hk]]%lookup_insert_Some; [exists row; by rewrite lookup_insert_eq|]. rewrite lookup_insert_ne by done. by eapply H4.
  - intros k v [[<- <-]|[Hne Hk]]%lookup_insert_Some [E Hn]%lookup_insert_None; [done|]. by eapply H5.
  - intros k Hk. destruct (decide (ip = k)) as [->|Hne]; [done|]. apply H6. by rewrite lookup_insert_ne in Hk.
Qed.

(** A service in a state where its table is right. *)
Record good e : Prop := Good {
  g_ok : service_ok (this e);
  g_vip : address_text (vip_ (this e));
  g_agree : agree (this e) (services (dp e));
}.

Lemma addBackend_ok c e e' :
  service_ok (this e) -> address_text (vip_ (this e)) -> backend_ok c -> (size (service_backends_ (this e)) <= 9)%nat ->
  addBackend (j_ip c) c e = (Ok tt, e') ->
  good e' /\ service_backends_ (this e) !! j_ip c = None /\
  exists b, service_backends_ (this e') = <[j_ip c := b]> (service_backends_ (this e)) /\
    new_ServiceBackend (object (this e)) c = Ok b.
Proof.
  intros Hok He Hc Hfew Hrun. unfold addBackend in Hrun. apply bind_Ok in Hrun as (? & ? & [= <- <-] & Hrun).
  destruct (service_backends_ (this e) !! j_ip c) eqn:Eip; [done|].
  apply bind_Ok in Hrun as ([] & e1 & H1 & Hrun).
  assert (e1 = e) as -> by (destruct (j_weight c); [destruct (_ && _)|]; by injection H1). clear H1.
  apply bind_Ok in Hrun as ([] & e2 & H2 & Hrun). apply bind_Ok in H2 as (b & e1 & Hb & H2). injection Hb as Hb <-. injection H2 as <-.
  apply bind_Ok in Hrun as ([] & e3 & H3 & Hrun). unfold addBackendToServiceMatrix in H3.
  injection H3 as <-. destruct (new_backend_ok _ c b Hc Hb) as (B1 & B2 & B3 & _).
  assert (vect_size (set_backends (<[j_ip c:=b]> (service_backends_ (this e))) (this e)) = SLOTS) as Ev.
  { unfold vect_size, bkd_size. cbn. rewrite (so_size _ Hok), map_size_insert_None by done. unfold SLOTS, INITIAL_BACKEND_SIZE, BACKEND_REPLICAS. lia. }
  cbn [this set_this] in Hrun. cbn [moment] in Hrun. rewrite Ev in Hrun.
  assert (service_ok (set_matrix (<[j_ip c := shuffle (moment e) (Z.to_nat SLOTS)]> (backend_matrix_ (this e)))
    (set_backends (<[j_ip c := b]> (service_backends_ (this e))) (this e)))) as Hok'.
  { apply service_ok_added; try done; [apply Hc|]. rewrite shuffle_permutation. done. }
  apply updateConsistentHashMap_ok in Hrun as (U1 & U2 & _ & U4); [|done|done]. split; [|split; [done|exists b; by rewrite U1]].
  split; rewrite U1; done.
Qed.

Lemma size_delete_le {V} ip (m : gmap string V) : (size (delete ip m) <= size m)%nat.
Proof. rewrite map_size_delete. destruct (m !! ip); simpl; lia. Qed.
Lemma service_ok_removed s ip : service_ok s -> address_text ip ->
  service_ok (set_matrix (<[ip := replicate (Z.to_nat SLOTS) (-2)]> (backend_matrix_ s)) (set_backends (delete ip (service_backends_ s)) s)).
Proof.
  intros [H1 H2 H3 H4 H5 H6] Ha. split; cbn.
  - done.
  - pose proof (size_delete_le ip (service_backends_ s)). lia.
  - intros k v [_ Hk]%lookup_delete_Some. by apply H3.
  - intros k v [Hne Hk]%lookup_delete_Some. rewrite lookup_insert_ne by done. by eapply H4.
  - intros k v [[<- <-]|[Hne Hk]]%lookup_insert_Some E; [done|]. rewrite lookup_delete_ne in E by done. by eapply H5.
  - intros k Hk. destruct (decide (ip = k)) as [->|Hne]; [done|]. apply H6. by rewrite lookup_insert_ne in Hk.
Qed.
Lemma service_ok_empty s : service_ok s -> service_ok (set_matrix ∅ (set_backends ∅ s)).
Proof.
  intros [H1 _ _ _ _ _]. split; cbn; [done|rewrite map_size_empty; lia|..]; try (intros ? ? Hk; by rewrite lookup_empty in Hk).
  intros ? [? Hk]. by rewrite lookup_empty in Hk.
Qed.
Lemma remove_all_ok e e' : service_ok (this e) -> address_text (vip_ (this e)) -> service_backends_ (this e) = ∅ ->
  removeServiceFromKernelMap e = (Ok tt, e') -> this e' = this e /\ agree (this e') (services (dp e')).
Proof.
  intros Hok He Hz Hrun. destruct (remove_keys_run (this e) (seqZ 0 (backend_size_ (this e) * BACKEND_REPLICAS)) He e ltac:(done)) as (_ & H1 & _ & H2).
  change (removeServiceFromKernelMap e) with (for_each (seqZ 0 (backend_size_ (this e) * BACKEND_REPLICAS)) (remove_key (this e)) e) in Hrun.
  destruct (H2 e' Hrun) as [H3 _]. rewrite Hrun in H1. cbn [snd] in H1. split; [done|]. rewrite H1. unfold agree. rewrite decide_True by done.
  apply H3, elem_of_seqZ. rewrite (so_size _ Hok). unfold INITIAL_BACKEND_SIZE, BACKEND_REPLICAS. lia.
Qed.

Lemma delBackend_ok ip e e' :
  good e -> delBackend ip e = (Ok tt, e') ->
  good e' /\ is_Some (service_backends_ (this e) !! ip) /\ service_backends_ (this e') = delete ip (service_backends_ (this e)).
Proof.
  intros [Hok He _] Hrun. unfold delBackend in Hrun. apply bind_Ok in Hrun as (? & ? & [= <- <-] & Hrun).
  destruct (service_backends_ (this e) !! ip) as [b|] eqn:Eip; [|done].
  assert (address_text ip) as Ha by (destruct (so_rows _ Hok ip b Eip) as (row & Hr & _); apply (so_texts _ Hok); by eexists).
  apply bind_Ok in Hrun as ([] & e1 & [= <-] & Hrun). apply bind_Ok in Hrun as ([] & e2 & [= <-] & Hrun).
  apply bind_Ok in Hrun as (? & ? & [= <- <-] & Hrun). cbn [this set_this set_matrix service_backends_ set_backends] in Hrun.
  unfold getEmptyIntVector in Hrun.
  assert (vect_size (set_backends (delete ip (service_backends_ (this e))) (this e)) = SLOTS) as Ev.
  { unfold vect_size, bkd_size. cbn. rewrite (so_size _ Hok). pose proof (size_delete_le ip (service_backends_ (this e))).
    pose proof (so_few _ Hok). unfold SLOTS, INITIAL_BACKEND_SIZE, BACKEND_REPLICAS. lia. }
  rewrite Ev in Hrun. pose proof (service_ok_removed _ ip Hok Ha) as Hok'. destruct (decide _) as [Ez|Ez].
  - apply bind_Ok in Hrun as ([] & e3 & [= <-] & Hrun). pose proof (service_ok_empty _ Hok') as Hok2.
    apply remove_all_ok in Hrun as [R1 R2]; [|cbn [this set_this]; by rewrite Ez|done|done].
    split; [|split; [by eexists|by rewrite R1]]. split; [rewrite R1; cbn [this set_this]; by rewrite Ez|by rewrite R1|done].
  - apply updateConsistentHashMap_ok in Hrun as (U1 & U2 & _ & U4); [|done|done]. split; [|split; [by eexists|by rewrite U1]]. split; rewrite U1; done.
Qed.
Lemma delBackendList_ok e e' : good e -> delBackendList e = (Ok tt, e') -> good e' /\ service_backends_ (this e') = ∅.
Proof.
  intros [Hok He Hag] Hrun. unfold delBackendList in Hrun. apply bind_Ok in Hrun as (? & ? & [= <- <-] & Hrun).
  destruct (decide _) as [Ez|Ez]; [by injection Hrun as <-|]. apply bind_Ok in Hrun as ([] & e1 & [= <-] & Hrun).
  pose proof (service_ok_empty _ Hok) as Hok'. apply remove_all_ok in Hrun as [R1 R2]; [|done..]. split; [|by rewrite R1].
  split; [by rewrite R1|by rewrite R1|done].
Qed.

(** ** Changing a server *)
Definition servers s : gset string := dom (service_backends_ s).

Lemma service_ok_altered s ip f : service_ok s ->
  (forall b, service_backends_ s !! ip = Some b -> ip_ (f b) = ip_ b /\ 0 <= weight_ (f b) < 2 ^ 16 /\ 0 <= port_ (f b) < 2 ^ 16) ->
  service_ok (set_backends (alter f ip (service_backends_ s)) s).
Proof.
  intros [H1 H2 H3 H4 H5 H6] Hf. assert (forall k, alter f ip (service_backends_ s) !! k = None <-> service_backends_ s !! k = None) as Hn.
  { intros k. by rewrite lookup_alter_None. }
  split; cbn; [done| |..|done].
  - assert (dom (D := gset string) (alter f ip (service_backends_ s)) = dom (service_backends_ s)) as Hd by apply dom_alter_L.
    by rewrite <- (size_dom (D := gset string)), Hd, size_dom.
  - intros k v [[-> (b & Hb & ->)]|[_ Hk]]%lookup_alter_Some; [|by apply H3].
    destruct (Hf b Hb) as (E & ? & ?). destruct (H3 _ _ Hb) as (<- & _). by split.
  - intros k v [[-> (b & Hb & ->)]|[_ Hk]]%lookup_alter_Some; by eapply H4.
  - intros k v Hk E%Hn. by eapply H5.
Qed.
Lemma agree_altered s ip f t :
  (forall b, ip_ (f b) = ip_ b /\ port_ (f b) = port_ b) -> agree s t -> agree (set_backends (alter f ip (service_backends_ s)) s) t.
Proof.
  intros Hf. unfold agree. cbn [service_backends_ set_backends]. change (skey (set_backends _ s)) with (skey s). change (vip_num (set_backends _ s)) with (vip_num s).
  assert (alter f ip (service_backends_ s) = ∅ <-> service_backends_ s = ∅) as Hz.
  { split; [|intros ->; apply alter_empty]. intros E. apply map_empty. intros k. by rewrite <- (lookup_alter_None f _ ip), E, lookup_empty. }
  destruct (decide (service_backends_ s = ∅)) as [E|E]; [by rewrite decide_True by tauto|]. rewrite decide_False by tauto.
  intros [H1 H2]. split; [done|]. intros i Hi. destruct (H2 i Hi) as (v & Hv & k & b & Hb & Hbv). exists v. split; [done|].
  exists k. destruct (decide (ip = k)) as [->|Hne].
  - exists (f b). cbn. rewrite lookup_alter_eq, Hb. split; [done|]. unfold slot_value in *. destruct (Hf b) as [-> ->]. done.
  - exists b. cbn. rewrite lookup_alter_ne by done. done.
Qed.
Lemma servers_altered s ip f : servers (set_backends (alter f ip (service_backends_ s)) s) = servers s.
Proof. apply dom_alter_L. Qed.
Lemma good_altered e ip f : good e ->
  (forall b, ip_ (f b) = ip_ b /\ port_ (f b) = port_ b) -> (forall b, 0 <= weight_ b < 2 ^ 16 -> 0 <= weight_ (f b) < 2 ^ 16) ->
  good (set_this (set_backends (alter f ip (service_backends_ (this e))) (this e)) e).
Proof.
  intros [Hok He Hag] Hf Hw. split; cbn [this set_this dp]; [|done|by apply agree_altered]. apply service_ok_altered; [done|].
  intros b Hb. destruct (so_servers _ Hok ip b Hb) as (_ & H1 & H2). destruct (Hf b) as [-> ->]. auto.
Qed.

Lemma update_backend_ok c e e' :
  good e -> backend_ok c -> update_backend (j_ip c) c e = (Ok tt, e') ->
  good e' /\ servers (this e') = servers (this e).
Proof.
  intros Hg (Hc1 & Hc2 & Hc3) Hrun. unfold update_backend in Hrun. apply bind_Ok in Hrun as ([] & e1 & H1 & Hrun).
  assert (good e1 /\ servers (this e1) = servers (this e)) as [Hg1 Hd1].
  { destruct (j_name c) as [n|]; injection H1 as <-; [|done]. split; [by apply good_altered|apply servers_altered]. }
  clear H1. apply bind_Ok in Hrun as ([] & e2 & H2 & Hrun).
  assert (good e2 /\ servers (this e2) = servers (this e)) as [Hg2 Hd2].
  { injection H2 as <-. split; [apply good_altered; [done|done|]|by rewrite <- Hd1; apply servers_altered].
    intros b _. cbn. destruct (j_weight c) as [w|]; simpl; [by apply Hc3|lia]. }
  clear H2. destruct (j_port c) as [p|]; [|by injection Hrun as <-]. unfold setPort in Hrun.
  apply bind_Ok in Hrun as ([] & e3 & [= <-] & Hrun). apply bind_Ok in Hrun as (? & ? & [= <- <-] & Hrun).
  apply bind_Ok in Hrun as (b & e3 & Hb & Hrun). injection Hb as Hb <-.
  set (e3 := set_this _ e2) in *. assert (updateConsistentHashMap e3 = (Ok tt, e')) as Hrun' by (destruct (parent_ b), (object (this e3)); done).
  assert (service_ok (this e3)) as Hok3.
  { apply service_ok_altered; [apply Hg2|]. intros b' Hb'. destruct (so_servers _ (g_ok _ Hg2) _ b' Hb') as (_ & ? & _). cbn.
    split; [done|]. split; [done|]. by apply Hc2. }
  apply updateConsistentHashMap_ok in Hrun' as (U1 & _ & _ & U4); [|done|exact (g_vip _ Hg2)]. split; [|rewrite U1, <- Hd2; apply servers_altered].
  split; rewrite U1; [done|exact (g_vip _ Hg2)|done].
Qed.

(** ** Several servers *)
Lemma addBackendList_ok l : forall e e', good e -> Forall backend_ok l -> (size (service_backends_ (this e)) + length l <= 10)%nat ->
  addBackendList l e = (Ok tt, e') -> good e' /\ size (service_backends_ (this e')) = (size (service_backends_ (this e)) + length l)%nat.
Proof.
  induction l as [|c l IH]; intros e e' Hg Hl Hs Hrun; [injection Hrun as <-; split; [done|simpl; lia]|].
  apply list.Forall_cons in Hl as [Hc Hl]. cbn [length] in Hs. unfold addBackendList in Hrun. cbn [for_each] in Hrun.
  apply bind_Ok in Hrun as ([] & e1 & H1 & Hrun).
  apply addBackend_ok in H1 as (Hg1 & Hnew & b & Hb & _); [|exact (g_ok _ Hg)|exact (g_vip _ Hg)|done|lia].
  assert (size (service_backends_ (this e1)) = S (size (service_backends_ (this e)))) as Es by by rewrite Hb, map_size_insert_None.
  destruct (IH e1 e' Hg1 Hl ltac:(lia) Hrun) as [H2 H3]. split; [done|]. simpl. lia.
Qed.

Lemma update_ok c e e' : good e -> Forall backend_ok (default [] (js_backend c)) -> update c e = (Ok tt, e') ->
  good e' /\ servers (this e') = servers (this e).
Proof.
  intros Hg Hc Hrun. unfold update in Hrun. apply bind_Ok in Hrun as ([] & e1 & H1 & Hrun).
  assert (good e1 /\ servers (this e1) = servers (this e)) as [Hg1 Hd1].
  { destruct (js_name c) as [n|]; injection H1 as <-; [|done]. split; [|done]. destruct Hg as [[H1 H2 H3 H4 H5 H6] Hv Ha]. by split; [split| |]. }
  clear H1. destruct (js_backend c) as [l|]; [|by injection Hrun as <-]. cbn in Hc. revert e1 Hg1 Hd1 Hrun.
  induction Hc as [|x l Hx Hl IH]; intros e1 Hg1 Hd1 Hrun; [by injection Hrun as <-|]. cbn [for_each] in Hrun.
  apply bind_Ok in Hrun as ([] & e2 & H2 & Hrun). apply bind_Ok in H2 as (? & ? & [= <- <-] & H2).
  apply bind_Ok in H2 as (b & e3 & Hb & H2). injection Hb as _ <-. apply update_backend_ok in H2 as [Hg2 Hd2]; [|done|done].
  apply (IH e2 Hg2); [by rewrite Hd2|done].
Qed.
End facts.
