(* ===== verification/LbRun.v ===== *)
(** pcn-loadbalancer-rp, the life of a load balancer: requests, packets and changes of
    its ports, in any order; after all of them the program's table of services holds
    what the control plane was told. *)
From Stdlib Require Import ZArith Lia Ascii String.
From stdpp Require Import base gmap list strings numbers sorting.
From S2P Require Import Prelude.
From S2P Require Import Bpf.
From S2P Require Import NetUtils.
From S2P Require Import Frame.
From S2P Require Import Tables.
From S2P Require Import CubePorts.
From S2P Require Import LbDatapath.
From S2P Require Import LbService.
From S2P Require Import LbArray.
From S2P Require Import LbFacts.
#[local] Open Scope Z_scope.
#[local] Open Scope cpp_scope.

Section run.
Context `{StdLib} `{LbTables} `{JHash}.
Implicit Types (s : Lbrp) (svc : Service) (key : ServiceKey).

(** ** Keys *)
Record named key svc : Prop := {
  n_key : key = key_of (vip_ svc) (vport_ svc) (proto_ svc);
  n_vip : address_text (vip_ svc);
  n_vport : 0 <= vport_ svc < 2 ^ 16;
}.
Lemma proto_number_inj p q : convertProtoToNumber p = convertProtoToNumber q -> p = q.
Proof. by destruct p, q. Qed.
Lemma skey_inj key key' svc svc' i j : named key svc -> named key' svc' -> skey svc i = skey svc' j -> key = key'.
Proof.
  intros [-> (x & Hx & Ex & Ed)%address_text_ok Hp] [-> (x' & Hx' & Ex' & Ed')%address_text_ok Hp'] [= E1 E2 E3 _].
  unfold vip_num in E1. rewrite Ex, Ex' in E1. assert (vport_ svc = vport_ svc') as Ep.
  { rewrite <- (bswap16_involutive (vport_ svc)), <- (bswap16_involutive (vport_ svc')) by done. by rewrite E2. }
  assert (convertProtoToNumber (proto_ svc) = convertProtoToNumber (proto_ svc')) as Eq.
  { unfold proto_be in E3. rewrite <- (bswap16_involutive (convertProtoToNumber (proto_ svc))), E3, bswap16_involutive; [done|..].
    - by destruct (proto_ svc').
    - by destruct (proto_ svc). }
  unfold key_of. by rewrite Ep, Eq, Ed, Ed', E1.
Qed.

(** * The invariant *)
Record lb_ok s : Prop := {
  lo_named key svc : service_map_ s !! key = Some svc -> named key svc;
  lo_ok key svc : service_map_ s !! key = Some svc -> service_ok svc;
  lo_agree key svc : service_map_ s !! key = Some svc -> agree svc (services (lb_tables s));
  lo_known v : v_index v = 0 -> is_Some (m_lookup (services (lb_tables s)) v) ->
    exists key svc, service_map_ s !! key = Some svc /\ v = skey svc 0;
}.

Lemma agree_ext svc t t' : (forall i, m_lookup t' (skey svc i) = m_lookup t (skey svc i)) -> agree svc t -> agree svc t'.
Proof.
  intros He. unfold agree. case_decide; [by rewrite He|]. intros [H1' H2']. split; [by rewrite He|]. intros i Hi.
  destruct (H2' i Hi) as (v & Hv & Hs). exists v. by rewrite He.
Qed.
Lemma named_effect key (e e' : service_env) : effect e e' -> named key (this e) -> named key (this e').
Proof. intros [E1 E2 E3 _ _ _ _ _ _] [-> Hv Hp]. split; by rewrite ?E1, ?E2, ?E3. Qed.
Lemma good_of s key svc : lb_ok s -> service_map_ s !! key = Some svc -> good (ServiceEnv svc (lb_tables s) (lb_moment s)).
Proof. intros [H1' H2' H3' _] Hk. split; [by eapply H2'|by eapply H1'|by eapply H3']. Qed.

(** An operation on one service leaves the others as they are. *)
Lemma on_service_ok key (m : M service_env unit) s s' :
  lb_ok s -> local m ->
  (forall svc e', service_map_ s !! key = Some svc -> good (ServiceEnv svc (lb_tables s) (lb_moment s)) ->
     m (ServiceEnv svc (lb_tables s) (lb_moment s)) = (Ok tt, e') -> good e') ->
  on_service key m s = (Ok tt, s') -> lb_ok s' /\ dom (D := gset ServiceKey) (service_map_ s') = dom (service_map_ s).
Proof.
  intros Hok Hm Hgood Hrun. unfold on_service in Hrun. destruct (service_map_ s !! key) as [svc|] eqn:Ek; [|done].
  pose proof (good_of s key svc Hok Ek) as Hg. set (e := ServiceEnv _ _ _) in *.
  pose proof (Hm e (g_vip _ Hg)) as Heff. destruct (m e) as [r e'] eqn:Er. cbn [snd] in Heff.
  injection Hrun as -> <-. pose proof (Hgood svc e' eq_refl Hg Er) as Hg'. pose proof (lo_named s Hok key svc Ek) as Hn.
  pose proof (named_effect key e e' Heff Hn) as Hn'.
  split; [|cbn; rewrite dom_insert_L; apply elem_of_dom_2 in Ek; set_solver].
  split; cbn [service_map_ lb_tables].
  - intros k v [[<- <-]|[_ Hk]]%lookup_insert_Some; [done|by apply (lo_named s Hok)].
  - intros k v [[<- <-]|[_ Hk]]%lookup_insert_Some; [apply Hg'|by eapply (lo_ok s Hok)].
  - intros k v [[<- <-]|[Hne Hk]]%lookup_insert_Some; [apply Hg'|].
    apply (agree_ext v (services (lb_tables s))); [|by eapply (lo_agree s Hok)]. intros i. apply (ef_others _ _ Heff).
    intros j E. apply Hne. symmetry. by eapply (skey_inj k key v svc i j); [by apply (lo_named s Hok)|done|].
  - intros v Hv Hl. destruct (decide (v = skey svc 0)) as [->|Hne].
    + exists key, (this e'). rewrite lookup_insert_eq. split; [done|]. symmetry. exact (skey_effect e e' 0 Heff).
    + destruct (lo_known s Hok v Hv) as (k & svc' & Hk & ->).
      { change (lb_tables s) with (dp e). rewrite <- (ef_others _ _ Heff v); [done|]. intros i E. apply Hne. rewrite E in Hv |- *. cbn in Hv. by rewrite Hv. }
      exists k, svc'. split; [|done]. rewrite lookup_insert_ne; [done|]. intros <-. apply Hne. congruence.
Qed.

(** * Adding and removing services *)
Record conf_ok (c : ServiceJson) : Prop := {
  co_vip : address_text (js_vip c);
  co_vport : 0 <= js_vport c < 2 ^ 16;
  co_backend : Forall backend_ok (default [] (js_backend c));
  co_few : (length (default [] (js_backend c)) <= 10)%nat;
}.

Lemma service0_ok c : service_ok (service0 c).
Proof.
  split; cbn; [done|by rewrite map_size_empty; lia|..]; try (intros ? ? E; by rewrite lookup_empty in E).
  intros ? [? E]. by rewrite lookup_empty in E.
Qed.
Lemma set_object_ok o svc : service_ok svc -> service_ok (set_object o svc).
Proof. by intros []. Qed.

Lemma add_one_ok vip vport proto c s s' :
  lb_ok s -> conf_ok c -> js_vip c = vip -> js_vport c = vport -> js_proto c = proto -> add_one vip vport proto c s = (Ok tt, s') -> lb_ok s'.
Proof.
  intros Hok Hc <- <- <- Hrun. unfold add_one in Hrun. destruct (_ && _); [done|].
  set (key := key_of _ _ _) in *. destruct (service_map_ s !! key) as [svc|] eqn:Ek; [done|].
  set (e := ServiceEnv (service0 c) (lb_tables s) (lb_moment s)).
  assert (named key (this e)) as Hn by (split; [done|apply Hc|apply Hc]).
  assert (good e) as Hg.
  { split; [apply service0_ok|apply Hc|]. unfold agree. rewrite decide_True by done.
    destruct (m_lookup (services (dp e)) (skey (this e) 0)) eqn:El; [|done].
    destruct (lo_known s Hok (skey (this e) 0) eq_refl) as (k & svc' & Hk & E); [by eexists|].
    pose proof (skey_inj _ _ _ _ 0 0 Hn (lo_named s Hok _ _ Hk) E) as <-. congruence. }
  pose proof (local_addBackendList (default [] (js_backend c)) e (g_vip _ Hg)) as Heff.
  unfold new_Service in Hrun. fold e in Hrun. destruct (addBackendList _ e) as [r e'] eqn:Er. cbn [snd] in Heff.
  destruct r; [|done..]. injection Hrun as <-. destruct a.
  destruct (addBackendList_ok _ e e' Hg (co_backend c Hc)) as [Hg' _]; [|done|].
  { pose proof (co_few c Hc). cbn. rewrite map_size_empty. lia. }
  pose proof (named_effect key e e' Heff Hn) as Hn'.
  split; cbn [service_map_ lb_tables].
  - intros k v [[<- <-]|[_ Hk]]%lookup_insert_Some; [|by apply (lo_named s Hok)]. destruct Hn'. by split.
  - intros k v [[<- <-]|[_ Hk]]%lookup_insert_Some; [apply set_object_ok, Hg'|by eapply (lo_ok s Hok)].
  - intros k v [[<- <-]|[Hne Hk]]%lookup_insert_Some; [exact (g_agree _ Hg')|].
    apply (agree_ext v (services (lb_tables s))); [|by eapply (lo_agree s Hok)]. intros i. apply (ef_others _ _ Heff).
    intros j E. apply Hne. symmetry. by eapply (skey_inj k key v (this e) i j); [by apply (lo_named s Hok)|done|].
  - intros v Hv Hl. destruct (decide (v = skey (this e) 0)) as [->|Hne].
    + exists key, (set_object InMap (this e')). rewrite lookup_insert_eq. split; [done|]. symmetry. exact (skey_effect e e' 0 Heff).
    + destruct (lo_known s Hok v Hv) as (k & svc' & Hk & ->).
      { change (lb_tables s) with (dp e). rewrite <- (ef_others _ _ Heff v); [done|]. intros i E. apply Hne. rewrite E in Hv |- *. cbn in Hv. by rewrite Hv. }
      exists k, svc'. split; [|done]. rewrite lookup_insert_ne; [done|]. intros <-. congruence.
Qed.
Lemma addService_ok c s s' : lb_ok s -> conf_ok c -> addService (js_vip c) (js_vport c) (js_proto c) c s = (Ok tt, s') -> lb_ok s'.
Proof.
  intros Hok Hc Hrun. assert (forall p, conf_ok (with_proto p c)) as Hp by (intros p; by destruct Hc).
  assert (conf_ok (with_vport 0 (with_proto P_ICMP c))) as Hv by (destruct Hc; by split).
  unfold addService in Hrun. destruct (js_proto c) eqn:Ep; try (by eapply (add_one_ok _ _ _ c)).
  apply bind_Ok in Hrun as ([] & s1 & H1' & Hrun). apply bind_Ok in Hrun as ([] & s2 & H2' & Hrun).
  apply add_one_ok in H1'; [|done..]. apply add_one_ok in H2'; [|done..]. by apply add_one_ok in Hrun.
Qed.

Lemma delBackendList_service_ok key s s' : lb_ok s -> on_service key delBackendList s = (Ok tt, s') -> lb_ok s'.
Proof.
  intros Hok Hrun. eapply on_service_ok; [done|apply local_delBackendList| |done].
  intros svc e' _ Hg Hr. by apply delBackendList_ok in Hr as [? _].
Qed.
Lemma del_one_ok vip vport proto s s' : lb_ok s -> del_one vip vport proto s = (Ok tt, s') -> lb_ok s'.
Proof.
  intros Hok Hrun. unfold del_one in Hrun. destruct (_ && _); [done|]. set (key := key_of _ _ _) in *.
  apply bind_Ok in Hrun as ([] & s1 & H1' & [= <-]). pose proof (delBackendList_service_ok key s s1 Hok H1') as Hok1.
  assert (forall svc, service_map_ s1 !! key = Some svc -> service_backends_ svc = ∅) as Hz.
  { unfold on_service in H1'. destruct (service_map_ s !! key) as [svc|] eqn:Ek; [|done]. pose proof (good_of s key svc Hok Ek) as Hg.
    destruct (delBackendList _) as [r e'] eqn:Er. injection H1' as -> <-. apply delBackendList_ok in Er as [_ Er]; [|done].
    intros svc'. cbn. rewrite lookup_insert_eq. by intros [= <-]. }
  split; cbn [service_map_ lb_tables set_service_map].
  - intros k v [_ Hk]%lookup_delete_Some. by apply (lo_named s1 Hok1).
  - intros k v [_ Hk]%lookup_delete_Some. by eapply (lo_ok s1 Hok1).
  - intros k v [_ Hk]%lookup_delete_Some. by eapply (lo_agree s1 Hok1).
  - intros v Hv Hl. destruct (lo_known s1 Hok1 v Hv Hl) as (k & svc & Hk & ->). exists k, svc. split; [|done].
    rewrite lookup_delete_ne; [done|]. intros <-. pose proof (lo_agree s1 Hok1 key svc Hk) as Ha. unfold agree in Ha.
    rewrite decide_True in Ha by by apply Hz. rewrite Ha in Hl. by destruct Hl.
Qed.
Lemma delService_ok vip vport proto s s' : lb_ok s -> delService vip vport proto s = (Ok tt, s') -> lb_ok s'.
Proof.
  intros Hok Hrun. unfold delService in Hrun. destruct proto; try (by eapply del_one_ok).
  apply bind_Ok in Hrun as ([] & s1 & H1' & Hrun). apply bind_Ok in Hrun as ([] & s2 & H2' & Hrun).
  apply del_one_ok in H1'; [|done]. apply del_one_ok in H2'; [|done]. by apply del_one_ok in Hrun.
Qed.
(** A loop over requests. *)
Lemma for_each_ok {A} (l : list A) (body : A -> M Lbrp unit) s s' :
  lb_ok s -> (forall x s s', x ∈ l -> lb_ok s -> body x s = (Ok tt, s') -> lb_ok s') -> for_each l body s = (Ok tt, s') -> lb_ok s'.
Proof.
  revert s. induction l as [|x l IH]; intros s Hok Hb Hrun; [by injection Hrun as <-|]. cbn [for_each] in Hrun.
  apply bind_Ok in Hrun as ([] & s1 & H1' & Hrun). eapply IH; [| |done]; [eapply Hb; [by left|done|done]|].
  intros y t t' Hy. apply Hb. by right.
Qed.

(** * Requests that the data model allows, for at most ten servers to a service *)
Definition few s key (n : nat) : Prop := forall svc, service_map_ s !! key = Some svc -> (size (service_backends_ svc) + n <= 10)%nat.
Definition op_ok (op : lb_op) s : Prop :=
  match op with
  | AddService c | ReplaceService c => conf_ok c
  | AddServices l => Forall conf_ok l
  | UpdateServices l => Forall (fun c => Forall backend_ok (default [] (js_backend c))) l
  | AddBackend key c => backend_ok c /\ few s key 1
  | AddBackends key l => Forall backend_ok l /\ few s key (length l)
  | ReplaceBackend _ c | UpdateBackend _ c => backend_ok c
  | ReplaceBackends _ l => Forall backend_ok l /\ (length l <= 10)%nat
  | DelService _ _ _ | DelServices | DelBackend _ _ | DelBackends _ => True
  end.

Lemma addBackend_good c svc e' s : backend_ok c -> (size (service_backends_ svc) + 1 <= 10)%nat -> good (ServiceEnv svc (lb_tables s) (lb_moment s)) ->
  addBackend (j_ip c) c (ServiceEnv svc (lb_tables s) (lb_moment s)) = (Ok tt, e') -> good e'.
Proof. intros Hc Hf Hg Hr. apply addBackend_ok in Hr as [? _]; [done|apply Hg|exact (g_vip _ Hg)|done|cbn; lia]. Qed.

Lemma run_op_ok op s s' : lb_ok s -> op_ok op s -> run_op op s = (Ok tt, s') -> lb_ok s'.
Proof.
  intros Hok Hop Hrun. destruct op as [c|l|vip vport proto| |c|l|key c|key l|key ip|key|key c|key l|key c]; cbn [run_op op_ok] in *.
  - by eapply addService_ok.
  - eapply for_each_ok; [done| |done]. intros c t t' Hc Ht. apply addService_ok; [done|]. by apply (proj1 (list.Forall_forall _ _) Hop).
  - by eapply delService_ok.
  - apply bind_Ok in Hrun as (? & ? & [= <- <-] & Hrun). eapply for_each_ok; [done| |done]. intros it t t' _ Ht. by apply delService_ok.
  - apply bind_Ok in Hrun as ([] & s1 & H1' & Hrun). apply delService_ok in H1'; [|done]. by eapply addService_ok.
  - eapply for_each_ok; [done| |done]. intros c t t' Hc Ht Hr. eapply on_service_ok; [done|apply local_update| |exact Hr].
    intros svc e' _ Hg Hr'. apply update_ok in Hr' as [? _]; [done|done|]. by apply (proj1 (list.Forall_forall _ _) Hop).
  - destruct Hop as [Hc Hf]. eapply on_service_ok; [done|apply local_addBackend| |done]. intros svc e' Hk Hg Hr. eapply addBackend_good; [done|by apply Hf|done|done].
  - destruct Hop as [Hc Hf]. eapply on_service_ok; [done|apply local_addBackendList| |done]. intros svc e' Hk Hg Hr.
    apply addBackendList_ok in Hr as [? _]; [done..|]. cbn. by apply Hf.
  - eapply on_service_ok; [done|apply local_delBackend| |done]. intros svc e' Hk Hg Hr. by apply delBackend_ok in Hr as [? _].
  - by eapply delBackendList_service_ok.
  - eapply on_service_ok; [done| | |done]; [apply local_bind; [apply local_delBackend|intros _; apply local_addBackend]|].
    intros svc e' Hk Hg Hr. apply bind_Ok in Hr as ([] & e1 & H1' & Hr). apply delBackend_ok in H1' as (Hg1 & [b Hb] & Hd); [|done].
    apply addBackend_ok in Hr as [? _]; [done|apply Hg1|exact (g_vip _ Hg1)|done|].
    rewrite Hd, map_size_delete, Hb. pose proof (so_few _ (g_ok _ Hg)). cbn in *. lia.
  - destruct Hop as [Hc Hf]. eapply on_service_ok; [done| | |done]; [apply local_bind; [apply local_delBackendList|intros _; apply local_addBackendList]|].
    intros svc e' Hk Hg Hr. apply bind_Ok in Hr as ([] & e1 & H1' & Hr). apply delBackendList_ok in H1' as [Hg1 Hd]; [|done].
    apply addBackendList_ok in Hr as [? _]; [done..|]. rewrite Hd, map_size_empty. lia.
  - eapply on_service_ok; [done| | |done].
    + apply local_get_bind. intros e He. apply local_at; [done|]. intros b _. by apply local_update_backend.
    + intros svc e' Hk Hg Hr. apply bind_Ok in Hr as (? & ? & [= <- <-] & Hr). apply bind_Ok in Hr as (b & e1 & Hb & Hr). injection Hb as _ <-.
      by apply update_backend_ok in Hr as [? _].
Qed.

(** * Events *)
Inductive lb_event :=
  | Request (op : lb_op)
  | Packet (frame : list Z) (in_port : Z)
  | Configure (rewrite : rewriteT) (frontends : frontendT) (defs : gmap string Z).   (** by SrcIpRewrite.cpp and the ports *)
Definition with_tables (d : lb_dp) s : Lbrp := MkLbrp (service_map_ s) d (lb_moment s).
Definition run_event (ev : lb_event) s : res unit * Lbrp :=
  match ev with
  | Request op => run_op op s
  | Packet frame in_port => (Ok tt, with_tables (handle_rx frame in_port (lb_tables s)).2 s)
  | Configure r f d => (Ok tt, with_tables (set_defines d (set_ip_to_frontend_port f (set_src_ip_rewrite r (lb_tables s)))) s)
  end.
Definition event_ok (ev : lb_event) s : Prop := match ev with Request op => op_ok op s | _ => True end.

(** A request that throws and changes nothing may come at any time; the constructor's
    requests are the first ones. *)
Definition initial s : Prop :=
  service_map_ s = ∅ /\ (forall v, m_lookup (services (lb_tables s)) v = None) /\ forall h, lru_lookup (hash_session (lb_tables s)) h = None.
Inductive reachable : Lbrp -> Prop :=
  | reachable_initial s : initial s -> reachable s
  | reachable_step ev s r s' : reachable s -> event_ok ev s -> run_event ev s = (r, s') -> (r = Ok tt \/ s' = s) -> reachable s'.

(** A packet changes the sessions only. *)
Lemma handle_rx_tables frame in_port (d : lb_dp) :
  exists t, (handle_rx frame in_port d).2 = set_hash_session t d.
Proof.
  assert (exists t, d = set_hash_session t d) as Hid by (exists (hash_session d); by destruct d). unfold handle_rx.
  destruct (beyond frame 14); [done|]. destruct (_ =? _); [|by destruct (_ =? _)]. destruct (beyond frame _); [done|].
  destruct (parse_l4 frame) as [[[[source dest] proto] off]|]; [|done]. destruct (negb _); [|done].
  unfold from_frontend. destruct (m_lookup _ _) as [v|]; [|done]. unfold get_bck_ip. destruct (_ =? 0); [done|].
  destruct (m_lookup _ _) as [b|]; [|done].
  destruct (rewrite_of d _); (destruct (rewrite_of _ _) as [v'|]; [destruct (sense v' =? _)|]); first [done|by eexists].
Qed.
Lemma lb_event_kept ev s s' : lb_ok s -> event_ok ev s -> run_event ev s = (Ok tt, s') -> lb_ok s'.
Proof.
  intros Hok He Hr. destruct ev as [op|frame p|r f d]; cbn in Hr; [by eapply run_op_ok| |].
  - injection Hr as <-. destruct (handle_rx_tables frame p (lb_tables s)) as [t ->]. destruct Hok as [O1 O2 O3 O4]. by split.
  - injection Hr as <-. destruct Hok as [O1 O2 O3 O4]. by split.
Qed.
Lemma lb_reachable_ok s : reachable s -> lb_ok s.
Proof.
  induction 1 as [s (Hm & Hs & _)|ev s r s' _ IH He Hr Hres].
  - split; rewrite ?Hm; try (intros ? ? E; by rewrite lookup_empty in E). intros v _ [x Hx]. by rewrite Hs in Hx.
  - destruct Hres as [-> | ->]; [by eapply lb_event_kept|done].
Qed.
End run.
