(* ===== verification/LbTheorems.v ===== *)
(** pcn-loadbalancer-rp, its properties: the consistent array, the tables of services,
    and packets to a service and back; with a small concrete load balancer. *)
From Stdlib Require Import ZArith Lia Ascii String.
From stdpp Require Import base gmap list strings numbers sorting.
From S2P Require Import Prelude.
From S2P Require Import Bpf.
From S2P Require Import NetUtils.
From S2P Require Import Frame.
From S2P Require Import Csum.
From S2P Require Import Tables.
From S2P Require Import CubePorts.
From S2P Require Import LbDatapath.
From S2P Require Import LbService.
From S2P Require Import LbArray.
From S2P Require Import LbFacts.
From S2P Require Import LbRun.
#[local] Open Scope Z_scope.
#[local] Open Scope cpp_scope.

(** Packets, one after the other. *)
Definition run_packets `{LbTables} `{JHash} (l : list (list Z * Z)) (d : lb_dp) : lb_dp :=
  fold_left (fun d p => (handle_rx p.1 p.2 d).2) l d.
(** What a packet to a service leads to: the flow between the client and the server,
    and the address that the client asked for. *)
Definition session_of `{LbTables} `{JHash} (frame : list Z) (d : lb_dp) : option (sessions * vip) :=
  '(source, dest, proto, _) ← parse_l4 frame;
  bv ← m_lookup (services d) (Vip (rd32 frame 30) dest proto 0);
  b ← m_lookup (services d) (Vip (rd32 frame 30) dest proto
        (u16 (jhash (Sessions (rd32 frame 26) (rd32 frame 30) source dest proto) mod b_port bv + 1)));
  Some (Sessions (rd32 frame 26) (b_ip b) source (if proto =? bswap16 IPPROTO_ICMP then dest else b_port b) proto,
        Vip (rd32 frame 30) dest proto 0).

Section packets.
Context `{StdLib} `{LbTables} `{JHash}.
Implicit Types (s : Lbrp) (svc : Service) (key : ServiceKey) (d : lb_dp).

(** ** The server of a flow *)
Lemma slot_value_ok svc ip b : service_ok svc -> service_backends_ svc !! ip = Some b ->
  exists x, ip_string_to_nbo_uint ip = Ok x /\ slot_value svc b = Some (Backend x (bswap16 (port_ b)) (proto_be svc)) /\ 0 <= x < 2 ^ 32.
Proof.
  intros Hok Hb. destruct (so_servers _ Hok ip b Hb) as (Ei & _). destruct (so_rows _ Hok ip b Hb) as (row & Hr & _).
  destruct (address_text_ok ip) as (x & Hx & E & _); [apply (so_texts _ Hok); by eexists|].
  exists x. split; [done|]. split; [|done]. unfold slot_value. by rewrite Ei, E.
Qed.
(** The server that a flow of packets to the service is given. *)
Definition chosen d (k : sessions) : option backend := m_lookup (services d) (Vip (ip_dst k) (port_dst k) (s_proto k) (jhash k mod SLOTS + 1)).
Lemma chosen_server d svc k : service_ok svc -> agree svc (services d) -> service_backends_ svc <> ∅ ->
  Vip (ip_dst k) (port_dst k) (s_proto k) 0 = skey svc 0 ->
  m_lookup (services d) (skey svc 0) = Some (Backend (vip_num svc) SLOTS 0) /\
  exists ip b x, service_backends_ svc !! ip = Some b /\ ip_string_to_nbo_uint ip = Ok x /\ 0 <= x < 2 ^ 32 /\
    chosen d k = Some (Backend x (bswap16 (port_ b)) (proto_be svc)).
Proof.
  intros Hok Ha Hne [= E1 E2 E3]. unfold agree in Ha. rewrite decide_False in Ha by done. destruct Ha as [Ha Hs]. split; [done|].
  destruct (Hs (jhash k mod SLOTS + 1)) as (v & Hv & ip & b & Hb & Hval).
  { pose proof (Z.mod_pos_bound (jhash k) SLOTS ltac:(done)). lia. }
  destruct (slot_value_ok svc ip b Hok Hb) as (x & Ex & Hval' & Hx). exists ip, b, x. split; [done|]. split; [done|]. split; [done|].
  unfold chosen. rewrite E1, E2, E3. change (Vip (vip_num svc) (bswap16 (vport_ svc)) (proto_be svc) ?i) with (skey svc i). congruence.
Qed.
Lemma get_bck_ip_chosen d k b : chosen d k = Some b -> exists t, get_bck_ip k SLOTS d = (Some b, set_hash_session t d) /\
  (rewrite_of d (ip_dst k) = None -> t = lru_update (hash_session d)
     (jhash (Sessions (ip_src k) (b_ip b) (port_src k) (if s_proto k =? bswap16 IPPROTO_ICMP then port_dst k else b_port b) (s_proto k)))
     (Vip (ip_dst k) (port_dst k) (s_proto k) 0)).
Proof.
  intros Hc. unfold get_bck_ip. change (SLOTS =? 0) with false. cbn iota zeta.
  assert (u16 (jhash k mod SLOTS + 1) = jhash k mod SLOTS + 1) as ->.
  { pose proof (Z.mod_pos_bound (jhash k) SLOTS ltac:(done)). apply Z.mod_small. unfold SLOTS, INITIAL_BACKEND_SIZE, BACKEND_REPLICAS in *. lia. }
  unfold chosen in Hc. rewrite Hc. destruct (rewrite_of d (ip_dst k)); [|by eexists]. exists (hash_session d). split; [by destruct d|done].
Qed.

(** The program up to the two directions. *)
Lemma handle_rx_l4 f source dest proto flag in_port d : l4_packet f source dest proto flag ->
  handle_rx f in_port d = if negb (in_port =? BACKEND_PORT d) then from_frontend f source dest proto flag d else (from_backend f source dest proto flag d, d).
Proof.
  intros [_ Ht Hp Hl]. unfold handle_rx. assert (beyond f 14 = false) as -> by (apply not_beyond; lia).
  assert (beyond f (14 + 20) = false) as -> by (apply not_beyond; lia). by rewrite Ht, Z.eqb_refl, Hp.
Qed.
(** A packet to a service with servers. *)
Lemma packet_to_service f source dest proto flag in_port d svc :
  l4_packet f source dest proto flag -> in_port <> BACKEND_PORT d ->
  service_ok svc -> agree svc (services d) -> service_backends_ svc <> ∅ -> Vip (rd32 f 30) dest proto 0 = skey svc 0 ->
  (forall v, rewrite_of d (rd32 f 26) = Some v -> sense v <> FROM_FRONTEND) ->
  let k := Sessions (rd32 f 26) (rd32 f 30) source dest proto in
  exists ip b x h t, service_backends_ svc !! ip = Some b /\ ip_string_to_nbo_uint ip = Ok x /\
    chosen d k = Some (Backend x (bswap16 (port_ b)) (proto_be svc)) /\
    get_bck_ip k SLOTS d = (Some (Backend x (bswap16 (port_ b)) (proto_be svc)), set_hash_session t d) /\
    handle_rx f in_port d = (L_REDIRECT (BACKEND_PORT d), h, set_hash_session t d) /\
    translated_packet flag f h (rd32 f 26) x (rd16 f 34) (bswap16 (port_ b)).
Proof.
  intros Hp Hport Hok Ha Hne Ek Hr k. destruct (chosen_server d svc k Hok Ha Hne Ek) as (Hv & ip & b & x & Hb & Ex & Hx & Hc).
  destruct (get_bck_ip_chosen d k _ Hc) as (t & Hg & _).
  destruct (from_frontend_run f source dest proto flag d (set_hash_session t d) (Backend (vip_num svc) SLOTS 0) _ Hp ltac:(by rewrite Ek) Hg) as (h & Hh & Ht).
  - exact Hr.
  - done.
  - apply bswap16_range.
  - exists ip, b, x, h, t. split; [done|]. split; [done|]. split; [done|]. split; [done|]. split; [|done].
    rewrite (handle_rx_l4 f source dest proto flag) by done. destruct (Z.eqb_spec in_port (BACKEND_PORT d)); [done|]. exact Hh.
Qed.
End packets.

(** ** The sessions of the program *)
Section sessions.
Context `{StdLib} `{LbTables} `{JHash}.
Implicit Types (s : Lbrp) (svc : Service) (key : ServiceKey) (d : lb_dp).

(** What packets leave as it is. *)
Definition same_but_sessions d d' : Prop := exists t, d' = set_hash_session t d.
Lemma run_packets_tables l : forall d, same_but_sessions d (run_packets l d).
Proof.
  induction l as [|[f p] l IH]; intros d; [exists (hash_session d); by destruct d|]. cbn [run_packets fold_left fst snd].
  destruct (handle_rx_tables f p d) as [t ->]. destruct (IH (set_hash_session t d)) as [t' E]. exists t'. exact E.
Qed.
Lemma session_of_tables f t d : session_of f (set_hash_session t d) = session_of f d.
Proof. done. Qed.

(** A packet whose session has another hash, or leads to the same address, leaves a
    session as it is, or the table drops it. *)
Definition undisturbed (h : Z) (v : vip) d (f : list Z) : Prop := forall k v', session_of f d = Some (k, v') -> jhash k = h -> v' = v.
Lemma get_bck_ip_session k n d : n <> 0 ->
  (get_bck_ip k n d).2 = d \/
  exists b, m_lookup (services d) (Vip (ip_dst k) (port_dst k) (s_proto k) (u16 (jhash k mod n + 1))) = Some b /\
    (get_bck_ip k n d).2 = set_hash_session (lru_update (hash_session d)
       (jhash (Sessions (ip_src k) (b_ip b) (port_src k) (if s_proto k =? bswap16 IPPROTO_ICMP then port_dst k else b_port b) (s_proto k)))
       (Vip (ip_dst k) (port_dst k) (s_proto k) 0)) d.
Proof.
  intros Hn. unfold get_bck_ip. destruct (Z.eqb_spec n 0); [done|]. cbv zeta. destruct (m_lookup _ _) as [b|]; [|by left].
  destruct (rewrite_of d _); [by left|]. right. by exists b.
Qed.
Lemma from_frontend_session f source dest proto flag d :
  (from_frontend f source dest proto flag d).2 = d \/
  exists bv, m_lookup (services d) (Vip (rd32 f 30) dest proto 0) = Some bv /\ b_port bv <> 0 /\
    (from_frontend f source dest proto flag d).2 = (get_bck_ip (Sessions (rd32 f 26) (rd32 f 30) source dest proto) (b_port bv) d).2.
Proof.
  unfold from_frontend. destruct (m_lookup _ _) as [bv|]; [|by left]. destruct (Z.eqb_spec (b_port bv) 0) as [E|E].
  - left. unfold get_bck_ip. rewrite E. done.
  - right. exists bv. split; [done|]. split; [done|]. destruct (get_bck_ip _ _ d) as [[b|] d']; [|done].
    destruct (rewrite_of d' _) as [v|]; [destruct (sense v =? _)|]; done.
Qed.
Lemma handle_rx_session h v f p d : undisturbed h v d f -> lru_lookup (hash_session d) h = Some v \/ lru_lookup (hash_session d) h = None ->
  let d' := (handle_rx f p d).2 in lru_lookup (hash_session d') h = Some v \/ lru_lookup (hash_session d') h = None.
Proof.
  intros Hu Hs d'. subst d'. unfold handle_rx. destruct (beyond f 14); [done|]. destruct (_ =? _); [|by destruct (_ =? _)].
  destruct (beyond f _); [done|]. destruct (parse_l4 f) as [[[[source dest] proto] flag]|] eqn:Ep; [|done]. destruct (negb _); [|done].
  destruct (from_frontend_session f source dest proto flag d) as [->|(bv & Hbv & Hn & ->)]; [done|].
  destruct (get_bck_ip_session (Sessions (rd32 f 26) (rd32 f 30) source dest proto) (b_port bv) d Hn) as [->|(b & Hb & ->)]; [done|].
  cbn [ip_src ip_dst port_src port_dst s_proto] in *. cbn [hash_session set_hash_session].
  match goal with |- context [lru_update _ ?x ?y] => set (h' := x); set (v' := y) end.
  destruct (decide (h' = h)) as [E|E].
  - left. rewrite <- E, lru_update_eq. f_equal. eapply Hu; [|exact E]. unfold session_of. rewrite Ep. cbn. rewrite Hbv. cbn. rewrite Hb. done.
  - destruct (lru_update_ne (hash_session d) h' v' h E) as [-> | ->]; [done|by right].
Qed.
Lemma run_packets_session h v l : forall d, Forall (fun p => undisturbed h v d p.1) l ->
  lru_lookup (hash_session d) h = Some v \/ lru_lookup (hash_session d) h = None ->
  lru_lookup (hash_session (run_packets l d)) h = Some v \/ lru_lookup (hash_session (run_packets l d)) h = None.
Proof.
  induction l as [|[f p] l IH]; intros d Hl Hs; [done|]. apply list.Forall_cons in Hl as [Hf Hl]. cbn [run_packets fold_left fst snd].
  pose proof (handle_rx_session h v f p d Hf Hs) as Hs'. apply IH; [|done].
  destruct (handle_rx_tables f p d) as [t ->]. exact Hl.
Qed.
End sessions.

(** * The properties *)
Section properties.
Context `{StdLib} `{LbTables} `{JHash}.
Implicit Types (s : Lbrp) (svc : Service) (key : ServiceKey) (e : service_env).

Lemma total_weight_eq e : weight_sum (backends_in_order e) = total_weight (this e).
Proof.
  unfold total_weight, weight_sum, backends_in_order.
  rewrite (zsum_perm _ _ _ (iterate_permutation (moment e) (service_backends_ (this e)))).
  rewrite map_fold_foldr. induction (map_to_list _) as [|[k b] l IH]; [done|]. rewrite zsum_cons, IH. done.
Qed.

(** C26. The consistent array of a service with at most ten servers, one of which has
    a weight, is computed, whatever the order of the hash map and the random orders
    of slots are: it has thirty slots and each holds a server with a weight. *)
Theorem consistent_array_full e :
  service_ok (this e) -> (exists ip, active (this e) ip) ->
  exists arr, getConsistentArray e = Ok arr /\ length arr = 30%nat /\ Forall (active (this e)) arr.
Proof using Type.
  intros Hok Ha. destruct (getConsistentArray_run e Hok Ha) as (arr & pool & E & Hl & Hin & _). exists arr. split; [done|].
  split; [by apply (inj Z.of_nat)|]. apply list.Forall_forall, Hin.
Qed.

(** C27. When no weight is less than a thirtieth of the sum, every server gets its
    share of the slots, give or take one slot (and 2^-14 of a slot, by which the
    float may be wrong). *)
Theorem consistent_array_shares e arr :
  service_ok (this e) -> getConsistentArray e = Ok arr ->
  (forall ip b, service_backends_ (this e) !! ip = Some b -> weight_ b <> 0 -> total_weight (this e) <= 30 * weight_ b) ->
  forall ip b, service_backends_ (this e) !! ip = Some b -> weight_ b <> 0 ->
    2 ^ 14 * Z.abs (occ ip arr * total_weight (this e) - 30 * weight_ b) <= (2 ^ 14 + 1) * total_weight (this e).
Proof using Type.
  intros Hok Harr Hbig ip b Hb Hw. assert (active (this e) ip) as Ha by by exists b.
  destruct (getConsistentArray_run e Hok (ex_intro _ ip Ha)) as (arr' & pool & E & _ & _ & Hshare & Hexact).
  rewrite Harr in E. injection E as <-. destruct (weights_of_service (moment e) (this e) Hok) as (_ & Hws & _). fold (backends_in_order e) in Hws.
  assert (forall p, p ∈ backends_in_order e <-> service_backends_ (this e) !! p.1 = Some p.2) as Hl.
  { intros [k v]. unfold backends_in_order. rewrite (iterate_permutation (moment e) _). apply elem_of_map_to_list. }
  assert (Forall (fun p => 0 <= weight_ p.2 <= weight_sum (backends_in_order e)) (backends_in_order e)) as Hle.
  { apply list.Forall_forall. intros p Hp. by apply weight_le_sum. }
  pose proof (proj1 (list.Forall_forall _ _) Hle (ip, b) ltac:(by apply Hl)) as Hwb. cbn [snd] in Hwb.
  pose proof (raw_sum_upper SLOTS (weight_sum (backends_in_order e)) (backends_in_order e) ltac:(done) Hle) as Hup.
  rewrite total_weight_eq in *. set (W := total_weight (this e)) in *.
  specialize (Hup ltac:(intros p Hp Hpw; apply (Hbig p.1); [by apply Hl|done])).
  change SLOTS with 30 in *. assert (raw_sum 30 W (backends_in_order e) <= 30) as Hs by nia.
  destruct (Hshare ip b Hb Hw) as [_ Hr]. rewrite (Hexact Hs ip Ha).
  destruct (raw_share_spec 30 W (weight_ b)) as (_ & R1 & R2); [lia..|]. specialize (R2 (Hbig ip b Hb Hw)).
  set (r := raw_share 30 W (weight_ b)) in *. cbv zeta in Hr. destruct Hr as [-> | ->]; lia.
Qed.

(** C28. In every state that packets, changes of the ports and of the source rewriting,
    and requests that succeed or that throw and change nothing can lead to, with at most
    ten servers to a service, addresses in dotted form and 16-bit ports and weights, the
    program's table of services leads from every service with servers to thirty slots
    with the addresses and ports of servers that it has now, and knows no service but
    those that have servers. A request that throws half way can leave a service that the
    control plane does not know, see [failed_service_stays]. *)
Theorem tables_lead_to_servers s :
  reachable s ->
  (forall key svc, service_map_ s !! key = Some svc -> service_backends_ svc <> ∅ ->
     m_lookup (services (lb_tables s)) (skey svc 0) = Some (Backend (vip_num svc) 30 0) /\
     forall i, 1 <= i <= 30 -> exists ip b x, service_backends_ svc !! ip = Some b /\ ip_string_to_nbo_uint ip = Ok x /\
       m_lookup (services (lb_tables s)) (skey svc i) = Some (Backend x (bswap16 (port_ b)) (proto_be svc))) /\
  (forall v, v_index v = 0 -> is_Some (m_lookup (services (lb_tables s)) v) ->
     exists key svc, service_map_ s !! key = Some svc /\ service_backends_ svc <> ∅ /\ v = skey svc 0).
Proof using Type.
  intros [_ Hok Ha Hk]%lb_reachable_ok. split.
  - intros key svc Hs Hne. pose proof (Ha key svc Hs) as Hag. unfold agree in Hag. rewrite decide_False in Hag by done.
    destruct Hag as [Hag Hsl]. split; [done|]. intros i Hi. destruct (Hsl i Hi) as (v & Hv & ip & b & Hb & Hbv).
    destruct (slot_value_ok svc ip b (Hok key svc Hs) Hb) as (x & Ex & Hbv' & _). exists ip, b, x. rewrite Hv. split; [done|]. split; [done|]. congruence.
  - intros v Hv Hl. destruct (Hk v Hv Hl) as (key & svc & Hs & ->). exists key, svc. split; [done|]. split; [|done]. intros Hz.
    pose proof (Ha key svc Hs) as Hag. unfold agree in Hag. rewrite decide_True in Hag by done. rewrite Hag in Hl. by destruct Hl.
Qed.

(** C29. In the states of [tables_lead_to_servers], a packet without IP options that is
    TCP, UDP or an ICMP echo, that comes from another port than the servers' and whose
    sender is not subject to source rewriting goes, when its destination is a service
    with servers, to one of these: with the server's address and port, the same sender,
    right checksums if they were right, and everything else as it was; when its
    destination is no such service it goes to the servers' port as it is. *)
Theorem client_packets s f source dest proto flag in_port :
  reachable s -> l4_packet f source dest proto flag -> in_port <> BACKEND_PORT (lb_tables s) ->
  (forall v, rewrite_of (lb_tables s) (rd32 f 26) = Some v -> sense v <> FROM_FRONTEND) ->
  let d := lb_tables s in
  (exists key svc ip b x h d', service_map_ s !! key = Some svc /\ skey svc 0 = Vip (rd32 f 30) dest proto 0 /\
     service_backends_ svc !! ip = Some b /\ ip_string_to_nbo_uint ip = Ok x /\
     handle_rx f in_port d = (L_REDIRECT (BACKEND_PORT d), h, d') /\
     translated_packet flag f h (rd32 f 26) x (rd16 f 34) (bswap16 (port_ b))) \/
  ((forall key svc, service_map_ s !! key = Some svc -> service_backends_ svc <> ∅ -> skey svc 0 <> Vip (rd32 f 30) dest proto 0) /\
     handle_rx f in_port d = (L_REDIRECT (BACKEND_PORT d), f, d)).
Proof using Type.
  intros [_ Hok Ha Hk]%lb_reachable_ok Hp Hport Hr d.
  destruct (m_lookup (services d) (Vip (rd32 f 30) dest proto 0)) as [bv|] eqn:El.
  - left. destruct (Hk (Vip (rd32 f 30) dest proto 0) eq_refl) as (key & svc & Hs & Ek); [by eexists|].
    assert (service_backends_ svc <> ∅) as Hne.
    { intros Hz. pose proof (Ha key svc Hs) as Hag. unfold agree in Hag. rewrite decide_True in Hag by done. subst d. congruence. }
    destruct (packet_to_service f source dest proto flag in_port d svc Hp Hport (Hok key svc Hs) (Ha key svc Hs) Hne Ek Hr)
      as (ip & b & x & h & t & Hb & Ex & _ & _ & Hrun & Ht). exists key, svc, ip, b, x, h, (set_hash_session t d). done.
  - right. split.
    + intros key svc Hs Hne E. pose proof (Ha key svc Hs) as Hag. unfold agree in Hag. rewrite decide_False in Hag by done. destruct Hag as [Hag _].
      rewrite E in Hag. subst d. congruence.
    + rewrite (handle_rx_l4 f source dest proto flag) by done. destruct (Z.eqb_spec in_port (BACKEND_PORT d)); [done|].
      unfold from_frontend. by rewrite El.
Qed.

Lemma translated_dst flag f h saddr daddr sport dport : translated_packet flag f h saddr daddr sport dport ->
  rd32 h 30 = daddr /\ (is_flag flag -> rd16 h 36 = dport).
Proof. intros [[Hf []]|[-> []]]; [done|]. split; [done|]. intros [E|E]; done. Qed.

Lemma from_backend_miss f source dest proto flag (d : lb_dp) fe :
  rewrite_of d (rd32 f 30) = None ->
  lru_lookup (hash_session d) (jhash (if proto =? bswap16 IPPROTO_ICMP then Sessions (rd32 f 30) (rd32 f 26) source dest proto
    else Sessions (rd32 f 30) (rd32 f 26) dest source proto)) = None ->
  (if negb (SINGLE_PORT_MODE d =? 0) then Some (FRONTEND_PORT d) else m_lookup (ip_to_frontend_port d) (rd32 f 30)) = Some fe ->
  from_backend f source dest proto flag d = (L_REDIRECT fe, f).
Proof.
  intros Hr Hs Hfe. unfold from_backend, answer_of, send_to_frontend. rewrite Hr, Hs. destruct (negb _); [congruence|]. by rewrite Hfe.
Qed.

(** C30. A flow stays with its server: in the states of [tables_lead_to_servers], as
    long as no request comes, through any other packets, TCP, UDP or ICMP echo packets
    without IP options to a service with servers that have the same addresses, ports and
    protocol, come from other ports than the servers' and whose sender is not subject to
    source rewriting get the same server's address and port. *)
Theorem flow_keeps_server s f f' l source dest proto flag in_port in_port' key svc :
  reachable s -> service_map_ s !! key = Some svc -> service_backends_ svc <> ∅ ->
  l4_packet f source dest proto flag -> l4_packet f' source dest proto flag ->
  rd32 f' 26 = rd32 f 26 -> rd32 f' 30 = rd32 f 30 -> Vip (rd32 f 30) dest proto 0 = skey svc 0 ->
  (forall v, rewrite_of (lb_tables s) (rd32 f 26) = Some v -> sense v <> FROM_FRONTEND) ->
  in_port <> BACKEND_PORT (lb_tables s) -> in_port' <> BACKEND_PORT (lb_tables s) ->
  let d := lb_tables s in
  let d' := run_packets l (handle_rx f in_port d).2 in
  exists h h' d1 d2, handle_rx f in_port d = (L_REDIRECT (BACKEND_PORT d), h, d1) /\
    handle_rx f' in_port' d' = (L_REDIRECT (BACKEND_PORT d), h', d2) /\
    rd32 h' 30 = rd32 h 30 /\ (is_flag flag -> rd16 h' 36 = rd16 h 36).
Proof using Type.
  intros [_ Hok Ha _]%lb_reachable_ok Hs Hne Hp Hp' E1 E2 Ek Hr Hport Hport' d d'.
  pose proof (Hok key svc Hs) as Ho. pose proof (Ha key svc Hs) as Hag.
  destruct (packet_to_service f source dest proto flag in_port d svc Hp Hport Ho Hag Hne Ek Hr)
    as (ip & b & x & h & t & Hb & Ex & Hc & _ & Hrun & Ht).
  destruct (run_packets_tables l (set_hash_session t d)) as [t' Et].
  assert (d' = set_hash_session t' d) as Ed by (subst d'; by rewrite Hrun).
  destruct (packet_to_service f' source dest proto flag in_port' (set_hash_session t' d) svc Hp' Hport' Ho Hag Hne)
    as (ip' & b' & x' & h' & t2 & Hb' & Ex' & Hc' & _ & Hrun' & Ht').
  { by rewrite E2. }
  { intros v. rewrite E1. apply Hr. }
  rewrite E1, E2 in Hc'. change (chosen (set_hash_session t' d)) with (chosen d) in Hc'. rewrite Hc in Hc'. injection Hc' as Exx Epp.
  exists h, h', (set_hash_session t d), (set_hash_session t2 (set_hash_session t' d)). split; [done|].
  split; [by rewrite Ed, Hrun'|]. apply translated_dst in Ht as [T1 T2]. apply translated_dst in Ht' as [T3 T4].
  rewrite T1, T3. split; [done|]. intros Hf. by rewrite T2, T4.
Qed.

(** C31. While no source rewriting is configured at all: in the states of
    [tables_lead_to_servers], after a TCP, UDP or ICMP echo packet without IP options to
    a service with servers, and after any other packets of which none opens a session of
    another service with the same hash, the server's answer leaves for the client's port
    from the virtual address and port with right checksums if they were right; only
    after other packets may it leave as it is, when the table dropped the session. *)
Theorem answers_come_back s f r l source dest proto flag in_port key svc fe :
  reachable s -> service_map_ s !! key = Some svc -> service_backends_ svc <> ∅ ->
  l4_packet f source dest proto flag -> Vip (rd32 f 30) dest proto 0 = skey svc 0 -> in_port <> BACKEND_PORT (lb_tables s) ->
  (forall x, rewrite_of (lb_tables s) x = None) ->
  (if negb (SINGLE_PORT_MODE (lb_tables s) =? 0) then Some (FRONTEND_PORT (lb_tables s))
   else m_lookup (ip_to_frontend_port (lb_tables s)) (rd32 f 26)) = Some fe ->
  let d := lb_tables s in
  let h := (handle_rx f in_port d).1.2 in
  let flow := Sessions (rd32 f 26) (rd32 h 30) source (if flag =? ICMP_CSUM_OFFSET then 0 else rd16 h 36) proto in
  l4_packet r (if flag =? ICMP_CSUM_OFFSET then source else rd16 h 36) (if flag =? ICMP_CSUM_OFFSET then 0 else source) proto flag ->
  rd32 r 26 = rd32 h 30 -> rd32 r 30 = rd32 f 26 ->
  Forall (fun p => undisturbed (jhash flow) (skey svc 0) d p.1) l ->
  let d' := run_packets l (handle_rx f in_port d).2 in
  exists r', handle_rx r (BACKEND_PORT d) d' = (L_REDIRECT fe, r', d') /\
    (translated_packet flag r r' (vip_num svc) (rd32 f 26) (bswap16 (vport_ svc)) (rd16 r 36) \/ (l <> [] /\ r' = r)).
Proof using Type.
  intros [Hn Hok Ha _]%lb_reachable_ok Hs Hne Hp Ek Hport Hr Hfe d h flow Hpr Er1 Er2 Hl d'.
  pose proof (Hok key svc Hs) as Ho. pose proof (Ha key svc Hs) as Hag.
  destruct (packet_to_service f source dest proto flag in_port d svc Hp Hport Ho Hag Hne Ek)
    as (ip & b & x & h0 & t & Hb & Ex & Hc & Hg & Hrun & Ht); [intros v E; subst d; by rewrite Hr in E|].
  assert (h = h0) as Eh by (subst h; by rewrite Hrun).
  destruct (get_bck_ip_chosen d _ _ Hc) as (t0 & Hg0 & Hsess). rewrite Hg in Hg0. injection Hg0 as Et. specialize (Hsess (Hr _)).
  destruct (translated_dst _ _ _ _ _ _ _ Ht) as [T1 T2].
  assert ((if proto =? bswap16 IPPROTO_ICMP then Sessions (rd32 r 30) (rd32 r 26) (if flag =? ICMP_CSUM_OFFSET then source else rd16 h 36) (if flag =? ICMP_CSUM_OFFSET then 0 else source) proto
    else Sessions (rd32 r 30) (rd32 r 26) (if flag =? ICMP_CSUM_OFFSET then 0 else source) (if flag =? ICMP_CSUM_OFFSET then source else rd16 h 36) proto) = flow /\
    lru_lookup t (jhash flow) = Some (skey svc 0)) as [Eflow Hlook].
  { rewrite Et, Hsess. cbn [ip_src ip_dst port_src port_dst s_proto b_ip b_port]. rewrite Ek. subst flow. rewrite Er1, Er2, Eh, T1.
    destruct (parse_l4_cases _ _ _ _ _ (lp_parse _ _ _ _ _ Hp)) as [(Hf & _ & Epr & _)|(-> & _ & -> & _ & -> & _)].
    - assert ((flag =? ICMP_CSUM_OFFSET) = false) as -> by (by destruct Hf as [-> | ->]).
      assert ((proto =? bswap16 IPPROTO_ICMP) = false) as -> by (rewrite Epr; by destruct Hf as [-> | ->]).
      split; [done|]. rewrite T2 by done. apply lru_update_eq.
    - split; [done|]. apply lru_update_eq. }
  destruct (run_packets_tables l (set_hash_session t d)) as [t' Et'].
  assert (d' = set_hash_session t' d) as Ed by (subst d'; by rewrite Hrun).
  rewrite (handle_rx_l4 r _ _ proto flag _ _ Hpr), Ed. change (BACKEND_PORT (set_hash_session t' d)) with (BACKEND_PORT d). rewrite Z.eqb_refl.
  cbn [negb]. destruct (run_packets_session (jhash flow) (skey svc 0) l (set_hash_session t d)) as [Hses|Hses]; [done|by left| |].
  all: rewrite Et' in Hses; rewrite <- Eflow in Hses.
  - destruct (address_text_ok _ (n_vip _ _ (Hn key svc Hs))) as (w & Hw & Ew & _).
    destruct (from_backend_run r _ _ proto flag (set_hash_session t' d) (skey svc 0) fe Hpr) as (r' & -> & Hr').
    + intros v E. change (rewrite_of d (rd32 r 30) = Some v) in E. subst d. by rewrite Hr in E.
    + exact Hses.
    + rewrite Er2. exact Hfe.
    + cbn. unfold vip_num. by rewrite Ew.
    + apply bswap16_range.
    + exists r'. split; [done|]. left. by rewrite Er2 in Hr'.
  - exists r. rewrite (from_backend_miss _ _ _ _ _ _ fe); [|by apply Hr|done|by rewrite Er2]. split; [done|]. right. split; [|done].
    intros ->. cbn [run_packets fold_left] in Et'. apply (f_equal hash_session) in Et'. cbn in Et'. rewrite <- Et', Eflow in Hses. change (lru_lookup t (jhash flow) = None) in Hses. congruence.
Qed.
End properties.

(** * A small load balancer *)
(** Orders: that of the map, and random orders that are the straight one or its reverse. *)
#[local] Program Instance plain_library : StdLib := {|
  iterate K V _ _ n m := map_to_list m;
  shuffle n size := if Nat.even n then seqZ 0 (Z.of_nat size) else reverse (seqZ 0 (Z.of_nat size));
|}.
Next Obligation. done. Qed.
Next Obligation. intros n size. cbv beta. destruct (Nat.even n); [reflexivity|]. apply reverse_Permutation. Qed.
#[local] Program Instance sum_hash : JHash := {|
  jhash k := (ip_src k + ip_dst k + port_src k + port_dst k + s_proto k) mod 2 ^ 32;
|}.
Next Obligation. intros k. by apply Z.mod_pos_bound. Qed.

Definition lb0 : Lbrp :=
  MkLbrp ∅ (LbDp (m_new 1024) ∅ (t_new 1024) (m_new 1024) (m_new 1024)
    {["SINGLE_PORT_MODE"%string := 1; "BACKEND_PORT"%string := 2; "FRONTEND_PORT"%string := 3]}) 0.
Definition server (ip : string) (weight : Z) : ServiceBackendJson := BackendJ ip (Some 8080) (Some weight) None.
Definition web (servers : list ServiceBackendJson) : ServiceJson := ServiceJ "10.0.0.1" 80 P_TCP None (Some servers).
Definition web_key : ServiceKey := key_of "10.0.0.1" 80 P_TCP.
Definition after (op : lb_op) (s : Lbrp) : Lbrp := (run_op op s).2.
Definition add_web : lb_op := AddService (web [server "192.168.0.1" 1; server "192.168.0.2" 2]).
Definition lb1 : Lbrp := after add_web lb0.
Definition svc1 : Service := default (service0 (web [])) (service_map_ lb1 !! web_key).
Definition e1 : service_env := ServiceEnv svc1 (lb_tables lb1) 7.
Definition arr1 : list string := match getConsistentArray e1 with Ok a => a | _ => [] end.
(** 1.2.3.4:1000 to 10.0.0.1:80, the server's answer, and a packet of somebody else. *)
Definition request1 : list Z :=
  [2;0;0;0;0;1; 2;0;0;0;0;2; 8;0; 69;0;0;40; 0;1;0;0; 64;6;0;0; 1;2;3;4; 10;0;0;1; 3;232;0;80; 0;0;0;1;0;0;0;0; 80;2;0;0;0;0;0;0].
Definition other1 : list Z :=
  [2;0;0;0;0;1; 2;0;0;0;0;2; 8;0; 69;0;0;40; 0;1;0;0; 64;6;0;0; 1;2;3;9; 10;0;0;1; 3;232;0;80; 0;0;0;1;0;0;0;0; 80;2;0;0;0;0;0;0].
Definition sent1 : list Z := (handle_rx request1 3 (lb_tables lb1)).1.2.
Definition answer1 : list Z := wr16 (wr16 (wr32 (wr32 sent1 26 (rd32 sent1 30)) 30 (rd32 sent1 26)) 34 (rd16 sent1 36)) 36 (rd16 sent1 34).

Example arr1_slots : (occ "192.168.0.1" arr1, occ "192.168.0.2" arr1) = (10, 20).
Proof. vm_compute. reflexivity. Qed.
Example sent1_server : (rd32 sent1 30, rd16 sent1 36) = (match ip_string_to_nbo_uint "192.168.0.2" with Ok x => x | _ => 0 end, bswap16 8080).
Proof. vm_compute. reflexivity. Qed.
Lemma backend_ok_server x w : 0 <= x < 2 ^ 32 -> 0 <= w < 2 ^ 16 -> backend_ok (server (dotted x) w).
Proof. intros Hx Hw. split; [by exists x|]. split; cbn; intros ? [= <-]; lia. Qed.
Lemma lb0_initial : initial lb0.
Proof. split; [done|]. split; [|done]. intros v. vm_compute. reflexivity. Qed.
Lemma add_web_ok : event_ok (Request add_web) lb0.
Proof.
  split; cbn.
  - by exists 16777226.
  - done.
  - constructor; [by apply (backend_ok_server 16820416 1)|]. constructor; [by apply (backend_ok_server 33597632 2)|]. constructor.
  - lia.
Qed.
Lemma lb1_reachable : reachable lb1.
Proof.
  apply (reachable_step (Request add_web) lb0 (Ok tt) lb1); [apply reachable_initial, lb0_initial|apply add_web_ok| |by left].
  cbn [run_event]. unfold lb1, after. assert ((run_op add_web lb0).1 = Ok tt) as <- by (vm_compute; reflexivity). by destruct (run_op add_web lb0).
Qed.
Lemma svc1_there : service_map_ lb1 !! web_key = Some svc1.
Proof. unfold svc1. assert (is_Some (service_map_ lb1 !! web_key)) as [v ->] by (vm_compute; by eexists). done. Qed.
Lemma svc1_ok : service_ok svc1.
Proof. exact (lo_ok lb1 (lb_reachable_ok lb1 lb1_reachable) web_key svc1 svc1_there). Qed.
Lemma svc1_servers : map_to_list (service_backends_ svc1) = [("192.168.0.1", MkBackend Local 1 8080 "192.168.0.1" ""); ("192.168.0.2", MkBackend Local 2 8080 "192.168.0.2" "")]%string
  \/ map_to_list (service_backends_ svc1) = [("192.168.0.2", MkBackend Local 2 8080 "192.168.0.2" ""); ("192.168.0.1", MkBackend Local 1 8080 "192.168.0.1" "")]%string.
Proof. vm_compute. first [by left | by right]. Qed.
Definition is_l4 (f : list Z) (x : Z * Z * Z * Z) : bool :=
  forallb (fun b => (0 <=? b) && (b <? 256)) f && (rd16 f 12 =? bswap16 ETH_P_IP) && (34 <=? Z.of_nat (length f)) && bool_decide (parse_l4 f = Some x).
Lemma is_l4_ok f source dest proto flag : is_l4 f (source, dest, proto, flag) = true -> l4_packet f source dest proto flag.
Proof.
  unfold is_l4. rewrite !andb_true_iff, forallb_forall, Z.eqb_eq, Z.leb_le, bool_decide_eq_true. intros [[[Hb Ht] Hl] Hp].
  split; [|done|done|lia]. apply list.Forall_forall. intros x Hx%list_elem_of_In. specialize (Hb x Hx). unfold is_byte. lia.
Qed.

(** ** The theorems apply to it *)
Lemma consistent_array_full_witness : exists arr, getConsistentArray e1 = Ok arr /\ length arr = 30%nat /\ Forall (active svc1) arr.
Proof.
  apply (consistent_array_full e1 svc1_ok). exists "192.168.0.1"%string. eexists. split; [vm_compute; reflexivity|vm_compute; discriminate].
Defined.
Lemma svc1_weights ip b : service_backends_ svc1 !! ip = Some b -> weight_ b <> 0 -> total_weight svc1 <= 30 * weight_ b.
Proof.
  intros Hb%elem_of_map_to_list Hw. assert (total_weight svc1 = 3) as -> by (vm_compute; reflexivity).
  destruct svc1_servers as [E|E]; rewrite E in Hb; apply elem_of_cons in Hb as [[= -> ->]|[[= -> ->]|[]%elem_of_nil]%elem_of_cons]; simpl in *; lia.
Qed.
Lemma consistent_array_shares_witness : 2 ^ 14 * Z.abs (occ "192.168.0.2" arr1 * total_weight svc1 - 30 * 2) <= (2 ^ 14 + 1) * total_weight svc1.
Proof.
  apply (consistent_array_shares e1 arr1 svc1_ok) with (b := MkBackend Local 2 8080 "192.168.0.2" "").
  - vm_compute. reflexivity.
  - exact svc1_weights.
  - vm_compute. reflexivity.
  - vm_compute. discriminate.
Defined.
Lemma tables_lead_to_servers_witness : m_lookup (services (lb_tables lb1)) (skey svc1 0) = Some (Backend (vip_num svc1) 30 0).
Proof.
  apply (proj1 (tables_lead_to_servers lb1 lb1_reachable) web_key svc1 svc1_there). intros E. apply (f_equal map_to_list) in E. vm_compute in E. discriminate.
Defined.
Lemma client_packets_witness : exists h d', handle_rx request1 3 (lb_tables lb1) = (L_REDIRECT 2, h, d').
Proof.
  assert (BACKEND_PORT (lb_tables lb1) = 2) as E2 by (vm_compute; reflexivity).
  destruct (client_packets lb1 request1 (rd16 request1 34) (rd16 request1 36) (bswap16 IPPROTO_TCP) TCP_CSUM_OFFSET 3 lb1_reachable)
    as [(key & svc & ip & b & x & h & d' & _ & _ & _ & _ & Hr & _)|[_ Hr]].
  - apply is_l4_ok. vm_compute. reflexivity.
  - rewrite E2. done.
  - intros v E. vm_compute in E. discriminate.
  - exists h, d'. rewrite E2 in Hr. exact Hr.
  - exists request1, (lb_tables lb1). rewrite E2 in Hr. exact Hr.
Defined.

Lemma lb1_backend_port : BACKEND_PORT (lb_tables lb1) = 2.
Proof. vm_compute. reflexivity. Qed.
Lemma svc1_full : service_backends_ svc1 <> ∅.
Proof. intros E. apply (f_equal map_to_list) in E. vm_compute in E. discriminate. Qed.
Lemma request1_l4 : l4_packet request1 (rd16 request1 34) (rd16 request1 36) (bswap16 IPPROTO_TCP) TCP_CSUM_OFFSET.
Proof. apply is_l4_ok. vm_compute. reflexivity. Qed.
Lemma request1_to_svc1 : Vip (rd32 request1 30) (rd16 request1 36) (bswap16 IPPROTO_TCP) 0 = skey svc1 0.
Proof. vm_compute. reflexivity. Qed.
Lemma lb1_rewrite x : rewrite_of (lb_tables lb1) x = None.
Proof.
  assert (src_ip_rewrite (lb_tables lb1) = t_new 1024) as E by (vm_compute; reflexivity). unfold rewrite_of. rewrite E.
  generalize [byte_of x 0; byte_of x 1; byte_of x 2; byte_of x 3]. intros key. vm_compute. reflexivity.
Qed.
Lemma flow_keeps_server_witness :
  exists h h' d1 d2, handle_rx request1 3 (lb_tables lb1) = (L_REDIRECT (BACKEND_PORT (lb_tables lb1)), h, d1) /\
    handle_rx request1 4 (run_packets [(other1, 3)] (handle_rx request1 3 (lb_tables lb1)).2) = (L_REDIRECT (BACKEND_PORT (lb_tables lb1)), h', d2) /\
    rd32 h' 30 = rd32 h 30 /\ (is_flag TCP_CSUM_OFFSET -> rd16 h' 36 = rd16 h 36).
Proof.
  apply (flow_keeps_server lb1 request1 request1 [(other1, 3)] (rd16 request1 34) (rd16 request1 36) (bswap16 IPPROTO_TCP) TCP_CSUM_OFFSET
    3 4 web_key svc1 lb1_reachable svc1_there svc1_full request1_l4 request1_l4 eq_refl eq_refl request1_to_svc1).
  - intros v E. rewrite lb1_rewrite in E. discriminate.
  - rewrite lb1_backend_port. discriminate.
  - rewrite lb1_backend_port. discriminate.
Defined.
Lemma answers_come_back_witness :
  exists r', handle_rx answer1 (BACKEND_PORT (lb_tables lb1)) (run_packets [(other1, 3)] (handle_rx request1 3 (lb_tables lb1)).2) =
    (L_REDIRECT 3, r', run_packets [(other1, 3)] (handle_rx request1 3 (lb_tables lb1)).2) /\
    (translated_packet TCP_CSUM_OFFSET answer1 r' (vip_num svc1) (rd32 request1 26) (bswap16 (vport_ svc1)) (rd16 answer1 36) \/ ([(other1, 3)] <> [] /\ r' = answer1)).
Proof.
  apply (answers_come_back lb1 request1 answer1 [(other1, 3)] (rd16 request1 34) (rd16 request1 36) (bswap16 IPPROTO_TCP) TCP_CSUM_OFFSET
    3 web_key svc1 3 lb1_reachable svc1_there svc1_full request1_l4 request1_to_svc1).
  - rewrite lb1_backend_port. discriminate.
  - exact lb1_rewrite.
  - vm_compute. reflexivity.
  - apply is_l4_ok. vm_compute. reflexivity.
  - vm_compute. reflexivity.
  - vm_compute. reflexivity.
  - constructor; [|constructor]. intros k v' E _. vm_compute in E. injection E as _ <-. vm_compute. reflexivity.
Defined.

(** * What the code does not do as meant *)
(** A service all of whose servers have no weight is never computed. *)
Example zero_weights_undefined : (run_op (AddService (web [server "192.168.0.1" 0])) lb0).1 = Undefined.
Proof. vm_compute. reflexivity. Qed.
(** The last slot of a service stays in the table when its servers go. *)
Example last_slot_stays :
  let s := after (DelBackends web_key) lb1 in
  (run_op (DelBackends web_key) lb1).1 = Ok tt /\ is_Some (m_lookup (services (lb_tables s)) (skey svc1 30)) /\
  m_lookup (services (lb_tables s)) (skey svc1 29) = None.
Proof. vm_compute. split; [reflexivity|]. split; [by eexists|reflexivity]. Qed.
(** A server that came with its service cannot be given a port: it refers to the
    service that the one in the map was copied from. *)
Example given_server_dangles : (run_op (UpdateBackend web_key (server "192.168.0.1" 1)) lb1).1 = Undefined.
Proof. vm_compute. reflexivity. Qed.
(** A service that cannot be created leaves its first servers in the table. *)
Example failed_service_stays :
  let op := AddService (web [server "192.168.0.1" 1; server "192.168.0.1" 2]) in
  (run_op op lb0).1 = Throw (RuntimeError "Backend 192.168.0.1 already exists in the service map") /\
  service_map_ (after op lb0) = ∅ /\ is_Some (m_lookup (services (lb_tables (after op lb0))) (skey svc1 0)).
Proof. vm_compute. split; [reflexivity|]. split; [reflexivity|by eexists]. Qed.
(** With the eleventh server the array grows past the rows of the first ten. *)
Definition eleven : list ServiceBackendJson :=
  (fun i => server (dotted (i * 2 ^ 24)) 1) <$> [1; 2; 3; 4; 5; 6; 7; 8; 9; 10; 11].
Example eleventh_server_undefined :
  (run_op (AddService (web (take 10 eleven))) lb0).1 = Ok tt /\ (run_op (AddService (web eleven)) lb0).1 = Undefined.
Proof. vm_compute. split; reflexivity. Qed.
