(* ===== verification/FwRule.v ===== *)
(** pcn-firewall, rules: src/services/pcn-firewall/src/defines.h (IpAddr),
    ChainRule.{h,cpp} and the string conversions of Utils.cpp.  A rule is built
    from a JSON object by [update]; the getters hand its fields back as strings,
    and the chain compiles a rule set from what the getters return. *)
From Stdlib Require Import ZArith Lia Ascii String.
From stdpp Require Import base list strings numbers.
From S2P Require Import Prelude.
From S2P Require Import NetUtils.
#[local] Open Scope Z_scope.
#[local] Open Scope cpp_scope.

(** * Data *)
Inductive ConntrackstatusEnum := NEW | ESTABLISHED | RELATED | INVALID.
Inductive ActionEnum := DROP | LOG | ACCEPT.
Inductive ChainNameEnum := INGRESS | EGRESS | INVALID_CHAIN.
#[export] Instance conntrackstatus_eq_dec : EqDecision ConntrackstatusEnum.
Proof. solve_decision. Defined.
#[export] Instance action_eq_dec : EqDecision ActionEnum.
Proof. solve_decision. Defined.
#[export] Instance chain_name_eq_dec : EqDecision ChainNameEnum.
Proof. solve_decision. Defined.

(** The unscoped enumeration of SessionTable.h: connection states. *)
Module CT.
Definition NEW : Z := 0.
Definition ESTABLISHED : Z := 1.
Definition RELATED : Z := 2.
Definition INVALID : Z := 3.
Definition SYN_SENT : Z := 4.
Definition SYN_RECV : Z := 5.
Definition FIN_WAIT_1 : Z := 6.
Definition FIN_WAIT_2 : Z := 7.
Definition LAST_ACK : Z := 8.
Definition TIME_WAIT : Z := 9.
End CT.

Definition IPPROTO_ICMP : Z := 1.
Definition IPPROTO_TCP : Z := 6.
Definition IPPROTO_UDP : Z := 17.
Definition IPPROTO_GRE : Z := 47.

Definition SOURCE_TYPE : Z := 0.
Definition DESTINATION_TYPE : Z := 1.
Definition DROP_ACTION : Z := 0.
Definition FORWARD_ACTION : Z := 1.

Definition SET_BIT (number x : Z) : Z := Z.lor number (Z.shiftl 1 x).
Definition CHECK_BIT (number x : Z) : bool := negb (Z.land number (Z.shiftl 1 x) =? 0).

(** struct IpAddr *)
Record IpAddr := { ip : Z; netmask : Z; ruleId : Z }.

Definition IpAddr_toString `{Inet} (a : IpAddr) : string :=
  (nbo_uint_to_ip_string (ip a) +:+ "/" +:+ to_string (netmask a))%string.

(** The prefix length goes through a [uint8_t] before it is checked. *)
Definition IpAddr_fromString (a : IpAddr) (ipnetmask : string) : res IpAddr :=
  let found := str_find SLASH ipnetmask in
  netmask_ <~ match found with
              | Some found => v <~ stol (substr_from (found + 1) ipnetmask) ;; Ok (u8 v)
              | None => Ok 32
              end ;;
  if 32 <? netmask_ then Throw (RuntimeError "Netmask can't be bigger than 32") else
  let ip_ := match found with Some found => String.substring 0 found ipnetmask | None => ipnetmask end in
  ip' <~ ip_string_to_nbo_uint ip_ ;;
  Ok {| ip := ip'; netmask := netmask_; ruleId := ruleId a |}.

Definition IpAddr_ltb (a b : IpAddr) : bool :=
  (ip a <? ip b) || ((ip a =? ip b) && (netmask a <? netmask b)).

#[export] Instance IpAddr_key_order : StdMap.KeyOrder IpAddr_ltb (fun a => (ip a, netmask a)).
Proof.
  intros a b. unfold StdMap.equivb, IpAddr_ltb.
  rewrite andb_true_iff, !negb_true_iff, !orb_false_iff, !andb_false_iff. split; [intros|intros [= -> ->]]; [f_equal|]; lia.
Qed.

(** ChainRuleJsonObject: a field and its [m_...IsSet] flag are an option; the
    identifier has a value even when it is not set. *)
Record RuleConf := {
  m_id : Z;
  m_idIsSet : bool;
  m_src : option string;
  m_dst : option string;
  m_l4proto : option string;
  m_sport : option Z;
  m_dport : option Z;
  m_tcpflags : option string;
  m_conntrack : option ConntrackstatusEnum;
  m_action : option ActionEnum;
  m_description : option string;
}.

(** class ChainRule; [xIsSet] and [x] are the option [x]. *)
Record ChainRule := {
  id : Z;
  conntrack : option ConntrackstatusEnum;
  ipSrc : option IpAddr;
  ipDst : option IpAddr;
  srcPort : option Z;
  dstPort : option Z;
  l4Proto : option Z;
  tcpFlags : option (Z * Z);
  action : option ActionEnum;
  description : option string;
}.

(** What the constructor starts from. *)
Definition empty_rule : ChainRule :=
  {| id := 0; conntrack := None; ipSrc := None; ipDst := None; srcPort := None; dstPort := None;
     l4Proto := None; tcpFlags := None; action := None; description := None |}.
Definition unset_ip : IpAddr := {| ip := 0; netmask := 0; ruleId := 0 |}.

(** Assignments to one field. *)
Definition set_id (v : Z) (r : ChainRule) : ChainRule :=
  {| id := v; conntrack := conntrack r; ipSrc := ipSrc r; ipDst := ipDst r;
     srcPort := srcPort r; dstPort := dstPort r; l4Proto := l4Proto r;
     tcpFlags := tcpFlags r; action := action r; description := description r |}.
Definition set_conntrack (v : option ConntrackstatusEnum) (r : ChainRule) : ChainRule :=
  {| id := id r; conntrack := v; ipSrc := ipSrc r; ipDst := ipDst r;
     srcPort := srcPort r; dstPort := dstPort r; l4Proto := l4Proto r;
     tcpFlags := tcpFlags r; action := action r; description := description r |}.
Definition set_ipSrc (v : option IpAddr) (r : ChainRule) : ChainRule :=
  {| id := id r; conntrack := conntrack r; ipSrc := v; ipDst := ipDst r;
     srcPort := srcPort r; dstPort := dstPort r; l4Proto := l4Proto r;
     tcpFlags := tcpFlags r; action := action r; description := description r |}.
Definition set_ipDst (v : option IpAddr) (r : ChainRule) : ChainRule :=
  {| id := id r; conntrack := conntrack r; ipSrc := ipSrc r; ipDst := v;
     srcPort := srcPort r; dstPort := dstPort r; l4Proto := l4Proto r;
     tcpFlags := tcpFlags r; action := action r; description := description r |}.
Definition set_srcPort (v : option Z) (r : ChainRule) : ChainRule :=
  {| id := id r; conntrack := conntrack r; ipSrc := ipSrc r; ipDst := ipDst r;
     srcPort := v; dstPort := dstPort r; l4Proto := l4Proto r;
     tcpFlags := tcpFlags r; action := action r; description := description r |}.
Definition set_dstPort (v : option Z) (r : ChainRule) : ChainRule :=
  {| id := id r; conntrack := conntrack r; ipSrc := ipSrc r; ipDst := ipDst r;
     srcPort := srcPort r; dstPort := v; l4Proto := l4Proto r;
     tcpFlags := tcpFlags r; action := action r; description := description r |}.
Definition set_l4Proto (v : option Z) (r : ChainRule) : ChainRule :=
  {| id := id r; conntrack := conntrack r; ipSrc := ipSrc r; ipDst := ipDst r;
     srcPort := srcPort r; dstPort := dstPort r; l4Proto := v;
     tcpFlags := tcpFlags r; action := action r; description := description r |}.
Definition set_tcpFlags (v : option (Z * Z)) (r : ChainRule) : ChainRule :=
  {| id := id r; conntrack := conntrack r; ipSrc := ipSrc r; ipDst := ipDst r;
     srcPort := srcPort r; dstPort := dstPort r; l4Proto := l4Proto r;
     tcpFlags := v; action := action r; description := description r |}.
Definition set_action (v : option ActionEnum) (r : ChainRule) : ChainRule :=
  {| id := id r; conntrack := conntrack r; ipSrc := ipSrc r; ipDst := ipDst r;
     srcPort := srcPort r; dstPort := dstPort r; l4Proto := l4Proto r;
     tcpFlags := tcpFlags r; action := v; description := description r |}.
Definition set_description (v : option string) (r : ChainRule) : ChainRule :=
  {| id := id r; conntrack := conntrack r; ipSrc := ipSrc r; ipDst := ipDst r;
     srcPort := srcPort r; dstPort := dstPort r; l4Proto := l4Proto r;
     tcpFlags := tcpFlags r; action := action r; description := v |}.

(** * Conversions of Utils.cpp *)
Definition protocol_from_string_to_int (proto : string) : res Z :=
  if bool_decide (proto = "TCP" \/ proto = "tcp")%string then Ok IPPROTO_TCP
  else if bool_decide (proto = "UDP" \/ proto = "udp")%string then Ok IPPROTO_UDP
  else if bool_decide (proto = "ICMP" \/ proto = "icmp")%string then Ok IPPROTO_ICMP
  else if bool_decide (proto = "GRE" \/ proto = "gre")%string then Ok IPPROTO_GRE
  else Throw (RuntimeError "Protocol not supported.").

Definition protocol_from_int_to_string (proto : Z) : res string :=
  if proto =? IPPROTO_TCP then Ok "TCP"%string
  else if proto =? IPPROTO_UDP then Ok "UDP"%string
  else if proto =? IPPROTO_ICMP then Ok "ICMP"%string
  else if proto =? IPPROTO_GRE then Ok "GRE"%string
  else Throw (RuntimeError "Protocol not supported.").

(** The eight flags in the order of their bits. *)
Definition flag_names : list string := ["FIN"; "SYN"; "RST"; "PSH"; "ACK"; "URG"; "ECE"; "CWR"]%string.

(** [if (modFlags.find("!FIN") != npos) { modFlags.erase(modFlags.find("!FIN"), 4); SET_BIT(flagsNotSet, 0); }]
    for each flag in turn. *)
Fixpoint parse_not_flags (names : list string) (bit : Z) (modFlags : string) (flagsNotSet : Z) : string * Z :=
  match names with
  | [] => (modFlags, flagsNotSet)
  | f :: names =>
      match str_find ("!" +:+ f)%string modFlags with
      | Some pos => parse_not_flags names (bit + 1) (str_erase pos 4 modFlags) (SET_BIT flagsNotSet bit)
      | None => parse_not_flags names (bit + 1) modFlags flagsNotSet
      end
  end.
Fixpoint parse_flags (names : list string) (bit : Z) (modFlags : string) (flagsSet : Z) : Z :=
  match names with
  | [] => flagsSet
  | f :: names =>
      parse_flags names (bit + 1) modFlags
        (match str_find f modFlags with Some _ => SET_BIT flagsSet bit | None => flagsSet end)
  end.

(** The masks are written to the references before they are compared. *)
Definition flags_masks (flags : string) : Z * Z :=
  let '(modFlags, flagsNotSet) := parse_not_flags flag_names 0 flags 0 in
  (parse_flags flag_names 0 modFlags 0, flagsNotSet).

Definition flags_from_string_to_masks (flags : string) : res (Z * Z) :=
  let '(flagsSet, flagsNotSet) := flags_masks flags in
  if Z.land flagsSet flagsNotSet =? 0 then Ok (flagsSet, flagsNotSet)
  else Throw (RuntimeError "A flag can't be both set and not set!").

Fixpoint print_flags (prefix : string) (names : list string) (bit mask : Z) : string :=
  match names with
  | [] => ""
  | f :: names =>
      ((if CHECK_BIT mask bit then prefix +:+ f +:+ " " else "") +:+ print_flags prefix names (bit + 1) mask)%string
  end.

Definition flags_from_masks_to_string (flags : string) (flagsSet flagsNotSet : Z) : string :=
  (flags +:+ (if (flagsSet =? 0)%Z then "" else print_flags "" flag_names 0 flagsSet)
         +:+ (if (flagsNotSet =? 0)%Z then "" else print_flags "!" flag_names 0 flagsNotSet))%string.

Definition ActionEnum_to_int (a : ActionEnum) : res Z :=
  match a with
  | DROP => Ok DROP_ACTION
  | ACCEPT => Ok FORWARD_ACTION
  | LOG => Throw (RuntimeError "Action not supported.")
  end.

Definition ChainRuleConntrackEnum_to_int (status : ConntrackstatusEnum) : Z :=
  match status with NEW => 0 | ESTABLISHED => 1 | RELATED => 2 | INVALID => 3 end.

(** * The rule's methods *)
Section methods.
Context `{Inet}.

(** [if (conf.xIsSet()) { this->x = f(conf.getX()); xIsSet = true; }] *)
Definition if_set {A} (o : option A) (set : A -> M ChainRule unit) : M ChainRule unit :=
  match o with Some a => set a | None => ret tt end.

Definition update (isContrackActive : bool) (conf : RuleConf) : M ChainRule unit :=
  modify (set_id (m_id conf)) ;;;
  if_set (m_conntrack conf) (fun c =>
    if negb isContrackActive then throw (ThrownPointer "Please enable the connection tracking module.")
    else modify (set_conntrack (Some c))) ;;;
  if_set (m_src conf) (fun s =>
    r <-- get ;;
    a <-- lift (IpAddr_fromString (default unset_ip (ipSrc r)) s) ;;
    modify (set_ipSrc (Some a))) ;;;
  if_set (m_dst conf) (fun s =>
    r <-- get ;;
    a <-- lift (IpAddr_fromString (default unset_ip (ipDst r)) s) ;;
    modify (set_ipDst (Some a))) ;;;
  if_set (m_sport conf) (fun p => modify (set_srcPort (Some p))) ;;;
  if_set (m_dport conf) (fun p => modify (set_dstPort (Some p))) ;;;
  if_set (m_tcpflags conf) (fun s =>
    modify (fun r => set_tcpFlags ((fun _ => flags_masks s) <$> tcpFlags r) r) ;;;
    f <-- lift (flags_from_string_to_masks s) ;;
    modify (set_tcpFlags (Some f))) ;;;
  if_set (m_l4proto conf) (fun s =>
    p <-- lift (protocol_from_string_to_int s) ;;
    modify (set_l4Proto (Some p))) ;;;
  if_set (m_description conf) (fun s => modify (set_description (Some s))) ;;;
  modify (set_action (Some (default DROP (m_action conf)))).

(** The constructor: an exception leaves no object. *)
Definition make_ChainRule (isContrackActive : bool) (conf : RuleConf) : res ChainRule :=
  match update isContrackActive conf (set_id (m_id conf) empty_rule) with
  | (Ok _, r) => Ok r
  | (Throw e, _) => Throw e
  | (Undefined, _) => Undefined
  end.

Definition get_field {A} (o : option A) (what : string) : res A :=
  match o with Some a => Ok a | None => Throw (RuntimeError what) end.

Definition getDescription (r : ChainRule) : res string := get_field (description r) "Description not set.".
Definition getSrc (r : ChainRule) : res string :=
  a <~ get_field (ipSrc r) "Src not set." ;; Ok (IpAddr_toString a).
Definition getDst (r : ChainRule) : res string :=
  a <~ get_field (ipDst r) "Dst not set." ;; Ok (IpAddr_toString a).
Definition getDport (r : ChainRule) : res Z := get_field (dstPort r) "DPort not set.".
Definition getSport (r : ChainRule) : res Z := get_field (srcPort r) "SPort not set.".
Definition getTcpflags (r : ChainRule) : res string :=
  f <~ get_field (tcpFlags r) "TcpFlags not set." ;; Ok (flags_from_masks_to_string "" f.1 f.2).
Definition getConntrack (r : ChainRule) : res ConntrackstatusEnum :=
  get_field (conntrack r) "Conntrack not set.".
Definition getL4proto (r : ChainRule) : res string :=
  p <~ get_field (l4Proto r) "L4Proto not set." ;; protocol_from_int_to_string p.
Definition getAction (r : ChainRule) : res ActionEnum := get_field (action r) "Action not set.".
Definition getId (r : ChainRule) : Z := id r.

(** [try { conf.setX(getX()); } catch (...) {}] *)
Definition try_get {A} (r : res A) : option A := match r with Ok a => Some a | _ => None end.

Definition toJsonObject (r : ChainRule) : RuleConf :=
  {| m_id := getId r; m_idIsSet := true;
     m_src := try_get (getSrc r); m_dst := try_get (getDst r);
     m_l4proto := try_get (getL4proto r);
     m_sport := try_get (getSport r); m_dport := try_get (getDport r);
     m_tcpflags := try_get (getTcpflags r);
     m_conntrack := try_get (getConntrack r);
     m_action := try_get (getAction r);
     m_description := try_get (getDescription r) |}.

(** [if (aIsSet != cmp.aIsSet) return false; if (aIsSet) { if (a != cmp.a) return false; }] *)
Definition field_equal {A} (eqb : A -> A -> bool) (a b : option A) : bool :=
  match a, b with
  | Some x, Some y => eqb x y
  | None, None => true
  | _, _ => false
  end.

Definition equal (r cmp : ChainRule) : bool :=
  field_equal (fun a b => String.eqb (IpAddr_toString a) (IpAddr_toString b)) (ipSrc r) (ipSrc cmp)
  && field_equal (fun a b => String.eqb (IpAddr_toString a) (IpAddr_toString b)) (ipDst r) (ipDst cmp)
  && field_equal Z.eqb (srcPort r) (srcPort cmp)
  && field_equal Z.eqb (dstPort r) (dstPort cmp)
  && field_equal Z.eqb (l4Proto r) (l4Proto cmp)
  && field_equal (fun f g => negb (negb (f.1 =? g.1) || negb (f.2 =? g.2))) (tcpFlags r) (tcpFlags cmp)
  && field_equal (fun a b => bool_decide (a = b)) (action r) (action cmp)
  && field_equal (fun a b => bool_decide (a = b)) (conntrack r) (conntrack cmp).
End methods.
