(* ===== verification/FwFlags.v ===== *)
(** pcn-firewall, TCP flags: the text form of a pair of flag masks
    (Utils.cpp, flags_from_masks_to_string) reads back as the same pair
    (flags_from_string_to_masks).  The parser searches the string for each flag
    and erases the negated ones it finds; the argument works on the list of
    blank-terminated words the printer writes. *)
From Stdlib Require Import ZArith Lia Ascii String.
From stdpp Require Import base list strings numbers.
From S2P Require Import Prelude.
From S2P Require Import NetUtils.
From S2P Require Import FwRule.
#[local] Open Scope Z_scope.

Definition join (ws : list string) : string := foldr (fun w s => w +:+ String " " s)%string "" ws.

Lemma join_app a b : join (a ++ b) = (join a +:+ join b)%string.
Proof. induction a as [|w a IH]; simpl; [done|]. rewrite IH, string_app_assoc. done. Qed.

Definition contains (p w : string) : bool := bool_decide (is_Some (str_find p w)).
Definition erase_found (p w : string) : string :=
  match str_find p w with Some i => str_erase i (String.length p) w | None => w end.

(** * Searching a string of words *)
Lemma prefix_app_space p t s :
  str_forallb (fun c => negb (Ascii.eqb c " ")) p = true ->
  String.prefix p (t +:+ String " " s)%string = String.prefix p t.
Proof.
  revert t. induction p as [|c p IH]; intros t Hp; [by destruct t|].
  simpl in Hp. apply andb_true_iff in Hp as [Hc Hp].
  rewrite negb_true_iff, Ascii.eqb_neq in Hc.
  destruct t as [|c' t]; simpl; [by destruct (Ascii.ascii_dec c " ")|].
  destruct (Ascii.ascii_dec c c'); [auto|done].
Qed.

Lemma str_find_word p t s :
  p ≠ ""%string -> str_forallb (fun c => negb (Ascii.eqb c " ")) p = true ->
  str_find p (t +:+ String " " s)%string =
  match str_find p t with
  | Some i => Some i
  | None => (fun j => (String.length t + 1 + j)%nat) <$> str_find p s
  end.
Proof.
  intros Hne Hp. unfold str_find. induction t as [|c t IH].
  - change ("" +:+ String " " s)%string with (String " " s).
    assert (String.prefix p (String " " s) = false) as Hpre.
    { destruct p as [|c p]; [done|]. simpl in *. apply andb_true_iff in Hp as [Hc _].
      rewrite negb_true_iff, Ascii.eqb_neq in Hc. by destruct (Ascii.ascii_dec c " "). }
    cbn [String.index]. rewrite Hpre. destruct p; [done|]. by destruct (String.index 0 _ s).
  - change (String c t +:+ String " " s)%string with (String c (t +:+ String " " s)%string).
    cbn [String.index]. rewrite IH.
    change (String c (t +:+ String " " s)%string) with (String c t +:+ String " " s)%string.
    rewrite prefix_app_space by done. destruct (String.prefix p (String c t)); [done|].
    destruct (String.index 0 p t); [done|]. by destruct (String.index 0 p s).
Qed.

Lemma prefix_split p s : String.prefix p s = true -> exists b, s = (p +:+ b)%string.
Proof.
  revert s. induction p as [|c p IH]; intros s H; [by exists s|].
  destruct s as [|c' s]; [done|]. simpl in H.
  destruct (Ascii.ascii_dec c c') as [<-|]; [|done].
  destruct (IH s H) as [b ->]. by exists b.
Qed.

Lemma str_find_split p s i :
  str_find p s = Some i -> exists a b, s = (a +:+ (p +:+ b))%string /\ String.length a = i.
Proof.
  unfold str_find. revert i. induction s as [|c s IH]; intros i H.
  - simpl in H. destruct p; [|done]. injection H as <-. by exists "", "".
  - cbn [String.index] in H. destruct (String.prefix p (String c s)) eqn:E.
    + injection H as <-. apply prefix_split in E as [b ->]. by exists "", b.
    + destruct (String.index 0 p s) as [j|]; [|done]. injection H as <-.
      destruct (IH j eq_refl) as (a & b & -> & <-). by exists (String c a), b.
Qed.

Lemma str_erase_split a p b :
  str_erase (String.length a) (String.length p) (a +:+ (p +:+ b))%string = (a +:+ b)%string.
Proof.
  unfold str_erase. rewrite substring_0_app, <- length_string_app, <- string_app_assoc.
  by rewrite substr_from_app.
Qed.

Lemma str_erase_word_in p t s i :
  str_find p t = Some i ->
  str_erase i (String.length p) (t +:+ String " " s)%string
  = (str_erase i (String.length p) t +:+ String " " s)%string.
Proof.
  intros (a & b & -> & <-)%str_find_split. rewrite !string_app_assoc, !str_erase_split.
  by rewrite string_app_assoc.
Qed.

Lemma str_erase_word_after p t s j :
  str_find p s = Some j ->
  str_erase (String.length t + 1 + j) (String.length p) (t +:+ String " " s)%string
  = (t +:+ String " " (str_erase j (String.length p) s))%string.
Proof.
  intros (a & b & -> & <-)%str_find_split.
  replace (String.length t + 1 + String.length a)%nat with (String.length (t +:+ String " " a)%string)
    by (rewrite length_string_app; simpl; lia).
  rewrite str_erase_split.
  change (String " " (a +:+ (p +:+ b)))%string with (String " " a +:+ (p +:+ b))%string.
  rewrite <- string_app_assoc, str_erase_split, string_app_assoc. done.
Qed.

(** * The parser on words *)
Fixpoint erase_in (p : string) (ws : list string) : list string :=
  match ws with
  | [] => []
  | w :: ws => if contains p w then erase_found p w :: ws else w :: erase_in p ws
  end.

Section pattern.
Context (p : string) (p_nonempty : p ≠ ""%string)
        (p_no_space : str_forallb (fun c => negb (Ascii.eqb c " ")) p = true).

Lemma str_find_join ws : contains p (join ws) = existsb (contains p) ws.
Proof using p_nonempty p_no_space.
  unfold contains. induction ws as [|w ws IH]; simpl; [by destruct p|].
  rewrite str_find_word by done. rewrite <- IH.
  destruct (str_find p w); [by rewrite bool_decide_true|].
  by destruct (str_find p (join ws)).
Qed.

Lemma erase_join ws : erase_found p (join ws) = join (erase_in p ws).
Proof using p_nonempty p_no_space.
  unfold erase_found. induction ws as [|w ws IH]; simpl; [by destruct p|].
  rewrite str_find_word by done. unfold contains, erase_found in *.
  destruct (str_find p w) as [i|] eqn:E.
  - rewrite bool_decide_true by done. simpl. by apply str_erase_word_in.
  - simpl. destruct (str_find p (join ws)) as [j|] eqn:E'; simpl in *; [|by rewrite IH].
    rewrite str_erase_word_after by done. by rewrite IH.
Qed.
End pattern.

Fixpoint words_not (names : list string) (bit : Z) (ws : list string) (acc : Z) : list string * Z :=
  match names with
  | [] => (ws, acc)
  | f :: names =>
      let p := ("!" +:+ f)%string in
      if existsb (contains p) ws then words_not names (bit + 1) (erase_in p ws) (SET_BIT acc bit)
      else words_not names (bit + 1) ws acc
  end.
Fixpoint words_set (names : list string) (bit : Z) (ws : list string) (acc : Z) : Z :=
  match names with
  | [] => acc
  | f :: names =>
      words_set names (bit + 1) ws (if existsb (contains f) ws then SET_BIT acc bit else acc)
  end.

Definition is_name (f : string) : bool :=
  negb (String.eqb f "") && str_forallb (fun c => negb (Ascii.eqb c " ")) f && (String.length f =? 3)%nat.

Lemma parse_not_flags_words names bit ws acc :
  forallb is_name names = true ->
  parse_not_flags names bit (join ws) acc
  = (join (words_not names bit ws acc).1, (words_not names bit ws acc).2).
Proof.
  revert bit ws acc. induction names as [|f names IH]; intros bit ws acc Hn; cbn [parse_not_flags words_not]; [done|].
  simpl in Hn. apply andb_true_iff in Hn as [[[_ Hs]%andb_true_iff Hl%Nat.eqb_eq]%andb_true_iff Hn].
  rewrite <- str_find_join by (try done; simpl; by rewrite Hs).
  pose proof (erase_join ("!" +:+ f) ltac:(done) ltac:(simpl; by rewrite Hs) ws) as He.
  unfold contains, erase_found in *.
  destruct (str_find _ (join ws)) as [i|]; simpl; [|auto].
  change (String.length ("!" +:+ f)) with (S (String.length f)) in He. rewrite Hl in He. rewrite He. auto.
Qed.

Lemma parse_flags_words names bit ws acc :
  forallb is_name names = true -> parse_flags names bit (join ws) acc = words_set names bit ws acc.
Proof.
  revert bit acc. induction names as [|f names IH]; intros bit acc Hn; cbn [parse_flags words_set]; [done|].
  simpl in Hn. apply andb_true_iff in Hn as [[[Hne Hs]%andb_true_iff _]%andb_true_iff Hn].
  rewrite negb_true_iff, String.eqb_neq in Hne.
  rewrite IH, <- str_find_join by done. unfold contains. by destruct (str_find f (join ws)).
Qed.

(** Words without negated flags pass through the first loop. *)
Lemma erase_in_app p a b : existsb (contains p) a = false -> erase_in p (a ++ b) = a ++ erase_in p b.
Proof.
  induction a as [|w a IH]; simpl; [done|]. intros [-> H]%orb_false_iff. by rewrite IH.
Qed.

Lemma words_not_app names bit a b acc :
  forallb (fun f => negb (existsb (contains ("!" +:+ f)%string) a)) names = true ->
  words_not names bit (a ++ b) acc = (a ++ (words_not names bit b acc).1, (words_not names bit b acc).2).
Proof.
  revert bit b acc. induction names as [|f names IH]; intros bit b acc; cbn [words_not forallb]; [done|].
  intros [Hf Hn]%andb_true_iff. rewrite negb_true_iff in Hf.
  rewrite existsb_app, Hf. simpl. destruct (existsb _ b); [|auto].
  rewrite erase_in_app by done. auto.
Qed.

Lemma words_set_app names bit a b acc :
  forallb (fun f => negb (existsb (contains f) b)) names = true ->
  words_set names bit (a ++ b) acc = words_set names bit a acc.
Proof.
  revert bit acc. induction names as [|f names IH]; intros bit acc; cbn [words_set forallb]; [done|].
  intros [Hf Hn]%andb_true_iff. rewrite negb_true_iff in Hf.
  rewrite existsb_app, Hf, orb_false_r. auto.
Qed.

(** * What the printer writes *)
Fixpoint words (prefix : string) (names : list string) (bit mask : Z) : list string :=
  match names with
  | [] => []
  | f :: names =>
      (if CHECK_BIT mask bit then [(prefix +:+ f)%string] else []) ++ words prefix names (bit + 1) mask
  end.

Lemma print_flags_words prefix names bit mask :
  print_flags prefix names bit mask = join (words prefix names bit mask).
Proof.
  revert bit. induction names as [|f names IH]; intros bit; simpl; [done|].
  rewrite join_app, IH. destruct (CHECK_BIT mask bit); simpl; [|done].
  by rewrite !string_app_assoc.
Qed.

Lemma words_zero prefix names bit : words prefix names bit 0 = [].
Proof. revert bit. induction names as [|f names IH]; intros bit; simpl; [done|]. by rewrite IH. Qed.

Lemma flags_printed_words s n :
  flags_from_masks_to_string "" s n = join (words "" flag_names 0 s ++ words "!" flag_names 0 n).
Proof.
  unfold flags_from_masks_to_string. rewrite join_app, <- !print_flags_words.
  destruct (Z.eqb_spec s 0) as [->|]; destruct (Z.eqb_spec n 0) as [->|]; try done;
  by rewrite (print_flags_words _ _ _ 0), words_zero.
Qed.

Lemma set_words_ok s :
  0 <= s < 256 ->
  forallb (fun f => negb (existsb (contains ("!" +:+ f)%string) (words "" flag_names 0 s))) flag_names
  && (words_set flag_names 0 (words "" flag_names 0 s) 0 =? s) = true.
Proof.
  apply (forallb_below (fun s =>
    forallb (fun f => negb (existsb (contains ("!" +:+ f)%string) (words "" flag_names 0 s))) flag_names
    && (words_set flag_names 0 (words "" flag_names 0 s) 0 =? s)) 256).
  by vm_compute.
Qed.

Lemma not_words_ok n :
  0 <= n < 256 ->
  let r := words_not flag_names 0 (words "!" flag_names 0 n) 0 in
  forallb (fun f => negb (existsb (contains f) r.1)) flag_names && (r.2 =? n) = true.
Proof.
  apply (forallb_below (fun n => let r := words_not flag_names 0 (words "!" flag_names 0 n) 0 in
    forallb (fun f => negb (existsb (contains f) r.1)) flag_names && (r.2 =? n)) 256).
  by vm_compute.
Qed.

Lemma flags_string_roundtrip s n :
  0 <= s < 256 -> 0 <= n < 256 -> Z.land s n = 0 ->
  flags_from_string_to_masks (flags_from_masks_to_string "" s n) = Ok (s, n).
Proof.
  intros Hs Hn Hd. unfold flags_from_string_to_masks, flags_masks.
  pose proof (set_words_ok s Hs) as [Hs1 Hs2%Z.eqb_eq]%andb_true_iff.
  pose proof (not_words_ok n Hn) as [Hn1 Hn2%Z.eqb_eq]%andb_true_iff.
  rewrite flags_printed_words, parse_not_flags_words by done.
  rewrite words_not_app by done. cbn beta iota zeta delta [fst snd].
  rewrite parse_flags_words, words_set_app by done.
  rewrite Hs2. destruct (words_not _ _ _ _) as [ws m]. cbn in Hn2 |- *. subst m. by rewrite Hd.
Qed.
