(* ===== verification/FwRuleFacts.v ===== *)
(** pcn-firewall, rules: the well-formedness that the constructor establishes,
    the round trips of a rule's fields through the strings its getters return,
    and what [equal] decides. *)
From Stdlib Require Import ZArith Lia Ascii String.
From stdpp Require Import base list strings numbers.
From S2P Require Import Prelude.
From S2P Require Import NetUtils.
From S2P Require Import FwRule.
From S2P Require Import FwFlags.
#[local] Open Scope Z_scope.
#[local] Open Scope cpp_scope.

(** * Well-formed rules *)
(** The address comes from [fromString]; its [ruleId] is never written. *)
Definition wf_ip (a : IpAddr) : Prop := 0 <= ip a < 2 ^ 32 /\ 0 <= netmask a <= 32 /\ ruleId a = 0.
Definition known_protocol (p : Z) : bool :=
  bool_decide (p ∈ [IPPROTO_TCP; IPPROTO_UDP; IPPROTO_ICMP; IPPROTO_GRE]).
Definition wf_flags (f : Z * Z) : Prop := 0 <= f.1 < 256 /\ 0 <= f.2 < 256 /\ Z.land f.1 f.2 = 0.
Definition wf_port (p : Z) : Prop := 0 <= p < 2 ^ 16.
Definition opt {A} (P : A -> Prop) (o : option A) : Prop := forall a, o = Some a -> P a.

Record wf_rule (r : ChainRule) : Prop := {
  wf_src : opt wf_ip (ipSrc r);
  wf_dst : opt wf_ip (ipDst r);
  wf_sport : opt wf_port (srcPort r);
  wf_dport : opt wf_port (dstPort r);
  wf_proto : opt (fun p => known_protocol p = true) (l4Proto r);
  wf_tcp : opt wf_flags (tcpFlags r);
  wf_action : is_Some (action r);
}.

(** The JSON layer has already read the ports as 16-bit integers. *)
Definition typed_conf (conf : RuleConf) : Prop := opt wf_port (m_sport conf) /\ opt wf_port (m_dport conf).

(** * Reading fields *)
Lemma fromString_wf a s a' : ruleId a = 0 -> IpAddr_fromString a s = Ok a' -> wf_ip a'.
Proof.
  intros Hr. unfold IpAddr_fromString.
  intros (nm & Hnm & H)%res_bind_Ok. destruct (Z.ltb_spec 32 nm); [done|].
  apply res_bind_Ok in H as (x & Hx & [= <-]). apply ip_string_to_nbo_uint_bounds in Hx.
  split; [done|]. split; [|done]. simpl.
  destruct (str_find SLASH s); [|by injection Hnm as <-].
  apply res_bind_Ok in Hnm as (v & _ & [= <-]). pose proof (u8_bounds v). lia.
Qed.

Lemma protocol_from_string_known s p : protocol_from_string_to_int s = Ok p -> known_protocol p = true.
Proof.
  unfold protocol_from_string_to_int. repeat case_bool_decide; intros [= <-]; done.
Qed.

Lemma SET_BIT_bounds x i : 0 <= i < 8 -> 0 <= x < 256 -> 0 <= SET_BIT x i < 256.
Proof.
  intros Hi Hx. apply (lor_lt_pow2 _ _ 8); [lia..|]. rewrite Z.shiftl_1_l.
  split; [apply Z.pow_nonneg; lia|apply Z.pow_lt_mono_r; lia].
Qed.

Lemma parse_not_flags_bounds names bit s acc :
  0 <= bit -> bit + Z.of_nat (length names) <= 8 -> 0 <= acc < 256 ->
  0 <= (parse_not_flags names bit s acc).2 < 256.
Proof.
  revert bit s acc. induction names as [|f names IH]; intros bit s acc Hb Hl Ha; simpl in *; [done|].
  destruct (str_find _ s); apply IH; try lia. apply SET_BIT_bounds; lia.
Qed.

Lemma parse_flags_bounds names bit s acc :
  0 <= bit -> bit + Z.of_nat (length names) <= 8 -> 0 <= acc < 256 ->
  0 <= parse_flags names bit s acc < 256.
Proof.
  revert bit acc. induction names as [|f names IH]; intros bit acc Hb Hl Ha; simpl in *; [done|].
  apply IH; try lia. destruct (str_find _ s); [|done]. apply SET_BIT_bounds; lia.
Qed.

Lemma flags_from_string_wf s f : flags_from_string_to_masks s = Ok f -> wf_flags f.
Proof.
  unfold flags_from_string_to_masks, flags_masks.
  pose proof (parse_not_flags_bounds flag_names 0 s 0 ltac:(lia) ltac:(simpl; lia) ltac:(lia)) as Hn.
  destruct (parse_not_flags _ _ _ _) as [m n].
  pose proof (parse_flags_bounds flag_names 0 m 0 ltac:(lia) ltac:(simpl; lia) ltac:(lia)).
  destruct (Z.eqb_spec (Z.land (parse_flags flag_names 0 m 0) n) 0); [|done]. by intros [= <-].
Qed.

(** * Fields through their strings *)
Section rules.
Context `{Inet}.

Lemma fromString_toString c a :
  wf_ip a -> IpAddr_fromString c (IpAddr_toString a) = Ok {| ip := ip a; netmask := netmask a; ruleId := ruleId c |}.
Proof.
  intros (Hip & Hnm & _). unfold IpAddr_fromString, IpAddr_toString, nbo_uint_to_ip_string.
  rewrite inet_ntoa_spec by done. destruct (prefix_string (ip a) (netmask a)) as (pos & -> & -> & ->).
  rewrite stol_to_string by done. cbn [res_bind]. unfold u8. rewrite Z.mod_small by lia.
  destruct (Z.ltb_spec 32 (netmask a)); [lia|]. by rewrite ip_string_to_nbo_uint_dotted by done.
Qed.

Lemma toString_inj a b :
  wf_ip a -> wf_ip b -> IpAddr_toString a = IpAddr_toString b -> (ip a, netmask a) = (ip b, netmask b).
Proof.
  intros Ha Hb E. pose proof (fromString_toString unset_ip a Ha) as Ea.
  rewrite E, fromString_toString in Ea by done. injection Ea as -> ->. done.
Qed.

Lemma protocol_int_string p :
  known_protocol p = true ->
  exists s, protocol_from_int_to_string p = Ok s /\ protocol_from_string_to_int s = Ok p.
Proof.
  unfold known_protocol. rewrite bool_decide_eq_true.
  intros [->|[->|[->|[->|[]%elem_of_nil]%elem_of_cons]%elem_of_cons]%elem_of_cons]%elem_of_cons;
    eexists; split; reflexivity.
Qed.

(** * What the methods establish *)
Definition wf_fields (r : ChainRule) : Prop :=
  opt wf_ip (ipSrc r) /\ opt wf_ip (ipDst r) /\ opt wf_port (srcPort r) /\ opt wf_port (dstPort r) /\
  opt (fun p => known_protocol p = true) (l4Proto r) /\ opt wf_flags (tcpFlags r).

Lemma opt_Some {A} (P : A -> Prop) a : P a -> opt P (Some a).
Proof. by intros Ha ? [= <-]. Qed.
Lemma opt_None {A} (P : A -> Prop) : opt P None.
Proof. by intros ??. Qed.
Local Hint Resolve opt_Some opt_None : core.

Lemma unset_ruleId o : opt wf_ip o -> ruleId (default unset_ip o) = 0.
Proof. destruct o as [a|]; [|done]. intros Ha. apply (Ha a eq_refl). Qed.

Lemma keeps_if_set {A} (P : ChainRule -> Prop) (o : option A) set :
  (forall a, o = Some a -> keeps P (set a)) -> keeps P (if_set o set).
Proof. destruct o; simpl; [auto|]. intros _. apply keeps_ret. Qed.

(** Every step of [update] keeps the fields well formed, except that the
    masks of a flag string that is about to be refused may overlap. *)
Lemma update_flags_keeps s :
  keeps wf_fields
    (modify (fun r => set_tcpFlags ((fun _ => flags_masks s) <$> tcpFlags r) r) ;;;
     f <-- lift (flags_from_string_to_masks s) ;; modify (set_tcpFlags (Some f))).
Proof.
  intros r [] r' (a & r1 & [= <- <-] & H2)%bind_Ok Hr.
  apply bind_Ok in H2 as (f & r1 & H3 & [= <-]). unfold lift in H3. injection H3 as Hf <-.
  apply flags_from_string_wf in Hf. unfold wf_fields in *. simpl. naive_solver.
Qed.

Lemma update_keeps b conf : typed_conf conf -> keeps wf_fields (update b conf).
Proof.
  intros [Hsp Hdp]. unfold update.
  repeat (first [apply keeps_bind; [|intros _]]);
    try (apply keeps_if_set; intros a Ha);
    try (apply keeps_modify; intros r Hr; unfold wf_fields in *; simpl; naive_solver).
  - destruct (negb b); [apply keeps_throw|]. by apply keeps_modify.
  - apply keeps_get_bind. intros r (Hs & _). apply keeps_lift_bind. intros a' Ha'.
    apply fromString_wf in Ha'; [|by apply unset_ruleId].
    apply keeps_modify. unfold wf_fields. simpl. naive_solver.
  - apply keeps_get_bind. intros r (_ & Hs & _). apply keeps_lift_bind. intros a' Ha'.
    apply fromString_wf in Ha'; [|by apply unset_ruleId].
    apply keeps_modify. unfold wf_fields. simpl. naive_solver.
  - apply update_flags_keeps.
  - apply keeps_lift_bind. intros p Hp%protocol_from_string_known.
    apply keeps_modify. unfold wf_fields. simpl. naive_solver.
Qed.

Lemma update_id_keeps b conf : keeps (fun r => id r = m_id conf) (update b conf).
Proof.
  unfold update.
  repeat (first [apply keeps_bind; [|intros _]]);
    try (apply keeps_if_set; intros a Ha);
    try (by apply keeps_modify).
  - destruct (negb b); [apply keeps_throw|]. by apply keeps_modify.
  - apply keeps_get_bind. intros r _. apply keeps_lift_bind. intros a' _. by apply keeps_modify.
  - apply keeps_get_bind. intros r _. apply keeps_lift_bind. intros a' _. by apply keeps_modify.
  - apply keeps_bind; [by apply keeps_modify|]. intros _. apply keeps_lift_bind. intros f _. by apply keeps_modify.
  - apply keeps_lift_bind. intros p _. by apply keeps_modify.
Qed.

Lemma make_ChainRule_id b conf r : make_ChainRule b conf = Ok r -> id r = m_id conf.
Proof.
  unfold make_ChainRule. intros Hm. destruct (update _ _ _) as [[[]| |] r'] eqn:Hu; [|done..]. injection Hm as <-.
  by apply (update_id_keeps b conf _ _ _ Hu).
Qed.

Lemma update_action b conf r r' : update b conf r = (Ok tt, r') -> action r' = Some (default DROP (m_action conf)).
Proof.
  unfold update. intros Hu. repeat apply bind_Ok in Hu as ([] & ? & _ & Hu). by injection Hu as <-.
Qed.

Lemma make_ChainRule_wf b conf r : typed_conf conf -> make_ChainRule b conf = Ok r -> wf_rule r.
Proof.
  intros Hc Hm. unfold make_ChainRule in Hm.
  destruct (update _ _ _) as [[[]| |] r'] eqn:Hu; [|done..]. injection Hm as <-.
  pose proof (update_action _ _ _ _ Hu) as Ha.
  destruct (update_keeps b conf Hc _ _ _ Hu) as (? & ? & ? & ? & ? & ?).
  { unfold wf_fields; simpl. auto 10. }
  split; [done..|]. by rewrite Ha.
Qed.

(** What a well-formed rule's getters give back. *)
Lemma getSrc_fromString c r : wf_rule r ->
  (s <~ getSrc r ;; IpAddr_fromString c s) =
  match ipSrc r with
  | Some a => Ok {| ip := ip a; netmask := netmask a; ruleId := ruleId c |}
  | None => Throw (RuntimeError "Src not set.")
  end.
Proof.
  intros Hr. unfold getSrc. destruct (ipSrc r) as [a|] eqn:E; [|done].
  by apply fromString_toString, (wf_src r Hr).
Qed.
Lemma getDst_fromString c r : wf_rule r ->
  (s <~ getDst r ;; IpAddr_fromString c s) =
  match ipDst r with
  | Some a => Ok {| ip := ip a; netmask := netmask a; ruleId := ruleId c |}
  | None => Throw (RuntimeError "Dst not set.")
  end.
Proof.
  intros Hr. unfold getDst. destruct (ipDst r) as [a|] eqn:E; [|done].
  by apply fromString_toString, (wf_dst r Hr).
Qed.
Lemma getL4proto_int r : wf_rule r ->
  (s <~ getL4proto r ;; protocol_from_string_to_int s) =
  match l4Proto r with Some p => Ok p | None => Throw (RuntimeError "L4Proto not set.") end.
Proof.
  intros Hr. unfold getL4proto. destruct (l4Proto r) as [p|] eqn:E; [|done]. simpl.
  destruct (protocol_int_string p (wf_proto r Hr p E)) as (s & -> & Hs). done.
Qed.
Lemma getTcpflags_masks r : wf_rule r ->
  (s <~ getTcpflags r ;; flags_from_string_to_masks s) =
  match tcpFlags r with Some f => Ok f | None => Throw (RuntimeError "TcpFlags not set.") end.
Proof.
  intros Hr. unfold getTcpflags. destruct (tcpFlags r) as [[s n]|] eqn:E; [|done].
  destruct (wf_tcp r Hr _ E) as (? & ? & ?). by apply flags_string_roundtrip.
Qed.

(** A rule rebuilt from what [toJsonObject] returns: the steps of [update] set
    the fields one after the other. *)
Lemma make_toJsonObject r : wf_rule r -> make_ChainRule true (toJsonObject r) = Ok r.
Proof.
  intros Hr. unfold make_ChainRule, update.
  pose proof (getSrc_fromString unset_ip r Hr) as Hsrc. pose proof (getDst_fromString unset_ip r Hr) as Hdst.
  pose proof (getL4proto_int r Hr) as Hp. pose proof (getTcpflags_masks r Hr) as Hf.
  pose proof (wf_src r Hr) as Ws. pose proof (wf_dst r Hr) as Wd. pose proof (wf_proto r Hr) as Wp.
  destruct (wf_action r Hr) as [act Hact].
  destruct r as [i ct src dst sp dp pr tf ac de]; simpl in *. subst ac.
  unfold toJsonObject, set_id; simpl.
  pose (r0 := set_id i empty_rule). pose (r1 := set_conntrack ct r0). pose (r2 := set_ipSrc src r1).
  pose (r3 := set_ipDst dst r2). pose (r4 := set_srcPort sp r3). pose (r5 := set_dstPort dp r4).
  pose (r6 := set_tcpFlags tf r5). pose (r7 := set_l4Proto pr r6). pose (r8 := set_description de r7).
  rewrite (bind_run _ _ _ tt r0) by done.
  rewrite (bind_run _ _ r0 tt r1) by (by destruct ct).
  rewrite (bind_run _ _ r1 tt r2).
  2:{ destruct src as [[a n d]|]; [|done]. destruct (Ws _ eq_refl) as (_ & _ & E). simpl in E. subst d.
      cbn -[IpAddr_fromString IpAddr_toString] in Hsrc |- *.
      unfold bind, get, lift. cbn -[IpAddr_fromString IpAddr_toString]. by rewrite Hsrc. }
  rewrite (bind_run _ _ r2 tt r3).
  2:{ destruct dst as [[a n d]|]; [|done]. destruct (Wd _ eq_refl) as (_ & _ & E). simpl in E. subst d.
      cbn -[IpAddr_fromString IpAddr_toString] in Hdst |- *.
      unfold bind, get, lift. cbn -[IpAddr_fromString IpAddr_toString]. by rewrite Hdst. }
  rewrite (bind_run _ _ r3 tt r4) by (by destruct sp).
  rewrite (bind_run _ _ r4 tt r5) by (by destruct dp).
  rewrite (bind_run _ _ r5 tt r6).
  2:{ destruct tf as [f|]; [|done].
      cbn -[flags_from_string_to_masks flags_from_masks_to_string] in Hf |- *.
      unfold bind, lift, modify. cbn -[flags_from_string_to_masks flags_from_masks_to_string]. by rewrite Hf. }
  rewrite (bind_run _ _ r6 tt r7).
  2:{ destruct pr as [p|]; [|done]. unfold getL4proto in *. cbn [get_field res_bind l4Proto] in *.
      destruct (protocol_from_int_to_string p) as [s| |]; cbn in Hp; [|done..].
      unfold bind, lift. cbn -[protocol_from_string_to_int]. by rewrite Hp. }
  by rewrite (bind_run _ _ r7 tt r8) by (by destruct de).
Qed.

(** * The rules [equal] identifies *)
Definition conditions (r : ChainRule) :=
  ((fun a => (ip a, netmask a)) <$> ipSrc r, (fun a => (ip a, netmask a)) <$> ipDst r, srcPort r, dstPort r,
   l4Proto r, tcpFlags r, action r, conntrack r).

Lemma field_equal_spec {A} (eqb : A -> A -> bool) a b :
  (forall x y, a = Some x -> b = Some y -> eqb x y = true <-> x = y) -> field_equal eqb a b = true <-> a = b.
Proof. destruct a, b; simpl; naive_solver. Qed.

Lemma ip_field_equal a b :
  opt wf_ip a -> opt wf_ip b ->
  field_equal (fun a b => String.eqb (IpAddr_toString a) (IpAddr_toString b)) a b = true <->
  (fun a => (ip a, netmask a)) <$> a = (fun a => (ip a, netmask a)) <$> b.
Proof.
  intros Ha Hb. destruct a as [a|], b as [b|]; simpl; [|done..]. rewrite String.eqb_eq. split.
  - intros E. f_equal. apply toString_inj; auto.
  - intros [= E1 E2]. unfold IpAddr_toString. by rewrite E1, E2.
Qed.

Lemma equal_spec r s : wf_rule r -> wf_rule s -> equal r s = true <-> conditions r = conditions s.
Proof.
  intros Hr Hs. unfold equal, conditions. rewrite !andb_true_iff.
  rewrite !ip_field_equal by (apply wf_src || apply wf_dst; done).
  rewrite !field_equal_spec;
    [split; [intros E; destruct_and! E; congruence|intros E; injection E; tauto]|..];
    try (intros; by rewrite bool_decide_eq_true);
    try (intros; by rewrite Z.eqb_eq).
  intros [a b] [c d] _ _; simpl. destruct (Z.eqb_spec a c), (Z.eqb_spec b d); naive_solver.
Qed.
End rules.
