(* ===== verification/FwBits.v ===== *)
(** pcn-firewall, bit vectors: a set of rule identifiers is a vector of 64-bit
    words of which the low 63 bits are used (defines.h, SET_BIT and
    FROM_NRULES_TO_NELEMENTS); the bit-scan module finds the lowest one with a
    de Bruijn multiplication (modules/BitScan.cpp, datapaths/Firewall_BitScan_dp.c). *)
From Stdlib Require Import ZArith Lia.
From stdpp Require Import base sets list strings numbers.
From S2P Require Import Prelude.
From S2P Require Import FwRule.
#[local] Open Scope Z_scope.
#[local] Open Scope cpp_scope.

Definition FROM_NRULES_TO_NELEMENTS (x : Z) : Z := x / 63 + (if x mod 63 =? 0 then 0 else 1).
Definition maxRules : Z := 8192.

(** [std::vector<uint64_t> bitVector(FROM_NRULES_TO_NELEMENTS(Firewall::maxRules))] *)
Definition new_bitvector : list Z := replicate (Z.to_nat (FROM_NRULES_TO_NELEMENTS maxRules)) 0.

(** [SET_BIT(v[id / 63], id % 63)]; the vector is not extended. *)
Definition set_rule_bit (v : list Z) (id : Z) : res (list Z) :=
  match v !! Z.to_nat (id / 63) with
  | Some w => Ok (<[Z.to_nat (id / 63) := SET_BIT w (id mod 63)]> v)
  | None => Undefined
  end.

(** The identifiers a vector holds. *)
Definition bit (v : list Z) (i : Z) : bool :=
  match v !! Z.to_nat (i / 63) with Some w => Z.testbit w (i mod 63) | None => false end.

Definition wf_word (w : Z) : Prop := 0 <= w < 2 ^ 63.
Definition wf_bits (v : list Z) : Prop :=
  length v = Z.to_nat (FROM_NRULES_TO_NELEMENTS maxRules) /\ Forall wf_word v.

Lemma n_words : Z.to_nat (FROM_NRULES_TO_NELEMENTS maxRules) = 131%nat.
Proof. reflexivity. Qed.

Lemma new_bitvector_wf : wf_bits new_bitvector.
Proof. split; [apply length_replicate|]. apply Forall_replicate. unfold wf_word. lia. Qed.

Lemma bit_new i : bit new_bitvector i = false.
Proof.
  unfold bit, new_bitvector. destruct (_ !! _) as [w|] eqn:E; [|done].
  apply lookup_replicate in E as [-> _]. apply Z.testbit_0_l.
Qed.

Lemma div_mod_63_inj i j :
  0 <= i -> 0 <= j -> Z.to_nat (i / 63) = Z.to_nat (j / 63) -> i mod 63 = j mod 63 -> i = j.
Proof.
  intros Hi Hj Hd Hm. apply Z2Nat.inj in Hd; [|by apply Z.div_pos..].
  rewrite (Z.div_mod i 63), (Z.div_mod j 63) by lia. lia.
Qed.

Lemma SET_BIT_testbit w x i : 0 <= x -> Z.testbit (SET_BIT w x) i = Z.testbit w i || (x =? i).
Proof.
  intros Hx. unfold SET_BIT. rewrite Z.lor_spec, Z.shiftl_1_l. f_equal.
  destruct (Z.eqb_spec x i) as [->|Hn]; [by apply Z.pow2_bits_true|by apply Z.pow2_bits_false].
Qed.

Lemma SET_BIT_wf w x : 0 <= x < 63 -> wf_word w -> wf_word (SET_BIT w x).
Proof.
  intros Hx [H0 Hw]. unfold wf_word, SET_BIT. rewrite Z.shiftl_1_l.
  assert (0 < 2 ^ x) by (apply Z.pow_pos_nonneg; lia).
  assert (0 <= Z.lor w (2 ^ x)) by (apply Z.lor_nonneg; lia).
  split; [done|]. apply Z.log2_lt_cancel. rewrite Z.log2_lor, !Z.log2_pow2 by lia.
  destruct (Z.eq_dec w 0) as [->|]; [simpl; lia|].
  assert (Z.log2 w < 63) by (apply Z.log2_lt_pow2; lia). lia.
Qed.

(** Within the 131 words, setting a bit is adding an identifier. *)
Lemma set_rule_bit_ok v id :
  wf_bits v -> 0 <= id < 8253 ->
  exists v', set_rule_bit v id = Ok v' /\ wf_bits v' /\ forall i, 0 <= i -> bit v' i = bit v i || (id =? i).
Proof.
  intros [Hl Hw] Hid. unfold set_rule_bit. rewrite n_words in Hl.
  assert (Z.to_nat (id / 63) < length v)%nat as Hlt.
  { rewrite Hl. assert (id / 63 < 131) by (apply Z.div_lt_upper_bound; lia).
    assert (0 <= id / 63) by (apply Z.div_pos; lia). lia. }
  apply lookup_lt_is_Some in Hlt as [w Hlk]. rewrite Hlk. eexists. split; [done|].
  pose proof (Z.mod_pos_bound id 63 ltac:(lia)) as Hm. split.
  - split; [by rewrite length_insert, n_words|]. apply Forall_insert; [done|].
    apply SET_BIT_wf; [lia|]. by eapply Forall_lookup_1.
  - intros i Hi. unfold bit. destruct (decide (Z.to_nat (id / 63) = Z.to_nat (i / 63))) as [E|E].
    + rewrite <- E, list_lookup_insert_eq by (apply lookup_lt_is_Some; eauto).
      rewrite Hlk, SET_BIT_testbit by lia. f_equal. apply Bool.eq_iff_eq_true. rewrite !Z.eqb_eq.
      split; [intros; apply div_mod_63_inj; lia|by intros ->].
    + rewrite list_lookup_insert_ne by done. destruct (Z.eqb_spec id i) as [->|]; [done|].
      by rewrite orb_false_r.
Qed.

(** * What a bit vector says about a rule set *)
(** The identifiers are the positions. *)
Definition ids_ok (rules : list ChainRule) : Prop :=
  forall i r, rules !! i = Some r -> id r = Z.of_nat i.

Definition represents (rules : list ChainRule) (P : ChainRule -> bool) (v : list Z) : Prop :=
  wf_bits v /\
  forall i, 0 <= i -> bit v i = match rules !! Z.to_nat i with Some r => P r | None => false end.

Lemma ids_ok_app pre r post : ids_ok (pre ++ r :: post) -> id r = Z.of_nat (length pre) /\ ids_ok pre.
Proof.
  intros H. split.
  - apply H. by apply list_lookup_middle.
  - intros i x Hx. apply H. by apply lookup_app_l_Some.
Qed.

Lemma represents_nil P : represents [] P new_bitvector.
Proof. split; [apply new_bitvector_wf|]. intros i _. apply bit_new. Qed.

(** Adding one rule: its bit is set when it satisfies [P]. *)
Lemma represents_skip pre r P v :
  P r = false -> represents pre P v -> represents (pre ++ [r]) P v.
Proof.
  intros Hp [Hw Hb]. split; [done|]. intros i Hi. rewrite Hb by done.
  destruct (decide (Z.to_nat i < length pre)%nat) as [Hlt|Hge].
  - by rewrite lookup_app_l.
  - rewrite lookup_ge_None_2, lookup_app_r by lia.
    by destruct (Z.to_nat i - length pre)%nat as [|[|]].
Qed.

Lemma represents_add pre r P v :
  id r = Z.of_nat (length pre) -> id r < 8253 -> P r = true -> represents pre P v ->
  exists v', set_rule_bit v (id r) = Ok v' /\ represents (pre ++ [r]) P v'.
Proof.
  intros Hid Hlt Hp [Hw Hb].
  destruct (set_rule_bit_ok v (id r) Hw) as (v' & Hs & Hw' & Hb'); [lia|].
  exists v'. split; [done|]. split; [done|]. intros i Hi. rewrite Hb', Hb by done.
  destruct (Z.eqb_spec (id r) i) as [E|E].
  - rewrite orb_true_r. replace (Z.to_nat i) with (length pre) by lia. by rewrite list_lookup_middle.
  - rewrite orb_false_r. destruct (decide (Z.to_nat i < length pre)%nat) as [Hl|Hge].
    + by rewrite lookup_app_l.
    + rewrite lookup_ge_None_2, lookup_app_r by lia.
      by destruct (Z.to_nat i - length pre)%nat as [|[|]] eqn:E'; [lia|..].
Qed.

Lemma represents_ext rules P Q v :
  (forall r, r ∈ rules -> P r = Q r) -> represents rules P v -> represents rules Q v.
Proof.
  intros H [Hw Hb]. split; [done|]. intros i Hi. rewrite Hb by done.
  destruct (rules !! Z.to_nat i) as [r|] eqn:E; [|done]. apply H. by eapply list_elem_of_lookup_2.
Qed.

(** Setting the bit of one more rule of the set. *)
Lemma represents_set rules P v r :
  ids_ok rules -> Z.of_nat (length rules) <= 8253 -> r ∈ rules -> represents rules P v ->
  exists v', set_rule_bit v (id r) = Ok v' /\ represents rules (fun x => P x || (id x =? id r)) v'.
Proof.
  intros Hids Hlen [i Hi]%list_elem_of_lookup [Hw Hb].
  pose proof (Hids _ _ Hi) as Hid. apply lookup_lt_Some in Hi as Hlt.
  destruct (set_rule_bit_ok v (id r) Hw) as (v' & Hs & Hw' & Hb'); [lia|].
  exists v'. split; [done|]. split; [done|]. intros j Hj. rewrite Hb', Hb by done.
  destruct (rules !! Z.to_nat j) as [x|] eqn:E.
  - rewrite (Hids _ _ E), Z2Nat.id by done. f_equal. lia.
  - apply lookup_ge_None in E. destruct (Z.eqb_spec (id r) j); [lia|done].
Qed.

(** [for (auto const &rule : rules) if (P(rule)) SET_BIT(v[id / 63], id % 63)] *)
Lemma fill_represents rules (P : ChainRule -> bool) body :
  ids_ok rules -> Z.of_nat (length rules) <= 8253 ->
  (forall v r, r ∈ rules -> body v r = if P r then set_rule_bit v (id r) else Ok v) ->
  exists v, for_each_res rules body new_bitvector = Ok v /\ represents rules P v.
Proof.
  intros Hids Hlen Hbody.
  apply (for_each_res_inv rules body (fun pre v => represents pre P v)); [apply represents_nil|].
  intros pre r post v E HP. rewrite Hbody by (rewrite E; set_solver).
  rewrite E in Hids. apply ids_ok_app in Hids as [Hid _].
  rewrite E, length_app in Hlen. simpl in Hlen.
  destruct (P r) eqn:Hp; [|eauto using represents_skip].
  destruct (represents_add pre r P v) as (v' & -> & Hv'); [done|lia|done..|eauto].
Qed.

(** * Finding the lowest bit *)
(** [(int)(((bits ^ (bits - 1)) * 0x03f79d71b4cb0a89) >> 58)] on [uint64_t]. *)
Definition bitscan_index (bits : Z) : Z :=
  Z.shiftr (u64 (Z.lxor bits (u64 (bits - 1)) * 0x03f79d71b4cb0a89)) 58.

Definition index64 : list Z :=
  [0; 47; 1; 56; 48; 27; 2; 60; 57; 49; 41; 37; 28; 16; 3; 61;
   54; 58; 35; 52; 50; 42; 21; 44; 38; 32; 29; 23; 17; 11; 4; 62;
   46; 55; 26; 59; 40; 36; 15; 53; 34; 51; 20; 43; 31; 22; 10; 45;
   25; 39; 14; 33; 19; 30; 9; 24; 13; 18; 8; 12; 7; 6; 5; 63].

(** [k] is the lowest set bit of [w]. *)
Definition lowest_bit (w k : Z) : Prop :=
  0 <= k /\ Z.testbit w k = true /\ forall j, 0 <= j < k -> Z.testbit w j = false.

Fixpoint ctz (p : positive) : Z := match p with xO p => 1 + ctz p | _ => 0 end.

Lemma ctz_nonneg p : 0 <= ctz p.
Proof. induction p; simpl; lia. Qed.

Lemma ctz_lowest p : lowest_bit (Zpos p) (ctz p).
Proof.
  induction p as [p IH|p IH|]; simpl.
  - split; [lia|]. split; [done|]. lia.
  - destruct IH as (H0 & H1 & H2). split; [lia|].
    change (Z.pos p~0) with (2 * Z.pos p).
    split; [by rewrite Z.add_1_l, Z.testbit_even_succ|].
    intros j Hj. destruct (Z.eq_dec j 0) as [->|Hz]; [apply Z.testbit_even_0|].
    replace j with (Z.succ (j - 1)) by lia. rewrite Z.testbit_even_succ by lia. apply H2. lia.
  - split; [lia|]. split; [done|]. lia.
Qed.

Lemma lxor_double_pred a b : Z.lxor (2 * a) (2 * b + 1) = 2 * Z.lxor a b + 1.
Proof.
  apply Z.bits_inj'. intros n Hn. rewrite Z.lxor_spec.
  destruct (Z.eq_dec n 0) as [->|Hz].
  - by rewrite Z.testbit_even_0, !Z.testbit_odd_0.
  - replace n with (Z.succ (n - 1)) by lia.
    rewrite Z.testbit_even_succ, !Z.testbit_odd_succ, Z.lxor_spec by lia. done.
Qed.

Lemma lxor_pred p : Z.lxor (Zpos p) (Zpos p - 1) = 2 ^ (ctz p + 1) - 1.
Proof.
  induction p as [p IH|p IH|]; simpl ctz.
  - change (Z.pos p~1) with (2 * Z.pos p + 1). rewrite Z.add_simpl_r, Z.lxor_comm, lxor_double_pred.
    by rewrite Z.lxor_nilpotent.
  - change (Z.pos p~0) with (2 * Z.pos p). replace (2 * Z.pos p - 1) with (2 * (Z.pos p - 1) + 1) by lia.
    rewrite lxor_double_pred, IH. pose proof (ctz_nonneg p).
    replace (1 + ctz p + 1) with (Z.succ (ctz p + 1)) by lia. rewrite Z.pow_succ_r by lia. lia.
  - reflexivity.
Qed.

Lemma lowest_bit_lt w k n : 0 <= w < 2 ^ n -> 0 <= n -> lowest_bit w k -> k < n.
Proof.
  intros Hw Hn (H0 & H1 & _). destruct (Z.lt_ge_cases k n); [done|].
  by rewrite (testbit_high w n k) in H1 by lia.
Qed.

Lemma index64_debruijn k :
  0 <= k < 64 ->
  index64 !! Z.to_nat (Z.shiftr (u64 ((2 ^ (k + 1) - 1) * 0x03f79d71b4cb0a89)) 58) = Some k.
Proof.
  intros Hk.
  pose proof (forallb_below (fun k => bool_decide (index64 !! Z.to_nat
    (Z.shiftr (u64 ((2 ^ (k + 1) - 1) * 0x03f79d71b4cb0a89)) 58) = Some k)) 64 ltac:(by vm_compute) k Hk) as H.
  by rewrite bool_decide_eq_true in H.
Qed.

Lemma bitscan_lowest w :
  0 < w < 2 ^ 64 ->
  exists k, index64 !! Z.to_nat (bitscan_index w) = Some k /\ lowest_bit w k /\ 0 <= bitscan_index w < 64.
Proof.
  intros Hw. destruct w as [|p|p]; [lia| |lia]. exists (ctz p).
  pose proof (ctz_lowest p) as Hl. pose proof (ctz_nonneg p).
  assert (ctz p < 64) by (eapply lowest_bit_lt; [| |done]; lia).
  unfold bitscan_index. assert (u64 (Zpos p - 1) = Zpos p - 1) as -> by (apply Z.mod_small; lia).
  rewrite lxor_pred.
  split; [apply index64_debruijn; lia|]. split; [done|].
  rewrite Z.shiftr_div_pow2 by lia.
  pose proof (Z.mod_pos_bound ((2 ^ (ctz p + 1) - 1) * 0x03f79d71b4cb0a89) (2 ^ 64) ltac:(lia)).
  unfold u64. split; [apply Z.div_pos; lia|]. apply Z.div_lt_upper_bound; lia.
Qed.
