(* ===== verification/FwMaps.v ===== *)
(** pcn-firewall, compiling a rule set: the ...FromRulesToMap functions of
    Utils.cpp turn the list of rules into one table of bit vectors per matched
    field.  Each function reads the rules through the getters that return
    strings, and takes an exception as "this rule does not test the field". *)
From Stdlib Require Import ZArith Lia.
From stdpp Require Import base sets list strings numbers.
From S2P Require Import Prelude.
From S2P Require Import NetUtils.
From S2P Require Import FwRule.
From S2P Require Import FwFlags.
From S2P Require Import FwRuleFacts.
From S2P Require Import FwBits.
#[local] Open Scope Z_scope.
#[local] Open Scope cpp_scope.

Section definitions.
Context `{Inet}.

(** ** Addresses *)
Definition rule_ip (type : Z) (current : IpAddr) (rule : ChainRule) : res IpAddr :=
  s <~ (if type =? SOURCE_TYPE then getSrc rule else getDst rule) ;; IpAddr_fromString current s.

Definition ip_map : Type := list (IpAddr * list Z).

(** The first loop: distinct addresses, with an empty bit vector each. *)
Definition ip_collect (type : Z) (ips : ip_map) (rules : list ChainRule) : res (IpAddr * ip_map * list Z) :=
  for_each_res rules (fun st rule =>
    let '(current, ips, dont_care_rules) := st in
    o <~ try_runtime (rule_ip type current rule) ;;
    match o with
    | None => Ok (current, ips, dont_care_rules ++ [getId rule])
    | Some current =>
        match StdMap.find IpAddr_ltb current ips with
        | Some _ => Ok (current, ips, dont_care_rules)
        | None =>
            let current := {| ip := ip current; netmask := netmask current; ruleId := getId rule |} in
            Ok (current, StdMap.insert IpAddr_ltb current new_bitvector ips, dont_care_rules)
        end
    end) (unset_ip, ips, []).

Definition ip_mask (netmask : Z) : Z := if netmask =? 32 then 0xffffffff else u32 (u32 (Z.shiftl 1 netmask) - 1).

(** The bit vector of one entry: the rules whose prefix contains it. *)
Definition ip_fill (type : Z) (rules : list ChainRule) (address : IpAddr) (bitVector : list Z) : res (list Z) :=
  st <~ for_each_res rules (fun st rule =>
    let '(current_rule_ip, bitVector) := st in
    o <~ try_runtime (rule_ip type current_rule_ip rule) ;;
    current_rule_ip <~ match o with
                       | Some a => Ok a
                       | None => IpAddr_fromString current_rule_ip "0.0.0.0/0"
                       end ;;
    let mask := ip_mask (netmask current_rule_ip) in
    if (Z.land (ip address) mask =? Z.land (ip current_rule_ip) mask)
       && (netmask current_rule_ip <=? netmask address)
    then bitVector <~ set_rule_bit bitVector (getId rule) ;; Ok (current_rule_ip, bitVector)
    else Ok (current_rule_ip, bitVector)) (unset_ip, bitVector) ;;
  Ok st.2.

Definition wildcard_ip : IpAddr := {| ip := 0; netmask := 0; ruleId := 0 |}.

Definition ipFromRulesToMap (type : Z) (rules : list ChainRule) : res (ip_map * bool) :=
  st <~ ip_collect type [] rules ;;
  let '(_, ips, dont_care_rules) := st in
  ips <~ StdMap.for_each_entry (ip_fill type rules) ips ;;
  match ips, dont_care_rules with
  | _ :: _, _ :: _ =>
      bitVector <~ ip_fill type rules wildcard_ip new_bitvector ;;
      Ok (StdMap.insert IpAddr_ltb wildcard_ip bitVector ips, false)
  | _, _ => Ok (ips, true)
  end.

(** ** Keys compared for equality: protocols and ports

    The loops of [transportProtoFromRulesToMap] and [portFromRulesToMap],
    which differ in the key only. *)
Definition key_map : Type := list (Z * list Z).

Definition key_collect (key : ChainRule -> res Z) (rules : list ChainRule) : res (key_map * list Z) :=
  for_each_res rules (fun st rule =>
    let '(m, dont_care_rules) := st in
    let rule_id := getId rule in
    o <~ try_runtime (key rule) ;;
    match o with
    | None => Ok (m, dont_care_rules ++ [rule_id])
    | Some k =>
        match StdMap.find Z.ltb k m with
        | None =>
            bitVector <~ set_rule_bit new_bitvector rule_id ;;
            Ok (StdMap.insert Z.ltb k bitVector m, dont_care_rules)
        | Some second =>
            second <~ set_rule_bit second rule_id ;;
            Ok (StdMap.update Z.ltb k (fun _ => second) m, dont_care_rules)
        end
    end) ([], []).

Definition add_dont_care (m : key_map) (dont_care_rules : list Z) : res (key_map * bool) :=
  match m, dont_care_rules with
  | _ :: _, _ :: _ =>
      m <~ for_each_res dont_care_rules (fun m ruleNumber =>
             StdMap.for_each_entry (fun _ v => set_rule_bit v ruleNumber) m)
           (StdMap.insert Z.ltb 0 new_bitvector m) ;;
      Ok (m, false)
  | _, _ => Ok (m, true)
  end.

Definition transportProtoFromRulesToMap (rules : list ChainRule) : res (key_map * bool) :=
  st <~ key_collect (fun rule => s <~ getL4proto rule ;; protocol_from_string_to_int s) rules ;;
  add_dont_care st.1 st.2.

Definition portFromRulesToMap (type : Z) (rules : list ChainRule) : res (key_map * bool) :=
  st <~ key_collect (fun rule => if type =? SOURCE_TYPE then getSport rule else getDport rule) rules ;;
  add_dont_care st.1 st.2.

(** ** Connection status *)
Definition statesVector : list Z := [CT.NEW; CT.ESTABLISHED; CT.RELATED; CT.INVALID].

Definition conntrack_fill (rules : list ChainRule) (state : Z) : res (list Z) :=
  for_each_res rules (fun bitVector rule =>
    o <~ try_runtime (c <~ getConntrack rule ;; Ok (ChainRuleConntrackEnum_to_int c)) ;;
    match o with
    | Some rule_state =>
        if rule_state =? state then set_rule_bit bitVector (getId rule) else Ok bitVector
    | None => set_rule_bit bitVector (getId rule)
    end) new_bitvector.

(** The first loop stops no exception: [catch (...)]. *)
Definition conntrackFromRulesToMap (rules : list ChainRule) : res (key_map * bool) :=
  if negb (existsb (fun rule => match getConntrack rule with Ok _ => true | _ => false end) rules)
  then Ok ([], false)
  else
    m <~ for_each_res statesVector
           (fun m state => bitVector <~ conntrack_fill rules state ;;
                           Ok (StdMap.insert Z.ltb state bitVector m)) [] ;;
    Ok (m, false).

(** ** TCP flags *)
Definition possibleFlagsCombinations : list Z := seqZ 0 256.

(** [SET_BIT((flags[candidateFlag])[ruleId / 63], ruleId % 63)] *)
Definition set_flag_entry (flags : list (list Z)) (i : Z) (id : Z) : res (list (list Z)) :=
  match flags !! Z.to_nat i with
  | Some v => v' <~ set_rule_bit v id ;; Ok (<[Z.to_nat i := v']> flags)
  | None => Undefined
  end.

Fixpoint set_all_flags (flags : list (list Z)) (id : Z) : res (list (list Z)) :=
  match flags with
  | [] => Ok []
  | v :: flags => v' <~ set_rule_bit v id ;; flags' <~ set_all_flags flags id ;; Ok (v' :: flags')
  end.

Definition flags_match (candidateFlag flagsSet flagsNotSet : Z) : bool :=
  (Z.land candidateFlag flagsSet =? flagsSet) && (Z.land candidateFlag flagsNotSet =? 0).

Definition flagsFromRulesToMap (rules : list ChainRule) : res (list (list Z) * bool) :=
  areFlagsPresent <~ for_each_res rules (fun (found : bool) rule =>
    if found then Ok true else
    o <~ try_runtime (getTcpflags rule) ;; Ok (bool_decide (is_Some o))) false ;;
  if negb areFlagsPresent then Ok ([], false) else
  flags <~ for_each_res rules (fun flags rule =>
    let ruleId := getId rule in
    o <~ try_runtime (s <~ getTcpflags rule ;; flags_from_string_to_masks s) ;;
    match o with
    | None => set_all_flags flags ruleId
    | Some (flagsSet, flagsNotSet) =>
        let flagsSet := if flagsSet =? 0 then 255 else flagsSet in
        for_each_res possibleFlagsCombinations (fun flags candidateFlag =>
          if flags_match candidateFlag flagsSet flagsNotSet
          then set_flag_entry flags candidateFlag ruleId else Ok flags) flags
    end) (replicate 256 new_bitvector) ;;
  Ok (flags, false).
End definitions.
