(* ===== verification/FwMapsFacts.v ===== *)
(** pcn-firewall, compiling a rule set: what the tables of FwMaps hold.  Every
    bit vector [represents] the rules that accept its key, for the rules whose
    identifiers are their positions; the theorems about a packet only use these
    facts. *)
From Stdlib Require Import ZArith Lia.
From stdpp Require Import base sets list strings numbers.
From S2P Require Import Prelude.
From S2P Require Import NetUtils.
From S2P Require Import FwRule.
From S2P Require Import FwFlags.
From S2P Require Import FwRuleFacts.
From S2P Require Import FwBits.
From S2P Require Import FwMaps.
#[local] Open Scope Z_scope.
#[local] Open Scope cpp_scope.

(** A rule set a chain can hold. *)
Record wf_rules (rules : list ChainRule) : Prop := {
  wfr_ids : ids_ok rules;
  wfr_len : Z.of_nat (length rules) <= 8253;
  wfr_rule : forall r, r ∈ rules -> wf_rule r;
}.

(** What a rule says about a field, or nothing. *)
Definition no_field_or {A} (f : ChainRule -> option A) (P : A -> bool) (r : ChainRule) : bool :=
  match f r with Some a => P a | None => true end.

Lemma Z_equivb a b : StdMap.equivb Z.ltb a b = (a =? b).
Proof. apply Bool.eq_iff_eq_true. rewrite (StdMap.equivb_proj (proj := fun k => k)). lia. Qed.

(** * Protocols and ports *)
Section keyed.
Context (rules : list ChainRule) (key : ChainRule -> res Z) (k : ChainRule -> option Z).
Context (Hids : ids_ok rules) (Hlen : Z.of_nat (length rules) <= 8253).
Context (Hkey : forall r, r ∈ rules -> try_runtime (key r) = Ok (k r)).

Definition without_key (pre : list ChainRule) : list Z :=
  omap (fun r => match k r with Some _ => None | None => Some (id r) end) pre.

Definition collected (pre : list ChainRule) (st : key_map * list Z) : Prop :=
  st.2 = without_key pre /\ NoDup (StdMap.keys (fun k => k) st.1) /\
  forall x, match StdMap.find Z.ltb x st.1 with
            | Some v => x ∈ omap k pre /\ represents pre (fun r => bool_decide (k r = Some x)) v
            | None => x ∉ omap k pre
            end.

Lemma omap_snoc {A B} (f : A -> option B) l x :
  omap f (l ++ [x]) = omap f l ++ match f x with Some y => [y] | None => [] end.
Proof. rewrite omap_app. simpl. by destruct (f x). Qed.

Lemma represents_fresh pre r x :
  r ∈ rules -> x ∉ omap k pre -> id r = Z.of_nat (length pre) -> k r = Some x -> (length pre < length rules)%nat ->
  exists v, set_rule_bit new_bitvector (id r) = Ok v /\
    represents (pre ++ [r]) (fun r => bool_decide (k r = Some x)) v.
Proof using Hlen.
  intros Hr Hx Hid Hk Hl.
  apply (represents_add pre r (fun r => bool_decide (k r = Some x))); [done|lia|by rewrite bool_decide_eq_true|].
  split; [apply new_bitvector_wf|]. intros i Hi. rewrite bit_new.
  destruct (pre !! Z.to_nat i) as [y|] eqn:E; [|done].
  rewrite bool_decide_eq_false_2; [done|]. intros Hy. apply Hx, list_elem_of_omap.
  exists y. split; [by eapply list_elem_of_lookup_2|done].
Qed.

Lemma key_collect_spec : exists st, key_collect key rules = Ok st /\ collected rules st.
Proof using Hids Hlen Hkey.
  apply (for_each_res_inv rules _ collected).
  - split; [done|]. split; [constructor|]. intros x. simpl. apply not_elem_of_nil.
  - intros pre r post [m dont] E (Hd & Hnd & Hm). simpl in Hd, Hnd, Hm. subst dont. unfold getId.
    assert (r ∈ rules) as Hr by (rewrite E; set_solver).
    rewrite Hkey by done. cbn [res_bind].
    pose proof Hids as Hids'. rewrite E in Hids'. apply ids_ok_app in Hids' as [Hid _].
    assert (length pre < length rules)%nat as Hlt by (rewrite E, length_app; simpl; lia).
    destruct (k r) as [y|] eqn:Hk.
    + pose proof (Hm y) as Hy. destruct (StdMap.find Z.ltb y m) as [v|] eqn:Hf.
      * destruct Hy as [Hy Hv].
        destruct (represents_add pre r _ v Hid ltac:(lia) (bool_decide_eq_true_2 _ Hk) Hv) as (v' & -> & Hv').
        eexists. split; [done|]. unfold collected, without_key. cbn [fst snd].
        rewrite omap_snoc, Hk, app_nil_r. split; [done|].
        split; [unfold StdMap.keys; by rewrite StdMap.update_keys|]. intros x.
        rewrite (StdMap.find_update Z.ltb (fun k => k)), Z_equivb, omap_snoc, Hk.
        destruct (Z.eqb_spec x y) as [->|Hn].
        -- rewrite Hf. simpl. split; [set_solver|done].
        -- specialize (Hm x). destruct (StdMap.find Z.ltb x m); [|set_solver].
           split; [set_solver|]. apply represents_skip; [|tauto].
           rewrite bool_decide_eq_false, Hk. congruence.
      * destruct (represents_fresh pre r y) as (v' & -> & Hv'); [done..|].
        eexists. split; [done|]. unfold collected, without_key. cbn [fst snd].
        rewrite omap_snoc, Hk, app_nil_r. split; [done|].
        split; [by apply (StdMap.NoDup_keys_insert Z.ltb (fun k => k))|]. intros x.
        rewrite (StdMap.find_insert Z.ltb (fun k => k)), Z_equivb, omap_snoc, Hk.
        destruct (Z.eqb_spec x y) as [->|Hn].
        -- rewrite Hf. simpl. split; [set_solver|done].
        -- specialize (Hm x). destruct (StdMap.find Z.ltb x m); [|set_solver].
           split; [set_solver|]. apply represents_skip; [|tauto].
           rewrite bool_decide_eq_false, Hk. congruence.
    + eexists. split; [done|]. unfold collected, without_key. cbn [fst snd].
      rewrite omap_snoc, Hk. split; [done|]. split; [done|]. intros x. rewrite omap_snoc, Hk, app_nil_r.
      specialize (Hm x). destruct (StdMap.find Z.ltb x m); [|done].
      split; [tauto|]. apply represents_skip; [|tauto].
      by rewrite bool_decide_eq_false, Hk.
Qed.

(** The wildcard entry exists when some rules have a key and some have none. *)
Definition has_wildcard : Prop := omap k rules ≠ [] /\ without_key rules ≠ [].

Record key_table (m : key_map) (brk : bool) : Prop := {
  kt_nodup : NoDup (StdMap.keys (fun k => k) m);
  kt_empty : m = [] <-> omap k rules = [];
  kt_brk : brk = false <-> has_wildcard;
  kt_find x : match StdMap.find Z.ltb x m with
              | Some v => (x ∈ omap k rules \/ (x = 0 /\ has_wildcard)) /\
                          represents rules (no_field_or k (fun y => y =? x)) v
              | None => (x ∉ omap k rules) /\ ~ (x = 0 /\ has_wildcard)
              end;
}.

Definition half_done (pre : list Z) (m : key_map) : Prop :=
  NoDup (StdMap.keys (fun k => k) m) /\
  forall x, match StdMap.find Z.ltb x m with
            | Some v => (x ∈ omap k rules \/ x = 0) /\
                        represents rules (fun r => bool_decide (k r = Some x) || bool_decide (id r ∈ pre)) v
            | None => (x ∉ omap k rules) /\ x <> 0
            end.

Lemma without_key_id r : r ∈ rules -> id r ∈ without_key rules <-> k r = None.
Proof using Hids.
  intros Hr. unfold without_key. rewrite list_elem_of_omap. split.
  - intros (x & Hx & Hi). destruct (k x) eqn:E; [done|]. injection Hi as Hi.
    apply list_elem_of_lookup in Hr as [i Hr], Hx as [j Hx].
    pose proof (Hids _ _ Hr). pose proof (Hids _ _ Hx). replace i with j in Hr by lia. congruence.
  - intros E. exists r. by rewrite E.
Qed.

Lemma half_done_step pre ruleNumber m :
  (exists r, r ∈ rules /\ id r = ruleNumber) -> half_done pre m ->
  exists m', StdMap.for_each_entry (fun _ v => set_rule_bit v ruleNumber) m = Ok m' /\
    half_done (pre ++ [ruleNumber]) m'.
Proof using Hids Hlen.
  intros (r & Hr & <-) [Hnd Hm].
  destruct (StdMap.for_each_entry_ok (fun _ v => set_rule_bit v (id r)) m) as (m' & -> & Hf).
  { intros x v Hx. apply (StdMap.find_NoDup Z.ltb (fun k => k)) in Hx; [|done].
    specialize (Hm x). rewrite Hx in Hm. destruct Hm as [_ Hv].
    destruct (represents_set rules _ v r Hids Hlen Hr Hv) as (v' & ? & _). eauto. }
  exists m'. split; [done|]. split.
  { by rewrite (StdMap.keys_Forall2 (fun k => k) (fun _ v v' => set_rule_bit v (id r) = Ok v') m). }
  intros x. specialize (Hm x).
  pose proof (StdMap.find_Forall2 Z.ltb (fun v v' => set_rule_bit v (id r) = Ok v') m m' x Hf) as Hx.
  destruct (StdMap.find Z.ltb x m) as [v|], (StdMap.find Z.ltb x m') as [v'|]; try done.
  destruct Hm as [Hk Hv]. split; [done|].
  destruct (represents_set rules _ v r Hids Hlen Hr Hv) as (v'' & Hs & Hr').
  rewrite Hs in Hx. injection Hx as ->. revert Hr'. apply represents_ext. intros y _.
  rewrite <- orb_assoc. f_equal. apply Bool.eq_iff_eq_true.
  rewrite orb_true_iff, !bool_decide_eq_true, elem_of_app, list_elem_of_singleton, Z.eqb_eq. tauto.
Qed.

Lemma key_done m :
  without_key rules ≠ [] -> omap k rules ≠ [] -> half_done (without_key rules) m -> key_table m false.
Proof using Hids.
  intros Hw Ho [Hnd Hm]. assert has_wildcard as Hwild by done.
  split; [done| |by split|].
  - split; [|done]. intros ->. by destruct (Hm 0).
  - intros x. specialize (Hm x). destruct (StdMap.find Z.ltb x m) as [v|].
    + destruct Hm as [Hx Hv]. split; [tauto|]. revert Hv. apply represents_ext.
      intros r Hr. unfold no_field_or. pose proof (without_key_id r Hr) as Hid.
      apply Bool.eq_iff_eq_true. rewrite orb_true_iff, !bool_decide_eq_true, Hid.
      destruct (k r) as [y|]; [|tauto]. rewrite Z.eqb_eq. naive_solver.
    + tauto.
Qed.

Lemma key_table_direct m st2 :
  collected rules (m, st2) -> without_key rules = [] \/ omap k rules = [] -> key_table m true.
Proof using Hids Hlen Hkey.
  intros (_ & Hnd & Hm) Hc. cbn [fst snd] in *.
  assert (~ has_wildcard) as Hw by (intros [? ?]; tauto).
  split; [done| |by split|].
  - split.
    + intros ->. destruct (omap k rules) as [|x l]; [done|]. specialize (Hm x). simpl in Hm. set_solver.
    + intros Ho. destruct m as [|[x v] m]; [done|]. specialize (Hm x). simpl in Hm.
      rewrite Z_equivb, Z.eqb_refl, Ho in Hm. set_solver.
  - intros x. specialize (Hm x). destruct (StdMap.find Z.ltb x m) as [v|]; [|tauto].
    destruct Hm as [Hx Hv]. split; [tauto|]. revert Hv. apply represents_ext.
    intros r Hr. unfold no_field_or. destruct Hc as [Hc|Hc]; [|rewrite Hc in Hx; set_solver].
    pose proof (without_key_id r Hr) as Hid. rewrite Hc in Hid.
    apply Bool.eq_iff_eq_true. rewrite bool_decide_eq_true.
    destruct (k r); [rewrite Z.eqb_eq; naive_solver|set_solver].
Qed.

Lemma key_map_spec :
  exists m brk, (st <~ key_collect key rules ;; add_dont_care st.1 st.2) = Ok (m, brk) /\ key_table m brk.
Proof using Hids Hlen Hkey.
  destruct key_collect_spec as ([m dont] & -> & Hc). pose proof Hc as (Hd & Hnd & Hm).
  simpl in Hd. subst dont. cbn [res_bind fst snd]. unfold add_dont_care.
  destruct m as [|e m].
  { exists [], true. split; [done|]. apply (key_table_direct _ _ Hc). right.
    destruct (omap k rules) as [|x l]; [done|]. specialize (Hm x). simpl in Hm. set_solver. }
  destruct (without_key rules) as [|d dont] eqn:Ed.
  { eexists _, true. split; [done|]. apply (key_table_direct _ _ Hc). by left. }
  rewrite <- Ed in *. assert (e :: m ≠ []) as Hne by done. remember (e :: m) as m1 eqn:Em1. clear e m Em1.
  rename m1 into m.
  assert (half_done [] (StdMap.insert Z.ltb 0 new_bitvector m)) as H0.
  { split; [by apply (StdMap.NoDup_keys_insert Z.ltb (fun k => k))|]. intros x.
    rewrite (StdMap.find_insert Z.ltb (fun k => k)), Z_equivb. specialize (Hm x). cbn [fst] in Hm.
    destruct (Z.eqb_spec x 0) as [->|Hn].
    - destruct (StdMap.find Z.ltb 0 m) as [v|]; simpl.
      + destruct Hm as [Hx Hv]. split; [tauto|]. revert Hv. apply represents_ext.
        intros r _. by rewrite orb_false_r.
      + split; [tauto|]. split; [apply new_bitvector_wf|]. intros i Hi. rewrite bit_new.
        destruct (rules !! _) as [r|] eqn:E; [|done]. rewrite bool_decide_eq_false_2; [done|].
        intros Hk. apply Hm, list_elem_of_omap. exists r. split; [by eapply list_elem_of_lookup_2|done].
    - destruct (StdMap.find Z.ltb x m) as [v|]; [|done]. destruct Hm as [Hx Hv].
      split; [tauto|]. revert Hv. apply represents_ext. intros r _. by rewrite orb_false_r. }
  destruct (for_each_res_inv (without_key rules)
    (fun m ruleNumber => StdMap.for_each_entry (fun _ v => set_rule_bit v ruleNumber) m)
    half_done _ H0) as (m' & -> & Hdone).
  { intros pre x post b E Hb. apply half_done_step; [|done].
    assert (x ∈ without_key rules) as Hx by (rewrite E; set_solver).
    apply list_elem_of_omap in Hx as (r & Hr & Hx). exists r. split; [done|]. destruct (k r); [done|congruence]. }
  exists m', false. split; [done|]. apply key_done; [by rewrite Ed| |done].
  intros Ho. destruct m as [|[x v] m]; [done|]. specialize (Hm x).
  simpl in Hm. rewrite Z_equivb, Z.eqb_refl, Ho in Hm. set_solver.
Qed.
End keyed.

Section tables.
Context `{Inet} (rules : list ChainRule) (Hwf : wf_rules rules).

Lemma proto_map_spec :
  exists m brk, transportProtoFromRulesToMap rules = Ok (m, brk) /\ key_table rules l4Proto m brk.
Proof using Hwf.
  apply key_map_spec; [apply Hwf..|]. intros r Hr.
  rewrite getL4proto_int by (by apply Hwf). by destruct (l4Proto r).
Qed.

Definition port_of (type : Z) (r : ChainRule) : option Z :=
  if type =? SOURCE_TYPE then srcPort r else dstPort r.

Lemma port_map_spec type :
  exists m brk, portFromRulesToMap type rules = Ok (m, brk) /\ key_table rules (port_of type) m brk.
Proof using Hwf.
  apply key_map_spec; [apply Hwf..|]. intros r _. unfold port_of, getSport, getDport.
  destruct (type =? SOURCE_TYPE); [by destruct (srcPort r)|by destruct (dstPort r)].
Qed.

(** ** Connection status *)
Definition status_of (r : ChainRule) : option Z := ChainRuleConntrackEnum_to_int <$> conntrack r.

Lemma conntrack_fill_spec state :
  exists v, conntrack_fill rules state = Ok v /\
    represents rules (no_field_or status_of (fun s => s =? state)) v.
Proof using Hwf.
  apply fill_represents; [apply Hwf..|]. intros v r _.
  unfold no_field_or, status_of, getConntrack, getId. by destruct (conntrack r).
Qed.

Definition conntrack_table (m : key_map) : Prop :=
  NoDup (StdMap.keys (fun k => k) m) /\
  (omap status_of rules = [] /\ m = [] \/
   omap status_of rules ≠ [] /\
   forall x, match StdMap.find Z.ltb x m with
             | Some v => (x ∈ statesVector) /\ represents rules (no_field_or status_of (fun s => s =? x)) v
             | None => x ∉ statesVector
             end).

Lemma existsb_omap {A} (f : ChainRule -> option A) (p : ChainRule -> bool) l :
  (forall r, p r = bool_decide (is_Some (f r))) -> existsb p l = true <-> omap f l ≠ [].
Proof using Type.
  intros Hp. induction l as [|r l IH]; simpl; [done|]. rewrite Hp.
  by destruct (f r).
Qed.

Lemma conntrack_map_spec : exists m, conntrackFromRulesToMap rules = Ok (m, false) /\ conntrack_table m.
Proof using Hwf.
  unfold conntrackFromRulesToMap, key_map.
  pose proof (existsb_omap status_of (fun rule => match getConntrack rule with Ok _ => true | _ => false end) rules)
    as Hex.
  destruct (existsb _ rules); cbn [negb].
  - destruct (for_each_res_inv statesVector
      (fun m state => bitVector <~ conntrack_fill rules state ;; Ok (StdMap.insert Z.ltb state bitVector m))
      (fun pre m => NoDup (StdMap.keys (fun k => k) m) /\
         forall x, match StdMap.find Z.ltb x m with
             | Some v => (x ∈ pre) /\ represents rules (no_field_or status_of (fun s => s =? x)) v
             | None => x ∉ pre
             end) []) as (m & -> & Hnd & Hm).
    + split; [constructor|]. intros x. apply not_elem_of_nil.
    + intros pre x post m _ [Hnd Hm]. destruct (conntrack_fill_spec x) as (v & -> & Hv).
      eexists. split; [done|]. split; [by apply (StdMap.NoDup_keys_insert Z.ltb (fun k => k))|].
      intros y. specialize (Hm y). rewrite (StdMap.find_insert Z.ltb (fun k => k)), Z_equivb.
      destruct (Z.eqb_spec y x) as [->|Hn]; destruct (StdMap.find Z.ltb _ m); set_solver.
    + simpl. exists m. split; [done|]. split; [done|]. right. split; [|done].
      apply Hex; [|done]. intros r. unfold status_of, getConntrack. by destruct (conntrack r).
  - exists []. split; [done|]. split; [constructor|]. left. split; [|done].
    destruct (omap status_of rules) eqn:E; [done|]. exfalso.
    assert (false = true); [|done]. apply Hex; [|done].
    intros r. unfold status_of, getConntrack. by destruct (conntrack r).
Qed.

(** ** TCP flags

    [flagsFromRulesToMap] takes no flag that must be set as all of them. *)
Definition flags_required (f : Z * Z) : Z := if f.1 =? 0 then 255 else f.1.
Definition flags_accept (f : Z * Z) (flags : Z) : bool := flags_match flags (flags_required f) f.2.

Definition flags_rows (pre : list ChainRule) (fl : list (list Z)) : Prop :=
  length fl = 256%nat /\
  forall x v, fl !! x = Some v ->
    represents pre (no_field_or tcpFlags (fun f => flags_accept f (Z.of_nat x))) v.

Lemma set_all_flags_ok fl id :
  0 <= id < 8253 -> Forall wf_bits fl ->
  exists fl', set_all_flags fl id = Ok fl' /\ Forall2 (fun v v' => set_rule_bit v id = Ok v') fl fl'.
Proof using Type.
  intros Hid. induction 1 as [|v fl Hv _ IH]; simpl; [by exists []|].
  destruct (set_rule_bit_ok v id Hv Hid) as (v' & E & _). rewrite E. simpl.
  destruct IH as (fl' & -> & Hf). exists (v' :: fl'). by repeat constructor.
Qed.

Lemma set_all_flags_rows pre r fl :
  id r = Z.of_nat (length pre) -> id r < 8253 -> tcpFlags r = None -> flags_rows pre fl ->
  exists fl', set_all_flags fl (id r) = Ok fl' /\ flags_rows (pre ++ [r]) fl'.
Proof using Type.
  intros Hid Hlt Hn [Hl Hrow].
  destruct (set_all_flags_ok fl (id r)) as (fl' & -> & Hf); [lia| |].
  { apply Forall_lookup. intros x v Hx. apply (Hrow _ _ Hx). }
  exists fl'. split; [done|]. split; [by rewrite <- (Forall2_length Hf)|].
  intros x v' Hx. destruct (Forall2_lookup_r _ _ _ _ _ Hf Hx) as (v & Hv & Hs).
  destruct (represents_add pre r (no_field_or tcpFlags (fun f => flags_accept f (Z.of_nat x))) v) as (w & Hw & Hr);
    [done|done| |by apply Hrow|].
  - unfold no_field_or. by rewrite Hn.
  - rewrite Hs in Hw. by injection Hw as ->.
Qed.

(** The inner loop handles the candidate flags one by one. *)
Definition rows_upto (pre : list ChainRule) (r : ChainRule) (done : list Z) (fl : list (list Z)) : Prop :=
  length fl = 256%nat /\
  forall x v, fl !! x = Some v ->
    represents (if decide (Z.of_nat x ∈ done) then pre ++ [r] else pre)
      (no_field_or tcpFlags (fun f => flags_accept f (Z.of_nat x))) v.

Lemma candidate_loop pre r fl f :
  id r = Z.of_nat (length pre) -> id r < 8253 -> tcpFlags r = Some f -> flags_rows pre fl ->
  exists fl', for_each_res possibleFlagsCombinations (fun flags candidateFlag =>
      if flags_match candidateFlag (flags_required f) f.2
      then set_flag_entry flags candidateFlag (id r) else Ok flags) fl = Ok fl' /\
    flags_rows (pre ++ [r]) fl'.
Proof using Hwf.
  intros Hid Hlt Hf Hrow.
  destruct (for_each_res_inv possibleFlagsCombinations (fun flags candidateFlag =>
    if flags_match candidateFlag (flags_required f) f.2
    then set_flag_entry flags candidateFlag (id r) else Ok flags) (rows_upto pre r) fl) as (fl' & -> & Hl & Hr).
  - destruct Hrow as [Hl Hrow]. split; [done|]. intros x v Hx. rewrite decide_False by set_solver. auto.
  - intros pc c post fl1 E [Hl Hr].
    assert (c ∈ possibleFlagsCombinations) as Hc by (rewrite E; set_solver).
    apply elem_of_seqZ in Hc.
    assert (c ∉ pc) as Hfresh.
    { assert (NoDup (pc ++ c :: post)) as Hnd by (rewrite <- E; apply NoDup_seqZ).
      apply list.NoDup_app in Hnd as (_ & Hnd & _). intros Hin. apply (Hnd c Hin). by left. }
    destruct (lookup_lt_is_Some_2 fl1 (Z.to_nat c)) as [v Hv]; [lia|].
    pose proof (Hr _ _ Hv) as Hrv. rewrite Z2Nat.id in Hrv by lia. rewrite decide_False in Hrv by done.
    assert (forall fl2 w, represents (pre ++ [r]) (no_field_or tcpFlags (fun f => flags_accept f c)) w ->
      fl2 = <[Z.to_nat c := w]> fl1 -> rows_upto pre r (pc ++ [c]) fl2) as Hup.
    { intros fl2 w Hw ->. split; [by rewrite length_insert|]. intros x u Hu.
      destruct (decide (x = Z.to_nat c)) as [->|Hn].
      - rewrite list_lookup_insert_eq in Hu by lia. injection Hu as <-.
        rewrite Z2Nat.id by lia. rewrite decide_True by set_solver. done.
      - rewrite list_lookup_insert_ne in Hu by done. specialize (Hr _ _ Hu).
        assert (Z.of_nat x ∈ pc ++ [c] <-> Z.of_nat x ∈ pc) as Hiff.
        { rewrite elem_of_app, list_elem_of_singleton. intuition lia. }
        by rewrite (decide_ext _ _ _ _ Hiff). }
    destruct (flags_match c (flags_required f) f.2) eqn:Em.
    + unfold set_flag_entry. rewrite Hv.
      destruct (represents_add pre r (no_field_or tcpFlags (fun f => flags_accept f c)) v) as (w & -> & Hw);
        [done|done| |done|].
      { unfold no_field_or. by rewrite Hf. }
      eexists. split; [done|]. by eapply Hup.
    + eexists. split; [done|]. eapply (Hup _ v); [|by rewrite list_insert_id].
      apply represents_skip; [|done]. unfold no_field_or. by rewrite Hf.
  - exists fl'. split; [done|]. split; [done|]. intros x v Hx. specialize (Hr _ _ Hx).
    rewrite decide_True in Hr; [done|]. apply elem_of_seqZ. apply lookup_lt_Some in Hx. lia.
Qed.

Lemma flags_present_loop :
  for_each_res rules (fun (found : bool) rule =>
    if found then Ok true else o <~ try_runtime (getTcpflags rule) ;; Ok (bool_decide (is_Some o))) false
  = Ok (existsb (fun r => bool_decide (is_Some (tcpFlags r))) rules).
Proof using Type.
  assert (forall l b, for_each_res l (fun (found : bool) rule =>
    if found then Ok true else o <~ try_runtime (getTcpflags rule) ;; Ok (bool_decide (is_Some o))) b
    = Ok (b || existsb (fun r => bool_decide (is_Some (tcpFlags r))) l)) as Hg; [|apply Hg].
  induction l as [|r l IH]; intros b; simpl; [by rewrite orb_false_r|].
  destruct b; simpl; [by rewrite IH|].
  unfold getTcpflags. destruct (tcpFlags r); simpl; by rewrite IH.
Qed.

Definition flags_table (fl : list (list Z)) : Prop :=
  omap tcpFlags rules = [] /\ fl = [] \/ omap tcpFlags rules ≠ [] /\ flags_rows rules fl.

Lemma flags_map_spec : exists fl, flagsFromRulesToMap rules = Ok (fl, false) /\ flags_table fl.
Proof using Hwf.
  unfold flagsFromRulesToMap. rewrite flags_present_loop. cbn [res_bind].
  pose proof (existsb_omap tcpFlags (fun r => bool_decide (is_Some (tcpFlags r))) rules ltac:(done)) as Hex.
  destruct (existsb _ rules); cbn [negb].
  - match goal with |- context [for_each_res rules ?b ?i] =>
      destruct (for_each_res_inv rules b flags_rows i) as (fl & -> & Hfl) end.
    + split; [apply length_replicate|]. intros x v [-> _]%lookup_replicate. apply represents_nil.
    + intros pre r post fl E Hrow. unfold getId.
      assert (r ∈ rules) as Hr by (rewrite E; set_solver).
      pose proof (wfr_ids rules Hwf) as Hids. rewrite E in Hids. apply ids_ok_app in Hids as [Hid _].
      assert (id r < 8253).
      { pose proof (wfr_len rules Hwf) as Hlen. rewrite E, length_app in Hlen. simpl in Hlen. lia. }
      rewrite getTcpflags_masks by (by apply Hwf).
      destruct (tcpFlags r) as [[s n]|] eqn:Ef; simpl.
      * apply (candidate_loop pre r fl (s, n)); done.
      * by apply set_all_flags_rows.
    + exists fl. split; [done|]. right. split; [by apply Hex|done].
  - exists []. split; [done|]. left. split; [|done].
    destruct (omap tcpFlags rules) eqn:E; [done|]. exfalso. assert (false = true); [by apply Hex|done].
Qed.
End tables.
