(* ===== verification/FwIpFacts.v ===== *)
(** pcn-firewall, compiling a rule set: the address tables, and the longest
    prefix match on them.  The masks of [ipFromRulesToMap] are applied to
    addresses in network byte order, so they select leading bits only when the
    prefix is a whole number of octets; for such rules the entry that the trie
    returns holds exactly the rules whose prefix contains the packet's address. *)
From Stdlib Require Import ZArith Lia.
From stdpp Require Import base sets list strings numbers.
From S2P Require Import Prelude.
From S2P Require Import Bpf.
From S2P Require Import NetUtils.
From S2P Require Import FwRule.
From S2P Require Import FwFlags.
From S2P Require Import FwRuleFacts.
From S2P Require Import FwBits.
From S2P Require Import FwMaps.
From S2P Require Import FwMapsFacts.
#[local] Open Scope Z_scope.
#[local] Open Scope cpp_scope.

Definition addr_of (type : Z) (r : ChainRule) : option IpAddr :=
  if type =? SOURCE_TYPE then ipSrc r else ipDst r.
Definition prefix_of (type : Z) (r : ChainRule) : option (Z * Z) :=
  (fun a => (ip a, netmask a)) <$> addr_of type r.

(** The test of the loops: the rule's prefix contains the entry. *)
Definition covers (type : Z) (a : Z * Z) (r : ChainRule) : bool :=
  no_field_or (prefix_of type)
    (fun p => (Z.land a.1 (ip_mask p.2) =? Z.land p.1 (ip_mask p.2)) && (p.2 <=? a.2)) r.

Definition ip_key (a : IpAddr) : Z * Z := (ip a, netmask a).

(** * Masks of whole octets *)
Definition octets (n : Z) : bool := bool_decide (n ∈ [0; 8; 16; 24; 32]).

Lemma be32_bytes x :
  0 <= x < 2 ^ 32 ->
  exists x0 x1 x2 x3, 0 <= x0 < 256 /\ 0 <= x1 < 256 /\ 0 <= x2 < 256 /\ 0 <= x3 < 256 /\
    x = x0 + x1 * 2 ^ 8 + x2 * 2 ^ 16 + x3 * 2 ^ 24 /\
    be32 x = x0 * 2 ^ 24 + x1 * 2 ^ 16 + x2 * 2 ^ 8 + x3.
Proof.
  intros Hx. exists (x mod 256), ((x / 2 ^ 8) mod 256), ((x / 2 ^ 16) mod 256), ((x / 2 ^ 24) mod 256).
  repeat (split; [apply Z.mod_pos_bound; lia|]). split; [|done]. div_mod.
Qed.

(** Low-order octets of the one are high-order octets of the other. *)
Lemma octets_mod_div n x :
  octets n = true -> 0 <= x < 2 ^ 32 ->
  exists x0 x1 x2 x3, 0 <= x0 < 256 /\ 0 <= x1 < 256 /\ 0 <= x2 < 256 /\ 0 <= x3 < 256 /\
    let on k v := if k <? n then v else 0 in
    x mod 2 ^ n = on 0 x0 + on 8 x1 * 2 ^ 8 + on 16 x2 * 2 ^ 16 + on 24 x3 * 2 ^ 24 /\
    be32 x / 2 ^ (32 - n) * 2 ^ (32 - n) = on 0 x0 * 2 ^ 24 + on 8 x1 * 2 ^ 16 + on 16 x2 * 2 ^ 8 + on 24 x3.
Proof.
  intros Hn Hx. destruct (be32_bytes x Hx) as (x0 & x1 & x2 & x3 & ? & ? & ? & ? & -> & ->).
  exists x0, x1, x2, x3. repeat (split; [done|]). cbn zeta.
  unfold octets in Hn. rewrite bool_decide_eq_true, !elem_of_cons, elem_of_nil in Hn.
  assert (forall a b q r, 0 <= r < b -> a = b * q + r -> a mod b = r /\ a / b = q) as Hu.
  { intros a b q r Hr E. split; symmetry; [apply (Z.mod_unique a b q r)|apply (Z.div_unique a b q r)]; auto. }
  destruct Hn as [->|[->|[->|[->|[->|[]]]]]]; cbn [Z.ltb Z.compare Pos.compare Pos.compare_cont];
    [change (2 ^ 0) with 1; change (2 ^ (32 - 0)) with (2 ^ 32)
    |change (2 ^ (32 - 8)) with (2 ^ 24)
    |change (2 ^ (32 - 16)) with (2 ^ 16)
    |change (2 ^ (32 - 24)) with (2 ^ 8)
    |change (2 ^ (32 - 32)) with 1]; split.
  - apply (Hu _ _ (x0 + x1 * 2 ^ 8 + x2 * 2 ^ 16 + x3 * 2 ^ 24)); lia.
  - rewrite (proj2 (Hu (x0 * 2 ^ 24 + x1 * 2 ^ 16 + x2 * 2 ^ 8 + x3) (2 ^ 32) 0 (x0 * 2 ^ 24 + x1 * 2 ^ 16 + x2 * 2 ^ 8 + x3) ltac:(lia) ltac:(lia))). lia.
  - apply (Hu _ _ (x1 + x2 * 2 ^ 8 + x3 * 2 ^ 16)); lia.
  - rewrite (proj2 (Hu (x0 * 2 ^ 24 + x1 * 2 ^ 16 + x2 * 2 ^ 8 + x3) (2 ^ 24) x0 (x1 * 2 ^ 16 + x2 * 2 ^ 8 + x3) ltac:(lia) ltac:(lia))). lia.
  - apply (Hu _ _ (x2 + x3 * 2 ^ 8)); lia.
  - rewrite (proj2 (Hu (x0 * 2 ^ 24 + x1 * 2 ^ 16 + x2 * 2 ^ 8 + x3) (2 ^ 16) (x0 * 2 ^ 8 + x1) (x2 * 2 ^ 8 + x3) ltac:(lia) ltac:(lia))). lia.
  - apply (Hu _ _ x3); lia.
  - rewrite (proj2 (Hu (x0 * 2 ^ 24 + x1 * 2 ^ 16 + x2 * 2 ^ 8 + x3) (2 ^ 8) (x0 * 2 ^ 16 + x1 * 2 ^ 8 + x2) x3 ltac:(lia) ltac:(lia))). lia.
  - apply (Hu _ _ 0); lia.
  - rewrite (proj2 (Hu (x0 * 2 ^ 24 + x1 * 2 ^ 16 + x2 * 2 ^ 8 + x3) 1 (x0 * 2 ^ 24 + x1 * 2 ^ 16 + x2 * 2 ^ 8 + x3) 0 ltac:(lia) ltac:(lia))). lia.
Qed.

Lemma ip_mask_match n a b :
  octets n = true -> 0 <= a < 2 ^ 32 -> 0 <= b < 2 ^ 32 ->
  (Z.land a (ip_mask n) =? Z.land b (ip_mask n)) = prefix_match n a b.
Proof.
  intros Hn Ha Hb. unfold prefix_match.
  assert (0 <= n <= 32 /\ forall x, Z.land x (ip_mask n) = x mod 2 ^ n) as [Hr Hm].
  { pose proof Hn as Ho. unfold octets in Ho. rewrite bool_decide_eq_true, !elem_of_cons, elem_of_nil in Ho.
    split; [lia|]. intros x. rewrite <- land_ones_mod by lia. f_equal. naive_solver. }
  rewrite !Hm.
  destruct (octets_mod_div n a Hn Ha) as (a0 & a1 & a2 & a3 & ? & ? & ? & ? & Ea & Ea').
  destruct (octets_mod_div n b Hn Hb) as (b0 & b1 & b2 & b3 & ? & ? & ? & ? & Eb & Eb').
  assert (0 < 2 ^ (32 - n)) by (apply Z.pow_pos_nonneg; lia).
  apply Bool.eq_iff_eq_true. rewrite !Z.eqb_eq, Ea, Eb.
  transitivity (be32 a / 2 ^ (32 - n) * 2 ^ (32 - n) = be32 b / 2 ^ (32 - n) * 2 ^ (32 - n)); [|nia].
  rewrite Ea', Eb'. repeat case_match; lia.
Qed.

Section tables.
Context `{Inet} (type : Z) (rules : list ChainRule) (Hwf : wf_rules rules).

Lemma rule_ip_spec cur r :
  wf_rule r ->
  try_runtime (rule_ip type cur r) =
  Ok ((fun a => {| ip := ip a; netmask := netmask a; ruleId := ruleId cur |}) <$> addr_of type r).
Proof using Type.
  intros Hr. unfold rule_ip, addr_of.
  destruct (type =? SOURCE_TYPE); [rewrite getSrc_fromString by done; by destruct (ipSrc r)|].
  rewrite getDst_fromString by done. by destruct (ipDst r).
Qed.

Lemma fromString_any cur :
  IpAddr_fromString cur "0.0.0.0/0" = Ok {| ip := 0; netmask := 0; ruleId := ruleId cur |}.
Proof using Type. reflexivity. Qed.

Lemma ip_fill_spec address :
  0 <= netmask address ->
  exists v, ip_fill type rules address new_bitvector = Ok v /\ represents rules (covers type (ip_key address)) v.
Proof using Hwf.
  intros Hnm. unfold ip_fill.
  match goal with |- context [for_each_res rules ?b ?i] =>
    destruct (for_each_res_inv rules b (fun pre st => represents pre (covers type (ip_key address)) st.2) i)
      as (st & -> & Hst) end; [apply represents_nil| |by exists st.2].
  intros pre r post [cur v] E Hv. simpl in Hv.
  assert (r ∈ rules) as Hr by (rewrite E; set_solver).
  pose proof (wfr_ids rules Hwf) as Hids. rewrite E in Hids. apply ids_ok_app in Hids as [Hid _].
  assert (id r < 8253).
  { pose proof (wfr_len rules Hwf) as Hlen. rewrite E, length_app in Hlen. simpl in Hlen. lia. }
  cbn beta iota. rewrite rule_ip_spec by (by apply Hwf). cbn [res_bind].
  match goal with |- context [res_bind ?m _] =>
    assert (m = Ok {| ip := (default (0, 0) (prefix_of type r)).1; netmask := (default (0, 0) (prefix_of type r)).2;
                      ruleId := ruleId cur |}) as -> end.
  { unfold prefix_of. destruct (addr_of type r); [done|]. by apply fromString_any. }
  cbn [res_bind ip netmask]. set (p := default (0, 0) (prefix_of type r)).
  assert ((Z.land (ip address) (ip_mask p.2) =? Z.land p.1 (ip_mask p.2)) && (p.2 <=? netmask address)
    = covers type (ip_key address) r) as ->.
  { unfold covers, no_field_or, p, ip_key. destruct (prefix_of type r) as [q|]; [done|]. cbn [default fst snd].
    change (ip_mask 0) with 0. rewrite !Z.land_0_r. simpl. lia. }
  unfold getId. destruct (covers _ _ r) eqn:Ec.
  - destruct (represents_add pre r _ v Hid ltac:(lia) Ec Hv) as (v' & -> & Hv'). by eexists.
  - eexists. split; [done|]. by apply represents_skip.
Qed.

Definition collected_ips (pre : list ChainRule) (st : IpAddr * ip_map * list Z) : Prop :=
  let '(_, ips, dont_care_rules) := st in
  NoDup (StdMap.keys ip_key ips) /\
  (forall x, x ∈ StdMap.keys ip_key ips <-> x ∈ omap (prefix_of type) pre) /\
  (forall a v, (a, v) ∈ ips -> v = new_bitvector) /\
  (dont_care_rules = [] <-> forall r, r ∈ pre -> prefix_of type r ≠ None).

Lemma keys_insert_elem a v (m : ip_map) x :
  x ∈ StdMap.keys ip_key (StdMap.insert IpAddr_ltb a v m) <-> x = ip_key a \/ x ∈ StdMap.keys ip_key m.
Proof using Type.
  unfold StdMap.insert. destruct (StdMap.find IpAddr_ltb a m) as [w|] eqn:E.
  - split; [auto|]. intros [->|]; [|done].
    destruct (decide (ip_key a ∈ StdMap.keys ip_key m)) as [|Hn]; [done|].
    apply (StdMap.find_None_keys IpAddr_ltb ip_key) in Hn. congruence.
  - by rewrite StdMap.keys_place, elem_of_cons.
Qed.

Lemma ip_collect_spec : exists st, ip_collect type [] rules = Ok st /\ collected_ips rules st.
Proof using Hwf.
  apply (for_each_res_inv rules _ collected_ips).
  { split; [constructor|]. split; [done|]. split; [by intros a v ?%elem_of_nil|]. split; [|done].
    by intros _ r ?%elem_of_nil. }
  intros pre r post [[cur ips] dont] E (Hnd & Hk & Hv & Hd).
  assert (r ∈ rules) as Hr by (rewrite E; set_solver).
  cbn beta iota. rewrite rule_ip_spec by (by apply Hwf). cbn [res_bind].
  pose proof (omap_snoc (prefix_of type) pre r) as Ho.
  destruct (addr_of type r) as [a|] eqn:Ea; cbn [fmap option_fmap option_map].
  - assert (prefix_of type r = Some (ip_key a)) as Hp by (unfold prefix_of; by rewrite Ea).
    rewrite Hp in Ho.
    assert (dont = [] <-> (forall x, x ∈ pre ++ [r] -> prefix_of type x ≠ None)) as Hd'.
    { rewrite Hd. setoid_rewrite elem_of_app. setoid_rewrite list_elem_of_singleton. split; naive_solver. }
    set (a' := {| ip := ip a; netmask := netmask a; ruleId := ruleId cur |}).
    destruct (StdMap.find IpAddr_ltb a' ips) as [w|] eqn:Ef.
    + eexists. split; [done|]. split; [done|]. split; [|done]. intros x. rewrite Ho, elem_of_app, Hk.
      rewrite list_elem_of_singleton. split; [auto|]. intros [?| ->]; [done|]. apply Hk.
      destruct (decide (ip_key a ∈ StdMap.keys ip_key ips)) as [|Hn]; [done|].
      apply (StdMap.find_None_keys IpAddr_ltb ip_key a') in Hn. congruence.
    + eexists. split; [done|]. split; [by apply (StdMap.NoDup_keys_insert IpAddr_ltb ip_key)|].
      split; [|split; [|done]].
      * intros x. rewrite Ho, elem_of_app, keys_insert_elem, Hk, list_elem_of_singleton. tauto.
      * intros b v Hb%list_elem_of_In%StdMap.In_insert.
        destruct Hb as [[= -> ->]|Hb]; [done|]. eapply Hv. by apply list_elem_of_In.
  - assert (prefix_of type r = None) as Hp by (unfold prefix_of; by rewrite Ea).
    rewrite Hp, app_nil_r in Ho.
    eexists. split; [done|]. split; [done|]. split; [by rewrite Ho|]. split; [done|]. split.
    + intros Hn. by destruct dont.
    + intros Hall. exfalso. apply (Hall r); [set_solver|done].
Qed.

Definition has_any_address : Prop :=
  omap (prefix_of type) rules ≠ [] /\ exists r, r ∈ rules /\ prefix_of type r = None.

Record ip_table (m : ip_map) (brk : bool) : Prop := {
  it_nodup : NoDup (StdMap.keys ip_key m);
  it_empty : m = [] <-> omap (prefix_of type) rules = [];
  it_brk : brk = false <-> has_any_address;
  it_keys x : x ∈ StdMap.keys ip_key m <-> (x ∈ omap (prefix_of type) rules) \/ (x = (0, 0) /\ has_any_address);
  it_rows a v : (a, v) ∈ m -> represents rules (covers type (ip_key a)) v;
}.

Lemma prefix_nonneg x : x ∈ omap (prefix_of type) rules -> 0 <= x.2 <= 32.
Proof using Hwf.
  intros (r & Hr & Hp)%list_elem_of_omap. pose proof (wfr_rule rules Hwf r Hr) as Hw.
  unfold prefix_of, addr_of in Hp. destruct (type =? SOURCE_TYPE).
  - destruct (ipSrc r) as [a|] eqn:E; [|done]. injection Hp as <-. apply (wf_src r Hw a E).
  - destruct (ipDst r) as [a|] eqn:E; [|done]. injection Hp as <-. apply (wf_dst r Hw a E).
Qed.

Lemma same_elements_nil {A} (l l' : list A) : (forall x, x ∈ l <-> x ∈ l') -> l = [] <-> l' = [].
Proof using Type.
  intros Hl. split; intros ->; [destruct l' as [|x l']|destruct l as [|x l]]; try done; exfalso;
    apply (not_elem_of_nil x), Hl; by left.
Qed.
Lemma keys_nil (m : list (IpAddr * list Z)) : StdMap.keys ip_key m = [] <-> m = [].
Proof using Type. by destruct m. Qed.

Lemma ip_map_spec : exists m brk, ipFromRulesToMap type rules = Ok (m, brk) /\ ip_table m brk.
Proof using Hwf.
  unfold ipFromRulesToMap. destruct ip_collect_spec as ([[cur ips] dont] & -> & Hnd & Hk & Hv & Hd).
  cbn [res_bind].
  destruct (StdMap.for_each_entry_ok (ip_fill type rules) ips) as (ips' & -> & Hf).
  { intros a v Ha. rewrite (Hv _ _ Ha).
    destruct (ip_fill_spec a) as (v' & ? & _); [|eauto].
    apply (prefix_nonneg (ip_key a)), Hk, StdMap.elem_of_keys. eauto. }
  assert (StdMap.keys ip_key ips' = StdMap.keys ip_key ips) as Ek
    by (by apply (StdMap.keys_Forall2 ip_key (fun k v v' => ip_fill type rules k v = Ok v'))).
  assert (forall a v, (a, v) ∈ ips' -> represents rules (covers type (ip_key a)) v) as Hrows.
  { intros a v [i Hi]%list_elem_of_lookup.
    destruct (Forall2_lookup_r _ _ _ _ _ Hf Hi) as ([a0 v0] & Hi0 & Ha & Hfill). simpl in *. subst a0.
    apply list_elem_of_lookup_2 in Hi0. rewrite (Hv _ _ Hi0) in Hfill.
    destruct (ip_fill_spec a) as (v' & E & Hr); [|congruence].
    apply (prefix_nonneg (ip_key a)), Hk, StdMap.elem_of_keys. eauto. }
  rewrite <- Ek in Hk, Hnd. clear Hf Hv Ek.
  assert (ips' = [] <-> omap (prefix_of type) rules = []) as Hempty.
  { rewrite <- keys_nil. by apply same_elements_nil. }
  assert (dont ≠ [] <-> exists r, r ∈ rules /\ prefix_of type r = None) as Hd'.
  { rewrite Hd. split.
    - intros Hn. destruct (decide (Exists (fun r => prefix_of type r = None) rules)) as [He|He].
      + apply list.Exists_exists in He as (r & ? & ?). eauto.
      + exfalso. apply Hn. intros r Hr E. apply He, list.Exists_exists. eauto.
    - intros (r & Hr & E) Hn. by apply (Hn r). }
  assert (forall m, m = ips' -> ~ has_any_address -> ip_table m true) as Hplain.
  { intros m -> Hn. split; [done..| |done]. intros x. rewrite Hk. tauto. }
  destruct ips' as [|e tl] eqn:Eips.
  { exists [], true. split; [done|]. apply Hplain; [done|]. intros [Ho _]. tauto. }
  destruct dont as [|d dl] eqn:Ed.
  { eexists _, true. split; [done|]. apply Hplain; [done|]. intros [_ Ho]. tauto. }
  rewrite <- Eips in *. clear Hplain.
  destruct (ip_fill_spec wildcard_ip ltac:(simpl; lia)) as (v & -> & Hv). cbn [res_bind].
  assert has_any_address as Hany.
  { split; [intros Ho; apply Hempty in Ho; congruence|by apply Hd']. }
  exists (StdMap.insert IpAddr_ltb wildcard_ip v ips'), false. split; [by rewrite Eips|]. split.
  - by apply (StdMap.NoDup_keys_insert IpAddr_ltb ip_key).
  - rewrite <- Hempty. split; [|by rewrite Eips]. intros E%keys_nil. exfalso. apply (not_elem_of_nil (ip_key wildcard_ip)). rewrite <- E. apply keys_insert_elem. by left.
  - done.
  - intros x. rewrite keys_insert_elem, Hk. unfold ip_key; simpl. tauto.
  - intros a w Ha%list_elem_of_In%StdMap.In_insert. destruct Ha as [[= -> ->]|Ha]; [done|].
    apply Hrows. by apply list_elem_of_In.
Qed.
End tables.

(** * Longest prefix match on the compiled table *)
Definition lpm_entries (m : ip_map) : list (lpm_entry (list Z)) :=
  (fun p => LpmEntry (netmask p.1) (ip p.1) p.2) <$> m.

(** The rule's address condition, on a packet's address. *)
Definition address_accepts (type p : Z) : ChainRule -> bool :=
  no_field_or (prefix_of type) (fun q => prefix_match q.2 q.1 p).

Section lpm.
Context `{LpmTrie (list Z) T} (type : Z) (rules : list ChainRule) (Hwf : wf_rules rules).
Context (m : ip_map) (brk : bool) (Hm : ip_table type rules m brk).
Context (Hoct : forall r q, r ∈ rules -> prefix_of type r = Some q -> octets q.2 = true).
Context (t t' : T) (Hnew : l_entries t = []) (Hroom : Z.of_nat (length m) <= l_free t).
Context (Ht : l_updates t (lpm_entries m) = Ok t').

Lemma prefix_wf r q : r ∈ rules -> prefix_of type r = Some q -> 0 <= q.1 < 2 ^ 32 /\ 0 <= q.2 <= 32.
Proof using Hwf.
  intros Hr Hp. pose proof (wfr_rule rules Hwf r Hr) as Hw. unfold prefix_of, addr_of in Hp.
  destruct (type =? SOURCE_TYPE).
  - destruct (ipSrc r) as [a|] eqn:E; [|done]. injection Hp as <-. destruct (wf_src r Hw a E) as (? & ? & _). done.
  - destruct (ipDst r) as [a|] eqn:E; [|done]. injection Hp as <-. destruct (wf_dst r Hw a E) as (? & ? & _). done.
Qed.

(** Every entry of the table is the prefix of a rule, or the wildcard. *)
Lemma key_wf x : x ∈ StdMap.keys ip_key m -> 0 <= x.1 < 2 ^ 32 /\ 0 <= x.2 <= 32.
Proof using Hwf Hm.
  intros [Hx|[-> _]]%(it_keys _ _ _ _ Hm); [|simpl; lia].
  apply list_elem_of_omap in Hx as (r & Hr & Hp). by eapply prefix_wf.
Qed.

Lemma entries_from e :
  e ∈ l_entries t' -> exists x, x ∈ StdMap.keys ip_key m /\ x = (le_ip e, le_len e) /\
    represents rules (covers type x) (le_val e).
Proof using Hm Hnew Hroom Ht.
  intros He. destruct (l_updates_ok (lpm_entries m) t) as (t1 & Ht1 & Hin & _).
  { unfold lpm_entries. by rewrite length_fmap. }
  rewrite Ht in Ht1. injection Ht1 as <-.
  destruct (Hin e He) as [Hl|Hl]; [|rewrite Hnew in Hl; by apply elem_of_nil in Hl].
  apply list_elem_of_fmap in Hl as ([a v] & -> & Hav). simpl.
  exists (ip_key a). split; [apply StdMap.elem_of_keys; eauto|]. split; [done|].
  by apply (it_rows _ _ _ _ Hm).
Qed.

Lemma entries_for x :
  x ∈ StdMap.keys ip_key m ->
  exists e, e ∈ l_entries t' /\ le_len e = x.2 /\ prefix_match x.2 (le_ip e) x.1 = true.
Proof using Hm Hnew Hroom Ht.
  intros (a & v & Hav & <-)%StdMap.elem_of_keys.
  destruct (l_updates_ok (lpm_entries m) t) as (t1 & Ht1 & _ & Hex).
  { unfold lpm_entries. by rewrite length_fmap. }
  rewrite Ht in Ht1. injection Ht1 as <-.
  apply (Hex (LpmEntry (netmask a) (ip a) v)). left. apply list_elem_of_fmap. by exists (a, v).
Qed.

(** The longest matching entry holds the rules that accept the address. *)
Lemma covers_longest p e r x :
  0 <= p < 2 ^ 32 -> e ∈ l_entries t' -> x ∈ StdMap.keys ip_key m -> x = (le_ip e, le_len e) ->
  prefix_match (le_len e) (le_ip e) p = true ->
  (forall e', e' ∈ l_entries t' -> prefix_match (le_len e') (le_ip e') p = true -> le_len e' <= le_len e) ->
  r ∈ rules -> covers type x r = address_accepts type p r.
Proof using Hwf Hm Hoct Hnew Hroom Ht.
  intros Hp He Hx Ex Hmatch Hmax Hr. unfold covers, address_accepts, no_field_or.
  destruct (prefix_of type r) as [q|] eqn:Eq; [|done].
  destruct (prefix_wf r q Hr Eq) as [Hq1 Hq2]. destruct (key_wf x Hx) as [Hx1 Hx2].
  rewrite ip_mask_match by (done || by eapply Hoct). subst x. cbn [fst snd] in *.
  apply Bool.eq_iff_eq_true. rewrite andb_true_iff, Z.leb_le. split.
  - intros [Hc Hle]. rewrite prefix_match_sym in Hc.
    eapply prefix_match_trans; [done|]. apply (prefix_match_shorter _ (le_len e)); [lia|lia|done].
  - intros Hq.
    destruct (entries_for q) as (e' & He' & Hl' & Hm').
    { apply (it_keys _ _ _ _ Hm). left. apply list_elem_of_omap. eauto. }
    assert (le_len e' <= le_len e) as Hle.
    { apply Hmax; [done|]. rewrite Hl'. by eapply prefix_match_trans. }
    split; [|lia]. rewrite prefix_match_sym. eapply prefix_match_trans; [done|].
    rewrite prefix_match_sym. apply (prefix_match_shorter _ (le_len e)); [lia|lia|done].
Qed.

Lemma lpm_lookup_spec p :
  0 <= p < 2 ^ 32 -> omap (prefix_of type) rules ≠ [] ->
  match l_lookup t' p with
  | Some v => represents rules (address_accepts type p) v
  | None => forall r, r ∈ rules -> address_accepts type p r = false
  end.
Proof using Hwf Hm Hoct Hnew Hroom Ht.
  intros Hp Hne. destruct (l_lookup t' p) as [v|] eqn:El.
  - apply l_lookup_Some in El as (e & He & <- & Hmatch & Hmax).
    destruct (entries_from e He) as (x & Hx & Ex & Hv).
    revert Hv. apply represents_ext. intros r Hr. by eapply covers_longest.
  - intros r Hr. pose proof (l_lookup_None t' p El) as Hnone.
    unfold address_accepts, no_field_or. destruct (prefix_of type r) as [q|] eqn:Eq.
    + destruct (prefix_match q.2 q.1 p) eqn:Epm; [|done].
      destruct (entries_for q) as (e' & He' & Hl' & Hm').
      { apply (it_keys _ _ _ _ Hm). left. apply list_elem_of_omap. eauto. }
      rewrite <- (Hnone e' He'), Hl'. symmetry. by eapply prefix_match_trans.
    + destruct (entries_for (0, 0)) as (e' & He' & Hl' & _).
      { apply (it_keys _ _ _ _ Hm). right. split; [done|]. split; [done|eauto]. }
      simpl in Hl'. rewrite <- (Hnone e' He'), Hl'. symmetry.
      apply (prefix_match_shorter 0 0); [lia..|]. unfold prefix_match.
      assert (forall x, be32 x / 2 ^ (32 - 0) = 0) as Hz; [|by rewrite !Hz].
      intros x. apply Z.div_small. unfold be32. div_mod.
Qed.
End lpm.
