(* ===== verification/FwConntrack.v ===== *)
(** pcn-firewall, connection tracking: datapaths/Firewall_ConntrackLabel_dp.c
    labels a packet with the status of its connection, and
    datapaths/Firewall_ConntrackTableUpdate_dp.c, run on a packet that is let
    through, moves the connection to its next state. *)
From Stdlib Require Import ZArith Lia.
From stdpp Require Import base gmap sets list strings numbers.
From S2P Require Import Prelude.
From S2P Require Import Bpf.
From S2P Require Import NetUtils.
From S2P Require Import FwRule.
From S2P Require Import Frame.
#[local] Open Scope Z_scope.

(** struct packetHeaders: the per-CPU record the modules share.  Addresses,
    ports and sequence numbers are as they are in the packet, that is, the
    little-endian reading of big-endian fields. *)
Record packetHeaders := {
  p_srcIp : Z; p_dstIp : Z; p_l4proto : Z; p_srcPort : Z; p_dstPort : Z; p_flags : Z;
  p_seqN : Z; p_ackN : Z; p_connStatus : Z; p_forwardingDecision : Z;
}.
Definition FORWARDING_NOT_SET : Z := 0.
Definition FORWARDING_PASS_LABELING : Z := 1.

Definition with_status (s : Z) (p : packetHeaders) : packetHeaders :=
  {| p_srcIp := p_srcIp p; p_dstIp := p_dstIp p; p_l4proto := p_l4proto p; p_srcPort := p_srcPort p;
     p_dstPort := p_dstPort p; p_flags := p_flags p; p_seqN := p_seqN p; p_ackN := p_ackN p;
     p_connStatus := s; p_forwardingDecision := p_forwardingDecision p |}.
Definition with_decision (d : Z) (p : packetHeaders) : packetHeaders :=
  {| p_srcIp := p_srcIp p; p_dstIp := p_dstIp p; p_l4proto := p_l4proto p; p_srcPort := p_srcPort p;
     p_dstPort := p_dstPort p; p_flags := p_flags p; p_seqN := p_seqN p; p_ackN := p_ackN p;
     p_connStatus := p_connStatus p; p_forwardingDecision := d |}.

(** ** Connections *)
Record ct_k := CtK { k_srcIp : Z; k_dstIp : Z; k_l4proto : Z; k_srcPort : Z; k_dstPort : Z }.
Record ct_v := CtV { v_ttl : Z; v_state : Z; v_ipRev : Z; v_portRev : Z; v_sequence : Z }.
#[export] Instance ct_k_eq_dec : EqDecision ct_k.
Proof. solve_decision. Defined.
#[export] Program Instance ct_k_countable : Countable ct_k :=
  inj_countable' (fun k => (k_srcIp k, k_dstIp k, k_l4proto k, k_srcPort k, k_dstPort k))
    (fun x => let '(a, b, c, d, e) := x in CtK a b c d e) _.
Next Obligation. by intros []. Qed.

Definition TCPHDR_FIN : Z := 0x01.
Definition TCPHDR_SYN : Z := 0x02.
Definition TCPHDR_RST : Z := 0x04.
Definition TCPHDR_ACK : Z := 0x10.
Definition ICMP_ECHOREPLY : Z := 0.
Definition ICMP_ECHO : Z := 8.
Definition UDP_ESTABLISHED_TIMEOUT : Z := 180000000000.
Definition UDP_NEW_TIMEOUT : Z := 30000000000.
Definition ICMP_TIMEOUT : Z := 30000000000.
Definition TCP_ESTABLISHED : Z := 432000000000000.
Definition TCP_SYN_SENT : Z := 120000000000.
Definition TCP_SYN_RECV : Z := 60000000000.
Definition TCP_LAST_ACK : Z := 30000000000.
Definition TCP_FIN_WAIT : Z := 120000000000.
Definition TCP_TIME_WAIT : Z := 120000000000.
Definition HEX_BE_ONE : Z := 0x1000000.

(** Both directions of a connection have the same key; the two reversal bits
    tell them apart. *)
Definition ct_key (pkt : packetHeaders) : ct_k * Z * Z :=
  let '(srcIp, dstIp, ipRev) :=
    if p_srcIp pkt <=? p_dstIp pkt then (p_srcIp pkt, p_dstIp pkt, 0) else (p_dstIp pkt, p_srcIp pkt, 1) in
  let '(srcPort, dstPort, portRev) :=
    if p_srcPort pkt <? p_dstPort pkt then (p_srcPort pkt, p_dstPort pkt, 0)
    else if p_dstPort pkt <? p_srcPort pkt then (p_dstPort pkt, p_srcPort pkt, 1)
    else (p_srcPort pkt, p_dstPort pkt, ipRev) in
  (CtK srcIp dstIp (p_l4proto pkt) srcPort dstPort, ipRev, portRev).

Inductive direction := Forward | Reverse | Miss.
Definition ct_direction (value : ct_v) (ipRev portRev : Z) : direction :=
  if (v_ipRev value =? ipRev) && (v_portRev value =? portRev) then Forward
  else if negb (v_ipRev value =? ipRev) && negb (v_portRev value =? portRev) then Reverse
  else Miss.

(** [(flags & F) != 0] and [(flags | F) == F] *)
Definition has_flag (flags f : Z) : bool := negb (Z.land flags f =? 0).
Definition no_other_flag (flags f : Z) : bool := Z.lor flags f =? f.
Definition only_syn (flags : Z) : bool := has_flag flags TCPHDR_SYN && no_other_flag flags TCPHDR_SYN.
Definition only_ack (flags : Z) : bool := has_flag flags TCPHDR_ACK && no_other_flag flags TCPHDR_ACK.
Definition only_syn_ack (flags : Z) : bool :=
  has_flag flags TCPHDR_ACK && has_flag flags TCPHDR_SYN && no_other_flag flags (Z.lor TCPHDR_SYN TCPHDR_ACK).

(** * The label *)
Definition open_state (s : Z) : bool :=
  (s =? CT.ESTABLISHED) || (s =? CT.FIN_WAIT_1) || (s =? CT.FIN_WAIT_2) || (s =? CT.LAST_ACK).

Definition label_tcp_forward (value : ct_v) (pkt : packetHeaders) : Z :=
  if has_flag (p_flags pkt) TCPHDR_RST then CT.ESTABLISHED
  else if v_state value =? CT.SYN_SENT then
    if only_syn (p_flags pkt) then CT.NEW else CT.INVALID
  else if v_state value =? CT.SYN_RECV then
    if only_ack (p_flags pkt) && (p_ackN pkt =? v_sequence value) then CT.ESTABLISHED else CT.INVALID
  else if open_state (v_state value) then CT.ESTABLISHED
  else if (v_state value =? CT.TIME_WAIT) && only_syn (p_flags pkt) then CT.NEW
  else CT.INVALID.

Definition label_tcp_reverse (value : ct_v) (pkt : packetHeaders) : Z :=
  if has_flag (p_flags pkt) TCPHDR_RST then CT.ESTABLISHED
  else if v_state value =? CT.SYN_SENT then
    if only_syn_ack (p_flags pkt) && (p_ackN pkt =? v_sequence value) then CT.ESTABLISHED else CT.INVALID
  else if v_state value =? CT.SYN_RECV then
    if only_syn_ack (p_flags pkt) && (p_ackN pkt =? v_sequence value) then CT.ESTABLISHED else CT.INVALID
  else if open_state (v_state value) then CT.ESTABLISHED
  else if (v_state value =? CT.TIME_WAIT) && only_syn (p_flags pkt) then CT.NEW
  else CT.INVALID.

Definition label_tcp_miss (pkt : packetHeaders) : Z := if only_syn (p_flags pkt) then CT.NEW else CT.INVALID.

Section conntrack.
Context `{LruHash ct_k ct_v C}.

Definition label_tcp (connections : C) (pkt : packetHeaders) : Z :=
  let '(key, ipRev, portRev) := ct_key pkt in
  match lru_lookup connections key with
  | Some value =>
      match ct_direction value ipRev portRev with
      | Forward => label_tcp_forward value pkt
      | Reverse => label_tcp_reverse value pkt
      | Miss => label_tcp_miss pkt
      end
  | None => label_tcp_miss pkt
  end.

Definition label_udp (connections : C) (pkt : packetHeaders) : Z :=
  let '(key, ipRev, portRev) := ct_key pkt in
  match lru_lookup connections key with
  | Some value =>
      match ct_direction value ipRev portRev with
      | Forward => if v_state value =? CT.NEW then CT.NEW else CT.ESTABLISHED
      | Reverse => CT.ESTABLISHED
      | Miss => CT.NEW
      end
  | None => CT.NEW
  end.

(** An ICMP error is related to the connection of the packet it quotes.  The
    code swaps the two ports through a pointer into the packet, which leaves
    the quoted destination port overwritten. *)
Definition label_icmp_error (connections : C) (frame : list Z) (type : Z) : option (Z * list Z) :=
  if bool_decide (type ∈ [13; 14; 15; 16; 17; 18]) then Some (CT.INVALID, frame) else
  if beyond frame (34 + 8 + 20) then None else
  let saddr := rd32 frame (34 + 8 + 12) in
  let daddr := rd32 frame (34 + 8 + 16) in
  let '(srcIp, dstIp) := if saddr <=? daddr then (saddr, daddr) else (daddr, saddr) in
  let l4proto := rd8 frame (34 + 8 + 9) in
  if beyond frame (34 + 8 + 20 + 8) then None else
  let srcPort := rd16 frame (34 + 8 + 20) in
  let dstPort := rd16 frame (34 + 8 + 20 + 2) in
  let '(key, frame) :=
    if srcPort <=? dstPort then (CtK srcIp dstIp l4proto srcPort dstPort, frame)
    else (CtK srcIp dstIp l4proto dstPort srcPort, wr16 frame (34 + 8 + 20 + 2) srcPort) in
  match lru_lookup connections key with
  | Some _ => Some (CT.RELATED, frame)
  | None => Some (CT.INVALID, frame)
  end.

Definition label_icmp (connections : C) (frame : list Z) (pkt : packetHeaders) : option (Z * list Z) :=
  if beyond frame (34 + 8) then None else
  let type := rd8 frame 34 in
  if type =? ICMP_ECHO then Some (CT.NEW, frame)
  else if type =? ICMP_ECHOREPLY then
    let '(key, ipRev, portRev) := ct_key pkt in
    match lru_lookup connections key with
    | Some value =>
        if negb (v_ipRev value =? ipRev) && negb (v_portRev value =? portRev)
        then Some (CT.ESTABLISHED, frame)
        else label_icmp_error connections frame type
    | None => Some (CT.INVALID, frame)
    end
  else label_icmp_error connections frame type.

(** The status the packet is labelled with; [None] when it is dropped at once. *)
Definition ct_label (connections : C) (frame : list Z) (pkt : packetHeaders) : option (Z * list Z) :=
  if p_l4proto pkt =? IPPROTO_TCP then Some (label_tcp connections pkt, frame)
  else if p_l4proto pkt =? IPPROTO_UDP then Some (label_udp connections pkt, frame)
  else if p_l4proto pkt =? IPPROTO_ICMP then label_icmp connections frame pkt
  else Some (CT.INVALID, frame).

(** * The table update *)
(** What the TCP branches do to the entry they found: write it back, mark the
    packet invalid, leave both alone, or go to the code for no entry. *)
Inductive tcp_action := Write (v : ct_v) | MarkInvalid | Keep | GotoMiss.

Definition to_state (value : ct_v) (state ttl sequence : Z) : ct_v :=
  {| v_ttl := u64 ttl; v_state := state; v_ipRev := v_ipRev value; v_portRev := v_portRev value;
     v_sequence := sequence |}.

(** From FIN_WAIT_2 on the two directions run the same code. *)
Definition tcp_update_fin_wait_2 (ts : Z) (pkt : packetHeaders) (value : ct_v) : tcp_action :=
  if has_flag (p_flags pkt) TCPHDR_FIN
  then Write (to_state value CT.LAST_ACK (ts + TCP_LAST_ACK) (p_ackN pkt))
  else Write (to_state value CT.FIN_WAIT_2 (ts + TCP_FIN_WAIT) (v_sequence value)).

Definition tcp_update_open (ts : Z) (pkt : packetHeaders) (value : ct_v) : tcp_action :=
  let flags := p_flags pkt in
  if v_state value =? CT.ESTABLISHED then
    if has_flag flags TCPHDR_FIN
    then Write (to_state value CT.FIN_WAIT_1 (ts + TCP_FIN_WAIT) (p_ackN pkt))
    else Write (to_state value CT.ESTABLISHED (ts + TCP_ESTABLISHED) (v_sequence value))
  else if v_state value =? CT.FIN_WAIT_1 then
    if has_flag flags TCPHDR_ACK && (p_seqN pkt =? v_sequence value)
    then tcp_update_fin_wait_2 ts pkt
           (to_state value CT.FIN_WAIT_2 (ts + TCP_FIN_WAIT) (v_sequence value))
    else MarkInvalid
  else if v_state value =? CT.FIN_WAIT_2 then tcp_update_fin_wait_2 ts pkt value
  else if v_state value =? CT.LAST_ACK then
    if has_flag flags TCPHDR_ACK && (p_seqN pkt =? v_sequence value)
    then Write (to_state value CT.TIME_WAIT (ts + TCP_LAST_ACK) (v_sequence value))
    else Write (to_state value CT.LAST_ACK (ts + TCP_LAST_ACK) (v_sequence value))
  else if v_state value =? CT.TIME_WAIT then
    if p_connStatus pkt =? CT.NEW then GotoMiss else Keep
  else Keep.

Definition tcp_update_forward (ts : Z) (pkt : packetHeaders) (value : ct_v) : tcp_action :=
  let flags := p_flags pkt in
  if v_state value =? CT.SYN_SENT then
    if only_syn flags then Write (to_state value CT.SYN_SENT (ts + TCP_SYN_SENT) (v_sequence value))
    else MarkInvalid
  else if v_state value =? CT.SYN_RECV then
    if only_ack flags && (p_ackN pkt =? v_sequence value)
    then Write (to_state value CT.ESTABLISHED (ts + TCP_ESTABLISHED) (v_sequence value))
    else MarkInvalid
  else tcp_update_open ts pkt value.

Definition tcp_update_reverse (ts : Z) (pkt : packetHeaders) (value : ct_v) : tcp_action :=
  let flags := p_flags pkt in
  if v_state value =? CT.SYN_SENT then
    if only_syn_ack flags && (p_ackN pkt =? v_sequence value)
    then Write (to_state value CT.SYN_RECV (ts + TCP_SYN_RECV) (u32 (p_seqN pkt + HEX_BE_ONE)))
    else MarkInvalid
  else if v_state value =? CT.SYN_RECV then
    if only_syn_ack flags && (p_ackN pkt =? v_sequence value)
    then Write (to_state value CT.SYN_RECV (ts + TCP_SYN_RECV) (v_sequence value))
    else MarkInvalid
  else tcp_update_open ts pkt value.

Definition tcp_update_miss (ts : Z) (pkt : packetHeaders) (connections : C) : C :=
  let '(key, ipRev, portRev) := ct_key pkt in
  if only_syn (p_flags pkt) then
    lru_update connections key
      {| v_ttl := u64 (ts + TCP_SYN_SENT); v_state := CT.SYN_SENT; v_ipRev := ipRev; v_portRev := portRev;
         v_sequence := u32 (p_seqN pkt + HEX_BE_ONE) |}
  else connections.

Definition update_tcp (ts : Z) (connections : C) (pkt : packetHeaders) : C * packetHeaders :=
  if has_flag (p_flags pkt) TCPHDR_RST then (connections, pkt) else
  let '(key, ipRev, portRev) := ct_key pkt in
  match lru_lookup connections key with
  | None => (tcp_update_miss ts pkt connections, pkt)
  | Some value =>
      let act := match ct_direction value ipRev portRev with
                 | Forward => tcp_update_forward ts pkt value
                 | Reverse => tcp_update_reverse ts pkt value
                 | Miss => GotoMiss
                 end in
      match act with
      | Write v => (lru_write connections key v, pkt)
      | MarkInvalid => (connections, with_status CT.INVALID pkt)
      | Keep => (connections, pkt)
      | GotoMiss => (tcp_update_miss ts pkt connections, pkt)
      end
  end.

Definition update_udp (ts : Z) (connections : C) (pkt : packetHeaders) : C * packetHeaders :=
  let '(key, ipRev, portRev) := ct_key pkt in
  let miss := lru_insert connections key
    {| v_ttl := u64 (ts + UDP_NEW_TIMEOUT); v_state := CT.NEW; v_ipRev := ipRev; v_portRev := portRev;
       v_sequence := 0 |} in
  match lru_lookup connections key with
  | None => (miss, pkt)
  | Some value =>
      match ct_direction value ipRev portRev with
      | Forward =>
          let timeout := if v_state value =? CT.NEW then UDP_NEW_TIMEOUT else UDP_ESTABLISHED_TIMEOUT in
          (lru_write connections key (to_state value (v_state value) (ts + timeout) (v_sequence value)), pkt)
      | Reverse =>
          if v_state value =? CT.NEW
          then (lru_write connections key (to_state value CT.ESTABLISHED (ts + UDP_NEW_TIMEOUT) (v_sequence value)), pkt)
          else (lru_write connections key
                  (to_state value (v_state value) (ts + UDP_ESTABLISHED_TIMEOUT) (v_sequence value)), pkt)
      | Miss => (miss, pkt)
      end
  end.

Definition update_icmp (ts : Z) (connections : C) (frame : list Z) (pkt : packetHeaders)
    : option (C * packetHeaders) :=
  if beyond frame (34 + 8) then None else
  let '(key, ipRev, portRev) := ct_key pkt in
  let type := rd8 frame 34 in
  if type =? ICMP_ECHO then
    Some (lru_insert connections key
      {| v_ttl := u64 (ts + ICMP_TIMEOUT); v_state := CT.NEW; v_ipRev := ipRev; v_portRev := portRev;
         v_sequence := 0 |}, pkt)
  else if type =? ICMP_ECHOREPLY then Some (lru_delete connections key, pkt)
  else Some (connections, pkt).

(** [None] when the packet is dropped. *)
Definition ct_update (ts : Z) (connections : C) (frame : list Z) (pkt : packetHeaders)
    : option (C * packetHeaders) :=
  if p_connStatus pkt =? CT.INVALID then Some (connections, pkt)
  else if p_l4proto pkt =? IPPROTO_TCP then Some (update_tcp ts connections pkt)
  else if p_l4proto pkt =? IPPROTO_UDP then Some (update_udp ts connections pkt)
  else if p_l4proto pkt =? IPPROTO_ICMP then update_icmp ts connections frame pkt
  else Some (connections, pkt).
End conntrack.
