(* ===== verification/FwDatapath.v ===== *)
(** pcn-firewall, the datapath: one eBPF program per module
    (datapaths/Firewall_*_dp.c), with the macros that the module's getCode
    replaces as arguments, and the tail calls between the programs.  The lookup
    modules intersect the vector of candidate rules with the table's entry for
    the packet; the bit scan takes the lowest rule left, and the action module
    applies it. *)
From Stdlib Require Import ZArith Lia.
From stdpp Require Import base gmap sets list strings numbers.
From S2P Require Import Prelude.
From S2P Require Import Bpf.
From S2P Require Import NetUtils.
From S2P Require Import FwRule.
From S2P Require Import FwBits.
From S2P Require Import Frame.
From S2P Require Import FwConntrack.
#[local] Open Scope Z_scope.

(** ModulesConstants (defines.h) *)
Module Modules.
Definition NR_MODULES : Z := 9.
Definition NR_INITIAL_MODULES : Z := 7.
Definition PARSER : Z := 0.
Definition CONNTRACKLABEL : Z := 1.
Definition CHAINFORWARDER : Z := 2.
Definition DEFAULTACTION : Z := 3.
Definition CONNTRACKTABLEUPDATE : Z := 4.
Definition HORUS_INGRESS : Z := 5.
Definition HORUS_INGRESS_SWAP : Z := 6.
Definition CONNTRACKMATCH : Z := 7.
Definition IPSOURCE : Z := 8.
Definition IPDESTINATION : Z := 9.
Definition L4PROTO : Z := 10.
Definition PORTSOURCE : Z := 11.
Definition PORTDESTINATION : Z := 12.
Definition TCPFLAGS : Z := 13.
Definition BITSCAN : Z := 14.
Definition ACTION : Z := 15.
End Modules.

(** HorusConst (defines.h) *)
Module HorusConst.
Definition SRCIP : Z := 0.
Definition DSTIP : Z := 1.
Definition L4PROTO : Z := 2.
Definition SRCPORT : Z := 3.
Definition DSTPORT : Z := 4.
Definition MIN_RULE_SIZE_FOR_HORUS : Z := 1.
Definition MAX_RULE_SIZE_FOR_HORUS : Z := 2048.
End HorusConst.

Section datapath.
Context `{Tables ct_k ct_v}.

(** * Programs: the macro values of the code, and the tables it declares.
    [nr] is _NR_ELEMENTS and [next] is _NEXT_HOP_1. *)
Inductive program :=
  | Parser (nr : Z) (horus : option Z) (conntrack_enabled : bool)
  | ConntrackLabel (mode : Z)
  | ChainForwarder (nr next : Z)
  | DefaultAction (action : ActionEnum) (pkts bytes : rowsT)
  | ConntrackTableUpdate (mode : Z)
  | Horus (setFields : Z) (conntrack_enabled : bool) (horusTable : keysT) (pkts bytes : rowsT)
  | ConntrackMatch (nr next : Z) (table : rowsT)
  | IpLookup (type nr next : Z) (trie : trieT)
  | L4ProtocolLookup (nr next : Z) (table : hashT)
  | L4PortLookup (type nr next : Z) (wildcard : option (list Z)) (table : hashT)
  | TcpFlagsLookup (nr next : Z) (table : rowsT)
  | BitScan (nr next : Z) (index64 : intsT)
  | ActionLookup (nr : Z) (actions : intsT) (pkts bytes : rowsT).

(** What the programs of one packet share. *)
Record dp := Dp {
  d_frame : list Z;          (** the packet *)
  d_pkt : packetHeaders;     (** the per-CPU table [packet] *)
  d_bits : list Z;           (** the per-CPU table [sharedEle] *)
  d_connections : connT;
}.
Definition set_pkt (p : packetHeaders) (s : dp) : dp := Dp (d_frame s) p (d_bits s) (d_connections s).
Definition set_bits (b : list Z) (s : dp) : dp := Dp (d_frame s) (d_pkt s) b (d_connections s).
Definition set_frame (f : list Z) (s : dp) : dp := Dp f (d_pkt s) (d_bits s) (d_connections s).
Definition set_connections (c : connT) (s : dp) : dp := Dp (d_frame s) (d_pkt s) (d_bits s) c.

(** The CPU the packet is on, its length ([md->packet_len]) and the time. *)
Record ctx := { c_cpu : nat; c_len : Z; c_timestamp : Z }.

Inductive verdict := RX_OK | RX_DROP.

(** A program ends with a verdict, or with a tail call after which it goes on
    when the call fails; either way its counters may have changed. *)
Inductive out :=
  | Return (v : verdict) (self : program) (s : dp)
  | TailCall (index : Z) (self : program) (s : dp) (failed : out).

(** [call_next_program(ctx, index); return RX_DROP;] *)
Definition call (index : Z) (self : program) (s : dp) : out :=
  TailCall index self s (Return RX_DROP self s).

(** _DEFAULTACTION *)
Definition default_action : program -> dp -> out := call Modules.DEFAULTACTION.

(** * Bit vectors *)
(** [for (i = 0; i < n; ++i) result->bits[i] &= ele->bits[i];] *)
Fixpoint and_words (n : nat) (result ele : list Z) : list Z :=
  match n, result, ele with
  | S n, x :: result, y :: ele => Z.land x y :: and_words n result ele
  | _, _, _ => result
  end.
Definition all_zero (n : nat) (bits : list Z) : bool := forallb (fun w => w =? 0) (take n bits).

Definition and_and_go (nr next : Z) (ele : list Z) (self : program) (s : dp) : out :=
  let bits := and_words (Z.to_nat nr) (d_bits s) ele in
  let s := set_bits bits s in
  if all_zero (Z.to_nat nr) bits then default_action self s else call next self s.

(** * The modules *)
Definition init_word : Z := 0x7FFFFFFFFFFFFFFF.
Definition init_bits (nr : Z) (bits : list Z) : list Z :=
  replicate (Z.to_nat nr) init_word ++ drop (Z.to_nat nr) bits.

Definition parse_ip (frame : list Z) (p : packetHeaders) : packetHeaders :=
  {| p_srcIp := rd32 frame 26; p_dstIp := rd32 frame 30; p_l4proto := rd8 frame 23;
     p_srcPort := p_srcPort p; p_dstPort := p_dstPort p; p_flags := p_flags p; p_seqN := p_seqN p;
     p_ackN := p_ackN p; p_connStatus := p_connStatus p; p_forwardingDecision := FORWARDING_NOT_SET |}.
Definition parse_tcp (frame : list Z) (p : packetHeaders) : packetHeaders :=
  {| p_srcIp := p_srcIp p; p_dstIp := p_dstIp p; p_l4proto := p_l4proto p;
     p_srcPort := rd16 frame 34; p_dstPort := rd16 frame 36; p_flags := rd8 frame 47; p_seqN := rd32 frame 38;
     p_ackN := rd32 frame 42; p_connStatus := p_connStatus p; p_forwardingDecision := p_forwardingDecision p |}.
Definition parse_udp (frame : list Z) (p : packetHeaders) : packetHeaders :=
  {| p_srcIp := p_srcIp p; p_dstIp := p_dstIp p; p_l4proto := p_l4proto p;
     p_srcPort := rd16 frame 34; p_dstPort := rd16 frame 36; p_flags := p_flags p; p_seqN := p_seqN p;
     p_ackN := p_ackN p; p_connStatus := p_connStatus p; p_forwardingDecision := p_forwardingDecision p |}.

(** The headers, or the verdict for a packet that is not IP or too short. *)
Definition parse (s : dp) : verdict * dp + dp :=
  let frame := d_frame s in
  if beyond frame 14 then inl (RX_DROP, s)
  else if negb (rd16 frame 12 =? bswap16 0x0800) then inl (RX_OK, s)
  else if beyond frame 34 then inl (RX_DROP, s)
  else
    let s := set_pkt (parse_ip frame (d_pkt s)) s in
    if p_l4proto (d_pkt s) =? IPPROTO_TCP then
      if beyond frame 54 then inl (RX_DROP, s) else inr (set_pkt (parse_tcp frame (d_pkt s)) s)
    else if p_l4proto (d_pkt s) =? IPPROTO_UDP then
      if beyond frame 42 then inl (RX_DROP, s) else inr (set_pkt (parse_udp frame (d_pkt s)) s)
    else inr s.

Definition parser_rx (nr : Z) (horus : option Z) (conntrack_enabled : bool) (self : program) (s : dp) : out :=
  match parse s with
  | inl (v, s) => Return v self s
  | inr s =>
      let s := set_bits (init_bits nr (d_bits s)) s in
      let next := call (if conntrack_enabled then Modules.CONNTRACKLABEL else Modules.CHAINFORWARDER) self s in
      match horus with Some index => TailCall index self s next | None => next end
  end.

(** Mode 1 is manual, mode 2 lets established connections through. *)
Definition conntrack_label_rx (mode : Z) (self : program) (s : dp) : out :=
  match ct_label (d_connections s) (d_frame s) (d_pkt s) with
  | None => Return RX_DROP self s
  | Some (status, frame) =>
      let s := set_frame frame (set_pkt (with_status status (d_pkt s)) s) in
      let pass := p_forwardingDecision (d_pkt s) =? FORWARDING_PASS_LABELING in
      if mode =? 1 then
        call (if pass then Modules.CONNTRACKTABLEUPDATE else Modules.CHAINFORWARDER) self s
      else if mode =? 2 then
        call (if (status =? CT.ESTABLISHED) || pass then Modules.CONNTRACKTABLEUPDATE
              else Modules.CHAINFORWARDER) self s
      else Return RX_DROP self s
  end.

Definition conntrack_table_update_rx (mode : Z) (c : ctx) (self : program) (s : dp) : out :=
  if mode =? 0 then Return RX_OK self s else
  match ct_update (c_timestamp c) (d_connections s) (d_frame s) (d_pkt s) with
  | None => Return RX_DROP self s
  | Some (connections, pkt) => Return RX_OK self (set_connections connections (set_pkt pkt s))
  end.

Definition chain_forwarder_rx (nr next : Z) (self : program) (s : dp) : out :=
  if 0 <? nr then TailCall next self s (default_action self s) else default_action self s.

Definition conntrack_match_rx (nr next : Z) (table : rowsT) (self : program) (s : dp) : out :=
  if 0 <? nr then
    match a_lookup table (p_connStatus (d_pkt s)) with
    | Some ele => and_and_go nr next ele self s
    | None => Return RX_DROP self s
    end
  else Return RX_DROP self s.

Definition ip_lookup_rx (type nr next : Z) (trie : trieT) (self : program) (s : dp) : out :=
  if 0 <? nr then
    match l_lookup trie (if type =? SOURCE_TYPE then p_srcIp (d_pkt s) else p_dstIp (d_pkt s)) with
    | Some ele => and_and_go nr next ele self s
    | None => default_action self s
    end
  else Return RX_DROP self s.

Definition l4_protocol_lookup_rx (nr next : Z) (table : hashT) (self : program) (s : dp) : out :=
  if 0 <? nr then
    match h_lookup table (p_l4proto (d_pkt s)) with
    | Some ele => and_and_go nr next ele self s
    | None =>
        match h_lookup table 0 with
        | Some ele => and_and_go nr next ele self s
        | None => default_action self s
        end
    end
  else Return RX_DROP self s.

Definition l4_port_lookup_rx (type nr next : Z) (wildcard : option (list Z)) (table : hashT)
    (self : program) (s : dp) : out :=
  if 0 <? nr then
    if negb (p_l4proto (d_pkt s) =? IPPROTO_TCP) && negb (p_l4proto (d_pkt s) =? IPPROTO_UDP)
    then call next self s
    else
      match h_lookup table (if type =? SOURCE_TYPE then p_srcPort (d_pkt s) else p_dstPort (d_pkt s)) with
      | Some ele => and_and_go nr next ele self s
      | None =>
          match wildcard with
          | Some wildcard_ele => and_and_go nr next wildcard_ele self s
          | None => default_action self s
          end
      end
  else Return RX_DROP self s.

Definition tcp_flags_lookup_rx (nr next : Z) (table : rowsT) (self : program) (s : dp) : out :=
  if 0 <? nr then
    if negb (p_l4proto (d_pkt s) =? IPPROTO_TCP) then call next self s
    else
      match a_lookup table (p_flags (d_pkt s)) with
      | Some ele => and_and_go nr next ele self s
      | None => default_action self s
      end
  else Return RX_DROP self s.

(** The scan of word [i] and the following ones; a failed tail call goes on
    with the next word, on a vector whose first word holds the rule. *)
Fixpoint bitscan_words (next : Z) (index64 : intsT) (n : nat) (i : Z) (self : program) (s : dp) : out :=
  match n with
  | O => default_action self s
  | S n =>
      let bits := nth (Z.to_nat i) (d_bits s) 0 in
      if bits =? 0 then bitscan_words next index64 n (i + 1) self s
      else
        match a_lookup index64 (bitscan_index bits) with
        | None => Return RX_DROP self s
        | Some matchingResult =>
            let s := set_bits (<[0%nat := matchingResult + i * 63]> (d_bits s)) s in
            TailCall next self s (bitscan_words next index64 n (i + 1) self s)
        end
  end.

Definition bitscan_rx (nr next : Z) (index64 : intsT) (self : program) (s : dp) : out :=
  bitscan_words next index64 (Z.to_nat nr) 0 self s.

Definition action_lookup_rx (nr : Z) (actions : intsT) (pkts bytes : rowsT) (c : ctx) (s : dp) : out :=
  let self := ActionLookup nr actions pkts bytes in
  if 0 <? nr then
    let key := nth 0 (d_bits s) 0 in
    match a_lookup actions key with
    | None => Return RX_DROP self s
    | Some action =>
        let self := ActionLookup nr actions (pc_add pkts (c_cpu c) key 1) (pc_add bytes (c_cpu c) key (c_len c)) in
        if action =? 0 then Return RX_DROP self s
        else if action =? 1 then call Modules.CONNTRACKTABLEUPDATE self s
        else Return RX_DROP self s
    end
  else Return RX_DROP self s.

Definition default_action_rx (action : ActionEnum) (pkts bytes : rowsT) (c : ctx) (s : dp) : out :=
  let self := DefaultAction action (pc_add pkts (c_cpu c) 0 1) (pc_add bytes (c_cpu c) 0 (c_len c)) in
  match action with
  | DROP => Return RX_DROP self s
  | _ => call Modules.CONNTRACKTABLEUPDATE self s
  end.

(** The key of the Horus table: the enabled fields, packed. *)
Definition le_bytes (n : nat) (x : Z) : list Z := map (fun i => byte_of x (Z.of_nat i)) (seq 0 n).
Definition horus_key (setFields srcIp dstIp srcPort dstPort l4proto : Z) : list Z :=
  (if CHECK_BIT setFields HorusConst.SRCIP then le_bytes 4 srcIp else []) ++
  (if CHECK_BIT setFields HorusConst.DSTIP then le_bytes 4 dstIp else []) ++
  (if CHECK_BIT setFields HorusConst.SRCPORT then le_bytes 2 srcPort else []) ++
  (if CHECK_BIT setFields HorusConst.DSTPORT then le_bytes 2 dstPort else []) ++
  (if CHECK_BIT setFields HorusConst.L4PROTO then le_bytes 1 l4proto else []).

(** A miss calls the connection tracking label whether or not it is enabled. *)
Definition horus_rx (setFields : Z) (conntrack_enabled : bool) (horusTable : keysT) (pkts bytes : rowsT)
    (c : ctx) (s : dp) : out :=
  let self := Horus setFields conntrack_enabled horusTable pkts bytes in
  let p := d_pkt s in
  let pipeline self := call Modules.CONNTRACKLABEL self s in
  match h_lookup horusTable
    (horus_key setFields (p_srcIp p) (p_dstIp p) (p_srcPort p) (p_dstPort p) (p_l4proto p)) with
  | None => pipeline self
  | Some (action, ruleID) =>
      if ruleID <? HorusConst.MAX_RULE_SIZE_FOR_HORUS then
        let self := Horus setFields conntrack_enabled horusTable
          (pc_add pkts (c_cpu c) ruleID 1) (pc_add bytes (c_cpu c) ruleID (c_len c)) in
        if action =? 0 then Return RX_DROP self s
        else if action =? 1 then
          if conntrack_enabled then
            call Modules.CONNTRACKLABEL self (set_pkt (with_decision FORWARDING_PASS_LABELING p) s)
          else Return RX_OK self s
        else pipeline self
      else pipeline self
  end.

Definition handle_rx (self : program) (c : ctx) (s : dp) : out :=
  match self with
  | Parser nr horus ct => parser_rx nr horus ct self s
  | ConntrackLabel mode => conntrack_label_rx mode self s
  | ChainForwarder nr next => chain_forwarder_rx nr next self s
  | DefaultAction action pkts bytes => default_action_rx action pkts bytes c s
  | ConntrackTableUpdate mode => conntrack_table_update_rx mode c self s
  | Horus f ct table pkts bytes => horus_rx f ct table pkts bytes c s
  | ConntrackMatch nr next table => conntrack_match_rx nr next table self s
  | IpLookup type nr next trie => ip_lookup_rx type nr next trie self s
  | L4ProtocolLookup nr next table => l4_protocol_lookup_rx nr next table self s
  | L4PortLookup type nr next w table => l4_port_lookup_rx type nr next w table self s
  | TcpFlagsLookup nr next table => tcp_flags_lookup_rx nr next table self s
  | BitScan nr next index64 => bitscan_rx nr next index64 self s
  | ActionLookup nr actions pkts bytes => action_lookup_rx nr actions pkts bytes c s
  end.

(** * Running a packet

    The kernel follows at most [budget] tail calls for one packet; a call past
    the budget, or of an empty slot of the program array, fails and the caller
    goes on.  [slots] is the program array of one direction. *)


Fixpoint run (budget : nat) (c : ctx) (index : Z) (self : program) (slots : gmap Z program) (s : dp)
    : verdict * gmap Z program * dp :=
  (fix follow (o : out) : verdict * gmap Z program * dp :=
     match o with
     | Return v self s => (v, <[index := self]> slots, s)
     | TailCall next self s failed =>
         match budget, (<[index := self]> slots) !! next with
         | S budget, Some p => run budget c next p (<[index := self]> slots) s
         | _, _ => follow failed
         end
     end) (handle_rx self c s).

(** A packet enters at the parser. *)
Definition receive (budget : nat) (c : ctx) (slots : gmap Z program) (s : dp) : option (verdict * gmap Z program * dp) :=
  match slots !! Modules.PARSER with
  | Some p => Some (run budget c Modules.PARSER p slots s)
  | None => None
  end.
End datapath.
