(* ===== verification/FwPipeline.v ===== *)
(** pcn-firewall, the datapath of one chain: when the tables hold what FwMapsFacts
    and FwIpFacts say, the programs of a chain, run one after the other, take the
    action of the first rule that accepts the packet.

    The specification is [rule_accepts]: a rule accepts a packet when each of
    its fields does; ports are tested on TCP and UDP only, flags on TCP only. *)
From Stdlib Require Import ZArith Lia.
From stdpp Require Import base gmap sets list strings numbers.
From S2P Require Import Prelude.
From S2P Require Import Bpf.
From S2P Require Import NetUtils.
From S2P Require Import FwRule.
From S2P Require Import FwFlags.
From S2P Require Import FwRuleFacts.
From S2P Require Import FwBits.
From S2P Require Import FwMaps.
From S2P Require Import FwMapsFacts.
From S2P Require Import FwIpFacts.
From S2P Require Import Frame.
From S2P Require Import FwConntrack.
From S2P Require Import FwDatapath.
#[local] Open Scope Z_scope.

(** * Which packets a rule accepts *)
Inductive field := FConntrack | FSrc | FDst | FProto | FSport | FDport | FFlags.
#[export] Instance field_eq_dec : EqDecision field.
Proof. solve_decision. Defined.
Definition all_fields : list field := [FConntrack; FSrc; FDst; FProto; FSport; FDport; FFlags].

Definition tcp_or_udp (p : packetHeaders) : bool :=
  (p_l4proto p =? IPPROTO_TCP) || (p_l4proto p =? IPPROTO_UDP).

Definition field_accepts (f : field) (p : packetHeaders) (r : ChainRule) : bool :=
  match f with
  | FConntrack => no_field_or status_of (fun s => s =? p_connStatus p) r
  | FSrc => address_accepts SOURCE_TYPE (p_srcIp p) r
  | FDst => address_accepts DESTINATION_TYPE (p_dstIp p) r
  | FProto => no_field_or l4Proto (fun y => y =? p_l4proto p) r
  | FSport => negb (tcp_or_udp p) || no_field_or srcPort (fun y => y =? bswap16 (p_srcPort p)) r
  | FDport => negb (tcp_or_udp p) || no_field_or dstPort (fun y => y =? bswap16 (p_dstPort p)) r
  | FFlags => negb (p_l4proto p =? IPPROTO_TCP) || no_field_or tcpFlags (fun f => flags_accept f (p_flags p)) r
  end.

Definition rule_accepts (p : packetHeaders) (r : ChainRule) : bool :=
  forallb (fun f => field_accepts f p r) all_fields.

(** The verdict of a chain: the first rule that accepts, else the default. *)
Definition chain_action (rules : list ChainRule) (default_policy : ActionEnum) (p : packetHeaders) : ActionEnum :=
  match list_find (fun r => rule_accepts p r = true) rules with
  | Some (_, r) => default DROP (action r)
  | None => default_policy
  end.

(** What the parser and the label leave in the per-CPU record. *)
Record wf_pkt (p : packetHeaders) : Prop := {
  wp_src : 0 <= p_srcIp p < 2 ^ 32;
  wp_dst : 0 <= p_dstIp p < 2 ^ 32;
  wp_proto : 0 <= p_l4proto p < 2 ^ 8;
  wp_sport : 0 <= p_srcPort p < 2 ^ 16;
  wp_dport : 0 <= p_dstPort p < 2 ^ 16;
  wp_flags : 0 <= p_flags p < 2 ^ 8;
  wp_status : p_connStatus p ∈ statesVector;
}.

(** The rules whose compilation agrees with the specification: whole-octet
    prefixes, and no rule on port 0, which is the key of the wildcard entry. *)
Record plain_rule (r : ChainRule) : Prop := {
  pl_src : forall q, prefix_of SOURCE_TYPE r = Some q -> octets q.2 = true;
  pl_dst : forall q, prefix_of DESTINATION_TYPE r = Some q -> octets q.2 = true;
  pl_sport : srcPort r <> Some 0;
  pl_dport : dstPort r <> Some 0;
}.

(** * Bit vectors in the datapath *)
Lemma bit_word v i : 0 <= i -> bit v i = Z.testbit (nth (Z.to_nat (i / 63)) v 0) (i mod 63).
Proof.
  intros Hi. unfold bit. rewrite nth_lookup. destruct (v !! _); [done|]. simpl. by rewrite Z.testbit_0_l.
Qed.

Lemma lookup_and_words n x y j :
  length x = length y ->
  and_words n x y !! j = if (j <? n)%nat
    then match x !! j, y !! j with Some a, Some b => Some (Z.land a b) | _, _ => None end else x !! j.
Proof.
  revert x y j. induction n as [|n IH]; intros x y j Hl; [by destruct x|].
  destruct x as [|a x], y as [|b y]; simpl in *; try done.
  { by destruct (j <? S n)%nat. }
  destruct j as [|j]; simpl; [done|]. rewrite IH by lia.
  by change (S j <? S n)%nat with (j <? n)%nat.
Qed.

Lemma length_and_words n x y : length (and_words n x y) = length x.
Proof.
  revert x y. induction n as [|n IH]; intros x y; [by destruct x|].
  destruct x as [|a x], y as [|b y]; simpl; by rewrite ?IH.
Qed.

Lemma wf_word_land a b : wf_word a -> wf_word b -> wf_word (Z.land a b).
Proof.
  unfold wf_word. intros Ha Hb. split; [apply Z.land_nonneg; lia|].
  destruct (Z.eq_dec (Z.land a b) 0) as [->|Hz]; [lia|].
  assert (0 <= Z.land a b) by (apply Z.land_nonneg; lia).
  apply Z.log2_lt_cancel. eapply Z.le_lt_trans; [apply Z.log2_land; lia|].
  rewrite Z.log2_pow2 by lia. destruct (Z.eq_dec a 0) as [->|]; [simpl in *; lia|].
  assert (Z.log2 a < 63) by (apply Z.log2_lt_pow2; lia). lia.
Qed.

Section vectors.
Context (rules : list ChainRule) (nr : Z).
Context (Hnr : nr = FROM_NRULES_TO_NELEMENTS (Z.of_nat (length rules))).
Context (Hlen : Z.of_nat (length rules) <= 8253).

(** The first [nr] words hold the candidates; before the first intersection
    the bits past the last rule are set too, like all the others. *)
Definition holds (P : ChainRule -> bool) (junk : bool) (v : list Z) : Prop :=
  length v = 131%nat /\
  (forall j w, v !! j = Some w -> (j < Z.to_nat nr)%nat -> wf_word w) /\
  (forall i, 0 <= i < 63 * nr ->
     bit v i = match rules !! Z.to_nat i with Some r => P r | None => junk end) /\
  (junk = true -> forall r, r ∈ rules -> P r = true).

Lemma nr_bounds : 0 <= nr <= 131 /\ Z.of_nat (length rules) <= 63 * nr /\ (rules ≠ [] -> 0 < nr).
Proof using Hnr Hlen.
  subst nr. unfold FROM_NRULES_TO_NELEMENTS.
  assert (forall n, 0 <= n -> n <= 8253 -> 0 <= n / 63 + (if n mod 63 =? 0 then 0 else 1) <= 131 /\
    n <= 63 * (n / 63 + (if n mod 63 =? 0 then 0 else 1)) /\ (0 < n -> 0 < n / 63 + (if n mod 63 =? 0 then 0 else 1))) as Hn.
  { intros n H0 H1. destruct (Z.eqb_spec (n mod 63) 0); div_mod. }
  destruct (Hn (Z.of_nat (length rules))) as (? & ? & Hpos); [lia..|].
  split; [done|]. split; [done|]. intros Hne. apply Hpos. destruct rules; [done|simpl; lia].
Qed.

(** Intersecting with an entry that represents [Q]. *)
Lemma holds_and P junk v Q ele :
  holds P junk v -> represents rules Q ele ->
  holds (fun r => P r && Q r) false (and_words (Z.to_nat nr) v ele).
Proof using Hnr Hlen.
  intros (Hl & Hw & Hb & Hj) [[Hle Hwe] Hbe]. rewrite n_words in Hle.
  destruct nr_bounds as (Hn1 & Hn2 & _).
  split; [by rewrite length_and_words|]. split; [|split; [|done]].
  - intros j w Hj' Hlt. rewrite lookup_and_words in Hj' by congruence.
    destruct (Nat.ltb_spec j (Z.to_nat nr)); [|lia].
    destruct (v !! j) as [a|] eqn:Ea; [|done]. destruct (ele !! j) as [b|] eqn:Eb; [|done].
    injection Hj' as <-. apply wf_word_land; [by eapply Hw|by eapply Forall_lookup_1].
  - intros i Hi. specialize (Hb i Hi). specialize (Hbe i ltac:(lia)). revert Hb Hbe. unfold bit.
    assert (i / 63 < nr) by (apply Z.div_lt_upper_bound; lia).
    assert (0 <= i / 63) by (apply Z.div_pos; lia).
    rewrite lookup_and_words by congruence.
    destruct (Nat.ltb_spec (Z.to_nat (i / 63)) (Z.to_nat nr)); [|lia].
    destruct (lookup_lt_is_Some_2 v (Z.to_nat (i / 63))) as [a Ea]; [lia|].
    destruct (lookup_lt_is_Some_2 ele (Z.to_nat (i / 63))) as [b Eb]; [lia|].
    rewrite Ea, Eb.
    intros Ha Hbb. rewrite Z.land_spec, Ha, Hbb. destruct (rules !! Z.to_nat i); [done|apply andb_false_r].
Qed.

Lemma all_zero_spec P junk v :
  holds P junk v -> all_zero (Z.to_nat nr) v = true -> forall r, r ∈ rules -> P r = false.
Proof using Hnr Hlen.
  intros (Hl & Hw & Hb & _) Hz r [k Hk]%list_elem_of_lookup.
  apply lookup_lt_Some in Hk as Hlt. destruct nr_bounds as (Hn1 & Hn2 & _).
  specialize (Hb (Z.of_nat k) ltac:(lia)). rewrite Nat2Z.id, Hk in Hb. rewrite <- Hb. unfold bit.
  destruct (v !! Z.to_nat (Z.of_nat k / 63)) as [w|] eqn:Ew; [|done].
  unfold all_zero in Hz. rewrite forallb_forall in Hz.
  assert (w = 0) as ->; [|apply Z.testbit_0_l].
  apply Z.eqb_eq, Hz. apply list_elem_of_In, list_elem_of_lookup. exists (Z.to_nat (Z.of_nat k / 63)).
  rewrite lookup_take_lt; [done|].
  assert (Z.of_nat k / 63 < nr) by (apply Z.div_lt_upper_bound; lia).
  assert (0 <= Z.of_nat k / 63) by (apply Z.div_pos; lia). lia.
Qed.

Lemma holds_init v : length v = 131%nat -> holds (fun _ => true) true (init_bits nr v).
Proof using Hnr Hlen.
  intros Hl. destruct nr_bounds as (Hn1 & _ & _). unfold init_bits. split.
  { rewrite length_app, length_replicate, length_drop. lia. }
  split; [|split; [|done]].
  - intros j w Hj Hlt. rewrite lookup_app_l in Hj by (by rewrite length_replicate).
    apply lookup_replicate in Hj as [-> _]. unfold wf_word, init_word. lia.
  - intros i Hi. unfold bit.
    assert (i / 63 < nr) by (apply Z.div_lt_upper_bound; lia).
    assert (0 <= i / 63) by (apply Z.div_pos; lia).
    rewrite lookup_app_l by (rewrite length_replicate; lia).
    rewrite lookup_replicate_2 by lia.
    assert (Z.testbit init_word (i mod 63) = true) as ->.
    { change init_word with (Z.ones 63). rewrite Z.testbit_ones_nonneg; [|lia|].
      - pose proof (Z.mod_pos_bound i 63). destruct (Z.ltb_spec (i mod 63) 63); lia.
      - pose proof (Z.mod_pos_bound i 63). lia. }
    by destruct (rules !! Z.to_nat i).
Qed.
End vectors.

Lemma bswap16_invol x : 0 <= x < 2 ^ 16 -> bswap16 (bswap16 x) = x /\ 0 <= bswap16 x < 2 ^ 16.
Proof.
  intros Hx.
  assert (forall y, 0 <= y < 2 ^ 16 -> bswap16 y = y mod 2 ^ 8 * 2 ^ 8 + y / 2 ^ 8) as Hb.
  { intros y Hy. unfold bswap16. rewrite Z.lor_comm.
    change 255 with (2 ^ 8 - 1). rewrite !land_ones_mod by lia. rewrite Z.shiftr_div_pow2 by lia.
    rewrite lor_shiftl_add; [|lia|apply Z.mod_pos_bound; lia].
    rewrite (Z.mod_small (y / 2 ^ 8)) by div_mod. lia. }
  rewrite (Hb x Hx). assert (0 <= x mod 2 ^ 8 * 2 ^ 8 + x / 2 ^ 8 < 2 ^ 16) by div_mod.
  split; [|done]. rewrite Hb by done. div_mod.
Qed.

(** * One lookup module *)
Section stages.
Context `{Tables ct_k ct_v} (rules : list ChainRule) (Hwf : wf_rules rules).
Context (Hplain : forall r, r ∈ rules -> plain_rule r).
Context (nr : Z) (Hnr : nr = FROM_NRULES_TO_NELEMENTS (Z.of_nat (length rules))) (Hne : rules ≠ []).

Definition same_packet (s s' : dp) : Prop :=
  d_frame s' = d_frame s /\ d_pkt s' = d_pkt s /\ d_connections s' = d_connections s.

(** The program intersects the candidates with the rules that accept the
    packet on [f], and goes to [next]; or nothing is left, and it goes to the
    default action. *)
Definition narrows (f : field) (next : Z) (self : program) (s : dp) (P : ChainRule -> bool) (o : out) : Prop :=
  exists s', same_packet s s' /\
    ((o = call next self s' /\ exists junk, holds rules nr (fun r => P r && field_accepts f (d_pkt s) r) junk (d_bits s')) \/
     (o = default_action self s' /\ forall r, r ∈ rules -> P r && field_accepts f (d_pkt s) r = false)).

Definition stage_ok (f : field) (next : Z) (self : program) : Prop :=
  forall c s P junk, wf_pkt (d_pkt s) -> holds rules nr P junk (d_bits s) ->
    narrows f next self s P (handle_rx self c s).

Lemma nr_pos : (0 <? nr) = true.
Proof using Hwf Hnr Hne.
  destruct (nr_bounds rules nr Hnr (wfr_len rules Hwf)) as (_ & _ & Hp). specialize (Hp Hne). lia.
Qed.

Lemma and_and_go_narrows f next ele self s P junk :
  holds rules nr P junk (d_bits s) -> represents rules (field_accepts f (d_pkt s)) ele ->
  narrows f next self s P (and_and_go nr next ele self s).
Proof using Hwf Hnr.
  intros Hh Hr. pose proof (holds_and rules nr Hnr (wfr_len rules Hwf) _ _ _ _ _ Hh Hr) as Ha.
  unfold and_and_go. eexists. split; [|destruct (all_zero _ _) eqn:Ez; [right|left]; split; [done| |done|]].
  - by repeat split.
  - by apply (all_zero_spec rules nr Hnr (wfr_len rules Hwf) _ _ _ Ha Ez).
  - by exists false.
Qed.

(** A module that ignores the packet. *)
Lemma skip_narrows f next self s P junk :
  holds rules nr P junk (d_bits s) -> (forall r, r ∈ rules -> field_accepts f (d_pkt s) r = true) ->
  narrows f next self s P (call next self s).
Proof using Type.
  intros (Hl & Hw & Hb & Hj) Hf. exists s. split; [done|]. left. split; [done|]. exists junk.
  split; [done|]. split; [done|]. split.
  - intros i Hi. rewrite Hb by done. destruct (rules !! Z.to_nat i) as [r|] eqn:E; [|done].
    rewrite Hf by (by eapply list_elem_of_lookup_2). by rewrite andb_true_r.
  - intros E r Hr. by rewrite (Hj E r Hr), Hf.
Qed.

Lemma default_narrows f next self s P :
  (forall r, r ∈ rules -> field_accepts f (d_pkt s) r = false) ->
  narrows f next self s P (default_action self s).
Proof using Type.
  intros Hf. exists s. split; [done|]. right. split; [done|]. intros r Hr. rewrite Hf by done. apply andb_false_r.
Qed.

Lemma conntrack_match_ok next t :
  (forall x, x ∈ statesVector -> exists v, a_lookup t x = Some v /\
     represents rules (no_field_or status_of (fun s => s =? x)) v) ->
  stage_ok FConntrack next (ConntrackMatch nr next t).
Proof using Hwf Hnr Hne.
  intros Ht c s P junk Hp Hh. cbn [handle_rx]. unfold conntrack_match_rx. rewrite nr_pos.
  destruct (Ht _ (wp_status _ Hp)) as (v & -> & Hv). by eapply and_and_go_narrows.
Qed.

Lemma ip_lookup_ok f type next t :
  (f = FSrc /\ type = SOURCE_TYPE \/ f = FDst /\ type = DESTINATION_TYPE) ->
  (forall p, 0 <= p < 2 ^ 32 ->
     match l_lookup t p with
     | Some v => represents rules (address_accepts type p) v
     | None => forall r, r ∈ rules -> address_accepts type p r = false
     end) ->
  stage_ok f next (IpLookup type nr next t).
Proof using Hwf Hnr Hne.
  intros Hf Ht c s P junk Hp Hh. cbn [handle_rx]. unfold ip_lookup_rx. rewrite nr_pos.
  destruct Hf as [[-> ->]|[-> ->]]; cbn [Z.eqb SOURCE_TYPE DESTINATION_TYPE].
  - change (SOURCE_TYPE =? SOURCE_TYPE) with true. cbn iota.
    specialize (Ht _ (wp_src _ Hp)). destruct (l_lookup t _); [by eapply and_and_go_narrows|by apply default_narrows].
  - change (DESTINATION_TYPE =? SOURCE_TYPE) with false. cbn iota.
    specialize (Ht _ (wp_dst _ Hp)). destruct (l_lookup t _); [by eapply and_and_go_narrows|by apply default_narrows].
Qed.

(** The keyed tables: the entry for the key, else the wildcard's. *)
Lemma key_table_lookup (k : ChainRule -> option Z) m brk x :
  key_table rules k m brk -> (forall r, r ∈ rules -> k r ≠ Some 0) -> m ≠ [] ->
  match StdMap.find Z.ltb x m with
  | Some v => represents rules (no_field_or k (fun y => y =? x)) v
  | None =>
      match StdMap.find Z.ltb 0 m with
      | Some v => represents rules (no_field_or k (fun y => y =? x)) v
      | None => forall r, r ∈ rules -> no_field_or k (fun y => y =? x) r = false
      end
  end.
Proof using Hwf.
  intros Hm Hk Hmne. pose proof (kt_find _ _ _ _ Hm x) as Hx.
  destruct (StdMap.find Z.ltb x m) as [v|]; [tauto|]. destruct Hx as [Hx Hxw].
  assert (forall r, r ∈ rules -> k r ≠ Some x) as Hnx.
  { intros r Hr E. apply Hx, list_elem_of_omap. eauto. }
  pose proof (kt_find _ _ _ _ Hm 0) as H0. destruct (StdMap.find Z.ltb 0 m) as [v|].
  - destruct H0 as [_ Hv]. revert Hv. apply represents_ext. intros r Hr. unfold no_field_or.
    destruct (k r) as [y|] eqn:E; [|done]. specialize (Hk r Hr). specialize (Hnx r Hr).
    destruct (Z.eqb_spec y 0), (Z.eqb_spec y x); congruence.
  - destruct H0 as [_ H0]. intros r Hr. unfold no_field_or. specialize (Hnx r Hr).
    destruct (k r) as [y|] eqn:E; [destruct (Z.eqb_spec y x); congruence|].
    exfalso. apply H0. split; [done|]. split.
    + intros Ho. by apply Hmne, (kt_empty _ _ _ _ Hm).
    + intros Hw. apply (not_elem_of_nil (id r)). rewrite <- Hw.
      by apply (without_key_id rules k (wfr_ids rules Hwf)).
Qed.

Lemma l4_protocol_lookup_ok next t m brk :
  key_table rules l4Proto m brk -> m ≠ [] -> (forall x, 0 <= x < 2 ^ 8 -> h_lookup t x = StdMap.find Z.ltb x m) ->
  stage_ok FProto next (L4ProtocolLookup nr next t).
Proof using Hwf Hnr Hne.
  intros Hm Hmne Ht c s P junk Hp Hh. cbn [handle_rx]. unfold l4_protocol_lookup_rx. rewrite nr_pos.
  rewrite !Ht by (lia || apply Hp).
  pose proof (key_table_lookup l4Proto m brk (p_l4proto (d_pkt s)) Hm) as Hl.
  destruct (StdMap.find Z.ltb (p_l4proto (d_pkt s)) m) as [v|].
  - eapply and_and_go_narrows; [done|]. apply Hl; [|done].
    intros r Hr E. by pose proof (wf_proto r (wfr_rule rules Hwf r Hr) _ E).
  - destruct (StdMap.find Z.ltb 0 m) as [v|]; [eapply and_and_go_narrows; [done|]|apply default_narrows];
      (apply Hl; [|done]); intros r Hr E; by pose proof (wf_proto r (wfr_rule rules Hwf r Hr) _ E).
Qed.

Lemma l4_port_lookup_ok f type next t m brk :
  (f = FSport /\ type = SOURCE_TYPE \/ f = FDport /\ type = DESTINATION_TYPE) ->
  key_table rules (port_of type) m brk -> m ≠ [] ->
  (forall x, 0 <= x < 2 ^ 16 -> h_lookup t (bswap16 x) = StdMap.find Z.ltb x m) ->
  stage_ok f next (L4PortLookup type nr next (StdMap.find Z.ltb 0 m) t).
Proof using Hwf Hnr Hne Hplain.
  intros Hf Hm Hmne Ht c s P junk Hp Hh. cbn [handle_rx]. unfold l4_port_lookup_rx. rewrite nr_pos.
  pose proof (fun x => key_table_lookup (port_of type) m brk x Hm) as Hl.
  assert (forall r, r ∈ rules -> port_of type r ≠ Some 0) as H0.
  { intros r Hr. destruct Hf as [[_ ->]|[_ ->]]; apply (Hplain r Hr). }
  set (port := if type =? SOURCE_TYPE then p_srcPort (d_pkt s) else p_dstPort (d_pkt s)).
  assert (0 <= port < 2 ^ 16) as Hport by (unfold port; destruct (type =? SOURCE_TYPE); apply Hp).
  assert (forall r, field_accepts f (d_pkt s) r =
    negb (tcp_or_udp (d_pkt s)) || no_field_or (port_of type) (fun y => y =? bswap16 port) r) as Hacc.
  { intros r. unfold port. by destruct Hf as [[-> ->]|[-> ->]]. }
  destruct (negb (p_l4proto (d_pkt s) =? IPPROTO_TCP) && negb (p_l4proto (d_pkt s) =? IPPROTO_UDP)) eqn:Eproto.
  - apply (skip_narrows f next _ s P junk); [done|]. intros r Hr. rewrite Hacc.
    unfold tcp_or_udp. by rewrite negb_orb, Eproto.
  - assert (negb (tcp_or_udp (d_pkt s)) = false) as Etu by (unfold tcp_or_udp; by rewrite negb_orb).
    destruct (bswap16_invol port Hport) as [Hinv Hb]. specialize (Ht (bswap16 port) Hb).
    rewrite Hinv in Ht. rewrite Ht. specialize (Hl (bswap16 port) H0 Hmne).
    assert (forall v, represents rules (no_field_or (port_of type) (fun y => y =? bswap16 port)) v ->
      represents rules (field_accepts f (d_pkt s)) v) as Hv.
    { intros v. apply represents_ext. intros r _. by rewrite Hacc, Etu. }
    destruct (StdMap.find Z.ltb (bswap16 port) m) as [v|]; [eapply and_and_go_narrows; eauto|].
    destruct (StdMap.find Z.ltb 0 m) as [v|]; [eapply and_and_go_narrows; eauto|].
    apply default_narrows. intros r Hr. rewrite Hacc, Etu. simpl. by apply Hl.
Qed.

Lemma tcp_flags_lookup_ok next t :
  (forall x, 0 <= x < 2 ^ 8 -> exists v, a_lookup t x = Some v /\
     represents rules (no_field_or tcpFlags (fun f => flags_accept f x)) v) ->
  stage_ok FFlags next (TcpFlagsLookup nr next t).
Proof using Hwf Hnr Hne.
  intros Ht c s P junk Hp Hh. cbn [handle_rx]. unfold tcp_flags_lookup_rx. rewrite nr_pos.
  destruct (p_l4proto (d_pkt s) =? IPPROTO_TCP) eqn:Et; cbn [negb].
  - destruct (Ht _ (wp_flags _ Hp)) as (v & -> & Hv). eapply and_and_go_narrows; [done|].
    revert Hv. apply represents_ext. intros r _. unfold field_accepts. by rewrite Et.
  - apply (skip_narrows FFlags next _ s P junk); [done|]. intros r _. unfold field_accepts. by rewrite Et.
Qed.
End stages.

(** * The bit scan *)
Section bitscan.
Context `{Tables ct_k ct_v} (next : Z) (t : intsT).
Context (Ht : forall k w, index64 !! Z.to_nat k = Some w -> 0 <= k < 64 -> a_lookup t k = Some w).

(** [i] is the lowest identifier below [n] in the vector. *)
Definition lowest_below (v : list Z) (n i : Z) : Prop :=
  0 <= i < n /\ bit v i = true /\ forall j, 0 <= j < i -> bit v j = false.

Lemma word_zero v i : nth (Z.to_nat i) v 0 = 0 -> 0 <= i -> forall j, j / 63 = i -> bit v j = false.
Proof using Type.
  intros Hz Hi j Hj. assert (0 <= j) by (rewrite <- Hj in Hi; destruct (Z.lt_ge_cases j 0); div_mod).
  rewrite bit_word by done. by rewrite Hj, Hz, Z.testbit_0_l.
Qed.

Lemma bitscan_words_spec n i self s :
  0 <= i ->
  (forall j w, d_bits s !! j = Some w -> (j < Z.to_nat i + n)%nat -> wf_word w) ->
  (forall j, 0 <= j < 63 * i -> bit (d_bits s) j = false) ->
  (exists k failed, lowest_below (d_bits s) (63 * (i + Z.of_nat n)) k /\
     bitscan_words next t n i self s = TailCall next self (set_bits (<[0%nat := k]> (d_bits s)) s) failed) \/
  ((forall j, 0 <= j < 63 * (i + Z.of_nat n) -> bit (d_bits s) j = false) /\
   bitscan_words next t n i self s = default_action self s).
Proof using Ht.
  revert i. induction n as [|n IH]; intros i Hi Hw Hz; simpl.
  { right. split; [|done]. intros j Hj. apply Hz. lia. }
  set (w := nth (Z.to_nat i) (d_bits s) 0). destruct (Z.eqb_spec w 0) as [E|E].
  - destruct (IH (i + 1)) as [(k & fl & Hk & Hr)|[Hall Hr]].
    + lia.
    + intros j x Hx Hj. apply (Hw j x Hx). lia.
    + intros j Hj. destruct (decide (j < 63 * i)); [apply Hz; lia|].
      apply (word_zero _ i E Hi). symmetry. apply (Z.div_unique j 63 i (j - 63 * i)); lia.
    + left. exists k, fl. split; [|done]. by replace (i + Z.of_nat (S n)) with (i + 1 + Z.of_nat n) by lia.
    + right. split; [|done]. intros j Hj. apply Hall. lia.
  - left. unfold w in E. rewrite nth_lookup in E. fold w in E.
    destruct (d_bits s !! Z.to_nat i) as [x|] eqn:Ex; [|done].
    assert (w = x) as Hwx by (unfold w; by rewrite nth_lookup, Ex).
    pose proof (Hw _ _ Ex ltac:(lia)) as Hx. rewrite Hwx. simpl in E.
    destruct (bitscan_lowest x) as (k & Hk & Hlow & Hidx); [unfold wf_word in Hx; lia|].
    pose proof (lowest_bit_lt x k 63 Hx ltac:(lia) Hlow) as Hk63. destruct Hlow as (H0 & H1 & H2).
    rewrite (Ht _ _ Hk Hidx). exists (k + i * 63). eexists. split; [|done].
    assert (forall j, 0 <= j < 63 -> bit (d_bits s) (j + i * 63) = Z.testbit x j) as Hbit.
    { intros j Hj. rewrite bit_word by lia. rewrite Z.div_add, Z.div_small by lia.
      rewrite Z_mod_plus_full, Z.mod_small by lia. rewrite Z.add_0_l. fold w. by rewrite Hwx. }
    split; [lia|]. split; [by rewrite Hbit by lia|]. intros j Hj.
    destruct (decide (j < 63 * i)); [apply Hz; lia|].
    replace j with ((j - i * 63) + i * 63) by lia. rewrite Hbit by lia. apply H2. lia.
Qed.
End bitscan.

Lemma list_find_first {A} (P : A -> bool) (l : list A) i x :
  l !! i = Some x -> P x = true -> (forall j y, l !! j = Some y -> (j < i)%nat -> P y = false) ->
  list_find (fun x => P x = true) l = Some (i, x).
Proof.
  intros Hi Hp Hn. apply list_find_Some. split; [done|]. split; [done|].
  intros j y Hj Hlt E. rewrite (Hn j y Hj Hlt) in E. done.
Qed.

Lemma list_find_none {A} (P : A -> bool) (l : list A) :
  (forall x, x ∈ l -> P x = false) -> list_find (fun x => P x = true) l = None.
Proof.
  intros Hn. apply list_find_None, Forall_forall. intros x Hx%list_elem_of_In E. by rewrite (Hn x Hx) in E.
Qed.

(** * Running the programs of a chain *)
Section running.
Context `{Tables ct_k ct_v}.

Lemma run_return budget c index self slots s v p s' :
  handle_rx self c s = Return v p s' -> run budget c index self slots s = (v, <[index := p]> slots, s').
Proof using Type. intros E. destruct budget; simpl; by rewrite E. Qed.

Lemma run_call budget c index self slots s next p s' failed q :
  handle_rx self c s = TailCall next p s' failed -> (<[index := p]> slots) !! next = Some q ->
  run (S budget) c index self slots s = run budget c next q (<[index := p]> slots) s'.
Proof using Type. intros E Hq. simpl. by rewrite E, Hq. Qed.

Lemma run_call_same budget c index self slots s next s' failed q :
  slots !! index = Some self -> handle_rx self c s = TailCall next self s' failed -> slots !! next = Some q ->
  run (S budget) c index self slots s = run budget c next q slots s'.
Proof using Type.
  intros Hs E Hq. pose proof (insert_id slots index self Hs) as Hid.
  rewrite (run_call budget c index self slots s next self s' failed q E); by rewrite Hid.
Qed.

(** What happens to a packet that is let through. *)
Definition deliver (mode : Z) (c : ctx) (s : dp) : verdict * dp :=
  if mode =? 0 then (RX_OK, s) else
  match ct_update (c_timestamp c) (d_connections s) (d_frame s) (d_pkt s) with
  | None => (RX_DROP, s)
  | Some (connections, pkt) => (RX_OK, set_connections connections (set_pkt pkt s))
  end.

Lemma run_deliver budget c mode slots s :
  slots !! Modules.CONNTRACKTABLEUPDATE = Some (ConntrackTableUpdate mode) ->
  run budget c Modules.CONNTRACKTABLEUPDATE (ConntrackTableUpdate mode) slots s
  = ((deliver mode c s).1, slots, (deliver mode c s).2).
Proof using Type.
  intros Hs. assert (handle_rx (ConntrackTableUpdate mode) c s =
    Return (deliver mode c s).1 (ConntrackTableUpdate mode) (deliver mode c s).2) as E.
  { simpl. unfold conntrack_table_update_rx, deliver. destruct (mode =? 0); [done|].
    by destruct (ct_update _ _ _ _) as [[]|]. }
  erewrite run_return by done. by rewrite insert_id.
Qed.

Lemma deliver_same mode c s s' :
  same_packet s s' ->
  (deliver mode c s').1 = (deliver mode c s).1 /\ same_packet (deliver mode c s).2 (deliver mode c s').2.
Proof using Type.
  intros (Hf & Hp & Hc). unfold deliver. rewrite Hf, Hp, Hc. destruct (mode =? 0); [by repeat split|].
  destruct (ct_update _ _ _ _) as [[]|]; repeat split; simpl; done.
Qed.
End running.

Section chain_run.
Context `{Tables ct_k ct_v} (rules : list ChainRule) (Hwf : wf_rules rules) (Hne : rules ≠ []).
Context (nr : Z) (Hnr : nr = FROM_NRULES_TO_NELEMENTS (Z.of_nat (length rules))).
Context (acts : intsT) (pk by_ : rowsT) (dflt : ActionEnum) (dpk dby : rowsT) (mode : Z) (t64 : intsT).
Context (slots : gmap Z program) (c : ctx).

(** The tail of a chain: modules from [i0] on, then the bit scan and the actions. *)
Record chain_slots (i0 : Z) (l : list (field * program)) : Prop := {
  cs_stages j f p : l !! j = Some (f, p) ->
    slots !! (i0 + Z.of_nat j) = Some p /\ stage_ok rules nr f (i0 + Z.of_nat j + 1) p;
  cs_bitscan : slots !! (i0 + Z.of_nat (length l)) = Some (BitScan nr (i0 + Z.of_nat (length l) + 1) t64);
  cs_action : slots !! (i0 + Z.of_nat (length l) + 1) = Some (ActionLookup nr acts pk by_);
  cs_default : slots !! Modules.DEFAULTACTION = Some (DefaultAction dflt dpk dby);
  cs_update : slots !! Modules.CONNTRACKTABLEUPDATE = Some (ConntrackTableUpdate mode);
  cs_index64 k w : index64 !! Z.to_nat k = Some w -> 0 <= k < 64 -> a_lookup t64 k = Some w;
  cs_actions i r : rules !! i = Some r ->
    exists z, ActionEnum_to_int (default DROP (action r)) = Ok z /\ a_lookup acts (Z.of_nat i) = Some z;
  cs_far : 4 < i0;
}.

Definition finish (act : ActionEnum) (s : dp) : verdict * dp :=
  match act with DROP => (RX_DROP, s) | _ => deliver mode c s end.

(** The counters of the rule that matched, or of the default action, go up. *)
Definition counted (ia : Z) (found : option (nat * ChainRule)) : gmap Z program :=
  match found with
  | Some (i, _) =>
      <[ia := ActionLookup nr acts (pc_add pk (c_cpu c) (Z.of_nat i) 1) (pc_add by_ (c_cpu c) (Z.of_nat i) (c_len c))]> slots
  | None =>
      <[Modules.DEFAULTACTION := DefaultAction dflt (pc_add dpk (c_cpu c) 0 1) (pc_add dby (c_cpu c) 0 (c_len c))]> slots
  end.

Definition outcome (found : option (nat * ChainRule)) : ActionEnum :=
  match found with Some (_, r) => default DROP (action r) | None => dflt end.

(** The result of a run from a state that has the packet of [s]. *)
Definition ends (ia : Z) (found : option (nat * ChainRule)) (s : dp) (r : verdict * gmap Z program * dp) : Prop :=
  r.1 = ((finish (outcome found) s).1, counted ia found) /\ same_packet (finish (outcome found) s).2 r.2.

Lemma finish_same act s s' :
  same_packet s s' -> (finish act s').1 = (finish act s).1 /\ same_packet (finish act s).2 (finish act s').2.
Proof using Type. intros Hs. destruct act; [by split|by apply deliver_same..]. Qed.

Lemma run_default budget ia s :
  slots !! Modules.DEFAULTACTION = Some (DefaultAction dflt dpk dby) ->
  slots !! Modules.CONNTRACKTABLEUPDATE = Some (ConntrackTableUpdate mode) ->
  ends ia None s (run (S budget) c Modules.DEFAULTACTION (DefaultAction dflt dpk dby) slots s).
Proof using Type.
  intros H3 H4. unfold ends. cbn [outcome counted].
  destruct dflt eqn:Ed.
  - erewrite run_return by reflexivity. by repeat split.
  - erewrite run_call; [|reflexivity|by rewrite lookup_insert_ne].
    rewrite run_deliver by (by rewrite lookup_insert_ne). split; [done|]. by repeat split.
  - erewrite run_call; [|reflexivity|by rewrite lookup_insert_ne].
    rewrite run_deliver by (by rewrite lookup_insert_ne). split; [done|]. by repeat split.
Qed.

Lemma run_action budget ia i r s :
  slots !! ia = Some (ActionLookup nr acts pk by_) -> 4 < ia -> (0 <? nr) = true ->
  slots !! Modules.CONNTRACKTABLEUPDATE = Some (ConntrackTableUpdate mode) ->
  nth 0 (d_bits s) 0 = Z.of_nat i ->
  (exists z, ActionEnum_to_int (default DROP (action r)) = Ok z /\ a_lookup acts (Z.of_nat i) = Some z) ->
  ends ia (Some (i, r)) s (run (S budget) c ia (ActionLookup nr acts pk by_) slots s).
Proof using Type.
  intros Ha Hia Hpos H4 Hi (z & Hz & Hl). unfold ends. cbn [outcome counted].
  assert (handle_rx (ActionLookup nr acts pk by_) c s =
    let self := ActionLookup nr acts (pc_add pk (c_cpu c) (Z.of_nat i) 1) (pc_add by_ (c_cpu c) (Z.of_nat i) (c_len c)) in
    if z =? 0 then Return RX_DROP self s
    else if z =? 1 then call Modules.CONNTRACKTABLEUPDATE self s else Return RX_DROP self s) as Eh.
  { simpl. unfold action_lookup_rx. by rewrite Hpos, Hi, Hl. }
  destruct (default DROP (action r)); simpl in Hz; try done; injection Hz as <-; simpl in Eh.
  - erewrite run_return by done. by repeat split.
  - erewrite run_call; [|done|rewrite lookup_insert_ne; [done|unfold Modules.CONNTRACKTABLEUPDATE; lia]].
    rewrite run_deliver by (rewrite lookup_insert_ne; [done|unfold Modules.CONNTRACKTABLEUPDATE; lia]).
    split; [done|]. by repeat split.
Qed.

(** The bit scan finds the first rule left. *)
Lemma first_rule P junk v i :
  holds rules nr P junk v -> lowest_below v (63 * nr) i ->
  exists r, rules !! Z.to_nat i = Some r /\ list_find (fun r => P r = true) rules = Some (Z.to_nat i, r).
Proof using Hwf Hne Hnr.
  intros (Hl & Hw & Hb & Hj) (Hi & Hbit & Hlow).
  destruct (nr_bounds rules nr Hnr (wfr_len rules Hwf)) as (_ & Hn & _).
  pose proof (Hb i ltac:(lia)) as Hbi. rewrite Hbit in Hbi.
  destruct (rules !! Z.to_nat i) as [r|] eqn:E.
  - exists r. split; [done|]. apply list_find_first; [done..|]. intros j y Hy Hlt.
    specialize (Hlow (Z.of_nat j) ltac:(lia)). rewrite Hb, Nat2Z.id, Hy in Hlow by lia. done.
  - exfalso. symmetry in Hbi. apply lookup_ge_None in E.
    destruct rules as [|r0 rs] eqn:Er; [done|]. rewrite <- Er in *.
    specialize (Hlow 0). specialize (Hb 0). simpl in E, Hn.
    assert (bit v 0 = true) as H0.
    { rewrite Hb by lia. rewrite Er. simpl. apply Hj; [done|]. rewrite Er. by left. }
    rewrite Hlow in H0; [done|]. rewrite Er in E. simpl in E. lia.
Qed.

Lemma run_chain l i0 P junk s budget p0 :
  chain_slots i0 l -> wf_pkt (d_pkt s) -> holds rules nr P junk (d_bits s) ->
  (length l + 2 <= budget)%nat -> slots !! i0 = Some p0 ->
  ends (i0 + Z.of_nat (length l) + 1)
    (list_find (fun r => P r && forallb (fun f => field_accepts f (d_pkt s) r) l.*1 = true) rules) s
    (run budget c i0 p0 slots s).
Proof using Hwf Hne Hnr.
  revert i0 P junk s budget p0. induction l as [|[f p] l IH]; intros i0 P junk s budget p0 Hcs Hp Hh Hbud Hp0.
  - rewrite (list_find_ext _ (fun r => P r = true)) by (intros; simpl; by rewrite andb_true_r).
    pose proof (cs_bitscan _ _ Hcs) as Hbs. pose proof (cs_action _ _ Hcs) as Hac.
    pose proof (cs_default _ _ Hcs) as Hd. pose proof (cs_update _ _ Hcs) as Hu. pose proof (cs_far _ _ Hcs).
    simpl length in *. rewrite Z.add_0_r in *. rewrite Hp0 in Hbs. injection Hbs as ->.
    destruct budget as [|[|budget]]; [lia..|].
    pose proof Hh as (Hlen & Hw & Hb & Hj).
    destruct (nr_bounds rules nr Hnr (wfr_len rules Hwf)) as (Hn1 & Hn2 & Hn3). specialize (Hn3 Hne).
    destruct (bitscan_words_spec (i0 + 1) t64 (cs_index64 _ _ Hcs) (Z.to_nat nr) 0 (BitScan nr (i0 + 1) t64) s)
      as [(k & fl & Hk & Hr)|[Hall Hr]]; [done|exact Hw|intros; lia|..].
    + rewrite Z2Nat.id, Z.add_0_l in Hk by lia.
      destruct (first_rule _ _ _ _ Hh Hk) as (r & Hr' & ->).
      erewrite run_call_same; [|done|exact Hr|done].
      pose proof (run_action budget (i0 + 1) (Z.to_nat k) r (set_bits (<[0%nat := k]> (d_bits s)) s)) as Ha.
      destruct Ha as [Ha1 Ha2]; [done|lia|lia|done| |by apply (cs_actions _ _ Hcs)|].
      { simpl. destruct (d_bits s); [done|]. simpl. destruct Hk. lia. }
      assert (same_packet s (set_bits (<[0%nat := k]> (d_bits s)) s)) as Hsp by done.
      destruct (finish_same (default DROP (action r)) _ _ Hsp) as [E1 (E2 & E3 & E4)].
      destruct Ha2 as (F2 & F3 & F4). split; [rewrite Ha1; cbn [outcome]; by rewrite E1|].
      cbn [outcome] in *. split; [congruence|]. split; congruence.
    + rewrite Z2Nat.id, Z.add_0_l in Hall by lia.
      rewrite list_find_none.
      2:{ intros r [k Hk]%list_elem_of_lookup. apply lookup_lt_Some in Hk as Hlt.
          specialize (Hall (Z.of_nat k) ltac:(lia)). rewrite Hb, Nat2Z.id, Hk in Hall by lia. done. }
      erewrite run_call_same; [|done|exact Hr|done]. by apply run_default.
  - destruct (cs_stages _ _ Hcs 0%nat f p eq_refl) as [Hs Hok]. simpl Z.of_nat in *. rewrite Z.add_0_r in *.
    rewrite Hp0 in Hs. injection Hs as ->.
    destruct budget as [|budget]; [simpl in Hbud; lia|].
    assert (chain_slots (i0 + 1) l) as Hcs'.
    { pose proof (cs_far _ _ Hcs).
      assert (forall n, i0 + 1 + Z.of_nat n = i0 + Z.of_nat (S n)) as En by lia.
      split; try apply Hcs; rewrite ?En; [|apply (cs_bitscan _ _ Hcs)|apply (cs_action _ _ Hcs)|lia].
      intros j g q Hj. rewrite En. by apply (cs_stages _ _ Hcs (S j)). }
    destruct (Hok c s P junk Hp Hh) as (s' & Hsp & [[Hr (junk' & Hh')]|[Hr Hnone]]).
    + assert (exists q, slots !! (i0 + 1) = Some q) as [q Hq].
      { destruct l as [|[g q] l]; [|].
        - pose proof (cs_bitscan _ _ Hcs') as Hb. simpl in Hb. rewrite Z.add_0_r in Hb. eauto.
        - destruct (cs_stages _ _ Hcs' 0%nat g q eq_refl) as [Hb _]. simpl in Hb. rewrite Z.add_0_r in Hb. eauto. }
      erewrite run_call_same; [|done|exact Hr|exact Hq].
      destruct Hsp as (Ef & Ep & Ec).
      specialize (IH (i0 + 1) _ _ s' budget q Hcs' ltac:(by rewrite Ep) Hh' ltac:(simpl in Hbud; lia) Hq).
      rewrite Ep in IH.
      rewrite (list_find_ext _ (fun r => P r && field_accepts f (d_pkt s) r &&
        forallb (fun f => field_accepts f (d_pkt s) r) l.*1 = true)) by (intros; simpl; by rewrite andb_assoc).
      set (found := list_find _ rules) in *.
      destruct IH as [I1 (I2 & I3 & I4)].
      destruct (finish_same (outcome found) s s' ltac:(done)) as [E1 (E2 & E3 & E4)].
      split; [rewrite I1, E1; do 2 f_equal; simpl; lia|]. split; [congruence|]. split; congruence.
    + rewrite list_find_none.
      2:{ intros r Hin. simpl. by rewrite andb_assoc, (Hnone r Hin). }
      erewrite run_call_same; [|done|exact Hr|apply (cs_default _ _ Hcs)].
      destruct budget as [|budget]; [simpl in Hbud; lia|].
      destruct (run_default budget (i0 + Z.of_nat (length ((f, p) :: l)) + 1) s' (cs_default _ _ Hcs) (cs_update _ _ Hcs))
        as [I1 (I2 & I3 & I4)].
      destruct (finish_same (outcome None) s s' Hsp) as [E1 (E2 & E3 & E4)].
      split; [by rewrite I1, E1|]. split; [congruence|]. split; congruence.
Qed.
End chain_run.
