(* ===== verification/FwModules.v ===== *)
(** pcn-firewall, the module objects (Firewall.h and modules/*.cpp): each owns
    one program of the program array.  Its getCode computes the macro values
    from the state of the firewall at the time the code is loaded or reloaded,
    updateMap fills the program's tables, and the counters are read and reset
    through the tables too. *)
From Stdlib Require Import ZArith Lia.
From stdpp Require Import base gmap sets list strings numbers.
From S2P Require Import Prelude.
From S2P Require Import Bpf.
From S2P Require Import NetUtils.
From S2P Require Import FwRule.
From S2P Require Import FwBits.
From S2P Require Import FwMaps.
From S2P Require Import Frame.
From S2P Require Import FwConntrack.
From S2P Require Import FwDatapath.
#[local] Open Scope Z_scope.
#[local] Open Scope cpp_scope.

(** ** Horus tables (defines.h) *)
Record HorusRule := {
  h_src_ip : Z; h_dst_ip : Z; h_l4proto : Z; h_src_port : Z; h_dst_port : Z; h_setFields : Z;
}.
Record HorusValue := { h_action : Z; h_ruleID : Z }.

(** The comparison leaves [setFields] out. *)
Definition HorusRule_ltb (a b : HorusRule) : bool :=
  if negb (h_src_ip a =? h_src_ip b) then h_src_ip a <? h_src_ip b
  else if negb (h_dst_ip a =? h_dst_ip b) then h_dst_ip a <? h_dst_ip b
  else if negb (h_l4proto a =? h_l4proto b) then h_l4proto a <? h_l4proto b
  else if negb (h_src_port a =? h_src_port b) then h_src_port a <? h_src_port b
  else if negb (h_dst_port a =? h_dst_port b) then h_dst_port a <? h_dst_port b
  else false.

Definition horus_fields (r : HorusRule) : Z * Z * Z * Z * Z :=
  (h_src_ip r, h_dst_ip r, h_l4proto r, h_src_port r, h_dst_port r).

#[export] Instance HorusRule_key_order : StdMap.KeyOrder HorusRule_ltb horus_fields.
Proof.
  intros a b. unfold StdMap.equivb, HorusRule_ltb, horus_fields. split.
  - intros E. repeat match goal with
    | H : context [?x =? ?y] |- _ => destruct (Z.eqb_spec x y); cbn [negb andb] in H
    end; try congruence; lia.
  - intros [= -> -> -> -> ->]. by rewrite !Z.eqb_refl.
Qed.

Definition horus_map : Type := list (HorusRule * HorusValue).

(** ** Modules *)
Inductive ConntrackMode := DISABLED | MANUAL | AUTOMATIC.
#[export] Instance conntrack_mode_eq_dec : EqDecision ConntrackMode.
Proof. solve_decision. Defined.
Definition conntrackMode_uint8 (m : ConntrackMode) : Z :=
  match m with DISABLED => 0 | MANUAL => 1 | AUTOMATIC => 2 end.

(** The subclass of Firewall::Program, with what its constructor keeps. *)
Inductive kind :=
  | KParser
  | KConntrackLabel
  | KChainForwarder
  | KDefaultAction
  | KConntrackTableUpdate
  | KHorus (horus_ : horus_map)
  | KConntrackMatch
  | KIpLookup (type : Z)
  | KL4ProtocolLookup
  | KL4PortLookup (type : Z) (wildcard : option (list Z))
  | KTcpFlagsLookup
  | KBitScan
  | KActionLookup.

(** [m_hop] is the index of the program that [updateHop] stored; only the chain
    forwarder has one. *)
Record module := { m_kind : kind; m_index : Z; m_hop : option Z }.

Record ChainStats := { st_id : Z; st_pkts : Z; st_bytes : Z; st_action : option ActionEnum; st_description : option string }.

Section modules.
Context `{Inet} `{Tables ct_k ct_v}.

(** One direction of the firewall: its chain, its modules and its programs. *)
Record side := Side {
  name : ChainNameEnum;
  defaultAction : ActionEnum;
  rules_ : list (option ChainRule);
  counters_ : list (option ChainStats);
  is_single_op_on_chain : bool;
  chainNumber : Z;
  programs : list (option module);
  horus_runtime_enabled : bool;
  horus_swap : bool;
  slots : gmap Z program;
}.

(** What a chain reads of the rest of the firewall. *)
Record config := Config { conntrackMode : ConntrackMode; horus_enabled : bool; n_cpus : nat }.

Definition set_default (v : ActionEnum) (s : side) : side :=
  Side (name s) v (rules_ s) (counters_ s) (is_single_op_on_chain s) (chainNumber s) (programs s)
    (horus_runtime_enabled s) (horus_swap s) (slots s).
Definition set_rules (v : list (option ChainRule)) (s : side) : side :=
  Side (name s) (defaultAction s) v (counters_ s) (is_single_op_on_chain s) (chainNumber s) (programs s)
    (horus_runtime_enabled s) (horus_swap s) (slots s).
Definition set_counters (v : list (option ChainStats)) (s : side) : side :=
  Side (name s) (defaultAction s) (rules_ s) v (is_single_op_on_chain s) (chainNumber s) (programs s)
    (horus_runtime_enabled s) (horus_swap s) (slots s).
Definition set_single (v : bool) (s : side) : side :=
  Side (name s) (defaultAction s) (rules_ s) (counters_ s) v (chainNumber s) (programs s)
    (horus_runtime_enabled s) (horus_swap s) (slots s).
Definition set_chainNumber (v : Z) (s : side) : side :=
  Side (name s) (defaultAction s) (rules_ s) (counters_ s) (is_single_op_on_chain s) v (programs s)
    (horus_runtime_enabled s) (horus_swap s) (slots s).
Definition set_programs (v : list (option module)) (s : side) : side :=
  Side (name s) (defaultAction s) (rules_ s) (counters_ s) (is_single_op_on_chain s) (chainNumber s) v
    (horus_runtime_enabled s) (horus_swap s) (slots s).
Definition set_horus_runtime (v : bool) (s : side) : side :=
  Side (name s) (defaultAction s) (rules_ s) (counters_ s) (is_single_op_on_chain s) (chainNumber s) (programs s)
    v (horus_swap s) (slots s).
Definition set_horus_swap (v : bool) (s : side) : side :=
  Side (name s) (defaultAction s) (rules_ s) (counters_ s) (is_single_op_on_chain s) (chainNumber s) (programs s)
    (horus_runtime_enabled s) v (slots s).
Definition set_slots (v : gmap Z program) (s : side) : side :=
  Side (name s) (defaultAction s) (rules_ s) (counters_ s) (is_single_op_on_chain s) (chainNumber s) (programs s)
    (horus_runtime_enabled s) (horus_swap s) v.

Definition getNrRules (s : side) : Z := Z.of_nat (length (rules_ s)).
Definition nr_elements (s : side) : Z := FROM_NRULES_TO_NELEMENTS (getNrRules s).

(** ** getCode: the program with its macros replaced and its tables empty *)
Definition no_bits : list Z := new_bitvector.
Definition cpu_zeros (cfg : config) : list Z := replicate (n_cpus cfg) 0.

Definition parser_code (cfg : config) (s : side) : program :=
  Parser (nr_elements s)
    (if horus_runtime_enabled s
     then Some (if horus_swap s then Modules.HORUS_INGRESS_SWAP else Modules.HORUS_INGRESS) else None)
    (negb (bool_decide (conntrackMode cfg = DISABLED))).

Definition conntrack_label_code (cfg : config) : program := ConntrackLabel (conntrackMode_uint8 (conntrackMode cfg)).
Definition conntrack_table_update_code (cfg : config) : program :=
  ConntrackTableUpdate (conntrackMode_uint8 (conntrackMode cfg)).

(** Before the first chain the forwarder's hop is itself. *)
Definition chain_forwarder_code (s : side) (m : module) : program :=
  ChainForwarder (nr_elements s) (default (m_index m) (m_hop m)).

Definition default_action_code (cfg : config) (s : side) : program :=
  DefaultAction (defaultAction s) (a_new 1 (cpu_zeros cfg)) (a_new 1 (cpu_zeros cfg)).

(** The fields of the first key decide the layout of the key. *)
Definition horus_code (cfg : config) (h : horus_map) : program :=
  let setFields := match h with (k, _) :: _ => h_setFields k | [] => 0 end in
  Horus setFields (negb (bool_decide (conntrackMode cfg = DISABLED)))
    (h_new HorusConst.MAX_RULE_SIZE_FOR_HORUS)
    (a_new HorusConst.MAX_RULE_SIZE_FOR_HORUS (cpu_zeros cfg))
    (a_new HorusConst.MAX_RULE_SIZE_FOR_HORUS (cpu_zeros cfg)).

Definition conntrack_match_code (s : side) (m : module) : program :=
  ConntrackMatch (nr_elements s) (m_index m + 1) (a_new 4 no_bits).
Definition ip_lookup_code (s : side) (m : module) (type : Z) : program :=
  IpLookup type (nr_elements s) (m_index m + 1) (l_new 1024).
Definition l4_protocol_lookup_code (s : side) (m : module) : program :=
  L4ProtocolLookup (nr_elements s) (m_index m + 1) (h_new 10240).
Definition l4_port_lookup_code (s : side) (m : module) (type : Z) (wildcard : option (list Z)) : program :=
  L4PortLookup type (nr_elements s) (m_index m + 1) wildcard (h_new 10240).
Definition tcp_flags_lookup_code (s : side) (m : module) : program :=
  TcpFlagsLookup (nr_elements s) (m_index m + 1) (a_new 256 no_bits).
Definition bitscan_code (s : side) (m : module) : program :=
  BitScan (nr_elements s) (m_index m + 1) (a_new 64 0).
Definition action_lookup_code (cfg : config) (s : side) : program :=
  ActionLookup (nr_elements s) (a_new 10000 0) (a_new 8000 (cpu_zeros cfg)) (a_new 8000 (cpu_zeros cfg)).

Definition getCode (cfg : config) (s : side) (m : module) : program :=
  match m_kind m with
  | KParser => parser_code cfg s
  | KConntrackLabel => conntrack_label_code cfg
  | KChainForwarder => chain_forwarder_code s m
  | KDefaultAction => default_action_code cfg s
  | KConntrackTableUpdate => conntrack_table_update_code cfg
  | KHorus h => horus_code cfg h
  | KConntrackMatch => conntrack_match_code s m
  | KIpLookup type => ip_lookup_code s m type
  | KL4ProtocolLookup => l4_protocol_lookup_code s m
  | KL4PortLookup type w => l4_port_lookup_code s m type w
  | KTcpFlagsLookup => tcp_flags_lookup_code s m
  | KBitScan => bitscan_code s m
  | KActionLookup => action_lookup_code cfg s
  end.

(** A reloaded program takes over the tables of the one it replaces. *)
Definition steal_tables (old new : program) : program :=
  match old, new with
  | DefaultAction _ pkts bytes, DefaultAction a _ _ => DefaultAction a pkts bytes
  | Horus _ _ t pkts bytes, Horus f c _ _ _ => Horus f c t pkts bytes
  | ConntrackMatch _ _ t, ConntrackMatch nr n _ => ConntrackMatch nr n t
  | IpLookup _ _ _ t, IpLookup ty nr n _ => IpLookup ty nr n t
  | L4ProtocolLookup _ _ t, L4ProtocolLookup nr n _ => L4ProtocolLookup nr n t
  | L4PortLookup _ _ _ _ t, L4PortLookup ty nr n w _ => L4PortLookup ty nr n w t
  | TcpFlagsLookup _ _ t, TcpFlagsLookup nr n _ => TcpFlagsLookup nr n t
  | BitScan _ _ t, BitScan nr n _ => BitScan nr n t
  | ActionLookup _ a pkts bytes, ActionLookup nr _ _ _ => ActionLookup nr a pkts bytes
  | _, _ => new
  end.

(** ** Loading (Program.cpp; the exceptions are those of BaseCube) *)
(** [add_program] throws when the slot is taken, and [load] swallows that. *)
Definition load (cfg : config) (m : module) (s : side) : side :=
  match slots s !! m_index m with
  | Some _ => s
  | None => set_slots (<[m_index m := getCode cfg s m]> (slots s)) s
  end.

Definition reload (cfg : config) (m : module) (s : side) : side :=
  match slots s !! m_index m with
  | Some old => set_slots (<[m_index m := steal_tables old (getCode cfg s m)]> (slots s)) s
  | None => s
  end.

(** [~Program]: [del_program] of an empty slot throws, out of a destructor. *)
Definition delete_module (m : module) : M side unit :=
  s <-- get ;;
  match slots s !! m_index m with
  | Some _ => modify (set_slots (delete (m_index m) (slots s)))
  | None => undefined
  end.

(** ** Tables: [f] is what is done with the program that holds the table *)
Definition with_program (index : Z) (f : program -> res program) : M side unit :=
  s <-- get ;;
  match slots s !! index with
  | Some p => p' <-- lift (f p) ;; modify (set_slots (<[index := p']> (slots s)))
  | None => throw (RuntimeError "ebpf does not exist")
  end.

Definition no_table {A} : res A := Throw (RuntimeError "table does not exist").
Definition set_entry {A B} (f : A -> B) (o : option A) : res B :=
  match o with Some a => Ok (f a) | None => Throw (table_error "set" E2BIG) end.

(** [try { m } catch (...) { return false; }] of the updateTableValue methods *)
Definition swallow (m : M side unit) : M side unit := try_catch (fun _ => true) m (ret tt).

Definition conntrack_match_updateTableValue (m : module) (status : Z) (value : list Z) : M side unit :=
  swallow (with_program (m_index m) (fun p =>
    match p with
    | ConntrackMatch nr n t => set_entry (ConntrackMatch nr n) (a_update t status value)
    | _ => no_table
    end)).
Definition ip_lookup_updateTableValue (m : module) (a : IpAddr) (value : list Z) : M side unit :=
  with_program (m_index m) (fun p =>
    match p with
    | IpLookup ty nr n t => set_entry (IpLookup ty nr n) (l_update t (netmask a) (ip a) value)
    | _ => no_table
    end).
Definition l4_protocol_lookup_updateTableValue (m : module) (proto : Z) (value : list Z) : M side unit :=
  swallow (with_program (m_index m) (fun p =>
    match p with
    | L4ProtocolLookup nr n t => set_entry (L4ProtocolLookup nr n) (h_update t (u8 proto) value)
    | _ => no_table
    end)).
Definition l4_port_lookup_updateTableValue (m : module) (port : Z) (value : list Z) : M side unit :=
  swallow (with_program (m_index m) (fun p =>
    match p with
    | L4PortLookup ty nr n w t => set_entry (L4PortLookup ty nr n w) (h_update t port value)
    | _ => no_table
    end)).
Definition tcp_flags_lookup_updateTableValue (m : module) (flagMask : Z) (value : list Z) : M side unit :=
  swallow (with_program (m_index m) (fun p =>
    match p with
    | TcpFlagsLookup nr n t => set_entry (TcpFlagsLookup nr n) (a_update t flagMask value)
    | _ => no_table
    end)).
Definition action_lookup_updateTableValue (m : module) (rule action : Z) : M side unit :=
  swallow (with_program (m_index m) (fun p =>
    match p with
    | ActionLookup nr a pk by_ => set_entry (fun a => ActionLookup nr a pk by_) (a_update a rule action)
    | _ => no_table
    end)).
Definition bitscan_loadIndex64 (m : module) : M side unit :=
  for_each (imap (fun i v => (Z.of_nat i, v)) index64) (fun '(i, v) =>
    with_program (m_index m) (fun p =>
      match p with
      | BitScan nr n t => set_entry (BitScan nr n) (a_update t i v)
      | _ => no_table
      end)).

Definition conntrack_match_updateMap (m : module) (status : key_map) : M side unit :=
  for_each status (fun ele => conntrack_match_updateTableValue m ele.1 ele.2).
Definition ip_lookup_updateMap (m : module) (ips : ip_map) : M side unit :=
  for_each ips (fun ele => ip_lookup_updateTableValue m ele.1 ele.2).
Definition l4_protocol_lookup_updateMap (m : module) (protocols : key_map) : M side unit :=
  for_each protocols (fun ele => l4_protocol_lookup_updateTableValue m ele.1 ele.2).
(** The packet's ports are in network byte order. *)
Definition l4_port_lookup_updateMap (m : module) (ports : key_map) : M side unit :=
  for_each ports (fun ele => l4_port_lookup_updateTableValue m (bswap16 ele.1) ele.2).
Definition tcp_flags_lookup_updateMap (m : module) (flags : list (list Z)) : M side unit :=
  for_each (imap (fun i v => (Z.of_nat i, v)) flags) (fun ele => tcp_flags_lookup_updateTableValue m ele.1 ele.2).

(** Horus: the raw key is packed the way the datapath packs it. *)
Definition horus_key_data (k : HorusRule) : list Z :=
  horus_key (h_setFields k) (h_src_ip k) (h_dst_ip k) (bswap16 (h_src_port k)) (bswap16 (h_dst_port k)) (h_l4proto k).
Definition horus_updateTableValue (m : module) (k : HorusRule) (v : HorusValue) : M side unit :=
  with_program (m_index m) (fun p =>
    match p with
    | Horus f c t pk by_ => set_entry (fun t => Horus f c t pk by_) (h_update t (horus_key_data k) (h_action v, h_ruleID v))
    | _ => no_table
    end).
Definition horus_updateMap (m : module) (horus : horus_map) : M side unit :=
  for_each horus (fun ele => horus_updateTableValue m ele.1 ele.2).

(** ** Counters *)
Definition counter_tables (p : program) : option (rowsT * rowsT) :=
  match p with
  | DefaultAction _ pk by_ => Some (pk, by_)
  | ActionLookup _ _ pk by_ => Some (pk, by_)
  | Horus _ _ _ pk by_ => Some (pk, by_)
  | _ => None
  end.
Definition with_counters (p : program) (pk by_ : rowsT) : program :=
  match p with
  | DefaultAction a _ _ => DefaultAction a pk by_
  | ActionLookup nr a _ _ => ActionLookup nr a pk by_
  | Horus f c t _ _ => Horus f c t pk by_
  | p => p
  end.

(** Every exception becomes this one. *)
Definition counter_error : exn := RuntimeError "Counter not available.".
Definition get_count (which : rowsT * rowsT -> rowsT) (m : module) (rule : Z) : M side Z :=
  s <-- get ;;
  match (slots s !! m_index m) ≫= counter_tables with
  | Some t => match pc_sum (which t) rule with Ok v => ret v | _ => throw counter_error end
  | None => throw counter_error
  end.
Definition getPktsCount (m : module) (rule : Z) : M side Z := get_count fst m rule.
Definition getBytesCount (m : module) (rule : Z) : M side Z := get_count snd m rule.

Definition flushCounters (m : module) (rule : Z) : M side unit :=
  s <-- get ;;
  match slots s !! m_index m with
  | Some p =>
      match counter_tables p with
      | Some (pk, by_) =>
          match pc_reset pk rule with
          | Ok pk =>
              modify (set_slots (<[m_index m := with_counters p pk by_]> (slots s))) ;;;
              match pc_reset by_ rule with
              | Ok by_ => modify (set_slots (<[m_index m := with_counters p pk by_]> (slots s)))
              | _ => throw (RuntimeError "Counters not available: ")
              end
          | _ => throw (RuntimeError "Counters not available: ")
          end
      | None => throw (RuntimeError "Counters not available: ")
      end
  | None => throw (RuntimeError "Counters not available: ")
  end.
End modules.
