(* ===== verification/FwChain.v ===== *)
(** pcn-firewall, the chain (Chain.cpp, ChainStats.cpp) and the firewall around
    its two chains (Firewall.cpp).  Every operation is a method on one direction
    of the firewall; [updateChain] compiles the rules into a second set of
    programs and switches to it. *)
From Stdlib Require Import ZArith Lia Ascii String.
From stdpp Require Import base gmap sets list strings numbers.
From S2P Require Import Prelude.
From S2P Require Import Bpf.
From S2P Require Import NetUtils.
From S2P Require Import FwRule.
From S2P Require Import FwBits.
From S2P Require Import FwMaps.
From S2P Require Import Frame.
From S2P Require Import FwConntrack.
From S2P Require Import FwDatapath.
From S2P Require Import FwModules.
#[local] Open Scope Z_scope.
#[local] Open Scope cpp_scope.

Inductive OperationEnum := INSERT | APPEND | UPDATE | DELETE.
#[export] Instance operation_eq_dec : EqDecision OperationEnum.
Proof. solve_decision. Defined.

Section chain.
Context `{Inet} `{Tables ct_k ct_v}.
(** The rest of the firewall, and what an uninitialised [HorusRule] holds. *)
Context (cfg : config) (key0 : HorusRule).

Definition isContrackActive : bool :=
  bool_decide (conntrackMode cfg = AUTOMATIC) || bool_decide (conntrackMode cfg = MANUAL).

(** ** Modules of the chain *)
Definition program_at (i : Z) : M side (option module) :=
  s <-- get ;; match programs s !! Z.to_nat i with Some o => ret o | None => throw OutOfRange end.
Definition set_program_at (i : Z) (o : option module) : M side unit :=
  s <-- get ;;
  match programs s !! Z.to_nat i with
  | Some _ => modify (set_programs (<[Z.to_nat i := o]> (programs s)))
  | None => throw OutOfRange
  end.
Definition reload_at (i : Z) : M side unit :=
  o <-- program_at i ;; m <-- lift (deref o) ;; modify (reload cfg m).
(** [delete p]: deleting a null pointer does nothing. *)
Definition delete_ptr (o : option module) : M side unit :=
  match o with Some m => delete_module m | None => ret tt end.

(** ** The Horus optimisation (Utils.cpp) *)
(** [try { rule's field; SET_BIT(key.setFields, i); key.field = ...; } catch (std::runtime_error) {}] *)
Definition set_h_field (i : Z) (set : Z -> HorusRule -> HorusRule) (r : res (option Z)) (key : HorusRule)
    : res HorusRule :=
  o <~ try_runtime r ;;
  match o with
  | Some (Some v) =>
      let k := set v key in
      Ok {| h_src_ip := h_src_ip k; h_dst_ip := h_dst_ip k; h_l4proto := h_l4proto k; h_src_port := h_src_port k;
            h_dst_port := h_dst_port k; h_setFields := SET_BIT (h_setFields key) i |}
  | _ => Ok key
  end.

Definition exact_ip (current : IpAddr) (r : res string) : res (option Z) :=
  s <~ r ;; a <~ IpAddr_fromString current s ;; Ok (if netmask a =? 32 then Some (ip a) else None).

Definition fromRuleToHorusKeyValue (rule : ChainRule) (key : HorusRule) : res (option (HorusRule * HorusValue)) :=
  let key := {| h_src_ip := h_src_ip key; h_dst_ip := h_dst_ip key; h_l4proto := h_l4proto key;
                h_src_port := h_src_port key; h_dst_port := h_dst_port key; h_setFields := 0 |} in
  c <~ try_runtime (getConntrack rule) ;;
  match c with
  | Some _ => Ok None
  | None =>
      key <~ set_h_field HorusConst.SRCIP (fun v k =>
        {| h_src_ip := v; h_dst_ip := h_dst_ip k; h_l4proto := h_l4proto k; h_src_port := h_src_port k;
           h_dst_port := h_dst_port k; h_setFields := h_setFields k |}) (exact_ip unset_ip (getSrc rule)) key ;;
      key <~ set_h_field HorusConst.DSTIP (fun v k =>
        {| h_src_ip := h_src_ip k; h_dst_ip := v; h_l4proto := h_l4proto k; h_src_port := h_src_port k;
           h_dst_port := h_dst_port k; h_setFields := h_setFields k |}) (exact_ip unset_ip (getDst rule)) key ;;
      key <~ set_h_field HorusConst.L4PROTO (fun v k =>
        {| h_src_ip := h_src_ip k; h_dst_ip := h_dst_ip k; h_l4proto := v; h_src_port := h_src_port k;
           h_dst_port := h_dst_port k; h_setFields := h_setFields k |})
        (s <~ getL4proto rule ;; p <~ protocol_from_string_to_int s ;; Ok (Some (u8 p))) key ;;
      key <~ set_h_field HorusConst.SRCPORT (fun v k =>
        {| h_src_ip := h_src_ip k; h_dst_ip := h_dst_ip k; h_l4proto := h_l4proto k; h_src_port := v;
           h_dst_port := h_dst_port k; h_setFields := h_setFields k |})
        (p <~ getSport rule ;; Ok (Some p)) key ;;
      key <~ set_h_field HorusConst.DSTPORT (fun v k =>
        {| h_src_ip := h_src_ip k; h_dst_ip := h_dst_ip k; h_l4proto := h_l4proto k; h_src_port := h_src_port k;
           h_dst_port := v; h_setFields := h_setFields k |})
        (p <~ getDport rule ;; Ok (Some p)) key ;;
      action <~ getAction rule ;;
      Ok (Some (key, {| h_action := if bool_decide (action = DROP) then 0 else 1; h_ruleID := getId rule |}))
  end.

(** The rules at the head of the chain that test the same fields. *)
Fixpoint horus_loop (rules : list ChainRule) (i set_fields : Z) (key : HorusRule) (horus : horus_map) : res horus_map :=
  match rules with
  | [] => Ok horus
  | rule :: rules =>
      if HorusConst.MAX_RULE_SIZE_FOR_HORUS <=? i then Ok horus else
      kv <~ fromRuleToHorusKeyValue rule key ;;
      match kv with
      | None => Ok horus
      | Some (key, value) =>
          if (i =? 0) && (h_setFields key =? 0) then Ok horus else
          let set_fields := if i =? 0 then h_setFields key else set_fields in
          if negb (h_setFields key =? set_fields) then Ok horus
          else horus_loop rules (i + 1) set_fields key (StdMap.insert HorusRule_ltb key value horus)
      end
  end.
Definition horusFromRulesToMap (rules : list ChainRule) : res horus_map := horus_loop rules 0 0 key0 [].

(** ** updateChain *)
(** The default policy shows as one more rule. *)
Definition getRuleList (s : side) : res (list (option ChainRule)) :=
  r <~ make_ChainRule isContrackActive
    {| m_id := getNrRules s; m_idIsSet := true; m_src := None; m_dst := None; m_l4proto := None; m_sport := None;
       m_dport := None; m_tcpflags := None; m_conntrack := None; m_action := Some (defaultAction s);
       m_description := Some "Default Policy"%string |} ;;
  Ok (rules_ s ++ [Some r]).

Definition remove_horus (index : Z) : M side unit :=
  o <-- program_at index ;; delete_ptr o ;;; set_program_at index None.

Definition install_horus (horus : horus_map) : M side unit :=
  modify (set_horus_runtime true) ;;;
  modify (fun s => set_horus_swap (negb (horus_swap s)) s) ;;;
  s <-- get ;;
  let '(horus_index_new, horus_index_old) :=
    if horus_swap s then (Modules.HORUS_INGRESS_SWAP, Modules.HORUS_INGRESS)
    else (Modules.HORUS_INGRESS, Modules.HORUS_INGRESS_SWAP) in
  let m := {| m_kind := KHorus horus; m_index := horus_index_new; m_hop := None |} in
  modify (load cfg m) ;;;
  set_program_at horus_index_new (Some m) ;;;
  horus_updateMap m horus ;;;
  reload_at Modules.PARSER ;;;
  remove_horus horus_index_old.

Definition horus_phase : M side unit :=
  modify (set_horus_runtime false) ;;;
  (if horus_enabled cfg then
     s <-- get ;;
     rl <-- lift (getRuleList s) ;;
     rules <-- lift (deref_all rl) ;;
     if HorusConst.MIN_RULE_SIZE_FOR_HORUS <=? Z.of_nat (length rules) then
       horus <-- lift (horusFromRulesToMap rules) ;;
       if HorusConst.MIN_RULE_SIZE_FOR_HORUS <=? Z.of_nat (length horus) then install_horus horus else ret tt
     else ret tt
   else ret tt) ;;;
  s <-- get ;;
  if horus_runtime_enabled s then ret tt
  else reload_at Modules.PARSER ;;;
       remove_horus Modules.HORUS_INGRESS ;;; remove_horus Modules.HORUS_INGRESS_SWAP.

(** What the loop over the modules carries. *)
Record building := Building { b_index : Z; b_first : option Z; b_new : list (option module) }.

(** A new module at the next index; the first one is where the forwarder goes. *)
Definition inject (pos : Z) (k : kind) (populate : module -> M side unit) (b : building) : M side building :=
  let m := {| m_kind := k; m_index := b_index b; m_hop := None |} in
  modify (load cfg m) ;;;
  populate m ;;;
  ret (Building (b_index b + 1)
         (match b_first b with Some f => Some f | None => Some (m_index m) end)
         (<[Z.to_nat pos := Some m]> (b_new b))).
Definition inject_if (c : bool) (pos : Z) (k : kind) (populate : module -> M side unit) (b : building)
    : M side building :=
  if c then inject pos k populate b else ret b.

(** The seven tables and their break flags. *)
Record tables := {
  t_conntrack : key_map * bool; t_ipsrc : ip_map * bool; t_ipdst : ip_map * bool; t_protocol : key_map * bool;
  t_portsrc : key_map * bool; t_portdst : key_map * bool; t_flags : list (list Z) * bool;
}.

Definition compile_tables (rules : list ChainRule) : res tables :=
  conntrack <~ conntrackFromRulesToMap rules ;;
  ipsrc <~ ipFromRulesToMap SOURCE_TYPE rules ;;
  ipdst <~ ipFromRulesToMap DESTINATION_TYPE rules ;;
  protocol <~ transportProtoFromRulesToMap rules ;;
  portsrc <~ portFromRulesToMap SOURCE_TYPE rules ;;
  portdst <~ portFromRulesToMap DESTINATION_TYPE rules ;;
  flags <~ flagsFromRulesToMap rules ;;
  Ok {| t_conntrack := conntrack; t_ipsrc := ipsrc; t_ipdst := ipdst; t_protocol := protocol;
        t_portsrc := portsrc; t_portdst := portdst; t_flags := flags |}.

Definition nonempty {A} (l : list A) : bool := match l with [] => false | _ => true end.
Definition wanted {A} (t : list A * bool) (second : bool) : bool := nonempty t.1 && xorb t.2 second.

(** One iteration: the modules whose break flag is not [second]. *)
Definition inject_round (t : tables) (second : bool) (b : building) : M side building :=
  b <-- inject_if (wanted (t_conntrack t) second) Modules.CONNTRACKMATCH KConntrackMatch
          (fun m => conntrack_match_updateMap m (t_conntrack t).1) b ;;
  b <-- inject_if (wanted (t_ipsrc t) second) Modules.IPSOURCE (KIpLookup SOURCE_TYPE)
          (fun m => ip_lookup_updateMap m (t_ipsrc t).1) b ;;
  b <-- inject_if (wanted (t_ipdst t) second) Modules.IPDESTINATION (KIpLookup DESTINATION_TYPE)
          (fun m => ip_lookup_updateMap m (t_ipdst t).1) b ;;
  b <-- inject_if (wanted (t_protocol t) second) Modules.L4PROTO KL4ProtocolLookup
          (fun m => l4_protocol_lookup_updateMap m (t_protocol t).1) b ;;
  b <-- inject_if (wanted (t_portsrc t) second) Modules.PORTSOURCE
          (KL4PortLookup SOURCE_TYPE (StdMap.find Z.ltb 0 (t_portsrc t).1))
          (fun m => l4_port_lookup_updateMap m (t_portsrc t).1) b ;;
  b <-- inject_if (wanted (t_portdst t) second) Modules.PORTDESTINATION
          (KL4PortLookup DESTINATION_TYPE (StdMap.find Z.ltb 0 (t_portdst t).1))
          (fun m => l4_port_lookup_updateMap m (t_portdst t).1) b ;;
  inject_if (wanted (t_flags t) second) Modules.TCPFLAGS KTcpFlagsLookup
    (fun m => tcp_flags_lookup_updateMap m (t_flags t).1) b.

(** The bit scan, and the actions of the rules. *)
Definition inject_tail (rules : list ChainRule) (b : building) : M side building :=
  b <-- inject Modules.BITSCAN KBitScan bitscan_loadIndex64 b ;;
  inject Modules.ACTION KActionLookup (fun m =>
    for_each rules (fun rule =>
      action <-- lift (a <~ getAction rule ;; ActionEnum_to_int a) ;;
      action_lookup_updateTableValue m (getId rule) action)) b.

Definition updateHop (i : Z) (hop : option Z) : M side unit :=
  o <-- program_at i ;;
  m <-- lift (deref o) ;;
  set_program_at i (Some {| m_kind := m_kind m; m_index := m_index m; m_hop := hop |}).

Definition chain_positions : list Z := seqZ Modules.CONNTRACKMATCH Modules.NR_MODULES.

(** The switch to the new programs, and the end of the old ones. *)
Definition switch_chain (b : building) : M side unit :=
  updateHop Modules.CHAINFORWARDER (b_first b) ;;;
  reload_at Modules.CHAINFORWARDER ;;;
  reload_at Modules.PARSER ;;;
  for_each chain_positions (fun i =>
    o <-- program_at i ;;
    match o with
    | Some m => delete_module m ;;; set_program_at i None
    | None => ret tt
    end) ;;;
  for_each chain_positions (fun i =>
    set_program_at i (default None (b_new b !! Z.to_nat i))) ;;;
  modify (fun s => set_chainNumber (if chainNumber s =? 0 then 1 else 0) s).

Definition starting_index (s : side) : Z :=
  Modules.NR_INITIAL_MODULES + chainNumber s * Modules.NR_MODULES.

Definition updateChain : M side unit :=
  s <-- get ;;
  if bool_decide (name s = INVALID_CHAIN) then ret tt else
  horus_phase ;;;
  s <-- get ;;
  rules <-- lift (deref_all (rules_ s)) ;;
  t <-- lift (compile_tables rules) ;;
  b <-- inject_round t false
          (Building (starting_index s) None
             (replicate (Z.to_nat (Modules.NR_INITIAL_MODULES + Modules.NR_MODULES + 1)) None)) ;;
  b <-- inject_round t true b ;;
  b <-- inject_tail rules b ;;
  switch_chain b.

(** ** Counters (ChainStats.cpp) *)
Definition fetchCounters (id : Z) : M side (Z * Z) :=
  s <-- get ;;
  if bool_decide (name s = INVALID_CHAIN) then ret (0, 0) else
  o <-- program_at Modules.ACTION ;;
  match o with
  | None => ret (0, 0)
  | Some actionProgram =>
      bytes <-- getBytesCount actionProgram id ;;
      pkts <-- getPktsCount actionProgram id ;;
      flushCounters actionProgram id ;;;
      if horus_runtime_enabled s then
        h <-- program_at (if horus_swap s then Modules.HORUS_INGRESS_SWAP else Modules.HORUS_INGRESS) ;;
        horusProgram <-- lift (deref h) ;;
        b <-- getBytesCount horusProgram id ;;
        p <-- getPktsCount horusProgram id ;;
        flushCounters horusProgram id ;;;
        ret (u64 (pkts + p), u64 (bytes + b))
      else ret (pkts, bytes)
  end.

Definition getDefaultActionCounters : M side ChainStats :=
  s <-- get ;;
  let csj pkts bytes := {| st_id := getNrRules s; st_pkts := pkts; st_bytes := bytes;
                           st_action := Some (defaultAction s); st_description := Some "DEFAULT"%string |} in
  if bool_decide (name s = INVALID_CHAIN) then ret (csj 0 0) else
  o <-- program_at Modules.DEFAULTACTION ;;
  actionProgram <-- lift (deref o) ;;
  pkts <-- getPktsCount actionProgram 0 ;;
  bytes <-- getBytesCount actionProgram 0 ;;
  ret (csj pkts bytes).

(** The test on the identifier is [rules_.size() < id], not [<=]. *)
Definition getStats (id : Z) : M side ChainStats :=
  s <-- get ;;
  if getNrRules s <? id then throw (RuntimeError ("There is no rule " +:+ to_string id)) else
  r <-- lift (vec_get (rules_ s) id) ;;
  match r with
  | None => throw (RuntimeError ("There is no rule " +:+ to_string id))
  | Some _ =>
      match default None (counters_ s !! Z.to_nat id) with
      | None =>
          v <-- fetchCounters id ;;
          let c := {| st_id := id; st_pkts := v.1; st_bytes := v.2; st_action := None; st_description := None |} in
          s <-- get ;;
          let counters := if Z.of_nat (length (counters_ s)) <=? id then resize (id + 1) (counters_ s) else counters_ s in
          counters <-- lift (vec_set counters id (Some c)) ;;
          modify (set_counters counters) ;;; ret c
      | Some c =>
          v <-- fetchCounters id ;;
          let c := {| st_id := st_id c; st_pkts := u64 (st_pkts c + v.1); st_bytes := u64 (st_bytes c + v.2);
                      st_action := st_action c; st_description := st_description c |} in
          s <-- get ;;
          counters <-- lift (vec_set (counters_ s) id (Some c)) ;;
          modify (set_counters counters) ;;; ret c
      end
  end.

Fixpoint stats_of (rules : list (option ChainRule)) : M side (list ChainStats) :=
  match rules with
  | [] => ret []
  | None :: rules => stats_of rules
  | Some cr :: rules => c <-- getStats (getId cr) ;; l <-- stats_of rules ;; ret (c :: l)
  end.

Definition getStatsList : M side (list ChainStats) :=
  s <-- get ;; l <-- stats_of (rules_ s) ;; d <-- getDefaultActionCounters ;; ret (l ++ [d]).

(** Any exception is reported in the result. *)
Definition resetCounters : M side bool :=
  s <-- get ;;
  if bool_decide (name s = INVALID_CHAIN) then ret false else
  try_catch is_std_exception
    (o <-- program_at Modules.ACTION ;;
     match o with
     | None => throw (RuntimeError "No action loaded yet.")
     | Some actionProgram =>
         h <-- (if horus_runtime_enabled s
                then program_at (if horus_swap s then Modules.HORUS_INGRESS_SWAP else Modules.HORUS_INGRESS)
                else ret None) ;;
         rules <-- lift (deref_all (rules_ s)) ;;
         for_each rules (fun cr =>
           flushCounters actionProgram (getId cr) ;;;
           if horus_runtime_enabled s
           then m <-- lift (deref h) ;; flushCounters m (getId cr) else ret tt) ;;;
         d <-- program_at Modules.DEFAULTACTION ;;
         m <-- lift (deref d) ;;
         flushCounters m 0 ;;;
         modify (set_counters []) ;;;
         ret true
     end)
    (ret false).

(** ** Rules *)
Definition update_if_single : M side unit :=
  s <-- get ;; if is_single_op_on_chain s then updateChain else ret tt.

Definition getRule (id : Z) : M side ChainRule :=
  s <-- get ;;
  match (if getNrRules s <=? id then None else default None (rules_ s !! Z.to_nat id)) with
  | Some r => ret r
  | None => throw (RuntimeError ("There is no rule " +:+ to_string id))
  end.

Definition addRule (id : Z) (conf : RuleConf) : M side unit :=
  s <-- get ;;
  if getNrRules s <? id then throw (RuntimeError "rule id not allowed") else
  match m_action conf with
  | None => throw (RuntimeError "action not specified for the rule")
  | Some _ =>
      newRule <-- lift (make_ChainRule isContrackActive conf) ;;
      getStatsList ;;;
      s <-- get ;;
      let rules := if getNrRules s <=? id then resize (getNrRules s + 1) (rules_ s) else rules_ s in
      rules <-- lift (vec_set rules id (Some newRule)) ;;
      modify (set_rules rules) ;;;
      update_if_single
  end.

Definition append (input : RuleConf) : M side Z :=
  match m_action input with
  | None => throw (RuntimeError "action not specified for the rule")
  | Some _ =>
      s <-- get ;;
      let id := getNrRules s in
      addRule id {| m_id := id; m_idIsSet := true; m_src := m_src input; m_dst := m_dst input;
        m_l4proto := m_l4proto input; m_sport := m_sport input; m_dport := m_dport input;
        m_tcpflags := m_tcpflags input; m_conntrack := m_conntrack input; m_action := m_action input;
        m_description := m_description input |} ;;;
      update_if_single ;;;
      ret id
  end.

(** No [updateChain] at the end. *)
Definition addRuleList (conf : list RuleConf) : M side unit :=
  modify (set_single false) ;;;
  for_each conf (fun i =>
    match m_action i with Some _ => addRule (m_id i) i | None => ret tt end) ;;;
  modify (set_single true).

(** The identifier comes from the body, not from the path. *)
Definition replaceRule (id : Z) (conf : RuleConf) : M side unit := addRule (m_id conf) conf.

Definition set_stats_id (i : Z) (c : ChainStats) : ChainStats :=
  {| st_id := i; st_pkts := st_pkts c; st_bytes := st_bytes c; st_action := st_action c;
     st_description := st_description c |}.

(** [v[j] = v[i]; v[j]->id = j;] *)
Definition move_rule (i j : Z) (rules : list (option ChainRule)) : res (list (option ChainRule)) :=
  o <~ vec_get rules i ;; r <~ deref o ;; vec_set rules j (Some (set_id j r)).
Definition move_counter (i j : Z) (counters : list (option ChainStats)) : res (list (option ChainStats)) :=
  o <~ vec_get counters i ;; c <~ deref o ;; vec_set counters j (Some (set_stats_id j c)).

Definition delRule (id : Z) : M side unit :=
  s <-- get ;;
  match (if getNrRules s <=? id then None else default None (rules_ s !! Z.to_nat id)) with
  | None => throw (RuntimeError ("There is no rule " +:+ to_string id))
  | Some _ =>
      getStatsList ;;;
      s <-- get ;;
      rules <-- lift (for_each_res (seqZ id (getNrRules s - 1 - id))
                        (fun rules i => move_rule (i + 1) i rules) (rules_ s)) ;;
      modify (set_rules (resize (getNrRules s - 1) rules)) ;;;
      let n := Z.of_nat (length (counters_ s)) in
      if n =? 0 then undefined else
      counters <-- lift (for_each_res (seqZ id (n - 1 - id))
                           (fun counters i => move_counter (i + 1) i counters) (counters_ s)) ;;
      modify (set_counters (resize (n - 1) counters)) ;;;
      update_if_single
  end.

Definition delRuleList : M side unit :=
  modify (set_rules []) ;;; modify (set_counters []) ;;; updateChain.

(** A null pointer is moved as it is. *)
Definition shift_rule (rules : list (option ChainRule)) (i : Z) : res (list (option ChainRule)) :=
  o <~ vec_get rules i ;; vec_set rules (i + 1) (set_id (i + 1) <$> o).
Definition shift_counter (counters : list (option ChainStats)) (i : Z) : res (list (option ChainStats)) :=
  o <~ vec_get counters i ;; vec_set counters (i + 1) (set_stats_id (i + 1) <$> o).

Definition insert (input : RuleConf) : M side Z :=
  let id := if m_idIsSet input then m_id input else 0 in
  s <-- get ;;
  if getNrRules s <? id then throw (RuntimeError "id not allowed") else
  match m_action input with
  | None => throw (RuntimeError "action not specified for the rule")
  | Some _ =>
      newRule <-- lift (make_ChainRule isContrackActive input) ;;
      getStatsList ;;;
      s <-- get ;;
      let rules := resize (getNrRules s + 1) (rules_ s) in
      let counters := resize (Z.of_nat (length (counters_ s)) + 1) (counters_ s) in
      let positions := reverse (seqZ id (getNrRules s - id)) in
      rules <-- lift (for_each_res positions shift_rule rules) ;;
      counters <-- lift (for_each_res positions shift_counter counters) ;;
      rules <-- lift (vec_set rules id (Some (set_id id newRule))) ;;
      counters <-- lift (vec_set counters id (Some
        {| st_id := id; st_pkts := 0; st_bytes := 0; st_action := None; st_description := None |})) ;;
      modify (set_rules rules) ;;; modify (set_counters counters) ;;;
      update_if_single ;;;
      ret id
  end.

(** The first rule with the same conditions goes. *)
Fixpoint deletes_from (rules : list (option ChainRule)) (i : Z) (input : RuleConf) : M side unit :=
  match rules with
  | [] => throw (RuntimeError "no matching rule to delete")
  | None :: rules => deletes_from rules (i + 1) input
  | Some r :: rules =>
      c <-- lift (make_ChainRule isContrackActive input) ;;
      if equal r c then delRule i else deletes_from rules (i + 1) input
  end.
Definition deletes (input : RuleConf) : M side unit :=
  s <-- get ;; deletes_from (rules_ s) 0 input.

(** One operation of a batch, and whether it failed. *)
Definition batch_op (op : OperationEnum) (val : RuleConf) : M side bool :=
  try_catch is_std_exception
    (match op with
     | DELETE => (if m_idIsSet val then delRule (m_id val) else deletes val) ;;; ret false
     | INSERT => if m_idIsSet val then insert val ;;; ret false else ret true
     | APPEND => append val ;;; ret false
     | UPDATE => if m_idIsSet val then addRule (m_id val) val ;;; ret false else ret true
     end)
    (ret true).

Fixpoint batch_ops (ops : list (OperationEnum * RuleConf)) (i : Z) : M side (list Z) :=
  match ops with
  | [] => ret []
  | (op, val) :: ops =>
      failed <-- batch_op op val ;;
      rest <-- batch_ops ops (i + 1) ;;
      ret (if failed : bool then i :: rest else rest)
  end.

(** [ops] is [None] when the rules are not set; the operations that failed are
    named in the message. *)
Definition batch (ops : option (list (OperationEnum * RuleConf))) : M side unit :=
  match ops with
  | None => throw (RuntimeError "Chain::ChainBatchOutput: no operation posted")
  | Some ops =>
      getStatsList ;;;
      modify (set_single false) ;;;
      failed_ops <-- batch_ops ops 1 ;;
      modify (set_single true) ;;;
      updateChain ;;;
      match failed_ops with
      | [] => ret tt
      | _ => throw (RuntimeError
               ("Chain::ChainBatchOutput: you required " +:+ to_string (Z.of_nat (length ops))
                +:+ " operations, but the following nth{1-" +:+ to_string (Z.of_nat (length ops))
                +:+ "} ones in the list failed: [" +:+ String.concat ", " (to_string <$> failed_ops) +:+ "]"))
      end
  end.

Definition setDefault (value : ActionEnum) : M side unit :=
  s <-- get ;;
  if bool_decide (defaultAction s = value) then ret tt else
  modify (set_default value) ;;;
  if bool_decide (name s = INVALID_CHAIN) then ret tt else reload_at Modules.DEFAULTACTION.
End chain.
