(* ===== verification/FwUpdate.v ===== *)
(** pcn-firewall, compiling a chain: [updateChain] fills a fresh set of programs
    from the rules, switches the forwarder to it and removes the previous one.
    The layout it leaves is the one that [run_chain] asks for. *)
From Stdlib Require Import ZArith Lia.
From stdpp Require Import base gmap sets list strings numbers.
From S2P Require Import Prelude.
From S2P Require Import Bpf.
From S2P Require Import NetUtils.
From S2P Require Import FwRule.
From S2P Require Import FwFlags.
From S2P Require Import FwRuleFacts.
From S2P Require Import FwBits.
From S2P Require Import FwMaps.
From S2P Require Import FwMapsFacts.
From S2P Require Import FwIpFacts.
From S2P Require Import Frame.
From S2P Require Import FwConntrack.
From S2P Require Import FwDatapath.
From S2P Require Import FwPipeline.
From S2P Require Import FwModules.
From S2P Require Import FwChain.
#[local] Open Scope Z_scope.
#[local] Open Scope cpp_scope.

Section filling.
Context `{Inet} `{Tables ct_k ct_v}.

Lemma set_slots_set_slots x y s : set_slots x (set_slots y s) = set_slots x s.
Proof using Type. done. Qed.
Lemma set_slots_id s : set_slots (slots s) s = s.
Proof using Type. by destruct s. Qed.

Lemma with_program_run index f s p p' :
  slots s !! index = Some p -> f p = Ok p' ->
  with_program index f s = (Ok tt, set_slots (<[index := p']> (slots s)) s).
Proof using Type. intros Hp Hf. unfold with_program, bind, get. rewrite Hp. unfold lift. by rewrite Hf. Qed.

Lemma swallow_run m s s' : m s = (Ok tt, s') -> swallow m s = (Ok tt, s').
Proof using Type. unfold swallow, try_catch. by intros ->. Qed.

(** A loop of table updates: [mk] is the program around the table. *)
Fixpoint upd_all {E T} (upd : T -> E -> option T) (t : T) (es : list E) : option T :=
  match es with [] => Some t | e :: es => t' ← upd t e; upd_all upd t' es end.

Lemma fill_run {E T} (mk : T -> program) (upd : T -> E -> option T) (step : E -> M side unit) index es t t' s :
  (forall e s t t', slots s !! index = Some (mk t) -> upd t e = Some t' ->
     step e s = (Ok tt, set_slots (<[index := mk t']> (slots s)) s)) ->
  slots s !! index = Some (mk t) -> upd_all upd t es = Some t' ->
  for_each es step s = (Ok tt, set_slots (<[index := mk t']> (slots s)) s).
Proof using Type.
  intros Hstep. revert t s. induction es as [|e es IH]; intros t s Hs Hu; simpl in *.
  - injection Hu as ->. rewrite insert_id by done. by rewrite set_slots_id.
  - destruct (upd t e) as [t1|] eqn:E1; [|done]. simpl in Hu.
    rewrite (bind_run _ _ _ _ _ (Hstep _ _ _ _ Hs E1)).
    rewrite (IH t1); [|by simpl; rewrite lookup_insert_eq|done]. simpl. by rewrite insert_insert_eq.
Qed.

Lemma a_updates_upd_all {V T} `{BpfArray V T} (es : list (Z * V)) (t t' : T) :
  a_updates t es = Ok t' -> upd_all (fun t e => a_update t e.1 e.2) t es = Some t'.
Proof using Type.
  revert t. induction es as [|[i v] es IH]; intros t; simpl; [by intros [= ->]|].
  destruct (a_update t i v); [apply IH|done].
Qed.
Lemma h_updates_upd_all {K V T} `{BpfHash K V T} (es : list (K * V)) (t t' : T) :
  h_updates t es = Ok t' -> upd_all (fun t e => h_update t e.1 e.2) t es = Some t'.
Proof using Type.
  revert t. induction es as [|[i v] es IH]; intros t; simpl; [by intros [= ->]|].
  destruct (h_update t i v); [apply IH|done].
Qed.
Lemma l_updates_upd_all {V T} `{LpmTrie V T} (es : list (lpm_entry V)) (t t' : T) :
  l_updates t es = Ok t' -> upd_all (fun t e => l_update t (le_len e) (le_ip e) (le_val e)) t es = Some t'.
Proof using Type.
  revert t. induction es as [|e es IH]; intros t; simpl; [by intros [= ->]|].
  destruct (l_update t _ _ _); [apply IH|done].
Qed.
Lemma upd_all_map {E E' T} (g : E -> E') (upd : T -> E' -> option T) es (t : T) :
  upd_all (fun t e => upd t (g e)) t es = upd_all upd t (g <$> es).
Proof using Type.
  revert t. induction es as [|e es IH]; intros t; simpl; [done|]. destruct (upd t (g e)); simpl; [apply IH|done].
Qed.

Ltac step_with Hp Hu :=
  apply swallow_run || idtac; apply (with_program_run _ _ _ _ _ Hp); cbv beta iota; rewrite Hu; reflexivity.

Lemma conntrack_fill_run m nr n t t' es s :
  slots s !! m_index m = Some (ConntrackMatch nr n t) -> a_updates t es = Ok t' ->
  conntrack_match_updateMap m es s = (Ok tt, set_slots (<[m_index m := ConntrackMatch nr n t']> (slots s)) s).
Proof using Type.
  intros Hs Hu%a_updates_upd_all. eapply (fill_run (ConntrackMatch nr n)); [|done|done].
  intros e s0 t0 t1 Hp Hup. cbv beta in Hup. step_with Hp Hup.
Qed.

Lemma ip_fill_run m ty nr n t t' es s :
  slots s !! m_index m = Some (IpLookup ty nr n t) -> l_updates t (lpm_entries es) = Ok t' ->
  ip_lookup_updateMap m es s = (Ok tt, set_slots (<[m_index m := IpLookup ty nr n t']> (slots s)) s).
Proof using Type.
  intros Hs Hu%l_updates_upd_all. unfold lpm_entries in Hu. rewrite <- upd_all_map in Hu.
  eapply (fill_run (IpLookup ty nr n)); [|done|exact Hu].
  intros e s0 t0 t1 Hp Hup. cbn in Hup. apply (with_program_run _ _ _ _ _ Hp). cbv beta iota. by rewrite Hup.
Qed.

Lemma proto_fill_run m nr n t t' es s :
  slots s !! m_index m = Some (L4ProtocolLookup nr n t) ->
  h_updates t ((fun e => (u8 e.1, e.2)) <$> es) = Ok t' ->
  l4_protocol_lookup_updateMap m es s = (Ok tt, set_slots (<[m_index m := L4ProtocolLookup nr n t']> (slots s)) s).
Proof using Type.
  intros Hs Hu%h_updates_upd_all. rewrite <- upd_all_map in Hu.
  eapply (fill_run (L4ProtocolLookup nr n)); [|done|exact Hu].
  intros e s0 t0 t1 Hp Hup. cbn in Hup. step_with Hp Hup.
Qed.

Lemma port_fill_run m ty nr n w t t' es s :
  slots s !! m_index m = Some (L4PortLookup ty nr n w t) ->
  h_updates t ((fun e => (bswap16 e.1, e.2)) <$> es) = Ok t' ->
  l4_port_lookup_updateMap m es s = (Ok tt, set_slots (<[m_index m := L4PortLookup ty nr n w t']> (slots s)) s).
Proof using Type.
  intros Hs Hu%h_updates_upd_all. rewrite <- upd_all_map in Hu.
  eapply (fill_run (L4PortLookup ty nr n w)); [|done|exact Hu].
  intros e s0 t0 t1 Hp Hup. cbn in Hup. step_with Hp Hup.
Qed.

Lemma flags_fill_run m nr n t t' fl s :
  slots s !! m_index m = Some (TcpFlagsLookup nr n t) ->
  a_updates t (imap (fun i v => (Z.of_nat i, v)) fl) = Ok t' ->
  tcp_flags_lookup_updateMap m fl s = (Ok tt, set_slots (<[m_index m := TcpFlagsLookup nr n t']> (slots s)) s).
Proof using Type.
  intros Hs Hu%a_updates_upd_all. eapply (fill_run (TcpFlagsLookup nr n)); [|done|done].
  intros e s0 t0 t1 Hp Hup. cbv beta in Hup. step_with Hp Hup.
Qed.

Lemma bitscan_fill_run m nr n t t' s :
  slots s !! m_index m = Some (BitScan nr n t) ->
  a_updates t (imap (fun i v => (Z.of_nat i, v)) index64) = Ok t' ->
  bitscan_loadIndex64 m s = (Ok tt, set_slots (<[m_index m := BitScan nr n t']> (slots s)) s).
Proof using Type.
  intros Hs Hu%a_updates_upd_all. unfold bitscan_loadIndex64. eapply (fill_run (BitScan nr n)); [|done|exact Hu].
  intros [i v] s0 t0 t1 Hp Hup. cbn in Hup. apply (with_program_run _ _ _ _ _ Hp). cbv beta iota. by rewrite Hup.
Qed.

Lemma horus_fill_run m f c t t' pk by_ h s :
  slots s !! m_index m = Some (Horus f c t pk by_) ->
  h_updates t ((fun e => (horus_key_data e.1, (h_action e.2, h_ruleID e.2))) <$> h) = Ok t' ->
  horus_updateMap m h s = (Ok tt, set_slots (<[m_index m := Horus f c t' pk by_]> (slots s)) s).
Proof using Type.
  intros Hs Hu%h_updates_upd_all. rewrite <- upd_all_map in Hu.
  eapply (fill_run (fun t => Horus f c t pk by_)); [|done|exact Hu].
  intros e s0 t0 t1 Hp Hup. cbn in Hup. apply (with_program_run _ _ _ _ _ Hp). cbv beta iota. by rewrite Hup.
Qed.

(** The actions: every rule's action is one the code supports. *)
Definition action_supported (r : ChainRule) : Prop :=
  exists a z, action r = Some a /\ ActionEnum_to_int a = Ok z.
Definition action_code (r : ChainRule) : Z := match action r with Some ACCEPT => 1 | _ => 0 end.

Lemma action_supported_code r :
  action_supported r -> (a <~ getAction r ;; ActionEnum_to_int a) = Ok (action_code r) /\
    ActionEnum_to_int (default DROP (action r)) = Ok (action_code r).
Proof using Type.
  intros (a & z & Ha & Hz). unfold getAction, action_code. rewrite Ha. simpl. by destruct a.
Qed.

Lemma action_fill_run m nr a a' pk by_ rules s :
  (forall r, r ∈ rules -> action_supported r) ->
  slots s !! m_index m = Some (ActionLookup nr a pk by_) ->
  a_updates a ((fun r => (id r, action_code r)) <$> rules) = Ok a' ->
  for_each rules (fun rule =>
    action <-- lift (a <~ getAction rule ;; ActionEnum_to_int a) ;;
    action_lookup_updateTableValue m (getId rule) action) s
  = (Ok tt, set_slots (<[m_index m := ActionLookup nr a' pk by_]> (slots s)) s).
Proof using Type.
  intros Hsup Hs Hu%a_updates_upd_all. rewrite <- upd_all_map in Hu. cbn in Hu.
  assert (forall es t s, (forall r, r ∈ es -> action_supported r) -> slots s !! m_index m = Some (ActionLookup nr t pk by_) ->
    upd_all (fun t e => a_update t (id e) (action_code e)) t es = Some a' ->
    for_each es (fun rule => action <-- lift (a <~ getAction rule ;; ActionEnum_to_int a) ;;
      action_lookup_updateTableValue m (getId rule) action) s
    = (Ok tt, set_slots (<[m_index m := ActionLookup nr a' pk by_]> (slots s)) s)) as Hg; [|by eapply Hg].
  clear. induction es as [|r es IH]; intros t s Hsup Hs Hu; simpl in *.
  - injection Hu as ->. rewrite insert_id by done. by rewrite set_slots_id.
  - destruct (a_update t (id r) (action_code r)) as [t1|] eqn:E1; [|done]. simpl in Hu.
    destruct (action_supported_code r) as [Ec _]; [apply Hsup; by left|].
    assert ((action <-- lift (a <~ getAction r ;; ActionEnum_to_int a) ;;
      action_lookup_updateTableValue m (getId r) action) s
      = (Ok tt, set_slots (<[m_index m := ActionLookup nr t1 pk by_]> (slots s)) s)) as Estep.
    { unfold bind at 1, lift. rewrite Ec. apply swallow_run, (with_program_run _ _ _ _ _ Hs).
      cbv beta iota. unfold getId. by rewrite E1. }
    rewrite (bind_run _ _ _ _ _ Estep).
    rewrite (IH t1); [simpl; by rewrite insert_insert_eq| |by simpl; rewrite lookup_insert_eq|done].
    intros x Hx. apply Hsup. by right.
Qed.
End filling.

(** * The filled tables *)
Section filled.
Context `{Tables ct_k ct_v}.

Lemma elem_of_imap_index {V} (l : list V) i v :
  (i, v) ∈ imap (fun i v => (Z.of_nat i, v)) l <-> 0 <= i /\ l !! Z.to_nat i = Some v.
Proof using Type.
  rewrite list_elem_of_lookup. setoid_rewrite list_lookup_imap. split.
  - intros (k & Hk). destruct (l !! k) eqn:E; [|done]. injection Hk as <- <-. rewrite Nat2Z.id. split; [lia|done].
  - intros [Hi Hl]. exists (Z.to_nat i). rewrite Hl. simpl. by rewrite Z2Nat.id.
Qed.

Lemma imap_index_keys {V} (l : list V) : (imap (fun i v => (Z.of_nat i, v)) l).*1 = Z.of_nat <$> seq 0 (length l).
Proof using Type.
  apply list_eq. intros k. rewrite !list_lookup_fmap, list_lookup_imap.
  destruct (l !! k) eqn:E; simpl.
  - apply lookup_lt_Some in E. by rewrite lookup_seq_lt by done.
  - apply lookup_ge_None in E. by rewrite lookup_seq_ge by done.
Qed.

Lemma array_fill {V T} `{BpfArray V T} (l : list V) (t : T) :
  Z.of_nat (length l) <= a_size t ->
  exists t', a_updates t (imap (fun i v => (Z.of_nat i, v)) l) = Ok t' /\
    forall i v, l !! i = Some v -> a_lookup t' (Z.of_nat i) = Some v.
Proof using Type.
  intros Hl. destruct (a_updates_ok (imap (fun i v => (Z.of_nat i, v)) l) t) as (t' & Ht & _ & Hin & _).
  - rewrite imap_index_keys. apply NoDup_fmap; [intros x y E; lia|apply NoDup_seq].
  - intros i. rewrite imap_index_keys, list_elem_of_fmap. intros (k & -> & Hk%elem_of_seq). lia.
  - exists t'. split; [done|]. intros i v Hi. apply Hin, elem_of_imap_index. rewrite Nat2Z.id. split; [lia|done].
Qed.

Lemma keys_fst {V} (m : list (Z * V)) : StdMap.keys (fun k => k) m = m.*1.
Proof using Type. unfold StdMap.keys. by rewrite list_fmap_id. Qed.

Lemma find_elem {V} (m : list (Z * V)) x v :
  NoDup (StdMap.keys (fun k => k) m) -> (x, v) ∈ m <-> StdMap.find Z.ltb x m = Some v.
Proof using Type.
  intros Hnd. split; [by apply (StdMap.find_NoDup Z.ltb (fun k => k))|].
  intros (x' & E & Hx)%(StdMap.find_Some_In Z.ltb (fun k => k)). simpl in E. subst. by apply list_elem_of_In.
Qed.
Lemma find_fst {V} (m : list (Z * V)) x :
  NoDup (StdMap.keys (fun k => k) m) -> x ∈ m.*1 <-> exists v, StdMap.find Z.ltb x m = Some v.
Proof using Type.
  intros Hnd. rewrite list_elem_of_fmap. split.
  - intros ([y v] & -> & Hy). exists v. by apply find_elem.
  - intros (v & Hv%find_elem); [|done]. by exists (x, v).
Qed.

Lemma length_omap_le {A B} (f : A -> option B) l : (length (omap f l) <= length l)%nat.
Proof using Type. induction l as [|r l IH]; csimpl; [lia|]. destruct (f r); simpl in *; lia. Qed.

Section rules.
Context (rules : list ChainRule) (Hwf : wf_rules rules).

Lemma key_table_keys k m brk x :
  key_table rules k m brk -> x ∈ m.*1 -> x = 0 \/ x ∈ omap k rules.
Proof using Type.
  intros Hm Hx. apply (find_fst m) in Hx as (v & Hv); [|apply Hm].
  pose proof (kt_find _ _ _ _ Hm x) as Hf. rewrite Hv in Hf. tauto.
Qed.

Lemma key_table_length k m brk :
  key_table rules k m brk -> Z.of_nat (length m) <= 8254.
Proof using Hwf.
  intros Hm. pose proof (kt_nodup _ _ _ _ Hm) as Hnd. rewrite keys_fst in Hnd.
  assert (m.*1 ⊆+ 0 :: omap k rules) as Hs.
  { apply NoDup_submseteq; [done|]. intros x Hx. rewrite elem_of_cons. by eapply key_table_keys. }
  apply submseteq_length in Hs. rewrite length_fmap in Hs. simpl in Hs.
  pose proof (length_omap_le k rules). pose proof (wfr_len rules Hwf). lia.
Qed.

(** A hash filled with the entries under an injective change of key. *)
Lemma hash_fill (g : Z -> Z) k m brk (D : Z -> Prop) :
  key_table rules k m brk -> (forall x y, D x -> D y -> g x = g y -> x = y) ->
  D 0 -> (forall x, x ∈ omap k rules -> D x) ->
  exists t' : hashT, h_updates (h_new 10240) ((fun e => (g e.1, e.2)) <$> m) = Ok t' /\
    forall x, D x -> h_lookup t' (g x) = StdMap.find Z.ltb x m.
Proof using Hwf.
  intros Hm Hg H0 HD. pose proof (kt_nodup _ _ _ _ Hm) as Hnd.
  assert (forall x, x ∈ m.*1 -> D x) as HDm.
  { intros x Hx. destruct (key_table_keys k m brk x Hm Hx) as [->|]; auto. }
  assert (((fun e => (g e.1, e.2)) <$> m).*1 = g <$> m.*1) as Ek by (by rewrite <- !list_fmap_compose).
  destruct (h_updates_ok ((fun e => (g e.1, e.2)) <$> m) (h_new (T := hashT) 10240)) as (t' & Ht & Hin & Hout).
  - rewrite Ek. apply NoDup_fmap_2_strong; [|by rewrite keys_fst in Hnd].
    intros x y Hx Hy. apply Hg; auto.
  - rewrite h_free_new, length_fmap. pose proof (key_table_length k m brk Hm). lia.
  - exists t'. split; [done|]. intros x Hx. destruct (StdMap.find Z.ltb x m) as [v|] eqn:Ef.
    + apply Hin, list_elem_of_fmap. exists (x, v). split; [done|]. by apply find_elem.
    + rewrite Hout; [apply h_lookup_new|]. rewrite Ek, list_elem_of_fmap. intros (y & Ey & Hy).
      rewrite (Hg x y Hx (HDm y Hy) Ey) in Ef. apply (find_fst m) in Hy as (v & Hv); [congruence|done].
Qed.
End rules.
End filled.
