(* ===== verification/FwStages.v ===== *)
(** pcn-firewall, one module of a chain at a time: [inject] loads the program at
    the next index and fills its table, and what it leaves there is a program
    that narrows the candidate rules as [stage_ok] asks. *)
From Stdlib Require Import ZArith Lia.
From stdpp Require Import base gmap sets list strings numbers.
From S2P Require Import Prelude.
From S2P Require Import Bpf.
From S2P Require Import NetUtils.
From S2P Require Import FwRule.
From S2P Require Import FwFlags.
From S2P Require Import FwRuleFacts.
From S2P Require Import FwBits.
From S2P Require Import FwMaps.
From S2P Require Import FwMapsFacts.
From S2P Require Import FwIpFacts.
From S2P Require Import Frame.
From S2P Require Import FwConntrack.
From S2P Require Import FwDatapath.
From S2P Require Import FwPipeline.
From S2P Require Import FwModules.
From S2P Require Import FwChain.
From S2P Require Import FwUpdate.
#[local] Open Scope Z_scope.
#[local] Open Scope cpp_scope.

(** * The tables of a rule set *)
Definition field_nonempty (t : tables) (f : field) : bool :=
  match f with
  | FConntrack => nonempty (t_conntrack t).1 | FSrc => nonempty (t_ipsrc t).1 | FDst => nonempty (t_ipdst t).1
  | FProto => nonempty (t_protocol t).1 | FSport => nonempty (t_portsrc t).1 | FDport => nonempty (t_portdst t).1
  | FFlags => nonempty (t_flags t).1
  end.
Definition field_brk (t : tables) (f : field) : bool :=
  match f with
  | FConntrack => (t_conntrack t).2 | FSrc => (t_ipsrc t).2 | FDst => (t_ipdst t).2
  | FProto => (t_protocol t).2 | FSport => (t_portsrc t).2 | FDport => (t_portdst t).2
  | FFlags => (t_flags t).2
  end.
Definition field_pos (f : field) : Z :=
  match f with
  | FConntrack => Modules.CONNTRACKMATCH | FSrc => Modules.IPSOURCE | FDst => Modules.IPDESTINATION
  | FProto => Modules.L4PROTO | FSport => Modules.PORTSOURCE | FDport => Modules.PORTDESTINATION
  | FFlags => Modules.TCPFLAGS
  end.
Definition field_kind (t : tables) (f : field) : kind :=
  match f with
  | FConntrack => KConntrackMatch | FSrc => KIpLookup SOURCE_TYPE | FDst => KIpLookup DESTINATION_TYPE
  | FProto => KL4ProtocolLookup
  | FSport => KL4PortLookup SOURCE_TYPE (StdMap.find Z.ltb 0 (t_portsrc t).1)
  | FDport => KL4PortLookup DESTINATION_TYPE (StdMap.find Z.ltb 0 (t_portdst t).1)
  | FFlags => KTcpFlagsLookup
  end.
(** What a rule says about a field, as far as its presence goes. *)
Definition field_tested (f : field) (r : ChainRule) : bool :=
  match f with
  | FConntrack => bool_decide (is_Some (conntrack r)) | FSrc => bool_decide (is_Some (ipSrc r))
  | FDst => bool_decide (is_Some (ipDst r)) | FProto => bool_decide (is_Some (l4Proto r))
  | FSport => bool_decide (is_Some (srcPort r)) | FDport => bool_decide (is_Some (dstPort r))
  | FFlags => bool_decide (is_Some (tcpFlags r))
  end.

(** A rule that does not test a field accepts every packet on it. *)
Lemma field_accepts_untested f p r : field_tested f r = false -> field_accepts f p r = true.
Proof.
  assert (forall {A} (o : option A), bool_decide (is_Some o) = false -> o = None) as Hn.
  { intros A [a|]; [|done]. intros E%bool_decide_eq_false. exfalso. eauto. }
  destruct f; cbn [field_tested field_accepts]; intros Ht%Hn;
    unfold address_accepts, no_field_or, status_of, prefix_of, addr_of;
    try change (SOURCE_TYPE =? SOURCE_TYPE) with true;
    try change (DESTINATION_TYPE =? SOURCE_TYPE) with false; cbn iota; rewrite Ht; cbn [fmap option_fmap option_map];
    try done; apply orb_true_r.
Qed.

Section stages.
Context `{Inet} `{Tables ct_k ct_v}.
Context (cfg : config).
Context (rules : list ChainRule) (Hwf : wf_rules rules).
Context (Hplain : forall r, r ∈ rules -> plain_rule r).

(** The tries have 1024 entries, the wildcard's included. *)
Definition few_prefixes (type : Z) : Prop :=
  Z.of_nat (length (remove_dups (omap (prefix_of type) rules))) < 1024.
Context (Hfew_s : few_prefixes SOURCE_TYPE) (Hfew_d : few_prefixes DESTINATION_TYPE).

Record tables_ok (t : tables) : Prop := {
  to_conntrack : conntrack_table rules (t_conntrack t).1;
  to_ipsrc : ip_table SOURCE_TYPE rules (t_ipsrc t).1 (t_ipsrc t).2;
  to_ipdst : ip_table DESTINATION_TYPE rules (t_ipdst t).1 (t_ipdst t).2;
  to_protocol : key_table rules l4Proto (t_protocol t).1 (t_protocol t).2;
  to_portsrc : key_table rules (port_of SOURCE_TYPE) (t_portsrc t).1 (t_portsrc t).2;
  to_portdst : key_table rules (port_of DESTINATION_TYPE) (t_portdst t).1 (t_portdst t).2;
  to_flags : flags_table rules (t_flags t).1;
}.

Lemma compile_tables_spec : exists t, compile_tables rules = Ok t /\ tables_ok t.
Proof using Hwf.
  unfold compile_tables.
  destruct (conntrack_map_spec rules Hwf) as (? & -> & ?).
  destruct (ip_map_spec SOURCE_TYPE rules Hwf) as (? & ? & -> & ?).
  destruct (ip_map_spec DESTINATION_TYPE rules Hwf) as (? & ? & -> & ?).
  destruct (proto_map_spec rules Hwf) as (? & ? & -> & ?).
  destruct (port_map_spec rules Hwf SOURCE_TYPE) as (? & ? & -> & ?).
  destruct (port_map_spec rules Hwf DESTINATION_TYPE) as (? & ? & -> & ?).
  destruct (flags_map_spec rules Hwf) as (? & -> & ?).
  eexists. split; [done|]. by split.
Qed.

(** * One module *)
Definition field_populate (t : tables) (f : field) (m : module) : M side unit :=
  match f with
  | FConntrack => conntrack_match_updateMap m (t_conntrack t).1
  | FSrc => ip_lookup_updateMap m (t_ipsrc t).1
  | FDst => ip_lookup_updateMap m (t_ipdst t).1
  | FProto => l4_protocol_lookup_updateMap m (t_protocol t).1
  | FSport => l4_port_lookup_updateMap m (t_portsrc t).1
  | FDport => l4_port_lookup_updateMap m (t_portdst t).1
  | FFlags => tcp_flags_lookup_updateMap m (t_flags t).1
  end.

Definition new_module (k : kind) (i : Z) : module := {| m_kind := k; m_index := i; m_hop := None |}.

(** The building after a module at [pos]. *)
Definition grown (pos : Z) (k : kind) (b : building) : building :=
  Building (b_index b + 1) (match b_first b with Some f => Some f | None => Some (b_index b) end)
    (<[Z.to_nat pos := Some (new_module k (b_index b))]> (b_new b)).

Lemma inject_run pos k populate b s p :
  slots s !! b_index b = None ->
  populate (new_module k (b_index b))
    (set_slots (<[b_index b := getCode cfg s (new_module k (b_index b))]> (slots s)) s)
    = (Ok tt, set_slots (<[b_index b := p]> (slots s)) s) ->
  inject cfg pos k populate b s = (Ok (grown pos k b), set_slots (<[b_index b := p]> (slots s)) s).
Proof using Type.
  intros Hs Hp. unfold inject, new_module in *. cbn [m_index].
  assert (load cfg {| m_kind := k; m_index := b_index b; m_hop := None |} s =
    set_slots (<[b_index b := getCode cfg s {| m_kind := k; m_index := b_index b; m_hop := None |}]> (slots s)) s) as E.
  { unfold load. cbn [m_index]. by rewrite Hs. }
  unfold bind at 1, modify. rewrite E. unfold bind at 1. by rewrite Hp.
Qed.

Context (nr : Z) (Hnr : nr = FROM_NRULES_TO_NELEMENTS (Z.of_nat (length rules))) (Hne : rules ≠ []).

(** The module of a field that some rule tests. *)
Definition installs (t : tables) (f : field) : Prop :=
  forall b s, nr_elements s = nr -> slots s !! b_index b = None ->
    exists p, stage_ok rules nr f (b_index b + 1) p /\ inject cfg (field_pos f) (field_kind t f) (field_populate t f) b s =
        (Ok (grown (field_pos f) (field_kind t f) b), set_slots (<[b_index b := p]> (slots s)) s).

(** A fill that ends well is all the module needs. *)
Lemma installs_by t f b s p p' :
  slots s !! b_index b = None -> getCode cfg s (new_module (field_kind t f) (b_index b)) = p ->
  (forall m s1, m = new_module (field_kind t f) (b_index b) -> slots s1 !! m_index m = Some p ->
     field_populate t f m s1 = (Ok tt, set_slots (<[m_index m := p']> (slots s1)) s1)) ->
  stage_ok rules nr f (b_index b + 1) p' ->
  exists p, stage_ok rules nr f (b_index b + 1) p /\ inject cfg (field_pos f) (field_kind t f) (field_populate t f) b s =
        (Ok (grown (field_pos f) (field_kind t f) b), set_slots (<[b_index b := p]> (slots s)) s).
Proof using Type.
  intros Hs <- Hf Hp. exists p'. split; [done|]. apply inject_run; [done|].
  rewrite Hf; [simpl; by rewrite insert_insert_eq|done|simpl; by rewrite lookup_insert_eq].
Qed.

Lemma nonempty_ne {A} (l : list A) : nonempty l = true <-> l ≠ [].
Proof using Type. by destruct l. Qed.

Lemma conntrack_installs t : tables_ok t -> field_nonempty t FConntrack = true -> installs t FConntrack.
Proof using Hwf Hnr Hne.
  intros Ht He%nonempty_ne b s Hs Hfree.
  destruct (to_conntrack t Ht) as [Hnd [[_ E]|[Ho Hf]]]; [done|].
  destruct (a_updates_ok (t_conntrack t).1 (a_new (T := rowsT) 4 no_bits)) as (t' & Hu & _ & Hin & _).
  - by rewrite keys_fst in Hnd.
  - intros x (v & Hv)%find_fst; [|done]. specialize (Hf x). rewrite Hv in Hf. rewrite a_size_new.
    destruct Hf as [Hx _]. unfold statesVector in Hx. rewrite !elem_of_cons, elem_of_nil in Hx.
    unfold CT.NEW, CT.ESTABLISHED, CT.RELATED, CT.INVALID in Hx. lia.
  - apply (installs_by t FConntrack b s (ConntrackMatch (nr_elements s) (b_index b + 1) (a_new 4 no_bits))
      (ConntrackMatch (nr_elements s) (b_index b + 1) t')); [done|reflexivity|..].
    + intros m s1 _ Hm1. cbn [field_populate]. eapply (conntrack_fill_run m); [exact Hm1|done].
    + rewrite Hs. apply (conntrack_match_ok rules Hwf nr Hnr Hne). intros x Hx. specialize (Hf x).
      destruct (StdMap.find Z.ltb x (t_conntrack t).1) as [v|] eqn:E; [|done].
      exists v. split; [|apply Hf]. apply Hin. by apply find_elem.
Qed.

Lemma ip_table_length type m brk :
  few_prefixes type -> ip_table type rules m brk -> Z.of_nat (length m) <= 1024.
Proof using Type.
  intros Hfew Hm. pose proof (it_nodup _ _ _ _ Hm) as Hnd.
  assert (StdMap.keys ip_key m ⊆+ (0, 0) :: remove_dups (omap (prefix_of type) rules)) as Hs.
  { apply NoDup_submseteq; [done|]. intros x Hx%(it_keys _ _ _ _ Hm).
    rewrite elem_of_cons, elem_of_remove_dups. tauto. }
  apply submseteq_length in Hs. unfold StdMap.keys in Hs. rewrite !length_fmap in Hs. simpl in Hs.
  unfold few_prefixes in Hfew. lia.
Qed.

Lemma ip_installs t f type m brk :
  (f = FSrc /\ type = SOURCE_TYPE /\ t_ipsrc t = (m, brk) \/
   f = FDst /\ type = DESTINATION_TYPE /\ t_ipdst t = (m, brk)) ->
  few_prefixes type -> ip_table type rules m brk -> m ≠ [] -> installs t f.
Proof using Hwf Hnr Hne Hplain.
  intros Hf Hfew Hm Hmne b s Hs Hfree.
  pose proof (ip_table_length type m brk Hfew Hm) as Hlen.
  assert (Z.of_nat (length m) <= l_free (l_new (T := trieT) 1024)) as Hroom by (by rewrite l_free_new).
  destruct (l_updates_ok (lpm_entries m) (l_new (T := trieT) 1024)) as (t' & Hu & _).
  { unfold lpm_entries. by rewrite length_fmap. }
  apply (installs_by t f b s (IpLookup type (nr_elements s) (b_index b + 1) (l_new 1024))
    (IpLookup type (nr_elements s) (b_index b + 1) t')).
  - done.
  - by destruct Hf as [(-> & -> & _)|(-> & -> & _)].
  - intros m0 s1 _ Hm0. destruct Hf as [(-> & -> & E)|(-> & -> & E)]; cbn [field_populate]; rewrite E;
      exact (ip_fill_run m0 _ _ _ _ _ _ _ Hm0 Hu).
  - rewrite Hs. apply (ip_lookup_ok rules Hwf nr Hnr Hne); [tauto|]. intros p Hp.
    apply (lpm_lookup_spec type rules Hwf m brk Hm) with (t := l_new 1024); try done.
    + intros r q Hr Hq. destruct Hf as [(_ & -> & _)|(_ & -> & _)]; [by apply (pl_src r (Hplain r Hr))|by apply (pl_dst r (Hplain r Hr))].
    + apply l_entries_new.
    + intros E. by apply Hmne, (it_empty _ _ _ _ Hm).
Qed.

Lemma known_protocol_u8 x : known_protocol x = true -> 0 <= x < 2 ^ 8.
Proof using Type.
  unfold known_protocol. rewrite bool_decide_eq_true, !elem_of_cons, elem_of_nil.
  unfold IPPROTO_TCP, IPPROTO_UDP, IPPROTO_ICMP, IPPROTO_GRE. lia.
Qed.

Lemma proto_installs t : tables_ok t -> field_nonempty t FProto = true -> installs t FProto.
Proof using Hwf Hnr Hne.
  intros Ht He%nonempty_ne b s Hs Hfree. pose proof (to_protocol t Ht) as Hm.
  destruct (hash_fill rules Hwf u8 _ _ _ (fun x => 0 <= x < 2 ^ 8) Hm) as (t' & Hu & Hl).
  - intros x y Hx Hy. unfold u8. by rewrite !Z.mod_small.
  - lia.
  - intros x (r & Hr & Hx)%list_elem_of_omap. pose proof (wf_proto r (wfr_rule rules Hwf r Hr) x Hx) as Hk. by apply known_protocol_u8.
  - apply (installs_by t FProto b s (L4ProtocolLookup (nr_elements s) (b_index b + 1) (h_new 10240))
      (L4ProtocolLookup (nr_elements s) (b_index b + 1) t')); [done|reflexivity|..].
    + intros m s1 _ Hm1. cbn [field_populate]. eapply (proto_fill_run m); [exact Hm1|done].
    + rewrite Hs. eapply (l4_protocol_lookup_ok rules Hwf nr Hnr Hne); [exact Hm|done|].
      intros x Hx. rewrite <- Hl by done. unfold u8. by rewrite Z.mod_small.
Qed.

Lemma port_installs t f type m brk :
  (f = FSport /\ type = SOURCE_TYPE /\ t_portsrc t = (m, brk) \/
   f = FDport /\ type = DESTINATION_TYPE /\ t_portdst t = (m, brk)) ->
  key_table rules (port_of type) m brk -> m ≠ [] -> installs t f.
Proof using Hwf Hnr Hne Hplain.
  intros Hf Hm Hmne b s Hs Hfree.
  destruct (hash_fill rules Hwf bswap16 _ _ _ (fun x => 0 <= x < 2 ^ 16) Hm) as (t' & Hu & Hl).
  - intros x y Hx Hy E. destruct (bswap16_invol x Hx) as [<- _], (bswap16_invol y Hy) as [<- _]. by rewrite E.
  - lia.
  - intros x (r & Hr & Hx)%list_elem_of_omap. pose proof (wfr_rule rules Hwf r Hr) as Hw.
    unfold port_of in Hx. destruct (type =? SOURCE_TYPE); [by apply (wf_sport r Hw)|by apply (wf_dport r Hw)].
  - apply (installs_by t f b s (L4PortLookup type (nr_elements s) (b_index b + 1) (StdMap.find Z.ltb 0 m) (h_new 10240))
      (L4PortLookup type (nr_elements s) (b_index b + 1) (StdMap.find Z.ltb 0 m) t')); [done|..].
    + destruct Hf as [(-> & -> & E)|(-> & -> & E)]; cbn [field_kind]; by rewrite E.
    + intros m0 s1 _ Hm0. destruct Hf as [(-> & -> & E)|(-> & -> & E)]; cbn [field_populate]; rewrite E;
        exact (port_fill_run m0 _ _ _ _ _ _ _ _ Hm0 Hu).
    + rewrite Hs. eapply (l4_port_lookup_ok rules Hwf Hplain nr Hnr Hne); [tauto|done|done|exact Hl].
Qed.

Lemma flags_installs t : tables_ok t -> field_nonempty t FFlags = true -> installs t FFlags.
Proof using Hwf Hnr Hne.
  intros Ht He%nonempty_ne b s Hs Hfree.
  destruct (to_flags t Ht) as [[_ E]|[Ho [Hl Hr]]]; [done|].
  destruct (array_fill (t_flags t).1 (a_new (T := rowsT) 256 no_bits)) as (t' & Hu & Hin).
  - rewrite a_size_new. lia.
  - apply (installs_by t FFlags b s (TcpFlagsLookup (nr_elements s) (b_index b + 1) (a_new 256 no_bits))
      (TcpFlagsLookup (nr_elements s) (b_index b + 1) t')); [done|reflexivity|..].
    + intros m s1 _ Hm1. cbn [field_populate]. eapply (flags_fill_run m); [exact Hm1|done].
    + rewrite Hs. apply (tcp_flags_lookup_ok rules Hwf nr Hnr Hne). intros x Hx.
      destruct (lookup_lt_is_Some_2 (t_flags t).1 (Z.to_nat x)) as [v Hv]; [lia|].
      exists v. specialize (Hr _ _ Hv). specialize (Hin _ _ Hv). rewrite Z2Nat.id in Hr, Hin by lia. done.
Qed.

(** Every module of a field that has a table. *)
Lemma field_installs t f : tables_ok t -> field_nonempty t f = true -> installs t f.
Proof using Hwf Hnr Hne Hplain Hfew_s Hfew_d.
  intros Ht He. destruct f.
  - by apply conntrack_installs.
  - apply nonempty_ne in He. apply (ip_installs t _ SOURCE_TYPE (t_ipsrc t).1 (t_ipsrc t).2); [left|done|apply Ht|done].
    split; [done|]. split; [done|]. apply surjective_pairing.
  - apply nonempty_ne in He. apply (ip_installs t _ DESTINATION_TYPE (t_ipdst t).1 (t_ipdst t).2); [right|done|apply Ht|done].
    split; [done|]. split; [done|]. apply surjective_pairing.
  - by apply proto_installs.
  - apply nonempty_ne in He. apply (port_installs t _ SOURCE_TYPE (t_portsrc t).1 (t_portsrc t).2); [left|apply Ht|done].
    split; [done|]. split; [done|]. apply surjective_pairing.
  - apply nonempty_ne in He. apply (port_installs t _ DESTINATION_TYPE (t_portdst t).1 (t_portdst t).2); [right|apply Ht|done].
    split; [done|]. split; [done|]. apply surjective_pairing.
  - by apply flags_installs.
Qed.

(** A field without a table is one that no rule tests. *)
Lemma field_empty t f r p :
  tables_ok t -> field_nonempty t f = false -> r ∈ rules -> field_accepts f p r = true.
Proof using Type.
  intros Ht He Hr. apply field_accepts_untested.
  assert (forall {A} (l : list A), nonempty l = false -> l = []) as Hn by (by intros ? []).
  assert (forall {A} (k : ChainRule -> option A), omap k rules = [] -> k r = None) as Ho.
  { intros A k E. destruct (k r) as [a|] eqn:Ek; [|done]. exfalso.
    apply (not_elem_of_nil a). rewrite <- E. apply list_elem_of_omap. eauto. }
  destruct f; apply Hn in He; cbn [field_tested]; apply bool_decide_eq_false; rewrite <- eq_None_not_Some.
  - destruct (to_conntrack t Ht) as [_ [[E _]|[_ E]]].
    + apply Ho in E. unfold status_of in E. by destruct (conntrack r).
    + exfalso. specialize (E CT.NEW). rewrite He in E. simpl in E. apply E. by left.
  - apply (it_empty _ _ _ _ (to_ipsrc t Ht)) in He. apply Ho in He. unfold prefix_of, addr_of in He.
    change (SOURCE_TYPE =? SOURCE_TYPE) with true in He. cbn iota in He. by destruct (ipSrc r).
  - apply (it_empty _ _ _ _ (to_ipdst t Ht)) in He. apply Ho in He. unfold prefix_of, addr_of in He.
    change (DESTINATION_TYPE =? SOURCE_TYPE) with false in He. cbn iota in He. by destruct (ipDst r).
  - by apply (kt_empty _ _ _ _ (to_protocol t Ht)), Ho in He.
  - by apply (kt_empty _ _ _ _ (to_portsrc t Ht)), Ho in He.
  - by apply (kt_empty _ _ _ _ (to_portdst t Ht)), Ho in He.
  - destruct (to_flags t Ht) as [[E _]|[_ [E _]]]; [by apply Ho in E|]. by rewrite He in E.
Qed.
End stages.
