(* ===== verification/FwInstall.v ===== *)
(** pcn-firewall, the whole of [updateChain]: the programs of the new chain are
    laid out at consecutive indices, the forwarder is switched to the first one,
    and the programs of the previous chain are deleted.  [good] is the invariant
    of a firewall's direction, and [updateChain_run] is what one update does. *)
From Stdlib Require Import ZArith Lia.
From stdpp Require Import base gmap sets list strings numbers.
From S2P Require Import Prelude.
From S2P Require Import Bpf.
From S2P Require Import NetUtils.
From S2P Require Import FwRule.
From S2P Require Import FwFlags.
From S2P Require Import FwRuleFacts.
From S2P Require Import FwBits.
From S2P Require Import FwMaps.
From S2P Require Import FwMapsFacts.
From S2P Require Import FwIpFacts.
From S2P Require Import Frame.
From S2P Require Import FwConntrack.
From S2P Require Import FwDatapath.
From S2P Require Import FwPipeline.
From S2P Require Import FwModules.
From S2P Require Import FwChain.
From S2P Require Import FwUpdate.
From S2P Require Import FwStages.
#[local] Open Scope Z_scope.
#[local] Open Scope cpp_scope.

(** * Programs at consecutive indices *)
Section layout.
Context {A : Type}.

Fixpoint install (i : Z) (ps : list A) (m : gmap Z A) : gmap Z A :=
  match ps with [] => m | p :: ps => install (i + 1) ps (<[i := p]> m) end.

Lemma install_snoc i ps p m : install i (ps ++ [p]) m = <[i + Z.of_nat (length ps) := p]> (install i ps m).
Proof.
  revert i m. induction ps as [|q ps IH]; intros i m; simpl; [by rewrite Z.add_0_r|].
  rewrite IH. f_equal. lia.
Qed.

Lemma install_lookup i ps m k :
  install i ps m !! k =
  if decide (i <= k < i + Z.of_nat (length ps)) then ps !! Z.to_nat (k - i) else m !! k.
Proof.
  revert i m. induction ps as [|q ps IH]; intros i m; simpl; [by rewrite decide_False by lia|].
  rewrite IH. destruct (decide (k = i)) as [->|Hn].
  - rewrite decide_False by lia. rewrite decide_True by lia. rewrite lookup_insert_eq.
    by rewrite Z.sub_diag.
  - destruct (decide (i + 1 <= k < i + 1 + Z.of_nat (length ps))).
    + rewrite decide_True by lia. replace (Z.to_nat (k - i)) with (S (Z.to_nat (k - (i + 1)))) by lia. done.
    + rewrite decide_False by lia. by rewrite lookup_insert_ne.
Qed.
End layout.

(** [for (auto i : ps) l[i] = g(i)] *)
Definition write_at {A} (ps : list Z) (g : Z -> A) (l : list A) : list A :=
  foldl (fun l i => <[Z.to_nat i := g i]> l) l ps.

Lemma length_write_at {A} ps (g : Z -> A) l : length (write_at ps g l) = length l.
Proof. revert l. induction ps as [|i ps IH]; intros l; simpl; [done|]. by rewrite IH, length_insert. Qed.

Lemma lookup_write_at {A} ps (g : Z -> A) l k :
  (forall i, i ∈ ps -> 0 <= i < Z.of_nat (length l)) ->
  write_at ps g l !! k = if decide (Z.of_nat k ∈ ps) then Some (g (Z.of_nat k)) else l !! k.
Proof.
  revert l. induction ps as [|i ps IH]; intros l Hin.
  { by rewrite decide_False by apply not_elem_of_nil. }
  change (write_at (i :: ps) g l) with (write_at ps g (<[Z.to_nat i := g i]> l)).
  assert (0 <= i < Z.of_nat (length l)) as Hi by (apply Hin; by left).
  rewrite IH by (intros j Hj; rewrite length_insert; apply Hin; by right).
  destruct (decide (Z.of_nat k ∈ ps)) as [Hk|Hk]; [by rewrite decide_True by (by right)|].
  destruct (decide (Z.of_nat k = i)) as [<-|Hne].
  - rewrite decide_True by (by left). rewrite Nat2Z.id in *. by rewrite list_lookup_insert_eq by lia.
  - rewrite decide_False by (by apply not_elem_of_cons). rewrite list_lookup_insert_ne; [done|lia].
Qed.

(** * Modules by position *)
Definition indices (l : list (option module)) : list Z := omap (fmap m_index) l.
Definition chain_modules (v : list (option module)) : list (option module) :=
  (fun i => default None (v !! Z.to_nat i)) <$> chain_positions.

Lemma indices_insert l k m :
  l !! k = Some None -> indices (<[k := Some m]> l) ≡ₚ m_index m :: indices l.
Proof.
  unfold indices. revert k. induction l as [|o l IH]; intros [|k] Hk; simpl in *; [done..| |].
  - by injection Hk as ->.
  - destruct o; simpl; rewrite IH by done; [apply Permutation_swap|done].
Qed.

Lemma lookup_chain_modules v k :
  (k < 9)%nat -> chain_modules v !! k = Some (default None (v !! (k + 7)%nat)).
Proof.
  intros Hk. unfold chain_modules. rewrite list_lookup_fmap. unfold chain_positions, Modules.NR_MODULES.
  rewrite lookup_seqZ_lt by lia. simpl. unfold Modules.CONNTRACKMATCH. do 3 f_equal. lia.
Qed.

Lemma chain_modules_insert v pos m :
  7 <= pos < 16 -> (16 <= length v)%nat ->
  chain_modules (<[Z.to_nat pos := Some m]> v) = <[Z.to_nat (pos - 7) := Some m]> (chain_modules v).
Proof.
  intros Hp Hl. assert (length (chain_modules v) = 9%nat) as Hlen by done.
  apply list_eq. intros k. destruct (decide (k < 9)%nat) as [Hk|Hk].
  - rewrite lookup_chain_modules by done. destruct (decide (k = Z.to_nat (pos - 7))) as [->|Hn].
    + rewrite list_lookup_insert_eq by lia.
      replace (Z.to_nat (pos - 7) + 7)%nat with (Z.to_nat pos) by lia. by rewrite list_lookup_insert_eq by lia.
    + rewrite !list_lookup_insert_ne by lia. by rewrite lookup_chain_modules.
  - assert (forall w : list (option module), length w = 9%nat -> w !! k = None) as Hn
      by (intros w Hw; apply lookup_ge_None_2; lia).
    rewrite !Hn; [done|by rewrite length_insert|done].
Qed.

(** * The modules of the fields *)
Section building.
Context `{Inet} `{Tables ct_k ct_v}.

(** The programs loaded from index [i0] on, for a building that started in [s0]. *)
Record placed (i0 : Z) (s0 : side) (ps : list program) (b : building) (s : side) : Prop := {
  bd_index : b_index b = i0 + Z.of_nat (length ps);
  bd_state : s = set_slots (install i0 ps (slots s0)) s0;
  bd_first : b_first b = match ps with [] => None | _ => Some i0 end;
  bd_length : length (b_new b) = 17%nat;
  bd_indices : indices (chain_modules (b_new b)) ≡ₚ seqZ i0 (Z.of_nat (length ps));
}.

Lemma placed_start i0 s0 :
  placed i0 s0 [] (Building i0 None (replicate (Z.to_nat (Modules.NR_INITIAL_MODULES + Modules.NR_MODULES + 1)) None)) s0.
Proof using Type. split; simpl; [lia|by rewrite set_slots_id|done..]. Qed.

Lemma placed_free i0 s0 ps b s :
  placed i0 s0 ps b s -> slots s0 !! b_index b = None -> slots s !! b_index b = None.
Proof using Type.
  intros Hb Hf. rewrite (bd_state _ _ _ _ _ Hb). cbn [slots set_slots]. rewrite install_lookup.
  rewrite decide_False; [done|]. rewrite (bd_index _ _ _ _ _ Hb). lia.
Qed.

Lemma placed_grown i0 s0 ps b s pos k p :
  placed i0 s0 ps b s -> 7 <= pos < 16 -> b_new b !! Z.to_nat pos = Some None ->
  placed i0 s0 (ps ++ [p]) (grown pos k b) (set_slots (<[b_index b := p]> (slots s)) s).
Proof using Type.
  intros Hb Hr Hvac. pose proof (bd_index _ _ _ _ _ Hb) as Hi. pose proof (bd_length _ _ _ _ _ Hb) as Hlen.
  split; cbn [grown b_index b_first b_new].
  - rewrite length_app. simpl. lia.
  - rewrite (install_snoc i0 ps p), <- Hi.
    pose proof (bd_state _ _ _ _ _ Hb) as Est. rewrite Est at 2. rewrite set_slots_set_slots.
    by rewrite Est.
  - rewrite (bd_first _ _ _ _ _ Hb). destruct ps; [|done]. simpl in *. f_equal. lia.
  - by rewrite length_insert.
  - rewrite chain_modules_insert by lia. rewrite indices_insert.
    + rewrite (bd_indices _ _ _ _ _ Hb), length_app. cbn [length m_index new_module].
      rewrite Hi, Nat2Z.inj_add, seqZ_app by lia. simpl. rewrite (seqZ_cons _ (Z.of_nat 1)) by lia.
      simpl. rewrite Permutation_app_comm. done.
    + rewrite lookup_chain_modules by lia.
      replace (Z.to_nat (pos - 7) + 7)%nat with (Z.to_nat pos) by lia. by rewrite Hvac.
Qed.

Context (cfg : config) (rules : list ChainRule) (nr : Z) (t : tables).

Fixpoint inject_fields (second : bool) (fs : list field) (b : building) : M side building :=
  match fs with
  | [] => ret b
  | f :: fs =>
      b <-- inject_if cfg (field_nonempty t f && xorb (field_brk t f) second) (field_pos f) (field_kind t f)
              (field_populate t f) b ;;
      inject_fields second fs b
  end.

Lemma inject_round_fields second b s : inject_round cfg t second b s = inject_fields second all_fields b s.
Proof using Type.
  unfold inject_round, all_fields, wanted. cbn [inject_fields field_nonempty field_brk field_pos field_kind].
  repeat (apply bind_cong; intros ? ?). unfold bind, ret. by destruct (inject_if _ _ _ _ _ _ _) as [[?| |] ?].
Qed.

(** [l]: the fields whose modules are loaded, with their programs. *)
Record built (i0 : Z) (s0 : side) (l : list (field * program)) (b : building) (s : side) : Prop := {
  bd_placed : placed i0 s0 l.*2 b s;
  bd_stages j f p : l !! j = Some (f, p) -> stage_ok rules nr f (i0 + Z.of_nat j + 1) p;
  bd_vacant k : 7 <= k < 16 -> (forall f, f ∈ l.*1 -> field_pos f ≠ k) -> b_new b !! Z.to_nat k = Some None;
}.

Lemma field_pos_range f : 7 <= field_pos f < 14.
Proof using Type. destruct f; vm_compute; split; done. Qed.
Lemma field_pos_inj f g : field_pos f = field_pos g -> f = g.
Proof using Type. by destruct f, g. Qed.

(** A module more: [l] grows by one. *)
Lemma built_grown i0 s0 l b s f p :
  built i0 s0 l b s -> f ∉ l.*1 -> stage_ok rules nr f (b_index b + 1) p ->
  built i0 s0 (l ++ [(f, p)]) (grown (field_pos f) (field_kind t f) b)
    (set_slots (<[b_index b := p]> (slots s)) s).
Proof using Type.
  intros Hb Hf Hp. pose proof (bd_placed _ _ _ _ _ Hb) as Hpl. pose proof (field_pos_range f) as Hr.
  pose proof (bd_index _ _ _ _ _ Hpl) as Hi. rewrite length_fmap in Hi. split.
  - rewrite fmap_app. apply placed_grown; [done|lia|]. apply (bd_vacant _ _ _ _ _ Hb); [lia|].
    intros g Hg E%field_pos_inj. congruence.
  - intros j g q Hj. destruct (decide (j < length l)%nat).
    + rewrite lookup_app_l in Hj by done. by apply (bd_stages _ _ _ _ _ Hb).
    + rewrite lookup_app_r in Hj by lia. apply list_lookup_singleton_Some in Hj as [E [= -> ->]].
      by replace (i0 + Z.of_nat j + 1) with (b_index b + 1) by lia.
  - intros k Hk Hvac. cbn [grown b_new]. rewrite list_lookup_insert_ne.
    + apply (bd_vacant _ _ _ _ _ Hb); [done|]. intros g Hg. apply Hvac. rewrite fmap_app. set_solver.
    + assert (field_pos f ≠ k); [|lia]. apply Hvac. rewrite fmap_app. set_solver.
Qed.

Definition wanted_in (second : bool) (fs : list field) : list field :=
  filter (fun f => field_nonempty t f && xorb (field_brk t f) second = true) fs.

Lemma wanted_in_length fs : (length (wanted_in false fs) + length (wanted_in true fs) <= length fs)%nat.
Proof using Type.
  unfold wanted_in. induction fs as [|f fs IH]; [done|]. rewrite !filter_cons.
  repeat case_decide; destruct (field_nonempty t f), (field_brk t f); simpl in *; try done; lia.
Qed.

Context (Hinst : forall f, field_nonempty t f = true -> installs cfg rules nr t f).

(** One round over the fields [fs]. *)
Lemma inject_fields_run second i0 s0 fs l b s :
  built i0 s0 l b s -> nr_elements s0 = nr -> NoDup fs ->
  (forall f, f ∈ wanted_in second fs -> f ∉ l.*1) ->
  (forall i, i0 <= i < i0 + Z.of_nat (length l + length (wanted_in second fs)) -> slots s0 !! i = None) ->
  exists l' b' s', inject_fields second fs b s = (Ok b', s') /\ built i0 s0 (l ++ l') b' s' /\
    l'.*1 = wanted_in second fs.
Proof using Hinst.
  revert l b s. induction fs as [|f fs IH]; intros l b s Hb Hs Hnd Hfresh Hfree.
  { exists [], b, s. rewrite app_nil_r. done. }
  apply list.NoDup_cons in Hnd as [Hf Hnd]. cbn [inject_fields]. unfold inject_if.
  pose proof (bd_placed _ _ _ _ _ Hb) as Hpl. pose proof (bd_index _ _ _ _ _ Hpl) as Hi. rewrite length_fmap in Hi.
  unfold wanted_in in *. destruct (field_nonempty t f && xorb (field_brk t f) second) eqn:Ew.
  - rewrite filter_cons_True in * by done.
    apply andb_true_iff in Ew as Ew'. destruct Ew' as [E1 E2].
    destruct (Hinst f E1 b s) as (p & Hok & Hrun).
    + by rewrite (bd_state _ _ _ _ _ Hpl).
    + apply (placed_free _ _ _ _ _ Hpl). rewrite Hi. apply Hfree. simpl. lia.
    + rewrite (bind_run _ _ _ _ _ Hrun).
      destruct (IH (l ++ [(f, p)]) _ _ (built_grown _ _ _ _ _ _ _ Hb (Hfresh f ltac:(by left)) Hok))
        as (l' & b' & s' & Hr & Hb' & Hl'); [done|done| | |].
      * intros g Hg. rewrite fmap_app. simpl. apply not_elem_of_app. split; [apply Hfresh; by right|].
        apply list_elem_of_filter in Hg. set_solver.
      * intros i Hi'. apply Hfree. rewrite length_app in Hi'. simpl in *. lia.
      * exists ((f, p) :: l'), b', s'. split; [done|]. split; [by rewrite <- app_assoc in Hb'|].
        by rewrite <- Hl'.
  - rewrite filter_cons_False in * by congruence. unfold bind at 1, ret. by apply IH.
Qed.

(** Both rounds: every field with a table has its module, exactly once. *)
Lemma inject_rounds_run i0 s0 b0 :
  b0 = Building i0 None (replicate (Z.to_nat (Modules.NR_INITIAL_MODULES + Modules.NR_MODULES + 1)) None) ->
  nr_elements s0 = nr -> (forall i, i0 <= i < i0 + 7 -> slots s0 !! i = None) ->
  exists l b s, (b <-- inject_round cfg t false b0 ;; inject_round cfg t true b) s0 = (Ok b, s) /\
    built i0 s0 l b s /\ l.*1 = wanted_in false all_fields ++ wanted_in true all_fields /\ (length l <= 7)%nat.
Proof using Hinst.
  intros -> Hs Hfree.
  assert (length (wanted_in false all_fields) + length (wanted_in true all_fields) <= 7)%nat as Hlen.
  { apply (wanted_in_length all_fields). }
  assert (built i0 s0 [] (Building i0 None (replicate (Z.to_nat (Modules.NR_INITIAL_MODULES + Modules.NR_MODULES + 1)) None)) s0) as Hb0.
  { split; [apply placed_start|done|]. intros k Hk _. apply lookup_replicate. split; [done|].
    unfold Modules.NR_INITIAL_MODULES, Modules.NR_MODULES. lia. }
  assert (NoDup all_fields) as Hnd by (apply (bool_decide_unpack _); vm_compute; done).
  destruct (inject_fields_run false i0 s0 all_fields [] _ _ Hb0) as (l1 & b1 & s1 & Hr1 & Hb1 & Hl1); [done|done| | |].
  { intros f _. apply not_elem_of_nil. }
  { intros i Hi. apply Hfree. simpl in Hi. lia. }
  destruct (inject_fields_run true i0 s0 all_fields l1 b1 s1 Hb1) as (l2 & b2 & s2 & Hr2 & Hb2 & Hl2); [done|done| | |].
  { intros f Hf. rewrite Hl1. unfold wanted_in in *. rewrite list_elem_of_filter in *.
    destruct Hf as [Hf _]. intros [Hf' _]. by destruct (field_nonempty t f), (field_brk t f). }
  { intros i Hi. apply Hfree. rewrite <- (length_fmap fst l1), Hl1 in Hi. lia. }
  exists (l1 ++ l2), b2, s2. split; [|split; [done|split]].
  - rewrite <- inject_round_fields in Hr1. rewrite (bind_run _ _ _ _ _ Hr1). by rewrite inject_round_fields.
  - by rewrite fmap_app, Hl1, Hl2.
  - rewrite <- (length_fmap fst), fmap_app, Hl1, Hl2, length_app. lia.
Qed.
End building.

(** * The bit scan and the actions *)
Section tail.
Context `{Inet} `{Tables ct_k ct_v}.
Context (cfg : config) (rules : list ChainRule) (nr : Z) (t : tables).
Context (Hids : ids_ok rules) (Hlen : Z.of_nat (length rules) <= 8253).
Context (Hact : forall r, r ∈ rules -> action_supported r).

Lemma ids_imap : id <$> rules = Z.of_nat <$> seq 0 (length rules).
Proof using Hids.
  apply list_eq. intros k. rewrite !list_lookup_fmap. destruct (rules !! k) as [r|] eqn:E.
  - apply lookup_lt_Some in E as Hk. rewrite lookup_seq_lt by done. simpl. by rewrite (Hids _ _ E).
  - apply lookup_ge_None in E. by rewrite lookup_seq_ge by done.
Qed.

Lemma actions_fill (a : intsT) :
  a_size a = 10000 ->
  exists a', a_updates a ((fun r => (id r, action_code r)) <$> rules) = Ok a' /\
    forall i r, rules !! i = Some r -> a_lookup a' (Z.of_nat i) = Some (action_code r).
Proof using Hids Hlen.
  intros Ha. destruct (a_updates_ok ((fun r => (id r, action_code r)) <$> rules) a) as (a' & Hu & _ & Hin & _).
  - rewrite <- list_fmap_compose.
    change (NoDup (id <$> rules)). rewrite ids_imap. apply NoDup_fmap; [intros x y E; lia|apply NoDup_seq].
  - intros i. rewrite <- list_fmap_compose. change (i ∈ id <$> rules -> 0 <= i < a_size a). rewrite ids_imap.
    intros (k & -> & Hk%elem_of_seq)%list_elem_of_fmap. lia.
  - exists a'. split; [done|]. intros i r Hr. apply Hin, list_elem_of_fmap. exists r.
    split; [by rewrite (Hids _ _ Hr)|by eapply list_elem_of_lookup_2].
Qed.

(** The counters of a program start at zero, one row per rule. *)
Definition counters (n : Z) : rowsT := a_new n (cpu_zeros cfg).

Lemma inject_tail_run i0 s0 l b s :
  built rules nr i0 s0 l b s -> nr_elements s0 = nr -> (forall f, f ∈ l.*1 -> field_pos f < 14) ->
  slots s0 !! (i0 + Z.of_nat (length l)) = None -> slots s0 !! (i0 + Z.of_nat (length l) + 1) = None ->
  exists b' s' t64 acts, inject_tail cfg rules b s = (Ok b', s') /\
    placed i0 s0 (l.*2 ++ [BitScan nr (i0 + Z.of_nat (length l) + 1) t64;
                           ActionLookup nr acts (counters 8000) (counters 8000)]) b' s' /\
    (forall k w, index64 !! Z.to_nat k = Some w -> 0 <= k < 64 -> a_lookup t64 k = Some w) /\
    (forall i r, rules !! i = Some r -> a_lookup acts (Z.of_nat i) = Some (action_code r)) /\
    b_new b' !! 15%nat = Some (Some (new_module KActionLookup (i0 + Z.of_nat (length l) + 1))).
Proof using Hids Hlen Hact.
  intros Hb Hs Hpos Hf1 Hf2. pose proof (bd_placed _ _ _ _ _ _ _ Hb) as Hpl.
  pose proof (bd_index _ _ _ _ _ Hpl) as Hi. rewrite length_fmap in Hi.
  pose proof (bd_state _ _ _ _ _ Hpl) as Est.
  destruct (array_fill index64 (a_new (T := intsT) 64 0)) as (t64 & Hu & Hl64).
  { rewrite a_size_new. vm_compute. done. }
  destruct (actions_fill (a_new 10000 0)) as (acts & Hua & Hla); [apply a_size_new|].
  assert (nr_elements s = nr) as Hns by (by rewrite Est).
  assert (inject cfg Modules.BITSCAN KBitScan bitscan_loadIndex64 b s =
    (Ok (grown Modules.BITSCAN KBitScan b),
     set_slots (<[b_index b := BitScan nr (b_index b + 1) t64]> (slots s)) s)) as E1.
  { apply inject_run; [apply (placed_free _ _ _ _ _ Hpl); by rewrite Hi|].
    cbn [getCode m_kind new_module]. unfold bitscan_code. rewrite Hns.
    rewrite (bitscan_fill_run _ nr (b_index b + 1) (a_new 64 0) t64); [|simpl; by rewrite lookup_insert_eq|done].
    simpl. by rewrite insert_insert_eq. }
  pose proof (placed_grown _ _ _ _ _ Modules.BITSCAN KBitScan (BitScan nr (b_index b + 1) t64) Hpl) as Hpl1.
  destruct Hpl1 as [Hi1 Est1 Hfst1 Hlen1 Hind1].
  { unfold Modules.BITSCAN. lia. }
  { apply (bd_vacant _ _ _ _ _ _ _ Hb); [unfold Modules.BITSCAN; lia|].
    intros f Hf E. specialize (Hpos f Hf). unfold Modules.BITSCAN in E. lia. }
  set (b1 := grown Modules.BITSCAN KBitScan b) in *.
  set (s1 := set_slots (<[b_index b := BitScan nr (b_index b + 1) t64]> (slots s)) s) in *.
  assert (placed i0 s0 (l.*2 ++ [BitScan nr (b_index b + 1) t64]) b1 s1) as Hpl1 by (by split).
  assert (b_index b1 = i0 + Z.of_nat (length l) + 1) as Hib1.
  { unfold b1. simpl. by rewrite Hi. }
  assert (inject cfg Modules.ACTION KActionLookup (fun m =>
    for_each rules (fun rule =>
      action <-- lift (a <~ getAction rule ;; ActionEnum_to_int a) ;;
      action_lookup_updateTableValue m (getId rule) action)) b1 s1 =
    (Ok (grown Modules.ACTION KActionLookup b1),
     set_slots (<[b_index b1 := ActionLookup nr acts (counters 8000) (counters 8000)]> (slots s1)) s1)) as E2.
  { apply inject_run; [apply (placed_free _ _ _ _ _ Hpl1); by rewrite Hib1|].
    cbn [getCode m_kind new_module]. unfold action_lookup_code.
    replace (nr_elements s1) with nr by (by rewrite <- Hns).
    rewrite (action_fill_run _ nr (a_new 10000 0) acts (counters 8000) (counters 8000));
      [|done|simpl; by rewrite lookup_insert_eq|done].
    cbn [new_module m_index slots set_slots]. by rewrite insert_insert_eq. }
  exists (grown Modules.ACTION KActionLookup b1), (set_slots (<[b_index b1 := ActionLookup nr acts (counters 8000) (counters 8000)]> (slots s1)) s1), t64, acts.
  split; [unfold inject_tail; by rewrite (bind_run _ _ _ _ _ E1)|]. split; [|split; [|split; [done|]]].
  - rewrite <- Hi. replace (l.*2 ++ [_; _]) with ((l.*2 ++ [BitScan nr (b_index b + 1) t64]) ++ [ActionLookup nr acts (counters 8000) (counters 8000)])
      by (by rewrite <- app_assoc).
    apply placed_grown; [done|unfold Modules.ACTION; lia|]. unfold b1. cbn [grown b_new].
    rewrite list_lookup_insert_ne by done. apply (bd_vacant _ _ _ _ _ _ _ Hb); [unfold Modules.ACTION; lia|].
    intros f Hf E. specialize (Hpos f Hf). unfold Modules.ACTION in E. lia.
  - intros k w Hw Hk. specialize (Hl64 _ _ Hw). by rewrite Z2Nat.id in Hl64 by lia.
  - cbn [grown b_new]. change (Z.to_nat Modules.ACTION) with 15%nat.
    rewrite list_lookup_insert_eq; [by rewrite Hib1|]. lia.
Qed.
End tail.
