(* ===== verification/FwUpdateChain.v ===== *)
(** pcn-firewall, one update of a chain from beginning to end: the invariant of a
    direction of the firewall, the switch to the new programs, and what
    [updateChain] leaves behind. *)
From Stdlib Require Import ZArith Lia.
From stdpp Require Import base gmap sets list strings numbers.
From S2P Require Import Prelude.
From S2P Require Import Vec.
From S2P Require Import Bpf.
From S2P Require Import NetUtils.
From S2P Require Import FwRule.
From S2P Require Import FwFlags.
From S2P Require Import FwRuleFacts.
From S2P Require Import FwBits.
From S2P Require Import FwMaps.
From S2P Require Import FwMapsFacts.
From S2P Require Import FwIpFacts.
From S2P Require Import Frame.
From S2P Require Import FwConntrack.
From S2P Require Import FwDatapath.
From S2P Require Import FwPipeline.
From S2P Require Import FwModules.
From S2P Require Import FwChain.
From S2P Require Import FwUpdate.
From S2P Require Import FwStages.
From S2P Require Import FwInstall.
#[local] Open Scope Z_scope.
#[local] Open Scope cpp_scope.

Definition fixed_modules : list (Z * kind) :=
  [(Modules.PARSER, KParser); (Modules.CHAINFORWARDER, KChainForwarder);
   (Modules.DEFAULTACTION, KDefaultAction); (Modules.CONNTRACKTABLEUPDATE, KConntrackTableUpdate)].

Section update.
Context `{Inet} `{Tables ct_k ct_v}.
Context (cfg : config) (key0 : HorusRule).

(** ** The invariant *)
(** Where the previous chain's programs are: the half that is not next. *)
Definition installed_index (s : side) : Z :=
  Modules.NR_INITIAL_MODULES + (if chainNumber s =? 0 then 1 else 0) * Modules.NR_MODULES.

(** The Horus program alternates between two indices. *)
Definition horus_index (s : side) : Z :=
  if horus_swap s then Modules.HORUS_INGRESS_SWAP else Modules.HORUS_INGRESS.
Definition horus_other (s : side) : Z :=
  if horus_swap s then Modules.HORUS_INGRESS else Modules.HORUS_INGRESS_SWAP.

Record good (s : side) : Prop := {
  gd_name : name s ≠ INVALID_CHAIN;
  gd_number : chainNumber s = 0 \/ chainNumber s = 1;
  gd_programs : length (programs s) = 16%nat;
  gd_fixed i k : (i, k) ∈ fixed_modules ->
    exists hop, programs s !! Z.to_nat i = Some (Some {| m_kind := k; m_index := i; m_hop := hop |});
  gd_parser : exists nr horus ct, slots s !! Modules.PARSER = Some (Parser nr horus ct);
  gd_label :
    if bool_decide (conntrackMode cfg = DISABLED)
    then programs s !! Z.to_nat Modules.CONNTRACKLABEL = Some None /\ slots s !! Modules.CONNTRACKLABEL = None
    else (exists hop, programs s !! Z.to_nat Modules.CONNTRACKLABEL =
            Some (Some {| m_kind := KConntrackLabel; m_index := Modules.CONNTRACKLABEL; m_hop := hop |})) /\
         slots s !! Modules.CONNTRACKLABEL = Some (conntrack_label_code cfg);
  gd_forwarder : exists nr hop, slots s !! Modules.CHAINFORWARDER = Some (ChainForwarder nr hop);
  gd_default : exists pk by_, slots s !! Modules.DEFAULTACTION = Some (DefaultAction (defaultAction s) pk by_) /\
    a_size pk = 1 /\ a_size by_ = 1;
  (** Changing between manual and automatic does not reload this program. *)
  gd_update : exists mode, slots s !! Modules.CONNTRACKTABLEUPDATE = Some (ConntrackTableUpdate mode) /\
    (mode =? 0) = bool_decide (conntrackMode cfg = DISABLED);
  gd_horus_other : programs s !! Z.to_nat (horus_other s) = Some None /\ slots s !! horus_other s = None;
  gd_horus :
    if horus_runtime_enabled s
    then (exists h hop, programs s !! Z.to_nat (horus_index s) =
            Some (Some {| m_kind := KHorus h; m_index := horus_index s; m_hop := hop |})) /\
         (exists f ct t pk by_, slots s !! horus_index s = Some (Horus f ct t pk by_) /\
            a_size pk = HorusConst.MAX_RULE_SIZE_FOR_HORUS /\ a_size by_ = HorusConst.MAX_RULE_SIZE_FOR_HORUS)
    else programs s !! Z.to_nat (horus_index s) = Some None /\ slots s !! horus_index s = None;
  gd_chain : exists n, 0 <= n <= 9 /\
    indices (chain_modules (programs s)) ≡ₚ seqZ (installed_index s) n /\
    forall i, 7 <= i < 25 -> is_Some (slots s !! i) <-> installed_index s <= i < installed_index s + n;
}.

(** ** Steps of the methods *)
Lemma program_at_run i s o :
  programs s !! Z.to_nat i = Some o -> program_at i s = (Ok o, s).
Proof using Type. intros E. unfold program_at, bind, get. by rewrite E. Qed.
Lemma set_program_at_run i o o' s :
  programs s !! Z.to_nat i = Some o' -> set_program_at i o s = (Ok tt, set_programs (<[Z.to_nat i := o]> (programs s)) s).
Proof using Type. intros E. unfold set_program_at, bind, get. by rewrite E. Qed.

Lemma reload_at_run i s m p :
  programs s !! Z.to_nat i = Some (Some m) -> slots s !! m_index m = Some p ->
  reload_at cfg i s = (Ok tt, set_slots (<[m_index m := steal_tables p (getCode cfg s m)]> (slots s)) s).
Proof using Type.
  intros E Ep. unfold reload_at. rewrite (bind_run _ _ _ _ _ (program_at_run _ _ _ E)).
  unfold deref, lift, bind, modify, reload. by rewrite Ep.
Qed.

Lemma delete_module_run m s p :
  slots s !! m_index m = Some p -> delete_module m s = (Ok tt, set_slots (delete (m_index m) (slots s)) s).
Proof using Type. intros E. unfold delete_module, bind, get. by rewrite E. Qed.

Lemma remove_horus_none i s :
  programs s !! Z.to_nat i = Some None -> remove_horus i s = (Ok tt, s).
Proof using Type.
  intros E. unfold remove_horus. rewrite (bind_run _ _ _ _ _ (program_at_run _ _ _ E)). cbn [delete_ptr].
  unfold bind at 1, ret. rewrite (set_program_at_run _ _ _ _ E). rewrite list_insert_id by done.
  by destruct s.
Qed.

(** ** The end of the previous chain *)
Definition delete_all (js : list Z) (m : gmap Z program) : gmap Z program := foldl (fun m i => delete i m) m js.

Lemma lookup_delete_all js m k : delete_all js m !! k = if decide (k ∈ js) then None else m !! k.
Proof using Type.
  revert m. induction js as [|i js IH]; intros m.
  { by rewrite decide_False by apply not_elem_of_nil. }
  change (delete_all (i :: js) m) with (delete_all js (delete i m)). rewrite IH.
  destruct (decide (k ∈ js)); [by rewrite decide_True by (by right)|].
  destruct (decide (k = i)) as [->|Hn].
  - rewrite decide_True by (by left). apply lookup_delete_eq.
  - rewrite decide_False by (by apply not_elem_of_cons). by apply lookup_delete_ne.
Qed.

Definition modules_at (ps : list Z) (v : list (option module)) : list (option module) :=
  (fun i => default None (v !! Z.to_nat i)) <$> ps.

Lemma modules_at_insert ps v i o :
  (forall j, j ∈ ps -> 0 <= j) -> 0 <= i -> i ∉ ps -> modules_at ps (<[Z.to_nat i := o]> v) = modules_at ps v.
Proof using Type.
  intros Hps Hi Hn. unfold modules_at. apply list_fmap_ext. intros k j Hj. apply list_elem_of_lookup_2 in Hj.
  rewrite list_lookup_insert_ne; [done|]. intros E. specialize (Hps j Hj). assert (i = j) by lia. congruence.
Qed.

Definition drop_module (i : Z) : M side unit :=
  o <-- program_at i ;;
  match o with
  | Some m => delete_module m ;;; set_program_at i None
  | None => ret tt
  end.

Lemma drop_modules_run ps s :
  NoDup ps -> (forall i, i ∈ ps -> 0 <= i < Z.of_nat (length (programs s))) ->
  NoDup (indices (modules_at ps (programs s))) ->
  (forall j, j ∈ indices (modules_at ps (programs s)) -> is_Some (slots s !! j)) ->
  for_each ps drop_module s =
    (Ok tt, set_slots (delete_all (indices (modules_at ps (programs s))) (slots s))
              (set_programs (write_at ps (fun _ => None) (programs s)) s)).
Proof using Type.
  revert s. induction ps as [|i ps IH]; intros s Hps Hb Hnd Hs; cbn [for_each]; [by destruct s|].
  apply list.NoDup_cons in Hps as [Hi Hps]. assert (0 <= i < Z.of_nat (length (programs s))) as Hb0 by (apply Hb; by left).
  destruct (lookup_lt_is_Some_2 (programs s) (Z.to_nat i)) as [o Ho]; [lia|].
  assert (modules_at (i :: ps) (programs s) = o :: modules_at ps (programs s)) as Em.
  { unfold modules_at. simpl. by rewrite Ho. }
  rewrite Em in *. change (write_at (i :: ps) (fun _ => None) (programs s)) with
    (write_at ps (fun _ => None) (<[Z.to_nat i := None]> (programs s))).
  unfold drop_module at 1. unfold bind at 1. unfold bind at 1. rewrite (program_at_run _ _ _ Ho). destruct o as [m|].
  - change (indices (Some m :: modules_at ps (programs s))) with (m_index m :: indices (modules_at ps (programs s))) in *.
    apply list.NoDup_cons in Hnd as [Hm Hnd].
    destruct (Hs (m_index m)) as [p Hp]; [by left|].
    rewrite (bind_run _ _ _ _ _ (delete_module_run _ _ _ Hp)).
    rewrite (set_program_at_run i None (Some m)) by done.
    set (s1 := set_programs _ _).
    assert (modules_at ps (programs s1) = modules_at ps (programs s)) as E1.
    { apply modules_at_insert; [intros j Hj; apply Hb; by right|lia|done]. }
    rewrite IH; rewrite ?E1; [done|done| |done|].
    + intros j Hj. simpl. rewrite length_insert. apply Hb. by right.
    + intros j Hj. simpl. rewrite lookup_delete_ne by set_solver. apply Hs. by right.
  - rewrite list_insert_id by done. cbn [ret].
    change (indices (None :: modules_at ps (programs s))) with (indices (modules_at ps (programs s))) in *.
    rewrite IH; try done. intros j Hj. apply Hb. by right.
Qed.

Lemma set_modules_run ps g s :
  (forall i, i ∈ ps -> 0 <= i < Z.of_nat (length (programs s))) ->
  for_each ps (fun i => set_program_at i (g i)) s = (Ok tt, set_programs (write_at ps g (programs s)) s).
Proof using Type.
  revert s. induction ps as [|i ps IH]; intros s Hb; cbn [for_each]; [by destruct s|].
  assert (0 <= i < Z.of_nat (length (programs s))) as Hi by (apply Hb; by left).
  destruct (lookup_lt_is_Some_2 (programs s) (Z.to_nat i)) as [o Ho]; [lia|].
  rewrite (bind_run _ _ _ _ _ (set_program_at_run i (g i) o s Ho)). rewrite IH; [done|].
  intros j Hj. simpl. rewrite length_insert. apply Hb. by right.
Qed.
(** ** The switch *)
Definition switched (b : building) (i0 : Z) (s : side) : side :=
  set_chainNumber (if chainNumber s =? 0 then 1 else 0)
    (set_slots (delete_all (indices (chain_modules (programs s)))
                 (<[Modules.PARSER := parser_code cfg s]>
                   (<[Modules.CHAINFORWARDER := ChainForwarder (nr_elements s) i0]> (slots s))))
      (set_programs (write_at chain_positions (fun i => default None (b_new b !! Z.to_nat i))
                      (write_at chain_positions (fun _ => None)
                        (<[Z.to_nat Modules.CHAINFORWARDER :=
                           Some {| m_kind := KChainForwarder; m_index := Modules.CHAINFORWARDER; m_hop := Some i0 |}]>
                           (programs s)))) s)).

Lemma chain_positions_range i : i ∈ chain_positions <-> 7 <= i < 16.
Proof using Type. unfold chain_positions, Modules.CONNTRACKMATCH, Modules.NR_MODULES. rewrite elem_of_seqZ. lia. Qed.

Lemma switch_chain_run b i0 s :
  length (programs s) = 16%nat ->
  (exists hop, programs s !! Z.to_nat Modules.PARSER =
     Some (Some {| m_kind := KParser; m_index := Modules.PARSER; m_hop := hop |})) ->
  (exists hop, programs s !! Z.to_nat Modules.CHAINFORWARDER =
     Some (Some {| m_kind := KChainForwarder; m_index := Modules.CHAINFORWARDER; m_hop := hop |})) ->
  (exists nr horus ct, slots s !! Modules.PARSER = Some (Parser nr horus ct)) ->
  (exists nr hop, slots s !! Modules.CHAINFORWARDER = Some (ChainForwarder nr hop)) ->
  b_first b = Some i0 ->
  NoDup (indices (chain_modules (programs s))) ->
  (forall j, j ∈ indices (chain_modules (programs s)) -> 7 <= j /\ is_Some (slots s !! j)) ->
  switch_chain cfg b s = (Ok tt, switched b i0 s).
Proof using Type.
  intros Hlen (h0 & Hp) (h2 & Hf) (nr & ho & ct & Hps) (nr2 & hop & Hfs) Hfirst Hnd Hold.
  unfold switch_chain.
  set (fwd := {| m_kind := KChainForwarder; m_index := Modules.CHAINFORWARDER; m_hop := Some i0 |}).
  set (s1 := set_programs (<[Z.to_nat Modules.CHAINFORWARDER := Some fwd]> (programs s)) s).
  assert (updateHop Modules.CHAINFORWARDER (b_first b) s = (Ok tt, s1)) as E1.
  { unfold updateHop. rewrite (bind_run _ _ _ _ _ (program_at_run _ _ _ Hf)). unfold deref, lift, bind at 1.
    rewrite Hfirst. by apply (set_program_at_run _ _ _ _ Hf). }
  rewrite (bind_run _ _ _ _ _ E1).
  set (s2 := set_slots (<[Modules.CHAINFORWARDER := ChainForwarder (nr_elements s) i0]> (slots s)) s1).
  assert (reload_at cfg Modules.CHAINFORWARDER s1 = (Ok tt, s2)) as E2.
  { refine (reload_at_run Modules.CHAINFORWARDER s1 fwd (ChainForwarder nr2 hop) _ Hfs).
    cbn [s1 programs set_programs]. apply list_lookup_insert_eq. rewrite Hlen. vm_compute. lia. }
  rewrite (bind_run _ _ _ _ _ E2).
  set (s3 := set_slots (<[Modules.PARSER := parser_code cfg s]> (slots s2)) s2).
  assert (reload_at cfg Modules.PARSER s2 = (Ok tt, s3)) as E3.
  { refine (reload_at_run Modules.PARSER s2 {| m_kind := KParser; m_index := Modules.PARSER; m_hop := h0 |} (Parser nr ho ct) _ _).
    - cbn [s2 s1 programs set_programs set_slots]. by rewrite list_lookup_insert_ne.
    - cbn [s2 s1 slots set_programs set_slots]. by rewrite lookup_insert_ne. }
  rewrite (bind_run _ _ _ _ _ E3).
  assert (chain_modules (programs s3) = chain_modules (programs s)) as Ecm.
  { apply modules_at_insert; [|done|].
    - intros j Hj%chain_positions_range. lia.
    - rewrite chain_positions_range. unfold Modules.CHAINFORWARDER. lia. }
  assert (length (programs s3) = 16%nat) as Hlen3 by (cbn [s3 s2 s1 programs set_programs set_slots]; by rewrite length_insert).
  rewrite (bind_run _ _ s3 tt (set_slots (delete_all (indices (chain_modules (programs s))) (slots s3))
            (set_programs (write_at chain_positions (fun _ => None) (programs s3)) s3))).
  2:{ rewrite <- Ecm. apply drop_modules_run.
      - apply NoDup_seqZ.
      - intros i Hi%chain_positions_range. rewrite Hlen3. lia.
      - by change (modules_at chain_positions (programs s3)) with (chain_modules (programs s3)); rewrite Ecm.
      - change (modules_at chain_positions (programs s3)) with (chain_modules (programs s3)). rewrite Ecm.
        intros j Hj. destruct (Hold j Hj) as [Hj7 Hsj]. cbn [s3 s2 s1 slots set_programs set_slots].
        rewrite !lookup_insert_ne; [done|unfold Modules.CHAINFORWARDER|unfold Modules.PARSER]; lia. }
  erewrite bind_run; [|apply set_modules_run].
  2:{ intros i Hi%chain_positions_range. cbn [programs set_slots set_programs]. rewrite length_write_at, Hlen3. lia. }
  done.
Qed.

(** ** The state after the switch *)
Section after.
Context (s : side) (Hg : good s).

Lemma starting_free i : starting_index s <= i < starting_index s + 9 -> slots s !! i = None.
Proof using Hg.
  intros Hi. destruct (gd_chain s Hg) as (n & Hn & _ & Hc). apply eq_None_not_Some.
  unfold starting_index, installed_index, Modules.NR_INITIAL_MODULES, Modules.NR_MODULES in *.
  rewrite Hc; destruct (gd_number s Hg) as [E|E]; rewrite E in *; simpl in *; lia.
Qed.

Lemma old_indices j :
  j ∈ indices (chain_modules (programs s)) <-> (7 <= j < 25 /\ is_Some (slots s !! j)).
Proof using Hg.
  destruct (gd_chain s Hg) as (n & Hn & Hi & Hc). rewrite Hi, elem_of_seqZ. split.
  - intros Hj. assert (7 <= j < 25) as H7.
    { unfold installed_index, Modules.NR_INITIAL_MODULES, Modules.NR_MODULES in Hj.
      destruct (gd_number s Hg) as [E|E]; rewrite E in Hj; simpl in Hj; lia. }
    split; [done|]. by apply Hc.
  - intros [H7 Hs]. by apply Hc.
Qed.

Lemma starting_range : 7 <= starting_index s /\ starting_index s + 9 <= 25.
Proof using Hg.
  pose proof (gd_number s Hg). unfold starting_index, Modules.NR_INITIAL_MODULES, Modules.NR_MODULES. lia.
Qed.

Context (s2 : side) (ps : list program) (b : building).
Context (Hpl : placed (starting_index s) s ps b s2) (Hps : (0 < length ps <= 9)%nat).

Lemma switched_slots k :
  slots (switched b (starting_index s) s2) !! k =
  if decide (starting_index s <= k < starting_index s + Z.of_nat (length ps)) then ps !! Z.to_nat (k - starting_index s)
  else if decide (7 <= k < 25) then None
  else if decide (k = Modules.PARSER) then Some (parser_code cfg s)
  else if decide (k = Modules.CHAINFORWARDER) then Some (ChainForwarder (nr_elements s) (starting_index s))
  else slots s !! k.
Proof using Hg Hpl Hps.
  pose proof (bd_state _ _ _ _ _ Hpl) as Est. pose proof (gd_number s Hg) as Hnum.
  unfold switched. rewrite Est. cbn [slots set_slots set_programs set_chainNumber programs].
  rewrite lookup_delete_all. pose proof (old_indices k) as Hold.
  pose proof (starting_free k) as Hfree.
  assert (7 <= starting_index s /\ starting_index s + 9 <= 25) as Hr.
  { unfold starting_index, Modules.NR_INITIAL_MODULES, Modules.NR_MODULES. lia. }
  destruct (decide (starting_index s <= k < starting_index s + Z.of_nat (length ps))) as [Hk|Hk].
  - rewrite decide_False.
    2:{ intros [_ [p Hp]]%Hold. rewrite Hfree in Hp by lia. done. }
    unfold Modules.PARSER, Modules.CHAINFORWARDER. rewrite !lookup_insert_ne by lia.
    rewrite install_lookup. by rewrite decide_True.
  - destruct (decide (7 <= k < 25)) as [H7|H7].
    + case_decide as Hd; [done|].
      unfold Modules.PARSER, Modules.CHAINFORWARDER. rewrite !lookup_insert_ne by lia.
      rewrite install_lookup, decide_False by done.
      apply eq_None_not_Some. tauto.
    + rewrite decide_False by tauto.
      destruct (decide (k = Modules.PARSER)) as [->|Hp]; [by rewrite lookup_insert_eq|].
      rewrite lookup_insert_ne by done.
      destruct (decide (k = Modules.CHAINFORWARDER)) as [->|Hf]; [by rewrite lookup_insert_eq|].
      by rewrite lookup_insert_ne, install_lookup, decide_False.
Qed.

Lemma switched_programs k :
  (k < 16)%nat ->
  programs (switched b (starting_index s) s2) !! k =
  if decide (7 <= Z.of_nat k < 16) then Some (default None (b_new b !! k))
  else if decide (k = 2%nat) then
    Some (Some {| m_kind := KChainForwarder; m_index := Modules.CHAINFORWARDER; m_hop := Some (starting_index s) |})
  else programs s !! k.
Proof using Hg Hpl Hps.
  intros Hk. pose proof (gd_programs s Hg) as Hl.
  pose proof (bd_state _ _ _ _ _ Hpl) as Est. unfold switched. rewrite Est.
  cbn [set_slots set_programs set_chainNumber programs].
  assert (forall i, i ∈ chain_positions -> 0 <= i < 16) as Hr by (intros i Hi%chain_positions_range; lia).
  rewrite lookup_write_at.
  2:{ intros i Hi. rewrite length_write_at, length_insert, Hl. by apply Hr. }
  rewrite lookup_write_at by (intros i Hi; rewrite length_insert, Hl; by apply Hr).
  rewrite (decide_ext _ _ _ _ (chain_positions_range (Z.of_nat k))).
  rewrite (decide_ext _ _ _ _ (chain_positions_range (Z.of_nat k))).
  destruct (decide (7 <= Z.of_nat k < 16)); [by rewrite Nat2Z.id|].
  change (Z.to_nat Modules.CHAINFORWARDER) with 2%nat.
  destruct (decide (k = 2%nat)) as [->|Hn]; [by rewrite list_lookup_insert_eq by lia|].
  by rewrite list_lookup_insert_ne.
Qed.

Lemma switched_length : length (programs (switched b (starting_index s) s2)) = 16%nat.
Proof using Hg Hpl Hps.
  unfold switched. rewrite (bd_state _ _ _ _ _ Hpl). cbn [set_slots set_programs set_chainNumber programs].
  rewrite !length_write_at, length_insert. apply (gd_programs s Hg).
Qed.

Lemma switched_modules : chain_modules (programs (switched b (starting_index s) s2)) = chain_modules (b_new b).
Proof using Hg Hpl Hps.
  apply list_fmap_ext. intros k i Hi%list_elem_of_lookup_2%chain_positions_range.
  rewrite switched_programs by lia. by rewrite decide_True by lia.
Qed.

Lemma switched_low k :
  0 <= k < 7 -> k ≠ Modules.PARSER -> k ≠ Modules.CHAINFORWARDER ->
  slots (switched b (starting_index s) s2) !! k = slots s !! k.
Proof using Hg Hpl Hps.
  intros Hk Hp Hf. pose proof starting_range. rewrite switched_slots. by rewrite !decide_False by lia.
Qed.

Lemma switched_good : good (switched b (starting_index s) s2).
Proof using Hg Hpl Hps.
  pose proof (bd_state _ _ _ _ _ Hpl) as Est. pose proof (gd_number s Hg) as Hnum. pose proof starting_range as Hr.
  assert (installed_index (switched b (starting_index s) s2) = starting_index s) as Ei.
  { unfold switched, installed_index, starting_index. rewrite Est. simpl. by destruct Hnum as [-> | ->]. }
  assert (horus_index (switched b (starting_index s) s2) = horus_index s) as Eh by (unfold switched; by rewrite Est).
  assert (horus_other (switched b (starting_index s) s2) = horus_other s) as Eo by (unfold switched; by rewrite Est).
  assert (horus_runtime_enabled (switched b (starting_index s) s2) = horus_runtime_enabled s) as Er
    by (unfold switched; by rewrite Est).
  assert (forall i, 5 <= i <= 6 -> programs (switched b (starting_index s) s2) !! Z.to_nat i = programs s !! Z.to_nat i) as Hhp.
  { intros i Hi. rewrite switched_programs by lia. by rewrite !decide_False by lia. }
  split; try (rewrite switched_low; [apply Hg|done..]).
  - unfold switched. rewrite Est. apply (gd_name s Hg).
  - unfold switched. rewrite Est. simpl. destruct Hnum as [-> | ->]; auto.
  - apply switched_length.
  - intros i k Hik. destruct (gd_fixed s Hg i k Hik) as [hop Hm].
    unfold fixed_modules in Hik. rewrite !elem_of_cons, elem_of_nil in Hik.
    destruct (decide (i = 2)) as [->|Hn].
    + exists (Some (starting_index s)). rewrite switched_programs by (simpl; lia).
      rewrite decide_False by (simpl; lia). rewrite decide_True by done.
      destruct Hik as [[=]|[[= ->]|[[=]|[[=]|[]]]]]. done.
    + exists hop. assert (0 <= i < 5) by (destruct Hik as [[= -> ->]|[[= -> ->]|[[= -> ->]|[[= -> ->]|[]]]]]; vm_compute; split; congruence).
      rewrite switched_programs by lia. rewrite !decide_False by lia. done.
  - rewrite switched_slots. rewrite !decide_False by (unfold Modules.PARSER; lia). rewrite decide_True by done.
    unfold parser_code. eauto.
  - rewrite switched_low by done. rewrite switched_programs by (vm_compute; lia).
    change (Z.to_nat Modules.CONNTRACKLABEL) with 1%nat. rewrite !decide_False by lia. apply (gd_label s Hg).
  - rewrite switched_slots. rewrite !decide_False by (unfold Modules.CHAINFORWARDER, Modules.PARSER; lia).
    rewrite decide_True by done. eauto.
  - rewrite switched_low by done. unfold switched. rewrite Est. simpl. apply (gd_default s Hg).
  - rewrite Eo. rewrite switched_low, Hhp by (unfold horus_other; destruct (horus_swap s); vm_compute; intuition congruence).
    apply (gd_horus_other s Hg).
  - rewrite Er, Eh. rewrite switched_low, Hhp by (unfold horus_index; destruct (horus_swap s); vm_compute; intuition congruence).
    apply (gd_horus s Hg).
  - exists (Z.of_nat (length ps)). split; [lia|]. rewrite Ei, switched_modules. split; [apply (bd_indices _ _ _ _ _ Hpl)|].
    intros i Hi. rewrite switched_slots. destruct (decide (starting_index s <= i < starting_index s + Z.of_nat (length ps))) as [Hd|Hd].
    + split; [done|]. intros _. apply lookup_lt_is_Some_2. lia.
    + rewrite decide_True by done. split; [by intros []|done].
Qed.
End after.

(** ** A program array that enforces a list of rules *)
Record layout := {
  ly_i0 : Z; ly_stages : list (field * program); ly_actions : intsT; ly_index64 : intsT; ly_horus : option Z;
  ly_mode : Z; ly_pkts : rowsT; ly_bytes : rowsT; ly_default_pkts : rowsT; ly_default_bytes : rowsT;
}.
Definition ly_action_index (y : layout) : Z := ly_i0 y + Z.of_nat (length (ly_stages y)) + 1.
Definition nr_of (rules : list ChainRule) : Z := FROM_NRULES_TO_NELEMENTS (Z.of_nat (length rules)).

Record enforces (rules : list ChainRule) (dflt : ActionEnum) (sl : gmap Z program) (y : layout) : Prop := {
  en_parser : sl !! Modules.PARSER =
    Some (Parser (nr_of rules) (ly_horus y) (negb (bool_decide (conntrackMode cfg = DISABLED))));
  en_label : conntrackMode cfg ≠ DISABLED -> sl !! Modules.CONNTRACKLABEL = Some (conntrack_label_code cfg);
  en_mode : (ly_mode y =? 0) = bool_decide (conntrackMode cfg = DISABLED);
  en_forwarder : sl !! Modules.CHAINFORWARDER = Some (ChainForwarder (nr_of rules) (ly_i0 y));
  en_chain : chain_slots rules (nr_of rules) (ly_actions y) (ly_pkts y) (ly_bytes y) dflt (ly_default_pkts y)
    (ly_default_bytes y) (ly_mode y) (ly_index64 y) sl (ly_i0 y) (ly_stages y);
  en_fields p r : r ∈ rules ->
    forallb (fun f => field_accepts f p r) (ly_stages y).*1 = rule_accepts p r;
  en_far : 7 <= ly_i0 y;
  en_short : (length (ly_stages y) <= 7)%nat;
  en_sizes : a_size (ly_pkts y) = 8000 /\ a_size (ly_bytes y) = 8000 /\
             a_size (ly_default_pkts y) = 1 /\ a_size (ly_default_bytes y) = 1;
}.

(** The fields without a module are those no rule tests. *)
Lemma wanted_fields_accept rules t p r :
  tables_ok rules t -> r ∈ rules ->
  forallb (fun f => field_accepts f p r) (wanted_in t false all_fields ++ wanted_in t true all_fields) = rule_accepts p r.
Proof using Type.
  intros Ht Hr. unfold rule_accepts. apply Bool.eq_iff_eq_true. rewrite !forallb_forall.
  setoid_rewrite <- list_elem_of_In. split.
  - intros Hf f _. destruct (field_nonempty t f) eqn:E; [|by eapply field_empty].
    apply Hf. unfold wanted_in. rewrite elem_of_app, !list_elem_of_filter, E.
    assert (f ∈ all_fields) by (destruct f; set_solver). destruct (field_brk t f); [left|right]; done.
  - intros Hf f Hin. apply Hf. destruct f; set_solver.
Qed.

(** What the rules must satisfy for the tables to hold them. *)
Record compilable (rules : list ChainRule) : Prop := {
  co_wf : wf_rules rules;
  co_plain r : r ∈ rules -> plain_rule r;
  co_src : few_prefixes rules SOURCE_TYPE;
  co_dst : few_prefixes rules DESTINATION_TYPE;
  co_actions r : r ∈ rules -> action_supported r;
}.

Lemma tables_install rules t :
  compilable rules -> tables_ok rules t ->
  forall f, field_nonempty t f = true -> installs cfg rules (nr_of rules) t f.
Proof using Type.
  intros [Hwf Hplain Hs Hd _] Ht f Hf. destruct (decide (rules = [])) as [->|Hne].
  - exfalso.
    assert (field_nonempty t f = false); [|congruence]. destruct f; simpl.
    + by destruct (to_conntrack _ t Ht) as [_ [[_ ->]|[E' _]]].
    + by rewrite (proj2 (it_empty _ _ _ _ (to_ipsrc _ t Ht))).
    + by rewrite (proj2 (it_empty _ _ _ _ (to_ipdst _ t Ht))).
    + by rewrite (proj2 (kt_empty _ _ _ _ (to_protocol _ t Ht))).
    + by rewrite (proj2 (kt_empty _ _ _ _ (to_portsrc _ t Ht))).
    + by rewrite (proj2 (kt_empty _ _ _ _ (to_portdst _ t Ht))).
    + by destruct (to_flags _ t Ht) as [[_ ->]|[E' _]].
  - by apply field_installs.
Qed.


(** What [updateChain] does not touch. *)
Definition same_chain (s s' : side) : Prop :=
  name s' = name s /\ defaultAction s' = defaultAction s /\ rules_ s' = rules_ s /\ counters_ s' = counters_ s /\
  is_single_op_on_chain s' = is_single_op_on_chain s.

(** The direction of the firewall enforces [rules], and has their counters. *)
Definition enforcing (rules : list ChainRule) (s : side) : Prop :=
  good s /\ exists y, enforces rules (defaultAction s) (slots s) y /\
    ly_horus y = (if horus_runtime_enabled s then Some (horus_index s) else None) /\
    programs s !! 15%nat = Some (Some (new_module KActionLookup (ly_action_index y))).

Lemma switched_enforces s rules l t64 acts b s2 :
  good s -> compilable rules -> nr_elements s = nr_of rules ->
  let i0 := starting_index s in
  placed i0 s (l.*2 ++ [BitScan (nr_of rules) (i0 + Z.of_nat (length l) + 1) t64;
                         ActionLookup (nr_of rules) acts (counters cfg 8000) (counters cfg 8000)]) b s2 ->
  (forall j f p, l !! j = Some (f, p) -> stage_ok rules (nr_of rules) f (i0 + Z.of_nat j + 1) p) ->
  (forall p r, r ∈ rules -> forallb (fun f => field_accepts f p r) l.*1 = rule_accepts p r) ->
  (length l <= 7)%nat ->
  (forall k w, index64 !! Z.to_nat k = Some w -> 0 <= k < 64 -> a_lookup t64 k = Some w) ->
  (forall i r, rules !! i = Some r -> a_lookup acts (Z.of_nat i) = Some (action_code r)) ->
  b_new b !! 15%nat = Some (Some (new_module KActionLookup (i0 + Z.of_nat (length l) + 1))) ->
  enforcing rules (switched b i0 s2).
Proof using Type.
  intros Hg Hco Hnr i0 Hpl Hst Hfields Hlen H64 Hacts H15.
  pose proof (bd_state _ _ _ _ _ Hpl) as Est. destruct (gd_default s Hg) as (dpk & dby & Hd & Hdp & Hdb).
  destruct (gd_update s Hg) as (mode & Hup & Hmode).
  set (ps := l.*2 ++ _) in Hpl.
  assert (length ps = length l + 2)%nat as Elen by (unfold ps; rewrite length_app, length_fmap; simpl; lia).
  assert (0 < length ps <= 9)%nat as Hps by lia.
  pose proof (switched_slots s Hg s2 ps b Hpl Hps) as Hsl. pose proof (starting_range s Hg) as Hr.
  assert (defaultAction (switched b i0 s2) = defaultAction s) as Ed by (unfold switched; by rewrite Est).
  assert (forall k, (k < length ps)%nat -> slots (switched b i0 s2) !! (i0 + Z.of_nat k) = ps !! k) as Hat.
  { intros k Hk. rewrite Hsl, decide_True by (fold i0; lia). f_equal. fold i0. lia. }
  split; [by apply (switched_good s Hg s2 ps b)|].
  exists {| ly_i0 := i0; ly_stages := l; ly_actions := acts; ly_index64 := t64; ly_mode := mode;
            ly_horus := if horus_runtime_enabled s then Some (horus_index s) else None; ly_pkts := counters cfg 8000;
            ly_bytes := counters cfg 8000; ly_default_pkts := dpk; ly_default_bytes := dby |}.
  split; [split; cbn [ly_i0 ly_stages ly_actions ly_index64 ly_mode ly_horus ly_pkts ly_bytes ly_default_pkts ly_default_bytes]|].
  - rewrite Hsl, !decide_False by (unfold Modules.PARSER; fold i0; lia). rewrite decide_True by done.
    unfold parser_code. by rewrite Hnr.
  - intros Hm. rewrite (switched_low s Hg s2 ps b) by done. pose proof (gd_label s Hg) as Hl.
    rewrite bool_decide_eq_false_2 in Hl by done. apply Hl.
  - done.
  - rewrite Hsl, !decide_False by (unfold Modules.CHAINFORWARDER, Modules.PARSER; fold i0; lia).
    rewrite decide_True by done. by rewrite Hnr.
  - split.
    + intros j f p Hj. split; [|by apply Hst].
      apply lookup_lt_Some in Hj as Hjl. rewrite Hat by lia. unfold ps.
      rewrite lookup_app_l by (by rewrite length_fmap). by rewrite list_lookup_fmap, Hj.
    + rewrite Hat by lia. unfold ps. rewrite lookup_app_r by (by rewrite length_fmap).
      by rewrite length_fmap, Nat.sub_diag.
    + replace (i0 + Z.of_nat (length l) + 1) with (i0 + Z.of_nat (S (length l))) by lia.
      rewrite Hat by lia. unfold ps. rewrite lookup_app_r by (rewrite length_fmap; lia).
      rewrite length_fmap. by replace (S (length l) - length l)%nat with 1%nat by lia.
    + rewrite (switched_low s Hg s2 ps b) by done. by rewrite Ed.
    + rewrite (switched_low s Hg s2 ps b) by done. done.
    + done.
    + intros i r Hi. exists (action_code r). split; [|by apply Hacts].
      apply action_supported_code, (co_actions rules Hco). by eapply list_elem_of_lookup_2.
    + fold i0 in Hr. lia.
  - done.
  - fold i0 in Hr. lia.
  - done.
  - split; [apply a_size_new|]. split; [apply a_size_new|]. done.
  - split; [unfold switched; by rewrite Est|].
    rewrite (switched_programs s Hg s2 ps b Hpl Hps) by lia. rewrite decide_True by lia. by rewrite H15.
Qed.

End update.
