(* ===== verification/FwHorus.v ===== *)
(** pcn-firewall, the Horus optimisation: the rules at the head of a chain that
    test the same exact fields become one hash table, looked up before the
    chain.  [horus_phase] keeps the invariant of the direction. *)
From Stdlib Require Import ZArith Lia.
From stdpp Require Import base gmap sets list strings numbers.
From S2P Require Import Prelude.
From S2P Require Import Vec.
From S2P Require Import Bpf.
From S2P Require Import NetUtils.
From S2P Require Import FwRule.
From S2P Require Import FwFlags.
From S2P Require Import FwRuleFacts.
From S2P Require Import FwBits.
From S2P Require Import FwMaps.
From S2P Require Import FwMapsFacts.
From S2P Require Import FwIpFacts.
From S2P Require Import Frame.
From S2P Require Import FwConntrack.
From S2P Require Import FwDatapath.
From S2P Require Import FwPipeline.
From S2P Require Import FwModules.
From S2P Require Import FwChain.
From S2P Require Import FwUpdate.
From S2P Require Import FwStages.
From S2P Require Import FwInstall.
From S2P Require Import FwUpdateChain.
#[local] Open Scope Z_scope.
#[local] Open Scope cpp_scope.

(** * What a rule offers to the table *)
(** A /32 address; any other prefix is left out of the key. *)
Definition exact_addr (type : Z) (r : ChainRule) : option Z :=
  a ← addr_of type r; if netmask a =? 32 then Some (ip a) else None.

Definition horus_bit {A} (o : option A) (i : Z) : Z := match o with Some _ => 2 ^ i | None => 0 end.
Definition horus_fields_of (r : ChainRule) : Z :=
  horus_bit (exact_addr SOURCE_TYPE r) 0 + horus_bit (exact_addr DESTINATION_TYPE r) 1 + horus_bit (l4Proto r) 2
  + horus_bit (srcPort r) 3 + horus_bit (dstPort r) 4.
Definition horus_entry (r : ChainRule) (key : HorusRule) : HorusRule :=
  {| h_src_ip := default (h_src_ip key) (exact_addr SOURCE_TYPE r);
     h_dst_ip := default (h_dst_ip key) (exact_addr DESTINATION_TYPE r);
     h_l4proto := default (h_l4proto key) (l4Proto r);
     h_src_port := default (h_src_port key) (srcPort r);
     h_dst_port := default (h_dst_port key) (dstPort r);
     h_setFields := horus_fields_of r |}.
Definition horus_value (r : ChainRule) : HorusValue :=
  {| h_action := if bool_decide (action r = Some DROP) then 0 else 1; h_ruleID := id r |}.

Section horus.
Context `{Inet}.

Definition h_step (i : Z) (set : Z -> HorusRule -> HorusRule) (o : option Z) (key : HorusRule) : HorusRule :=
  match o with
  | Some v =>
      let k := set v key in
      {| h_src_ip := h_src_ip k; h_dst_ip := h_dst_ip k; h_l4proto := h_l4proto k; h_src_port := h_src_port k;
         h_dst_port := h_dst_port k; h_setFields := SET_BIT (h_setFields key) i |}
  | None => key
  end.

Lemma set_h_field_ok i set r o key :
  try_runtime r = Ok o -> set_h_field i set r key = Ok (h_step i set (mjoin o) key).
Proof using Type. intros E. unfold set_h_field. rewrite E. by destruct o as [[]|]. Qed.

Lemma exact_src r : wf_rule r ->
  exists o, try_runtime (exact_ip unset_ip (getSrc r)) = Ok o /\ mjoin o = exact_addr SOURCE_TYPE r.
Proof using Type.
  intros Hr. unfold exact_ip, exact_addr, addr_of. change (SOURCE_TYPE =? SOURCE_TYPE) with true. cbn iota.
  pose proof (getSrc_fromString unset_ip r Hr) as E.
  destruct (getSrc r) as [s|e|] eqn:Es; cbn [res_bind] in E |- *; try rewrite E;
    destruct (ipSrc r); try done; try (injection E as ->); by eexists.
Qed.
Lemma exact_dst r : wf_rule r ->
  exists o, try_runtime (exact_ip unset_ip (getDst r)) = Ok o /\ mjoin o = exact_addr DESTINATION_TYPE r.
Proof using Type.
  intros Hr. unfold exact_ip, exact_addr, addr_of. change (DESTINATION_TYPE =? SOURCE_TYPE) with false. cbn iota.
  pose proof (getDst_fromString unset_ip r Hr) as E.
  destruct (getDst r) as [s|e|] eqn:Es; cbn [res_bind] in E |- *; try rewrite E;
    destruct (ipDst r); try done; try (injection E as ->); by eexists.
Qed.
Lemma exact_proto r : wf_rule r ->
  exists o, try_runtime (s <~ getL4proto r ;; p <~ protocol_from_string_to_int s ;; Ok (Some (u8 p))) = Ok o /\
    mjoin o = l4Proto r.
Proof using Type.
  intros Hr. pose proof (getL4proto_int r Hr) as E. pose proof (wf_proto r Hr) as Hp.
  destruct (getL4proto r) as [s|e|] eqn:Es; cbn [res_bind] in E |- *; try rewrite E;
    destruct (l4Proto r) as [p|]; try done; try (injection E as ->); try by eexists.
  specialize (Hp p eq_refl). apply known_protocol_u8 in Hp. eexists. split; [done|]. cbn. unfold u8.
  by rewrite Z.mod_small.
Qed.
Lemma exact_port (o : option Z) w :
  exists o', try_runtime (p <~ get_field o w ;; Ok (Some p)) = Ok o' /\ mjoin o' = o.
Proof using Type. destruct o; by eexists. Qed.

(** One rule: nothing when it tests the connection status. *)
Lemma fromRuleToHorusKeyValue_spec r key : wf_rule r ->
  fromRuleToHorusKeyValue r key =
  Ok (match conntrack r with Some _ => None | None => Some (horus_entry r key, horus_value r) end).
Proof using Type.
  intros Hr. unfold fromRuleToHorusKeyValue, getConntrack. destruct (wf_action r Hr) as [act Hact].
  destruct (conntrack r) eqn:Ec; [done|]. cbn [get_field try_runtime is_runtime_error res_bind].
  destruct (exact_src r Hr) as (o1 & E1 & M1), (exact_dst r Hr) as (o2 & E2 & M2), (exact_proto r Hr) as (o3 & E3 & M3).
  destruct (exact_port (srcPort r) "SPort not set.") as (o4 & E4 & M4).
  destruct (exact_port (dstPort r) "DPort not set.") as (o5 & E5 & M5).
  rewrite (set_h_field_ok _ _ _ _ _ E1). cbn [res_bind].
  rewrite (set_h_field_ok _ _ _ _ _ E2). cbn [res_bind].
  rewrite (set_h_field_ok _ _ _ _ _ E3). cbn [res_bind].
  unfold getSport, getDport.
  rewrite (set_h_field_ok _ _ _ _ _ E4). cbn [res_bind].
  rewrite (set_h_field_ok _ _ _ _ _ E5). cbn [res_bind].
  rewrite M1, M2, M3, M4, M5. unfold getAction. rewrite Hact. cbn [get_field res_bind].
  unfold horus_entry, horus_value, horus_fields_of. rewrite Hact.
  assert (bool_decide (Some act = Some DROP) = bool_decide (act = DROP)) as -> by (apply bool_decide_ext; split; congruence).
  clear. destruct (exact_addr SOURCE_TYPE r), (exact_addr DESTINATION_TYPE r), (l4Proto r), (srcPort r), (dstPort r);
    lazy; reflexivity.
Qed.

(** The table: it ends at the first rule that tests other fields. *)
Lemma horus_loop_ok rules i set_fields key m :
  (forall r, r ∈ rules -> wf_rule r) -> 0 <= i -> Z.of_nat (length m) <= i <= HorusConst.MAX_RULE_SIZE_FOR_HORUS ->
  exists m', horus_loop rules i set_fields key m = Ok m' /\
    Z.of_nat (length m') <= HorusConst.MAX_RULE_SIZE_FOR_HORUS.
Proof using Type.
  revert i set_fields key m. induction rules as [|r rules IH]; intros i sf key m Hwf H0 Hi; cbn [horus_loop].
  { eexists. split; [done|]. lia. }
  destruct (Z.leb_spec HorusConst.MAX_RULE_SIZE_FOR_HORUS i); [eexists; split; [done|lia]|].
  rewrite fromRuleToHorusKeyValue_spec by (apply Hwf; by left). cbn [res_bind].
  destruct (conntrack r); [eexists; split; [done|lia]|].
  destruct ((i =? 0) && (h_setFields (horus_entry r key) =? 0)); [eexists; split; [done|lia]|].
  cbv zeta. destruct (negb _); [eexists; split; [done|lia]|].
  apply IH; [intros x Hx; apply Hwf; by right|lia|].
  assert (forall (l : horus_map) k v, (length (StdMap.insert HorusRule_ltb k v l) <= S (length l))%nat) as Hins.
  { clear. intros l k v. unfold StdMap.insert. destruct (StdMap.find _ k l); [lia|].
    induction l as [|[k' v'] l IH]; simpl; [lia|]. destruct (HorusRule_ltb k' k); simpl; lia. }
  specialize (Hins m (horus_entry r key) (horus_value r)). lia.
Qed.

(** A first rule that tests the connection status, or no exact field. *)
Definition horus_skips (rules : list ChainRule) : bool :=
  match rules with
  | [] => true
  | r :: _ => bool_decide (is_Some (conntrack r)) || (horus_fields_of r =? 0)
  end.

Lemma horus_loop_skips rules key :
  (forall r, r ∈ rules -> wf_rule r) -> horus_skips rules = true -> horus_loop rules 0 0 key [] = Ok [].
Proof using Type.
  intros Hwf Hs. destruct rules as [|r rules]; [done|]. cbn [horus_loop].
  rewrite fromRuleToHorusKeyValue_spec by (apply Hwf; by left). cbn [Z.leb Z.compare HorusConst.MAX_RULE_SIZE_FOR_HORUS res_bind].
  simpl in Hs. destruct (conntrack r); [done|]. cbn [horus_entry h_setFields]. simpl in Hs. by rewrite Hs.
Qed.
End horus.

(** * The phase *)
Section phase.
Context `{Inet} `{Tables ct_k ct_v}.
Context (cfg : config) (key0 : HorusRule).

Definition default_rule (s : side) : ChainRule :=
  {| id := getNrRules s; conntrack := None; ipSrc := None; ipDst := None; srcPort := None; dstPort := None;
     l4Proto := None; tcpFlags := None; action := Some (defaultAction s); description := Some "Default Policy"%string |}.

Lemma getRuleList_run s : getRuleList cfg s = Ok (rules_ s ++ [Some (default_rule s)]).
Proof using Type. reflexivity. Qed.
Lemma default_rule_wf s : wf_rule (default_rule s).
Proof using Type. split; try done. Qed.

(** The table for the rules of the chain. *)
Definition horus_of (s : side) (rules : list ChainRule) : res horus_map :=
  horusFromRulesToMap key0 (rules ++ [default_rule s]).

(** Only the parser, the Horus programs and their state change. *)
Lemma good_horus_change s s' :
  good cfg s -> name s' = name s -> defaultAction s' = defaultAction s -> chainNumber s' = chainNumber s ->
  length (programs s') = 16%nat ->
  (forall k, k ≠ 5%nat -> k ≠ 6%nat -> programs s' !! k = programs s !! k) ->
  (forall k, k ≠ 0 -> k ≠ 5 -> k ≠ 6 -> slots s' !! k = slots s !! k) ->
  (exists nr horus ct, slots s' !! Modules.PARSER = Some (Parser nr horus ct)) ->
  (programs s' !! Z.to_nat (horus_other s') = Some None /\ slots s' !! horus_other s' = None) ->
  (if horus_runtime_enabled s'
    then (exists h hop, programs s' !! Z.to_nat (horus_index s') =
            Some (Some {| m_kind := KHorus h; m_index := horus_index s'; m_hop := hop |})) /\
         (exists f ct t pk by_, slots s' !! horus_index s' = Some (Horus f ct t pk by_) /\
            a_size pk = HorusConst.MAX_RULE_SIZE_FOR_HORUS /\ a_size by_ = HorusConst.MAX_RULE_SIZE_FOR_HORUS)
    else programs s' !! Z.to_nat (horus_index s') = Some None /\ slots s' !! horus_index s' = None) ->
  good cfg s'.
Proof using Type.
  intros Hg En Ed Ec El Ep Es Hpa Ho Hh.
  assert (installed_index s' = installed_index s) as Ei by (unfold installed_index; by rewrite Ec).
  split; rewrite ?En, ?Ed, ?Ec; try done; try apply Hg.
  - intros i k Hik. destruct (gd_fixed _ s Hg i k Hik) as [hop Hm]. exists hop. rewrite Ep; [done|..];
      unfold fixed_modules in Hik; rewrite !elem_of_cons, elem_of_nil in Hik;
      destruct Hik as [[= -> ->]|[[= -> ->]|[[= -> ->]|[[= -> ->]|[]]]]]; done.
  - rewrite Ep, Es by done. apply (gd_label _ s Hg).
  - rewrite Es by done. apply (gd_forwarder _ s Hg).
  - rewrite Es by done. apply (gd_default _ s Hg).
  - rewrite Es by done. apply (gd_update _ s Hg).
  - destruct (gd_chain _ s Hg) as (n & Hn & Hi & Hc). exists n. split; [done|]. rewrite Ei. split.
    + replace (chain_modules (programs s')) with (chain_modules (programs s)); [done|].
      apply list_fmap_ext. intros k i Hi'%list_elem_of_lookup_2%chain_positions_range. rewrite Ep by lia. done.
    + intros i Hi7. rewrite Es by lia. by apply Hc.
Qed.

Definition vacated (i : Z) (s : side) : side :=
  set_programs (<[Z.to_nat i := None]> (programs s)) (set_slots (delete i (slots s)) s).

(** A Horus index: empty, or a module with its program. *)
Definition horus_slot (i : Z) (s : side) : Prop :=
  (programs s !! Z.to_nat i = Some None /\ slots s !! i = None) \/
  (exists m, programs s !! Z.to_nat i = Some (Some m) /\ m_index m = i /\ is_Some (slots s !! i)).

Lemma remove_horus_run i s : horus_slot i s -> remove_horus i s = (Ok tt, vacated i s).
Proof using Type.
  unfold remove_horus, vacated. intros [[Hp Hs]|(m & Hp & Hm & p & Hs)].
  - rewrite (bind_run _ _ _ _ _ (program_at_run _ _ _ Hp)). cbn [delete_ptr]. unfold bind at 1, ret.
    rewrite (set_program_at_run _ _ _ _ Hp). by rewrite (delete_id (slots s) i Hs), set_slots_id.
  - rewrite (bind_run _ _ _ _ _ (program_at_run _ _ _ Hp)). cbn [delete_ptr].
    rewrite <- Hm in Hs. rewrite (bind_run _ _ _ _ _ (delete_module_run _ _ _ Hs)).
    rewrite (set_program_at_run i None (Some m)) by done. by rewrite Hm.
Qed.

Lemma horus_slots s : good cfg s -> horus_slot (horus_index s) s /\ horus_slot (horus_other s) s.
Proof using Type.
  intros Hg. split; [|left; apply (gd_horus_other _ s Hg)].
  pose proof (gd_horus _ s Hg) as Hh. destruct (horus_runtime_enabled s); [right|by left].
  destruct Hh as [(h & hop & Hp) (f & ct & t & pk & by_ & Hs & _)]. eexists. split; [done|]. split; [done|]. by eexists.
Qed.
Lemma horus_slot_5_6 s : good cfg s -> horus_slot 5 s /\ horus_slot 6 s.
Proof using Type.
  intros [H1 H2]%horus_slots. unfold horus_index, horus_other in *. by destruct (horus_swap s).
Qed.

(** No table: the parser goes straight on, and no Horus program is left. *)
Lemma horus_off_run s :
  good cfg s ->
  exists sh, (reload_at cfg Modules.PARSER ;;; remove_horus Modules.HORUS_INGRESS ;;;
              remove_horus Modules.HORUS_INGRESS_SWAP) (set_horus_runtime false s) = (Ok tt, sh) /\
    good cfg sh /\ same_chain s sh /\ chainNumber sh = chainNumber s /\ horus_runtime_enabled sh = false.
Proof using Type.
  intros Hg. set (s0 := set_horus_runtime false s). destruct (horus_slot_5_6 s Hg) as [H5 H6].
  destruct (gd_fixed _ s Hg Modules.PARSER KParser) as (hop & Hp); [by left|].
  destruct (gd_parser _ s Hg) as (nr & h & ct & Hsl). pose proof (gd_programs _ s Hg) as Hlen.
  rewrite (bind_run _ _ _ _ _ (reload_at_run cfg Modules.PARSER s0 _ _ Hp Hsl)). cbn [getCode m_kind m_index].
  set (s1 := set_slots _ s0).
  assert (horus_slot 5 s1) as H5'.
  { unfold horus_slot. cbn [s1 s0 slots set_slots programs set_horus_runtime]. by rewrite lookup_insert_ne. }
  rewrite (bind_run _ _ _ _ _ (remove_horus_run _ _ H5')).
  assert (horus_slot 6 (vacated 5 s1)) as H6'.
  { unfold horus_slot, vacated. cbn [s1 s0 slots set_slots programs set_programs set_horus_runtime].
    rewrite list_lookup_insert_ne by done. by rewrite lookup_delete_ne, lookup_insert_ne. }
  rewrite (remove_horus_run Modules.HORUS_INGRESS_SWAP _ H6'). eexists. split; [done|]. split; [|done].
  set (sh := vacated 6 (vacated 5 s1)).
  assert (forall i, i = 5 \/ i = 6 -> programs sh !! Z.to_nat i = Some None /\ slots sh !! i = None) as Hnone.
  { intros i Hi. unfold sh, vacated. cbn [s1 s0 slots set_slots programs set_programs set_horus_runtime]. destruct Hi as [-> | ->].
    - rewrite list_lookup_insert_ne by done. rewrite list_lookup_insert_eq by (simpl; lia).
      rewrite lookup_delete_ne by done. by rewrite lookup_delete_eq.
    - rewrite list_lookup_insert_eq by (rewrite length_insert; simpl; lia). by rewrite lookup_delete_eq. }
  apply (good_horus_change s sh Hg); try done.
  - unfold sh, vacated. cbn [s1 s0 programs set_slots set_programs set_horus_runtime]. by rewrite !length_insert.
  - intros k H5k H6k. unfold sh, vacated. cbn [s1 s0 programs set_slots set_programs set_horus_runtime].
    by rewrite !list_lookup_insert_ne by (unfold Modules.HORUS_INGRESS_SWAP; simpl; lia).
  - intros k H0k H5k H6k. unfold sh, vacated. cbn [s1 s0 slots set_slots set_programs set_horus_runtime].
    by rewrite !lookup_delete_ne, lookup_insert_ne.
  - unfold sh, vacated. cbn [s1 s0 slots set_slots set_programs set_horus_runtime].
    rewrite !lookup_delete_ne by done. rewrite lookup_insert_eq. unfold parser_code. simpl. eauto.
  - apply Hnone. unfold horus_other. destruct (horus_swap sh); auto.
  - change (horus_runtime_enabled sh) with false. apply Hnone. unfold horus_index. destruct (horus_swap sh); auto.
Qed.

(** The program of a table, its counters at zero. *)
Definition horus_entries (m : horus_map) : list (list Z * (Z * Z)) :=
  (fun e => (horus_key_data e.1, (h_action e.2, h_ruleID e.2))) <$> m.
Definition horus_fields (m : horus_map) : Z := match m with (k, _) :: _ => h_setFields k | [] => 0 end.
Definition horus_zeros : rowsT := a_new HorusConst.MAX_RULE_SIZE_FOR_HORUS (cpu_zeros cfg).
Definition horus_program (m : horus_map) (t : keysT) : program :=
  Horus (horus_fields m) (negb (bool_decide (conntrackMode cfg = DISABLED))) t horus_zeros horus_zeros.

(** A table: the program goes to the free index, and the old one is removed. *)
Lemma install_horus_run s m :
  good cfg s -> Z.of_nat (length m) <= HorusConst.MAX_RULE_SIZE_FOR_HORUS ->
  exists sh t, install_horus cfg m (set_horus_runtime false s) = (Ok tt, sh) /\
    good cfg sh /\ same_chain s sh /\ chainNumber sh = chainNumber s /\ horus_runtime_enabled sh = true /\
    h_updates (h_new HorusConst.MAX_RULE_SIZE_FOR_HORUS) (horus_entries m) = Ok t /\
    slots sh !! horus_index sh = Some (horus_program m t).
Proof using Type.
  intros Hg Hlen. set (s1 := set_horus_swap (negb (horus_swap s)) (set_horus_runtime true (set_horus_runtime false s))).
  destruct (h_updates_total (horus_entries m) (h_new (T := keysT) HorusConst.MAX_RULE_SIZE_FOR_HORUS)) as (t & Ht).
  { rewrite h_free_new. unfold horus_entries. by rewrite length_fmap. }
  assert (horus_index s1 = horus_other s /\ horus_other s1 = horus_index s) as [Ei Eo].
  { unfold horus_index, horus_other, s1. simpl. by destruct (horus_swap s). }
  set (new := horus_index s1). set (old := horus_other s1).
  assert (new ≠ old /\ 5 <= new <= 6 /\ 5 <= old <= 6) as (Hno & Hn56 & Ho56).
  { unfold new, old, horus_index, horus_other. destruct (horus_swap s1); vm_compute; intuition congruence. }
  assert (install_horus cfg m (set_horus_runtime false s) =
    (modify (load cfg {| m_kind := KHorus m; m_index := new; m_hop := None |}) ;;;
     set_program_at new (Some {| m_kind := KHorus m; m_index := new; m_hop := None |}) ;;;
     horus_updateMap {| m_kind := KHorus m; m_index := new; m_hop := None |} m ;;;
     reload_at cfg Modules.PARSER ;;; remove_horus old) s1) as ->.
  { unfold install_horus. unfold bind at 1, modify at 1. unfold bind at 1, modify at 1. fold s1.
    unfold bind at 1, get. cbv beta iota.
    match goal with |- (if ?x then _ else _) _ = _ => idtac | |- context [if horus_swap ?x then _ else _] =>
      change (horus_swap x) with (horus_swap s1) end.
    unfold new, old, horus_index, horus_other. by destruct (horus_swap s1). }
  destruct (gd_horus_other _ s Hg) as [Hpn Hsn]. rewrite <- Ei in Hpn, Hsn. fold new in Hpn, Hsn.
  set (md := {| m_kind := KHorus m; m_index := new; m_hop := None |}).
  set (s2 := set_slots (<[new := horus_program m (h_new HorusConst.MAX_RULE_SIZE_FOR_HORUS)]> (slots s1)) s1).
  assert (load cfg md s1 = s2) as E1.
  { unfold load. cbn [md m_index]. change (slots s1) with (slots s). by rewrite Hsn. }
  unfold bind at 1, modify at 1. rewrite E1.
  set (s3 := set_programs (<[Z.to_nat new := Some md]> (programs s2)) s2).
  rewrite (bind_run _ _ s2 tt s3); [|exact (set_program_at_run new (Some md) None s2 Hpn)].
  set (s4 := set_slots (<[new := horus_program m t]> (slots s3)) s3).
  rewrite (bind_run _ _ s3 tt s4).
  2:{ refine (horus_fill_run md _ _ (h_new HorusConst.MAX_RULE_SIZE_FOR_HORUS) t _ _ m s3 _ Ht).
      cbn [s3 s2 slots set_programs set_slots md m_index]. by rewrite lookup_insert_eq. }
  destruct (gd_fixed _ s Hg Modules.PARSER KParser) as (hop & Hp); [by left|].
  destruct (gd_parser _ s Hg) as (nr & h & ct & Hsl). pose proof (gd_programs _ s Hg) as Hplen.
  set (s5 := set_slots (<[Modules.PARSER := parser_code cfg s1]> (slots s4)) s4).
  rewrite (bind_run _ _ s4 tt s5).
  2:{ refine (reload_at_run cfg Modules.PARSER s4 {| m_kind := KParser; m_index := Modules.PARSER; m_hop := hop |} (Parser nr h ct) _ _).
      - cbn [s4 s3 s2 s1 programs set_programs set_slots set_horus_swap set_horus_runtime].
        by rewrite list_lookup_insert_ne by (unfold Modules.PARSER; simpl; lia).
      - cbn [s4 s3 s2 s1 slots set_programs set_slots set_horus_swap set_horus_runtime].
        by rewrite !lookup_insert_ne by (unfold Modules.PARSER; simpl; lia). }
  assert (horus_slot old s5) as Hold.
  { destruct (horus_slots s Hg) as [Hi _]. rewrite <- Eo in Hi. fold old in Hi. unfold horus_slot in *.
    cbn [s5 s4 s3 s2 s1 m_index slots programs set_programs set_slots set_horus_swap set_horus_runtime].
    rewrite list_lookup_insert_ne by lia. rewrite !lookup_insert_ne by (unfold Modules.PARSER; lia). done. }
  rewrite (remove_horus_run _ _ Hold). exists (vacated old s5), t. split; [done|].
  set (sh := vacated old s5).
  assert (forall k, k ≠ 0 -> k ≠ old -> k ≠ new -> slots sh !! k = slots s !! k) as Hss.
  { intros k H0k Hok Hnk. unfold sh, vacated.
    cbn [s5 s4 s3 s2 s1 slots set_programs set_slots set_horus_swap set_horus_runtime].
    by rewrite lookup_delete_ne, !lookup_insert_ne by done. }
  assert (slots sh !! new = Some (horus_program m t)) as Hnew.
  { unfold sh, vacated. cbn [s5 s4 s3 s2 s1 slots set_programs set_slots set_horus_swap set_horus_runtime].
    rewrite lookup_delete_ne by done. rewrite lookup_insert_ne by (unfold Modules.PARSER; lia).
    by rewrite lookup_insert_eq. }
  assert (programs sh = <[Z.to_nat old := None]> (<[Z.to_nat new := Some md]> (programs s))) as Eprog by done.
  split; [|done]. apply (good_horus_change s sh Hg); try done.
  - by rewrite Eprog, !length_insert.
  - intros k H5k H6k. rewrite Eprog. by rewrite !list_lookup_insert_ne by lia.
  - intros k H0k H5k H6k. apply Hss; [done|lia|lia].
  - unfold sh, vacated. cbn [s5 s4 s3 s2 s1 slots set_programs set_slots set_horus_swap set_horus_runtime].
    rewrite lookup_delete_ne by (unfold Modules.PARSER; lia). rewrite lookup_insert_eq. unfold parser_code. eauto.
  - change (horus_other sh) with old. rewrite Eprog. rewrite list_lookup_insert_eq by (rewrite length_insert; lia).
    split; [done|]. unfold sh, vacated. cbn [slots set_programs set_slots]. apply lookup_delete_eq.
  - change (horus_runtime_enabled sh) with true. change (horus_index sh) with new. cbn iota. split.
    + exists m, None. rewrite Eprog. rewrite list_lookup_insert_ne by lia. by rewrite list_lookup_insert_eq by lia.
    + eexists _, _, _, _, _. split; [exact Hnew|]. split; apply a_size_new.
Qed.

(** The phase, for the rules of the chain. *)
Lemma horus_phase_run s rules :
  good cfg s -> rules_ s = Some <$> rules -> (forall r, r ∈ rules -> wf_rule r) ->
  exists sh m, horus_phase cfg key0 s = (Ok tt, sh) /\ good cfg sh /\ same_chain s sh /\
    chainNumber sh = chainNumber s /\ horus_of s rules = Ok m /\
    horus_runtime_enabled sh = horus_enabled cfg && nonempty m /\
    (horus_runtime_enabled sh = true -> exists t,
       h_updates (h_new HorusConst.MAX_RULE_SIZE_FOR_HORUS) (horus_entries m) = Ok t /\
       slots sh !! horus_index sh = Some (horus_program m t)).
Proof using Type.
  intros Hg Hrules Hwf.
  destruct (horus_loop_ok (rules ++ [default_rule s]) 0 0 key0 []) as (m & Hm & Hlen); [|lia|simpl; unfold HorusConst.MAX_RULE_SIZE_FOR_HORUS; lia|].
  { intros r [Hr| ->%list_elem_of_singleton]%elem_of_app; [by apply Hwf|apply default_rule_wf]. }
  change (horus_of s rules = Ok m) in Hm.
  assert (forall sh, good cfg sh -> (if horus_runtime_enabled sh then ret tt else
      reload_at cfg Modules.PARSER ;;; remove_horus Modules.HORUS_INGRESS ;;; remove_horus Modules.HORUS_INGRESS_SWAP) sh
    = (if horus_runtime_enabled sh then (Ok tt, sh) else
      (reload_at cfg Modules.PARSER ;;; remove_horus Modules.HORUS_INGRESS ;;; remove_horus Modules.HORUS_INGRESS_SWAP) sh)) as _.
  { intros sh _. by destruct (horus_runtime_enabled sh). }
  unfold horus_phase. unfold bind at 1, modify.
  destruct (horus_enabled cfg && nonempty m) eqn:Eon.
  - apply andb_true_iff in Eon as [E1 E2]. rewrite E1.
    destruct (install_horus_run s m Hg Hlen) as (sh & t & Hrun & Hgs & Hsame & Hc & Hon & Ht & Hsl).
    exists sh, m. split; [|by eauto 10].
    match goal with |- bind ?c _ _ = _ => assert (c (set_horus_runtime false s) = (Ok tt, sh)) as Ec end.
    { unfold bind at 1, get. change (getRuleList cfg (set_horus_runtime false s)) with (getRuleList cfg s).
      rewrite getRuleList_run, Hrules. unfold bind at 1, lift.
      change [Some (default_rule s)] with (Some <$> [default_rule s]). rewrite <- fmap_app, deref_all_fmap.
      unfold bind at 1. rewrite length_app. cbn [length]. rewrite (proj2 (Z.leb_le _ _)) by (unfold HorusConst.MIN_RULE_SIZE_FOR_HORUS; lia).
      unfold bind at 1. change (horusFromRulesToMap key0 (rules ++ [default_rule s])) with (horus_of s rules). rewrite Hm.
      rewrite (proj2 (Z.leb_le _ _)); [done|]. destruct m; [done|]. simpl. unfold HorusConst.MIN_RULE_SIZE_FOR_HORUS. lia. }
    rewrite (bind_run _ _ _ _ _ Ec). unfold bind at 1, get. by rewrite Hon.
  - destruct (horus_off_run s Hg) as (sh & Hrun & Hgs & Hsame & Hc & Hoff).
    exists sh, m. rewrite Hoff. split; [|by eauto 10].
    match goal with |- bind ?c _ _ = _ => assert (c (set_horus_runtime false s) = (Ok tt, set_horus_runtime false s)) as Ec end.
    { destruct (horus_enabled cfg); [|done]. destruct m; [|done].
      unfold bind at 1, get. change (getRuleList cfg (set_horus_runtime false s)) with (getRuleList cfg s).
      rewrite getRuleList_run, Hrules. unfold bind at 1, lift.
      change [Some (default_rule s)] with (Some <$> [default_rule s]). rewrite <- fmap_app, deref_all_fmap.
      unfold bind at 1. destruct (_ <=? _); [|done].
      unfold bind at 1. change (horusFromRulesToMap key0 (rules ++ [default_rule s])) with (horus_of s rules). by rewrite Hm. }
    rewrite (bind_run _ _ _ _ _ Ec). unfold bind at 1, get. exact Hrun.
Qed.
End phase.
