(* ===== verification/FwHorusFacts.v ===== *)
(** pcn-firewall, the Horus table: which rules of a chain it holds, and that a
    lookup with the packed fields of a packet finds the first of them that the
    packet matches exactly. *)
From Stdlib Require Import ZArith Lia.
From stdpp Require Import base gmap sets list strings numbers.
From S2P Require Import Prelude.
From S2P Require Import Vec.
From S2P Require Import Bpf.
From S2P Require Import NetUtils.
From S2P Require Import FwRule.
From S2P Require Import FwFlags.
From S2P Require Import FwRuleFacts.
From S2P Require Import FwBits.
From S2P Require Import FwMaps.
From S2P Require Import FwMapsFacts.
From S2P Require Import FwIpFacts.
From S2P Require Import Frame.
From S2P Require Import FwConntrack.
From S2P Require Import FwDatapath.
From S2P Require Import FwPipeline.
From S2P Require Import FwModules.
From S2P Require Import FwChain.
From S2P Require Import FwUpdate.
From S2P Require Import FwStages.
From S2P Require Import FwInstall.
From S2P Require Import FwUpdateChain.
From S2P Require Import FwHorus.
#[local] Open Scope Z_scope.

(** ** The rules of the table *)
(** The rules at the head of the list that test the fields [sf], and not the
    connection status. *)
Fixpoint same_fields (sf : Z) (rules : list ChainRule) : list ChainRule :=
  match rules with
  | r :: rules =>
      if bool_decide (conntrack r = None) && (horus_fields_of r =? sf) then r :: same_fields sf rules else []
  | [] => []
  end.
Definition horus_head (rules : list ChainRule) : list ChainRule :=
  match rules with
  | r :: _ => if horus_skips rules then [] else take 2048 (same_fields (horus_fields_of r) rules)
  | [] => []
  end.

Definition head_fields (rules : list ChainRule) : Z := match rules with r :: _ => horus_fields_of r | [] => 0 end.

(** The packet has the value of every field that the rule gives exactly. *)
Definition agrees_on (o : option Z) (x : Z) : bool := match o with Some v => v =? x | None => true end.
Definition horus_matches (p : packetHeaders) (r : ChainRule) : bool :=
  agrees_on (exact_addr SOURCE_TYPE r) (p_srcIp p) && agrees_on (exact_addr DESTINATION_TYPE r) (p_dstIp p) &&
  agrees_on (l4Proto r) (p_l4proto p) && agrees_on (srcPort r) (bswap16 (p_srcPort p)) &&
  agrees_on (dstPort r) (bswap16 (p_dstPort p)).

Lemma same_fields_elem sf rules r :
  r ∈ same_fields sf rules -> r ∈ rules /\ conntrack r = None /\ horus_fields_of r = sf.
Proof.
  induction rules as [|x rules IH]; simpl; [by intros []%elem_of_nil|].
  destruct (bool_decide (conntrack x = None)) eqn:Ec; [|by intros []%elem_of_nil].
  destruct (Z.eqb_spec (horus_fields_of x) sf) as [Ef|]; [|by intros []%elem_of_nil]. simpl.
  intros [->|Hr]%elem_of_cons; [apply bool_decide_eq_true in Ec; split; [by left|done]|].
  destruct (IH Hr) as (? & ? & ?). split; [by right|done].
Qed.
Lemma same_fields_prefix sf rules : same_fields sf rules `prefix_of` rules.
Proof.
  induction rules as [|x rules IH]; simpl; [done|]. destruct (_ && _); [by apply prefix_cons|apply prefix_nil].
Qed.

Lemma horus_head_elem rules r :
  r ∈ horus_head rules -> r ∈ rules /\ conntrack r = None /\ horus_fields_of r = head_fields rules.
Proof.
  unfold horus_head. destruct rules as [|x rules]; [by intros []%elem_of_nil|].
  destruct (horus_skips _); [by intros []%elem_of_nil|]. intros Hr.
  apply (subseteq_take 2048) in Hr. by apply same_fields_elem in Hr.
Qed.
Lemma horus_head_prefix rules : horus_head rules `prefix_of` rules.
Proof.
  unfold horus_head. destruct rules as [|x rules]; [done|]. destruct (horus_skips _); [apply prefix_nil|].
  etrans; [apply prefix_take|apply same_fields_prefix].
Qed.
Lemma horus_head_nil rules : horus_head rules = [] <-> horus_skips rules = true.
Proof.
  unfold horus_head. destruct rules as [|x rules]; [done|]. destruct (horus_skips (x :: rules)) eqn:E; [done|].
  split; [|done]. simpl in E. apply orb_false_iff in E as [E _]. apply bool_decide_eq_false in E.
  cbn [same_fields]. rewrite bool_decide_eq_true_2, Z.eqb_refl by (destruct (conntrack x); [by destruct E|done]). done.
Qed.

(** A last rule without exact fields, such as the default policy, changes nothing. *)
Lemma same_fields_snoc sf rules d : sf ≠ 0 -> horus_fields_of d = 0 -> same_fields sf (rules ++ [d]) = same_fields sf rules.
Proof.
  intros Hs Hd. induction rules as [|x rules IH]; simpl; [|by rewrite IH].
  rewrite Hd. destruct (Z.eqb_spec 0 sf); [congruence|]. by rewrite andb_false_r.
Qed.
Lemma horus_head_snoc rules d : horus_fields_of d = 0 -> horus_head (rules ++ [d]) = horus_head rules.
Proof.
  intros Hd. destruct rules as [|x rules].
  { change ([] ++ [d]) with [d]. unfold horus_head, horus_skips. rewrite Hd. by rewrite orb_true_r. }
  change ((x :: rules) ++ [d]) with (x :: rules ++ [d]). unfold horus_head. change (horus_skips (x :: rules ++ [d])) with (horus_skips (x :: rules)).
  destruct (horus_skips (x :: rules)) eqn:E; [done|]. simpl in E. apply orb_false_iff in E as [_ E%Z.eqb_neq].
  change (x :: rules ++ [d]) with ((x :: rules) ++ [d]). by rewrite same_fields_snoc.
Qed.

Section table.
Context `{Inet} (key0 : HorusRule).

Lemma horus_bit_range {A} (o : option A) i : horus_bit o i = 0 \/ horus_bit o i = 2 ^ i.
Proof using Type. destruct o; simpl; auto. Qed.

(** The bits of the mask. *)
Lemma horus_fields_bits r :
  (CHECK_BIT (horus_fields_of r) HorusConst.SRCIP, CHECK_BIT (horus_fields_of r) HorusConst.DSTIP,
   CHECK_BIT (horus_fields_of r) HorusConst.L4PROTO, CHECK_BIT (horus_fields_of r) HorusConst.SRCPORT,
   CHECK_BIT (horus_fields_of r) HorusConst.DSTPORT) =
  (bool_decide (is_Some (exact_addr SOURCE_TYPE r)), bool_decide (is_Some (exact_addr DESTINATION_TYPE r)),
   bool_decide (is_Some (l4Proto r)), bool_decide (is_Some (srcPort r)), bool_decide (is_Some (dstPort r))).
Proof using Type.
  unfold horus_fields_of. destruct (exact_addr SOURCE_TYPE r), (exact_addr DESTINATION_TYPE r), (l4Proto r), (srcPort r), (dstPort r);
    rewrite ?bool_decide_eq_true_2 by (by eexists); rewrite ?bool_decide_eq_false_2 by (by intros []); reflexivity.
Qed.

(** Rules that give the same fields have the same entry for any key that holds
    [key0] where they give nothing. *)
Lemma horus_entry_chain r r' :
  horus_fields_of r = horus_fields_of r' -> horus_entry r (horus_entry r' key0) = horus_entry r key0.
Proof using Type.
  intros E. pose proof (horus_fields_bits r) as B. rewrite E, horus_fields_bits in B. injection B as B1 B2 B3 B4 B5.
  assert (forall (o o' : option Z) d, bool_decide (is_Some o') = bool_decide (is_Some o) ->
    default (default d o') o = default d o) as Hd.
  { by intros [] [] d Eb. }
  unfold horus_entry. simpl. rewrite !Hd by done. by rewrite E.
Qed.

(** The map: the entries of the head, the first one of each key. *)
Definition entries (l : list ChainRule) (m : horus_map) : horus_map :=
  foldl (fun m r => StdMap.insert HorusRule_ltb (horus_entry r key0) (horus_value r) m) m l.

Lemma horus_loop_run rules i sf r0 m :
  (forall r, r ∈ rules -> wf_rule r) -> 0 < i <= 2048 -> horus_fields_of r0 = sf -> sf ≠ 0 ->
  horus_loop rules i sf (horus_entry r0 key0) m =
  Ok (entries (take (Z.to_nat (2048 - i)) (same_fields sf rules)) m).
Proof using Type.
  revert i r0 m. induction rules as [|r rules IH]; intros i r0 m Hwf Hi Hr0 Hsf; cbn [horus_loop].
  { cbn [same_fields]. by rewrite take_nil. }
  change HorusConst.MAX_RULE_SIZE_FOR_HORUS with 2048. destruct (Z.leb_spec 2048 i) as [Hle|Hlt].
  { replace (Z.to_nat (2048 - i)) with 0%nat by lia. done. }
  rewrite fromRuleToHorusKeyValue_spec by (apply Hwf; by left). cbn [res_bind same_fields].
  destruct (conntrack r) eqn:Ec.
  { rewrite bool_decide_eq_false_2 by done. cbn [andb]. by rewrite take_nil. }
  rewrite bool_decide_eq_true_2 by done. rewrite (proj2 (Z.eqb_neq i 0)) by lia. cbn [andb horus_entry h_setFields].
  destruct (Z.eqb_spec (horus_fields_of r) sf) as [Ef|Ef]; cbn [negb]; [|by rewrite take_nil].
  replace (Z.to_nat (2048 - i)) with (S (Z.to_nat (2048 - (i + 1)))) by lia. cbn [take entries foldl].
  assert (horus_entry r (horus_entry r0 key0) = horus_entry r key0) as Ee by (apply horus_entry_chain; congruence).
  rewrite Ee. apply IH; [intros x Hx; apply Hwf; by right|lia|done|done].
Qed.

Lemma horusFromRulesToMap_run rules :
  (forall r, r ∈ rules -> wf_rule r) -> horusFromRulesToMap key0 rules = Ok (entries (horus_head rules) []).
Proof using Type.
  intros Hwf. unfold horusFromRulesToMap. destruct (horus_skips rules) eqn:Es.
  { rewrite horus_loop_skips by done. by rewrite (proj2 (horus_head_nil rules) Es). }
  destruct rules as [|r rules]; [done|]. unfold horus_head. rewrite Es. cbn [horus_loop].
  rewrite fromRuleToHorusKeyValue_spec by (apply Hwf; by left). cbn [res_bind HorusConst.MAX_RULE_SIZE_FOR_HORUS Z.leb Z.compare].
  simpl in Es. apply orb_false_iff in Es as [Ec Ef]. apply bool_decide_eq_false in Ec.
  destruct (conntrack r) eqn:Er; [destruct Ec; by eexists|]. cbn [horus_entry h_setFields]. rewrite Ef. cbn [andb Z.eqb negb].
  rewrite Z.eqb_refl. cbn [negb]. apply Z.eqb_neq in Ef.
  change {| h_src_ip := _; h_dst_ip := _; h_l4proto := _; h_src_port := _; h_dst_port := _; h_setFields := _ |}
    with (horus_entry r key0).
  rewrite horus_loop_run; [|intros x Hx; apply Hwf; by right|lia|done|done].
  cbn [same_fields]. rewrite bool_decide_eq_true_2, Z.eqb_refl by done. done.
Qed.

(** ** Lookups in the map *)
Lemma entries_cons r l m :
  entries (r :: l) m = entries l (StdMap.insert HorusRule_ltb (horus_entry r key0) (horus_value r) m).
Proof using Type. done. Qed.
Lemma find_entries l m k :
  StdMap.find HorusRule_ltb k (entries l m) =
  match StdMap.find HorusRule_ltb k m with
  | Some v => Some v
  | None => (fun x => horus_value x.2) <$>
              list_find (fun r => FwModules.horus_fields k = FwModules.horus_fields (horus_entry r key0)) l
  end.
Proof using Type.
  revert m. induction l as [|r l IH]; intros m; cbn [list_find].
  { by destruct (StdMap.find _ _ _). }
  rewrite entries_cons, IH, (StdMap.find_insert HorusRule_ltb FwModules.horus_fields).
  destruct (StdMap.equivb_spec HorusRule_ltb FwModules.horus_fields k (horus_entry r key0)) as [E|E].
  - rewrite decide_True by done. by destruct (StdMap.find _ k m).
  - rewrite decide_False by done. destruct (StdMap.find _ k m); [done|]. by destruct (list_find _ l) as [[]|].
Qed.

Lemma entries_elem l m kv :
  kv ∈ entries l m -> kv ∈ m \/ exists r, r ∈ l /\ kv = (horus_entry r key0, horus_value r).
Proof using Type.
  revert m. induction l as [|r l IH]; intros m; [by left|]. rewrite entries_cons. intros [Hin|(r' & Hr & ->)]%IH.
  - apply list_elem_of_In, StdMap.In_insert in Hin as [->|Hin]; [right; exists r; split; [by left|done]|].
    left. by apply list_elem_of_In.
  - right. exists r'. split; [by right|done].
Qed.

Lemma entries_NoDup l m :
  NoDup (StdMap.keys FwModules.horus_fields m) -> NoDup (StdMap.keys FwModules.horus_fields (entries l m)).
Proof using Type.
  revert m. induction l as [|r l IH]; intros m Hm; [done|]. rewrite entries_cons.
  apply IH, (StdMap.NoDup_keys_insert HorusRule_ltb FwModules.horus_fields). exact Hm.
Qed.

Lemma entries_length l m : (length (entries l m) <= length l + length m)%nat.
Proof using Type.
  assert (forall (m : horus_map) k v, (length (StdMap.insert HorusRule_ltb k v m) <= S (length m))%nat) as Hins.
  { clear. intros m k v. unfold StdMap.insert. destruct (StdMap.find _ k m); [lia|].
    induction m as [|[k' v'] m IH]; simpl; [lia|]. destruct (HorusRule_ltb k' k); simpl; lia. }
  revert m. induction l as [|r l IH]; intros m; [done|]. rewrite entries_cons.
  specialize (IH (StdMap.insert HorusRule_ltb (horus_entry r key0) (horus_value r) m)).
  specialize (Hins m (horus_entry r key0) (horus_value r)). simpl. lia.
Qed.

(** ** The packed key *)
Definition piece (b : bool) (n : nat) (x : Z) : list Z := if b then le_bytes n x else [].

Lemma le_bytes_inj n x y :
  0 <= x < 2 ^ (8 * Z.of_nat n) -> 0 <= y < 2 ^ (8 * Z.of_nat n) -> le_bytes n x = le_bytes n y -> x = y.
Proof using Type.
  intros Hx Hy E. apply Z.bits_inj'. intros i Hi.
  destruct (Z.lt_ge_cases i (8 * Z.of_nat n)) as [Hlt|Hge].
  - assert (byte_of x (i / 8) = byte_of y (i / 8)) as Eb.
    { assert (Z.to_nat (i / 8) < n)%nat as Hk.
      { apply Nat2Z.inj_lt. rewrite Z2Nat.id by (apply Z.div_pos; lia). apply Z.div_lt_upper_bound; lia. }
      apply (f_equal (fun l => l !! Z.to_nat (i / 8))) in E. unfold le_bytes in E.
      rewrite !list_lookup_fmap, !lookup_seq_lt in E by done. simpl in E. injection E as E.
      by rewrite Z2Nat.id in E by (apply Z.div_pos; lia). }
    unfold byte_of in Eb. apply (f_equal (fun z => Z.testbit z (i mod 8))) in Eb.
    pose proof (Z.mod_pos_bound i 8 ltac:(lia)) as Hm.
    rewrite !Z.land_spec, !Z.shiftr_spec in Eb by lia. change 255 with (Z.ones 8) in Eb.
    rewrite Z.ones_spec_low, !andb_true_r in Eb by lia.
    assert (i mod 8 + 8 * (i / 8) = i) as Ei by (pose proof (Z.div_mod i 8 ltac:(lia)); lia). by rewrite Ei in Eb.
  - by rewrite (testbit_high x (8 * Z.of_nat n)), (testbit_high y (8 * Z.of_nat n)).
Qed.

Lemma piece_app b n x y l l' :
  (b = true -> 0 <= x < 2 ^ (8 * Z.of_nat n) /\ 0 <= y < 2 ^ (8 * Z.of_nat n)) ->
  piece b n x ++ l = piece b n y ++ l' <-> (b = true -> x = y) /\ l = l'.
Proof using Type.
  intros Hr. unfold piece. destruct b; simpl.
  - destruct (Hr eq_refl) as [Hx Hy]. split.
    + intros E. apply app_inj_1 in E as [E1 E2]; [|unfold le_bytes; by rewrite !length_map, !length_seq].
      split; [|done]. intros _. by eapply le_bytes_inj.
    + intros [E ->]. by rewrite E.
  - split; [intros ->; split; [done|done]|by intros [_ ->]].
Qed.

Lemma horus_key_pieces sf a b c d e :
  horus_key sf a b c d e =
  piece (CHECK_BIT sf HorusConst.SRCIP) 4 a ++ piece (CHECK_BIT sf HorusConst.DSTIP) 4 b ++
  piece (CHECK_BIT sf HorusConst.SRCPORT) 2 c ++ piece (CHECK_BIT sf HorusConst.DSTPORT) 2 d ++
  piece (CHECK_BIT sf HorusConst.L4PROTO) 1 e ++ [].
Proof using Type. rewrite app_nil_r. done. Qed.

(** Two packed keys are equal when the fields that are packed are. *)
Lemma horus_key_eq sf a b c d e a' b' c' d' e' :
  (CHECK_BIT sf HorusConst.SRCIP = true -> 0 <= a < 2 ^ 32 /\ 0 <= a' < 2 ^ 32) ->
  (CHECK_BIT sf HorusConst.DSTIP = true -> 0 <= b < 2 ^ 32 /\ 0 <= b' < 2 ^ 32) ->
  (CHECK_BIT sf HorusConst.SRCPORT = true -> 0 <= c < 2 ^ 16 /\ 0 <= c' < 2 ^ 16) ->
  (CHECK_BIT sf HorusConst.DSTPORT = true -> 0 <= d < 2 ^ 16 /\ 0 <= d' < 2 ^ 16) ->
  (CHECK_BIT sf HorusConst.L4PROTO = true -> 0 <= e < 2 ^ 8 /\ 0 <= e' < 2 ^ 8) ->
  horus_key sf a b c d e = horus_key sf a' b' c' d' e' <->
  (CHECK_BIT sf HorusConst.SRCIP = true -> a = a') /\ (CHECK_BIT sf HorusConst.DSTIP = true -> b = b') /\
  (CHECK_BIT sf HorusConst.SRCPORT = true -> c = c') /\ (CHECK_BIT sf HorusConst.DSTPORT = true -> d = d') /\
  (CHECK_BIT sf HorusConst.L4PROTO = true -> e = e').
Proof using Type.
  intros Ha Hb Hc Hd He. rewrite !horus_key_pieces.
  rewrite !piece_app by done. tauto.
Qed.

(** ** Looking a packet up *)
Definition packet_key (sf : Z) (p : packetHeaders) : list Z :=
  horus_key sf (p_srcIp p) (p_dstIp p) (p_srcPort p) (p_dstPort p) (p_l4proto p).

Lemma exact_addr_range type r a : wf_rule r -> exact_addr type r = Some a -> 0 <= a < 2 ^ 32.
Proof using Type.
  intros Hr. unfold exact_addr, addr_of. pose proof (wf_src r Hr) as Hs. pose proof (wf_dst r Hr) as Hd.
  destruct (type =? SOURCE_TYPE); [destruct (ipSrc r) as [x|] eqn:E|destruct (ipDst r) as [x|] eqn:E]; simpl; try done;
    (destruct (netmask x =? 32); [|done]); intros [= <-]; first [by apply (Hs x)|by apply (Hd x)].
Qed.

(** A field that is in the mask has its value in the entry. *)
Lemma packed_field (P : Z -> Prop) (o : option Z) d :
  opt P o -> bool_decide (is_Some o) = true -> P (default d o).
Proof using Type. intros Ho. rewrite bool_decide_eq_true. intros [v ->]. by apply Ho. Qed.
Lemma agrees_on_spec (o : option Z) d x : (bool_decide (is_Some o) = true -> default d o = x) <-> agrees_on o x = true.
Proof using Type.
  rewrite bool_decide_eq_true. destruct o as [v|]; cbn [agrees_on default].
  - rewrite Z.eqb_eq. split; [intros E; apply E; by eexists|done].
  - split; [done|]. by intros _ [].
Qed.

Lemma horus_key_data_entry r :
  horus_key_data (horus_entry r key0) =
  horus_key (horus_fields_of r) (default (h_src_ip key0) (exact_addr SOURCE_TYPE r))
    (default (h_dst_ip key0) (exact_addr DESTINATION_TYPE r)) (bswap16 (default (h_src_port key0) (srcPort r)))
    (bswap16 (default (h_dst_port key0) (dstPort r))) (default (h_l4proto key0) (l4Proto r)).
Proof using Type. done. Qed.

(** The ranges of what a rule packs. *)
Lemma packed_ranges r : wf_rule r ->
  opt (fun a => 0 <= a < 2 ^ 32) (exact_addr SOURCE_TYPE r) /\ opt (fun a => 0 <= a < 2 ^ 32) (exact_addr DESTINATION_TYPE r) /\
  opt (fun a => 0 <= a < 2 ^ 16) (srcPort r) /\ opt (fun a => 0 <= a < 2 ^ 16) (dstPort r) /\ opt (fun a => 0 <= a < 2 ^ 8) (l4Proto r).
Proof using Type.
  intros Hr. split; [intros a; by apply exact_addr_range|]. split; [intros a; by apply exact_addr_range|].
  split; [apply (wf_sport r Hr)|]. split; [apply (wf_dport r Hr)|].
  intros a Ha. by apply known_protocol_u8, (wf_proto r Hr).
Qed.

Lemma packed_matches r p :
  wf_rule r -> wf_pkt p ->
  horus_key_data (horus_entry r key0) = packet_key (horus_fields_of r) p <-> horus_matches p r = true.
Proof using Type.
  intros Hr Hp. destruct (packed_ranges r Hr) as (R1 & R2 & R3 & R4 & R5).
  pose proof (horus_fields_bits r) as B. injection B as B1 B2 B3 B4 B5.
  rewrite horus_key_data_entry. unfold packet_key. rewrite horus_key_eq; rewrite ?B1, ?B2, ?B3, ?B4, ?B5.
  - unfold horus_matches. rewrite !andb_true_iff, <- !(agrees_on_spec _ 0).
    pose proof (bswap16_invol _ (wp_sport p Hp)) as [I1 _]. pose proof (bswap16_invol _ (wp_dport p Hp)) as [I2 _].
    assert (forall (o : option Z) d x, opt (fun a => 0 <= a < 2 ^ 16) o -> bswap16 (bswap16 x) = x ->
      (bool_decide (is_Some o) = true -> bswap16 (default d o) = x) <-> (bool_decide (is_Some o) = true -> default 0 o = bswap16 x)) as Hport.
    { intros o d x Ho Hx. rewrite bool_decide_eq_true. destruct o as [v|]; simpl; [|split; by intros _ []].
      destruct (bswap16_invol v (Ho v eq_refl)) as [Hv _]. split; intros E Ht; specialize (E Ht); congruence. }
    rewrite (Hport _ _ _ R3 I1), (Hport _ _ _ R4 I2).
    assert (forall (o : option Z) d x, (bool_decide (is_Some o) = true -> default d o = x) <-> (bool_decide (is_Some o) = true -> default 0 o = x)) as Hd.
    { intros o d x. rewrite bool_decide_eq_true. destruct o as [v|]; [done|split; by intros _ []]. }
    rewrite (Hd (exact_addr SOURCE_TYPE r)), (Hd (exact_addr DESTINATION_TYPE r)), (Hd (l4Proto r)). tauto.
  - intros E. split; [by apply packed_field|apply Hp].
  - intros E. split; [by apply packed_field|apply Hp].
  - intros E. split; [apply bswap16_invol; by apply (packed_field (fun a => 0 <= a < 2 ^ 16))|apply Hp].
  - intros E. split; [apply bswap16_invol; by apply (packed_field (fun a => 0 <= a < 2 ^ 16))|apply Hp].
  - intros E. split; [by apply (packed_field (fun a => 0 <= a < 2 ^ 8))|apply Hp].
Qed.

(** Rules of the same mask with the same packed key have the same entry. *)
Lemma packed_inj r r' :
  wf_rule r -> wf_rule r' -> horus_fields_of r = horus_fields_of r' ->
  horus_key_data (horus_entry r key0) = horus_key_data (horus_entry r' key0) <->
  FwModules.horus_fields (horus_entry r key0) = FwModules.horus_fields (horus_entry r' key0).
Proof using Type.
  intros Hr Hr' Ef. destruct (packed_ranges r Hr) as (R1 & R2 & R3 & R4 & R5), (packed_ranges r' Hr') as (S1 & S2 & S3 & S4 & S5).
  pose proof (horus_fields_bits r) as B. pose proof (horus_fields_bits r') as B'. rewrite <- Ef, B in B'.
  injection B as B1 B2 B3 B4 B5. injection B' as C1 C2 C3 C4 C5.
  rewrite !horus_key_data_entry, <- Ef. rewrite horus_key_eq; rewrite ?B1, ?B2, ?B3, ?B4, ?B5.
  2-6: intros E; split; [|rewrite C1 in E || rewrite C2 in E || rewrite C3 in E || rewrite C4 in E || rewrite C5 in E];
       first [by apply packed_field|apply bswap16_invol; by apply (packed_field (fun a => 0 <= a < 2 ^ 16))
             |by apply (packed_field (fun a => 0 <= a < 2 ^ 8))].
  assert (forall (f : Z -> Z) (o o' : option Z) d, bool_decide (is_Some o) = bool_decide (is_Some o') ->
    (forall v v', o = Some v -> o' = Some v' -> f v = f v' -> v = v') ->
    (bool_decide (is_Some o) = true -> f (default d o) = f (default d o')) <-> default d o = default d o') as Hd.
  { intros f [v|] [v'|] d Eb Hinj; try done.
    simpl. split; [intros E; apply Hinj; try done; by apply E|by intros ->]. }
  assert (forall (o o' : option Z), opt (fun a => 0 <= a < 2 ^ 16) o -> opt (fun a => 0 <= a < 2 ^ 16) o' ->
    forall v v', o = Some v -> o' = Some v' -> bswap16 v = bswap16 v' -> v = v') as Hsw.
  { intros o o' Ho Ho' v v' -> -> E. destruct (bswap16_invol v (Ho v eq_refl)) as [<- _].
    destruct (bswap16_invol v' (Ho' v' eq_refl)) as [<- _]. by rewrite E. }
  pose proof (Hd (fun x => x)) as Hi. cbv beta in Hi.
  rewrite (Hi _ _ _ C1), (Hi _ _ _ C2), (Hd bswap16 _ _ _ C4 (Hsw _ _ R3 S3)), (Hd bswap16 _ _ _ C5 (Hsw _ _ R4 S4)),
    (Hi _ _ _ C3) by done.
  unfold FwModules.horus_fields, horus_entry. simpl. split; [intros (-> & -> & -> & -> & ->); done|intros [= -> -> -> -> ->]; done].
Qed.

Lemma NoDup_fmap_by {A B C} (f : A -> B) (g : A -> C) (l : list A) :
  (forall x y, x ∈ l -> y ∈ l -> f x = f y -> g x = g y) -> NoDup (g <$> l) -> NoDup (f <$> l).
Proof using Type.
  induction l as [|x l IH]; intros Hfg; [constructor|]. rewrite !fmap_cons.
  intros [Hx Hl]%list.NoDup_cons. apply list.NoDup_cons. split.
  - intros (y & E & Hy)%list_elem_of_fmap. apply Hx. apply list_elem_of_fmap. exists y. split; [|done].
    apply Hfg; [by left|by right|done].
  - apply IH; [|done]. intros a b Ha Hb. apply Hfg; by right.
Qed.

Section lookup.
Context (l : list ChainRule) (sf : Z).
Context (Hl : forall r, r ∈ l -> wf_rule r /\ horus_fields_of r = sf).

Lemma map_keys_packed k k' :
  k ∈ (entries l []).*1 -> k' ∈ (entries l []).*1 ->
  horus_key_data k = horus_key_data k' <-> FwModules.horus_fields k = FwModules.horus_fields k'.
Proof using Hl.
  intros ([k1 v1] & -> & [[]%elem_of_nil|(r & Hr & E)]%entries_elem)%list_elem_of_fmap.
  intros ([k2 v2] & -> & [[]%elem_of_nil|(r' & Hr' & E')]%entries_elem)%list_elem_of_fmap.
  injection E as -> ->. injection E' as -> ->. simpl. destruct (Hl r Hr), (Hl r' Hr'). apply packed_inj; congruence.
Qed.

Lemma horus_table_NoDup : NoDup (horus_entries (entries l [])).*1.
Proof using Hl.
  unfold horus_entries. rewrite <- list_fmap_compose.
  replace (fst ∘ (fun e : HorusRule * HorusValue => (horus_key_data e.1, (h_action e.2, h_ruleID e.2)))) with
    (horus_key_data ∘ (fst : HorusRule * HorusValue -> HorusRule)) by done.
  rewrite list_fmap_compose. eapply (NoDup_fmap_by horus_key_data FwModules.horus_fields).
  - intros x y Hx Hy. by apply map_keys_packed.
  - apply (entries_NoDup l []). constructor.
Qed.

(** What the table answers: the first rule that the packet matches. *)
Lemma horus_table_lookup {T} `{BpfHash (list Z) (Z * Z) T} (t : T) p :
  Z.of_nat (length l) <= 2048 -> wf_pkt p ->
  h_updates (h_new HorusConst.MAX_RULE_SIZE_FOR_HORUS) (horus_entries (entries l [])) = Ok t ->
  h_lookup t (packet_key sf p) =
  (fun x => (h_action (horus_value x.2), id x.2)) <$> list_find (fun r => horus_matches p r = true) l.
Proof using Hl.
  intros Hlen Hp Ht. destruct (h_updates_ok (horus_entries (entries l [])) (h_new HorusConst.MAX_RULE_SIZE_FOR_HORUS) horus_table_NoDup)
    as (t' & Ht' & Hin & Hout).
  { rewrite h_free_new. unfold horus_entries. rewrite length_fmap. pose proof (entries_length l []) as He. simpl in He.
    unfold HorusConst.MAX_RULE_SIZE_FOR_HORUS. lia. }
  rewrite Ht in Ht'. injection Ht' as <-.
  destruct (list_find (fun r => horus_matches p r = true) l) as [[i r]|] eqn:Ef.
  - pose proof Ef as (Hi & Hm & Hfirst)%list_find_Some. assert (r ∈ l) as Hr by (by eapply list_elem_of_lookup_2).
    destruct (Hl r Hr) as [Hwr Hfr]. assert (horus_key_data (horus_entry r key0) = packet_key sf p) as Ek.
    { rewrite <- Hfr. by apply packed_matches. }
    assert (StdMap.find HorusRule_ltb (horus_entry r key0) (entries l []) = Some (horus_value r)) as Hfind.
    { rewrite find_entries. cbn [StdMap.find]. rewrite (proj2 (list_find_Some _ _ i r)); [done|].
      split; [done|]. split; [done|]. intros j y Hj Hlt Eq. apply (Hfirst j y Hj Hlt).
      assert (y ∈ l) as Hy by (by eapply list_elem_of_lookup_2). destruct (Hl y Hy) as [Hwy Hfy].
      apply packed_matches; [done..|]. rewrite Hfy, <- Ek. symmetry. apply packed_inj; [done..|congruence|done]. }
    apply (StdMap.find_Some_In HorusRule_ltb FwModules.horus_fields) in Hfind as (k' & Eq & Hk'%list_elem_of_In).
    assert (horus_key_data k' = packet_key sf p) as <-.
    { apply entries_elem in Hk' as [[]%elem_of_nil|(r' & Hr' & E)]. injection E as -> E. destruct (Hl r' Hr') as [Hwr' Hfr'].
      rewrite <- Ek. symmetry. apply packed_inj; [done..|congruence|done]. }
    apply Hin. apply list_elem_of_fmap. by exists (k', horus_value r).
  - rewrite Hout; [apply h_lookup_new|]. intros (e & Ee & He)%list_elem_of_fmap.
    apply list_elem_of_fmap in He as ([k v] & -> & [[]%elem_of_nil|(r & Hr & E)]%entries_elem).
    injection E as -> ->. simpl in Ee. destruct (Hl r Hr) as [Hwr Hfr].
    apply list_find_None in Ef. rewrite list.Forall_forall in Ef. apply (Ef r Hr). apply packed_matches; [done..|]. by rewrite Hfr.
Qed.
End lookup.
End table.
