(* ===== verification/FwRun.v ===== *)
(** pcn-firewall, [updateChain] from beginning to end: it returns, it keeps the
    invariant of the direction, and the programs it leaves enforce the rules. *)
From Stdlib Require Import ZArith Lia.
From stdpp Require Import base gmap sets list strings numbers.
From S2P Require Import Prelude.
From S2P Require Import Vec.
From S2P Require Import Bpf.
From S2P Require Import NetUtils.
From S2P Require Import FwRule.
From S2P Require Import FwFlags.
From S2P Require Import FwRuleFacts.
From S2P Require Import FwBits.
From S2P Require Import FwMaps.
From S2P Require Import FwMapsFacts.
From S2P Require Import FwIpFacts.
From S2P Require Import Frame.
From S2P Require Import FwConntrack.
From S2P Require Import FwDatapath.
From S2P Require Import FwPipeline.
From S2P Require Import FwModules.
From S2P Require Import FwChain.
From S2P Require Import FwUpdate.
From S2P Require Import FwStages.
From S2P Require Import FwInstall.
From S2P Require Import FwUpdateChain.
From S2P Require Import FwHorus.
#[local] Open Scope Z_scope.
#[local] Open Scope cpp_scope.

Section run.
Context `{Inet} `{Tables ct_k ct_v}.
Context (cfg : config) (key0 : HorusRule).

Lemma same_chain_trans s s' s'' : same_chain s s' -> same_chain s' s'' -> same_chain s s''.
Proof using Type. unfold same_chain. intuition congruence. Qed.

(** The programs of the new chain, loaded beside the old one. *)
Lemma build_run sh rules :
  good cfg sh -> rules_ sh = Some <$> rules -> compilable rules ->
  exists t (l : list (field * program)) b s2 b' s3 t64 acts,
    compile_tables rules = Ok t /\ (length l <= 7)%nat /\
    (b <-- inject_round cfg t false (Building (starting_index sh) None
        (replicate (Z.to_nat (Modules.NR_INITIAL_MODULES + Modules.NR_MODULES + 1)) None)) ;;
     inject_round cfg t true b) sh = (Ok b, s2) /\
    inject_tail cfg rules b s2 = (Ok b', s3) /\
    placed (starting_index sh) sh (l.*2 ++
      [BitScan (nr_of rules) (starting_index sh + Z.of_nat (length l) + 1) t64;
       ActionLookup (nr_of rules) acts (counters cfg 8000) (counters cfg 8000)]) b' s3 /\
    enforcing cfg rules (switched cfg b' (starting_index sh) s3).
Proof using Type.
  intros Hg Hrules Hco.
  assert (nr_elements sh = nr_of rules) as Hnr.
  { unfold nr_elements, getNrRules, nr_of. by rewrite Hrules, length_fmap. }
  destruct (compile_tables_spec rules (co_wf rules Hco)) as (t & Et & Ht).
  destruct (inject_rounds_run cfg rules (nr_of rules) t (tables_install cfg rules t Hco Ht) (starting_index sh) sh _ eq_refl)
    as (l & b & s2 & Hr & Hb & Hl & Hlen); [done|intros i Hi; apply (starting_free cfg sh Hg); lia|].
  destruct (inject_tail_run cfg rules (nr_of rules) (wfr_ids rules (co_wf rules Hco)) (wfr_len rules (co_wf rules Hco))
    (co_actions rules Hco) (starting_index sh) sh l b s2 Hb Hnr) as (b' & s3 & t64 & acts & Hrt & Hpl & H64 & Hacts & H15).
  { intros f _. apply field_pos_range. }
  { apply (starting_free cfg sh Hg). lia. }
  { apply (starting_free cfg sh Hg). lia. }
  exists t, l, b, s2, b', s3, t64, acts. split; [done|]. split; [done|]. split; [done|]. split; [done|]. split; [done|].
  eapply (switched_enforces cfg sh rules l t64 acts b' s3); try done.
  - intros j f p Hj. by apply (bd_stages rules _ _ _ _ _ _ Hb).
  - intros p r Hr'. rewrite Hl. by apply (wanted_fields_accept rules).
Qed.

Lemma switch_ready sh b' s3 ps :
  good cfg sh -> placed (starting_index sh) sh ps b' s3 -> (0 < length ps <= 9)%nat ->
  switch_chain cfg b' s3 = (Ok tt, switched cfg b' (starting_index sh) s3).
Proof using Type.
  intros Hg Hpl Hps. pose proof (bd_state _ _ _ _ _ Hpl) as Est. pose proof (starting_range cfg sh Hg) as Hrange.
  assert (forall k, k < starting_index sh -> slots s3 !! k = slots sh !! k) as Hlow.
  { intros k Hk. rewrite Est. cbn [slots set_slots]. rewrite install_lookup. by rewrite decide_False by lia. }
  apply switch_chain_run.
  - rewrite Est. apply (gd_programs _ sh Hg).
  - rewrite Est. apply (gd_fixed _ sh Hg). set_solver.
  - rewrite Est. apply (gd_fixed _ sh Hg). set_solver.
  - rewrite Hlow by (unfold Modules.PARSER; lia). apply (gd_parser _ sh Hg).
  - rewrite Hlow by (unfold Modules.CHAINFORWARDER; lia). apply (gd_forwarder _ sh Hg).
  - rewrite (bd_first _ _ _ _ _ Hpl). destruct ps; [simpl in Hps; lia|done].
  - rewrite Est. destruct (gd_chain _ sh Hg) as (n & Hn & Hi & _). cbn [programs set_slots]. rewrite Hi. apply NoDup_seqZ.
  - intros j Hj. rewrite Est in Hj. cbn [programs set_slots] in Hj. apply (old_indices cfg sh Hg) in Hj as [Hj7 Hjs].
    split; [lia|]. rewrite Est. cbn [slots set_slots]. rewrite install_lookup.
    case_decide as Hd; [apply lookup_lt_is_Some_2; lia|done].
Qed.

(** The Horus program that goes with the rules. *)
Definition horus_installed (rules : list ChainRule) (s : side) : Prop :=
  exists m, horus_of key0 s rules = Ok m /\ horus_runtime_enabled s = horus_enabled cfg && nonempty m /\
    (horus_runtime_enabled s = true -> exists t pk by_,
       h_updates (h_new HorusConst.MAX_RULE_SIZE_FOR_HORUS) (horus_entries m) = Ok t /\
       slots s !! horus_index s =
         Some (Horus (horus_fields m) (negb (bool_decide (conntrackMode cfg = DISABLED))) t pk by_)).

(** One update: the new rules are enforced, and nothing else has changed. *)
Lemma updateChain_run s rules :
  good cfg s -> rules_ s = Some <$> rules -> compilable rules ->
  exists s', updateChain cfg key0 s = (Ok tt, s') /\ enforcing cfg rules s' /\ horus_installed rules s' /\
    same_chain s s'.
Proof using Type.
  intros Hg Hrules Hco. unfold updateChain. unfold bind at 1, get. rewrite bool_decide_eq_false_2 by apply (gd_name _ s Hg).
  destruct (horus_phase_run cfg key0 s rules Hg Hrules (wfr_rule rules (co_wf rules Hco)))
    as (sh & m & Hh & Hgh & Hsame & Hch & Hm & Hon & Hslot).
  rewrite (bind_run _ _ _ _ _ Hh). unfold bind at 1, get.
  assert (rules_ sh = Some <$> rules) as Hrh by (destruct Hsame as (_ & _ & -> & _); done).
  rewrite Hrh, deref_all_fmap. unfold bind at 1, lift.
  destruct (build_run sh rules Hgh Hrh Hco) as (t & l & b & s2 & b' & s3 & t64 & acts & Et & Ht & Hr & Hrt & Hpl & Hen).
  rewrite Et. unfold bind at 1. apply bind_Ok in Hr as (b1 & s11 & Hr1 & Hr2).
  rewrite (bind_run _ _ _ _ _ Hr1), (bind_run _ _ _ _ _ Hr2), (bind_run _ _ _ _ _ Hrt).
  pose proof (bd_state _ _ _ _ _ Hpl) as Est.
  set (s' := switched cfg b' (starting_index sh) s3) in *.
  assert (0 < length (l.*2 ++ [BitScan (nr_of rules) (starting_index sh + Z.of_nat (length l) + 1) t64;
       ActionLookup (nr_of rules) acts (counters cfg 8000) (counters cfg 8000)]) <= 9)%nat as Hps.
  { rewrite length_app, length_fmap. simpl. lia. }
  exists s'. split; [by eapply switch_ready|]. split; [done|].
  assert (same_chain sh s') as Hsame' by (unfold s', switched; by rewrite Est).
  split; [|by eapply same_chain_trans].
  exists m. assert (horus_of key0 s' rules = horus_of key0 s rules) as ->.
  { unfold horus_of, default_rule, getNrRules. destruct (same_chain_trans _ _ _ Hsame Hsame') as (_ & -> & -> & _). done. }
  assert (horus_runtime_enabled s' = horus_runtime_enabled sh) as Er by (unfold s', switched; by rewrite Est).
  split; [done|]. rewrite Er. split; [done|]. intros E. destruct (Hslot E) as (ht & Hu & Hs). exists ht, (horus_zeros cfg), (horus_zeros cfg). split; [done|].
  assert (horus_index s' = horus_index sh) as -> by (unfold s', switched; by rewrite Est).
  unfold s'. rewrite (switched_low cfg sh Hgh s3 _ b' Hpl Hps); [done|..];
    unfold horus_index; destruct (horus_swap sh); vm_compute; intuition congruence.
Qed.
End run.
