(* ===== verification/FwFirstMatch.v ===== *)
(** pcn-firewall, a packet against an installed chain: from the parser to the
    verdict, the programs that [updateChain] leaves behind take the action of
    the first rule that accepts the packet, and go on enforcing the same rules. *)
From Stdlib Require Import ZArith Lia.
From stdpp Require Import base gmap sets list strings numbers.
From S2P Require Import Prelude.
From S2P Require Import Vec.
From S2P Require Import Bpf.
From S2P Require Import NetUtils.
From S2P Require Import FwRule.
From S2P Require Import FwFlags.
From S2P Require Import FwRuleFacts.
From S2P Require Import FwBits.
From S2P Require Import FwMaps.
From S2P Require Import FwMapsFacts.
From S2P Require Import FwIpFacts.
From S2P Require Import Frame.
From S2P Require Import FwConntrack.
From S2P Require Import FwDatapath.
From S2P Require Import FwPipeline.
From S2P Require Import FwModules.
From S2P Require Import FwChain.
From S2P Require Import FwUpdate.
From S2P Require Import FwStages.
From S2P Require Import FwInstall.
From S2P Require Import FwUpdateChain.
From S2P Require Import FwHorus.
From S2P Require Import FwRun.
#[local] Open Scope Z_scope.

(** * Packets in range *)
Lemma list_find_ext_in {A} (P Q : A -> bool) (l : list A) :
  (forall x, x ∈ l -> P x = Q x) -> list_find (fun x => P x = true) l = list_find (fun x => Q x = true) l.
Proof.
  induction l as [|x l IH]; intros Hp; [done|]. simpl. rewrite IH by (intros z Hz; apply Hp; by right).
  assert (P x = Q x) as E by (apply Hp; by left). repeat case_decide; congruence.
Qed.

Section packets.
Context `{Inet} `{Tables ct_k ct_v}.

Record wf_dp (d : dp) : Prop := {
  wd_frame : Forall is_byte (d_frame d);
  wd_pkt : wf_pkt (d_pkt d);
  wd_bits : length (d_bits d) = 131%nat;
}.

Lemma parse_wf d :
  wf_dp d -> match parse d with
             | inl (_, d') => wf_dp d'
             | inr d' => wf_dp d' /\ p_forwardingDecision (d_pkt d') = FORWARDING_NOT_SET
             end.
Proof using Type.
  intros [Hf Hp Hb]. pose proof (fun o => rd8_range _ o Hf) as H8. pose proof (fun o => rd16_range _ o Hf) as H16.
  pose proof (fun o => rd32_range _ o Hf) as H32.
  assert (wf_pkt (parse_ip (d_frame d) (d_pkt d))) as Hip by (destruct Hp; by split; simpl).
  unfold parse. cbn [set_pkt d_pkt d_frame d_bits d_connections].
  repeat case_match; simplify_eq; try (split; [split; simpl; try done|done]); try (split; simpl; done);
    destruct Hip; split; simpl in *; done.
Qed.

Lemma label_tcp_status conn pkt : label_tcp conn pkt ∈ statesVector.
Proof using Type.
  assert (forall b : bool, (if b then CT.NEW else CT.INVALID) ∈ statesVector) as Hb by (intros []; set_solver).
  unfold label_tcp, label_tcp_forward, label_tcp_reverse, label_tcp_miss.
  repeat case_match; try apply Hb; set_solver.
Qed.
Lemma label_udp_status conn pkt : label_udp conn pkt ∈ statesVector.
Proof using Type. unfold label_udp. repeat case_match; set_solver. Qed.

Lemma ct_label_wf conn frame pkt st frame' :
  Forall is_byte frame -> ct_label conn frame pkt = Some (st, frame') -> st ∈ statesVector /\ Forall is_byte frame'.
Proof using Type.
  intros Hf. unfold ct_label. repeat case_match; try (intros [= <- <-]; split; [|done]);
    try apply label_tcp_status; try apply label_udp_status; try set_solver.
  assert (forall t, label_icmp_error conn frame t = Some (st, frame') -> st ∈ statesVector /\ Forall is_byte frame') as Herr.
  { intros t. unfold label_icmp_error. repeat case_match; simplify_eq; intros; simplify_eq;
      (split; [set_solver|]); try done; by apply wr16_bytes. }
  unfold label_icmp. repeat case_match; simplify_eq; first [apply Herr|done|intros; simplify_eq; split; [set_solver|done]].
Qed.

(** * The verdict of the firewall *)
Context (cfg : config).

(** From the label on.  Established connections are let through when the mode
    is automatic. *)
Definition label_verdict (mode : Z) (rules : list ChainRule) (dflt : ActionEnum) (c : ctx) (d : dp) : verdict * dp :=
  match ct_label (d_connections d) (d_frame d) (d_pkt d) with
  | None => (RX_DROP, d)
  | Some (status, frame) =>
      let d := set_frame frame (set_pkt (with_status status (d_pkt d)) d) in
      if bool_decide (conntrackMode cfg = AUTOMATIC) && (status =? CT.ESTABLISHED) then deliver mode c d
      else finish mode c (chain_action rules dflt (d_pkt d)) d
  end.

Definition firewall_verdict (mode : Z) (rules : list ChainRule) (dflt : ActionEnum) (c : ctx) (d : dp) : verdict * dp :=
  match parse d with
  | inl r => r
  | inr d =>
      if bool_decide (conntrackMode cfg = DISABLED) then finish mode c (chain_action rules dflt (d_pkt d)) d
      else label_verdict mode rules dflt c d
  end.

(** The rule that decides, and [None] when no rule is asked: the packet is not
    for the chain, or belongs to a connection that is let through. *)
Definition first_match (rules : list ChainRule) (d : dp) : option (nat * ChainRule) :=
  list_find (fun r => rule_accepts (d_pkt d) r = true) rules.
Definition hit_after_label (rules : list ChainRule) (d : dp) : option (option (nat * ChainRule)) :=
  match ct_label (d_connections d) (d_frame d) (d_pkt d) with
  | None => None
  | Some (status, frame) =>
      let d := set_frame frame (set_pkt (with_status status (d_pkt d)) d) in
      if bool_decide (conntrackMode cfg = AUTOMATIC) && (status =? CT.ESTABLISHED) then None
      else Some (first_match rules d)
  end.
Definition firewall_hit (rules : list ChainRule) (d : dp) : option (option (nat * ChainRule)) :=
  match parse d with
  | inl _ => None
  | inr d => if bool_decide (conntrackMode cfg = DISABLED) then Some (first_match rules d) else hit_after_label rules d
  end.

Section enforced.
Context (rules : list ChainRule) (Hco : compilable rules).
Context (dflt : ActionEnum) (sl : gmap Z program) (y : layout) (Hen : enforces cfg rules dflt sl y).

(** The candidates that the parser leaves. *)
Definition all_candidates (d : dp) : Prop := holds rules (nr_of rules) (fun _ => true) true (d_bits d).

Definition counted_slots (c : ctx) (found : option (nat * ChainRule)) : gmap Z program :=
  counted (nr_of rules) (ly_actions y) (ly_pkts y) (ly_bytes y) dflt (ly_default_pkts y) (ly_default_bytes y) sl c
    (ly_action_index y) found.

Lemma outcome_chain_action d : outcome dflt (first_match rules d) = chain_action rules dflt (d_pkt d).
Proof using Type. unfold outcome, first_match, chain_action. by destruct (list_find _ _) as [[]|]. Qed.

(** From the forwarder on. *)
Lemma run_from_forwarder budget c d :
  wf_pkt (d_pkt d) -> all_candidates d -> (10 <= budget)%nat ->
  let '(v, sl', d') := run budget c Modules.CHAINFORWARDER (ChainForwarder (nr_of rules) (ly_i0 y)) sl d in
  let r := finish (ly_mode y) c (chain_action rules dflt (d_pkt d)) d in
  v = r.1 /\ sl' = counted_slots c (first_match rules d) /\ same_packet r.2 d'.
Proof using Hco Hen.
  intros Hp Hh Hb. pose proof (en_chain _ _ _ _ _ Hen) as Hcs. pose proof (en_short _ _ _ _ _ Hen) as Hs.
  rewrite <- outcome_chain_action. destruct budget as [|budget]; [lia|].
  assert (forall r, ends (nr_of rules) (ly_actions y) (ly_pkts y) (ly_bytes y) dflt (ly_default_pkts y)
    (ly_default_bytes y) (ly_mode y) sl c (ly_action_index y) (first_match rules d) d r ->
    let '(v, sl', d') := r in let r := finish (ly_mode y) c (outcome dflt (first_match rules d)) d in
    v = r.1 /\ sl' = counted_slots c (first_match rules d) /\ same_packet r.2 d') as Hends.
  { intros [[v sl'] d'] [[= -> ->] Hd]. done. }
  destruct (decide (rules = [])) as [Erules|Hne].
  - assert (nr_of rules = 0) as Enr by (by rewrite Erules).
    assert (first_match rules d = None) as Efm by (unfold first_match; by rewrite Erules).
    rewrite Efm in *. rewrite (run_call_same _ _ _ _ _ _ Modules.DEFAULTACTION d (Return RX_DROP (ChainForwarder (nr_of rules) (ly_i0 y)) d)
      (DefaultAction dflt (ly_default_pkts y) (ly_default_bytes y))).
    + destruct budget as [|budget]; [lia|]. apply Hends. apply run_default; apply Hcs.
    + apply (en_forwarder _ _ _ _ _ Hen).
    + cbn [handle_rx]. unfold chain_forwarder_rx. by rewrite Enr.
    + apply Hcs.
  - pose proof (nr_pos rules (co_wf rules Hco) (nr_of rules) eq_refl Hne) as Hpos.
    assert (exists p0, sl !! ly_i0 y = Some p0) as [p0 Hp0].
    { destruct (ly_stages y) as [|[f p] l] eqn:El.
      - pose proof (cs_bitscan _ _ _ _ _ _ _ _ _ _ _ _ _ Hcs) as Hbs. simpl in Hbs. rewrite Z.add_0_r in Hbs. eauto.
      - destruct (cs_stages _ _ _ _ _ _ _ _ _ _ _ _ _ Hcs 0%nat f p eq_refl) as [Hbs _]. rewrite Z.add_0_r in Hbs. eauto. }
    rewrite (run_call_same _ _ _ _ _ _ (ly_i0 y) d (default_action (ChainForwarder (nr_of rules) (ly_i0 y)) d) p0).
    + apply Hends.
      pose proof (run_chain rules (co_wf rules Hco) Hne (nr_of rules) eq_refl (ly_actions y) (ly_pkts y) (ly_bytes y)
        dflt (ly_default_pkts y) (ly_default_bytes y) (ly_mode y) (ly_index64 y) sl c (ly_stages y) (ly_i0 y)
        (fun _ => true) true d budget p0 Hcs Hp Hh ltac:(lia) Hp0) as Hr.
      rewrite (list_find_ext_in _ (fun r => rule_accepts (d_pkt d) r)) in Hr; [exact Hr|].
      intros r Hin. simpl. by apply (en_fields _ _ _ _ _ Hen).
    + apply (en_forwarder _ _ _ _ _ Hen).
    + cbn [handle_rx]. unfold chain_forwarder_rx. by rewrite Hpos.
    + done.
Qed.

(** What a run leaves in the program array: the same programs, with one
    counter more. *)
Definition counted_as (c : ctx) (hit : option (option (nat * ChainRule))) : gmap Z program :=
  match hit with Some found => counted_slots c found | None => sl end.

Definition agrees (c : ctx) (hit : option (option (nat * ChainRule))) (r : verdict * dp)
    (o : verdict * gmap Z program * dp) : Prop :=
  o.1.1 = r.1 /\ o.1.2 = counted_as c hit /\ same_packet r.2 o.2.

Lemma agrees_from_forwarder budget c d s :
  same_packet d s -> wf_pkt (d_pkt d) -> all_candidates s -> (10 <= budget)%nat ->
  agrees c (Some (first_match rules d)) (finish (ly_mode y) c (chain_action rules dflt (d_pkt d)) d)
    (run budget c Modules.CHAINFORWARDER (ChainForwarder (nr_of rules) (ly_i0 y)) sl s).
Proof using Hco Hen.
  intros Hs Hp Hh Hb. pose proof Hs as (_ & Ep & _).
  pose proof (run_from_forwarder budget c s ltac:(by rewrite Ep) Hh Hb) as Hr.
  destruct (run _ _ _ _ _ _) as [[v sl'] d']. destruct Hr as (-> & -> & (E1 & E2 & E3)). rewrite Ep in *.
  destruct (finish_same (ly_mode y) c (chain_action rules dflt (d_pkt d)) d s Hs) as [Ef (F1 & F2 & F3)].
  split; [done|]. split; [simpl; unfold first_match; by rewrite Ep|]. split; [simpl; congruence|]. split; simpl; congruence.
Qed.

Lemma init_candidates d : length (d_bits d) = 131%nat ->
  all_candidates (set_bits (init_bits (nr_of rules) (d_bits d)) d).
Proof using Hco. intros Hl. apply holds_init; [done|apply (wfr_len rules (co_wf rules Hco))|done]. Qed.

(** From the label on. *)
Lemma agrees_from_label budget c d s :
  same_packet d s -> wf_dp d -> p_forwardingDecision (d_pkt d) = FORWARDING_NOT_SET -> all_candidates s ->
  (11 <= budget)%nat -> conntrackMode cfg ≠ DISABLED ->
  agrees c (hit_after_label rules d)
    (label_verdict (ly_mode y) rules dflt c d)
    (run budget c Modules.CONNTRACKLABEL (conntrack_label_code cfg) sl s).
Proof using Hco Hen.
  intros Hs Hwf Hfd Hh Hb Hm. pose proof Hs as (Ef & Ep & Ec). unfold hit_after_label, label_verdict.
  pose proof (en_label _ _ _ _ _ Hen Hm) as Hl. pose proof (en_chain _ _ _ _ _ Hen) as Hcs.
  destruct budget as [|budget]; [lia|].
  assert (handle_rx (conntrack_label_code cfg) c s =
    conntrack_label_rx (conntrackMode_uint8 (conntrackMode cfg)) (conntrack_label_code cfg) s) as Eh by done.
  unfold conntrack_label_rx in Eh. rewrite Ef, Ep, Ec in Eh.
  destruct (ct_label (d_connections d) (d_frame d) (d_pkt d)) as [[status frame]|] eqn:El.
  2:{ rewrite (run_return _ _ _ _ _ _ _ _ _ Eh). rewrite insert_id by done. split; [done|]. split; [done|done]. }
  destruct (ct_label_wf _ _ _ _ _ (wd_frame _ Hwf) El) as [Hst Hfr].
  set (d1 := set_frame frame (set_pkt (with_status status (d_pkt d)) d)).
  set (s1 := set_frame frame (set_pkt (with_status status (d_pkt s)) s)).
  cbv zeta in Eh |- *. fold d1.
  assert (same_packet d1 s1) as Hs1 by (unfold d1, s1; repeat split; simpl; congruence).
  assert (wf_pkt (d_pkt d1)) as Hp1 by (destruct (wd_pkt _ Hwf); by split).
  assert (all_candidates s1) as Hh1 by done.
  assert (p_forwardingDecision (d_pkt s1) = FORWARDING_NOT_SET) as Hfd1 by (unfold s1; simpl; by rewrite Ep).
  replace (set_frame frame (set_pkt (with_status status (d_pkt d)) s)) with s1 in Eh by (unfold s1; by rewrite Ep).
  rewrite Hfd1 in Eh. change (FORWARDING_NOT_SET =? FORWARDING_PASS_LABELING) with false in Eh.
  rewrite orb_false_r in Eh.
  assert (forall out, out = call Modules.CHAINFORWARDER (conntrack_label_code cfg) s1 ->
    handle_rx (conntrack_label_code cfg) c s = out ->
    agrees c (Some (first_match rules d1)) (finish (ly_mode y) c (chain_action rules dflt (d_pkt d1)) d1)
      (run (S budget) c Modules.CONNTRACKLABEL (conntrack_label_code cfg) sl s)) as Hfwd.
  { intros out -> Eo. rewrite (run_call_same _ _ _ _ _ _ _ _ _ _ Hl Eo (en_forwarder _ _ _ _ _ Hen)).
    apply agrees_from_forwarder; [done..|lia]. }
  destruct (conntrackMode cfg) eqn:Em; [done|by eapply Hfwd|].
  rewrite bool_decide_eq_true_2 by done. cbn [conntrackMode_uint8 andb] in *.
  destruct (status =? CT.ESTABLISHED); [|by eapply Hfwd].
  rewrite (run_call_same _ _ _ _ _ _ _ _ _ _ Hl Eh (cs_update _ _ _ _ _ _ _ _ _ _ _ _ _ Hcs)).
  rewrite run_deliver by apply Hcs. destruct (deliver_same (ly_mode y) c d1 s1 Hs1) as [E1 E2].
  split; [done|]. split; [done|done].
Qed.

(** From the parser on. *)
Lemma receive_agrees c d :
  ly_horus y = None -> wf_dp d ->
  exists o, receive 32 c sl d = Some o /\ agrees c (firewall_hit rules d) (firewall_verdict (ly_mode y) rules dflt c d) o.
Proof using Hco Hen.
  intros Hno Hwf. unfold receive, firewall_verdict, firewall_hit. pose proof (en_parser _ _ _ _ _ Hen) as Hpa. rewrite Hno in Hpa.
  rewrite Hpa. eexists. split; [done|]. pose proof (parse_wf d Hwf) as Hpw.
  set (self := Parser _ _ _) in *.
  assert (handle_rx self c d = parser_rx (nr_of rules) None (negb (bool_decide (conntrackMode cfg = DISABLED))) self d)
    as Eh by done.
  unfold parser_rx in Eh. destruct (parse d) as [[v d']|d'] eqn:Epar.
  - rewrite (run_return _ _ _ _ _ _ _ _ _ Eh), insert_id by done. split; [done|]. split; [done|done].
  - destruct Hpw as [Hwf' Hfd]. set (s := set_bits _ d') in Eh.
    assert (same_packet d' s) as Hsame by done.
    assert (all_candidates s) as Hh by (apply init_candidates, Hwf').
    destruct (bool_decide (conntrackMode cfg = DISABLED)) eqn:Em; cbn [negb] in Eh.
    + rewrite (run_call_same _ _ _ _ _ _ _ _ _ _ Hpa Eh (en_forwarder _ _ _ _ _ Hen)).
      apply agrees_from_forwarder; [done|apply Hwf'|done|lia].
    + apply bool_decide_eq_false in Em.
      rewrite (run_call_same _ _ _ _ _ _ _ _ _ _ Hpa Eh (en_label _ _ _ _ _ Hen Em)).
      apply agrees_from_label; try done. lia.
Qed.
End enforced.
End packets.
