(* ===== verification/FwCounters.v ===== *)
(** pcn-firewall, the counters: reading, resetting and counting packets change
    only counter tables, and that leaves the rules enforced.  [getStats] moves
    the datapath's counts into the statistics the chain keeps. *)
From Stdlib Require Import ZArith Lia.
From stdpp Require Import base gmap sets list strings numbers.
From S2P Require Import Prelude.
From S2P Require Import Vec.
From S2P Require Import Bpf.
From S2P Require Import NetUtils.
From S2P Require Import FwRule.
From S2P Require Import FwFlags.
From S2P Require Import FwRuleFacts.
From S2P Require Import FwBits.
From S2P Require Import FwMaps.
From S2P Require Import FwMapsFacts.
From S2P Require Import FwIpFacts.
From S2P Require Import Frame.
From S2P Require Import FwConntrack.
From S2P Require Import FwDatapath.
From S2P Require Import FwPipeline.
From S2P Require Import FwModules.
From S2P Require Import FwChain.
From S2P Require Import FwUpdate.
From S2P Require Import FwStages.
From S2P Require Import FwInstall.
From S2P Require Import FwUpdateChain.
From S2P Require Import FwHorus.
From S2P Require Import FwRun.
From S2P Require Import FwFirstMatch.
#[local] Open Scope Z_scope.
#[local] Open Scope cpp_scope.

Section recount.
Context `{Inet} `{Tables ct_k ct_v}.
Context (cfg : config).

(** The same program up to the contents of its counters. *)
Definition recounted (p q : program) : Prop :=
  match counter_tables p, counter_tables q with
  | Some (pk, by_), Some (pk', by') =>
      q = with_counters p pk' by' /\ a_size pk' = a_size pk /\ a_size by' = a_size by_
  | _, _ => q = p
  end.

Lemma recounted_refl p : recounted p p.
Proof using Type. unfold recounted. destruct (counter_tables p) as [[pk by_]|] eqn:E; [|done]. by destruct p; simpl in *; simplify_eq. Qed.
Lemma recounted_trans p q r : recounted p q -> recounted q r -> recounted p r.
Proof using Type.
  unfold recounted. intros Hpq Hqr. destruct p, q; simpl in *; try (subst; done);
    destruct r; simpl in *; try done; destruct Hpq as (E1 & ? & ?), Hqr as (E2 & ? & ?); simplify_eq; (split; [done|]); split; congruence.
Qed.
Lemma recounted_by p pk by_ pk' by' :
  counter_tables p = Some (pk, by_) -> a_size pk' = a_size pk -> a_size by' = a_size by_ ->
  recounted p (with_counters p pk' by').
Proof using Type. intros E Hp Hb. unfold recounted. rewrite E. by destruct p; simpl in *; simplify_eq. Qed.

Ltac not_recounted H :=
  unfold recounted in H; simpl in H;
  try (exfalso; first [discriminate H | destruct H as [H _]; discriminate H]).

(** Where the programs with counters are. *)
Definition counter_indices (y : layout) : list Z :=
  [Modules.DEFAULTACTION; Modules.HORUS_INGRESS; Modules.HORUS_INGRESS_SWAP; ly_action_index y].

Definition recount (y : layout) (sl sl' : gmap Z program) : Prop :=
  forall k, match sl !! k, sl' !! k with
            | Some p, Some q => recounted p q /\ (k ∉ counter_indices y -> q = p)
            | None, None => True
            | _, _ => False
            end.

Lemma recount_refl y sl : recount y sl sl.
Proof using Type. intros k. destruct (sl !! k); [|done]. split; [apply recounted_refl|done]. Qed.
Lemma recount_trans y sl sl' sl'' : recount y sl sl' -> recount y sl' sl'' -> recount y sl sl''.
Proof using Type.
  intros H1 H2 k. specialize (H1 k). specialize (H2 k).
  destruct (sl !! k), (sl' !! k), (sl'' !! k); try done. destruct H1 as [R1 E1], H2 as [R2 E2].
  split; [by eapply recounted_trans|]. intros Hk. rewrite E2, E1; done.
Qed.

Lemma recount_insert y sl k p q :
  k ∈ counter_indices y -> sl !! k = Some p -> recounted p q -> recount y sl (<[k := q]> sl).
Proof using Type.
  intros Hk Hp Hr j. destruct (decide (j = k)) as [->|Hn].
  - rewrite Hp, lookup_insert_eq. split; [done|]. done.
  - rewrite lookup_insert_ne by done. destruct (sl !! j); [|done]. split; [apply recounted_refl|done].
Qed.

Lemma recount_same y sl sl' k : recount y sl sl' -> k ∉ counter_indices y -> sl' !! k = sl !! k.
Proof using Type. intros Hr Hk. specialize (Hr k). destruct (sl !! k), (sl' !! k); try done. f_equal. by apply Hr. Qed.
Lemma recount_Some y sl sl' k p : recount y sl sl' -> sl !! k = Some p -> exists q, sl' !! k = Some q /\ recounted p q.
Proof using Type. intros Hr Hp. specialize (Hr k). rewrite Hp in Hr. destruct (sl' !! k); [|done]. naive_solver. Qed.
Lemma recount_is_Some y sl sl' k : recount y sl sl' -> is_Some (sl' !! k) <-> is_Some (sl !! k).
Proof using Type. intros Hr. specialize (Hr k). destruct (sl !! k), (sl' !! k); try done. Qed.

Lemma not_counter_index y k :
  7 <= ly_i0 y -> (0 <= k <= 4 /\ k ≠ 3) \/ ly_i0 y <= k < ly_action_index y -> k ∉ counter_indices y.
Proof using Type.
  intros Hf Hk. unfold counter_indices, Modules.DEFAULTACTION, Modules.HORUS_INGRESS, Modules.HORUS_INGRESS_SWAP, ly_action_index in *.
  rewrite !elem_of_cons, elem_of_nil. lia.
Qed.

Lemma enforces_recount rules dflt sl sl' y :
  enforces cfg rules dflt sl y -> recount y sl sl' ->
  exists y', enforces cfg rules dflt sl' y' /\ ly_horus y' = ly_horus y /\ ly_action_index y' = ly_action_index y /\ ly_mode y' = ly_mode y.
Proof using Type.
  intros Hen Hr. pose proof (en_chain _ _ _ _ _ Hen) as Hcs. pose proof (en_far _ _ _ _ _ Hen) as Hfar.
  pose proof (fun k Hk => recount_same y sl sl' k Hr (not_counter_index y k Hfar Hk)) as Hsame.
  destruct (recount_Some _ _ _ _ _ Hr (cs_action _ _ _ _ _ _ _ _ _ _ _ _ _ Hcs)) as (qa & Hqa & Hra).
  destruct (recount_Some _ _ _ _ _ Hr (cs_default _ _ _ _ _ _ _ _ _ _ _ _ _ Hcs)) as (qd & Hqd & Hrd).
  destruct qa as [| | | | | | | | | | | |nr' acts' pk by_]; not_recounted Hra. destruct Hra as ([= -> ->] & Hpk & Hby).
  destruct qd as [| | |dflt' dpk dby| | | | | | | | |]; not_recounted Hrd. destruct Hrd as ([= ->] & Hdpk & Hdby).
  destruct (en_sizes _ _ _ _ _ Hen) as (S1 & S2 & S3 & S4).
  exists {| ly_i0 := ly_i0 y; ly_stages := ly_stages y; ly_actions := ly_actions y; ly_index64 := ly_index64 y;
            ly_horus := ly_horus y; ly_mode := ly_mode y; ly_pkts := pk; ly_bytes := by_; ly_default_pkts := dpk;
            ly_default_bytes := dby |}.
  split; [|done]. split; cbn [ly_i0 ly_stages ly_actions ly_index64 ly_horus ly_mode ly_pkts ly_bytes ly_default_pkts ly_default_bytes].
  - rewrite Hsame by (unfold Modules.PARSER; lia). apply Hen.
  - intros Hm. rewrite Hsame by (unfold Modules.CONNTRACKLABEL; lia). by apply Hen.
  - apply Hen.
  - rewrite Hsame by (unfold Modules.CHAINFORWARDER; lia). apply Hen.
  - split.
    + intros j f p Hj. destruct (cs_stages _ _ _ _ _ _ _ _ _ _ _ _ _ Hcs j f p Hj) as [Hs Hok]. split; [|done].
      apply lookup_lt_Some in Hj as Hjl. rewrite Hsame; [done|]. unfold ly_action_index. lia.
    + rewrite Hsame; [apply Hcs|]. unfold ly_action_index. lia.
    + done.
    + done.
    + rewrite Hsame by (unfold Modules.CONNTRACKTABLEUPDATE; lia). apply Hcs.
    + apply Hcs.
    + apply Hcs.
    + apply Hcs.
  - apply Hen.
  - done.
  - apply Hen.
  - simpl in *. split; [congruence|]. split; [congruence|]. split; congruence.
Qed.

Lemma good_recount s sl' y :
  good cfg s -> 7 <= ly_i0 y -> 7 <= ly_action_index y -> recount y (slots s) sl' -> good cfg (set_slots sl' s).
Proof using Type.
  intros Hg Hfar Hia Hr. pose proof (fun k Hk => recount_same y _ sl' k Hr (not_counter_index y k Hfar Hk)) as Hsame.
  split; cbn [slots set_slots name chainNumber programs defaultAction horus_runtime_enabled]; try apply Hg.
  - rewrite Hsame by (unfold Modules.PARSER; lia). apply (gd_parser _ s Hg).
  - rewrite Hsame by (unfold Modules.CONNTRACKLABEL; lia). apply (gd_label _ s Hg).
  - rewrite Hsame by (unfold Modules.CHAINFORWARDER; lia). apply (gd_forwarder _ s Hg).
  - destruct (gd_default _ s Hg) as (pk & by_ & Hd & H1 & H2).
    destruct (recount_Some _ _ _ _ _ Hr Hd) as (q & Hq & Hrq). destruct q; not_recounted Hrq.
    destruct Hrq as ([= ->] & ? & ?). eexists _, _. split; [done|]. split; congruence.
  - rewrite Hsame by (unfold Modules.CONNTRACKTABLEUPDATE; lia). apply (gd_update _ s Hg).
  - change (horus_other (set_slots sl' s)) with (horus_other s). destruct (gd_horus_other _ s Hg) as [Hp Hn]. split; [done|].
    apply eq_None_not_Some. rewrite (recount_is_Some y _ _ _ Hr), Hn. by intros [].
  - change (horus_index (set_slots sl' s)) with (horus_index s). pose proof (gd_horus _ s Hg) as Hh.
    destruct (horus_runtime_enabled s).
    + destruct Hh as [Hp (f & ct & t & pk & by_ & Hs & H1 & H2)]. split; [done|].
      destruct (recount_Some _ _ _ _ _ Hr Hs) as (q & Hq & Hrq). destruct q; not_recounted Hrq.
      destruct Hrq as ([= -> -> ->] & ? & ?). eexists _, _, _, _, _. split; [done|]. split; congruence.
    + destruct Hh as [Hp Hn]. split; [done|]. apply eq_None_not_Some.
      rewrite (recount_is_Some y _ _ _ Hr), Hn. by intros [].
  - destruct (gd_chain _ s Hg) as (n & Hn & Hi & Hc). exists n. split; [done|]. split; [done|].
    intros i Hi7. rewrite (recount_is_Some y _ _ _ Hr). by apply Hc.
Qed.

Lemma enforcing_recount rules s y sl' :
  good cfg s -> enforces cfg rules (defaultAction s) (slots s) y ->
  ly_horus y = (if horus_runtime_enabled s then Some (horus_index s) else None) ->
  programs s !! 15%nat = Some (Some (new_module KActionLookup (ly_action_index y))) ->
  recount y (slots s) sl' -> enforcing cfg rules (set_slots sl' s).
Proof using Type.
  intros Hg Hen Hh Hp Hr. pose proof (en_far _ _ _ _ _ Hen) as Hfar.
  split; [apply (good_recount s sl' y); try done; unfold ly_action_index; lia|].
  destruct (enforces_recount _ _ _ _ _ Hen Hr) as (y' & Hen' & E1 & E2 & E3). exists y'.
  split; [done|]. split; [by rewrite E1|]. by rewrite E2.
Qed.

(** A packet's counters. *)
Lemma counted_recount rules dflt sl y c hit :
  enforces cfg rules dflt sl y -> recount y sl (counted_as rules dflt sl y c hit).
Proof using Type.
  intros Hen. pose proof (en_chain _ _ _ _ _ Hen) as Hcs. destruct hit as [found|]; [|apply recount_refl].
  unfold counted_as, counted_slots, counted. destruct found as [[i r]|].
  - eapply recount_insert; [unfold counter_indices; set_solver|apply (cs_action _ _ _ _ _ _ _ _ _ _ _ _ _ Hcs)|].
    simpl. split; [done|]. by rewrite !pc_add_size.
  - eapply recount_insert; [unfold counter_indices; set_solver|apply (cs_default _ _ _ _ _ _ _ _ _ _ _ _ _ Hcs)|].
    simpl. split; [done|]. by rewrite !pc_add_size.
Qed.

(** * Reading and resetting one rule's counters *)
(** What the datapath has counted for a rule in one program. *)
Definition count_at (which : rowsT * rowsT -> rowsT) (sl : gmap Z program) (idx i : Z) : Z :=
  match (sl !! idx) ≫= counter_tables with
  | Some t => match pc_sum (which t) i with Ok v => v | _ => 0 end
  | None => 0
  end.

Definition has_counters (sl : gmap Z program) (idx n : Z) : Prop :=
  exists p pk by_, sl !! idx = Some p /\ counter_tables p = Some (pk, by_) /\ a_size pk = n /\ a_size by_ = n.

Lemma get_count_run which m i s n :
  (which = fst \/ which = snd) -> has_counters (slots s) (m_index m) n -> 0 <= i < n ->
  get_count which m i s = (Ok (count_at which (slots s) (m_index m) i), s).
Proof using Type.
  intros Hw (p & pk & by_ & Hp & Hc & Hpk & Hby) Hi. unfold get_count, count_at, bind, get. rewrite Hp. cbn [mbind option_bind].
  rewrite Hc. destruct (pc_sum_ok (which (pk, by_)) i) as [v ->]; [destruct Hw as [->| ->]; simpl; lia|done].
Qed.

Lemma flush_run m i s n :
  has_counters (slots s) (m_index m) n -> 0 <= i < n ->
  exists p q, slots s !! m_index m = Some p /\ recounted p q /\
    flushCounters m i s = (Ok tt, set_slots (<[m_index m := q]> (slots s)) s) /\
    (forall which, which = fst \/ which = snd -> forall j,
       count_at which (<[m_index m := q]> (slots s)) (m_index m) j =
       if decide (j = i) then 0 else count_at which (slots s) (m_index m) j).
Proof using Type.
  intros (p & pk & by_ & Hp & Hc & Hpk & Hby) Hi. rewrite <- Hpk in Hi.
  destruct (pc_reset_ok pk i Hi) as (pk' & Ep & Sp & Zp & Op). rewrite Hpk, <- Hby in Hi.
  destruct (pc_reset_ok by_ i Hi) as (by' & Eb & Sb & Zb & Ob).
  exists p, (with_counters p pk' by'). split; [done|]. split; [by apply (recounted_by _ pk by_)|]. split.
  - unfold flushCounters, bind, get. rewrite Hp, Hc, Ep. unfold modify. by rewrite Eb.
  - assert (counter_tables (with_counters p pk' by') = Some (pk', by')) as Hc' by (by destruct p; simpl in Hc; simplify_eq).
    intros which Hw j. unfold count_at. rewrite lookup_insert_eq, Hp. cbn [mbind option_bind]. rewrite Hc, Hc'.
    destruct Hw as [->| ->]; cbn [fst snd]; case_decide as Hj; subst; rewrite ?Zp, ?Zb, ?Op, ?Ob by done; done.
Qed.

(** * The statistics of a chain *)
Record ready (rules : list ChainRule) (s : side) (y : layout) : Prop := {
  rd_good : good cfg s;
  rd_enforces : enforces cfg rules (defaultAction s) (slots s) y;
  rd_horus : ly_horus y = (if horus_runtime_enabled s then Some (horus_index s) else None);
  rd_action : programs s !! 15%nat = Some (Some (new_module KActionLookup (ly_action_index y)));
}.

Lemma enforcing_ready rules s : enforcing cfg rules s <-> exists y, ready rules s y.
Proof using Type. split; [intros [Hg (y & He & Hh & Ha)]; by exists y|intros (y & [])]. split; [done|]. by exists y. Qed.

(** A statistics step changes counters and the stored statistics only. *)
Lemma ready_recount rules s y sl' :
  ready rules s y -> recount y (slots s) sl' -> exists y', ready rules (set_slots sl' s) y' /\
    ly_action_index y' = ly_action_index y /\ 7 <= ly_i0 y' /\ (forall sl, recount y' sl = recount y sl).
Proof using Type.
  intros [Hg Hen Hh Ha] Hr. pose proof (en_far _ _ _ _ _ Hen) as Hfar.
  destruct (enforces_recount _ _ _ _ _ Hen Hr) as (y' & Hen' & E1 & E2 & E3). exists y'. split; [|split; [done|split]].
  - split; [apply (good_recount s sl' y); try done; unfold ly_action_index; lia|done|by rewrite E1|by rewrite E2].
  - apply Hen'.
  - intros sl. unfold recount, counter_indices. by rewrite E2.
Qed.
Lemma ready_counters rules s y cs : ready rules s y -> ready rules (set_counters cs s) y.
Proof using Type. intros [Hg Hen Hh Ha]. split; try done. destruct Hg; by split. Qed.

Lemma has_counters_recount y sl sl' idx n : recount y sl sl' -> has_counters sl idx n -> has_counters sl' idx n.
Proof using Type.
  intros Hr (p & pk & by_ & Hp & Hc & H1 & H2). destruct (recount_Some _ _ _ _ _ Hr Hp) as (q & Hq & Hrq).
  unfold recounted in Hrq. rewrite Hc in Hrq. destruct (counter_tables q) as [[pk' by']|] eqn:Eq.
  - destruct Hrq as (-> & ? & ?). exists (with_counters p pk' by'), pk', by'. split; [done|]. split; [done|]. split; congruence.
  - subst. congruence.
Qed.

Lemma action_counters rules s y : ready rules s y -> has_counters (slots s) (ly_action_index y) 8000.
Proof using Type.
  intros [_ Hen _ _]. pose proof (en_chain _ _ _ _ _ Hen) as Hcs. destruct (en_sizes _ _ _ _ _ Hen) as (? & ? & _).
  eexists _, _, _. split; [apply (cs_action _ _ _ _ _ _ _ _ _ _ _ _ _ Hcs)|]. done.
Qed.
Lemma horus_counters rules s y :
  ready rules s y -> horus_runtime_enabled s = true ->
  has_counters (slots s) (horus_index s) 2048 /\
  exists m, programs s !! Z.to_nat (horus_index s) = Some (Some m) /\ m_index m = horus_index s.
Proof using Type.
  intros [Hg _ _ _] E. pose proof (gd_horus _ s Hg) as Hh. rewrite E in Hh.
  destruct Hh as [(h & hop & Hp) (f & ct & t & pk & by_ & Hs & ? & ?)]. split.
  - eexists _, _, _. split; [exact Hs|]. done.
  - eexists. split; [exact Hp|done].
Qed.

Definition dp_count (which : rowsT * rowsT -> rowsT) (s : side) (ia : Z) (sl : gmap Z program) (i : Z) : Z :=
  if horus_runtime_enabled s then u64 (count_at which sl ia i + count_at which sl (horus_index s) i)
  else count_at which sl ia i.

Lemma count_at_other which sl idx k q i : k ≠ idx -> count_at which (<[k := q]> sl) idx i = count_at which sl idx i.
Proof using Type. intros Hk. unfold count_at. by rewrite lookup_insert_ne. Qed.

Lemma horus_index_range s : 5 <= horus_index s <= 6.
Proof using Type. unfold horus_index. destruct (horus_swap s); vm_compute; intuition congruence. Qed.

(** Reading a rule's counters resets them, and no other's. *)
Lemma fetchCounters_run rules s y i :
  ready rules s y -> 0 <= i < 2048 ->
  exists sl', fetchCounters i s =
      (Ok (dp_count fst s (ly_action_index y) (slots s) i, dp_count snd s (ly_action_index y) (slots s) i), set_slots sl' s) /\
    recount y (slots s) sl' /\
    forall which, which = fst \/ which = snd -> forall j,
      dp_count which s (ly_action_index y) sl' j =
      if decide (j = i) then 0 else dp_count which s (ly_action_index y) (slots s) j.
Proof using Type.
  intros Hr Hi. pose proof (action_counters _ _ _ Hr) as Hac. pose proof (en_far _ _ _ _ _ (rd_enforces _ _ _ Hr)) as Hfar.
  assert (7 <= ly_action_index y) as Hia by (unfold ly_action_index; lia). pose proof (horus_index_range s) as Hhi.
  unfold fetchCounters. unfold bind at 1, get at 1.
  rewrite bool_decide_eq_false_2 by apply (gd_name _ s (rd_good _ _ _ Hr)).
  rewrite (bind_run _ _ _ _ _ (program_at_run Modules.ACTION s _ (rd_action _ _ _ Hr))). cbv beta iota.
  set (ia := ly_action_index y) in *. set (am := new_module KActionLookup ia) in *.
  unfold getBytesCount at 1, getPktsCount at 1.
  rewrite (bind_run _ _ _ _ _ (get_count_run snd am i s 8000 ltac:(by right) Hac ltac:(lia))).
  rewrite (bind_run _ _ _ _ _ (get_count_run fst am i s 8000 ltac:(by left) Hac ltac:(lia))).
  destruct (flush_run am i s 8000 Hac ltac:(lia)) as (p & q & Hp & Hpq & Hfl & Hcount).
  rewrite (bind_run _ _ _ _ _ Hfl). change (m_index am) with ia in *.
  set (s1 := set_slots (<[ia := q]> (slots s)) s).
  assert (recount y (slots s) (slots s1)) as Hr1.
  { apply (recount_insert _ _ _ p); [unfold counter_indices; set_solver|done|done]. }
  unfold dp_count. destruct (horus_runtime_enabled s) eqn:Eh.
  - destruct (horus_counters _ _ _ Hr Eh) as (Hhc & m & Hm & Hmi).
    change (if horus_swap s then Modules.HORUS_INGRESS_SWAP else Modules.HORUS_INGRESS) with (horus_index s).
    rewrite (bind_run _ _ _ _ _ (program_at_run (horus_index s) s1 _ Hm)). unfold bind at 1, deref, lift.
    apply (has_counters_recount y _ _ _ _ Hr1) in Hhc. rewrite <- Hmi in Hhc.
    unfold getBytesCount, getPktsCount.
    rewrite (bind_run _ _ _ _ _ (get_count_run snd m i s1 2048 ltac:(by right) Hhc Hi)).
    rewrite (bind_run _ _ _ _ _ (get_count_run fst m i s1 2048 ltac:(by left) Hhc Hi)).
    destruct (flush_run m i s1 2048 Hhc Hi) as (p2 & q2 & Hp2 & Hpq2 & Hfl2 & Hcount2).
    rewrite (bind_run _ _ _ _ _ Hfl2). rewrite Hmi in *.
    exists (<[horus_index s := q2]> (slots s1)). split; [|split].
    + change (slots s1) with (<[ia := q]> (slots s)). by rewrite !(count_at_other _ _ (horus_index s)) by lia.
    + eapply recount_trans; [exact Hr1|]. apply (recount_insert _ _ _ p2); [|done|done].
      unfold counter_indices, horus_index. destruct (horus_swap s); set_solver.
    + intros which Hw j. rewrite Hcount2 by done. rewrite (count_at_other _ _ ia) by lia.
      change (slots s1) with (<[ia := q]> (slots s)). rewrite Hcount by done.
      rewrite (count_at_other _ _ (horus_index s)) by lia. by case_decide.
  - exists (<[ia := q]> (slots s)). split; [done|]. split; [done|]. intros which Hw j. by rewrite Hcount.
Qed.

(** What [getStats] stores for a rule: what it had, and what the datapath has
    counted since. *)
Definition stat_next (s : side) (ia : Z) (sl : gmap Z program) (o : option ChainStats) (i : Z) : ChainStats :=
  let pkts := dp_count fst s ia sl i in
  let bytes := dp_count snd s ia sl i in
  match o with
  | None => {| st_id := i; st_pkts := pkts; st_bytes := bytes; st_action := None; st_description := None |}
  | Some c => {| st_id := st_id c; st_pkts := u64 (st_pkts c + pkts); st_bytes := u64 (st_bytes c + bytes);
                 st_action := st_action c; st_description := st_description c |}
  end.

Definition stored (cs : list (option ChainStats)) (i : nat) (c : ChainStats) : list (option ChainStats) :=
  <[i := Some c]> (if (length cs <=? i)%nat then resize (Z.of_nat i + 1) cs else cs).

Lemma getStats_run rules s y i r :
  ready rules s y -> rules_ s !! i = Some (Some r) -> (i < 2048)%nat ->
  let c := stat_next s (ly_action_index y) (slots s) (default None (counters_ s !! i)) (Z.of_nat i) in
  exists sl', getStats (Z.of_nat i) s = (Ok c, set_counters (stored (counters_ s) i c) (set_slots sl' s)) /\
    recount y (slots s) sl' /\
    forall which, which = fst \/ which = snd -> forall j,
      dp_count which s (ly_action_index y) sl' j =
      if decide (j = Z.of_nat i) then 0 else dp_count which s (ly_action_index y) (slots s) j.
Proof using Type.
  intros Hr Hi Hcap c. destruct (fetchCounters_run rules s y (Z.of_nat i) Hr ltac:(lia)) as (sl' & Hf & Hrc & Hcount).
  exists sl'. split; [|done]. unfold getStats. unfold bind at 1, get at 1.
  apply lookup_lt_Some in Hi as Hlt. unfold getNrRules.
  rewrite (proj2 (Z.ltb_ge _ _)) by lia. unfold bind at 1, lift at 1. rewrite (vec_get_ok _ _ _ Hi).
  rewrite Nat2Z.id. unfold c, stat_next, stored. destruct (default None (counters_ s !! i)) as [c0|] eqn:Ec.
  - rewrite (bind_run _ _ _ _ _ Hf). unfold bind at 1, get at 1. unfold bind at 1, lift.
    change (counters_ (set_slots sl' s)) with (counters_ s).
    assert (i < length (counters_ s))%nat as Hlc.
    { destruct (counters_ s !! i) eqn:E; [by eapply lookup_lt_Some|done]. }
    rewrite vec_set_ok by done. destruct (Nat.leb_spec (length (counters_ s)) i); [lia|]. done.
  - rewrite (bind_run _ _ _ _ _ Hf). unfold bind at 1, get at 1. unfold bind at 1, lift.
    change (counters_ (set_slots sl' s)) with (counters_ s).
    assert ((Z.of_nat (length (counters_ s)) <=? Z.of_nat i) = (length (counters_ s) <=? i)%nat) as ->.
    { destruct (Z.leb_spec (Z.of_nat (length (counters_ s))) (Z.of_nat i)), (Nat.leb_spec (length (counters_ s)) i); (done || lia). }
    rewrite vec_set_ok; [done|]. destruct (Nat.leb_spec (length (counters_ s)) i); [|lia].
    rewrite length_resize. lia.
Qed.

Definition all_stats (s : side) (ia : Z) (n : nat) : list ChainStats :=
  (fun i => stat_next s ia (slots s) (default None (counters_ s !! i)) (Z.of_nat i)) <$> seq 0 n.

Lemma stored_step (cs : list (option ChainStats)) (all : list ChainStats) k c :
  length all = k ->
  stored ((Some <$> all) ++ drop k cs) k c = (Some <$> (all ++ [c])) ++ drop (S k) cs.
Proof using Type.
  intros <-. unfold stored. rewrite fmap_app, <- app_assoc. cbn [fmap list_fmap app].
  destruct (drop (length all) cs) as [|o rest] eqn:Ed.
  - rewrite app_nil_r, length_fmap, Nat.leb_refl.
    assert (resize (Z.of_nat (length all) + 1) (Some <$> all) = (Some <$> all) ++ [None]) as ->.
    { unfold resize. rewrite length_fmap.
      replace (Z.to_nat (Z.of_nat (length all) + 1)) with (S (length all)) by lia.
      rewrite take_ge by (rewrite length_fmap; lia). by replace (S (length all) - length all)%nat with 1%nat by lia. }
    rewrite insert_app_r_alt by (rewrite length_fmap; lia). rewrite length_fmap, Nat.sub_diag.
    cbn. f_equal. apply (f_equal length) in Ed. rewrite length_drop in Ed. cbn in Ed.
    rewrite drop_ge; [done|lia].
  - rewrite length_app, length_fmap. cbn [length].
    destruct (Nat.leb_spec (length all + S (length rest)) (length all)); [lia|].
    rewrite insert_app_r_alt by (rewrite length_fmap; lia). rewrite length_fmap, Nat.sub_diag. cbn. do 2 f_equal.
    assert (cs !! length all = Some o) as Ho by (by rewrite <- (Nat.add_0_r (length all)), <- lookup_drop, Ed).
    rewrite (drop_S _ _ _ Ho) in Ed. by injection Ed.
Qed.

Section list.
(** [old] is the chain that is installed, [rules] what the object stores. *)
Context (old rules : list ChainRule) (s : side) (y : layout).
Context (Hr : ready old s y) (Hrules : rules_ s = Some <$> rules) (Hids : ids_ok rules).
Context (Hcap : (length rules <= 2048)%nat).
Let ia := ly_action_index y.
Let all := all_stats s ia (length rules).

(** After the first [k] rules. *)
Definition stats_state (k : nat) (sl : gmap Z program) : side :=
  set_counters ((Some <$> take k all) ++ drop k (counters_ s)) (set_slots sl s).
Definition stats_counts (k : nat) (sl : gmap Z program) : Prop :=
  recount y (slots s) sl /\
  forall which, which = fst \/ which = snd -> forall j,
    dp_count which s ia sl j =
    if decide (0 <= j < Z.of_nat k) then 0 else dp_count which s ia (slots s) j.

Lemma all_lookup k : (k < length rules)%nat ->
  all !! k = Some (stat_next s ia (slots s) (default None (counters_ s !! k)) (Z.of_nat k)).
Proof using Type. intros Hk. unfold all, all_stats. rewrite list_lookup_fmap. by rewrite lookup_seq_lt. Qed.
Lemma all_length : length all = length rules.
Proof using Type. unfold all, all_stats. by rewrite length_fmap, length_seq. Qed.

Lemma getStats_step k sl r :
  rules !! k = Some r -> stats_counts k sl ->
  exists sl' c, getStats (getId r) (stats_state k sl) = (Ok c, stats_state (S k) sl') /\ all !! k = Some c /\
    stats_counts (S k) sl'.
Proof using Hr Hrules Hids Hcap.
  intros Hk [Hrc Hcount]. apply lookup_lt_Some in Hk as Hlt.
  destruct (ready_recount old s y sl Hr Hrc) as (y' & Hr' & Eia & _ & Erc).
  apply (ready_counters _ _ _ ((Some <$> take k all) ++ drop k (counters_ s))) in Hr'.
  change (set_counters _ (set_slots sl s)) with (stats_state k sl) in Hr'.
  destruct (getStats_run old (stats_state k sl) y' k r Hr') as (sl' & Hg & Hrc' & Hcount').
  { change (rules_ (stats_state k sl)) with (rules_ s). by rewrite Hrules, list_lookup_fmap, Hk. }
  { lia. }
  cbv zeta in Hg. rewrite Eia in Hg, Hcount'. fold ia in Hg, Hcount'. rewrite Erc in Hrc'.
  change (slots (stats_state k sl)) with sl in Hg, Hcount', Hrc'.
  assert (length (take k all) = k) as Hlk by (rewrite length_take, all_length; lia).
  assert (default None (counters_ (stats_state k sl) !! k) = default None (counters_ s !! k)) as Eo.
  { cbn [stats_state counters_ set_counters]. rewrite lookup_app_r by (rewrite length_fmap; lia).
    rewrite length_fmap, Hlk, Nat.sub_diag, lookup_drop, Nat.add_0_r. done. }
  rewrite Eo in Hg.
  assert (stat_next (stats_state k sl) ia sl (default None (counters_ s !! k)) (Z.of_nat k)
    = stat_next s ia (slots s) (default None (counters_ s !! k)) (Z.of_nat k)) as Ec.
  { assert (forall which, which = fst \/ which = snd ->
      dp_count which (stats_state k sl) ia sl (Z.of_nat k) = dp_count which s ia (slots s) (Z.of_nat k)) as Ed.
    { intros which Hw. change (dp_count which (stats_state k sl) ia sl (Z.of_nat k)) with (dp_count which s ia sl (Z.of_nat k)).
      rewrite Hcount by done. by rewrite decide_False by lia. }
    unfold stat_next. by rewrite !Ed by auto. }
  rewrite Ec in Hg. eexists sl', _. split; [|split; [by apply all_lookup|]].
  - unfold getId. rewrite (Hids _ _ Hk). rewrite Hg. f_equal. unfold stats_state.
    cbn [counters_ set_counters]. rewrite stored_step by done. by rewrite (take_S_r _ _ _ (all_lookup k Hlt)).
  - split; [by eapply recount_trans|]. intros which Hw j. specialize (Hcount' which Hw j).
    change (dp_count which (stats_state k sl) ia sl' j) with (dp_count which s ia sl' j) in Hcount'.
    change (dp_count which (stats_state k sl) ia sl j) with (dp_count which s ia sl j) in Hcount'.
    rewrite Hcount', Hcount by done. repeat case_decide; try done; lia.
Qed.

Lemma stats_of_run k sl :
  (k <= length rules)%nat -> stats_counts k sl ->
  exists sl', stats_of (Some <$> drop k rules) (stats_state k sl)
      = (Ok (drop k all), stats_state (length rules) sl') /\ stats_counts (length rules) sl'.
Proof using Hr Hrules Hids Hcap.
  intros Hk Hc. remember (length rules - k)%nat as n eqn:En. revert k sl Hk Hc En.
  induction n as [|n IH]; intros k sl Hk Hc En.
  - assert (k = length rules) as -> by lia. exists sl. rewrite drop_all.
    rewrite drop_ge by (rewrite all_length; lia). done.
  - destruct (lookup_lt_is_Some_2 rules k) as [r Hrk]; [lia|]. rewrite (drop_S _ _ _ Hrk). cbn [fmap list_fmap stats_of].
    destruct (getStats_step k sl r Hrk Hc) as (sl1 & c & Hg & Hall & Hc1).
    rewrite (bind_run _ _ _ _ _ Hg). destruct (IH (S k) sl1 ltac:(lia) Hc1 ltac:(lia)) as (sl' & Hs & Hc').
    rewrite (bind_run _ _ _ _ _ Hs). exists sl'. split; [|done]. by rewrite (drop_S _ _ _ Hall).
Qed.

(** The statistics of all rules: every count moves, none is lost. *)
Lemma getStatsList_run :
  (length (counters_ s) <= length rules)%nat ->
  exists l sl', getStatsList s = (Ok l, set_counters (Some <$> all) (set_slots sl' s)) /\
    take (length rules) l = all /\ stats_counts (length rules) sl'.
Proof using Hr Hrules Hids Hcap.
  intros Hlen. assert (stats_state 0 (slots s) = s) as E0.
  { unfold stats_state. rewrite drop_0, set_slots_id. by destruct s. }
  destruct (stats_of_run 0 (slots s)) as (sl' & Hs & Hc); [lia| |].
  { split; [apply recount_refl|]. intros which _ j. by rewrite decide_False by lia. }
  rewrite E0, !drop_0 in Hs.
  assert (stats_state (length rules) sl' = set_counters (Some <$> all) (set_slots sl' s)) as Ef.
  { unfold stats_state. rewrite drop_ge by done. rewrite take_ge by (rewrite all_length; lia). by rewrite app_nil_r. }
  rewrite Ef in Hs.
  destruct (ready_recount old s y sl' Hr (proj1 Hc)) as (y' & Hr' & _).
  apply (ready_counters _ _ _ (Some <$> all)) in Hr'. set (s' := set_counters _ _) in *.
  destruct (gd_default _ _ (rd_good _ _ _ Hr')) as (pk & by_ & Hd & Hp & Hb).
  destruct (gd_fixed _ _ (rd_good _ _ _ Hr') Modules.DEFAULTACTION KDefaultAction) as (hop & Hm); [set_solver|].
  assert (exists d, getDefaultActionCounters s' = (Ok d, s')) as [d Ed].
  { unfold getDefaultActionCounters. unfold bind at 1, get at 1. cbv zeta.
    rewrite bool_decide_eq_false_2 by apply (gd_name _ _ (rd_good _ _ _ Hr')).
    rewrite (bind_run _ _ _ _ _ (program_at_run _ _ _ Hm)). unfold bind at 1, deref, lift.
    set (md := {| m_kind := KDefaultAction; m_index := Modules.DEFAULTACTION; m_hop := hop |}).
    assert (has_counters (slots s') (m_index md) 1) as Hhc by (eexists _, _, _; split; [exact Hd|done]).
    unfold getPktsCount, getBytesCount.
    rewrite (bind_run _ _ _ _ _ (get_count_run fst md 0 s' 1 ltac:(by left) Hhc ltac:(lia))).
    rewrite (bind_run _ _ _ _ _ (get_count_run snd md 0 s' 1 ltac:(by right) Hhc ltac:(lia))). by eexists. }
  exists (all ++ [d]), sl'. split.
  - unfold getStatsList. unfold bind at 1, get at 1. rewrite Hrules. rewrite (bind_run _ _ _ _ _ Hs).
    by rewrite (bind_run _ _ _ _ _ Ed).
  - split; [|done]. rewrite take_app_le by (rewrite all_length; lia). rewrite take_ge; [done|]. rewrite all_length. lia.
Qed.
End list.
End recount.
