(* ===== verification/FwConnFacts.v ===== *)
(** pcn-firewall, connection tracking: the two directions of a connection share
    their entry, how UDP and TCP connections become established, and the states
    that an entry of the table can have. *)
From Stdlib Require Import ZArith Lia.
From stdpp Require Import base gmap sets list strings numbers.
From S2P Require Import Prelude.
From S2P Require Import Vec.
From S2P Require Import Bpf.
From S2P Require Import NetUtils.
From S2P Require Import FwRule.
From S2P Require Import Frame.
From S2P Require Import FwConntrack.
#[local] Open Scope Z_scope.

(** The packet that answers [pkt]. *)
Definition answer (pkt : packetHeaders) (flags seqN ackN : Z) : packetHeaders :=
  {| p_srcIp := p_dstIp pkt; p_dstIp := p_srcIp pkt; p_l4proto := p_l4proto pkt; p_srcPort := p_dstPort pkt;
     p_dstPort := p_srcPort pkt; p_flags := flags; p_seqN := seqN; p_ackN := ackN;
     p_connStatus := p_connStatus pkt; p_forwardingDecision := p_forwardingDecision pkt |}.
(** Another packet of the same connection and direction. *)
Definition follow (pkt : packetHeaders) (flags seqN ackN : Z) : packetHeaders :=
  {| p_srcIp := p_srcIp pkt; p_dstIp := p_dstIp pkt; p_l4proto := p_l4proto pkt; p_srcPort := p_srcPort pkt;
     p_dstPort := p_dstPort pkt; p_flags := flags; p_seqN := seqN; p_ackN := ackN;
     p_connStatus := p_connStatus pkt; p_forwardingDecision := p_forwardingDecision pkt |}.

Lemma ct_key_answer pkt f s a k ri rp :
  p_srcIp pkt ≠ p_dstIp pkt -> ct_key pkt = (k, ri, rp) -> ct_key (answer pkt f s a) = (k, 1 - ri, 1 - rp).
Proof.
  intros Hn. unfold ct_key, answer. cbn [p_srcIp p_dstIp p_srcPort p_dstPort p_l4proto].
  destruct (Z.leb_spec (p_srcIp pkt) (p_dstIp pkt)), (Z.leb_spec (p_dstIp pkt) (p_srcIp pkt)); try lia;
    destruct (Z.ltb_spec (p_srcPort pkt) (p_dstPort pkt)), (Z.ltb_spec (p_dstPort pkt) (p_srcPort pkt)); try lia;
    intros [= <- <- <-]; repeat f_equal; try done; lia.
Qed.
Lemma ct_key_follow pkt f s a : ct_key (follow pkt f s a) = ct_key pkt.
Proof. done. Qed.
Lemma ct_key_bits pkt k ri rp : ct_key pkt = (k, ri, rp) -> (ri = 0 \/ ri = 1) /\ (rp = 0 \/ rp = 1).
Proof.
  unfold ct_key. repeat case_match; intros [= <- <- <-]; simplify_eq; auto.
Qed.

Lemma direction_forward v ri rp : v_ipRev v = ri -> v_portRev v = rp -> ct_direction v ri rp = Forward.
Proof. intros <- <-. unfold ct_direction. by rewrite !Z.eqb_refl. Qed.
Lemma direction_reverse v ri rp : v_ipRev v = ri -> v_portRev v = rp -> ct_direction v (1 - ri) (1 - rp) = Reverse.
Proof.
  intros <- <-. unfold ct_direction.
  destruct (Z.eqb_spec (v_ipRev v) (1 - v_ipRev v)); [lia|]. destruct (Z.eqb_spec (v_portRev v) (1 - v_portRev v)); [lia|]. done.
Qed.

(** ** Sequence numbers *)
(** A 32-bit number in network byte order, as a little-endian host reads it. *)
Definition nbo (h : Z) : Z :=
  h / 2 ^ 24 mod 256 + 2 ^ 8 * (h / 2 ^ 16 mod 256) + 2 ^ 16 * (h / 2 ^ 8 mod 256) + 2 ^ 24 * (h mod 256).

Lemma nbo_range h : 0 <= nbo h < 2 ^ 32.
Proof.
  unfold nbo. pose proof (Z.mod_pos_bound h 256). pose proof (Z.mod_pos_bound (h / 2 ^ 8) 256).
  pose proof (Z.mod_pos_bound (h / 2 ^ 16) 256). pose proof (Z.mod_pos_bound (h / 2 ^ 24) 256). lia.
Qed.

(** Adding one to the first octet in memory is the successor, unless it carries. *)
Lemma nbo_succ h : h mod 256 ≠ 255 -> u32 (nbo h + HEX_BE_ONE) = nbo (h + 1).
Proof.
  intros Hc. pose proof (Z.mod_pos_bound h 256 ltac:(lia)) as Hm. pose proof (Z.div_mod h 256 ltac:(lia)) as Hd.
  assert ((h + 1) / 256 = h / 256 /\ (h + 1) mod 256 = h mod 256 + 1) as [Eq Em].
  { symmetry in Hd. split; symmetry; [apply (Z.div_unique _ _ _ (h mod 256 + 1)); lia|apply (Z.mod_unique _ _ (h / 256)); lia]. }
  assert (forall n, 8 <= n -> (h + 1) / 2 ^ n = h / 2 ^ n) as En.
  { intros n Hn. replace (2 ^ n) with (256 * 2 ^ (n - 8)).
    - by rewrite <- !Z.div_div, Eq by (try lia; apply Z.pow_pos_nonneg; lia).
    - change 256 with (2 ^ 8). rewrite <- Z.pow_add_r by lia. f_equal. lia. }
  assert (nbo (h + 1) = nbo h + HEX_BE_ONE) as E.
  { unfold nbo. rewrite !En, Em by lia. unfold HEX_BE_ONE. lia. }
  rewrite <- E. unfold u32. apply Z.mod_small, nbo_range.
Qed.

Section connections.
Context `{LruHash ct_k ct_v C}.

(** The state of the connection of a packet, with the direction of the packet. *)
Definition connection (conn : C) (pkt : packetHeaders) : option (ct_v * direction) :=
  let '(k, ri, rp) := ct_key pkt in v ← lru_lookup conn k; Some (v, ct_direction v ri rp).

Lemma label_tcp_connection conn pkt :
  label_tcp conn pkt =
  match connection conn pkt with
  | Some (v, Forward) => label_tcp_forward v pkt
  | Some (v, Reverse) => label_tcp_reverse v pkt
  | _ => label_tcp_miss pkt
  end.
Proof using Type.
  unfold label_tcp, connection. destruct (ct_key pkt) as [[k ri] rp]. destruct (lru_lookup conn k) as [v|]; [|done].
  simpl. by destruct (ct_direction v ri rp).
Qed.

(** Writing the entry of a connection is seen from both sides. *)
Lemma connection_write conn pkt v d v' :
  connection conn pkt = Some (v, d) -> v_ipRev v' = v_ipRev v -> v_portRev v' = v_portRev v ->
  let k := (ct_key pkt).1.1 in
  connection (lru_write conn k v') pkt = Some (v', d).
Proof using Type.
  unfold connection. destruct (ct_key pkt) as [[k ri] rp]. simpl. destruct (lru_lookup conn k) as [w|] eqn:E; [|done].
  intros [= -> <-] H1 H2. rewrite lru_write_spec by (by eexists). rewrite decide_True by done. simpl.
  unfold ct_direction. by rewrite H1, H2.
Qed.

Definition opposite (d : direction) : direction := match d with Forward => Reverse | Reverse => Forward | Miss => Miss end.

Definition reversal_bits (v : ct_v) : Prop := (v_ipRev v = 0 \/ v_ipRev v = 1) /\ (v_portRev v = 0 \/ v_portRev v = 1).

Lemma connection_answer conn pkt f s a v d :
  p_srcIp pkt ≠ p_dstIp pkt -> connection conn pkt = Some (v, d) -> reversal_bits v ->
  connection conn (answer pkt f s a) = Some (v, opposite d).
Proof using Type.
  intros Hn Hc [Hi Hp]. unfold connection in *. destruct (ct_key pkt) as [[k ri] rp] eqn:Ek.
  rewrite (ct_key_answer _ f s a _ _ _ Hn Ek). destruct (lru_lookup conn k) as [w|]; [|done]. simpl in *.
  injection Hc as -> <-. do 2 f_equal. apply ct_key_bits in Ek as [Hri Hrp]. unfold ct_direction.
  destruct Hi as [-> | ->], Hp as [-> | ->], Hri as [-> | ->], Hrp as [-> | ->]; done.
Qed.

(** ** UDP *)
Lemma udp_new ts conn pkt :
  connection conn pkt = None ->
  exists v, connection (update_udp ts conn pkt).1 pkt = Some (v, Forward) /\ v_state v = CT.NEW /\ reversal_bits v /\
    v_ttl v = u64 (ts + UDP_NEW_TIMEOUT).
Proof using Type.
  unfold connection, update_udp. destruct (ct_key pkt) as [[k ri] rp] eqn:Ek.
  destruct (lru_lookup conn k) as [w|] eqn:E; [done|]. intros _. simpl. rewrite lru_insert_eq, E. simpl.
  eexists. rewrite direction_forward by done. split; [done|]. split; [done|]. split; [|done]. by apply ct_key_bits in Ek.
Qed.

Lemma udp_reverse ts conn pkt v :
  connection conn pkt = Some (v, Reverse) -> v_state v = CT.NEW ->
  exists v', connection (update_udp ts conn pkt).1 pkt = Some (v', Reverse) /\ v_state v' = CT.ESTABLISHED /\
    v_ipRev v' = v_ipRev v /\ v_portRev v' = v_portRev v.
Proof using Type.
  intros Hc Hs. pose proof Hc as Hc'. unfold connection in Hc. unfold update_udp.
  pose proof (connection_write conn pkt v Reverse) as Hw. destruct (ct_key pkt) as [[k ri] rp] eqn:Ek.
  destruct (lru_lookup conn k) as [w|] eqn:E; [|done]. simpl in Hc. injection Hc as -> Ed. rewrite Ed, Hs.
  change (CT.NEW =? CT.NEW) with true. cbn [fst snd]. eexists. split; [by apply Hw|]. done.
Qed.

(** ** TCP *)
Lemma tcp_update_write ts conn pkt v d v' :
  has_flag (p_flags pkt) TCPHDR_RST = false -> connection conn pkt = Some (v, d) ->
  v_ipRev v' = v_ipRev v -> v_portRev v' = v_portRev v ->
  match d with Forward => tcp_update_forward ts pkt v | Reverse => tcp_update_reverse ts pkt v | Miss => GotoMiss end = Write v' ->
  connection (update_tcp ts conn pkt).1 pkt = Some (v', d) /\ (update_tcp ts conn pkt).2 = pkt.
Proof using Type.
  intros Hr Hc H1 H2 Hw. unfold update_tcp. rewrite Hr. pose proof (connection_write conn pkt v d v' Hc H1 H2) as Hcw.
  unfold connection in Hc. destruct (ct_key pkt) as [[k ri] rp] eqn:Ek.
  destruct (lru_lookup conn k) as [w|] eqn:E; [|done]. simpl in Hc. injection Hc as -> Ed. rewrite Ed, Hw. done.
Qed.

Lemma subset_flags flags f : no_other_flag flags f = true -> flags = Z.land flags f.
Proof using Type.
  unfold no_other_flag. rewrite Z.eqb_eq. intros H2. rewrite <- H2. apply Z.bits_inj'. intros n Hn.
  rewrite Z.land_spec, Z.lor_spec. by destruct (Z.testbit flags n), (Z.testbit f n).
Qed.

Lemma label_reverse_syn_sent conn pkt v :
  connection conn pkt = Some (v, Reverse) -> v_state v = CT.SYN_SENT -> only_syn_ack (p_flags pkt) = true ->
  has_flag (p_flags pkt) TCPHDR_RST = false -> p_ackN pkt = v_sequence v -> label_tcp conn pkt = CT.ESTABLISHED.
Proof using Type.
  intros Hc Hs Hf Hr Ha. rewrite label_tcp_connection, Hc. unfold label_tcp_reverse. rewrite Hr, Hs, Hf, Ha, !Z.eqb_refl. done.
Qed.
Lemma label_forward_syn_recv conn pkt v :
  connection conn pkt = Some (v, Forward) -> v_state v = CT.SYN_RECV -> only_ack (p_flags pkt) = true ->
  has_flag (p_flags pkt) TCPHDR_RST = false -> p_ackN pkt = v_sequence v -> label_tcp conn pkt = CT.ESTABLISHED.
Proof using Type.
  intros Hc Hs Hf Hr Ha. rewrite label_tcp_connection, Hc. unfold label_tcp_forward. rewrite Hr, Hs, Hf, Ha, !Z.eqb_refl. done.
Qed.

(** The three packets that open a connection. *)
Definition syn_of (pkt : packetHeaders) (c : Z) : packetHeaders := follow pkt TCPHDR_SYN (nbo c) 0.
Definition syn_ack_of (pkt : packetHeaders) (c s : Z) : packetHeaders :=
  answer pkt (Z.lor TCPHDR_SYN TCPHDR_ACK) (nbo s) (nbo (c + 1)).
Definition ack_of (pkt : packetHeaders) (c s : Z) : packetHeaders :=
  follow pkt TCPHDR_ACK (nbo (c + 1)) (nbo (s + 1)).

Lemma syn_step ts conn pkt c :
  connection conn pkt = None ->
  let conn1 := (update_tcp ts conn (syn_of pkt c)).1 in
  label_tcp conn (syn_of pkt c) = CT.NEW /\
  exists v, connection conn1 pkt = Some (v, Forward) /\ v_state v = CT.SYN_SENT /\ reversal_bits v /\
    v_sequence v = u32 (nbo c + HEX_BE_ONE).
Proof using Type.
  intros Hc conn1. split.
  - rewrite label_tcp_connection. change (connection conn (syn_of pkt c)) with (connection conn pkt). by rewrite Hc.
  - unfold conn1, update_tcp. change (has_flag (p_flags (syn_of pkt c)) TCPHDR_RST) with false.
    unfold tcp_update_miss, connection in *. change (ct_key (syn_of pkt c)) with (ct_key pkt).
    destruct (ct_key pkt) as [[k ri] rp] eqn:Ek. destruct (lru_lookup conn k) as [w|] eqn:E; [done|].
    change (only_syn (p_flags (syn_of pkt c))) with true. cbn [fst]. rewrite lru_update_eq. simpl. eexists.
    rewrite direction_forward by done. split; [done|]. split; [done|]. split; [by apply ct_key_bits in Ek|done].
Qed.

Lemma syn_ack_step ts conn pkt c s v :
  p_srcIp pkt ≠ p_dstIp pkt -> connection conn pkt = Some (v, Forward) -> v_state v = CT.SYN_SENT -> reversal_bits v ->
  v_sequence v = nbo (c + 1) ->
  let conn1 := (update_tcp ts conn (syn_ack_of pkt c s)).1 in
  label_tcp conn (syn_ack_of pkt c s) = CT.ESTABLISHED /\
  exists v', connection conn1 pkt = Some (v', Forward) /\ v_state v' = CT.SYN_RECV /\ reversal_bits v' /\
    v_sequence v' = u32 (nbo s + HEX_BE_ONE).
Proof using Type.
  intros Hn Hc Hs Hb Hq conn1.
  pose proof (connection_answer conn pkt (Z.lor TCPHDR_SYN TCPHDR_ACK) (nbo s) (nbo (c + 1)) _ _ Hn Hc Hb) as Ha.
  fold (syn_ack_of pkt c s) in Ha. cbn [opposite] in Ha. split; [by eapply label_reverse_syn_sent|].
  set (v' := to_state v CT.SYN_RECV (ts + TCP_SYN_RECV) (u32 (nbo s + HEX_BE_ONE))).
  destruct (tcp_update_write ts conn (syn_ack_of pkt c s) v Reverse v' eq_refl Ha eq_refl eq_refl) as [Hw _].
  { unfold tcp_update_reverse. rewrite Hs. change (p_ackN (syn_ack_of pkt c s)) with (nbo (c + 1)).
    rewrite Hq, !Z.eqb_refl. done. }
  fold conn1 in Hw. exists v'. split; [|done].
  pose proof (connection_answer conn1 (syn_ack_of pkt c s) 0 0 0 v' Reverse (fun E => Hn (eq_sym E)) Hw Hb) as E.
  unfold connection in *. exact E.
Qed.

Lemma ack_step ts conn pkt c s v :
  connection conn pkt = Some (v, Forward) -> v_state v = CT.SYN_RECV -> v_sequence v = nbo (s + 1) ->
  let conn1 := (update_tcp ts conn (ack_of pkt c s)).1 in
  label_tcp conn (ack_of pkt c s) = CT.ESTABLISHED /\
  exists v', connection conn1 pkt = Some (v', Forward) /\ v_state v' = CT.ESTABLISHED.
Proof using Type.
  intros Hc Hs Hq conn1. assert (connection conn (ack_of pkt c s) = Some (v, Forward)) as Ha by done.
  split; [by eapply label_forward_syn_recv|].
  set (v' := to_state v CT.ESTABLISHED (ts + TCP_ESTABLISHED) (v_sequence v)).
  destruct (tcp_update_write ts conn (ack_of pkt c s) v Forward v' eq_refl Ha eq_refl eq_refl) as [Hw _].
  { unfold tcp_update_forward, v'. rewrite Hs. change (p_ackN (ack_of pkt c s)) with (nbo (s + 1)).
    rewrite Hq, !Z.eqb_refl. done. }
  by exists v'.
Qed.

(** ** What the table holds *)
Definition entry_ok (l4proto : Z) (v : ct_v) : Prop :=
  (l4proto = IPPROTO_TCP /\ v_state v ∈ [CT.ESTABLISHED; CT.SYN_SENT; CT.SYN_RECV; CT.FIN_WAIT_1; CT.FIN_WAIT_2;
                                           CT.LAST_ACK; CT.TIME_WAIT] \/
   l4proto = IPPROTO_UDP /\ v_state v ∈ [CT.NEW; CT.ESTABLISHED] \/
   l4proto = IPPROTO_ICMP /\ v_state v = CT.NEW) /\ reversal_bits v.
Definition ct_ok (conn : C) : Prop := forall k v, lru_lookup conn k = Some v -> entry_ok (k_l4proto k) v.

Lemma ct_ok_write conn k v : ct_ok conn -> is_Some (lru_lookup conn k) -> entry_ok (k_l4proto k) v -> ct_ok (lru_write conn k v).
Proof using Type.
  intros Hok Hk Hv k' v'. rewrite lru_write_spec by done. case_decide as E; [subst; by intros [= <-]|apply Hok].
Qed.
Lemma ct_ok_update conn k v : ct_ok conn -> entry_ok (k_l4proto k) v -> ct_ok (lru_update conn k v).
Proof using Type.
  intros Hok Hv k' v'. destruct (decide (k = k')) as [<-|Hn]; [rewrite lru_update_eq; by intros [= <-]|].
  destruct (lru_update_ne conn k v k' Hn) as [-> | ->]; [apply Hok|done].
Qed.
Lemma ct_ok_insert conn k v : ct_ok conn -> entry_ok (k_l4proto k) v -> ct_ok (lru_insert conn k v).
Proof using Type.
  intros Hok Hv k' v'. destruct (decide (k = k')) as [<-|Hn].
  - rewrite lru_insert_eq. destruct (lru_lookup conn k) eqn:E; intros [= <-]; [by apply Hok|done].
  - destruct (lru_insert_ne conn k v k' Hn) as [-> | ->]; [apply Hok|done].
Qed.
Lemma ct_ok_delete conn k : ct_ok conn -> ct_ok (lru_delete conn k).
Proof using Type. intros Hok k' v'. rewrite lru_delete_spec. case_decide; [done|apply Hok]. Qed.

Lemma ct_key_proto pkt k ri rp : ct_key pkt = (k, ri, rp) -> k_l4proto k = p_l4proto pkt.
Proof using Type. unfold ct_key. repeat case_match; intros [= <- <- <-]; simplify_eq; done. Qed.

Definition tcp_states : list Z :=
  [CT.ESTABLISHED; CT.SYN_SENT; CT.SYN_RECV; CT.FIN_WAIT_1; CT.FIN_WAIT_2; CT.LAST_ACK; CT.TIME_WAIT].

(** What the TCP code writes: a TCP state, in the direction of the entry. *)
Definition writes_ok (v : ct_v) (a : tcp_action) : Prop :=
  match a with
  | Write v' => v_state v' ∈ tcp_states /\ v_ipRev v' = v_ipRev v /\ v_portRev v' = v_portRev v
  | _ => True
  end.
Lemma tcp_open_writes ts pkt v : writes_ok v (tcp_update_open ts pkt v).
Proof using Type. unfold tcp_update_open, tcp_update_fin_wait_2. repeat case_match; simpl; try done; (split; [set_solver|done]). Qed.
Lemma tcp_forward_writes ts pkt v : writes_ok v (tcp_update_forward ts pkt v).
Proof using Type. unfold tcp_update_forward. repeat case_match; simpl; try done; try apply tcp_open_writes; (split; [set_solver|done]). Qed.
Lemma tcp_reverse_writes ts pkt v : writes_ok v (tcp_update_reverse ts pkt v).
Proof using Type. unfold tcp_update_reverse. repeat case_match; simpl; try done; try apply tcp_open_writes; (split; [set_solver|done]). Qed.

Lemma tcp_miss_ok ts pkt conn : p_l4proto pkt = IPPROTO_TCP -> ct_ok conn -> ct_ok (tcp_update_miss ts pkt conn).
Proof using Type.
  intros Hp Hok. unfold tcp_update_miss. destruct (ct_key pkt) as [[k ri] rp] eqn:Ek. destruct (only_syn _); [|done].
  apply ct_ok_update; [done|]. rewrite (ct_key_proto _ _ _ _ Ek). split; [|by apply ct_key_bits in Ek].
  left. split; [done|]. simpl. set_solver.
Qed.

Lemma update_tcp_ok ts conn pkt : p_l4proto pkt = IPPROTO_TCP -> ct_ok conn -> ct_ok (update_tcp ts conn pkt).1.
Proof using Type.
  intros Hp Hok. unfold update_tcp. destruct (has_flag _ _); [done|]. destruct (ct_key pkt) as [[k ri] rp] eqn:Ek.
  destruct (lru_lookup conn k) as [v|] eqn:E; [|by apply tcp_miss_ok].
  set (act := match ct_direction v ri rp with Forward => _ | Reverse => _ | Miss => _ end).
  assert (writes_ok v act) as Hw.
  { unfold act. destruct (ct_direction v ri rp); [apply tcp_forward_writes|apply tcp_reverse_writes|done]. }
  destruct act as [v'| | |]; simpl; try done; [|by apply tcp_miss_ok].
  destruct Hw as (Hs & H1 & H2). apply ct_ok_write; [done|by eexists|]. rewrite (ct_key_proto _ _ _ _ Ek).
  destruct (Hok k v E) as [_ Hb]. split; [by left|]. unfold reversal_bits in *. by rewrite H1, H2.
Qed.

Lemma update_udp_ok ts conn pkt : p_l4proto pkt = IPPROTO_UDP -> ct_ok conn -> ct_ok (update_udp ts conn pkt).1.
Proof using Type.
  intros Hp Hok. unfold update_udp. destruct (ct_key pkt) as [[k ri] rp] eqn:Ek.
  assert (forall t, ct_ok (lru_insert conn k {| v_ttl := t; v_state := CT.NEW; v_ipRev := ri; v_portRev := rp; v_sequence := 0 |})) as Hins.
  { intros t. apply ct_ok_insert; [done|]. rewrite (ct_key_proto _ _ _ _ Ek). split; [|by apply ct_key_bits in Ek].
    right; left. split; [done|]. simpl. set_solver. }
  destruct (lru_lookup conn k) as [v|] eqn:E; [|apply Hins]. destruct (Hok k v E) as [Hst Hb].
  rewrite (ct_key_proto _ _ _ _ Ek), Hp in Hst. destruct Hst as [[? _]|[[_ Hst]|[? _]]]; [done| |done].
  assert (forall st t q, st ∈ [CT.NEW; CT.ESTABLISHED] -> ct_ok (lru_write conn k (to_state v st t q))) as Hwr.
  { intros st t q Hs. apply ct_ok_write; [done|by eexists|]. rewrite (ct_key_proto _ _ _ _ Ek). split; [|done]. right; left. done. }
  destruct (ct_direction v ri rp); [|destruct (v_state v =? CT.NEW)|apply Hins]; simpl; apply Hwr; try done. set_solver.
Qed.

Lemma ct_update_ok ts conn frame pkt conn' pkt' :
  ct_ok conn -> ct_update ts conn frame pkt = Some (conn', pkt') -> ct_ok conn'.
Proof using Type.
  intros Hok. unfold ct_update. destruct (_ =? CT.INVALID); [by intros [= <- _]|].
  destruct (Z.eqb_spec (p_l4proto pkt) IPPROTO_TCP) as [Hp|_].
  { destruct (update_tcp ts conn pkt) as [c1 p1] eqn:E. intros [= <- <-].
    change c1 with (c1, p1).1. rewrite <- E. by apply update_tcp_ok. }
  destruct (Z.eqb_spec (p_l4proto pkt) IPPROTO_UDP) as [Hp|_].
  { destruct (update_udp ts conn pkt) as [c1 p1] eqn:E. intros [= <- <-].
    change c1 with (c1, p1).1. rewrite <- E. by apply update_udp_ok. }
  destruct (Z.eqb_spec (p_l4proto pkt) IPPROTO_ICMP) as [Hp|_]; [|by intros [= <- _]].
  unfold update_icmp. destruct (beyond _ _); [done|]. destruct (ct_key pkt) as [[k ri] rp] eqn:Ek.
  destruct (_ =? ICMP_ECHO).
  { intros [= <- _]. apply ct_ok_insert; [done|]. rewrite (ct_key_proto _ _ _ _ Ek). split; [|by apply ct_key_bits in Ek].
    right; right. done. }
  destruct (_ =? ICMP_ECHOREPLY); intros [= <- _]; [by apply ct_ok_delete|done].
Qed.

(** ** Only known connections are established *)
Definition known (conn : C) (pkt : packetHeaders) : Prop :=
  exists v d, connection conn pkt = Some (v, d) /\ d ≠ Miss.

Lemma tcp_established_known conn pkt : label_tcp conn pkt = CT.ESTABLISHED -> known conn pkt.
Proof using Type.
  rewrite label_tcp_connection. unfold label_tcp_miss. intros Hl.
  destruct (connection conn pkt) as [[v []]|] eqn:E; [by exists v, Forward|by exists v, Reverse| |];
    destruct (only_syn _); done.
Qed.
Lemma udp_established_known conn pkt : label_udp conn pkt = CT.ESTABLISHED -> known conn pkt.
Proof using Type.
  unfold label_udp, known, connection. destruct (ct_key pkt) as [[k ri] rp]. destruct (lru_lookup conn k) as [v|]; [|done].
  simpl. intros Hl. exists v, (ct_direction v ri rp). split; [done|]. destruct (ct_direction v ri rp); done.
Qed.
Lemma icmp_established_known conn frame pkt frame' :
  label_icmp conn frame pkt = Some (CT.ESTABLISHED, frame') -> known conn pkt /\ rd8 frame 34 = ICMP_ECHOREPLY.
Proof using Type.
  unfold label_icmp, label_icmp_error. destruct (beyond frame (34 + 8)); [done|].
  destruct (Z.eqb_spec (rd8 frame 34) ICMP_ECHO); [done|].
  destruct (Z.eqb_spec (rd8 frame 34) ICMP_ECHOREPLY) as [Et|].
  - unfold known, connection. destruct (ct_key pkt) as [[k ri] rp]. destruct (lru_lookup conn k) as [v|]; [|done].
    destruct (negb (v_ipRev v =? ri) && negb (v_portRev v =? rp)) eqn:E.
    + intros [= <-]. split; [|done]. exists v, Reverse. split; [|done]. simpl. do 2 f_equal. unfold ct_direction.
      apply andb_true_iff in E as [E1 E2]. rewrite E1, E2. apply negb_true_iff in E1. rewrite E1. done.
    + repeat case_match; intros; simplify_eq.
  - repeat case_match; intros; simplify_eq.
Qed.
Lemma established_known conn frame pkt frame' :
  ct_label conn frame pkt = Some (CT.ESTABLISHED, frame') -> known conn pkt.
Proof using Type.
  unfold ct_label. destruct (_ =? IPPROTO_TCP); [intros [= El _]; by apply tcp_established_known|].
  destruct (_ =? IPPROTO_UDP); [intros [= El _]; by apply udp_established_known|].
  destruct (_ =? IPPROTO_ICMP); [|done]. intros Hl. by eapply icmp_established_known.
Qed.
End connections.
