(* ===== verification/FwStream.v ===== *)
(** pcn-firewall, a stream of packets: the programs of a compiled chain give each
    packet the verdict of the rules, the connections they keep are those of the
    specification, and after any number of packets the rules are still enforced. *)
From Stdlib Require Import ZArith Lia.
From stdpp Require Import base gmap sets list strings numbers.
From S2P Require Import Prelude.
From S2P Require Import Vec.
From S2P Require Import Bpf.
From S2P Require Import NetUtils.
From S2P Require Import FwRule.
From S2P Require Import FwFlags.
From S2P Require Import FwRuleFacts.
From S2P Require Import FwBits.
From S2P Require Import FwMaps.
From S2P Require Import FwMapsFacts.
From S2P Require Import FwIpFacts.
From S2P Require Import Frame.
From S2P Require Import FwConntrack.
From S2P Require Import FwDatapath.
From S2P Require Import FwPipeline.
From S2P Require Import FwModules.
From S2P Require Import FwChain.
From S2P Require Import FwUpdate.
From S2P Require Import FwStages.
From S2P Require Import FwInstall.
From S2P Require Import FwUpdateChain.
From S2P Require Import FwHorus.
From S2P Require Import FwRun.
From S2P Require Import FwFirstMatch.
From S2P Require Import FwCounters.
From S2P Require Import FwConnFacts.
#[local] Open Scope Z_scope.
#[local] Open Scope cpp_scope.

Section stream.
Context `{Inet} `{Tables ct_k ct_v}.

(** A packet as it arrives: what the per-CPU tables hold is left from before. *)
Record arrival := Arrival { a_ctx : ctx; a_frame : list Z; a_packet : packetHeaders; a_bits : list Z }.
Definition arrives (a : arrival) (connections : connT) : dp := Dp (a_frame a) (a_packet a) (a_bits a) connections.
Definition wf_arrival (a : arrival) : Prop :=
  Forall is_byte (a_frame a) /\ wf_pkt (a_packet a) /\ length (a_bits a) = 131%nat.

(** The programs, packet after packet. *)
Fixpoint receive_all (l : list arrival) (slots : gmap Z program) (connections : connT)
    : option (list verdict * gmap Z program * connT) :=
  match l with
  | [] => Some ([], slots, connections)
  | a :: l =>
      '(v, slots, d) ← receive 32 (a_ctx a) slots (arrives a connections);
      '(vs, slots, connections) ← receive_all l slots (d_connections d);
      Some (v :: vs, slots, connections)
  end.

(** A specification gives each packet its verdict, and keeps the connections. *)
Fixpoint verdicts (spec : ctx -> dp -> verdict * dp) (l : list arrival) (connections : connT) : list verdict * connT :=
  match l with
  | [] => ([], connections)
  | a :: l =>
      let '(v, d) := spec (a_ctx a) (arrives a connections) in
      let '(vs, connections) := verdicts spec l (d_connections d) in
      (v :: vs, connections)
  end.

(** The mode that the programs of a configuration run with. *)
Definition cfg_mode (cfg : config) : Z := conntrackMode_uint8 (conntrackMode cfg).

Lemma deliver_mode m m' c d : (m =? 0) = (m' =? 0) -> deliver m c d = deliver m' c d.
Proof using Type. intros E. unfold deliver. by rewrite E. Qed.
Lemma finish_mode m m' c act d : (m =? 0) = (m' =? 0) -> finish m c act d = finish m' c act d.
Proof using Type. intros E. unfold finish. destruct act; [done|by apply deliver_mode..]. Qed.
Lemma verdict_mode cfg m m' rules dflt c d :
  (m =? 0) = (m' =? 0) -> firewall_verdict cfg m rules dflt c d = firewall_verdict cfg m' rules dflt c d.
Proof using Type.
  intros E. unfold firewall_verdict. destruct (parse d) as [|d']; [done|]. destruct (bool_decide _); [by apply finish_mode|].
  unfold label_verdict.  destruct (ct_label _ _ _) as [[st fr]|]; [|done]. cbv zeta.
  destruct (_ && _); [by apply deliver_mode|by apply finish_mode].
Qed.

Lemma horus_off_layout cfg rules s y :
  ready cfg rules s y -> horus_runtime_enabled s = false -> ly_horus y = None.
Proof using Type. intros Hr Hh. rewrite (rd_horus _ _ _ _ Hr). by rewrite Hh. Qed.

Lemma receive_one cfg rules s a connections :
  compilable rules -> enforcing cfg rules s -> horus_runtime_enabled s = false -> wf_arrival a ->
  exists sl' d', receive 32 (a_ctx a) (slots s) (arrives a connections) =
      Some ((firewall_verdict cfg (cfg_mode cfg) rules (defaultAction s) (a_ctx a) (arrives a connections)).1,
            sl', d') /\
    same_packet (firewall_verdict cfg (cfg_mode cfg) rules (defaultAction s) (a_ctx a) (arrives a connections)).2 d' /\
    enforcing cfg rules (set_slots sl' s).
Proof using Type.
  intros Hco Hen Hh (Hf & Hp & Hb). apply enforcing_ready in Hen as [y Hr]. pose proof (horus_off_layout _ _ _ _ Hr Hh) as Hy.
  pose proof (rd_enforces _ _ _ _ Hr) as He.
  destruct (receive_agrees cfg rules Hco (defaultAction s) (slots s) y He (a_ctx a) (arrives a connections) Hy)
    as ([[v sl'] d'] & Hrec & (Ev & Esl & Hsame)); [by split|]. simpl in Ev, Esl, Hsame.
  assert ((ly_mode y =? 0) = (conntrackMode_uint8 (conntrackMode cfg) =? 0)) as Em.
  { rewrite (en_mode _ _ _ _ _ He). by destruct (conntrackMode cfg). }
  rewrite (verdict_mode cfg _ _ _ _ _ _ Em) in Ev, Hsame.
  exists sl', d'. split; [by rewrite Hrec, Ev|]. split; [done|]. subst sl'.
  destruct Hr as [Hg _ Ho Hact]. apply (enforcing_recount cfg rules s y); try done. by apply (counted_recount cfg).
Qed.

(** A state that gives each packet the verdict of [spec], and is such a state
    after it, does so for every stream. *)
Lemma stream_run (P : gmap Z program -> Prop) (spec : ctx -> dp -> verdict * dp) l sl connections :
  (forall sl a conn, P sl -> wf_arrival a -> exists sl' d',
     receive 32 (a_ctx a) sl (arrives a conn) = Some ((spec (a_ctx a) (arrives a conn)).1, sl', d') /\
     same_packet (spec (a_ctx a) (arrives a conn)).2 d' /\ P sl') ->
  P sl -> Forall wf_arrival l ->
  exists sl', receive_all l sl connections = Some ((verdicts spec l connections).1, sl', (verdicts spec l connections).2) /\ P sl'.
Proof using Type.
  intros Hstep. revert sl connections. induction l as [|a l IH]; intros sl conn HP Hwf; [by exists sl|].
  apply list.Forall_cons in Hwf as [Ha Hwf].
  destruct (Hstep sl a conn HP Ha) as (sl1 & d1 & Hr & (_ & _ & Hc) & HP1).
  cbn [receive_all verdicts]. rewrite Hr. simpl.
  destruct (spec _ (arrives a conn)) as [v d]. simpl in *. rewrite Hc.
  destruct (IH sl1 (d_connections d) HP1 Hwf) as (sl2 & Hr2 & HP2).
  exists sl2. rewrite Hr2. simpl. destruct (verdicts spec l _) as [vs c2]. done.
Qed.

(** ** The connections that packets leave *)
Lemma deliver_ct_ok m c d : ct_ok (d_connections d) -> ct_ok (d_connections (deliver m c d).2).
Proof using Type.
  intros Hok. unfold deliver. destruct (m =? 0); [done|].
  destruct (ct_update _ _ _ _) as [[conn pkt]|] eqn:E; [|done]. simpl. by eapply ct_update_ok.
Qed.
Lemma finish_ct_ok m c act d : ct_ok (d_connections d) -> ct_ok (d_connections (finish m c act d).2).
Proof using Type. intros Hok. unfold finish. destruct act; [done|by apply deliver_ct_ok..]. Qed.
Lemma parse_connections d :
  match parse d with inl r => d_connections r.2 = d_connections d | inr d' => d_connections d' = d_connections d end.
Proof using Type. unfold parse. by repeat case_match; simplify_eq. Qed.

Lemma verdict_ct_ok cfg m rules dflt c d :
  ct_ok (d_connections d) -> ct_ok (d_connections (firewall_verdict cfg m rules dflt c d).2).
Proof using Type.
  intros Hok. unfold firewall_verdict. pose proof (parse_connections d) as Hp. destruct (parse d) as [r|d'].
  { by rewrite Hp. }
  rewrite <- Hp in Hok. destruct (bool_decide _); [by apply finish_ct_ok|].
  unfold label_verdict.  destruct (ct_label _ _ _) as [[st fr]|]; [|done]. cbv zeta.
  destruct (_ && _); [by apply deliver_ct_ok|by apply finish_ct_ok].
Qed.
Lemma verdicts_ct_ok spec l connections :
  (forall c d, ct_ok (d_connections d) -> ct_ok (d_connections (spec c d).2)) ->
  ct_ok connections -> ct_ok (verdicts spec l connections).2.
Proof using Type.
  intros Hspec. revert connections. induction l as [|a l IH]; intros conn Hok; [done|]. cbn [verdicts].
  pose proof (Hspec (a_ctx a) (arrives a conn) Hok) as Hok'.
  destruct (spec _ _) as [v d]. simpl in Hok'. specialize (IH _ Hok').
  by destruct (verdicts _ l _).
Qed.
End stream.
