(* ===== verification/FwHorusRun.v ===== *)
(** pcn-firewall, packets with the Horus program on: its verdict, the rule it
    counts, and when skipping the chain gives the verdict of the chain. *)
From Stdlib Require Import ZArith Lia.
From stdpp Require Import base gmap sets list strings numbers.
From S2P Require Import Prelude.
From S2P Require Import Vec.
From S2P Require Import Bpf.
From S2P Require Import NetUtils.
From S2P Require Import FwRule.
From S2P Require Import FwFlags.
From S2P Require Import FwRuleFacts.
From S2P Require Import FwBits.
From S2P Require Import FwMaps.
From S2P Require Import FwMapsFacts.
From S2P Require Import FwIpFacts.
From S2P Require Import Frame.
From S2P Require Import FwConntrack.
From S2P Require Import FwDatapath.
From S2P Require Import FwPipeline.
From S2P Require Import FwModules.
From S2P Require Import FwChain.
From S2P Require Import FwUpdate.
From S2P Require Import FwStages.
From S2P Require Import FwInstall.
From S2P Require Import FwUpdateChain.
From S2P Require Import FwHorus.
From S2P Require Import FwHorusFacts.
From S2P Require Import FwRun.
From S2P Require Import FwFirstMatch.
From S2P Require Import FwCounters.
From S2P Require Import FwConnFacts.
From S2P Require Import FwStream.
#[local] Open Scope Z_scope.
#[local] Open Scope cpp_scope.

Section horus_run.
Context `{Inet} `{Tables ct_k ct_v}.
Context (cfg : config).

(** ** The specification *)
Definition horus_find (head : list ChainRule) (p : packetHeaders) : option (nat * ChainRule) :=
  list_find (fun r => horus_matches p r = true) head.

(** A packet that Horus accepts is labelled and let through. *)
Definition pass_label (mode : Z) (c : ctx) (d : dp) : verdict * dp :=
  let d := set_pkt (with_decision FORWARDING_PASS_LABELING (d_pkt d)) d in
  match ct_label (d_connections d) (d_frame d) (d_pkt d) with
  | None => (RX_DROP, d)
  | Some (status, frame) => deliver mode c (set_frame frame (set_pkt (with_status status (d_pkt d)) d))
  end.

(** [head] are the rules of the table.  A miss goes to the label program, which
    is not there when tracking is disabled. *)
Definition horus_verdict (mode : Z) (head rules : list ChainRule) (dflt : ActionEnum) (c : ctx) (d : dp) : verdict * dp :=
  match parse d with
  | inl r => r
  | inr d =>
      match horus_find head (d_pkt d) with
      | Some (_, r) =>
          if bool_decide (action r = Some DROP) then (RX_DROP, d)
          else if bool_decide (conntrackMode cfg = DISABLED) then (RX_OK, d)
          else pass_label mode c d
      | None =>
          if bool_decide (conntrackMode cfg = DISABLED) then (RX_DROP, d) else label_verdict cfg mode rules dflt c d
      end
  end.

(** ** Running the program *)
Lemma run_call_missing budget c index self slots s next p s' v :
  handle_rx self c s = TailCall next p s' (Return v p s') -> (<[index := p]> slots) !! next = None ->
  run budget c index self slots s = (v, <[index := p]> slots, s').
Proof using Type. intros E Hn. destruct budget; simpl; rewrite E; [done|]. by rewrite Hn. Qed.

Definition horus_agrees (sl' : gmap Z program) (r : verdict * dp) (o : verdict * gmap Z program * dp) : Prop :=
  o.1.1 = r.1 /\ o.1.2 = sl' /\ same_packet r.2 o.2.

(** The label program lets the packet pass. *)
Lemma run_pass mode budget c sl' s d :
  (1 <= budget)%nat -> conntrackMode cfg ≠ DISABLED -> same_packet d s -> p_forwardingDecision (d_pkt s) = FORWARDING_PASS_LABELING ->
  sl' !! Modules.CONNTRACKLABEL = Some (conntrack_label_code cfg) ->
  sl' !! Modules.CONNTRACKTABLEUPDATE = Some (ConntrackTableUpdate mode) ->
  horus_agrees sl'
    (match ct_label (d_connections d) (d_frame d) (d_pkt d) with
     | None => (RX_DROP, d)
     | Some (status, frame) => deliver mode c (set_frame frame (set_pkt (with_status status (d_pkt d)) d))
     end)
    (run budget c Modules.CONNTRACKLABEL (conntrack_label_code cfg) sl' s).
Proof using Type.
  intros Hb Hm (Ef & Ep & Ec) Hfd Hl Hu. destruct budget as [|budget]; [by apply Nat.nle_succ_0 in Hb|].
  assert (handle_rx (conntrack_label_code cfg) c s =
    conntrack_label_rx (conntrackMode_uint8 (conntrackMode cfg)) (conntrack_label_code cfg) s) as Eh by done.
  unfold conntrack_label_rx in Eh. rewrite Ef, Ep, Ec in Eh.
  destruct (ct_label (d_connections d) (d_frame d) (d_pkt d)) as [[status frame]|].
  2:{ rewrite (run_return _ _ _ _ _ _ _ _ _ Eh), insert_id by done. done. }
  set (d1 := set_frame frame (set_pkt (with_status status (d_pkt d)) d)).
  set (s1 := set_frame frame (set_pkt (with_status status (d_pkt d)) s)) in Eh. cbv zeta in Eh.
  assert (same_packet d1 s1) as Hs1 by done.
  assert (p_forwardingDecision (d_pkt s1) = FORWARDING_PASS_LABELING) as Hfd1 by (simpl; by rewrite <- Ep).
  rewrite Hfd1 in Eh. change (FORWARDING_PASS_LABELING =? FORWARDING_PASS_LABELING) with true in Eh. rewrite orb_true_r in Eh.
  assert (handle_rx (conntrack_label_code cfg) c s = call Modules.CONNTRACKTABLEUPDATE (conntrack_label_code cfg) s1) as Eh'.
  { rewrite Eh. by destruct (conntrackMode cfg). }
  rewrite (run_call_same _ _ _ _ _ _ _ _ _ _ Hl Eh' Hu), run_deliver by done.
  destruct (deliver_same mode c d1 s1 Hs1) as [E1 E2]. done.
Qed.

Section on.
Context (head rules : list ChainRule) (Hco : compilable rules).
Context (dflt : ActionEnum) (sl : gmap Z program) (y : layout) (Hen : enforces cfg rules dflt sl y).
Context (hi sf : Z) (t : keysT) (pk by_ : rowsT).
Context (Hon : ly_horus y = Some hi) (Hrange : 5 <= hi <= 6).

Definition horus_self (pk by_ : rowsT) : program := Horus sf (negb (bool_decide (conntrackMode cfg = DISABLED))) t pk by_.
Context (Hslot : sl !! hi = Some (horus_self pk by_)).
Context (Hlabel : conntrackMode cfg = DISABLED -> sl !! Modules.CONNTRACKLABEL = None).
Context (Hlookup : forall p, wf_pkt p ->
  h_lookup t (packet_key sf p) = (fun x => (h_action (horus_value x.2), id x.2)) <$> horus_find head p).
Context (Hids : forall r, r ∈ head -> id r < 2048).

(** The programs after a packet: one counter of the table's, or of the chain's,
    has changed. *)
Definition horus_counted (c : ctx) (r : ChainRule) : gmap Z program :=
  <[hi := horus_self (pc_add pk (c_cpu c) (id r) 1) (pc_add by_ (c_cpu c) (id r) (c_len c))]> sl.
Definition horus_slots (c : ctx) (d : dp) : gmap Z program :=
  match parse d with
  | inl _ => sl
  | inr d =>
      match horus_find head (d_pkt d) with
      | Some (_, r) => horus_counted c r
      | None => if bool_decide (conntrackMode cfg = DISABLED) then sl
                else counted_as rules dflt sl y c (hit_after_label cfg rules d)
      end
  end.

(** What the handler does. *)
Lemma horus_hit c s i r :
  wf_pkt (d_pkt s) -> horus_find head (d_pkt s) = Some (i, r) ->
  handle_rx (horus_self pk by_) c s =
    let self := horus_self (pc_add pk (c_cpu c) (id r) 1) (pc_add by_ (c_cpu c) (id r) (c_len c)) in
    if bool_decide (action r = Some DROP) then Return RX_DROP self s
    else if bool_decide (conntrackMode cfg = DISABLED) then Return RX_OK self s
    else call Modules.CONNTRACKLABEL self (set_pkt (with_decision FORWARDING_PASS_LABELING (d_pkt s)) s).
Proof using Hids Hlookup.
  intros Hp Hf. cbn [handle_rx horus_self]. unfold horus_rx. fold (packet_key sf (d_pkt s)). rewrite (Hlookup _ Hp), Hf.
  cbn [fmap option_fmap option_map snd]. unfold horus_find in Hf. pose proof Hf as (Hi & _ & _)%list_find_Some.
  apply list_elem_of_lookup_2, Hids in Hi.
  change HorusConst.MAX_RULE_SIZE_FOR_HORUS with 2048. rewrite (proj2 (Z.ltb_lt _ _)) by done.
  unfold horus_value. cbn [h_action]. destruct (bool_decide (action r = Some DROP)); [done|].
  unfold horus_self. by destruct (bool_decide (conntrackMode cfg = DISABLED)).
Qed.
Lemma horus_miss c s :
  wf_pkt (d_pkt s) -> horus_find head (d_pkt s) = None ->
  handle_rx (horus_self pk by_) c s = call Modules.CONNTRACKLABEL (horus_self pk by_) s.
Proof using Hlookup.
  intros Hp Hf. cbn [handle_rx horus_self]. unfold horus_rx. fold (packet_key sf (d_pkt s)). by rewrite (Hlookup _ Hp), Hf.
Qed.

(** From the parser on. *)
Lemma receive_horus c d :
  wf_dp d ->
  exists o, receive 32 c sl d = Some o /\
    horus_agrees (horus_slots c d) (horus_verdict (ly_mode y) head rules dflt c d) o.
Proof using Hco Hen Hon Hrange Hslot Hlabel Hlookup Hids.
  intros Hwf. unfold receive, horus_verdict, horus_slots. pose proof (en_parser _ _ _ _ _ Hen) as Hpa. rewrite Hon in Hpa.
  rewrite Hpa. eexists. split; [done|]. pose proof (parse_wf d Hwf) as Hpw.
  set (self := Parser _ _ _) in *.
  assert (handle_rx self c d = parser_rx (nr_of rules) (Some hi) (negb (bool_decide (conntrackMode cfg = DISABLED))) self d)
    as Eh by done.
  unfold parser_rx in Eh. destruct (parse d) as [[v d']|d'] eqn:Epar.
  { rewrite (run_return _ _ _ _ _ _ _ _ _ Eh), insert_id by done. done. }
  destruct Hpw as [Hwf' Hfd]. set (s := set_bits _ d') in Eh.
  assert (same_packet d' s) as Hsame by done.
  assert (all_candidates rules s) as Hh by (apply (init_candidates rules Hco), Hwf').
  rewrite (run_call_same _ _ _ _ _ _ _ _ _ _ Hpa Eh Hslot). assert (wf_pkt (d_pkt s)) as Hps by apply Hwf'.
  destruct (horus_find head (d_pkt d')) as [[i r]|] eqn:Ef.
  - pose proof (horus_hit c s i r Hps Ef) as Ehit. cbv zeta in Ehit.
    destruct (bool_decide (action r = Some DROP)); [by rewrite (run_return _ _ _ _ _ _ _ _ _ Ehit)|].
    destruct (bool_decide (conntrackMode cfg = DISABLED)) eqn:Em; [by rewrite (run_return _ _ _ _ _ _ _ _ _ Ehit)|].
    apply bool_decide_eq_false in Em.
    assert (forall k, 0 <= k <= 4 -> horus_counted c r !! k = sl !! k) as Hk.
    { intros k Hk. unfold horus_counted. by rewrite lookup_insert_ne by lia. }
    pose proof (en_label _ _ _ _ _ Hen Em) as Hl. rewrite <- (Hk Modules.CONNTRACKLABEL) in Hl by (vm_compute; intuition congruence).
    pose proof (cs_update _ _ _ _ _ _ _ _ _ _ _ _ _ (en_chain _ _ _ _ _ Hen)) as Hu.
    rewrite <- (Hk Modules.CONNTRACKTABLEUPDATE) in Hu by (vm_compute; intuition congruence).
    rewrite (run_call _ _ _ _ _ _ _ _ _ _ _ Ehit Hl). apply run_pass; try done. lia.
  - pose proof (horus_miss c s Hps Ef) as Emiss. destruct (bool_decide (conntrackMode cfg = DISABLED)) eqn:Em.
    + apply bool_decide_eq_true in Em. unfold call in Emiss.
      rewrite (run_call_missing _ _ _ _ _ _ _ _ _ _ Emiss), insert_id by (try rewrite insert_id; by auto). done.
    + apply bool_decide_eq_false in Em.
      rewrite (run_call_same _ _ _ _ _ _ _ _ _ _ Hslot Emiss (en_label _ _ _ _ _ Hen Em)).
      apply (agrees_from_label cfg rules Hco dflt sl y Hen 30 c d' s); try done. lia.
Qed.
End on.

(** ** The state *)
(** The rules of the table, when the optimisation is enabled. *)
Definition chain_head (rules : list ChainRule) : list ChainRule := if horus_enabled cfg then horus_head rules else [].

(** The verdict of a direction that has been compiled. *)
Definition guarded_verdict (rules : list ChainRule) (dflt : ActionEnum) (c : ctx) (d : dp) : verdict * dp :=
  match chain_head rules with
  | [] => firewall_verdict cfg (cfg_mode cfg) rules dflt c d
  | head => horus_verdict (cfg_mode cfg) head rules dflt c d
  end.

Record horus_ready (rules : list ChainRule) (s : side) : Prop := {
  hr_on : horus_runtime_enabled s = nonempty (chain_head rules);
  hr_table : chain_head rules ≠ [] -> exists t pk by_,
    slots s !! horus_index s =
      Some (Horus (head_fields rules) (negb (bool_decide (conntrackMode cfg = DISABLED))) t pk by_) /\
    forall p, wf_pkt p ->
      h_lookup t (packet_key (head_fields rules) p) =
      (fun x => (h_action (horus_value x.2), id x.2)) <$> horus_find (chain_head rules) p;
}.

(** A direction that enforces the rules, its Horus table included. *)
Definition guarding (rules : list ChainRule) (s : side) : Prop := enforcing cfg rules s /\ horus_ready rules s.

Lemma chain_head_prefix rules : chain_head rules `prefix_of` rules.
Proof using Type. unfold chain_head. destruct (horus_enabled cfg); [apply horus_head_prefix|apply prefix_nil]. Qed.
Lemma chain_head_length rules : (length (chain_head rules) <= 2048)%nat.
Proof using Type.
  unfold chain_head, horus_head. destruct (horus_enabled cfg); [|simpl; lia]. destruct rules; [simpl; lia|].
  destruct (horus_skips _); [simpl; lia|]. rewrite length_take. lia.
Qed.
Lemma chain_head_ids rules r : ids_ok rules -> r ∈ chain_head rules -> id r < 2048.
Proof using Type.
  intros Hids (i & Hi)%list_elem_of_lookup. pose proof (chain_head_length rules) as Hl.
  pose proof (lookup_lt_Some _ _ _ Hi) as Hlt. pose proof (prefix_lookup_Some _ _ _ _ Hi (chain_head_prefix rules)) as Hr.
  rewrite (Hids _ _ Hr). lia.
Qed.

Lemma horus_ready_recount rules s y sl' : horus_ready rules s -> recount y (slots s) sl' -> horus_ready rules (set_slots sl' s).
Proof using Type.
  intros [Hon Ht] Hr. split; [done|]. intros Hne. destruct (Ht Hne) as (t & pk & by_ & Hs & Hl).
  destruct (recount_Some _ _ _ _ _ Hr Hs) as (q & Hq & Hrq). unfold recounted in Hrq. cbn [counter_tables] in Hrq.
  destruct (counter_tables q) as [[pk' by']|]; [|subst; by exists t, pk, by_]. destruct Hrq as (-> & _). by exists t, pk', by'.
Qed.

Lemma horus_verdict_mode m m' head rules dflt c d :
  (m =? 0) = (m' =? 0) -> horus_verdict m head rules dflt c d = horus_verdict m' head rules dflt c d.
Proof using Type.
  intros E. unfold horus_verdict, pass_label, label_verdict. destruct (parse d) as [|d']; [done|].
  destruct (horus_find _ _) as [[i r]|]; repeat (destruct (bool_decide _); [done|]); cbv zeta.
  - destruct (ct_label _ _ _) as [[st fr]|]; [by apply deliver_mode|done].
  - destruct (ct_label _ _ _) as [[st fr]|]; [|done]. destruct (_ && _); [by apply deliver_mode|by apply finish_mode].
Qed.

Lemma horus_slots_recount rules dflt sl y hi sf t pk by_ head c d :
  enforces cfg rules dflt sl y -> 5 <= hi <= 6 -> sl !! hi = Some (horus_self sf t pk by_) ->
  recount y sl (horus_slots head rules dflt sl y hi sf t pk by_ c d).
Proof using Type.
  intros Hen Hhi Hs. unfold horus_slots. destruct (parse d) as [|d']; [apply recount_refl|].
  destruct (horus_find _ _) as [[i r]|].
  - unfold horus_counted. eapply recount_insert; [|exact Hs|].
    + unfold counter_indices, Modules.HORUS_INGRESS, Modules.HORUS_INGRESS_SWAP. rewrite !elem_of_cons. lia.
    + simpl. split; [done|]. by rewrite !pc_add_size.
  - destruct (bool_decide _); [apply recount_refl|by apply (counted_recount cfg)].
Qed.

(** One packet. *)
Lemma receive_guarded rules s a connections :
  compilable rules -> guarding rules s -> wf_arrival a ->
  exists sl' d', receive 32 (a_ctx a) (slots s) (arrives a connections) =
      Some ((guarded_verdict rules (defaultAction s) (a_ctx a) (arrives a connections)).1, sl', d') /\
    same_packet (guarded_verdict rules (defaultAction s) (a_ctx a) (arrives a connections)).2 d' /\
    guarding rules (set_slots sl' s).
Proof using Type.
  intros Hco [Hen Hho] Ha. unfold guarded_verdict. destruct (chain_head rules) as [|r0 head] eqn:Ehead.
  { pose proof (hr_on _ _ Hho) as Hon. rewrite Ehead in Hon.
    destruct (receive_one cfg rules s a connections Hco Hen Hon Ha) as (sl' & d' & Hr & Hsame & Hen').
    exists sl', d'. split; [done|]. split; [done|]. split; [done|]. split; [by rewrite Ehead|]. by rewrite Ehead. }
  rewrite <- Ehead. pose proof (hr_on _ _ Hho) as Hon. rewrite Ehead in Hon. cbn [nonempty] in Hon.
  destruct (hr_table _ _ Hho) as (t & pk & by_ & Hs & Hl); [by rewrite Ehead|].
  apply enforcing_ready in Hen as [y Hr]. destruct Hr as [Hg He Hy Hact]. rewrite Hon in Hy.
  assert (5 <= horus_index s <= 6) as Hhi.
  { unfold horus_index. destruct (horus_swap s); vm_compute; intuition congruence. }
  assert (conntrackMode cfg = DISABLED -> slots s !! Modules.CONNTRACKLABEL = None) as Hlab.
  { intros Em. pose proof (gd_label _ s Hg) as Hl'. rewrite bool_decide_eq_true_2 in Hl' by done. apply Hl'. }
  assert ((ly_mode y =? 0) = (cfg_mode cfg =? 0)) as Em.
  { rewrite (en_mode _ _ _ _ _ He). unfold cfg_mode. by destruct (conntrackMode cfg). }
  destruct Ha as (Hf & Hp & Hb).
  destruct (receive_horus (chain_head rules) rules Hco (defaultAction s) (slots s) y He (horus_index s) (head_fields rules) t pk by_
    Hy Hhi Hs Hlab Hl (fun r => chain_head_ids rules r (wfr_ids rules (co_wf rules Hco))) (a_ctx a) (arrives a connections))
    as ([[v sl'] d'] & Hrec & (Ev & Esl & Hsame)); [by split|]. simpl in Ev, Esl, Hsame.
  rewrite (horus_verdict_mode _ _ _ _ _ _ _ Em) in Ev, Hsame.
  exists sl', d'. split; [by rewrite Hrec, Ev|]. split; [done|]. subst sl'.
  pose proof (horus_slots_recount rules (defaultAction s) (slots s) y (horus_index s) (head_fields rules) t pk by_ (chain_head rules)
    (a_ctx a) (arrives a connections) He Hhi Hs) as Hrc.
  split; [|by eapply horus_ready_recount]. apply (enforcing_recount cfg rules s y); try done. by rewrite Hon.
Qed.

(** A stream of packets. *)
Lemma guarded_stream rules s l connections :
  compilable rules -> guarding rules s -> Forall wf_arrival l ->
  exists sl', receive_all l (slots s) connections =
      Some ((verdicts (guarded_verdict rules (defaultAction s)) l connections).1, sl',
            (verdicts (guarded_verdict rules (defaultAction s)) l connections).2) /\
    guarding rules (set_slots sl' s).
Proof using Type.
  intros Hco Hg Hl.
  apply (stream_run (fun sl => guarding rules (set_slots sl s))); [|by destruct s|done].
  intros sl a conn Hgs Ha. exact (receive_guarded rules (set_slots sl s) a conn Hco Hgs Ha).
Qed.

(** ** After an update of the chain *)
Lemma entries_nonempty key0 l : l ≠ [] -> entries key0 l [] ≠ [].
Proof using Type.
  destruct l as [|r l]; [done|]. intros _ E. pose proof (find_entries key0 (r :: l) [] (horus_entry r key0)) as Hf.
  rewrite E in Hf. cbn [StdMap.find list_find] in Hf. by rewrite decide_True in Hf.
Qed.

Lemma horus_of_run key0 s rules : (forall r, r ∈ rules -> wf_rule r) -> horus_of key0 s rules = Ok (entries key0 (horus_head rules) []).
Proof using Type.
  intros Hwf. unfold horus_of. rewrite horusFromRulesToMap_run.
  - rewrite horus_head_snoc; [done|]. done.
  - intros r [Hr| ->%list_elem_of_singleton]%elem_of_app; [by apply Hwf|apply default_rule_wf].
Qed.

Lemma horus_installed_ready key0 rules s :
  wf_rules rules -> horus_installed cfg key0 rules s -> horus_ready rules s.
Proof using Type.
  intros Hwf (m & Hm & Hon & Hslot). rewrite horus_of_run in Hm by apply Hwf. injection Hm as <-.
  assert (nonempty (entries key0 (horus_head rules) []) = nonempty (horus_head rules)) as Ene.
  { destruct (horus_head rules) as [|r l] eqn:E; [done|]. pose proof (entries_nonempty key0 (r :: l)) as Hne.
    destruct (entries key0 (r :: l) []); [by destruct Hne|done]. }
  rewrite Ene in Hon.
  assert (horus_runtime_enabled s = nonempty (chain_head rules)) as Hon'.
  { rewrite Hon. unfold chain_head. by destruct (horus_enabled cfg). }
  split; [done|]. intros Hne. rewrite Hon' in Hslot.
  assert (chain_head rules = horus_head rules) as Eh.
  { unfold chain_head in *. by destruct (horus_enabled cfg). }
  destruct Hslot as (t & pk & by_ & Ht & Hs); [by destruct (chain_head rules)|]. exists t, pk, by_.
  assert (forall r, r ∈ horus_head rules -> wf_rule r /\ horus_fields_of r = head_fields rules) as Hl.
  { intros r (Hr & _ & Hf)%horus_head_elem. split; [by apply Hwf|done]. }
  assert (horus_fields (entries key0 (horus_head rules) []) = head_fields rules) as Ef.
  { rewrite Eh in Hne. pose proof (entries_nonempty key0 _ Hne) as Hne'.
    destruct (entries key0 (horus_head rules) []) as [|[k v] m] eqn:Em; [done|]. simpl.
    assert ((k, v) ∈ entries key0 (horus_head rules) []) as [[]%elem_of_nil|(r & Hr & [= -> _])]%entries_elem.
    { rewrite Em. by left. }
    by apply Hl. }
  rewrite Ef in Hs. split; [done|]. intros p Hp. rewrite Eh. apply (horus_table_lookup key0); try done.
  rewrite <- Eh. pose proof (chain_head_length rules). lia.
Qed.

Lemma updateChain_guards key0 s rules :
  good cfg s -> rules_ s = Some <$> rules -> compilable rules ->
  exists s', updateChain cfg key0 s = (Ok tt, s') /\ guarding rules s' /\ same_chain s s'.
Proof using Type.
  intros Hg Hr Hco. destruct (updateChain_run cfg key0 s rules Hg Hr Hco) as (s' & Hu & Hen & Hho & Hs).
  exists s'. split; [done|]. split; [|done]. split; [done|]. by apply (horus_installed_ready key0); [apply Hco|].
Qed.

(** ** The table against the rules *)
(** A rule whose conditions are all in the packed key. *)
Record horus_exact (r : ChainRule) : Prop := {
  he_conntrack : conntrack r = None;
  he_flags : tcpFlags r = None;
  he_src : forall a, ipSrc r = Some a -> netmask a = 32;
  he_dst : forall a, ipDst r = Some a -> netmask a = 32;
  he_ports : srcPort r ≠ None \/ dstPort r ≠ None -> l4Proto r = Some IPPROTO_TCP \/ l4Proto r = Some IPPROTO_UDP;
}.

Lemma prefix_match_32 a p : 0 <= a < 2 ^ 32 -> 0 <= p < 2 ^ 32 -> prefix_match 32 a p = (a =? p).
Proof using Type.
  intros Ha Hp. unfold prefix_match. change (2 ^ (32 - 32)) with 1. rewrite !Z.div_1_r. apply Bool.eq_iff_eq_true.
  rewrite !Z.eqb_eq. split; [|by intros ->].
  destruct (be32_bytes a Ha) as (a0 & a1 & a2 & a3 & ? & ? & ? & ? & -> & ->).
  destruct (be32_bytes p Hp) as (p0 & p1 & p2 & p3 & ? & ? & ? & ? & -> & ->). lia.
Qed.

Lemma exact_address r p type (Hwf : wf_rule r) :
  (forall a, addr_of type r = Some a -> netmask a = 32 /\ 0 <= ip a < 2 ^ 32) -> 0 <= p < 2 ^ 32 ->
  address_accepts type p r = agrees_on (exact_addr type r) p.
Proof using Type.
  intros Ha Hp. unfold address_accepts, no_field_or, prefix_of, exact_addr. destruct (addr_of type r) as [a|]; [|done].
  destruct (Ha a eq_refl) as [Hn Hr]. simpl. rewrite Hn. simpl. by apply prefix_match_32.
Qed.

Lemma horus_matches_accepts r p :
  wf_rule r -> wf_pkt p -> horus_exact r -> horus_matches p r = rule_accepts p r.
Proof using Type.
  intros Hr Hp He. unfold rule_accepts, all_fields, horus_matches. cbn [forallb field_accepts].
  rewrite (exact_address r (p_srcIp p) SOURCE_TYPE), (exact_address r (p_dstIp p) DESTINATION_TYPE); try done; try apply Hp.
  2:{ intros a Ha. change (addr_of DESTINATION_TYPE r) with (ipDst r) in Ha. split; [by apply (he_dst r He)|by apply (wf_dst r Hr)]. }
  2:{ intros a Ha. change (addr_of SOURCE_TYPE r) with (ipSrc r) in Ha. split; [by apply (he_src r He)|by apply (wf_src r Hr)]. }
  unfold no_field_or, status_of. rewrite (he_conntrack r He), (he_flags r He). cbn [fmap option_fmap option_map].
  rewrite orb_true_r, andb_true_r, andb_true_l.
  assert (forall (o : option Z), o ≠ None -> (o = srcPort r \/ o = dstPort r) ->
    agrees_on (l4Proto r) (p_l4proto p) = true -> tcp_or_udp p = true) as Htu.
  { intros o Ho Hor. assert (srcPort r ≠ None \/ dstPort r ≠ None) as Hn by (destruct Hor as [<-|<-]; auto).
    unfold tcp_or_udp. destruct (he_ports r He Hn) as [-> | ->]; cbn [agrees_on]; intros E%Z.eqb_eq; rewrite <- E; done. }
  unfold agrees_on at 3. destruct (agrees_on (exact_addr SOURCE_TYPE r) (p_srcIp p)), (agrees_on (exact_addr DESTINATION_TYPE r) (p_dstIp p)); try done.
  cbn [andb]. change (match l4Proto r with Some v => v =? p_l4proto p | None => true end) with (agrees_on (l4Proto r) (p_l4proto p)).
  destruct (agrees_on (l4Proto r) (p_l4proto p)) eqn:E; [|done]. cbn [andb].
  assert (forall (o : option Z) x, (o = srcPort r \/ o = dstPort r) ->
    agrees_on o x = negb (tcp_or_udp p) || match o with Some a => a =? x | None => true end) as Hport.
  { intros [v|] x Ho; simpl; [|by rewrite orb_true_r]. by rewrite (Htu (Some v)) by done. }
  rewrite (Hport (srcPort r)), (Hport (dstPort r)) by auto. done.
Qed.

(** Labelling leaves the fields of the key alone. *)
Lemma horus_matches_status st p r : horus_matches (with_status st p) r = horus_matches p r.
Proof using Type. done. Qed.

Lemma horus_find_first rules p p' i r :
  (forall x, x ∈ chain_head rules -> wf_rule x /\ horus_exact x) -> wf_pkt p' ->
  (forall x, horus_matches p' x = horus_matches p x) ->
  horus_find (chain_head rules) p = Some (i, r) -> list_find (fun x => rule_accepts p' x = true) rules = Some (i, r).
Proof using Type.
  intros Hx Hp' Epp Hf. unfold horus_find in Hf. apply list_find_Some in Hf as (Hi & Hm & Hfirst).
  destruct (chain_head_prefix rules) as [rest Erest].
  assert (forall j x, chain_head rules !! j = Some x -> rule_accepts p' x = horus_matches p x) as Hacc.
  { intros j x Hj%list_elem_of_lookup_2. destruct (Hx x Hj) as [Hw He]. rewrite <- Epp. symmetry. by apply horus_matches_accepts. }
  apply list_find_Some. split; [rewrite Erest; by apply lookup_app_l_Some|].
  split; [by rewrite (Hacc i)|]. intros j x Hj Hlt. rewrite Erest in Hj.
  rewrite lookup_app_l in Hj by (apply lookup_lt_Some in Hi; lia). rewrite (Hacc j x Hj). by apply (Hfirst j).
Qed.

(** The decision in a packet does not matter to the connections. *)
Definition decided (x : Z) (r : connT * packetHeaders) : connT * packetHeaders := (r.1, with_decision x r.2).

Lemma update_tcp_decision ts conn p x : update_tcp ts conn (with_decision x p) = decided x (update_tcp ts conn p).
Proof using Type.
  unfold update_tcp. change (p_flags (with_decision x p)) with (p_flags p). change (ct_key (with_decision x p)) with (ct_key p).
  destruct (has_flag _ _); [done|]. destruct (ct_key p) as [[k ri] rp].
  change (tcp_update_miss ts (with_decision x p) conn) with (tcp_update_miss ts p conn).
  destruct (lru_lookup conn k) as [v|]; [|done].
  change (tcp_update_forward ts (with_decision x p) v) with (tcp_update_forward ts p v).
  change (tcp_update_reverse ts (with_decision x p) v) with (tcp_update_reverse ts p v). cbv zeta.
  by destruct (match ct_direction v ri rp with Forward => _ | Reverse => _ | Miss => _ end).
Qed.
Lemma update_udp_decision ts conn p x : update_udp ts conn (with_decision x p) = decided x (update_udp ts conn p).
Proof using Type.
  unfold update_udp. change (ct_key (with_decision x p)) with (ct_key p). destruct (ct_key p) as [[k ri] rp].
  destruct (lru_lookup conn k) as [v|]; [|done]. cbv zeta. destruct (ct_direction v ri rp); [done| |done]. by destruct (_ =? CT.NEW).
Qed.
Lemma update_icmp_decision ts conn frame p x :
  update_icmp ts conn frame (with_decision x p) = decided x <$> update_icmp ts conn frame p.
Proof using Type.
  unfold update_icmp. change (ct_key (with_decision x p)) with (ct_key p). destruct (beyond _ _); [done|].
  destruct (ct_key p) as [[k ri] rp]. cbv zeta. destruct (_ =? ICMP_ECHO); [done|]. by destruct (_ =? ICMP_ECHOREPLY).
Qed.
Lemma ct_update_decision ts conn frame p x :
  ct_update ts conn frame (with_decision x p) = decided x <$> ct_update ts conn frame p.
Proof using Type.
  unfold ct_update. change (p_connStatus (with_decision x p)) with (p_connStatus p).
  change (p_l4proto (with_decision x p)) with (p_l4proto p).
  destruct (_ =? CT.INVALID); [done|]. destruct (_ =? IPPROTO_TCP); [by rewrite update_tcp_decision|].
  destruct (_ =? IPPROTO_UDP); [by rewrite update_udp_decision|]. destruct (_ =? IPPROTO_ICMP); [apply update_icmp_decision|done].
Qed.

Lemma deliver_decision m c d d' x :
  d_frame d' = d_frame d -> d_connections d' = d_connections d -> d_pkt d' = with_decision x (d_pkt d) ->
  (deliver m c d').1 = (deliver m c d).1 /\ d_connections (deliver m c d').2 = d_connections (deliver m c d).2.
Proof using Type.
  intros Ef Ec Ep. unfold deliver. destruct (m =? 0); [by split|]. rewrite Ef, Ec, Ep, ct_update_decision.
  by destruct (ct_update _ _ _ _) as [[conn pkt]|].
Qed.

(** The packets that Horus drops and the chain would let through: those of an
    established connection, in automatic mode, that a rule of the table drops. *)
Definition horus_cuts (rules : list ChainRule) (d : dp) : Prop :=
  conntrackMode cfg = AUTOMATIC /\
  exists d' frame i r, parse d = inr d' /\
    ct_label (d_connections d') (d_frame d') (d_pkt d') = Some (CT.ESTABLISHED, frame) /\
    horus_find (chain_head rules) (d_pkt d') = Some (i, r) /\ action r = Some DROP.

Lemma horus_agrees_rules rules dflt c d :
  conntrackMode cfg ≠ DISABLED -> wf_rules rules -> (forall r, r ∈ chain_head rules -> horus_exact r) -> wf_dp d ->
  let h := guarded_verdict rules dflt c d in
  let f := firewall_verdict cfg (cfg_mode cfg) rules dflt c d in
  (h.1 = f.1 /\ d_connections h.2 = d_connections f.2) \/ (horus_cuts rules d /\ h.1 = RX_DROP).
Proof using Type.
  intros Hm Hwf Hex Hd h f. unfold h, guarded_verdict. destruct (chain_head rules) as [|r0 l] eqn:Eh; [by left|].
  rewrite <- Eh in *. unfold f, horus_verdict, firewall_verdict. rewrite !(bool_decide_eq_false_2 (conntrackMode cfg = DISABLED)) by done.
  pose proof (parse_wf d Hd) as Hpw. destruct (parse d) as [r|d'] eqn:Ep; [by left|]. destruct Hpw as [Hd' _].
  destruct (horus_find (chain_head rules) (d_pkt d')) as [[i r]|] eqn:Ef; [|by left].
  assert (forall x, x ∈ chain_head rules -> wf_rule x /\ horus_exact x) as Hx.
  { intros x Hin. split; [|by apply Hex]. apply Hwf. destruct (chain_head_prefix rules) as [rest ->]. apply elem_of_app. by left. }
  assert (wf_rule r) as Hwr.
  { apply Hx. unfold horus_find in Ef. apply list_find_Some in Ef as (Hi & _). by eapply list_elem_of_lookup_2. }
  unfold label_verdict, pass_label. cbv zeta.
  assert (ct_label (d_connections (set_pkt (with_decision FORWARDING_PASS_LABELING (d_pkt d')) d'))
    (d_frame (set_pkt (with_decision FORWARDING_PASS_LABELING (d_pkt d')) d'))
    (d_pkt (set_pkt (with_decision FORWARDING_PASS_LABELING (d_pkt d')) d')) = ct_label (d_connections d') (d_frame d') (d_pkt d')) as -> by done.
  destruct (ct_label (d_connections d') (d_frame d') (d_pkt d')) as [[st fr]|] eqn:El.
  2:{ left. by destruct (bool_decide (action r = Some DROP)). }
  destruct (ct_label_wf _ _ _ _ _ (wd_frame _ Hd') El) as [Hst _].
  set (d1 := set_frame fr (set_pkt (with_status st (d_pkt d')) d')).
  assert (chain_action rules dflt (d_pkt d1) = default DROP (action r)) as Ea.
  { unfold chain_action. rewrite (horus_find_first rules (d_pkt d') (d_pkt d1) i r); [done|done| |done|done].
    unfold d1. simpl. destruct (wd_pkt _ Hd'). by split. }
  destruct (wf_action r Hwr) as [act Hact]. rewrite Hact in Ea |- *. change (default DROP (Some act)) with act in Ea. rewrite Ea.
  destruct (bool_decide_reflect (Some act = Some DROP)) as [Ed|Ed].
  - injection Ed as ->. destruct (bool_decide_reflect (conntrackMode cfg = AUTOMATIC)) as [Hau|]; cbn [andb]; [|by left].
    destruct (Z.eqb_spec st CT.ESTABLISHED) as [->|]; [|by left]. right. split; [|done]. split; [done|].
    exists d', fr, i, r. done.
  - left. assert (forall m, finish m c act d1 = deliver m c d1) as Hfin by (intros m; unfold finish; by destruct act).
    rewrite Hfin. assert (forall b : bool, (if b then deliver (cfg_mode cfg) c d1 else deliver (cfg_mode cfg) c d1) = deliver (cfg_mode cfg) c d1) as -> by (by intros []).
    by apply (deliver_decision _ _ _ _ FORWARDING_PASS_LABELING).
Qed.

(** The connections stay well formed. *)
Lemma label_verdict_ct_ok m rules dflt c d : ct_ok (d_connections d) -> ct_ok (d_connections (label_verdict cfg m rules dflt c d).2).
Proof using Type.
  intros Hok. unfold label_verdict. destruct (ct_label _ _ _) as [[st fr]|]; [|done]. cbv zeta.
  destruct (_ && _); [by apply deliver_ct_ok|by apply finish_ct_ok].
Qed.
Lemma guarded_ct_ok rules dflt c d :
  ct_ok (d_connections d) -> ct_ok (d_connections (guarded_verdict rules dflt c d).2).
Proof using Type.
  intros Hok. unfold guarded_verdict. destruct (chain_head rules) as [|r0 l]; [by apply verdict_ct_ok|].
  unfold horus_verdict. pose proof (parse_connections d) as Hp. destruct (parse d) as [r|d']; [by rewrite Hp|].
  rewrite <- Hp in Hok. destruct (horus_find _ _) as [[i r]|]; repeat (destruct (bool_decide _); [done|]).
  - unfold pass_label. cbv zeta. destruct (ct_label _ _ _) as [[st fr]|]; [by apply deliver_ct_ok|done].
  - by apply label_verdict_ct_ok.
Qed.
End horus_run.
