(* ===== verification/FwOps.v ===== *)
(** pcn-firewall, the operations on a chain's rules: adding, inserting and
    deleting a rule shift the other rules and their statistics, renumber them,
    collect the counters, and compile the chain again. *)
From Stdlib Require Import ZArith Lia.
From stdpp Require Import base gmap sets list strings numbers.
From S2P Require Import Prelude.
From S2P Require Import Vec.
From S2P Require Import Bpf.
From S2P Require Import NetUtils.
From S2P Require Import FwRule.
From S2P Require Import FwFlags.
From S2P Require Import FwRuleFacts.
From S2P Require Import FwBits.
From S2P Require Import FwMaps.
From S2P Require Import FwMapsFacts.
From S2P Require Import FwIpFacts.
From S2P Require Import Frame.
From S2P Require Import FwConntrack.
From S2P Require Import FwDatapath.
From S2P Require Import FwPipeline.
From S2P Require Import FwModules.
From S2P Require Import FwChain.
From S2P Require Import FwUpdate.
From S2P Require Import FwStages.
From S2P Require Import FwInstall.
From S2P Require Import FwUpdateChain.
From S2P Require Import FwHorus.
From S2P Require Import FwRun.
From S2P Require Import FwFirstMatch.
From S2P Require Import FwCounters.
From S2P Require Import FwConnFacts.
From S2P Require Import FwStream.
From S2P Require Import FwHorusFacts.
From S2P Require Import FwHorusRun.
#[local] Open Scope Z_scope.
#[local] Open Scope cpp_scope.

(** * The chain object *)
Section ops.
Context `{Inet} `{Tables ct_k ct_v}.
Context (cfg : config) (key0 : HorusRule).

(** The chain stores [rules] and enforces [old]: they differ during a batch. *)
Record stored_ok (old rules : list ChainRule) (s : side) : Prop := {
  so_guarding : guarding cfg old s;
  so_rules : rules_ s = Some <$> rules;
  so_ids : ids_ok rules;
  so_counters : (length (counters_ s) <= length rules)%nat;
  so_room : (length rules <= 2048)%nat;
}.

Lemma good_set_rules rs cs s : good cfg s -> good cfg (set_counters cs (set_rules rs s)).
Proof using Type. intros Hg. destruct Hg. by split. Qed.
Lemma guarding_set_rules old rs cs s : guarding cfg old s -> guarding cfg old (set_counters cs (set_rules rs s)).
Proof using Type. intros [[Hg Hy] [Ho Ht]]. split; [|by split]. split; [by apply good_set_rules|done]. Qed.
Lemma guarding_good old s : guarding cfg old s -> good cfg s.
Proof using Type. by intros [[]]. Qed.

(** The statistics after they have been collected. *)
Definition collected_stats (s : side) (cs : list ChainStats) : Prop :=
  exists y, programs s !! 15%nat = Some (Some (new_module KActionLookup (ly_action_index y))) /\
    cs = all_stats s (ly_action_index y) (length (rules_ s)).

Lemma collect_run old rules s :
  stored_ok old rules s ->
  exists l s' cs, getStatsList s = (Ok l, s') /\ collected_stats s cs /\ length cs = length rules /\
    counters_ s' = Some <$> cs /\ guarding cfg old s' /\ rules_ s' = rules_ s /\
    is_single_op_on_chain s' = is_single_op_on_chain s /\ defaultAction s' = defaultAction s.
Proof using Type.
  intros [[Hen Hho] Hrules Hids Hcs Hroom]. apply enforcing_ready in Hen as Hy. destruct Hy as [y Hy].
  destruct (getStatsList_run cfg old rules s y Hy Hrules Hids Hroom Hcs) as (l & sl' & Hg & _ & Hc).
  eexists l, _, (all_stats s (ly_action_index y) (length rules)). split; [done|].
  split; [exists y; split; [apply Hy|by rewrite Hrules, length_fmap]|].
  split; [unfold all_stats; by rewrite length_fmap, length_seq|]. split; [done|]. split; [|done].
  destruct (ready_recount cfg old s y sl' Hy (proj1 Hc)) as (y' & Hy' & _).
  split; [apply enforcing_ready; exists y'; by apply ready_counters|].
  destruct (horus_ready_recount cfg old s y sl' Hho (proj1 Hc)) as [Ho Ht]. by split.
Qed.

(** The end of every operation. *)
Lemma commit_run old rules cs s :
  guarding cfg old s -> ids_ok rules -> (length cs <= length rules)%nat -> (length rules <= 2048)%nat ->
  (is_single_op_on_chain s = true -> compilable rules) ->
  exists s', update_if_single cfg key0 (set_counters cs (set_rules (Some <$> rules) s)) = (Ok tt, s') /\
    stored_ok (if is_single_op_on_chain s then rules else old) rules s' /\ counters_ s' = cs /\
    is_single_op_on_chain s' = is_single_op_on_chain s /\ defaultAction s' = defaultAction s.
Proof using Type.
  intros Hen Hids Hcs Hroom Hco. set (s1 := set_counters cs (set_rules (Some <$> rules) s)).
  pose proof (guarding_set_rules old (Some <$> rules) cs s Hen) as Hen1.
  unfold update_if_single, bind, get. change (is_single_op_on_chain s1) with (is_single_op_on_chain s).
  destruct (is_single_op_on_chain s) eqn:Es; [|by exists s1].
  destruct (updateChain_guards cfg key0 s1 rules (guarding_good _ _ Hen1) eq_refl (Hco eq_refl))
    as (s' & Hu & Hen' & (En & Ed & Er & Ec & Esg)).
  exists s'. split; [done|]. split; [|by rewrite Ec, Esg, Ed].
  split; [done|by rewrite Er|done|by rewrite Ec|done].
Qed.

(** ** Identifiers *)
Lemma ids_snoc rules r : ids_ok rules -> ids_ok (rules ++ [set_id (Z.of_nat (length rules)) r]).
Proof using Type.
  intros Hids j x [Hx|[Hl Hx]]%lookup_app_Some; [by apply Hids|].
  apply list_lookup_singleton_Some in Hx as [E <-]. simpl. lia.
Qed.
Lemma ids_insert rules i r : ids_ok rules -> (i < length rules)%nat -> id r = Z.of_nat i -> ids_ok (<[i := r]> rules).
Proof using Type.
  intros Hids Hi Hr j x Hx. destruct (decide (j = i)) as [->|Hn].
  - rewrite list_lookup_insert_eq in Hx by done. by injection Hx as <-.
  - rewrite list_lookup_insert_ne in Hx by done. by apply Hids.
Qed.
Lemma ids_inserted rules i r : ids_ok rules -> (i <= length rules)%nat -> ids_ok (inserted set_id i (set_id (Z.of_nat i) r) rules).
Proof using Type.
  intros Hids Hi j x. rewrite lookup_inserted by done. repeat case_decide; simplify_eq; [by apply Hids|by intros [= <-]|].
  intros (z & _ & ->)%fmap_Some. done.
Qed.
Lemma ids_deleted rules i : ids_ok rules -> (i < length rules)%nat -> ids_ok (deleted set_id i rules).
Proof using Type.
  intros Hids Hi j x. rewrite lookup_deleted by done. case_decide; [by apply Hids|].
  intros (z & _ & ->)%fmap_Some. done.
Qed.

(** ** Adding and replacing *)
Definition placed_rule (i : nat) (r : ChainRule) (rules : list ChainRule) : list ChainRule :=
  if decide (i = length rules) then rules ++ [r] else <[i := r]> rules.

Lemma length_placed_rule i r rules : (i <= length rules)%nat -> (length rules <= length (placed_rule i r rules))%nat.
Proof using Type. intros Hi. unfold placed_rule. case_decide; [rewrite length_app; lia|by rewrite length_insert]. Qed.

Lemma set_place i r rules :
  (i <= length rules)%nat ->
  vec_set (if Z.of_nat (length (Some <$> rules)) <=? Z.of_nat i
           then resize (Z.of_nat (length (Some <$> rules)) + 1) (Some <$> rules) else Some <$> rules) (Z.of_nat i) (Some r)
  = Ok (Some <$> placed_rule i r rules).
Proof using Type.
  intros Hi. rewrite length_fmap. unfold placed_rule.
  destruct (Z.leb_spec (Z.of_nat (length rules)) (Z.of_nat i)).
  - assert (i = length rules) as -> by lia. rewrite decide_True by done.
    rewrite vec_set_ok by (rewrite length_resize; lia). f_equal. unfold resize.
    replace (Z.to_nat (Z.of_nat (length rules) + 1)) with (S (length rules)) by lia.
    rewrite length_fmap, take_ge by (rewrite length_fmap; lia).
    replace (S (length rules) - length rules)%nat with 1%nat by lia.
    rewrite insert_app_r_alt by (rewrite length_fmap; lia). rewrite length_fmap, Nat.sub_diag, fmap_app. done.
  - rewrite decide_False by lia. rewrite vec_set_ok by (rewrite length_fmap; lia). f_equal.
    by rewrite list_fmap_insert.
Qed.

Lemma ids_placed rules i r : ids_ok rules -> (i <= length rules)%nat -> id r = Z.of_nat i -> ids_ok (placed_rule i r rules).
Proof using Type.
  intros Hids Hi Hr. unfold placed_rule. case_decide as E.
  - subst i. replace r with (set_id (Z.of_nat (length rules)) r) by (destruct r; simpl in *; by subst).
    by apply ids_snoc.
  - apply ids_insert; [done|lia|done].
Qed.

Lemma addRule_run old rules s i conf r :
  stored_ok old rules s -> (i <= length rules)%nat -> m_id conf = Z.of_nat i -> is_Some (m_action conf) ->
  make_ChainRule (isContrackActive cfg) conf = Ok r -> (length (placed_rule i r rules) <= 2048)%nat ->
  (is_single_op_on_chain s = true -> compilable (placed_rule i r rules)) ->
  exists s' cs, addRule cfg key0 (Z.of_nat i) conf s = (Ok tt, s') /\
    stored_ok (if is_single_op_on_chain s then placed_rule i r rules else old) (placed_rule i r rules) s' /\
    collected_stats s cs /\ counters_ s' = Some <$> cs /\ is_single_op_on_chain s' = is_single_op_on_chain s.
Proof using Type.
  intros Hso Hi Hid [a Ha] Hmake Hroom Hco. pose proof (so_rules _ _ _ Hso) as Hrules.
  destruct (collect_run old rules s Hso) as (l & s1 & cs & Hg & Hcs & Hlcs & Hc1 & Hen1 & Hr1 & Hs1 & Hd1).
  destruct (commit_run old (placed_rule i r rules) (Some <$> cs) s1 Hen1) as (s' & Hu & Hso' & Hc' & Hs' & Hd').
  { apply ids_placed; [apply Hso|done|]. by rewrite (make_ChainRule_id _ _ _ Hmake). }
  { rewrite length_fmap, Hlcs. by apply length_placed_rule. }
  { done. }
  { by rewrite Hs1. }
  rewrite Hs1 in *. exists s', cs. split; [|done].
  unfold addRule. unfold bind at 1, get at 1. unfold getNrRules at 1. rewrite Hrules, length_fmap.
  rewrite (proj2 (Z.ltb_ge _ _)) by lia. rewrite Ha. unfold bind at 1, lift at 1. rewrite Hmake.
  rewrite (bind_run _ _ _ _ _ Hg). unfold bind at 1, get at 1. cbv zeta. unfold getNrRules. rewrite Hr1, Hrules.
  unfold bind at 1, lift at 1. rewrite set_place by done. unfold bind at 1, modify at 1.
  rewrite <- Hc1 in Hu. replace (set_counters (counters_ s1) (set_rules (Some <$> placed_rule i r rules) s1))
    with (set_rules (Some <$> placed_rule i r rules) s1) in Hu by (by destruct s1). exact Hu.
Qed.

(** [append]: the chain is compiled twice. *)
Lemma append_run rules s conf r :
  stored_ok rules rules s -> is_single_op_on_chain s = true -> is_Some (m_action conf) ->
  make_ChainRule (isContrackActive cfg)
    {| m_id := Z.of_nat (length rules); m_idIsSet := true; m_src := m_src conf; m_dst := m_dst conf;
       m_l4proto := m_l4proto conf; m_sport := m_sport conf; m_dport := m_dport conf; m_tcpflags := m_tcpflags conf;
       m_conntrack := m_conntrack conf; m_action := m_action conf; m_description := m_description conf |} = Ok r ->
  (length rules < 2048)%nat -> compilable (rules ++ [r]) ->
  exists s' cs, append cfg key0 conf s = (Ok (Z.of_nat (length rules)), s') /\
    stored_ok (rules ++ [r]) (rules ++ [r]) s' /\ collected_stats s cs /\ counters_ s' = Some <$> cs /\
    is_single_op_on_chain s' = true.
Proof using Type.
  intros Hso Hsingle Ha Hmake Hroom Hco.
  assert (placed_rule (length rules) r rules = rules ++ [r]) as Epl by (unfold placed_rule; by rewrite decide_True).
  match type of Hmake with make_ChainRule _ ?c = _ => set (conf1 := c) in Hmake end.
  destruct (addRule_run rules rules s (length rules) conf1 r Hso ltac:(lia) eq_refl Ha Hmake) as (s1 & cs & Hadd & Hso1 & Hcs & Hc1 & Hs1).
  { rewrite Epl, length_app. cbn. lia. }
  { by rewrite Epl. }
  rewrite Epl, Hsingle in *.
  destruct (commit_run (rules ++ [r]) (rules ++ [r]) (counters_ s1) s1 (so_guarding _ _ _ Hso1) (so_ids _ _ _ Hso1)
    (so_counters _ _ _ Hso1) (so_room _ _ _ Hso1) (fun _ => Hco)) as (s' & Hu & Hso' & Hc' & Hs' & _).
  replace (set_counters (counters_ s1) (set_rules (Some <$> rules ++ [r]) s1)) with s1 in Hu.
  2:{ rewrite <- (so_rules _ _ _ Hso1). by destruct s1. }
  rewrite Hs1 in *. exists s', cs. split; [|split; [done|split; [done|split; [congruence|done]]]].
  destruct Ha as [a Ha]. unfold append. rewrite Ha. unfold bind at 1, get at 1. cbv zeta. unfold getNrRules.
  rewrite (so_rules _ _ _ Hso), length_fmap. unfold conf1 in Hadd. rewrite Ha in Hadd. rewrite (bind_run _ _ _ _ _ Hadd).
  by rewrite (bind_run _ _ _ _ _ Hu).
Qed.

(** ** Inserting and deleting *)
Definition zero_stats (i : Z) : ChainStats :=
  {| st_id := i; st_pkts := 0; st_bytes := 0; st_action := None; st_description := None |}.
Definition insert_position (conf : RuleConf) : Z := if m_idIsSet conf then m_id conf else 0.
Definition inserted_rules (i : nat) (r : ChainRule) (rules : list ChainRule) : list ChainRule :=
  inserted set_id i (set_id (Z.of_nat i) r) rules.

Lemma insert_run old rules s conf i r :
  stored_ok old rules s -> insert_position conf = Z.of_nat i -> (i <= length rules)%nat -> is_Some (m_action conf) ->
  make_ChainRule (isContrackActive cfg) conf = Ok r -> (length rules < 2048)%nat ->
  (is_single_op_on_chain s = true -> compilable (inserted_rules i r rules)) ->
  exists s' cs, insert cfg key0 conf s = (Ok (Z.of_nat i), s') /\
    stored_ok (if is_single_op_on_chain s then inserted_rules i r rules else old) (inserted_rules i r rules) s' /\
    collected_stats s cs /\ counters_ s' = Some <$> inserted set_stats_id i (zero_stats (Z.of_nat i)) cs /\
    is_single_op_on_chain s' = is_single_op_on_chain s.
Proof using Type.
  intros Hso Hpos Hi [a Ha] Hmake Hroom Hco. pose proof (so_rules _ _ _ Hso) as Hrules.
  destruct (collect_run old rules s Hso) as (l & s1 & cs & Hg & Hcs & Hlcs & Hc1 & Hen1 & Hr1 & Hs1 & Hd1).
  destruct (commit_run old (inserted_rules i r rules) (Some <$> inserted set_stats_id i (zero_stats (Z.of_nat i)) cs) s1 Hen1)
    as (s' & Hu & Hso' & Hc' & Hs' & Hd').
  { by apply ids_inserted; [apply Hso|]. }
  { unfold inserted_rules. rewrite length_fmap, !length_inserted by lia. lia. }
  { unfold inserted_rules. rewrite length_inserted by lia. lia. }
  { by rewrite Hs1. }
  rewrite Hs1 in *. exists s', cs. split; [|done].
  unfold insert. fold (insert_position conf). rewrite Hpos. cbv zeta. unfold bind at 1, get at 1. unfold getNrRules at 1.
  rewrite Hrules, length_fmap, (proj2 (Z.ltb_ge _ _)) by lia. rewrite Ha. unfold bind at 1, lift at 1. rewrite Hmake.
  rewrite (bind_run _ _ _ _ _ Hg). unfold bind at 1, get at 1. cbv zeta. unfold getNrRules. rewrite Hr1, Hrules, Hc1, !length_fmap.
  pose proof (push_all set_id i rules (set_id (Z.of_nat i) r) Hi) as Epr.
  pose proof (push_all set_stats_id i cs (zero_stats (Z.of_nat i)) ltac:(lia)) as Epc.
  apply res_bind_Ok in Epr as (rs1 & Er1 & Er2), Epc as (cs1 & Ec1 & Ec2). rewrite Hlcs in Ec1.
  unfold bind at 1, lift at 1. change (for_each_res _ shift_rule _) with (for_each_res (reverse (seqZ (Z.of_nat i) (Z.of_nat (length rules) - Z.of_nat i))) (push set_id) (resize (Z.of_nat (length rules) + 1) (Some <$> rules))).
  rewrite Er1. rewrite Hlcs. unfold bind at 1, lift at 1.
  change (for_each_res _ shift_counter _) with (for_each_res (reverse (seqZ (Z.of_nat i) (Z.of_nat (length rules) - Z.of_nat i))) (push set_stats_id) (resize (Z.of_nat (length rules) + 1) (Some <$> cs))).
  rewrite Ec1. unfold bind at 1, lift at 1. rewrite Er2. unfold bind at 1, lift at 1.
  fold (zero_stats (Z.of_nat i)). rewrite Ec2. unfold bind at 1, modify at 1. unfold bind at 1, modify at 1.
  by rewrite (bind_run _ _ _ _ _ Hu).
Qed.

Lemma delRule_run old rules s i :
  stored_ok old rules s -> (i < length rules)%nat ->
  (is_single_op_on_chain s = true -> compilable (deleted set_id i rules)) ->
  exists s' cs, delRule cfg key0 (Z.of_nat i) s = (Ok tt, s') /\
    stored_ok (if is_single_op_on_chain s then deleted set_id i rules else old) (deleted set_id i rules) s' /\
    collected_stats s cs /\ counters_ s' = Some <$> deleted set_stats_id i cs /\
    is_single_op_on_chain s' = is_single_op_on_chain s.
Proof using Type.
  intros Hso Hi Hco. pose proof (so_rules _ _ _ Hso) as Hrules.
  destruct (collect_run old rules s Hso) as (l & s1 & cs & Hg & Hcs & Hlcs & Hc1 & Hen1 & Hr1 & Hs1 & Hd1).
  destruct (commit_run old (deleted set_id i rules) (Some <$> deleted set_stats_id i cs) s1 Hen1)
    as (s' & Hu & Hso' & Hc' & Hs' & Hd').
  { by apply ids_deleted; [apply Hso|]. }
  { rewrite length_fmap, !length_deleted by lia. lia. }
  { rewrite length_deleted by lia. pose proof (so_room _ _ _ Hso). lia. }
  { by rewrite Hs1. }
  rewrite Hs1 in *. exists s', cs. split; [|done].
  unfold delRule. unfold bind at 1, get at 1. unfold getNrRules at 1. rewrite Hrules, length_fmap.
  destruct (lookup_lt_is_Some_2 rules i) as [r Hri]; [lia|].
  destruct (Z.leb_spec (Z.of_nat (length rules)) (Z.of_nat i)); [lia|].
  rewrite Nat2Z.id, list_lookup_fmap, Hri. change (default None (Some <$> Some r)) with (Some r). cbv iota.
  rewrite (bind_run _ _ _ _ _ Hg). unfold bind at 1, get at 1. unfold getNrRules. rewrite Hr1, Hrules, length_fmap.
  destruct (pull_all set_id i rules Hi) as (rs1 & Er1 & Er2).
  destruct (pull_all set_stats_id i cs ltac:(lia)) as (cs1 & Ec1 & Ec2). rewrite Hlcs in Ec1, Ec2.
  unfold bind at 1, lift at 1.
  change (for_each_res _ (fun rules i => move_rule (i + 1) i rules) _) with
    (for_each_res (seqZ (Z.of_nat i) (Z.of_nat (length rules) - 1 - Z.of_nat i)) (pull set_id) (Some <$> rules)).
  rewrite Er1. unfold bind at 1, modify at 1. rewrite Er2. cbv zeta. rewrite Hc1, length_fmap, Hlcs.
  destruct (Z.eqb_spec (Z.of_nat (length rules)) 0); [lia|]. unfold bind at 1, lift at 1.
  change (for_each_res _ (fun counters i => move_counter (i + 1) i counters) _) with
    (for_each_res (seqZ (Z.of_nat i) (Z.of_nat (length rules) - 1 - Z.of_nat i)) (pull set_stats_id) (Some <$> cs)).
  rewrite Ec1. unfold bind at 1, modify at 1. rewrite Ec2. done.
Qed.

(** Deleting all of them. *)
Lemma compilable_nil : compilable [].
Proof using Type.
  split; try (by intros r ?%elem_of_nil); try (unfold few_prefixes; simpl; lia).
  split; [done|simpl; lia|by intros r ?%elem_of_nil].
Qed.
Lemma delRuleList_run old rules s :
  stored_ok old rules s ->
  exists s', delRuleList cfg key0 s = (Ok tt, s') /\ stored_ok [] [] s' /\ counters_ s' = [] /\
    is_single_op_on_chain s' = is_single_op_on_chain s.
Proof using Type.
  intros Hso. set (s1 := set_counters [] (set_rules [] s)).
  pose proof (guarding_set_rules old [] [] s (so_guarding _ _ _ Hso)) as Hen1.
  destruct (updateChain_guards cfg key0 s1 [] (guarding_good _ _ Hen1) eq_refl compilable_nil)
    as (s' & Hu & Hen' & (En & Ed & Er & Ec & Esg)).
  exists s'. unfold delRuleList, bind, modify. fold s1. rewrite Hu. split; [done|].
  split; [|by rewrite Ec, Esg]. split; [done|by rewrite Er|done|by rewrite Ec|simpl; lia].
Qed.
End ops.
