(* ===== verification/FwBatch.v ===== *)
(** pcn-firewall, batches: the abstract specification of a list of operations on
    a list of rules, and the proof that [Chain::batch] implements it, compiling
    the chain once at the end and naming the operations that failed. *)
From Stdlib Require Import ZArith Lia.
From stdpp Require Import base gmap sets list strings numbers.
From S2P Require Import Prelude.
From S2P Require Import Vec.
From S2P Require Import Bpf.
From S2P Require Import NetUtils.
From S2P Require Import FwRule.
From S2P Require Import FwFlags.
From S2P Require Import FwRuleFacts.
From S2P Require Import FwBits.
From S2P Require Import FwMaps.
From S2P Require Import FwMapsFacts.
From S2P Require Import FwIpFacts.
From S2P Require Import Frame.
From S2P Require Import FwConntrack.
From S2P Require Import FwDatapath.
From S2P Require Import FwPipeline.
From S2P Require Import FwModules.
From S2P Require Import FwChain.
From S2P Require Import FwUpdate.
From S2P Require Import FwStages.
From S2P Require Import FwInstall.
From S2P Require Import FwUpdateChain.
From S2P Require Import FwHorus.
From S2P Require Import FwRun.
From S2P Require Import FwFirstMatch.
From S2P Require Import FwCounters.
From S2P Require Import FwConnFacts.
From S2P Require Import FwStream.
From S2P Require Import FwHorusFacts.
From S2P Require Import FwHorusRun.
From S2P Require Import FwOps.
#[local] Open Scope Z_scope.
#[local] Open Scope cpp_scope.

(** * The specification *)
Section spec.
Context `{Inet} (active : bool).

(** The rule of a configuration: [Some None] when the constructor throws what
    a batch catches, [None] when it throws a pointer. *)
Definition try_make (conf : RuleConf) : option (option ChainRule) :=
  match make_ChainRule active conf with
  | Ok r => Some (Some r)
  | Throw e => if is_std_exception e then Some None else None
  | Undefined => None
  end.

Definition with_id (n : Z) (conf : RuleConf) : RuleConf :=
  {| m_id := n; m_idIsSet := true; m_src := m_src conf; m_dst := m_dst conf; m_l4proto := m_l4proto conf;
     m_sport := m_sport conf; m_dport := m_dport conf; m_tcpflags := m_tcpflags conf;
     m_conntrack := m_conntrack conf; m_action := m_action conf; m_description := m_description conf |}.

(** The rules after one operation, and whether it failed. *)
Definition apply_op (rules : list ChainRule) (op : OperationEnum) (val : RuleConf) : option (list ChainRule * bool) :=
  let n := Z.of_nat (length rules) in
  let make conf (k : ChainRule -> list ChainRule) :=
    match m_action val with
    | None => Some (rules, true)
    | Some _ => match try_make conf with
                | Some (Some r) => Some (k r, false)
                | Some None => Some (rules, true)
                | None => None
                end
    end in
  match op with
  | APPEND => make (with_id n val) (fun r => rules ++ [r])
  | UPDATE =>
      if negb (m_idIsSet val) || (n <? m_id val) then Some (rules, true)
      else make val (fun r => placed_rule (Z.to_nat (m_id val)) r rules)
  | INSERT =>
      if negb (m_idIsSet val) || (n <? m_id val) then Some (rules, true)
      else make val (fun r => inserted_rules (Z.to_nat (m_id val)) r rules)
  | DELETE =>
      if m_idIsSet val then
        if n <=? m_id val then Some (rules, true) else Some (deleted set_id (Z.to_nat (m_id val)) rules, false)
      else
        match rules with
        | [] => Some (rules, true)
        | _ =>
            match try_make val with
            | Some (Some c) =>
                match list_find (fun r => equal r c = true) rules with
                | Some (k, _) => Some (deleted set_id k rules, false)
                | None => Some (rules, true)
                end
            | Some None => Some (rules, true)
            | None => None
            end
        end
  end.

(** All of them; [i] is the number of the first. *)
Fixpoint apply_ops (rules : list ChainRule) (ops : list (OperationEnum * RuleConf)) (i : Z)
    : option (list ChainRule * list Z) :=
  match ops with
  | [] => Some (rules, [])
  | (op, val) :: ops =>
      '(rules, failed) ← apply_op rules op val;
      '(rules, rest) ← apply_ops rules ops (i + 1);
      Some (rules, if failed : bool then i :: rest else rest)
  end.
End spec.

Section batch.
Context `{Inet} `{Tables ct_k ct_v}.
Context (cfg : config) (key0 : HorusRule).
Let active := isContrackActive cfg.

(** ** Operations that fail leave the chain as it is *)
Lemma addRule_beyond id conf s : getNrRules s < id -> addRule cfg key0 id conf s = (Throw (RuntimeError "rule id not allowed"), s).
Proof using Type. intros Hi. unfold addRule, bind, get. by rewrite (proj2 (Z.ltb_lt _ _)) by done. Qed.
Lemma addRule_no_action id conf s :
  id <= getNrRules s -> m_action conf = None ->
  addRule cfg key0 id conf s = (Throw (RuntimeError "action not specified for the rule"), s).
Proof using Type. intros Hi Ha. unfold addRule, bind, get. by rewrite (proj2 (Z.ltb_ge _ _)), Ha by done. Qed.
Lemma addRule_bad id conf s e :
  id <= getNrRules s -> is_Some (m_action conf) -> make_ChainRule (isContrackActive cfg) conf = Throw e ->
  addRule cfg key0 id conf s = (Throw e, s).
Proof using Type. intros Hi [a Ha] Hm. unfold addRule, bind, get. rewrite (proj2 (Z.ltb_ge _ _)), Ha by done. unfold lift. by rewrite Hm. Qed.

Lemma insert_beyond conf s : getNrRules s < insert_position conf -> insert cfg key0 conf s = (Throw (RuntimeError "id not allowed"), s).
Proof using Type. intros Hi. unfold insert, bind, get. fold (insert_position conf). cbv zeta. by rewrite (proj2 (Z.ltb_lt _ _)) by done. Qed.
Lemma insert_no_action conf s :
  insert_position conf <= getNrRules s -> m_action conf = None ->
  insert cfg key0 conf s = (Throw (RuntimeError "action not specified for the rule"), s).
Proof using Type. intros Hi Ha. unfold insert, bind, get. fold (insert_position conf). cbv zeta. by rewrite (proj2 (Z.ltb_ge _ _)), Ha by done. Qed.
Lemma insert_bad conf s e :
  insert_position conf <= getNrRules s -> is_Some (m_action conf) -> make_ChainRule (isContrackActive cfg) conf = Throw e ->
  insert cfg key0 conf s = (Throw e, s).
Proof using Type.
  intros Hi [a Ha] Hm. unfold insert, bind, get. fold (insert_position conf). cbv zeta.
  rewrite (proj2 (Z.ltb_ge _ _)), Ha by done. unfold lift. by rewrite Hm.
Qed.
Lemma delRule_beyond id s :
  getNrRules s <= id -> delRule cfg key0 id s = (Throw (RuntimeError ("There is no rule " +:+ to_string id)), s).
Proof using Type. intros Hi. unfold delRule, bind, get. by rewrite (proj2 (Z.leb_le _ _)) by done. Qed.

(** [deletes] takes the first rule that is equal. *)
Lemma deletes_from_run rules i conf s :
  deletes_from cfg key0 (Some <$> rules) i conf s =
  match rules with
  | [] => (Throw (RuntimeError "no matching rule to delete"), s)
  | _ =>
      match make_ChainRule (isContrackActive cfg) conf with
      | Ok c =>
          match list_find (fun r => equal r c = true) rules with
          | Some (k, _) => delRule cfg key0 (i + Z.of_nat k) s
          | None => (Throw (RuntimeError "no matching rule to delete"), s)
          end
      | Throw e => (Throw e, s)
      | Undefined => (Undefined, s)
      end
  end.
Proof using Type.
  revert i. induction rules as [|r rules IH]; intros i; [done|]. cbn [fmap list_fmap deletes_from].
  unfold bind, lift. destruct (make_ChainRule _ conf) as [c|e|] eqn:Em; [|done..].
  cbn [list_find]. destruct (decide (equal r c = true)) as [E|E].
  - rewrite E. by rewrite Z.add_0_r.
  - destruct (equal r c); [done|]. rewrite IH. destruct rules as [|r2 rules]; [done|].
    destruct (list_find (fun r => equal r c = true) (r2 :: rules)) as [[k x]|]; [|done]. by replace (i + 1 + Z.of_nat k) with (i + Z.of_nat (S k)) by lia.
Qed.

Definition batch_ready (old rules : list ChainRule) (s : side) : Prop :=
  stored_ok cfg old rules s /\ is_single_op_on_chain s = false.

Lemma stored_nr old rules s : stored_ok cfg old rules s -> getNrRules s = Z.of_nat (length rules).
Proof using Type. intros Hso. unfold getNrRules. by rewrite (so_rules _ _ _ _ Hso), length_fmap. Qed.

Lemma try_make_cases conf :
  match try_make active conf with
  | Some (Some r) => make_ChainRule active conf = Ok r
  | Some None => exists e, make_ChainRule active conf = Throw e /\ is_std_exception e = true
  | None => True
  end.
Proof using Type. unfold try_make. destruct (make_ChainRule active conf) as [r|e|]; [done| |done]. destruct (is_std_exception e) eqn:E; eauto. Qed.

Lemma caught {A} (m h : M side A) s e : m s = (Throw e, s) -> is_std_exception e = true -> try_catch is_std_exception m h s = h s.
Proof using Type. intros Hm He. unfold try_catch. by rewrite Hm, He. Qed.
Lemma not_caught {A} (m h : M side A) s a s' : m s = (Ok a, s') -> try_catch is_std_exception m h s = (Ok a, s').
Proof using Type. intros Hm. unfold try_catch. by rewrite Hm. Qed.
Lemma bind_throw {A B} (m : M side A) (k : A -> M side B) s e s' : m s = (Throw e, s') -> bind m k s = (Throw e, s').
Proof using Type. intros Hm. unfold bind. by rewrite Hm. Qed.

(** An operation that throws what a batch catches has failed. *)
Lemma failed_op (m : M side bool) s e :
  m s = (Throw e, s) -> is_std_exception e = true ->
  try_catch is_std_exception m (ret true) s = (Ok true, s).
Proof using Type. intros Hm He. by rewrite (caught _ _ _ _ Hm He). Qed.

Lemma batch_append_run old rules s val rules' failed :
  batch_ready old rules s -> (S (length rules) <= 2048)%nat -> apply_op active rules APPEND val = Some (rules', failed) ->
  exists s', batch_op cfg key0 APPEND val s = (Ok failed, s') /\ batch_ready old rules' s'.
Proof using Type.
  intros [Hso Hsg] Hroom Happ. pose proof (stored_nr _ _ _ Hso) as Hn. unfold apply_op in Happ. unfold batch_op, append.
  destruct (m_action val) as [a|] eqn:Ea.
  2:{ injection Happ as <- <-. exists s. split; [|done]. by eapply failed_op. }
  pose proof (try_make_cases (with_id (Z.of_nat (length rules)) val)) as Htm.
  set (conf1 := with_id (Z.of_nat (length rules)) val) in *.
  destruct (try_make active conf1) as [[r|]|]; [| |done]; injection Happ as <- <-.
  - assert (placed_rule (length rules) r rules = rules ++ [r]) as Epl by (unfold placed_rule; by rewrite decide_True).
    destruct (addRule_run cfg key0 old rules s (length rules) conf1 r Hso ltac:(lia) eq_refl ltac:(unfold conf1; simpl; by rewrite Ea) Htm)
      as (s1 & cs & Hadd & Hso1 & _ & _ & Hs1).
    { rewrite Epl, length_app. simpl. lia. }
    { rewrite Hsg. done. }
    rewrite Epl, Hsg in *. exists s1. split; [|done]. eapply not_caught.
    unfold bind at 1. unfold bind at 1, get at 1. cbv zeta. rewrite Hn. fold conf1.
    change {| m_id := Z.of_nat (length rules); m_idIsSet := true; m_src := m_src val; m_dst := m_dst val;
       m_l4proto := m_l4proto val; m_sport := m_sport val; m_dport := m_dport val; m_tcpflags := m_tcpflags val;
       m_conntrack := m_conntrack val; m_action := Some a; m_description := m_description val |} with
      (with_id (Z.of_nat (length rules)) val) || idtac.
    unfold conf1, with_id in Hadd. rewrite Ea in Hadd.
    rewrite (bind_run _ _ _ _ _ Hadd). unfold update_if_single, bind, get. by rewrite Hs1.
  - destruct Htm as (e & Hm & He). exists s. split; [|done]. eapply failed_op; [|done].
    apply bind_throw. unfold bind at 1, get at 1. cbv zeta. rewrite Hn. apply bind_throw.
    unfold conf1, with_id in Hm. rewrite Ea in Hm. apply addRule_bad; [by rewrite Hn|by eexists|done].
Qed.

Lemma batch_update_run old rules s val rules' failed :
  batch_ready old rules s -> (S (length rules) <= 2048)%nat -> 0 <= m_id val ->
  apply_op active rules UPDATE val = Some (rules', failed) ->
  exists s', batch_op cfg key0 UPDATE val s = (Ok failed, s') /\ batch_ready old rules' s'.
Proof using Type.
  intros [Hso Hsg] Hroom Hid Happ. pose proof (stored_nr _ _ _ Hso) as Hn. unfold apply_op in Happ. unfold batch_op.
  destruct (m_idIsSet val); cbn [negb orb] in Happ; [|by injection Happ as <- <-; exists s].
  destruct (Z.ltb_spec (Z.of_nat (length rules)) (m_id val)) as [Hlt|Hle].
  { injection Happ as <- <-. exists s. split; [|done]. eapply failed_op; [apply bind_throw, addRule_beyond; by rewrite Hn|done]. }
  rewrite <- Hn in Hle. destruct (m_action val) as [a|] eqn:Ea.
  2:{ injection Happ as <- <-. exists s. split; [|done]. eapply failed_op; [by apply bind_throw, addRule_no_action|done]. }
  pose proof (try_make_cases val) as Htm. destruct (try_make active val) as [[r|]|]; [| |done]; injection Happ as <- <-.
  - set (i := Z.to_nat (m_id val)). assert (m_id val = Z.of_nat i) as Ei by (unfold i; lia).
    assert (length (placed_rule i r rules) <= S (length rules))%nat as Hpl.
    { unfold placed_rule. case_decide; [rewrite length_app; simpl; lia|rewrite length_insert; lia]. }
    destruct (addRule_run cfg key0 old rules s i val r Hso ltac:(lia) Ei ltac:(by eexists) Htm ltac:(lia))
      as (s1 & cs & Hadd & Hso1 & _ & _ & Hs1); [by rewrite Hsg|].
    rewrite Hsg in *. exists s1. split; [|done]. eapply not_caught. rewrite Ei. by rewrite (bind_run _ _ _ _ _ Hadd).
  - destruct Htm as (e & Hm & He). exists s. split; [|done]. eapply failed_op; [|done].
    apply bind_throw, addRule_bad; [done|by eexists|done].
Qed.

Lemma batch_insert_run old rules s val rules' failed :
  batch_ready old rules s -> (S (length rules) <= 2048)%nat -> 0 <= m_id val ->
  apply_op active rules INSERT val = Some (rules', failed) ->
  exists s', batch_op cfg key0 INSERT val s = (Ok failed, s') /\ batch_ready old rules' s'.
Proof using Type.
  intros [Hso Hsg] Hroom Hid Happ. pose proof (stored_nr _ _ _ Hso) as Hn. unfold apply_op in Happ. unfold batch_op.
  destruct (m_idIsSet val) eqn:Eset; cbn [negb orb] in Happ; [|by injection Happ as <- <-; exists s].
  assert (insert_position val = m_id val) as Epos by (unfold insert_position; by rewrite Eset).
  destruct (Z.ltb_spec (Z.of_nat (length rules)) (m_id val)) as [Hlt|Hle].
  { injection Happ as <- <-. exists s. split; [|done]. eapply failed_op; [apply bind_throw, insert_beyond; by rewrite Hn, Epos|done]. }
  rewrite <- Hn, <- Epos in Hle. destruct (m_action val) as [a|] eqn:Ea.
  2:{ injection Happ as <- <-. exists s. split; [|done]. eapply failed_op; [by apply bind_throw, insert_no_action|done]. }
  pose proof (try_make_cases val) as Htm. destruct (try_make active val) as [[r|]|]; [| |done]; injection Happ as <- <-.
  - set (i := Z.to_nat (m_id val)). assert (insert_position val = Z.of_nat i) as Ei by (unfold i; lia).
    destruct (insert_run cfg key0 old rules s val i r Hso Ei ltac:(lia) ltac:(by eexists) Htm ltac:(lia))
      as (s1 & cs & Hadd & Hso1 & _ & _ & Hs1); [by rewrite Hsg|].
    rewrite Hsg in *. exists s1. split; [|done]. eapply not_caught. by rewrite (bind_run _ _ _ _ _ Hadd).
  - destruct Htm as (e & Hm & He). exists s. split; [|done]. eapply failed_op; [|done].
    apply bind_throw, insert_bad; [done|by eexists|done].
Qed.

Lemma batch_delete_run old rules s val rules' failed :
  batch_ready old rules s -> 0 <= m_id val ->
  apply_op active rules DELETE val = Some (rules', failed) ->
  exists s', batch_op cfg key0 DELETE val s = (Ok failed, s') /\ batch_ready old rules' s'.
Proof using Type.
  intros [Hso Hsg] Hid Happ. pose proof (stored_nr _ _ _ Hso) as Hn. unfold apply_op in Happ. unfold batch_op.
  assert (forall i, (i < length rules)%nat -> exists s', delRule cfg key0 (Z.of_nat i) s = (Ok tt, s') /\
    batch_ready old (deleted set_id i rules) s') as Hdel.
  { intros i Hi. destruct (delRule_run cfg key0 old rules s i Hso Hi) as (s1 & cs & Hd & Hso1 & _ & _ & Hs1); [by rewrite Hsg|].
    rewrite Hsg in *. by exists s1. }
  destruct (m_idIsSet val).
  - destruct (Z.leb_spec (Z.of_nat (length rules)) (m_id val)) as [Hle|Hlt]; injection Happ as <- <-.
    + exists s. split; [|done]. eapply failed_op; [apply bind_throw, delRule_beyond; by rewrite Hn|done].
    + destruct (Hdel (Z.to_nat (m_id val)) ltac:(lia)) as (s1 & Hd & Hb). rewrite Z2Nat.id in Hd by done.
      exists s1. split; [|done]. eapply not_caught. by rewrite (bind_run _ _ _ _ _ Hd).
  - unfold deletes. assert (forall r s', deletes_from cfg key0 (rules_ s) 0 val s = (r, s') ->
      (s0 <-- get ;; deletes_from cfg key0 (rules_ s0) 0 val) s = (r, s')) as Hget by done.
    rewrite (so_rules _ _ _ _ Hso) in Hget. rewrite deletes_from_run in Hget.
    destruct rules as [|r0 rules0] eqn:Er.
    { injection Happ as <- <-. exists s. split; [|done]. eapply failed_op; [by apply bind_throw, Hget|done]. }
    rewrite <- Er in *. pose proof (try_make_cases val) as Htm.
    destruct (try_make active val) as [[c|]|]; [| |done].
    + fold active in Hget. rewrite Htm in Hget.
      destruct (list_find (fun r => equal r c = true) rules) as [[k x]|] eqn:Ef; injection Happ as <- <-.
      * apply list_find_Some in Ef as (Hk & _ & _). apply lookup_lt_Some in Hk.
        destruct (Hdel k Hk) as (s1 & Hd & Hb). exists s1. split; [|done]. eapply not_caught.
        rewrite Z.add_0_l in Hget. by rewrite (bind_run _ _ _ _ _ (Hget _ _ Hd)).
      * exists s. split; [|done]. eapply failed_op; [by apply bind_throw, Hget|done].
    + injection Happ as <- <-. destruct Htm as (e & Hm & He). fold active in Hget. rewrite Hm in Hget.
      exists s. split; [|done]. eapply failed_op; [|done]. by apply bind_throw, Hget.
Qed.

(** ** The whole batch *)
Lemma length_apply_op rules op val rules' failed :
  0 <= m_id val -> apply_op active rules op val = Some (rules', failed) -> (length rules' <= S (length rules))%nat.
Proof using Type.
  unfold apply_op. intros Hid Happ.
  assert (forall i, (i < length rules)%nat -> (length (deleted set_id i rules) <= S (length rules))%nat) as Hd
    by (intros i Hi; rewrite length_deleted by done; lia).
  destruct op; repeat case_match; simplify_eq; try lia; try (rewrite length_app; simpl; lia).
  - match goal with E : negb _ || _ = false |- _ => apply orb_false_iff in E as [_ Hi%Z.ltb_ge] end. unfold inserted_rules. rewrite length_inserted by lia. lia.
  - match goal with E : negb _ || _ = false |- _ => apply orb_false_iff in E as [_ Hi%Z.ltb_ge] end. unfold placed_rule. case_decide; [rewrite length_app; simpl; lia|rewrite length_insert; lia].
  - apply Hd. match goal with E : (_ <=? _) = false |- _ => apply Z.leb_gt in E end. lia.
  - apply Hd. match goal with E : list_find _ _ = Some _ |- _ => apply list_find_Some in E as (E & _ & _); by apply lookup_lt_Some in E end.
Qed.

Lemma batch_op_run old rules s op val rules' failed :
  batch_ready old rules s -> (S (length rules) <= 2048)%nat -> 0 <= m_id val ->
  apply_op active rules op val = Some (rules', failed) ->
  exists s', batch_op cfg key0 op val s = (Ok failed, s') /\ batch_ready old rules' s'.
Proof using Type.
  intros Hb Hroom Hid Happ. destruct op;
    [by eapply batch_insert_run|by eapply batch_append_run|by eapply batch_update_run|by eapply batch_delete_run].
Qed.

Lemma batch_ops_run old ops rules i s rules' failed :
  batch_ready old rules s -> (length rules + length ops <= 2048)%nat ->
  (forall op val, (op, val) ∈ ops -> 0 <= m_id val) ->
  apply_ops active rules ops i = Some (rules', failed) ->
  exists s', batch_ops cfg key0 ops i s = (Ok failed, s') /\ batch_ready old rules' s'.
Proof using Type.
  revert rules i s failed. induction ops as [|[op val] ops IH]; intros rules i s failed Hb Hroom Hids Happ.
  { injection Happ as <- <-. by exists s. }
  cbn [apply_ops] in Happ. destruct (apply_op active rules op val) as [[rules1 f1]|] eqn:E1; [|done]. cbn in Happ.
  destruct (apply_ops active rules1 ops (i + 1)) as [[rules2 f2]|] eqn:E2; [|done]. cbn in Happ. injection Happ as <- <-.
  simpl in Hroom. destruct (batch_op_run old rules s op val rules1 f1 Hb ltac:(lia)) as (s1 & Hr1 & Hb1); [|done|].
  { apply (Hids op val). by left. }
  destruct (IH rules1 (i + 1) s1 f2 Hb1) as (s2 & Hr2 & Hb2); [|intros o v Hov; apply (Hids o v); by right|done|].
  { apply length_apply_op in E1; [lia|]. apply (Hids op val). by left. }
  exists s2. split; [|done]. cbn [batch_ops]. rewrite (bind_run _ _ _ _ _ Hr1). rewrite (bind_run _ _ _ _ _ Hr2). done.
Qed.

Definition batch_message (n : Z) (failed : list Z) : string :=
  ("Chain::ChainBatchOutput: you required " +:+ to_string n
    +:+ " operations, but the following nth{1-" +:+ to_string n
    +:+ "} ones in the list failed: [" +:+ String.concat ", " (to_string <$> failed) +:+ "]")%string.

Lemma stored_set_single old rules v s : stored_ok cfg old rules s -> stored_ok cfg old rules (set_single v s).
Proof using Type.
  intros [[[Hg Hy] [Ho Ht]] ? ? ? ?]. split; try done. split; [|by split]. split; [|done]. destruct Hg. by split.
Qed.

Lemma batch_run rules s ops rules' failed :
  stored_ok cfg rules rules s -> (length rules + length ops <= 2048)%nat ->
  (forall op val, (op, val) ∈ ops -> 0 <= m_id val) ->
  apply_ops active rules ops 1 = Some (rules', failed) -> compilable rules' ->
  exists s', batch cfg key0 (Some ops) s =
      (match failed with
       | [] => Ok tt
       | _ => Throw (RuntimeError (batch_message (Z.of_nat (length ops)) failed))
       end, s') /\ stored_ok cfg rules' rules' s' /\ is_single_op_on_chain s' = true.
Proof using Type.
  intros Hso Hroom Hids Happ Hco. unfold batch.
  destruct (collect_run cfg rules rules s Hso) as (l & s1 & cs & Hg & _ & Hlcs & Hc1 & Hen1 & Hr1 & Hs1 & Hd1).
  rewrite (bind_run _ _ _ _ _ Hg). unfold bind at 1, modify at 1.
  assert (stored_ok cfg rules rules s1) as Hso1.
  { split; [done|rewrite Hr1; apply Hso|apply Hso|rewrite Hc1, length_fmap; lia|apply Hso]. }
  destruct (batch_ops_run rules ops rules 1 (set_single false s1) rules' failed) as (s2 & Hb & [Hso2 Hs2]); try done.
  { split; [by apply stored_set_single|done]. }
  rewrite (bind_run _ _ _ _ _ Hb). unfold bind at 1, modify at 1.
  pose proof (stored_set_single _ _ true _ Hso2) as Hso3. set (s3 := set_single true s2) in *.
  destruct (updateChain_guards cfg key0 s3 rules' (guarding_good _ _ _ (so_guarding _ _ _ _ Hso3)) (so_rules _ _ _ _ Hso3) Hco)
    as (s' & Hu & Hen' & (En & Ed & Er & Ec & Esg)).
  rewrite (bind_run _ _ _ _ _ Hu). exists s'. split; [by destruct failed|]. split; [|by rewrite Esg].
  split; [done|rewrite Er; apply Hso3|apply Hso3|rewrite Ec; apply Hso3|apply Hso3].
Qed.
End batch.
