(* ===== verification/FwFirewall.v ===== *)
(** pcn-firewall, the firewall around its two directions (Firewall.cpp) and the
    table of the connections it shows (SessionTable.cpp): the constructor, the
    connection tracking mode and the programs that are reloaded when it changes. *)
From Stdlib Require Import ZArith Lia Ascii String.
From stdpp Require Import base gmap sets list strings numbers.
From S2P Require Import Prelude.
From S2P Require Import Vec.
From S2P Require Import Bpf.
From S2P Require Import NetUtils.
From S2P Require Import FwRule.
From S2P Require Import FwFlags.
From S2P Require Import FwRuleFacts.
From S2P Require Import FwBits.
From S2P Require Import FwMaps.
From S2P Require Import FwMapsFacts.
From S2P Require Import FwIpFacts.
From S2P Require Import Frame.
From S2P Require Import FwConntrack.
From S2P Require Import FwDatapath.
From S2P Require Import FwPipeline.
From S2P Require Import FwModules.
From S2P Require Import FwChain.
From S2P Require Import FwUpdate.
From S2P Require Import FwStages.
From S2P Require Import FwInstall.
From S2P Require Import FwUpdateChain.
#[local] Open Scope Z_scope.
#[local] Open Scope cpp_scope.

(** FirewallAcceptEstablishedEnum and FirewallConntrackEnum *)
Inductive OnOff := ON | OFF.
#[export] Instance on_off_eq_dec : EqDecision OnOff.
Proof. solve_decision. Defined.

(** ** SessionTable.cpp *)
Definition state_from_number_to_string (state : Z) : res string :=
  if state =? CT.NEW then Ok "NEW"%string
  else if state =? CT.ESTABLISHED then Ok "ESTABLISHED"%string
  else if state =? CT.SYN_SENT then Ok "SYN_SENT"%string
  else if state =? CT.SYN_RECV then Ok "SYN_RECV"%string
  else if state =? CT.FIN_WAIT_1 then Ok "FIN_WAIT_1"%string
  else if state =? CT.FIN_WAIT_2 then Ok "FIN_WAIT_2"%string
  else if state =? CT.LAST_ACK then Ok "LAST_ACK"%string
  else if state =? CT.TIME_WAIT then Ok "TIME_WAIT"%string
  else Throw (RuntimeError "[SessionTable]: Error!").

(** The time a connection was last refreshed, in seconds: its [ttl] less the
    timeout of its state. *)
Definition refreshed (ttl state l4proto : Z) : Z :=
  let ttl := if state =? CT.NEW then
               if l4proto =? IPPROTO_UDP then u64 (ttl - UDP_NEW_TIMEOUT) else u64 (ttl - ICMP_TIMEOUT)
             else ttl in
  let ttl := if state =? CT.ESTABLISHED then
               if l4proto =? IPPROTO_TCP then u64 (ttl - TCP_ESTABLISHED) else u64 (ttl - UDP_ESTABLISHED_TIMEOUT)
             else ttl in
  let ttl := if state =? CT.SYN_SENT then u64 (ttl - TCP_SYN_SENT) else ttl in
  let ttl := if state =? CT.SYN_RECV then u64 (ttl - TCP_SYN_RECV) else ttl in
  let ttl := if (state =? CT.FIN_WAIT_1) || (state =? CT.FIN_WAIT_2) then u64 (ttl - TCP_FIN_WAIT) else ttl in
  let ttl := if state =? CT.LAST_ACK then u64 (ttl - TCP_LAST_ACK) else ttl in
  let ttl := if state =? CT.TIME_WAIT then u64 (ttl - TCP_TIME_WAIT) else ttl in
  ttl / 1000000000.

(** [/proc/uptime] is in hundredths of a second here, [None] when it cannot be
    read.  Converting a [double] that does not fit is undefined. *)
Definition from_ttl_to_eta (uptime : option Z) (ttl state l4proto : Z) : res Z :=
  let ttl := refreshed ttl state l4proto in
  match uptime with
  | None => Ok 0
  | Some u => let eta := Z.quot (u - 100 * ttl) 100 in
              if (0 <=? eta) && (eta <? 2 ^ 32) then Ok eta else Undefined
  end.

Record SessionTable := {
  ss_src : string; ss_dst : string; ss_l4proto : string; ss_sport : Z; ss_dport : Z; ss_state : string; ss_eta : Z;
}.

Section firewall.
Context `{Inet} `{Tables ct_k ct_v}.

Record firewall := Firewall {
  conntrack_mode : ConntrackMode;   (** [conntrackMode] *)
  horus_option : bool;              (** [horus_enabled] *)
  possible_cpus : nat;
  ingress : side;
  egress : side;
}.

Definition fw_config (f : firewall) : config := Config (conntrack_mode f) (horus_option f) (possible_cpus f).
Definition set_mode (m : ConntrackMode) (f : firewall) : firewall :=
  Firewall m (horus_option f) (possible_cpus f) (ingress f) (egress f).
Definition set_ingress (s : side) (f : firewall) : firewall :=
  Firewall (conntrack_mode f) (horus_option f) (possible_cpus f) s (egress f).
Definition set_egress (s : side) (f : firewall) : firewall :=
  Firewall (conntrack_mode f) (horus_option f) (possible_cpus f) (ingress f) s.

(** A method of one direction, run on the firewall. *)
Definition on_ingress {A} (m : config -> M side A) : M firewall A :=
  fun f => let '(r, s) := m (fw_config f) (ingress f) in (r, set_ingress s f).
Definition on_egress {A} (m : config -> M side A) : M firewall A :=
  fun f => let '(r, s) := m (fw_config f) (egress f) in (r, set_egress s f).
Definition on_both (m : config -> M side unit) : M firewall unit := on_ingress m ;;; on_egress m.

(** [ingress_programs[i]] and its assignment: no bounds check. *)
Definition module_ref (i : Z) : M side (option module) := s <-- get ;; lift (vec_get (programs s) i).
Definition set_module_ref (i : Z) (o : option module) : M side unit :=
  s <-- get ;; ps <-- lift (vec_set (programs s) i o) ;; modify (set_programs ps).

Definition reload_ref (i : Z) (cfg : config) : M side unit :=
  o <-- module_ref i ;; m <-- lift (deref o) ;; modify (reload cfg m).
(** [programs[i] = new Module(i, ...)]: the constructor loads the program, the
    parser's reloads it. *)
Definition new_ref (k : kind) (i : Z) (cfg : config) : M side unit :=
  let m := {| m_kind := k; m_index := i; m_hop := None |} in
  modify (match k with KParser => reload cfg m | _ => load cfg m end) ;;;
  set_module_ref i (Some m).
Definition delete_ref (i : Z) (cfg : config) : M side unit :=
  o <-- module_ref i ;;
  match o with
  | Some m => delete_module m ;;; set_module_ref i None
  | None => ret tt
  end.

(** ** The constructor, up to [update(conf)] *)
(** [code] is the program that every cube starts with at index 0. *)
Definition new_side (n : ChainNameEnum) (code : program) : side :=
  Side n ACCEPT [] [] true 0 (replicate (Z.to_nat (Modules.NR_INITIAL_MODULES + Modules.NR_MODULES)) None)
    false false {[ 0 := code ]}.

Definition boot : M firewall unit :=
  on_ingress (new_ref KParser Modules.PARSER) ;;;
  on_ingress (new_ref KConntrackLabel Modules.CONNTRACKLABEL) ;;;
  on_ingress (new_ref KChainForwarder Modules.CHAINFORWARDER) ;;;
  on_egress (new_ref KParser Modules.PARSER) ;;;
  on_egress (new_ref KConntrackLabel Modules.CONNTRACKLABEL) ;;;
  on_egress (new_ref KChainForwarder Modules.CHAINFORWARDER) ;;;
  on_ingress (new_ref KDefaultAction Modules.DEFAULTACTION) ;;;
  on_ingress (new_ref KConntrackTableUpdate Modules.CONNTRACKTABLEUPDATE) ;;;
  on_egress (new_ref KDefaultAction Modules.DEFAULTACTION) ;;;
  on_egress (new_ref KConntrackTableUpdate Modules.CONNTRACKTABLEUPDATE).

Definition new_firewall (cpus : nat) (code : program) : res unit * firewall :=
  boot (Firewall AUTOMATIC true cpus (new_side INGRESS code) (new_side EGRESS code)).

(** ** Connection tracking *)
Definition getAcceptEstablished (f : firewall) : OnOff :=
  if bool_decide (conntrack_mode f = AUTOMATIC) then ON else OFF.
Definition getConntrack (f : firewall) : OnOff :=
  if bool_decide (conntrack_mode f = DISABLED) then OFF else ON.

Definition setAcceptEstablished (value : OnOff) : M firewall unit :=
  f <-- get ;;
  if bool_decide (conntrack_mode f = DISABLED) then throw (RuntimeError "Please enable conntrack first.")
  else if bool_decide (value = ON) && negb (bool_decide (conntrack_mode f = AUTOMATIC)) then
    modify (set_mode AUTOMATIC) ;;; on_both (reload_ref Modules.CONNTRACKLABEL)
  else if bool_decide (value = OFF) && negb (bool_decide (conntrack_mode f = MANUAL)) then
    modify (set_mode MANUAL) ;;; on_both (reload_ref Modules.CONNTRACKLABEL)
  else ret tt.

Definition setConntrack (value : OnOff) : M firewall unit :=
  f <-- get ;;
  if bool_decide (value = OFF) && negb (bool_decide (conntrack_mode f = DISABLED)) then
    modify (set_mode DISABLED) ;;;
    on_both (reload_ref Modules.CONNTRACKTABLEUPDATE) ;;;
    on_both (reload_ref Modules.PARSER) ;;;
    on_both (delete_ref Modules.CONNTRACKLABEL)
  else if bool_decide (value = ON) && bool_decide (conntrack_mode f = DISABLED) then
    modify (set_mode MANUAL) ;;;
    on_both (new_ref KConntrackLabel 1) ;;;
    on_both (reload_ref Modules.CONNTRACKTABLEUPDATE) ;;;
    on_both (reload_ref Modules.PARSER)
  else ret tt.

(** Null pointers are not skipped. *)
Definition reload_chain (chain : ChainNameEnum) : M firewall unit :=
  let reload_all_of (cfg : config) : M side unit :=
    s <-- get ;; for_each (programs s) (fun o => m <-- lift (deref o) ;; modify (reload cfg m)) in
  match chain with
  | INGRESS => on_ingress reload_all_of
  | EGRESS => on_egress reload_all_of
  | INVALID_CHAIN => ret tt
  end.
Definition reload_all : M firewall unit := reload_chain INGRESS ;;; reload_chain EGRESS.

(** ** The connections *)
Definition session_entry (uptime : option Z) (connection : ct_k * ct_v) : res SessionTable :=
  let '(key, value) := connection in
  l4proto <~ protocol_from_int_to_string (k_l4proto key) ;;
  state <~ state_from_number_to_string (v_state value) ;;
  eta <~ from_ttl_to_eta uptime (v_ttl value) (v_state value) (k_l4proto key) ;;
  Ok {| ss_src := nbo_uint_to_ip_string (k_srcIp key); ss_dst := nbo_uint_to_ip_string (k_dstIp key);
        ss_l4proto := l4proto; ss_sport := bswap16 (k_srcPort key); ss_dport := bswap16 (k_dstPort key);
        ss_state := state; ss_eta := eta |}.

(** [connections] is what the table of the label program holds. *)
Definition getSessionTableList (uptime : option Z) (connections : list (ct_k * ct_v)) (f : firewall)
    : res (list SessionTable) :=
  if negb (isContrackActive (fw_config f)) then Ok [] else
  match programs (ingress f) !! Z.to_nat Modules.CONNTRACKLABEL with
  | Some (Some _) =>
      for_each_res connections (fun acc c => e <~ session_entry uptime c ;; Ok (acc ++ [e])) []
  | _ => Undefined
  end.

(** Connections are never changed by hand. *)
Definition getSessionTable : M firewall SessionTable :=
  throw (RuntimeError "[SessionTable]: Method getEntry not allowed").
Definition addSessionTable : M firewall unit := throw (RuntimeError "[SessionTable]: Method create not allowed").
Definition replaceSessionTable : M firewall unit := throw (RuntimeError "[SessionTable]: Method replace not allowed").
Definition delSessionTable : M firewall unit := throw (RuntimeError "[SessionTable]: Method remove not allowed").
Definition delChain : M firewall unit := throw (RuntimeError "Method not supported.").
End firewall.
