(* ===== verification/FwModes.v ===== *)
(** pcn-firewall, the connection tracking mode: what the firewall's setters do to
    each direction, and that its rules stay enforced when the mode changes. *)
From Stdlib Require Import ZArith Lia.
From stdpp Require Import base gmap sets list strings numbers.
From S2P Require Import Prelude.
From S2P Require Import Vec.
From S2P Require Import Bpf.
From S2P Require Import NetUtils.
From S2P Require Import FwRule.
From S2P Require Import FwFlags.
From S2P Require Import FwRuleFacts.
From S2P Require Import FwBits.
From S2P Require Import FwMaps.
From S2P Require Import FwMapsFacts.
From S2P Require Import FwIpFacts.
From S2P Require Import Frame.
From S2P Require Import FwConntrack.
From S2P Require Import FwDatapath.
From S2P Require Import FwPipeline.
From S2P Require Import FwModules.
From S2P Require Import FwChain.
From S2P Require Import FwUpdate.
From S2P Require Import FwStages.
From S2P Require Import FwInstall.
From S2P Require Import FwUpdateChain.
From S2P Require Import FwFirewall.
#[local] Open Scope Z_scope.
#[local] Open Scope cpp_scope.

Section modes.
Context `{Inet} `{Tables ct_k ct_v}.

(** ** One direction *)
Definition label_ok (cfg : config) (ps : list (option module)) (sl : gmap Z program) : Prop :=
  if bool_decide (conntrackMode cfg = DISABLED)
  then ps !! Z.to_nat Modules.CONNTRACKLABEL = Some None /\ sl !! Modules.CONNTRACKLABEL = None
  else (exists hop, ps !! Z.to_nat Modules.CONNTRACKLABEL =
          Some (Some {| m_kind := KConntrackLabel; m_index := Modules.CONNTRACKLABEL; m_hop := hop |})) /\
       sl !! Modules.CONNTRACKLABEL = Some (conntrack_label_code cfg).

Definition moded (ps : list (option module)) (sl : gmap Z program) (s : side) : side := set_slots sl (set_programs ps s).

(** The parser is reloaded, unless what it knows of the mode stays. *)
Definition parser_ok (cfg cfg' : config) (s : side) (sl : gmap Z program) : Prop :=
  sl !! Modules.PARSER = Some (parser_code cfg' s) \/
  (sl !! Modules.PARSER = slots s !! Modules.PARSER /\
   bool_decide (conntrackMode cfg' = DISABLED) = bool_decide (conntrackMode cfg = DISABLED)).

Lemma mode_change cfg cfg' s ps sl m :
  good cfg s -> length ps = 16%nat ->
  (forall k, k ≠ 1%nat -> ps !! k = programs s !! k) ->
  (forall k, k ≠ 0 -> k ≠ 1 -> k ≠ 4 -> sl !! k = slots s !! k) ->
  parser_ok cfg cfg' s sl -> label_ok cfg' ps sl ->
  sl !! Modules.CONNTRACKTABLEUPDATE = Some (ConntrackTableUpdate m) ->
  (m =? 0) = bool_decide (conntrackMode cfg' = DISABLED) ->
  good cfg' (moded ps sl s) /\
  forall rules, rules_ s = Some <$> rules -> enforcing cfg rules s -> enforcing cfg' rules (moded ps sl s).
Proof using Type.
  intros Hg Hlen Hps Hsl Hpa Hla Hup Hm.
  assert (good cfg' (moded ps sl s)) as Hg'.
  { split; cbn [moded slots set_slots set_programs programs name chainNumber defaultAction horus_runtime_enabled];
      try apply Hg; try done.
    - intros i k Hik. destruct (gd_fixed _ s Hg i k Hik) as [hop E]. exists hop. rewrite Hps; [done|].
      unfold fixed_modules in Hik; rewrite !elem_of_cons, elem_of_nil in Hik.
      destruct Hik as [[= -> ->]|[[= -> ->]|[[= -> ->]|[[= -> ->]|[]]]]]; done.
    - destruct Hpa as [-> | [-> _]]; [unfold parser_code; eauto|apply (gd_parser _ s Hg)].
    - rewrite Hsl by done. apply (gd_forwarder _ s Hg).
    - rewrite Hsl by done. apply (gd_default _ s Hg).
    - eauto.
    - change (horus_other (moded ps sl s)) with (horus_other s). destruct (gd_horus_other _ s Hg) as [E1 E2].
      unfold horus_other in *; destruct (horus_swap s); rewrite Hps, Hsl by done; done.
    - change (horus_index (moded ps sl s)) with (horus_index s). pose proof (gd_horus _ s Hg) as Hh.
      unfold horus_index in *; destruct (horus_swap s); rewrite Hps, Hsl by done; done.
    - destruct (gd_chain _ s Hg) as (n & Hn & Hi & Hc). exists n. split; [done|]. split.
      + replace (chain_modules ps) with (chain_modules (programs s)); [done|].
        apply list_fmap_ext. intros k i Hi'%list_elem_of_lookup_2%chain_positions_range. rewrite Hps by lia. done.
      + intros i Hi7. rewrite Hsl by lia. by apply Hc. }
  split; [done|]. intros rules Hr [_ (y & Hen & Hho & Hact)]. split; [done|].
  pose proof (en_chain _ _ _ _ _ Hen) as Hcs. pose proof (en_far _ _ _ _ _ Hen) as Hfar.
  exists {| ly_i0 := ly_i0 y; ly_stages := ly_stages y; ly_actions := ly_actions y; ly_index64 := ly_index64 y;
            ly_horus := ly_horus y; ly_mode := m; ly_pkts := ly_pkts y; ly_bytes := ly_bytes y;
            ly_default_pkts := ly_default_pkts y; ly_default_bytes := ly_default_bytes y |}.
  cbn [moded slots set_slots set_programs programs defaultAction horus_runtime_enabled].
  split; [|split; [done|by rewrite Hps]].
  split; cbn [ly_i0 ly_stages ly_actions ly_index64 ly_mode ly_horus ly_pkts ly_bytes ly_default_pkts ly_default_bytes].
  - destruct Hpa as [-> | [-> ->]]; [|apply (en_parser _ _ _ _ _ Hen)].
    unfold parser_code, nr_elements, getNrRules. by rewrite Hr, length_fmap, Hho.
  - intros Hn. unfold label_ok in Hla. rewrite bool_decide_eq_false_2 in Hla by done. apply Hla.
  - done.
  - rewrite Hsl by done. apply (en_forwarder _ _ _ _ _ Hen).
  - destruct Hcs. split; try done.
    + intros j f p Hj. rewrite Hsl by lia. by apply cs_stages.
    + rewrite Hsl by lia. done.
    + rewrite Hsl by lia. done.
    + by rewrite Hsl.
  - apply (en_fields _ _ _ _ _ Hen).
  - done.
  - apply (en_short _ _ _ _ _ Hen).
  - apply (en_sizes _ _ _ _ _ Hen).
Qed.

(** ** Steps *)
Lemma module_ref_run i s o : 0 <= i -> programs s !! Z.to_nat i = Some o -> module_ref i s = (Ok o, s).
Proof using Type. intros Hi E. unfold module_ref, bind, get, lift, vec_get. by rewrite E, (proj2 (Z.leb_le 0 i)). Qed.
Lemma set_module_ref_run i o o' s :
  0 <= i -> programs s !! Z.to_nat i = Some o' ->
  set_module_ref i o s = (Ok tt, set_programs (<[Z.to_nat i := o]> (programs s)) s).
Proof using Type.
  intros Hi E. unfold set_module_ref, bind, get, lift, vec_set, modify. apply lookup_lt_Some in E.
  by rewrite (proj2 (Z.leb_le 0 i)), (proj2 (Z.ltb_lt _ _)) by lia.
Qed.
Lemma reload_ref_run cfg i s m p :
  0 <= i -> programs s !! Z.to_nat i = Some (Some m) -> slots s !! m_index m = Some p ->
  reload_ref i cfg s = (Ok tt, set_slots (<[m_index m := steal_tables p (getCode cfg s m)]> (slots s)) s).
Proof using Type.
  intros Hi E Ep. unfold reload_ref. rewrite (bind_run _ _ _ _ _ (module_ref_run _ _ _ Hi E)).
  unfold deref, lift, bind, modify, reload. by rewrite Ep.
Qed.
Lemma new_ref_run cfg k i s o :
  0 <= i -> k ≠ KParser -> programs s !! Z.to_nat i = Some o -> slots s !! i = None ->
  let m := {| m_kind := k; m_index := i; m_hop := None |} in
  new_ref k i cfg s =
    (Ok tt, set_programs (<[Z.to_nat i := Some m]> (programs s)) (set_slots (<[i := getCode cfg s m]> (slots s)) s)).
Proof using Type.
  intros Hi Hk E Ep m. unfold new_ref. fold m.
  assert (match k with KParser => reload cfg m | _ => load cfg m end = load cfg m) as -> by (by destruct k).
  unfold bind at 1, modify, load. subst m. cbn [m_index]. rewrite Ep.
  exact (set_module_ref_run i _ o (set_slots _ s) Hi E).
Qed.
Lemma delete_ref_run cfg i s m p :
  0 <= i -> programs s !! Z.to_nat i = Some (Some m) -> slots s !! m_index m = Some p ->
  delete_ref i cfg s =
    (Ok tt, set_programs (<[Z.to_nat i := None]> (programs s)) (set_slots (delete (m_index m) (slots s)) s)).
Proof using Type.
  intros Hi E Ep. unfold delete_ref. rewrite (bind_run _ _ _ _ _ (module_ref_run _ _ _ Hi E)).
  rewrite (bind_run _ _ _ _ _ (delete_module_run _ _ _ Ep)).
  exact (set_module_ref_run i None (Some m) (set_slots _ s) Hi E).
Qed.

Lemma on_both_run m f i e :
  m (fw_config f) (ingress f) = (Ok tt, i) -> m (fw_config f) (egress f) = (Ok tt, e) ->
  on_both m f = (Ok tt, set_egress e (set_ingress i f)).
Proof using Type.
  intros Hi He. unfold on_both, on_ingress, on_egress, bind. rewrite Hi.
  change (fw_config (set_ingress i f)) with (fw_config f). cbn [egress set_ingress]. by rewrite He.
Qed.

(** ** The setters, one direction at a time *)
Lemma fixed_at cfg s i k : good cfg s -> (i, k) ∈ fixed_modules ->
  exists hop, programs s !! Z.to_nat i = Some (Some {| m_kind := k; m_index := i; m_hop := hop |}).
Proof using Type. intros Hg. apply (gd_fixed _ s Hg). Qed.

(** After a step the direction is [good] for the configuration [cfg'], and the
    rules that it enforced are still enforced. *)
Definition carried (cfg cfg' : config) (s s' : side) : Prop :=
  good cfg' s' /\ name s' = name s /\ rules_ s' = rules_ s /\ counters_ s' = counters_ s /\ defaultAction s' = defaultAction s /\
  forall rules, rules_ s = Some <$> rules -> enforcing cfg rules s -> enforcing cfg' rules s'.

Lemma carried_moded cfg cfg' s ps sl m :
  good cfg s -> length ps = 16%nat -> (forall k, k ≠ 1%nat -> ps !! k = programs s !! k) ->
  (forall k, k ≠ 0 -> k ≠ 1 -> k ≠ 4 -> sl !! k = slots s !! k) ->
  parser_ok cfg cfg' s sl -> label_ok cfg' ps sl ->
  sl !! Modules.CONNTRACKTABLEUPDATE = Some (ConntrackTableUpdate m) ->
  (m =? 0) = bool_decide (conntrackMode cfg' = DISABLED) -> carried cfg cfg' s (moded ps sl s).
Proof using Type. intros Hg Hl Hps Hsl Hpa Hla Hup Hm. destruct (mode_change _ _ _ _ _ _ Hg Hl Hps Hsl Hpa Hla Hup Hm). done. Qed.

Lemma update_mode cfg : (conntrackMode_uint8 (conntrackMode cfg) =? 0) = bool_decide (conntrackMode cfg = DISABLED).
Proof using Type. by destruct (conntrackMode cfg). Qed.

Lemma reload_update_run cfg cfg' s :
  good cfg s -> reload_ref Modules.CONNTRACKTABLEUPDATE cfg' s =
    (Ok tt, set_slots (<[4 := conntrack_table_update_code cfg']> (slots s)) s).
Proof using Type.
  intros Hg. destruct (fixed_at cfg s 4 KConntrackTableUpdate Hg) as [hop E]; [set_solver|].
  destruct (gd_update _ s Hg) as (mode & Hs & _). exact (reload_ref_run cfg' 4 s _ _ ltac:(lia) E Hs).
Qed.
Lemma reload_parser_run cfg' s hop p :
  programs s !! 0%nat = Some (Some {| m_kind := KParser; m_index := 0; m_hop := hop |}) -> slots s !! 0 = Some p ->
  reload_ref Modules.PARSER cfg' s = (Ok tt, set_slots (<[0 := parser_code cfg' s]> (slots s)) s).
Proof using Type. intros E Hs. refine (eq_trans (reload_ref_run cfg' 0 s _ _ ltac:(lia) E Hs) _). cbn [m_index getCode m_kind]. by destruct p. Qed.

Definition off_state (cfg' : config) (s : side) : side :=
  moded (<[1%nat := None]> (programs s))
    (delete 1 (<[0 := parser_code cfg' s]> (<[4 := conntrack_table_update_code cfg']> (slots s)))) s.

Lemma off_run cfg cfg' s :
  good cfg s -> conntrackMode cfg ≠ DISABLED -> conntrackMode cfg' = DISABLED ->
  exists s1 s2, reload_ref Modules.CONNTRACKTABLEUPDATE cfg' s = (Ok tt, s1) /\
    reload_ref Modules.PARSER cfg' s1 = (Ok tt, s2) /\
    delete_ref Modules.CONNTRACKLABEL cfg' s2 = (Ok tt, off_state cfg' s) /\ carried cfg cfg' s (off_state cfg' s).
Proof using Type.
  intros Hg Hn Hd. destruct (fixed_at cfg s 0 KParser Hg) as [h0 E0]; [set_solver|].
  destruct (gd_parser _ s Hg) as (nr & ho & ct & Hs0). pose proof (gd_label _ s Hg) as Hl.
  rewrite bool_decide_eq_false_2 in Hl by done. destruct Hl as [[h1 E1] Hs1].
  eexists _, _. split; [by apply (reload_update_run cfg)|]. split.
  { eapply reload_parser_run; [apply E0|]. cbn [slots set_slots]. rewrite lookup_insert_ne by done. apply Hs0. }
  split.
  - refine (eq_trans (delete_ref_run cfg' 1 (set_slots _ (set_slots _ s)) _ (conntrack_label_code cfg) _ E1 _) _); [lia| |done].
    cbn [slots set_slots m_index]. by rewrite !lookup_insert_ne.
  - apply carried_moded with 0; try done.
    + rewrite length_insert. apply (gd_programs _ s Hg).
    + intros k Hk. by rewrite list_lookup_insert_ne.
    + intros k H0k H1k H4k. by rewrite lookup_delete_ne, !lookup_insert_ne.
    + left. unfold Modules.PARSER. by rewrite lookup_delete_ne, lookup_insert_eq.
    + unfold label_ok. rewrite bool_decide_eq_true_2 by done. split; [|by rewrite lookup_delete_eq].
      rewrite list_lookup_insert_eq; [done|]. rewrite (gd_programs _ s Hg). simpl. lia.
    + unfold Modules.CONNTRACKTABLEUPDATE. rewrite lookup_delete_ne, lookup_insert_ne, lookup_insert_eq by done.
      unfold conntrack_table_update_code. by rewrite Hd.
    + by rewrite bool_decide_eq_true_2.
Qed.

Definition label_module : module := {| m_kind := KConntrackLabel; m_index := 1; m_hop := None |}.
Definition on_state (cfg' : config) (s : side) : side :=
  moded (<[1%nat := Some label_module]> (programs s))
    (<[0 := parser_code cfg' s]> (<[4 := conntrack_table_update_code cfg']> (<[1 := conntrack_label_code cfg']> (slots s)))) s.

Lemma on_run cfg cfg' s :
  good cfg s -> conntrackMode cfg = DISABLED -> conntrackMode cfg' ≠ DISABLED ->
  exists s1 s2, new_ref KConntrackLabel 1 cfg' s = (Ok tt, s1) /\
    reload_ref Modules.CONNTRACKTABLEUPDATE cfg' s1 = (Ok tt, s2) /\
    reload_ref Modules.PARSER cfg' s2 = (Ok tt, on_state cfg' s) /\ carried cfg cfg' s (on_state cfg' s).
Proof using Type.
  intros Hg Hd Hn. destruct (fixed_at cfg s 0 KParser Hg) as [h0 E0]; [set_solver|].
  destruct (fixed_at cfg s 4 KConntrackTableUpdate Hg) as [h4 E4]; [set_solver|].
  destruct (gd_parser _ s Hg) as (nr & ho & ct & Hs0). pose proof (gd_label _ s Hg) as Hl.
  destruct (gd_update _ s Hg) as (mode & Hs4 & _). rewrite bool_decide_eq_true_2 in Hl by done. destruct Hl as [E1 Hs1].
  eexists _, _. split; [by apply (new_ref_run cfg' KConntrackLabel 1 s None)|]. split.
  { eapply reload_ref_run; [done| |].
    - cbn [programs set_programs set_slots]. rewrite list_lookup_insert_ne by done. apply E4.
    - cbn [slots set_programs set_slots m_index]. rewrite lookup_insert_ne by done. apply Hs4. }
  split.
  - refine (eq_trans (reload_parser_run cfg' _ h0 (Parser nr ho ct) _ _) _).
    + cbn [programs set_programs set_slots]. by rewrite list_lookup_insert_ne.
    + cbn [slots set_programs set_slots m_index]. by rewrite !lookup_insert_ne.
    + done.
  - apply carried_moded with (conntrackMode_uint8 (conntrackMode cfg')); try done.
    + rewrite length_insert. apply (gd_programs _ s Hg).
    + intros k Hk. by rewrite list_lookup_insert_ne.
    + intros k H0k H1k H4k. by rewrite !lookup_insert_ne.
    + left. unfold Modules.PARSER. by rewrite lookup_insert_eq.
    + unfold label_ok. rewrite bool_decide_eq_false_2 by done. split.
      * exists None. rewrite list_lookup_insert_eq; [done|]. rewrite (gd_programs _ s Hg). simpl. lia.
      * unfold Modules.CONNTRACKLABEL. by rewrite 2!lookup_insert_ne, lookup_insert_eq by done.
    + unfold Modules.CONNTRACKTABLEUPDATE. by rewrite lookup_insert_ne, lookup_insert_eq by done.
    + apply update_mode.
Qed.

Definition relabel_state (cfg' : config) (s : side) : side :=
  set_slots (<[1 := conntrack_label_code cfg']> (slots s)) s.

Lemma relabel_run cfg cfg' s :
  good cfg s -> conntrackMode cfg ≠ DISABLED -> conntrackMode cfg' ≠ DISABLED ->
  reload_ref Modules.CONNTRACKLABEL cfg' s = (Ok tt, relabel_state cfg' s) /\ carried cfg cfg' s (relabel_state cfg' s).
Proof using Type.
  intros Hg Hn Hn'. pose proof (gd_label _ s Hg) as Hl. rewrite bool_decide_eq_false_2 in Hl by done.
  destruct Hl as [[h1 E1] Hs1]. split; [exact (reload_ref_run cfg' 1 s _ _ ltac:(lia) E1 Hs1)|].
  destruct (gd_update _ s Hg) as (mode & Hs4 & Hm).
  assert (relabel_state cfg' s = moded (programs s) (<[1 := conntrack_label_code cfg']> (slots s)) s) as -> by (by destruct s).
  assert (bool_decide (conntrackMode cfg' = DISABLED) = bool_decide (conntrackMode cfg = DISABLED)) as Eb.
  { by rewrite !bool_decide_eq_false_2. }
  apply carried_moded with mode; try done.
  - apply (gd_programs _ s Hg).
  - intros k H0k H1k H4k. by rewrite lookup_insert_ne.
  - right. split; [|done]. by rewrite lookup_insert_ne.
  - unfold label_ok. rewrite bool_decide_eq_false_2 by done. split; [by eexists|by rewrite lookup_insert_eq].
  - by rewrite lookup_insert_ne.
  - by rewrite Eb.
Qed.

(** ** The firewall *)
Definition fw_good (f : firewall) : Prop := good (fw_config f) (ingress f) /\ good (fw_config f) (egress f).
Definition fw_carried (f f' : firewall) : Prop :=
  carried (fw_config f) (fw_config f') (ingress f) (ingress f') /\
  carried (fw_config f) (fw_config f') (egress f) (egress f').

(** The mode after a setter: turning tracking on is always manual. *)
Definition conntrack_next (value : OnOff) (m : ConntrackMode) : ConntrackMode :=
  match value, m with OFF, _ => DISABLED | ON, DISABLED => MANUAL | ON, _ => m end.
Definition established_next (value : OnOff) : ConntrackMode := match value with ON => AUTOMATIC | OFF => MANUAL end.

Lemma carried_refl cfg s : good cfg s -> carried cfg cfg s s.
Proof using Type. intros Hg. unfold carried. auto 10. Qed.
Lemma fw_carried_refl f : fw_good f -> fw_carried f f.
Proof using Type. intros [Hi He]. split; by apply carried_refl. Qed.
Lemma fw_carried_good f f' : fw_carried f f' -> fw_good f'.
Proof using Type. intros [[Hi _] [He _]]. by split. Qed.

Lemma setConntrack_run value f :
  fw_good f -> exists f', setConntrack value f = (Ok tt, f') /\ fw_carried f f' /\
    conntrack_mode f' = conntrack_next value (conntrack_mode f).
Proof using Type.
  intros [Hi He]. unfold setConntrack. unfold bind at 1, get. destruct value; cbn [bool_decide].
  - rewrite (bool_decide_eq_false_2 (ON = OFF)), (bool_decide_eq_true_2 (ON = ON)) by done. cbn [andb].
    case_bool_decide as Hd.
    + unfold bind at 1, modify at 1. set (f0 := set_mode MANUAL f).
      destruct (on_run (fw_config f) (fw_config f0) (ingress f)) as (i1 & i2 & Ei1 & Ei2 & Ei3 & Ci); try done.
      destruct (on_run (fw_config f) (fw_config f0) (egress f)) as (e1 & e2 & Ee1 & Ee2 & Ee3 & Ce); try done.
      rewrite (bind_run _ _ _ _ _ (on_both_run (new_ref KConntrackLabel 1) f0 _ _ Ei1 Ee1)).
      rewrite (bind_run _ _ _ _ _ (on_both_run (reload_ref Modules.CONNTRACKTABLEUPDATE) (set_egress e1 (set_ingress i1 f0)) _ _ Ei2 Ee2)).
      rewrite (on_both_run (reload_ref Modules.PARSER) (set_egress e2 (set_ingress i2 (set_egress e1 (set_ingress i1 f0)))) _ _ Ei3 Ee3).
      eexists. split; [done|]. split; [done|]. simpl. by rewrite Hd.
    + exists f. split; [done|]. split; [by apply fw_carried_refl|]. simpl. by destruct (conntrack_mode f).
  - rewrite (bool_decide_eq_true_2 (OFF = OFF)), (bool_decide_eq_false_2 (OFF = ON)) by done. cbn [andb].
    case_bool_decide as Hd; cbn [negb].
    + exists f. split; [done|]. split; [by apply fw_carried_refl|]. done.
    + unfold bind at 1, modify at 1. set (f0 := set_mode DISABLED f).
      destruct (off_run (fw_config f) (fw_config f0) (ingress f)) as (i1 & i2 & Ei1 & Ei2 & Ei3 & Ci); try done.
      destruct (off_run (fw_config f) (fw_config f0) (egress f)) as (e1 & e2 & Ee1 & Ee2 & Ee3 & Ce); try done.
      rewrite (bind_run _ _ _ _ _ (on_both_run (reload_ref Modules.CONNTRACKTABLEUPDATE) f0 _ _ Ei1 Ee1)).
      rewrite (bind_run _ _ _ _ _ (on_both_run (reload_ref Modules.PARSER) (set_egress e1 (set_ingress i1 f0)) _ _ Ei2 Ee2)).
      rewrite (on_both_run (delete_ref Modules.CONNTRACKLABEL) (set_egress e2 (set_ingress i2 (set_egress e1 (set_ingress i1 f0)))) _ _ Ei3 Ee3).
      eexists. split; [done|]. done.
Qed.

Lemma relabel_both f m :
  fw_good f -> conntrack_mode f ≠ DISABLED -> m ≠ DISABLED ->
  exists f', (modify (set_mode m) ;;; on_both (reload_ref Modules.CONNTRACKLABEL)) f = (Ok tt, f') /\ fw_carried f f' /\
    conntrack_mode f' = m.
Proof using Type.
  intros [Hi He] Hn Hm. unfold bind, modify. set (f0 := set_mode m f).
  destruct (relabel_run (fw_config f) (fw_config f0) (ingress f)) as (Ei & Ci); try done.
  destruct (relabel_run (fw_config f) (fw_config f0) (egress f)) as (Ee & Ce); try done.
  rewrite (on_both_run (reload_ref Modules.CONNTRACKLABEL) f0 _ _ Ei Ee). eexists. split; [done|]. done.
Qed.

Lemma setAcceptEstablished_disabled value f :
  conntrack_mode f = DISABLED ->
  setAcceptEstablished value f = (Throw (RuntimeError "Please enable conntrack first."), f).
Proof using Type. intros Hd. unfold setAcceptEstablished, bind, get. by rewrite bool_decide_eq_true_2. Qed.

Lemma setAcceptEstablished_run value f :
  fw_good f -> conntrack_mode f ≠ DISABLED ->
  exists f', setAcceptEstablished value f = (Ok tt, f') /\ fw_carried f f' /\ conntrack_mode f' = established_next value.
Proof using Type.
  intros Hg Hn. unfold setAcceptEstablished. unfold bind at 1, get. rewrite bool_decide_eq_false_2 by done.
  destruct (relabel_both f (established_next value) Hg Hn) as (f' & Hr & Hc & Hm); [by destruct value|].
  destruct value; cbn [established_next] in *.
  - rewrite (bool_decide_eq_true_2 (ON = ON)), (bool_decide_eq_false_2 (ON = OFF)) by done. cbn [andb].
    case_bool_decide as Ha; cbn [negb]; [|by exists f']. exists f. split; [done|]. split; [by apply fw_carried_refl|done].
  - rewrite (bool_decide_eq_false_2 (OFF = ON)), (bool_decide_eq_true_2 (OFF = OFF)) by done. cbn [andb].
    case_bool_decide as Ha; cbn [negb]; [|by exists f']. exists f. split; [done|]. split; [by apply fw_carried_refl|done].
Qed.

(** ** A new firewall *)
(** What the constructor leaves in one direction. *)
Definition booted (cfg : config) (n : ChainNameEnum) : side :=
  let m k i := Some {| m_kind := k; m_index := i; m_hop := None |} in
  Side n ACCEPT [] [] true 0
    ([m KParser 0; m KConntrackLabel 1; m KChainForwarder 2; m KDefaultAction 3; m KConntrackTableUpdate 4] ++ replicate 11 None)
    false false
    (<[4 := conntrack_table_update_code cfg]> (<[3 := DefaultAction ACCEPT (a_new 1 (cpu_zeros cfg)) (a_new 1 (cpu_zeros cfg))]>
      (<[2 := ChainForwarder 0 2]> (<[1 := conntrack_label_code cfg]>
        (<[0 := Parser 0 None true]> ∅))))).

Lemma booted_good cpus n : n ≠ INVALID_CHAIN -> good (Config AUTOMATIC true cpus) (booted (Config AUTOMATIC true cpus) n).
Proof using Type.
  intros Hn. split; try done.
  - by left.
  - intros i k Hik. exists None. unfold fixed_modules in Hik. rewrite !elem_of_cons, elem_of_nil in Hik.
    destruct Hik as [[= -> ->]|[[= -> ->]|[[= -> ->]|[[= -> ->]|[]]]]]; done.
  - eexists _, _, _. unfold booted, Modules.PARSER. cbn [slots]. rewrite 4!lookup_insert_ne, lookup_insert_eq by done. done.
  - split; [by exists None|]. unfold booted, Modules.CONNTRACKLABEL. cbn [slots].
    by rewrite 3!lookup_insert_ne, lookup_insert_eq by done.
  - eexists _, _. unfold booted, Modules.CHAINFORWARDER. cbn [slots]. by rewrite 2!lookup_insert_ne, lookup_insert_eq by done.
  - eexists _, _. unfold booted, Modules.DEFAULTACTION. cbn [slots defaultAction].
    rewrite lookup_insert_ne, lookup_insert_eq by done. split; [done|]. split; apply a_size_new.
  - eexists. unfold booted, Modules.CONNTRACKTABLEUPDATE. cbn [slots]. rewrite lookup_insert_eq. done.
  - exists 0. split; [lia|]. split; [done|]. intros i Hi. unfold booted. cbn [slots].
    rewrite !lookup_insert_ne, lookup_empty by lia. split; [by intros []|]. change (installed_index _) with 16. lia.
Qed.

Lemma new_firewall_run cpus code :
  new_firewall cpus code = (Ok tt, Firewall AUTOMATIC true cpus (booted (Config AUTOMATIC true cpus) INGRESS)
                                     (booted (Config AUTOMATIC true cpus) EGRESS)).
Proof using Type.
  unfold new_firewall. destruct code; reflexivity.
Qed.

Lemma new_firewall_good cpus code r f : new_firewall cpus code = (r, f) -> r = Ok tt /\ fw_good f.
Proof using Type. rewrite new_firewall_run. intros [= <- <-]. split; [done|]. split; by apply booted_good. Qed.
End modes.
