(* ===== verification/FwExample.v ===== *)
(** pcn-firewall, a small concrete chain: decidable forms of the hypotheses of the
    theorems, and the rules, packets and states on which they are instantiated. *)
From Stdlib Require Import ZArith Lia.
From stdpp Require Import base gmap sets list strings numbers.
From S2P Require Import Prelude.
From S2P Require Import Vec.
From S2P Require Import Bpf.
From S2P Require Import NetUtils.
From S2P Require Import FwRule.
From S2P Require Import FwFlags.
From S2P Require Import FwRuleFacts.
From S2P Require Import FwBits.
From S2P Require Import FwMaps.
From S2P Require Import FwMapsFacts.
From S2P Require Import FwIpFacts.
From S2P Require Import Frame.
From S2P Require Import FwConntrack.
From S2P Require Import FwDatapath.
From S2P Require Import FwPipeline.
From S2P Require Import FwModules.
From S2P Require Import FwChain.
From S2P Require Import FwUpdate.
From S2P Require Import FwStages.
From S2P Require Import FwInstall.
From S2P Require Import FwUpdateChain.
From S2P Require Import FwHorus.
From S2P Require Import FwRun.
From S2P Require Import FwFirstMatch.
From S2P Require Import FwCounters.
From S2P Require Import FwConnFacts.
From S2P Require Import FwStream.
From S2P Require Import FwHorusFacts.
From S2P Require Import FwHorusRun.
From S2P Require Import FwOps.
From S2P Require Import FwBatch.
From S2P Require Import FwFirewall.
From S2P Require Import FwModes.
#[local] Open Scope Z_scope.

(** ** Deciding that a chain compiles *)
Definition optb {A} (P : A -> bool) (o : option A) : bool := match o with Some a => P a | None => true end.
Definition ip_ok (a : IpAddr) : bool :=
  (0 <=? ip a) && (ip a <? 2 ^ 32) && (0 <=? netmask a) && (netmask a <=? 32) && (ruleId a =? 0) && octets (netmask a).
Definition port_ok (p : Z) : bool := (0 <? p) && (p <? 2 ^ 16).
Definition flags_ok (f : Z * Z) : bool :=
  (0 <=? f.1) && (f.1 <? 256) && (0 <=? f.2) && (f.2 <? 256) && (Z.land f.1 f.2 =? 0).
Definition rule_ok (r : ChainRule) : bool :=
  optb ip_ok (ipSrc r) && optb ip_ok (ipDst r) && optb port_ok (srcPort r) && optb port_ok (dstPort r) &&
  optb known_protocol (l4Proto r) && optb flags_ok (tcpFlags r) &&
  match action r with Some ACCEPT | Some DROP => true | _ => false end.
Fixpoint ids_from (i : Z) (rules : list ChainRule) : bool :=
  match rules with [] => true | r :: rules => (id r =? i) && ids_from (i + 1) rules end.
Definition chain_ok (rules : list ChainRule) : bool :=
  forallb rule_ok rules && ids_from 0 rules && (Z.of_nat (length rules) <? 1024).

Lemma optb_spec {A} (P : A -> bool) (Q : A -> Prop) o : optb P o = true -> (forall a, P a = true -> Q a) -> opt Q o.
Proof. intros Ho HQ a ->. by apply HQ. Qed.

Lemma ip_ok_spec a : ip_ok a = true -> wf_ip a /\ octets (netmask a) = true.
Proof. unfold ip_ok, wf_ip. rewrite !andb_true_iff. intros (((((? & ?) & ?) & ?) & ?) & ->). split; [lia|done]. Qed.

Lemma rule_ok_spec r : rule_ok r = true -> wf_rule r /\ plain_rule r /\ action_supported r.
Proof.
  unfold rule_ok. rewrite !andb_true_iff. intros ((((((Hs & Hd) & Hsp) & Hdp) & Hp) & Hf) & Ha).
  assert (forall o, optb port_ok o = true -> opt wf_port o /\ o <> Some 0) as Hport.
  { intros o Ho. split; [|by intros ->]. eapply optb_spec; [done|]. unfold port_ok, wf_port. intros a. lia. }
  assert (forall o q, optb ip_ok o = true -> (fun a => (ip a, netmask a)) <$> o = Some q -> octets q.2 = true) as Hip.
  { intros [a|] q Ho; [|done]. intros [= <-]. by apply ip_ok_spec. }
  split; [split|split; [split|]].
  - eapply optb_spec; [done|]. intros a Ha'. by apply ip_ok_spec.
  - eapply optb_spec; [done|]. intros a Ha'. by apply ip_ok_spec.
  - by apply Hport.
  - by apply Hport.
  - by eapply optb_spec.
  - eapply optb_spec; [done|]. unfold flags_ok, wf_flags. intros a. lia.
  - by destruct (action r).
  - intros q. apply Hip, Hs.
  - intros q. apply Hip, Hd.
  - by apply Hport.
  - by apply Hport.
  - unfold action_supported. destruct (action r) as [[]|]; try done; eauto.
Qed.

Lemma ids_from_spec i rules k r : ids_from i rules = true -> rules !! k = Some r -> id r = i + Z.of_nat k.
Proof.
  revert i k. induction rules as [|x rules IH]; intros i k; [done|]. cbn [ids_from]. rewrite andb_true_iff.
  intros [Hx%Z.eqb_eq Hr]. destruct k as [|k]; simpl; [intros [= <-]; lia|]. intros Hk. rewrite (IH (i + 1) k Hr Hk). lia.
Qed.

Lemma length_remove_dups `{EqDecision A} (l : list A) : (length (remove_dups l) <= length l)%nat.
Proof. induction l as [|a l IH]; [done|]. simpl. case_decide; simpl; lia. Qed.

Lemma chain_ok_spec rules : chain_ok rules = true -> compilable rules.
Proof.
  unfold chain_ok. rewrite !andb_true_iff, forallb_forall. intros [[Hr Hi] Hn].
  assert (forall r, r ∈ rules -> wf_rule r /\ plain_rule r /\ action_supported r) as Hall.
  { intros r Hin. apply rule_ok_spec, Hr. by apply list_elem_of_In. }
  assert (forall type, few_prefixes rules type) as Hfew.
  { intros type. unfold few_prefixes.
    pose proof (length_remove_dups (omap (prefix_of type) rules)). pose proof (length_omap_le (prefix_of type) rules). lia. }
  split; try (intros r Hin; by apply Hall); try done.
  split; [|lia|intros r Hin; by apply Hall].
  intros i r Hk. rewrite (ids_from_spec 0 rules i r Hi Hk). lia.
Qed.

(** ** A compiled chain *)
Definition example_cfg : config := Config AUTOMATIC true 2.
Definition key0 : HorusRule :=
  {| h_src_ip := 0; h_dst_ip := 0; h_l4proto := 0; h_src_port := 0; h_dst_port := 0; h_setFields := 0 |}.
Definition conf_of (n : Z) (src proto : option string) (dport : option Z) (ct : option ConntrackstatusEnum)
    (a : option ActionEnum) : RuleConf :=
  {| m_id := n; m_idIsSet := true; m_src := src; m_dst := None; m_l4proto := proto; m_sport := None; m_dport := dport;
     m_tcpflags := None; m_conntrack := ct; m_action := a; m_description := None |}.
Definition ssh_conf : RuleConf := conf_of 0 (Some "10.0.0.1"%string) (Some "tcp"%string) (Some 22) None (Some DROP).
Definition subnet_conf : RuleConf := conf_of 0 (Some "10.1.0.0/16"%string) None None None (Some ACCEPT).
Definition new_conf : RuleConf := conf_of 0 None None None (Some NEW) (Some ACCEPT).

Definition ssh_rule (n : Z) : ChainRule :=
  {| id := n; conntrack := None; ipSrc := Some {| ip := 16777226; netmask := 32; ruleId := 0 |}; ipDst := None;
     srcPort := None; dstPort := Some 22; l4Proto := Some IPPROTO_TCP; tcpFlags := None; action := Some DROP;
     description := None |}.
Definition subnet_rule (n : Z) : ChainRule :=
  {| id := n; conntrack := None; ipSrc := Some {| ip := 266; netmask := 16; ruleId := 0 |}; ipDst := None;
     srcPort := None; dstPort := None; l4Proto := None; tcpFlags := None; action := Some ACCEPT; description := None |}.
Definition new_rule (n : Z) : ChainRule :=
  {| id := n; conntrack := Some NEW; ipSrc := None; ipDst := None; srcPort := None; dstPort := None; l4Proto := None;
     tcpFlags := None; action := Some ACCEPT; description := None |}.
Definition example_rules : list ChainRule := [ssh_rule 0; subnet_rule 1; new_rule 2].

Lemma example_compilable : compilable example_rules.
Proof. by apply chain_ok_spec. Qed.

(** A side of a new firewall, and the same after the compilation of [rules]. *)
Definition example_side (rules : list ChainRule) : side := set_rules (Some <$> rules) (booted example_cfg INGRESS).
Definition compiled (rules : list ChainRule) : side := (updateChain example_cfg key0 (example_side rules)).2.

Lemma example_good rules : good example_cfg (example_side rules).
Proof.
  assert (example_side rules = set_counters [] (set_rules (Some <$> rules) (booted example_cfg INGRESS))) as -> by done.
  apply good_set_rules. by apply booted_good.
Qed.

Lemma compiled_run rules :
  compilable rules ->
  guarding example_cfg rules (compiled rules) /\ same_chain (example_side rules) (compiled rules).
Proof.
  intros Hco. destruct (updateChain_guards example_cfg key0 _ rules (example_good rules) eq_refl Hco) as (s' & E & Hg).
  unfold compiled. by rewrite E.
Qed.

Lemma compiled_single rules : compilable rules -> is_single_op_on_chain (compiled rules) = true.
Proof. intros Hco. destruct (compiled_run rules Hco) as (_ & _ & _ & _ & _ & ->). done. Qed.
Lemma compiled_default rules : compilable rules -> defaultAction (compiled rules) = ACCEPT.
Proof. intros Hco. by destruct (compiled_run rules Hco) as (_ & _ & -> & _). Qed.

Lemma compiled_stored rules :
  compilable rules -> (length rules <= 2048)%nat -> stored_ok example_cfg rules rules (compiled rules).
Proof.
  intros Hco Hlen. destruct (compiled_run rules Hco) as (Hg & _ & _ & Er & Ec & _).
  split; [done|by rewrite Er|apply Hco|rewrite Ec; simpl; lia|done].
Qed.

(** ** Packets *)
Definition tcp_header (src dport flags : Z) : packetHeaders :=
  {| p_srcIp := src; p_dstIp := 50331658; p_l4proto := IPPROTO_TCP; p_srcPort := 36895; p_dstPort := dport; p_flags := flags;
     p_seqN := 0; p_ackN := 0; p_connStatus := 0; p_forwardingDecision := 0 |}.
(** An Ethernet frame with an IPv4 header, a TCP header and nothing else. *)
Definition tcp_frame (src : list Z) (dport : list Z) (flags : Z) : list Z :=
  [2; 0; 0; 0; 0; 1; 2; 0; 0; 0; 0; 2; 8; 0] ++
  [69; 0; 0; 40; 0; 0; 64; 0; 64; 6; 0; 0] ++ src ++ [10; 0; 0; 3] ++
  [31; 144] ++ dport ++ [0; 0; 0; 1; 0; 0; 0; 0; 80; flags; 255; 255; 0; 0; 0; 0].
Definition example_ctx : ctx := {| c_cpu := 0; c_len := 54; c_timestamp := 1000000000 |}.
Definition example_arrival (src dport : list Z) (flags : Z) : arrival :=
  Arrival example_ctx (tcp_frame src dport flags) (tcp_header 0 0 0) (replicate 131 0).

Lemma example_arrival_wf src dport flags :
  forallb (fun b => (0 <=? b) && (b <? 256)) (tcp_frame src dport flags) = true -> wf_arrival (example_arrival src dport flags).
Proof.
  intros Hf. split; [|split; [|done]].
  - apply list.Forall_forall. intros x Hx%list_elem_of_In. unfold is_byte. rewrite forallb_forall in Hf. specialize (Hf x Hx). lia.
  - split; try (cbn; unfold IPPROTO_TCP; lia). apply (bool_decide_eq_true_1 (0 ∈ statesVector)). reflexivity.
Qed.
