(* ===== verification/FwTheorems.v ===== *)
(** pcn-firewall, what the chains promise: the rules stored by the operations are
    the ones that packets meet, in order, with their counters. *)
From Stdlib Require Import ZArith Lia.
From stdpp Require Import base gmap sets list strings numbers.
From S2P Require Import Prelude.
From S2P Require Import Vec.
From S2P Require Import Bpf.
From S2P Require Import NetUtils.
From S2P Require Import FwRule.
From S2P Require Import FwFlags.
From S2P Require Import FwRuleFacts.
From S2P Require Import FwBits.
From S2P Require Import FwMaps.
From S2P Require Import FwMapsFacts.
From S2P Require Import FwIpFacts.
From S2P Require Import Frame.
From S2P Require Import FwConntrack.
From S2P Require Import FwDatapath.
From S2P Require Import FwPipeline.
From S2P Require Import FwModules.
From S2P Require Import FwChain.
From S2P Require Import FwUpdate.
From S2P Require Import FwStages.
From S2P Require Import FwInstall.
From S2P Require Import FwUpdateChain.
From S2P Require Import FwHorus.
From S2P Require Import FwRun.
From S2P Require Import FwFirstMatch.
From S2P Require Import FwCounters.
From S2P Require Import FwConnFacts.
From S2P Require Import FwStream.
From S2P Require Import FwHorusFacts.
From S2P Require Import FwHorusRun.
From S2P Require Import FwOps.
From S2P Require Import FwBatch.
From S2P Require Import FwFirewall.
From S2P Require Import FwModes.
From S2P Require Import FwExample.
#[local] Open Scope Z_scope.
#[local] Open Scope cpp_scope.

Section chain.
Context `{Inet} `{Tables ct_k ct_v}.



(** C3. While connections are tracked, the exact-match table of the first rules (Horus)
    is transparent: after compiling a chain of [compilable] rules (ACCEPT or DROP,
    prefixes of whole octets, no port 0) from any state that it can be in, and any
    stream of packets, a packet that runs through the loaded programs, the table's among
    them, gets the verdict and leaves the connections of the rules alone, except that an
    established connection's packet that a DROP rule of the table matches is dropped
    even when established connections are let through. The rules that go into the table
    must be [horus_exact]: whole addresses (/32), ports only with TCP or UDP, no TCP
    flags and no connection status; for others see [horus_ignores_prefixes]. *)
Theorem horus_transparent cfg key0 s rules :
  conntrackMode cfg ≠ DISABLED -> good cfg s -> rules_ s = Some <$> rules -> compilable rules ->
  (forall r, r ∈ chain_head cfg rules -> horus_exact r) ->
  exists s', updateChain cfg key0 s = (Ok tt, s') /\
    forall l a connections, Forall wf_arrival l -> wf_arrival a ->
      exists vs sl conn v sl' d', receive_all l (slots s') connections = Some (vs, sl, conn) /\
        receive 32 (a_ctx a) sl (arrives a conn) = Some (v, sl', d') /\
        let f := firewall_verdict cfg (cfg_mode cfg) rules (defaultAction s) (a_ctx a) (arrives a conn) in
        (v = f.1 /\ d_connections d' = d_connections f.2) \/ (horus_cuts cfg rules (arrives a conn) /\ v = RX_DROP).
Proof.
  intros Hm Hg Hr Hco Hex. destruct (updateChain_guards cfg key0 s rules Hg Hr Hco) as (s' & Hu & Hgd & (_ & Ed & _)).
  exists s'. split; [done|]. intros l a conn0 Hl Ha. destruct (guarded_stream cfg rules s' l conn0 Hco Hgd Hl) as (sl & Hrl & Hgd').
  set (conn := (verdicts (guarded_verdict cfg rules (defaultAction s')) l conn0).2) in *.
  destruct (receive_guarded cfg rules (set_slots sl s') a conn Hco Hgd' Ha) as (sl' & d' & Hra & (_ & _ & Ec) & _).
  eexists _, sl, conn, _, sl', d'. split; [exact Hrl|]. split; [exact Hra|]. cbv zeta. rewrite Ec.
  change (defaultAction (set_slots sl s')) with (defaultAction s'). rewrite <- Ed. apply horus_agrees_rules; [done|apply Hco|done|by destruct Ha as (? & ? & ?)].
Qed.

(** Adding a rule at a position (an update of the rule there, or one past the
    last) stores it there, collects every rule's statistics, and compiles the
    chain unless a batch is running. *)
Theorem addRule_correct cfg key0 old rules s i conf r :
  stored_ok cfg old rules s -> (i <= length rules)%nat -> m_id conf = Z.of_nat i -> is_Some (m_action conf) ->
  make_ChainRule (isContrackActive cfg) conf = Ok r -> (length (placed_rule i r rules) <= 2048)%nat ->
  (is_single_op_on_chain s = true -> compilable (placed_rule i r rules)) ->
  exists s' cs, addRule cfg key0 (Z.of_nat i) conf s = (Ok tt, s') /\
    stored_ok cfg (if is_single_op_on_chain s then placed_rule i r rules else old) (placed_rule i r rules) s' /\
    collected_stats s cs /\ counters_ s' = Some <$> cs /\ is_single_op_on_chain s' = is_single_op_on_chain s.
Proof. apply addRule_run. Qed.

(** Appending a rule puts it last, with the next id, and compiles the chain
    with it. *)
Theorem append_correct cfg key0 rules s conf r :
  stored_ok cfg rules rules s -> is_single_op_on_chain s = true -> is_Some (m_action conf) ->
  make_ChainRule (isContrackActive cfg) (with_id (Z.of_nat (length rules)) conf) = Ok r ->
  (length rules < 2048)%nat -> compilable (rules ++ [r]) ->
  exists s' cs, append cfg key0 conf s = (Ok (Z.of_nat (length rules)), s') /\
    stored_ok cfg (rules ++ [r]) (rules ++ [r]) s' /\ collected_stats s cs /\ counters_ s' = Some <$> cs /\
    is_single_op_on_chain s' = true.
Proof. apply append_run. Qed.

(** C5. Inserting a rule that parses and has an action, at a position up to the end of a
    chain of fewer than 2048 rules, shifts the later rules and their statistics by one
    with identifiers renewed and gives the new rule zero counters. Outside of a batch
    the new rules, which must be [compilable] (no LOG, prefixes of whole octets, no port
    0), are then compiled and loaded; inside of a batch the loaded programs stay those
    of the old rules until its end. *)
Theorem insert_correct cfg key0 old rules s conf i r :
  stored_ok cfg old rules s -> insert_position conf = Z.of_nat i -> (i <= length rules)%nat -> is_Some (m_action conf) ->
  make_ChainRule (isContrackActive cfg) conf = Ok r -> (length rules < 2048)%nat ->
  (is_single_op_on_chain s = true -> compilable (inserted_rules i r rules)) ->
  exists s' cs, insert cfg key0 conf s = (Ok (Z.of_nat i), s') /\
    stored_ok cfg (if is_single_op_on_chain s then inserted_rules i r rules else old) (inserted_rules i r rules) s' /\
    collected_stats s cs /\ counters_ s' = Some <$> inserted set_stats_id i (zero_stats (Z.of_nat i)) cs /\
    is_single_op_on_chain s' = is_single_op_on_chain s.
Proof. apply insert_run. Qed.

(** Deleting a rule closes the gap in the rules and in their statistics, and
    renews the ids after it. *)
Theorem delRule_correct cfg key0 old rules s i :
  stored_ok cfg old rules s -> (i < length rules)%nat ->
  (is_single_op_on_chain s = true -> compilable (deleted set_id i rules)) ->
  exists s' cs, delRule cfg key0 (Z.of_nat i) s = (Ok tt, s') /\
    stored_ok cfg (if is_single_op_on_chain s then deleted set_id i rules else old) (deleted set_id i rules) s' /\
    collected_stats s cs /\ counters_ s' = Some <$> deleted set_stats_id i cs /\
    is_single_op_on_chain s' = is_single_op_on_chain s.
Proof. apply delRule_run. Qed.

(** C4. A batch of operations of which none throws a pointer (a rule on connection
    status while tracking is off does, and leaves the batch open, see [batch_left_open])
    and whose final rules are [compilable] runs its operations in order on the rules as
    the abstract operations on lists do, goes on past those that fail with an exception,
    compiles the chain once at the end, and reports exactly the failed operations by
    number. The rules and the operations together are at most 2048, and no identifier is
    negative. *)
Theorem batch_correct cfg key0 rules s ops rules' failed :
  stored_ok cfg rules rules s -> (length rules + length ops <= 2048)%nat ->
  (forall op val, (op, val) ∈ ops -> 0 <= m_id val) ->
  apply_ops (isContrackActive cfg) rules ops 1 = Some (rules', failed) -> compilable rules' ->
  exists s', batch cfg key0 (Some ops) s =
      (match failed with
       | [] => Ok tt
       | _ => Throw (RuntimeError (batch_message (Z.of_nat (length ops)) failed))
       end, s') /\ stored_ok cfg rules' rules' s' /\ is_single_op_on_chain s' = true.
Proof. apply batch_run. Qed.

(** Deleting all rules empties the chain and its statistics, and leaves the
    empty chain compiled even within a batch. *)
Theorem delRuleList_correct cfg key0 old rules s :
  stored_ok cfg old rules s ->
  exists s', delRuleList cfg key0 s = (Ok tt, s') /\ stored_ok cfg [] [] s' /\ counters_ s' = [] /\
    is_single_op_on_chain s' = is_single_op_on_chain s.
Proof. apply delRuleList_run. Qed.

(** Deleting by value deletes the first rule that says the same as the given
    configuration, and throws when there is none or the configuration is bad. *)
Theorem deletes_first_equal cfg key0 rules conf s :
  rules_ s = Some <$> rules ->
  deletes cfg key0 conf s =
  match rules with
  | [] => (Throw (RuntimeError "no matching rule to delete"), s)
  | _ =>
      match make_ChainRule (isContrackActive cfg) conf with
      | Ok c =>
          match list_find (fun r => equal r c = true) rules with
          | Some (k, _) => delRule cfg key0 (Z.of_nat k) s
          | None => (Throw (RuntimeError "no matching rule to delete"), s)
          end
      | Throw e => (Throw e, s)
      | Undefined => (Undefined, s)
      end
  end.
Proof.
  intros Hr. unfold deletes. unfold bind at 1, get. rewrite Hr, deletes_from_run. destruct rules; [done|].
  destruct (make_ChainRule _ conf); done.
Qed.

(** C6. A rule that is refused (a position past the end, no action, or a field that
    does not parse) leaves the chain, the counters and the loaded programs
    exactly as they were. *)
Theorem refused_rule_changes_nothing cfg key0 i conf s e :
  i > getNrRules s \/ m_action conf = None \/ make_ChainRule (isContrackActive cfg) conf = Throw e ->
  (exists e', addRule cfg key0 i conf s = (Throw e', s)) /\
  (i = insert_position conf -> exists e', insert cfg key0 conf s = (Throw e', s)) /\
  (i > getNrRules s -> exists e', delRule cfg key0 i s = (Throw e', s)).
Proof.
  intros Hcase. split; [|split].
  - destruct (decide (getNrRules s < i)); [eexists; by apply addRule_beyond|].
    destruct (m_action conf) eqn:Ea; [|eexists; apply addRule_no_action; [lia|done]].
    destruct Hcase as [?|[?|Hm]]; [lia|done|]. eexists. apply addRule_bad; [lia|by rewrite Ea|done].
  - intros ->. destruct (decide (getNrRules s < insert_position conf)); [eexists; by apply insert_beyond|].
    destruct (m_action conf) eqn:Ea; [|eexists; apply insert_no_action; [lia|done]].
    destruct Hcase as [?|[?|Hm]]; [lia|done|]. eexists. apply insert_bad; [lia|by rewrite Ea|done].
  - intros Hi. eexists. apply delRule_beyond. lia.
Qed.

End chain.

(** * The theorems on a concrete chain *)
Definition wall : list arrival :=
  [example_arrival [10; 0; 0; 1] [0; 22] 2; example_arrival [10; 1; 0; 2] [0; 80] 2; example_arrival [11; 0; 0; 1] [0; 22] 16].
Lemma wall_wf : Forall wf_arrival wall.
Proof. repeat (apply List.Forall_cons; [by apply example_arrival_wf|]). constructor. Qed.




(** The table in front of [head_rules] holds the first rule. *)
Definition head_rules : list ChainRule := [ssh_rule 0; new_rule 1].
Lemma head_exact r : r ∈ chain_head example_cfg head_rules -> horus_exact r.
Proof.
  change (chain_head example_cfg head_rules) with [ssh_rule 0]. rewrite list_elem_of_singleton. intros ->.
  split; simpl; try done; [by intros a [= <-]|by left].
Qed.

Lemma horus_transparent_witness :
  exists s', updateChain example_cfg key0 (example_side head_rules) = (Ok tt, s') /\
    let a := example_arrival [10; 0; 0; 1] [0; 22] 2 in
    exists sl conn v sl' d', receive 32 (a_ctx a) sl (arrives a conn) = Some (v, sl', d') /\
      let f := firewall_verdict example_cfg (cfg_mode example_cfg) head_rules ACCEPT (a_ctx a) (arrives a conn) in
      (v = f.1 /\ d_connections d' = d_connections f.2) \/ (horus_cuts example_cfg head_rules (arrives a conn) /\ v = RX_DROP).
Proof.
  assert (compilable head_rules) as Hco by by apply chain_ok_spec. assert (conntrackMode example_cfg ≠ DISABLED) as Hm by done.
  destruct (horus_transparent example_cfg key0 (example_side head_rules) head_rules Hm (example_good _) eq_refl Hco head_exact) as (s' & Hu & Hall).
  exists s'. split; [exact Hu|]. intros a.
  destruct (Hall wall a (∅ : gmap ct_k ct_v) wall_wf (example_arrival_wf [10; 0; 0; 1] [0; 22] 2 eq_refl)) as (vs & sl & conn & v & sl' & d' & _ & Hr & Hv).
  exists sl, conn, v, sl', d'. split; [exact Hr|exact Hv].
Defined.

(** The rules of [example_rules], compiled. *)
Definition example_state : side := compiled example_rules.
Lemma example_stored : stored_ok example_cfg example_rules example_rules example_state.
Proof. apply compiled_stored; [apply example_compilable|simpl; lia]. Qed.
Lemma example_single : is_single_op_on_chain example_state = true.
Proof. apply compiled_single, example_compilable. Qed.

Definition update_conf : RuleConf := conf_of 1 (Some "10.1.0.0/16"%string) None None None (Some DROP).
Definition updated_rule : ChainRule :=
  {| id := 1; conntrack := None; ipSrc := Some {| ip := 266; netmask := 16; ruleId := 0 |}; ipDst := None;
     srcPort := None; dstPort := None; l4Proto := None; tcpFlags := None; action := Some DROP; description := None |}.
Lemma addRule_correct_witness :
  exists s' cs, addRule example_cfg key0 1 update_conf example_state = (Ok tt, s') /\
    stored_ok example_cfg [ssh_rule 0; updated_rule; new_rule 2] [ssh_rule 0; updated_rule; new_rule 2] s' /\
    counters_ s' = Some <$> cs.
Proof.
  destruct (addRule_correct example_cfg key0 example_rules example_rules example_state 1 update_conf updated_rule)
    as (s' & cs & Ha & Hs & _ & Hc & _).
  - exact example_stored.
  - simpl; lia.
  - done.
  - by eexists.
  - vm_compute. reflexivity.
  - simpl; lia.
  - intros _. by apply chain_ok_spec.
  - rewrite example_single in Hs. exists s', cs. split; [exact Ha|]. split; [exact Hs|exact Hc].
Defined.

Lemma append_correct_witness :
  exists s' cs, append example_cfg key0 subnet_conf example_state = (Ok 3, s') /\
    stored_ok example_cfg (example_rules ++ [subnet_rule 3]) (example_rules ++ [subnet_rule 3]) s' /\
    counters_ s' = Some <$> cs.
Proof.
  destruct (append_correct example_cfg key0 example_rules example_state subnet_conf (subnet_rule 3))
    as (s' & cs & Ha & Hs & _ & Hc & _).
  - exact example_stored.
  - exact example_single.
  - by eexists.
  - vm_compute. reflexivity.
  - simpl; lia.
  - by apply chain_ok_spec.
  - exists s', cs. split; [exact Ha|]. split; [exact Hs|exact Hc].
Defined.

Definition insert_conf : RuleConf := conf_of 1 (Some "10.1.0.0/16"%string) None None None (Some ACCEPT).
Lemma insert_correct_witness :
  exists s' cs, insert example_cfg key0 insert_conf example_state = (Ok 1, s') /\
    stored_ok example_cfg [ssh_rule 0; subnet_rule 1; subnet_rule 2; new_rule 3]
      [ssh_rule 0; subnet_rule 1; subnet_rule 2; new_rule 3] s' /\
    counters_ s' = Some <$> inserted set_stats_id 1 (zero_stats 1) cs.
Proof.
  destruct (insert_correct example_cfg key0 example_rules example_rules example_state insert_conf 1 (subnet_rule 1))
    as (s' & cs & Ha & Hs & _ & Hc & _).
  - exact example_stored.
  - done.
  - simpl; lia.
  - by eexists.
  - vm_compute. reflexivity.
  - simpl; lia.
  - intros _. by apply chain_ok_spec.
  - rewrite example_single in Hs. exists s', cs. split; [exact Ha|]. split; [exact Hs|exact Hc].
Defined.

Lemma delRule_correct_witness :
  exists s' cs, delRule example_cfg key0 0 example_state = (Ok tt, s') /\
    stored_ok example_cfg [subnet_rule 0; new_rule 1] [subnet_rule 0; new_rule 1] s' /\
    counters_ s' = Some <$> deleted set_stats_id 0 cs.
Proof.
  destruct (delRule_correct example_cfg key0 example_rules example_rules example_state 0)
    as (s' & cs & Ha & Hs & _ & Hc & _).
  - exact example_stored.
  - simpl; lia.
  - intros _. by apply chain_ok_spec.
  - rewrite example_single in Hs. exists s', cs. split; [exact Ha|]. split; [exact Hs|exact Hc].
Defined.

(** A batch: a rule at the end, one past the end, one in front, and a deletion. *)
Definition example_ops : list (OperationEnum * RuleConf) :=
  [(APPEND, new_conf); (UPDATE, conf_of 9 None None None None (Some DROP)); (INSERT, ssh_conf);
   (DELETE, conf_of 3 None None None None None)].
Lemma batch_correct_witness :
  exists s', batch example_cfg key0 (Some example_ops) example_state =
      (Throw (RuntimeError (batch_message 4 [2])), s') /\
    stored_ok example_cfg [ssh_rule 0; ssh_rule 1; subnet_rule 2; new_rule 3]
      [ssh_rule 0; ssh_rule 1; subnet_rule 2; new_rule 3] s'.
Proof.
  destruct (batch_correct example_cfg key0 example_rules example_state example_ops
    [ssh_rule 0; ssh_rule 1; subnet_rule 2; new_rule 3] [2]) as (s' & Hb & Hs & _).
  - exact example_stored.
  - simpl; lia.
  - intros op val Hin. unfold example_ops in Hin. rewrite !elem_of_cons, elem_of_nil in Hin.
    destruct Hin as [[= -> ->]|[[= -> ->]|[[= -> ->]|[[= -> ->]|[]]]]]; simpl; lia.
  - vm_compute. reflexivity.
  - by apply chain_ok_spec.
  - exists s'. split; [exact Hb|exact Hs].
Defined.

Lemma delRuleList_correct_witness :
  exists s', delRuleList example_cfg key0 example_state = (Ok tt, s') /\ stored_ok example_cfg [] [] s' /\ counters_ s' = [].
Proof.
  destruct (delRuleList_correct example_cfg key0 example_rules example_rules example_state example_stored)
    as (s' & Hd & Hs & Hc & _).
  exists s'. split; [exact Hd|]. split; [exact Hs|exact Hc].
Defined.

Lemma deletes_first_equal_witness :
  deletes example_cfg key0 (conf_of 7 None None None (Some NEW) (Some ACCEPT)) example_state =
  delRule example_cfg key0 2 example_state.
Proof.
  rewrite (deletes_first_equal example_cfg key0 example_rules (conf_of 7 None None None (Some NEW) (Some ACCEPT))
    example_state (so_rules _ _ _ _ example_stored)).
  assert (make_ChainRule (isContrackActive example_cfg) (conf_of 7 None None None (Some NEW) (Some ACCEPT)) = Ok (new_rule 7))
    as -> by (vm_compute; reflexivity).
  assert (list_find (fun r => equal r (new_rule 7) = true) example_rules = Some (2%nat, new_rule 2)) as -> by (vm_compute; reflexivity).
  reflexivity.
Defined.

Lemma refused_rule_changes_nothing_witness :
  exists e, addRule example_cfg key0 1 (conf_of 1 None (Some "sctp"%string) None None (Some DROP)) example_state =
    (Throw e, example_state).
Proof.
  refine (proj1 (refused_rule_changes_nothing example_cfg key0 1 (conf_of 1 None (Some "sctp"%string) None None (Some DROP))
    example_state (RuntimeError "Protocol not supported.") _)).
  right. right. vm_compute. reflexivity.
Defined.

