(* ===== verification/FwLaws.v ===== *)
(** pcn-firewall, what its parts promise: the connection tracking mode, the
    connection table, the match tables, the rules and their text. *)
From Stdlib Require Import ZArith Lia.
From stdpp Require Import base gmap sets list strings numbers.
From S2P Require Import Prelude.
From S2P Require Import Vec.
From S2P Require Import Bpf.
From S2P Require Import NetUtils.
From S2P Require Import FwRule.
From S2P Require Import FwFlags.
From S2P Require Import FwRuleFacts.
From S2P Require Import FwBits.
From S2P Require Import FwMaps.
From S2P Require Import FwMapsFacts.
From S2P Require Import FwIpFacts.
From S2P Require Import Frame.
From S2P Require Import FwConntrack.
From S2P Require Import FwDatapath.
From S2P Require Import FwPipeline.
From S2P Require Import FwModules.
From S2P Require Import FwChain.
From S2P Require Import FwUpdate.
From S2P Require Import FwStages.
From S2P Require Import FwInstall.
From S2P Require Import FwUpdateChain.
From S2P Require Import FwHorus.
From S2P Require Import FwRun.
From S2P Require Import FwFirstMatch.
From S2P Require Import FwCounters.
From S2P Require Import FwConnFacts.
From S2P Require Import FwStream.
From S2P Require Import FwHorusFacts.
From S2P Require Import FwHorusRun.
From S2P Require Import FwOps.
From S2P Require Import FwBatch.
From S2P Require Import FwFirewall.
From S2P Require Import FwModes.
From S2P Require Import FwExample.
#[local] Open Scope Z_scope.
#[local] Open Scope cpp_scope.

(** * The mode of connection tracking *)
Section modes.
Context `{Inet} `{Tables ct_k ct_v}.

(** A call of one of the two setters that returns. *)
Inductive configures : firewall -> firewall -> Prop :=
  | configures_conntrack value f f' : setConntrack value f = (Ok tt, f') -> configures f f'
  | configures_established value f f' : setAcceptEstablished value f = (Ok tt, f') -> configures f f'.

(** The constructor leaves both directions in a state that a chain can be
    compiled from, with no rules and connections let through once established. *)
Theorem new_firewall_ready cpus code :
  exists f, new_firewall cpus code = (Ok tt, f) /\ fw_good f /\ conntrack_mode f = AUTOMATIC /\
    rules_ (ingress f) = [] /\ rules_ (egress f) = [].
Proof.
  rewrite new_firewall_run. eexists. split; [done|]. split; [|done]. split; by apply booted_good.
Qed.

(** Turning connection tracking on or off always succeeds: both directions
    stay ready, the programs that depend on the mode are loaded for the new one
    (the label program is loaded or removed), and rules that were enforced are
    enforced in the new mode. *)
Theorem setConntrack_correct value f :
  fw_good f -> exists f', setConntrack value f = (Ok tt, f') /\ fw_carried f f' /\
    conntrack_mode f' = conntrack_next value (conntrack_mode f) /\ getConntrack f' = value.
Proof.
  intros Hg. destruct (setConntrack_run value f Hg) as (f' & Hr & Hc & Hm). exists f'. do 3 (split; [done|]).
  unfold getConntrack. rewrite Hm. by destruct value, (conntrack_mode f).
Qed.

(** Letting established connections through is refused, with no change, while
    tracking is off; otherwise it takes effect in both directions and the rules
    stay enforced. *)
Theorem setAcceptEstablished_correct value f :
  fw_good f ->
  (conntrack_mode f = DISABLED /\
   setAcceptEstablished value f = (Throw (RuntimeError "Please enable conntrack first."), f)) \/
  (conntrack_mode f ≠ DISABLED /\
   exists f', setAcceptEstablished value f = (Ok tt, f') /\ fw_carried f f' /\ getAcceptEstablished f' = value).
Proof.
  intros Hg. destruct (decide (conntrack_mode f = DISABLED)) as [Hd|Hd].
  - left. split; [done|by apply setAcceptEstablished_disabled].
  - right. split; [done|]. destruct (setAcceptEstablished_run value f Hg Hd) as (f' & Hr & Hc & Hm).
    exists f'. do 2 (split; [done|]). unfold getAcceptEstablished. rewrite Hm. by destruct value.
Qed.

Lemma carried_trans cfg1 cfg2 cfg3 s1 s2 s3 : carried cfg1 cfg2 s1 s2 -> carried cfg2 cfg3 s2 s3 -> carried cfg1 cfg3 s1 s3.
Proof using Type.
  intros (? & ? & Er & ? & ? & Hc) (? & ? & ? & ? & ? & Hc'). split; [done|]. do 4 (split; [congruence|]).
  intros rules Hr He. apply Hc'; [by rewrite Er|by apply Hc].
Qed.
Lemma configures_carried f f' : fw_good f -> configures f f' -> fw_carried f f'.
Proof using Type.
  intros Hg Hs. destruct Hs as [value f f' Hs|value f f' Hs].
  - destruct (setConntrack_run value f Hg) as (f2 & Hr & Hc & _). rewrite Hr in Hs. by injection Hs as <-.
  - destruct (decide (conntrack_mode f = DISABLED)) as [Hd|Hd].
    + by rewrite setAcceptEstablished_disabled in Hs.
    + destruct (setAcceptEstablished_run value f Hg Hd) as (f2 & Hr & Hc & _). rewrite Hr in Hs. by injection Hs as <-.
Qed.

(** However the mode is changed, and however often, the rules of each chain stay
    enforced, and its statistics, default action and stored rules stay put. *)
Theorem reconfigured_keeps_rules f f' :
  fw_good f -> rtc configures f f' -> fw_carried f f'.
Proof.
  intros Hg Hs. revert Hg. induction Hs as [f|f f1 f2 H1 H2 IH]; intros Hg; [by apply fw_carried_refl|].
  pose proof (configures_carried _ _ Hg H1) as [Hi He]. destruct (IH (fw_carried_good _ _ (conj Hi He))) as [Hi' He'].
  split; by eapply carried_trans.
Qed.
End modes.

(** * The connection table *)
Section connections.
Context `{Inet} `{Tables ct_k ct_v}.

(** The programs only ever write well-formed connections: over any stream of
    packets each entry of the table keeps a state of its protocol's machine. *)
Theorem connections_stay_ok cfg rules dflt l connections :
  ct_ok connections -> ct_ok (verdicts (guarded_verdict cfg rules dflt) l connections).2.
Proof. apply verdicts_ct_ok. intros c d. apply guarded_ct_ok. Qed.

(** Only packets of a connection in the table, in one of its two directions,
    are labelled established. *)
Theorem established_is_known conn frame pkt frame' :
  ct_label (C := connT) conn frame pkt = Some (CT.ESTABLISHED, frame') ->
  exists v d, connection conn pkt = Some (v, d) /\ d ≠ Miss.
Proof. apply established_known. Qed.

(** C38. The three packets that open a TCP connection are NEW, ESTABLISHED and
    ESTABLISHED, and leave the connection established, whatever the table held
    before and whatever initial sequence numbers do not carry out of their last
    octet. *)
Theorem tcp_handshake t1 t2 t3 (conn : connT) pkt c s :
  p_srcIp pkt ≠ p_dstIp pkt -> connection conn pkt = None -> c mod 256 ≠ 255 -> s mod 256 ≠ 255 ->
  let conn1 := (update_tcp t1 conn (syn_of pkt c)).1 in
  let conn2 := (update_tcp t2 conn1 (syn_ack_of pkt c s)).1 in
  let conn3 := (update_tcp t3 conn2 (ack_of pkt c s)).1 in
  label_tcp conn (syn_of pkt c) = CT.NEW /\
  label_tcp conn1 (syn_ack_of pkt c s) = CT.ESTABLISHED /\
  label_tcp conn2 (ack_of pkt c s) = CT.ESTABLISHED /\
  exists v, connection conn3 pkt = Some (v, Forward) /\ v_state v = CT.ESTABLISHED.
Proof.
  intros Hn Hc Hcm Hsm conn1 conn2 conn3.
  destruct (syn_step t1 conn pkt c Hc) as (L1 & v1 & C1 & S1 & B1 & Q1). rewrite nbo_succ in Q1 by done.
  destruct (syn_ack_step t2 conn1 pkt c s v1 Hn C1 S1 B1 Q1) as (L2 & v2 & C2 & S2 & B2 & Q2). rewrite nbo_succ in Q2 by done.
  destruct (ack_step t3 conn2 pkt c s v2 C2 S2 Q2) as (L3 & v3 & C3 & S3). eauto 10.
Qed.

Lemma nbo_carry c : c mod 256 = 255 -> nbo (c + 1) ≠ u32 (nbo c + HEX_BE_ONE).
Proof using Type.
  intros Hm. pose proof (Z.div_mod c 256 ltac:(lia)) as Hd.
  assert ((c + 1) / 256 = c / 256 + 1 /\ (c + 1) mod 256 = 0) as [E8 E0].
  { split; symmetry; [apply (Z.div_unique _ _ _ 0); lia|apply (Z.mod_unique _ _ (c / 256 + 1)); lia]. }
  unfold nbo, HEX_BE_ONE, u32. rewrite E0, Hm. change (2 ^ 8) with 256 in *. rewrite E8.
  pose proof (fun x => Z.mod_pos_bound x 256 ltac:(lia)) as Hb. set (x := c / 256) in *.
  pose proof (Hb ((c + 1) / 2 ^ 24)). pose proof (Hb ((c + 1) / 2 ^ 16)). pose proof (Hb (x + 1)).
  pose proof (Hb (c / 2 ^ 24)). pose proof (Hb (c / 2 ^ 16)). pose proof (Hb x).
  assert ((x + 1) mod 256 ≠ x mod 256) as Hx.
  { pose proof (Z.div_mod x 256 ltac:(lia)). pose proof (Z.div_mod (x + 1) 256 ltac:(lia)). lia. }
  set (low := c / 2 ^ 24 mod 256 + 256 * (c / 2 ^ 16 mod 256) + 2 ^ 16 * (x mod 256)) in *.
  assert ((low + 2 ^ 24 * 255 + 16777216) mod 2 ^ 32 = low) as ->; [|unfold low; lia].
  symmetry. apply (Z.mod_unique _ _ 1); unfold low; lia.
Qed.

(** When the client's sequence number ends in the octet 255, the number that
    the table expects loses the carry, and the server's answer, which is right,
    is labelled INVALID. *)
Theorem tcp_handshake_carry t (conn : connT) pkt c s :
  p_srcIp pkt ≠ p_dstIp pkt -> connection conn pkt = None -> c mod 256 = 255 ->
  label_tcp (update_tcp t conn (syn_of pkt c)).1 (syn_ack_of pkt c s) = CT.INVALID.
Proof.
  intros Hn Hc Hm. destruct (syn_step t conn pkt c Hc) as (_ & v & C1 & S1 & B1 & Q1).
  set (conn1 := (update_tcp t conn (syn_of pkt c)).1) in *.
  pose proof (connection_answer conn1 pkt (Z.lor TCPHDR_SYN TCPHDR_ACK) (nbo s) (nbo (c + 1)) _ _ Hn C1 B1) as Ha.
  fold (syn_ack_of pkt c s) in Ha. cbn [opposite] in Ha. rewrite label_tcp_connection, Ha.
  unfold label_tcp_reverse. rewrite S1. change (has_flag (p_flags (syn_ack_of pkt c s)) TCPHDR_RST) with false. cbn iota.
  change (p_ackN (syn_ack_of pkt c s)) with (nbo (c + 1)). rewrite Q1.
  pose proof (nbo_carry c Hm) as Hne%Z.eqb_neq. by rewrite Hne.
Qed.

Lemma label_udp_connection (conn : connT) pkt :
  label_udp conn pkt =
  match connection conn pkt with
  | Some (v, Forward) => if v_state v =? CT.NEW then CT.NEW else CT.ESTABLISHED
  | Some (v, Reverse) => CT.ESTABLISHED
  | _ => CT.NEW
  end.
Proof using Type.
  unfold label_udp, connection. destruct (ct_key pkt) as [[k ri] rp]. destruct (lru_lookup conn k) as [v|]; [|done].
  simpl. by destruct (ct_direction v ri rp).
Qed.

(** The two ends of a UDP flow: the first packet is NEW, the first answer
    ESTABLISHED, and from then on so are the packets of both ends. *)
Theorem udp_two_way t1 t2 (conn : connT) pkt f s a :
  p_srcIp pkt ≠ p_dstIp pkt -> connection conn pkt = None ->
  let reply := answer pkt f s a in
  let conn1 := (update_udp t1 conn pkt).1 in
  let conn2 := (update_udp t2 conn1 reply).1 in
  label_udp conn pkt = CT.NEW /\ label_udp conn1 reply = CT.ESTABLISHED /\
  label_udp conn2 pkt = CT.ESTABLISHED /\ label_udp conn2 reply = CT.ESTABLISHED.
Proof.
  intros Hn Hc reply conn1 conn2. destruct (udp_new t1 conn pkt Hc) as (v & C1 & S1 & B1 & _). fold conn1 in C1.
  pose proof (connection_answer conn1 pkt f s a v Forward Hn C1 B1) as C2. cbn [opposite] in C2. fold reply in C2.
  destruct (udp_reverse t2 conn1 reply v C2 S1) as (v' & C3 & S3 & E1 & E2). fold conn2 in C3.
  assert (connection conn2 pkt = Some (v', Forward)) as C4.
  { apply (connection_answer conn2 reply (p_flags pkt) (p_seqN pkt) (p_ackN pkt) v' Reverse).
    - by apply not_eq_sym.
    - done.
    - unfold reversal_bits in *. by rewrite E1, E2. }
  rewrite !label_udp_connection, C2, C3, C4, Hc, S3. done.
Qed.

(** * The list of sessions *)
Lemma session_entry_ok uptime k v :
  entry_ok (k_l4proto k) v ->
  exists l4proto state, forall eta, from_ttl_to_eta uptime (v_ttl v) (v_state v) (k_l4proto k) = Ok eta ->
    session_entry uptime (k, v) = Ok {| ss_src := nbo_uint_to_ip_string (k_srcIp k); ss_dst := nbo_uint_to_ip_string (k_dstIp k);
      ss_l4proto := l4proto; ss_sport := bswap16 (k_srcPort k); ss_dport := bswap16 (k_dstPort k); ss_state := state; ss_eta := eta |}.
Proof using Type.
  intros [Hs _].
  assert (exists p, protocol_from_int_to_string (k_l4proto k) = Ok p) as [p Hp].
  { destruct Hs as [[-> _]|[[-> _]|[-> _]]]; by eexists. }
  assert (exists n, state_from_number_to_string (v_state v) = Ok n) as [n Hst].
  { destruct Hs as [[_ Hs]|[[_ Hs]|[_ Hs]]]; [..|rewrite Hs; by eexists];
      rewrite !elem_of_cons, elem_of_nil in Hs; repeat (destruct Hs as [Hs|Hs]; [rewrite Hs; by eexists|]); done. }
  exists p, n. intros eta He. unfold session_entry. rewrite Hp. cbn [res_bind]. rewrite Hst. cbn [res_bind]. by rewrite He.
Qed.

Lemma sessions_run connections acc :
  Forall (fun c => entry_ok (k_l4proto c.1) c.2) connections ->
  exists l, for_each_res connections (fun acc c => e <~ session_entry None c ;; Ok (acc ++ [e])) acc = Ok (acc ++ l) /\
    Forall2 (fun c e => session_entry None c = Ok e) connections l.
Proof using Type.
  intros Hall. revert acc. induction Hall as [|[k v] l Hk Hl IH]; intros acc; [exists []; by rewrite app_nil_r|].
  destruct (session_entry_ok None k v Hk) as (p & n & He). specialize (He 0 eq_refl). cbn [for_each_res].
  rewrite He. cbn [res_bind]. destruct (IH (acc ++ [{| ss_src := nbo_uint_to_ip_string (k_srcIp k);
    ss_dst := nbo_uint_to_ip_string (k_dstIp k); ss_l4proto := p; ss_sport := bswap16 (k_srcPort k);
    ss_dport := bswap16 (k_dstPort k); ss_state := n; ss_eta := 0 |}])) as (l' & -> & Hf).
  eexists (_ :: l'). split; [by rewrite <- app_assoc|]. by constructor.
Qed.

(** The list of sessions can always be read: with tracking off it is empty, and
    otherwise it has one entry for each connection of the table, in order, since
    every connection the datapath writes has a protocol and a state with a name
    (the remaining time is 0 when the system's uptime cannot be read). *)
Theorem sessions_listed f connections :
  fw_good f -> Forall (fun c => entry_ok (k_l4proto c.1) c.2) connections ->
  exists l, getSessionTableList None connections f = Ok l /\
    (conntrack_mode f = DISABLED -> l = []) /\
    (conntrack_mode f ≠ DISABLED -> Forall2 (fun c e => session_entry None c = Ok e) connections l).
Proof.
  intros [Hi _] Hall. pose proof (gd_label _ _ Hi) as Hl. unfold getSessionTableList, isContrackActive.
  change (conntrackMode (fw_config f)) with (conntrack_mode f) in *. destruct (decide (conntrack_mode f = DISABLED)) as [Hd|Hd].
  - exists []. by rewrite Hd.
  - rewrite (bool_decide_eq_false_2 (conntrack_mode f = DISABLED)) in Hl by done. destruct Hl as [[hop ->] _].
    assert (bool_decide (conntrack_mode f = AUTOMATIC) || bool_decide (conntrack_mode f = MANUAL) = true) as -> by (by destruct (conntrack_mode f)).
    destruct (sessions_run connections [] Hall) as (l & -> & Hf). by exists l.
Qed.
End connections.

(** * The tables of the match programs *)
Section tables.
Context `{Inet}.

(** The table of an address field: whole-octet prefixes compile to entries of
    the longest-prefix trie such that looking up any address finds the bit
    vector of exactly the rules that accept the address, or nothing when no rule
    does. *)
Theorem ip_table_correct `{LpmTrie (list Z) T} type rules (t : T) :
  wf_rules rules -> (forall r q, r ∈ rules -> prefix_of type r = Some q -> octets q.2 = true) -> l_entries t = [] ->
  exists m brk, ipFromRulesToMap type rules = Ok (m, brk) /\ (m = [] <-> omap (prefix_of type) rules = []) /\
    (Z.of_nat (length m) <= l_free t ->
     exists t', l_updates t (lpm_entries m) = Ok t' /\
       (m ≠ [] -> forall p, 0 <= p < 2 ^ 32 ->
        match l_lookup t' p with
        | Some v => represents rules (address_accepts type p) v
        | None => forall r, r ∈ rules -> address_accepts type p r = false
        end)).
Proof.
  intros Hwf Ho Ht. destruct (ip_map_spec type rules Hwf) as (m & brk & Hm & Hok). exists m, brk. split; [done|].
  pose proof (it_empty _ _ _ _ Hok) as He. split; [done|]. intros Hroom.
  destruct (l_updates_ok (lpm_entries m) t) as (t' & Ht' & _); [unfold lpm_entries; by rewrite length_fmap|].
  exists t'. split; [done|]. intros Hne p Hp. eapply lpm_lookup_spec; try done. intros Hn. by apply Hne, He.
Qed.

(** The tables of the protocol and of the ports: the entry of a value holds
    exactly the rules that accept it, a value without an entry is answered by the
    entry of 0, and when there is none either no rule accepts it. *)
Theorem key_tables_correct rules :
  wf_rules rules -> (forall r, r ∈ rules -> plain_rule r) ->
  let answers (k : ChainRule -> option Z) (m : key_map) :=
    forall x, match StdMap.find Z.ltb x m with
              | Some v => represents rules (no_field_or k (fun y => y =? x)) v
              | None =>
                  match StdMap.find Z.ltb 0 m with
                  | Some v => represents rules (no_field_or k (fun y => y =? x)) v
                  | None => forall r, r ∈ rules -> no_field_or k (fun y => y =? x) r = false
                  end
              end in
  (exists m brk, transportProtoFromRulesToMap rules = Ok (m, brk) /\ (m ≠ [] -> answers l4Proto m)) /\
  (exists m brk, portFromRulesToMap SOURCE_TYPE rules = Ok (m, brk) /\ (m ≠ [] -> answers srcPort m)) /\
  (exists m brk, portFromRulesToMap DESTINATION_TYPE rules = Ok (m, brk) /\ (m ≠ [] -> answers dstPort m)).
Proof.
  intros Hwf Hp answers. split; [|split].
  - destruct (proto_map_spec rules Hwf) as (m & brk & Hm & Ht). exists m, brk. split; [done|]. intros Hne x.
    refine (key_table_lookup rules Hwf l4Proto m brk x Ht _ Hne). intros r Hr E. pose proof (wf_proto r (wfr_rule _ Hwf r Hr) 0 E). done.
  - destruct (port_map_spec rules Hwf SOURCE_TYPE) as (m & brk & Hm & Ht). exists m, brk. split; [done|]. intros Hne x.
    refine (key_table_lookup rules Hwf srcPort m brk x Ht _ Hne). intros r Hr. apply (Hp r Hr).
  - destruct (port_map_spec rules Hwf DESTINATION_TYPE) as (m & brk & Hm & Ht). exists m, brk. split; [done|]. intros Hne x.
    refine (key_table_lookup rules Hwf dstPort m brk x Ht _ Hne). intros r Hr. apply (Hp r Hr).
Qed.

(** The tables of the connection status and of the TCP flags: a row for each of
    the four statuses, and one for each of the 256 flag bytes, with exactly the
    rules that accept it; no table when no rule has the field. *)
Theorem row_tables_correct rules :
  wf_rules rules ->
  (exists m, conntrackFromRulesToMap rules = Ok (m, false) /\
     (omap status_of rules = [] -> m = []) /\
     (omap status_of rules ≠ [] -> forall x, x ∈ statesVector ->
        exists v, StdMap.find Z.ltb x m = Some v /\ represents rules (no_field_or status_of (fun s => s =? x)) v)) /\
  (exists fl, flagsFromRulesToMap rules = Ok (fl, false) /\
     (omap tcpFlags rules = [] -> fl = []) /\
     (omap tcpFlags rules ≠ [] -> forall x, (x < 256)%nat ->
        exists v, fl !! x = Some v /\ represents rules (no_field_or tcpFlags (fun f => flags_accept f (Z.of_nat x))) v)).
Proof.
  intros Hwf. split.
  - destruct (conntrack_map_spec rules Hwf) as (m & Hm & _ & Ht). exists m. split; [done|].
    destruct Ht as [[E ->]|[Hn Ht]]; [done|]. split; [done|]. intros _ x Hx. specialize (Ht x).
    destruct (StdMap.find Z.ltb x m) as [v|]; [|done]. exists v. split; [done|apply Ht].
  - destruct (flags_map_spec rules Hwf) as (fl & Hm & Ht). exists fl. split; [done|].
    destruct Ht as [[E ->]|[Hn [Hl Ht]]]; [done|]. split; [done|]. intros _ x Hx.
    destruct (lookup_lt_is_Some_2 fl x) as [v Hv]; [by rewrite Hl|]. exists v. split; [done|by apply Ht].
Qed.

(** A rule that only forbids flags matches no TCP packet: the compiler takes no
    required flag as all of them, and the forbidden ones are then both required
    and forbidden. *)
Theorem forbidden_flags_match_nothing n p r :
  0 < n < 256 -> tcpFlags r = Some (0, n) -> p_l4proto p = IPPROTO_TCP -> 0 <= p_flags p < 256 -> rule_accepts p r = false.
Proof.
  intros Hn Hr Hp Hf.
  assert (flags_accept (0, n) (p_flags p) = false) as E.
  { pose proof (forallb_below (fun f => forallb (fun n => negb (flags_accept (0, n + 1) f)) (seqZ 0 255)) 256
      ltac:(by vm_compute) (p_flags p) Hf) as Hall. rewrite forallb_forall in Hall.
    specialize (Hall (n - 1)). rewrite <- list_elem_of_In, elem_of_seqZ in Hall. specialize (Hall ltac:(lia)).
    replace (n - 1 + 1) with n in Hall by lia. by apply negb_true_iff. }
  unfold rule_accepts. apply not_true_iff_false. rewrite forallb_forall. intros Hall.
  assert (field_accepts FFlags p r = true) as Hfa.
  { apply Hall. unfold all_fields. simpl. tauto. }
  unfold field_accepts, no_field_or in Hfa. rewrite Hr, Hp, E in Hfa. done.
Qed.

(** The multiplication by a constant and the table of 64 numbers give the
    position of the lowest bit of every word that has one. *)
Theorem bitscan_correct w :
  0 < w < 2 ^ 64 -> exists k, index64 !! Z.to_nat (bitscan_index w) = Some k /\ lowest_bit w k.
Proof. intros Hw. destruct (bitscan_lowest w Hw) as (k & Hk & Hl & _). by exists k. Qed.

(** * The rules and their text *)
(** A rule that the constructor makes from a configuration is well formed, has
    the configuration's id, and has an action. *)
Theorem make_ChainRule_ok active conf r :
  typed_conf conf -> make_ChainRule active conf = Ok r ->
  wf_rule r /\ id r = m_id conf /\ (m_action conf ≠ None -> action r = m_action conf).
Proof.
  intros Ht Hm. split; [by eapply make_ChainRule_wf|]. split; [by eapply make_ChainRule_id|].
  unfold make_ChainRule in Hm. destruct (update _ _ _) as [[[]| |] r'] eqn:Hu; [|done..]. injection Hm as <-.
  rewrite (update_action _ _ _ _ Hu). by destruct (m_action conf).
Qed.

(** C39. Printing a rule and making a rule from the result gives the rule back. *)
Theorem rule_roundtrip r : wf_rule r -> make_ChainRule true (toJsonObject r) = Ok r.
Proof. apply make_toJsonObject. Qed.

(** Two rules are equal for the operations that look rules up when they say the
    same, whatever their ids and descriptions. *)
Theorem equal_correct r s : wf_rule r -> wf_rule s -> equal r s = true <-> conditions r = conditions s.
Proof. apply equal_spec. Qed.
End tables.

(** The text of a rule's TCP flags reads back as the same flags. *)
Theorem flags_roundtrip s n :
  0 <= s < 256 -> 0 <= n < 256 -> Z.land s n = 0 ->
  flags_from_string_to_masks (flags_from_masks_to_string "" s n) = Ok (s, n).
Proof. apply flags_string_roundtrip. Qed.

(** * The theorems on concrete inputs *)
Definition example_firewall : firewall :=
  Firewall AUTOMATIC true 2 (booted example_cfg INGRESS) (booted example_cfg EGRESS).
Lemma example_firewall_good : fw_good example_firewall.
Proof. split; by apply booted_good. Qed.

Lemma setConntrack_correct_witness :
  exists f', setConntrack OFF example_firewall = (Ok tt, f') /\ fw_good f' /\ getConntrack f' = OFF.
Proof.
  destruct (setConntrack_correct OFF example_firewall example_firewall_good) as (f' & Hr & Hc & _ & Hm).
  exists f'. split; [exact Hr|]. split; [exact (fw_carried_good _ _ Hc)|exact Hm].
Defined.

Lemma setAcceptEstablished_correct_witness :
  exists f', setAcceptEstablished OFF example_firewall = (Ok tt, f') /\ getAcceptEstablished f' = OFF.
Proof.
  destruct (setAcceptEstablished_correct OFF example_firewall example_firewall_good) as [[Hd _]|(_ & f' & Hr & _ & Hm)];
    [discriminate Hd|]. exists f'. split; [exact Hr|exact Hm].
Defined.

(** Tracking is turned off and on again. *)
Lemma reconfigured_keeps_rules_witness :
  exists f1 f2, setConntrack OFF example_firewall = (Ok tt, f1) /\ setConntrack ON f1 = (Ok tt, f2) /\
    fw_carried example_firewall f2.
Proof.
  destruct (setConntrack_run OFF example_firewall example_firewall_good) as (f1 & H1 & C1 & _).
  destruct (setConntrack_run ON f1 (fw_carried_good _ _ C1)) as (f2 & H2 & _).
  exists f1, f2. split; [exact H1|]. split; [exact H2|].
  apply (reconfigured_keeps_rules example_firewall f2 example_firewall_good).
  exact (rtc_l _ _ _ _ (configures_conntrack OFF _ _ H1) (rtc_once _ _ (configures_conntrack ON _ _ H2))).
Defined.

Definition no_connections : connT (CK := ct_k) (CV := ct_v) := (∅ : gmap ct_k ct_v).
Lemma no_connections_ok : ct_ok no_connections.
Proof. intros k v Hk. change ((∅ : gmap ct_k ct_v) !! k = Some v) in Hk. by rewrite lookup_empty in Hk. Qed.

Lemma connections_stay_ok_witness :
  ct_ok (verdicts (guarded_verdict example_cfg example_rules DROP)
    [example_arrival [10; 1; 0; 2] [0; 80] 2; example_arrival [10; 1; 0; 2] [0; 80] 16] no_connections).2.
Proof. exact (connections_stay_ok example_cfg example_rules DROP _ no_connections no_connections_ok). Defined.

(** A client, and what the two ends send. *)
Definition client : packetHeaders := tcp_header 33554442 20480 0.
Definition half_open : connT (CK := ct_k) (CV := ct_v) := (update_tcp 0 no_connections (syn_of client 1000)).1.
Lemma client_unknown : connection no_connections client = None.
Proof. by vm_compute. Qed.

Lemma established_is_known_witness :
  exists v d, connection half_open (syn_ack_of client 1000 5) = Some (v, d) /\ d ≠ Miss.
Proof. apply (established_is_known half_open [] (syn_ack_of client 1000 5) []). vm_compute. reflexivity. Defined.

Lemma tcp_handshake_witness :
  label_tcp half_open (syn_ack_of client 1000 5) = CT.ESTABLISHED.
Proof.
  exact (proj1 (proj2 (tcp_handshake 0 1 2 no_connections client 1000 5 ltac:(done) client_unknown ltac:(done) ltac:(done)))).
Defined.

Lemma tcp_handshake_carry_witness :
  label_tcp (update_tcp 0 no_connections (syn_of client 255)).1 (syn_ack_of client 255 5) = CT.INVALID.
Proof. exact (tcp_handshake_carry 0 no_connections client 255 5 ltac:(done) client_unknown eq_refl). Defined.

Definition dns_query : packetHeaders :=
  {| p_srcIp := 33554442; p_dstIp := 50331658; p_l4proto := IPPROTO_UDP; p_srcPort := 36895; p_dstPort := 13568;
     p_flags := 0; p_seqN := 0; p_ackN := 0; p_connStatus := 0; p_forwardingDecision := 0 |}.
Lemma dns_unknown : connection no_connections dns_query = None.
Proof. by vm_compute. Qed.
Lemma udp_two_way_witness :
  label_udp (update_udp 0 no_connections dns_query).1 (answer dns_query 0 0 0) = CT.ESTABLISHED.
Proof.
  exact (proj1 (proj2 (udp_two_way 0 1 no_connections dns_query 0 0 0 ltac:(done) dns_unknown))).
Defined.

Definition example_session : ct_k * ct_v :=
  (CtK 33554442 50331658 IPPROTO_UDP 36895 13568,
   {| v_ttl := 31000000000; v_state := CT.NEW; v_ipRev := 0; v_portRev := 1; v_sequence := 0 |}).
Lemma sessions_listed_witness :
  exists l, getSessionTableList None [example_session] example_firewall = Ok l /\
    Forall2 (fun c e => session_entry None c = Ok e) [example_session] l.
Proof.
  destruct (sessions_listed example_firewall [example_session] example_firewall_good) as (l & Hl & _ & Hf).
  - apply List.Forall_cons; [|constructor]. split; [right; left; split; [done|by left]|]. split; [by left|by right].
  - exists l. split; [exact Hl|]. apply Hf. done.
Defined.

Lemma ip_table_correct_witness :
  exists m brk t', ipFromRulesToMap SOURCE_TYPE example_rules = Ok (m, brk) /\
    l_updates (l_new 1024 : list_lpm (list Z)) (lpm_entries m) = Ok t'.
Proof.
  destruct (ip_table_correct SOURCE_TYPE example_rules (l_new 1024 : list_lpm (list Z))) as (m & brk & Hm & _ & Hr).
  - apply (co_wf _ example_compilable).
  - intros r q Hr. apply (pl_src r (co_plain _ example_compilable r Hr)).
  - reflexivity.
  - destruct Hr as (t' & Ht & _); [|exists m, brk, t'; split; [exact Hm|exact Ht]].
    assert (exists m' brk', ipFromRulesToMap SOURCE_TYPE example_rules = Ok (m', brk') /\ length m' = 3%nat) as (m' & brk' & E & El)
      by (eexists _, _; split; [vm_compute; reflexivity|reflexivity]).
    rewrite E in Hm. injection Hm as <- <-. rewrite El. vm_compute. discriminate.
Defined.

Lemma key_tables_correct_witness :
  exists m brk, portFromRulesToMap DESTINATION_TYPE example_rules = Ok (m, brk).
Proof.
  destruct (key_tables_correct example_rules (co_wf _ example_compilable) (co_plain _ example_compilable))
    as (_ & _ & (m & brk & Hm & _)). exists m, brk. exact Hm.
Defined.

Lemma row_tables_correct_witness :
  exists m v, conntrackFromRulesToMap example_rules = Ok (m, false) /\ StdMap.find Z.ltb CT.NEW m = Some v /\
    represents example_rules (no_field_or status_of (fun s => s =? CT.NEW)) v.
Proof.
  destruct (row_tables_correct example_rules (co_wf _ example_compilable)) as [(m & Hm & _ & Ht) _].
  destruct (Ht ltac:(discriminate) CT.NEW) as (v & Hv & Hr); [by left|]. exists m, v. split; [exact Hm|]. split; [exact Hv|exact Hr].
Defined.

(** A rule on [!SYN], and a packet with ACK only. *)
Definition no_syn_rule : ChainRule :=
  {| id := 0; conntrack := None; ipSrc := None; ipDst := None; srcPort := None; dstPort := None; l4Proto := Some IPPROTO_TCP;
     tcpFlags := Some (0, TCPHDR_SYN); action := Some DROP; description := None |}.
Lemma forbidden_flags_match_nothing_witness : rule_accepts (tcp_header 0 0 TCPHDR_ACK) no_syn_rule = false.
Proof. apply (forbidden_flags_match_nothing TCPHDR_SYN); [done|reflexivity|reflexivity|done]. Defined.

Lemma bitscan_correct_witness : exists k, index64 !! Z.to_nat (bitscan_index 40) = Some k /\ lowest_bit 40 k.
Proof. exact (bitscan_correct 40 ltac:(lia)). Defined.

Lemma ssh_typed : typed_conf ssh_conf.
Proof. by split; [done|intros p [= <-]]. Qed.
Lemma make_ChainRule_ok_witness : wf_rule (ssh_rule 0) /\ id (ssh_rule 0) = 0.
Proof.
  destruct (make_ChainRule_ok true ssh_conf (ssh_rule 0) ssh_typed) as (Hw & Hi & _);
    [vm_compute; reflexivity|]. split; [exact Hw|exact Hi].
Defined.

Lemma rule_roundtrip_witness : make_ChainRule true (toJsonObject (ssh_rule 3)) = Ok (ssh_rule 3).
Proof. apply (rule_roundtrip (ssh_rule 3)). by apply rule_ok_spec. Defined.

Lemma equal_correct_witness : equal (ssh_rule 1) (ssh_rule 2) = true <-> conditions (ssh_rule 1) = conditions (ssh_rule 2).
Proof. apply (equal_correct (ssh_rule 1) (ssh_rule 2)); by apply rule_ok_spec. Defined.

Lemma flags_roundtrip_witness :
  flags_from_string_to_masks (flags_from_masks_to_string "" 2 16) = Ok (2, 16).
Proof. exact (flags_roundtrip 2 16 ltac:(done) ltac:(done) eq_refl). Defined.
