(* ===== verification/FwFlaws.v ===== *)
(** pcn-firewall, where the code does not do what it means to: concrete chains and
    packets on which the programs, or the operations, depart from the rules. *)
From Stdlib Require Import ZArith Lia.
From stdpp Require Import base gmap sets list strings numbers.
From S2P Require Import Prelude.
From S2P Require Import Vec.
From S2P Require Import Bpf.
From S2P Require Import NetUtils.
From S2P Require Import FwRule.
From S2P Require Import FwFlags.
From S2P Require Import FwRuleFacts.
From S2P Require Import FwBits.
From S2P Require Import FwMaps.
From S2P Require Import FwMapsFacts.
From S2P Require Import FwIpFacts.
From S2P Require Import Frame.
From S2P Require Import FwConntrack.
From S2P Require Import FwDatapath.
From S2P Require Import FwPipeline.
From S2P Require Import FwModules.
From S2P Require Import FwChain.
From S2P Require Import FwUpdate.
From S2P Require Import FwStages.
From S2P Require Import FwInstall.
From S2P Require Import FwUpdateChain.
From S2P Require Import FwHorus.
From S2P Require Import FwRun.
From S2P Require Import FwFirstMatch.
From S2P Require Import FwCounters.
From S2P Require Import FwConnFacts.
From S2P Require Import FwStream.
From S2P Require Import FwHorusFacts.
From S2P Require Import FwHorusRun.
From S2P Require Import FwOps.
From S2P Require Import FwBatch.
From S2P Require Import FwFirewall.
From S2P Require Import FwModes.
From S2P Require Import FwExample.
#[local] Open Scope Z_scope.
#[local] Open Scope cpp_scope.

(** The verdict of the programs of a state, and that of the rules. *)
Definition datapath_verdict (s : side) (a : arrival) : option verdict :=
  (fun o => o.1.1) <$> receive 32 (a_ctx a) (slots s) (arrives a (∅ : gmap ct_k ct_v)).
Definition rules_verdict (cfg : config) (rules : list ChainRule) (dflt : ActionEnum) (a : arrival) : verdict :=
  (firewall_verdict cfg (cfg_mode cfg) rules dflt (a_ctx a) (arrives a (∅ : gmap ct_k ct_v))).1.

Definition host_rule (n src len : Z) (a : ActionEnum) : ChainRule :=
  {| id := n; conntrack := None; ipSrc := Some {| ip := src; netmask := len; ruleId := 0 |}; ipDst := None;
     srcPort := None; dstPort := None; l4Proto := None; tcpFlags := None; action := Some a; description := None |}.
Definition related_rule (n : Z) : ChainRule :=
  {| id := n; conntrack := Some RELATED; ipSrc := None; ipDst := None; srcPort := None; dstPort := None; l4Proto := None;
     tcpFlags := None; action := Some ACCEPT; description := None |}.

(** DROP from 10.16.0.0/12, ACCEPT from 10.32.0.1. *)
Definition octet_rules : list ChainRule := [related_rule 0; host_rule 1 4106 12 DROP; host_rule 2 16785418 32 ACCEPT].

(** A prefix that does not end on an octet is compiled with a mask whose bits are
    on the wrong side of the last octet: a packet from 10.32.0.1 is dropped by the
    rule for 10.16.0.0/12, which it does not match. *)
Theorem octet_mask_wrong :
  datapath_verdict (compiled octet_rules) (example_arrival [10; 32; 0; 1] [0; 80] 2) = Some RX_DROP /\
  rules_verdict example_cfg octet_rules ACCEPT (example_arrival [10; 32; 0; 1] [0; 80] 2) = RX_OK.
Proof. split; vm_compute; reflexivity. Qed.

(** DROP of TCP port 80 from 10.10.0.0/16. *)
Definition prefix_rules : list ChainRule :=
  [{| id := 0; conntrack := None; ipSrc := Some {| ip := 2570; netmask := 16; ruleId := 0 |}; ipDst := None;
      srcPort := None; dstPort := Some 80; l4Proto := Some IPPROTO_TCP; tcpFlags := None; action := Some DROP; description := None |}].

(** The table in front of the chain takes a prefix for no condition: a first rule
    on 10.10.0.0/16 and port 80 decides packets to port 80 from anywhere. *)
Theorem horus_ignores_prefixes :
  datapath_verdict (compiled prefix_rules) (example_arrival [11; 0; 0; 1] [0; 80] 2) = Some RX_DROP /\
  rules_verdict example_cfg prefix_rules ACCEPT (example_arrival [11; 0; 0; 1] [0; 80] 2) = RX_OK.
Proof. split; vm_compute; reflexivity. Qed.

(** C0. A rule with the action LOG is accepted and stored, and from then on the chain
    does not compile any more: the operation throws, the rule stays, and the
    programs go on with the rules they had. *)
Definition log_conf : RuleConf := conf_of 0 (Some "10.0.0.9"%string) None None None (Some LOG).
Theorem log_rule_blocks_compilation :
  let s := (append example_cfg key0 log_conf (compiled example_rules)).2 in
  (append example_cfg key0 log_conf (compiled example_rules)).1 = Throw (RuntimeError "Action not supported.") /\
  length (rules_ s) = 4%nat /\
  (updateChain example_cfg key0 s).1 = Throw (RuntimeError "Action not supported.") /\
  datapath_verdict s (example_arrival [10; 0; 0; 1] [0; 22] 2) = Some RX_DROP.
Proof. split; [|split; [|split]]; vm_compute; reflexivity. Qed.

(** The firewall with tracking off, and the rules [head_rules] compiled on its ingress. *)
Definition off_cfg : config := Config DISABLED true 2.
Definition exact_rules : list ChainRule := [ssh_rule 0].
Definition untracked : side :=
  let f := Firewall AUTOMATIC true 2 (booted example_cfg INGRESS) (booted example_cfg EGRESS) in
  (updateChain off_cfg key0 (set_rules (Some <$> exact_rules) (ingress (setConntrack OFF f).2))).2.

(** With tracking off, a packet that the table does not decide is handed to the
    label program, which is not loaded, and is dropped, whatever the rules and the
    default action say. *)
Theorem horus_miss_untracked :
  datapath_verdict untracked (example_arrival [10; 0; 0; 7] [0; 80] 2) = Some RX_DROP /\
  rules_verdict off_cfg exact_rules ACCEPT (example_arrival [10; 0; 0; 7] [0; 80] 2) = RX_OK.
Proof. split; vm_compute; reflexivity. Qed.

(** An ACCEPT rule that the table holds. *)
Definition open_rules : list ChainRule := [set_action (Some ACCEPT) (ssh_rule 0)].
Definition before_off : firewall := Firewall AUTOMATIC true 2 (compiled open_rules) (booted example_cfg EGRESS).

(** Turning tracking off does not reload the table's program, which goes on
    handing accepted packets to the label program that has just been removed:
    packets that the first rule accepts are then dropped. *)
Theorem horus_stale_after_off :
  datapath_verdict (ingress before_off) (example_arrival [10; 0; 0; 1] [0; 22] 2) = Some RX_OK /\
  datapath_verdict (ingress (setConntrack OFF before_off).2) (example_arrival [10; 0; 0; 1] [0; 22] 2) = Some RX_DROP /\
  rules_verdict off_cfg open_rules ACCEPT (example_arrival [10; 0; 0; 1] [0; 22] 2) = RX_OK.
Proof. split; [|split]; vm_compute; reflexivity. Qed.

(** A rule that a batch's constructor rejects with a thrown pointer. *)
Definition related_conf : RuleConf := conf_of 0 None None None (Some RELATED) (Some DROP).
Definition drop_conf : RuleConf := conf_of 0 (Some "10.0.0.7"%string) None None None (Some DROP).
Definition untracked_empty : side :=
  let f := Firewall AUTOMATIC true 2 (booted example_cfg INGRESS) (booted example_cfg EGRESS) in
  (updateChain off_cfg key0 (ingress (setConntrack OFF f).2)).2.

(** An exception thrown as a pointer (a rule on the connection status while
    tracking is off) escapes a batch's handler and leaves the chain in batch mode:
    rules that are added later are stored and reported as added, but never
    compiled, and packets go on as before. *)
Theorem batch_left_open :
  let b := batch off_cfg key0 (Some [(APPEND, related_conf)]) untracked_empty in
  let a := append off_cfg key0 drop_conf b.2 in
  b.1 = Throw (ThrownPointer "Please enable the connection tracking module.") /\
  is_single_op_on_chain b.2 = false /\ a.1 = Ok 0 /\ length (rules_ a.2) = 1%nat /\
  datapath_verdict a.2 (example_arrival [10; 0; 0; 7] [0; 80] 2) = Some RX_OK /\
  rules_verdict off_cfg [host_rule 0 117440522 32 DROP] ACCEPT (example_arrival [10; 0; 0; 7] [0; 80] 2) = RX_DROP.
Proof. cbv zeta. split; [|split; [|split; [|split; [|split]]]]; vm_compute; reflexivity. Qed.
